(* ===== verification/_CoqProject ===== *)
-Q . S2P
Prelude.v
Keep.v
FcInt.v
ObjectId.v
ObjectDb.v
UndoProof.v
UndoRefine.v
Block.v
ForkDb.v
ForkProof.v
FlatMap.v
Uid.v
Utf8.v
Names.v
Authority.v
AuthorityProof.v
AuthorityClaims.v
Asset.v
Pledge.v
Parameters.v
ContentState.v
ChainState.v
AccountStats.v
Voter.v
Voting.v
WitnessSchedule.v
MapSum.v
VoterProof.v
VoterClaims.v
Balance.v
Transfer.v
Frame.v
Ledger.v
TransferProof.v
CsafProof.v
Market.v
MarketProof.v
ScheduleProof.v
Fee.v
AssetOps.v
Payroll.v
Mining.v
Treasury.v
TreasuryProof.v
MiningProof.v
WitnessOps.v
Books.v
SupplySteps.v
BlockUpdate.v
Committee.v
Platform.v
Account.v
Proxy.v
Advertising.v
Content.v
Awards.v
Proposal.v
BlockProof.v
SupplyBlock.v
AccountProof.v
AdvertisingClaims.v
ContentProof.v
ContentClaims.v
AwardsProof.v
ProposalClaims.v
CustomVote.v
ProxyProof.v
ProxyClaims.v
AccountClaims.v
CommitteeProof.v
SupplyClaims.v
CommitteeClaims.v
BlockClaims.v
AssetClaims.v
FeeClaims.v
PushBlock.v
PushProof.v
SwitchProof.v
PushClaims.v
ApplyBlock.v
