(* ===== verification/Prelude.v ===== *)
(** * YOYOW core: a verification development

    YOYOW is a delegated proof-of-stake blockchain of the graphene family.  A
    node keeps all chain state in an in-memory object database, applies the
    blocks of the best fork to it one transaction at a time, and can take any
    of that back.  This library models the consensus code of the node (C++
    under src/libraries/db and src/libraries/chain) as executable functions
    and proves what the code promises.

    ** The parts and how they interact

    A block enters the fork database, which says what the head of the longest
    branch is.  If the head moves to another branch, blocks are popped through
    the undo history and the new branch is applied.  A transaction is checked
    for the authority of the accounts it concerns, then each of its operations
    is run by an evaluator inside an undo session.  Evaluators move coins
    (balances, prepaid coins, orders, fees), which changes the votes and the
    coin-seconds of accounts; votes and pledges decide which witnesses produce
    the next blocks.  Platforms publish content, whose authors and readers are
    paid from a budget, and sell advertisements.  Proposals are transactions that
    wait for approvals.  At its end a block works off what is due.

    ** Files

    Shared:
    - Prelude: exceptions, the result type and the state-and-exception monad
      [M] of handlers, their inversion tactics ([inv_ok], [peel], [step]),
      wrap-around of machine integers, sums, assignment to fields of records.
    - Keep: the monad [N] of code that goes on after it caught an exception.
    - FcInt: the integer types of fc (safe int64, uint128, bigint) as a class
      with its laws, and an instance.
    - FlatMap: boost::flat_map and flat_set, and std::map, as ordered lists.
    - MapSum: sums over finite maps, equality modulo 2^64 as a congruence.

    Storage:
    - ObjectId: db/object_id.hpp.
    - ObjectDb: db/index.hpp, generic_index.hpp, object_database.cpp,
      undo_database.cpp and sessions.  UndoProof and UndoRefine: its proofs.
    - Block: protocol/block.cpp.  ForkDb: fork_database.cpp.  ForkProof: its
      invariant and branches.

    Identity and authority:
    - Uid: the checksum of account uids (protocol/types.cpp).  Utf8: the UTF-8
      library under chain/utf8.  Names: the rules for names and texts
      (protocol/account.cpp, content.cpp).
    - Authority: authority.hpp and the check of protocol/transaction.cpp.
      AuthorityProof, AuthorityClaims: its proofs.

    Economy and governance:
    - Asset: protocol/asset.hpp, asset.cpp.  Pledge: pledge_balance_object of
      account_object.hpp and the release loop of db_update.cpp.
    - Parameters: protocol/chain_parameters.hpp and the proposals of the
      committee (protocol/committee_member.cpp, committee_member_object.cpp).
      ContentState: the objects of content_object.hpp, advertising_object.hpp and
      custom_vote_object.hpp.
    - ChainState: the database as a record of maps, one per index, with the
      accessors of db_getter.cpp.  AccountStats: account_object.cpp.
    - Voter: db_voter.cpp.  VoterProof, VoterClaims: its proofs.  Voting: the
      three operations that vote (witness, committee and content evaluators).
    - WitnessSchedule: db_witness_schedule.cpp and get_witness_pay_by_pledge.
      ScheduleProof: its proofs.
    - Balance: db_balance.cpp.  Transfer: transfer_evaluator.cpp,
      balance_lock_evaluator.cpp, csaf_evaluator.cpp and the validation of
      their operations.  Market: db_market.cpp and market_evaluator.cpp.
    - Frame (what an operation leaves alone) and Ledger (where the coins are,
      and the accounting of a step) carry the proofs of TransferProof,
      CsafProof and MarketProof.

    Operations and their fees:
    - Fee: evaluator.hpp, evaluator.cpp, the fees of protocol/base.hpp and
      operations.cpp, set_fee_with_csaf of fee_schedule.cpp.  FeeClaims: its
      theorems.
    - AssetOps: asset_evaluator.cpp and protocol/asset_ops.cpp.  AssetClaims:
      its theorem.
    - Payroll: the pay of a block, budgets and hardfork steps of db_update.cpp
      and db_block.cpp, and the operations that collect pay and bonuses
      (witness, pledge mining, content and account evaluators).
    - Mining: pledge_mining_evaluator.cpp and the bonuses of db_update.cpp and
      witness_object.hpp.
    - WitnessOps: witness_evaluator.cpp and protocol/witness.cpp.
    - Committee: committee_member_evaluator.cpp and the execution of its proposals
      in db_update.cpp.  CommitteeProof, CommitteeClaims: its proofs.
    - Account: account_evaluator.cpp and protocol/account.cpp; Proxy: the choice
      of a proxy among them.  AccountProof, AccountClaims, ProxyProof and
      ProxyClaims: their proofs.
    - Platform and Content: content_evaluator.cpp and protocol/content.cpp.
      ContentProof, ContentClaims: their proofs.
    - Advertising: advertising_evaluator.cpp and protocol/advertising.cpp.
      AdvertisingClaims: its proofs.
    - Proposal: proposal_evaluator.cpp, proposal_object.cpp, protocol/proposal.cpp
      and push_proposal of db_block.cpp, with the other evaluators behind the
      interface [proposals.Evaluators].  ProposalClaims: its proofs, and transfers
      as an instance.
    - CustomVote: custom_vote_evaluator.cpp, protocol/custom_vote.cpp and the plugin
      that counts the votes (plugins/non_consensus), with its proofs.

    What a block runs besides its operations:
    - BlockUpdate: db_update.cpp, with the loops over indexes of due objects
      as [drain].  BlockProof, BlockClaims: its proofs.
    - Awards: the awards for content and by votes of db_update.cpp.  AwardsProof:
      that they pay what they take from the budget.
    - Treasury (the coins in circulation against the supply an asset records),
      TreasuryProof, MiningProof, Books, SupplySteps and SupplyBlock
      show of every operation and update that it keeps the two equal, or how far
      they part; SupplyClaims composes them into runs of the chain ([ops.chain_run]).

    Blocks:
    - PushBlock: block_database.cpp, and the pushing and popping of
      blocks and transactions (db_block.cpp, db_with.hpp) and closing
      (db_management.cpp), with the state of the chain behind the interface
      [push.Chain].  PushProof (sessions, what a node keeps), SwitchProof (the
      two branches of a switch) and PushClaims: its proofs and a small chain.
    - ApplyBlock: what applying a block and a transaction does (db_block.cpp), which
      composes the other components into an instance of [push.Chain].

    ** How code corresponds to definitions

    Definitions keep the names of the functions they model; a C++ member
    function is a function of the object, a function of [database] a
    computation in [M database].  [FC_ASSERT] is [fc_assert], an exception is
    [Throw] with its class, and a handler that throws yields no state: its
    undo session restores the database ([undo_session_restores] of UndoRefine).
    (The fork database is outside the undo history; there every throw precedes
    the first change.)  Where an exception is caught and the code goes on
    (pushing blocks, proposals of the committee), the monad [N] of Keep keeps
    the state when it throws.
    The C++ standard gives some executions no meaning (a null pointer
    dereferenced, [--end()] of an empty container): these throw
    [undefined_behaviour].  Integers are [Z]; share_type throws on overflow as
    fc::safe does, unsigned members are wrapped ([u64], [u32]) where the code
    lets them wrap.  Loops over a container recurse on the list.  A loop of
    another kind takes fuel computed from its input, and throws [out_of_fuel]
    if it runs out: the merkle loop (the number of digests), which C5 shows to be
    enough; the walks of fetch_branch_from (one more than the block number
    walked from), which [fetch_branch_from_terminates] of ForkProof does; the scan
    of a name (its bytes), C17; the loops over due objects (the size of the
    index when the loop starts), C34 and for proposals C2; the loop over
    invalid voters (the number of voters and of those it may process), for
    which no theorem says that it is; popping blocks (one more than the states
    in the undo history), of which C40 shows that it is enough for a switch
    of forks.  The recursion of authorities is bounded by the code itself, and so
    is the walk along proxies.  How deep proposals may execute proposals is
    bounded by the stack only: it is an argument, and beyond it the model
    throws [stack_overflow], which no handler catches.

    Witnesses, committee members and platforms are keyed by account: the model
    keeps the account's current object, and those that were replaced, until
    their votes are cleared, in maps of their own.

    Code outside the repository is an argument: the arithmetic of fc
    ([FcInt], with the laws the code relies on), sha224/sha256 and digests,
    recovery of keys from signatures, and the configured constants
    ([ChainConfig]).

    ** What is proved

    - Undo history: it refines a stack of full snapshots (C1).
    - Proposals: the expired ones are worked off to the end, and only those with
      enough approvals are executed (C2).
    - Advertising: a place is sold once for every moment (C3).
    - Content: the shares of a post stay whole (C4).
    - Blocks and forks: the merkle loop computes the root of the tree over the
      transactions (C5); an invariant of all reachable fork databases (C6);
      what push_block throws, and what it does to the items, the index and the
      head, on every branch (C7); no transaction is applied twice (C9).
    - Texts: encoding and decoding UTF-8 are inverse (C8); which names are
      accepted (C17).
    - Authority: a transaction that passes satisfies the reference definition
      of authority for all it requires, with no useless signature (C11); an
      authority satisfied within the recursion limit is accepted (C12).
    - Prices: conversions and their rounding (C14).
    - Pledges: an update conserves what is pledged and releasing, and its queue
      holds all that is releasing but for the entry a full queue overwrites (C16), which is
      then lost (C18).
    - Coin-seconds are bounded (C19), and leases add up (C31).
    - Votes: effective votes follow votes (C20); tallies agree with ballots
      and proxies (C21); proxies never lead back to the voter (C10); custom votes
      are counted right (C30).
    - Committee: a proposal is approved when the committee in office approves it
      (C15); withdrawing a pledge creates coins (C13).
    - Accounts: the registry stays sound (C22).
    - Coins: a transfer moves exactly its amount (C23) and the market
      conserves every asset (C25); a transfer that spends a balance without
      active authority (C24); a match is fair (C26).
    - Schedule: slots and times correspond (C27), who is chosen (C28), every
      chosen witness has one slot per round (C29).
    - Account uids: checksum round trip (C32).
    - Supply: over any run of the modelled operations with their fees and of
      the updates of blocks that meets the conditions of [ops.operation_ok] and
      [ops.update_ok], the coins in circulation are those the assets
      record, and those paid without cover when the last pledge leaves a witness (C33).
    - Blocks' updates: the loops that take the first of an index while it is due end, and
      with what left (C34; not the execution of the committee's proposals and the
      loop over invalid voters);
      what becomes irreversible was confirmed by three quarters (C35).
    - Assets stay well formed and keep their identity (C36).
    - Fees are paid exactly (C37); the fee a client sets is accepted (C38).
    - Nodes: whatever is pushed or thrown, a node is at the end of a chain of
      applied blocks, with the states before them in its undo history (C39); a
      block is pushed entirely or not at all, also when the node switches to
      another branch within the reach of its undo history and back (C40).
    Theorems without a number say more of the same parts.  Some theorems and
    examples show what the code does not mean to do, such as C13, C18 and C24, the
    proposal a stranger stops or the vote an order miscounts.

    ** Not modelled

    The network (libraries/net), the application and its API, the other plugins,
    wallet and programs are I/O around the chain.  Contracts run on a vendored
    WebAssembly engine, whose semantics would decide what their operations do.
    Serialization, genesis, and opening, reindexing and saving the database,
    are I/O or generated data.  Of the modelled files: ForkDb leaves out
    [_push_next], which nothing calls; Asset leaves out [call_price], AssetOps the
    text formats of amounts, Market the virtual operations it records, PushBlock
    [generate_block], ApplyBlock the notification of observers and
    [check_invariants], a self-check that a node can be told to run.  The fee
    schedule of operations is an argument. *)
From stdpp Require Export base gmap sets list strings sorting.
From Stdlib Require Export ZArith Lia.

(** ** Exceptions

    The C++ code reports failures by throwing.  [exn] lists the exception
    classes the modelled code throws; [undefined_behaviour] marks an execution
    the C++ standard gives no meaning to (a null pointer dereference, [--end()]
    on an empty container, a division by zero); [stack_overflow] marks calls nested
    deeper than an execution can hold; [out_of_fuel] is no exception
    of the code but the exhaustion of the fuel of a modelled loop, which the
    termination theorems show not to happen. *)
Inductive exn :=
| assert_exception
| overflow_exception
| unlinkable_block_exception
| invalid_committee_approval
| tx_missing_owner_auth
| tx_missing_active_auth
| tx_missing_secondary_auth
| tx_missing_other_auth
| tx_irrelevant_sig
| tx_duplicate_sig
| name_type_exception
| insufficient_fee
| undo_database_exception
| pop_empty_chain
| key_not_found_exception
| out_of_range
| utf8_not_enough_room
| utf8_invalid
| utf8_invalid_code_point
| undefined_behaviour
| stack_overflow
| out_of_fuel.

#[global] Instance exn_eq_dec : EqDecision exn.
Proof. solve_decision. Defined.

(** ** Results: a value or a thrown exception *)
Inductive result (A : Type) : Type :=
| Ok (a : A)
| Throw (e : exn).
Arguments Ok {_} _.
Arguments Throw {_} _.

#[global] Instance Ok_inj {A} : Inj (=) (=) (@Ok A).
Proof. by intros x y [= ->]. Qed.

#[global] Instance result_ret : MRet result := fun A a => Ok a.
#[global] Instance result_bind : MBind result := fun A B f m =>
  match m with Ok a => f a | Throw e => Throw e end.
#[global] Instance result_fmap : FMap result := fun A B f m =>
  match m with Ok a => Ok (f a) | Throw e => Throw e end.

#[global] Instance result_eq_dec {A} `{EqDecision A} : EqDecision (result A).
Proof. solve_decision. Defined.

(** [FC_ASSERT(b)] in a pure expression. *)
Definition guard_ok (b : bool) (e : exn) : result unit :=
  if b then Ok tt else Throw e.

Definition is_ok {A} (r : result A) : bool :=
  match r with Ok _ => true | Throw _ => false end.

(** [*p] for a pointer returned by a [find_*] accessor. *)
Definition deref {A} (o : option A) (e : exn) : result A :=
  match o with Some a => Ok a | None => Throw e end.

Lemma bind_ok {A B} (m : result A) (f : A -> result B) b :
  m ≫= f = Ok b <-> exists a, m = Ok a /\ f a = Ok b.
Proof. destruct m; cbn; naive_solver. Qed.

Lemma guard_ok_inv b e u : guard_ok b e = Ok u <-> b = true.
Proof. destruct b, u; cbn; naive_solver. Qed.

Lemma deref_ok {A} (o : option A) e a : deref o e = Ok a <-> o = Some a.
Proof. destruct o; cbn; naive_solver. Qed.

(** ** State-and-exception computations

    A handler that mutates the database is a function from the database to a
    result carrying the new database.  A thrown exception carries no database:
    every handler runs inside an undo session whose destructor restores the
    database it started from (see [ObjectDb]). *)
Definition M (S A : Type) : Type := S -> result (A * S).

#[global] Instance M_ret {S} : MRet (M S) := fun A a s => Ok (a, s).
#[global] Instance M_bind {S} : MBind (M S) := fun A B f m s =>
  match m s with Ok (a, s') => f a s' | Throw e => Throw e end.

Section state_ops.
Context {S : Type}.
Definition get : M S S := fun s => Ok (s, s).
Definition gets {A} (f : S -> A) : M S A := fun s => Ok (f s, s).
Definition put (s : S) : M S unit := fun _ => Ok (tt, s).
Definition upd (f : S -> S) : M S unit := fun s => Ok (tt, f s).
Definition throw {A} (e : exn) : M S A := fun _ => Throw e.
(** [FC_ASSERT(b)]. *)
Definition fc_assert (b : bool) : M S unit := fun s =>
  if b then Ok (tt, s) else Throw assert_exception.
Definition lift {A} (r : result A) : M S A := fun s =>
  match r with Ok a => Ok (a, s) | Throw e => Throw e end.
Definition when (b : bool) (m : M S unit) : M S unit :=
  if b then m else mret tt.
End state_ops.

Fixpoint mfor {S A} (f : A -> M S unit) (l : list A) : M S unit :=
  match l with
  | [] => mret tt
  | x :: l' => f x ;; mfor f l'
  end.

Section state_lemmas.
Context {S : Type}.
Implicit Types s : S.

Lemma mbind_ok {A B} (m : M S A) (f : A -> M S B) s r :
  (m ≫= f) s = Ok r <-> exists a s', m s = Ok (a, s') /\ f a s' = Ok r.
Proof.
  unfold mbind, M_bind. destruct (m s) as [[a s']|e]; [|naive_solver].
  split; [eauto|]. intros (?&?&?&?); naive_solver.
Qed.
Lemma mret_ok {A} (a : A) s r : (mret a : M S A) s = Ok r <-> r = (a, s).
Proof. unfold mret, M_ret. naive_solver. Qed.
Lemma fc_assert_ok b s r : fc_assert b s = Ok r <-> b = true /\ r = (tt, s).
Proof. unfold fc_assert. destruct b; naive_solver. Qed.
Lemma lift_ok {A} (m : result A) s r :
  lift m s = Ok r <-> exists a, m = Ok a /\ r = (a, s).
Proof. unfold lift. destruct m; naive_solver. Qed.
Lemma gets_ok {A} (f : S -> A) s r : gets f s = Ok r <-> r = (f s, s).
Proof. unfold gets. naive_solver. Qed.
Lemma get_ok s r : get s = Ok r <-> r = (s, s).
Proof. unfold get. naive_solver. Qed.
Lemma upd_ok (f : S -> S) s r : upd f s = Ok r <-> r = (tt, f s).
Proof. unfold upd. naive_solver. Qed.
Lemma put_ok s s' r : put s s' = Ok r <-> r = (tt, s).
Proof. unfold put. naive_solver. Qed.

(** A property every step of a loop preserves is preserved by the loop. *)
Lemma mfor_inv {A} (P : S -> Prop) (f : A -> M S unit) l s r :
  (forall x s1 r1, x ∈ l -> P s1 -> f x s1 = Ok r1 -> P r1.2) ->
  P s -> mfor f l s = Ok r -> P r.2.
Proof.
  revert s. induction l as [|x l IH]; intros s Hstep HP; cbn.
  - by intros [= <-].
  - intros ([] & s1 & Hx & Hl)%mbind_ok.
    eapply IH, Hl; [|by eapply (Hstep x s (tt, s1)); [left|..]].
    intros; eapply Hstep; [by right|..]; eauto.
Qed.
End state_lemmas.

(** [inv_ok] decomposes a successful monadic run into its steps. *)
Ltac inv_ok1 :=
  match goal with
  | H : (_ ≫= _) _ = Ok _ |- _ =>
      apply mbind_ok in H; destruct H as (? & ? & ? & H)
  | H : @mbind result _ _ _ _ _ = Ok _ |- _ =>
      apply bind_ok in H; destruct H as (? & ? & H)
  | H : mret _ _ = Ok _ |- _ => apply mret_ok in H
  | H : fc_assert _ _ = Ok _ |- _ => apply fc_assert_ok in H; destruct H as [? H]
  | H : lift _ _ = Ok _ |- _ => apply lift_ok in H; destruct H as (? & ? & H)
  | H : gets _ _ = Ok _ |- _ => apply gets_ok in H
  | H : get _ = Ok _ |- _ => apply get_ok in H
  | H : upd _ _ = Ok _ |- _ => apply upd_ok in H
  | H : put _ _ = Ok _ |- _ => apply put_ok in H
  | H : throw _ _ = Ok _ |- _ => discriminate H
  | H : Throw _ = Ok _ |- _ => discriminate H
  | H : Ok _ = Ok _ |- _ => injection H as H
  | H : guard_ok _ _ = Ok _ |- _ => apply guard_ok_inv in H
  | H : deref _ _ = Ok _ |- _ => apply deref_ok in H
  | H : @mret result _ _ _ = Ok _ |- _ => injection H as H
  | H : (_, _) = (_, _) |- _ => apply pair_equal_spec in H; destruct H as [? ?]
  | H : ?x = ?x |- _ => clear H
  | x : unit |- _ => destruct x
  end.
Ltac inv_ok := repeat (inv_ok1; subst).

(** [peel H as x Hp] takes the first step off the run [H] when that step leaves
    the state alone: [x] is its result and [Hp] what it tells. *)
Tactic Notation "peel" hyp(H) "as" ident(x) ident(Hp) :=
  let s := fresh "s" in let E := fresh "E" in
  apply mbind_ok in H; destruct H as (x & s & Hp & H);
  lazymatch type of Hp with
  | lift _ _ = Ok _ =>
      apply lift_ok in Hp; destruct Hp as (? & Hp & E); injection E as <- ->
  | fc_assert _ _ = Ok _ => apply fc_assert_ok in Hp; destruct Hp as [Hp E]; injection E as _ ->
  | get _ = Ok _ => apply get_ok in Hp; injection Hp as -> ->
  | gets _ _ = Ok _ => apply gets_ok in Hp; injection Hp as -> ->
  end.
(** [step H as x s Hs] takes one step that may change the state. *)
Tactic Notation "step" hyp(H) "as" ident(x) ident(s) ident(Hs) :=
  apply mbind_ok in H; destruct H as (x & s & Hs & H).

(** Boolean tests of the code, as propositions. *)
Ltac bool_to_prop :=
  repeat match goal with
  | H : _ && _ = true |- _ => apply andb_prop in H; destruct H
  | H : _ || _ = false |- _ => apply orb_false_elim in H; destruct H
  | H : negb _ = true |- _ => apply negb_true_iff in H
  | H : negb _ = false |- _ => apply negb_false_iff in H
  | H : bool_decide _ = true |- _ => apply bool_decide_eq_true in H
  | H : bool_decide _ = false |- _ => apply bool_decide_eq_false in H
  | H : (_ <? _)%Z = true |- _ => apply Z.ltb_lt in H
  | H : (_ <? _)%Z = false |- _ => apply Z.ltb_ge in H
  | H : (_ <=? _)%Z = true |- _ => apply Z.leb_le in H
  | H : (_ <=? _)%Z = false |- _ => apply Z.leb_gt in H
  | H : (_ =? _)%Z = true |- _ => apply Z.eqb_eq in H
  | H : (_ =? _)%Z = false |- _ => apply Z.eqb_neq in H
  end.

(** ** Machine integers *)
Section machine_integers.
Local Open Scope Z_scope.

(** Conversion to a [w]-bit unsigned integer. *)
Definition wrap (w x : Z) : Z := x mod 2 ^ w.
Definition u8 : Z -> Z := wrap 8.
Definition u16 : Z -> Z := wrap 16.
Definition u32 : Z -> Z := wrap 32.
Definition u64 : Z -> Z := wrap 64.
(** Conversion to [int64_t] (two's complement). *)
Definition i64 (x : Z) : Z := (x + 2 ^ 63) mod 2 ^ 64 - 2 ^ 63.

Definition int64_ok (x : Z) : bool := (- 2 ^ 63 <=? x) && (x <? 2 ^ 63).
Definition is_uint (w x : Z) : Prop := 0 <= x < 2 ^ w.

Lemma wrap_bound w x : 0 <= w -> is_uint w (wrap w x).
Proof. intros. apply Z.mod_pos_bound. lia. Qed.
Lemma wrap_small w x : is_uint w x -> wrap w x = x.
Proof. intros. by apply Z.mod_small. Qed.
Lemma int64_ok_iff x : int64_ok x = true <-> - 2 ^ 63 <= x < 2 ^ 63.
Proof. unfold int64_ok. rewrite andb_true_iff, Z.leb_le, Z.ltb_lt. done. Qed.
Lemma i64_small x : int64_ok x = true -> i64 x = x.
Proof.
  rewrite int64_ok_iff. intros. unfold i64. rewrite Z.mod_small; lia.
Qed.
End machine_integers.

(** ** Sums *)
Fixpoint zsum (l : list Z) : Z :=
  match l with [] => 0 | x :: l' => x + zsum l' end%Z.

Lemma zsum_app l k : zsum (l ++ k) = (zsum l + zsum k)%Z.
Proof. induction l as [|x l IH]; cbn; lia. Qed.

Lemma zsum_perm l k : l ≡ₚ k -> zsum l = zsum k.
Proof. induction 1; cbn; lia. Qed.

(** ** Folding a map that is updated key by key

    A loop over a map whose body, at key [i], only touches what [view] shows
    at [i], acts independently on every key. *)
Lemma map_fold_view {K A R X} `{Countable K} (view : R -> K -> X)
    (f : K -> A -> R -> R) (g : A -> X -> X) (m : gmap K A) (r : R) (k : K) :
  (forall i a s, view (f i a s) i = g a (view s i)) ->
  (forall i j a s, i <> j -> view (f i a s) j = view s j) ->
  view (map_fold f r m) k =
  match m !! k with Some a => g a (view r k) | None => view r k end.
Proof.
  intros Hsame Hother. revert k.
  apply (map_fold_weak_ind (fun s m' => forall k,
    view s k = match m' !! k with Some a => g a (view r k) | None => view r k end)).
  - intros k. by rewrite lookup_empty.
  - intros i x m' s Hi IH k. destruct (decide (i = k)) as [->|Hne].
    + rewrite Hsame, lookup_insert_eq, IH, Hi. done.
    + rewrite Hother, lookup_insert_ne by done. apply IH.
Qed.

(** ** Record update

    The C++ code assigns fields of objects in [modify] callbacks.
    [r <| f := v |>] is the record [r] with field [f] set to [v] and
    [r <| f ::= g |>] the one with [g] applied to the field.  A record type
    opts in with a [Fields] instance listing its projections; the setter of a
    field is then found by replacing that projection in the list. *)
Definition of_ctor {E A} (x : A) : E -> A := fun _ => x.
Definition with_field {E A B} (f : E -> A -> B) (x : E -> A) : E -> B := fun e => f e (x e).

Declare Scope record_scope.
Delimit Scope record_scope with record.
Notation "f <*> x" := (with_field f x) (at level 40, left associativity) : record_scope.

(** Rebuilding a record from its own fields. *)
Class Fields (R : Type) := rebuild : R -> R.

(** Updating one field. *)
Class Setter {R T : Type} (proj : R -> T) := set_field : (T -> T) -> R -> R.

Ltac find_setter proj :=
  lazymatch type of proj with
  | ?R -> _ =>
      let inst := constr:(_ : Fields R) in
      let b := eval red in inst in
      let b := lazymatch b with
               | context [with_field] => b
               | _ => eval unfold inst in inst
               end in
      lazymatch eval pattern proj in b with
      | ?h _ =>
          let t := eval cbv beta delta [with_field of_ctor] in
            (fun g (r : R) => h (fun r' => g (proj r')) r) in
          exact t
      end
  end.
#[export] Hint Extern 1 (Setter ?proj) => find_setter proj : typeclass_instances.

Notation "r <| f := v |>" := (set_field (proj := f) (fun _ => v) r)
  (at level 12, left associativity, f constr at level 8, v constr at level 200,
   format "r  <| f  :=  v |>") : record_scope.
Notation "r <| f ::= g |>" := (set_field (proj := f) g r)
  (at level 12, left associativity, f constr at level 8, g constr at level 200,
   format "r  <| f  ::=  g |>") : record_scope.
Open Scope record_scope.
