(* ===== verification/Keep.v ===== *)
(** * Computations that keep the state when they throw

    The monad [M] of handlers drops the state when an exception is thrown, since
    an undo session restores it.  Where code catches an exception and goes on,
    what was changed before it was thrown stays: a computation in [N] yields
    its result or exception together with the state it leaves. *)
From S2P Require Import Prelude.

Definition N (S A : Type) : Type := S -> result A * S.
#[global] Instance N_ret {S} : MRet (N S) := fun A a s => (Ok a, s).
#[global] Instance N_bind {S} : MBind (N S) := fun A B f m s =>
  match m s with (Ok a, s') => f a s' | (Throw e, s') => (Throw e, s') end.

Section operations.
Context {S : Type}.
#[local] Notation N := (N S).

Definition nget : N S := fun s => (Ok s, s).
Definition nupd (f : S -> S) : N unit := fun s => (Ok tt, f s).
Definition nlift {A} (r : result A) : N A := fun s => (r, s).
(** [try m catch f]. *)
Definition ntry {A} (m : N A) (f : exn -> N A) : N A := fun s =>
  match m s with (Ok a, s') => (Ok a, s') | (Throw e, s') => f e s' end.
(** Code after [m] in a destructor, which runs whether [m] throws or not. *)
Definition nfinally {A} (m : N A) (f : N unit) : N A := fun s =>
  let '(r, s') := m s in let '(_, s'') := f s' in (r, s'').
Fixpoint nfor {A} (f : A -> N unit) (l : list A) : N unit :=
  match l with [] => mret tt | x :: l' => f x ;; nfor f l' end.
Fixpoint nfold {A B} (f : B -> A -> N B) (b : B) (l : list A) : N B :=
  match l with [] => mret b | x :: l' => b' ← f b x; nfold f b' l' end.
Definition nwhen (b : bool) (m : N unit) : N unit := if b then m else mret tt.
(** A call that throws before it changes anything. *)
Definition call {A} (m : M S A) : N A := fun s =>
  match m s with Ok (a, s') => (Ok a, s') | Throw e => (Throw e, s) end.
(** Inside an operation, whose undo session takes back what was changed. *)
Definition in_operation {A} (m : N A) : M S A := fun s =>
  match m s with (Ok a, s') => Ok (a, s') | (Throw e, _) => Throw e end.
End operations.

(** ** Rules *)
Section rules.
Context {S : Type}.
#[local] Notation N := (N S).
Implicit Types (P Q : S -> Prop) (s : S).

(** Whether [m] throws or not, it leads from [P] to [Q]. *)
Definition leads {A} P Q (m : N A) : Prop := forall s, P s -> Q (m s).2.
#[local] Notation holds P m := (leads P P m).

Lemma leads_bind {A B} P Q (m : N A) (f : A -> N B) :
  leads P Q m -> (forall a, holds Q (f a)) -> leads P Q (m ≫= f).
Proof.
  intros Hm Hf s Hs. unfold mbind, N_bind. specialize (Hm s Hs).
  destruct (m s) as [[a|e] s']; [by apply Hf|done].
Qed.
Lemma holds_get {B} P (f : S -> N B) : (forall s, P s -> P (f s s).2) -> holds P (nget ≫= f).
Proof. intros Hf s Hs. by apply Hf. Qed.
Lemma holds_ret {A} P (a : A) : holds P (mret a : N A).
Proof. by intros s. Qed.
Lemma holds_lift {A} P (r : result A) : holds P (nlift r : N A).
Proof. by intros s. Qed.
Lemma holds_upd P (f : S -> S) : (forall s, P s -> P (f s)) -> holds P (nupd f).
Proof. intros Hf s. apply Hf. Qed.
Lemma holds_try {A} P (m : N A) (f : exn -> N A) :
  holds P m -> (forall e, holds P (f e)) -> holds P (ntry m f).
Proof.
  intros Hm Hf s Hs. unfold ntry. specialize (Hm s Hs).
  destruct (m s) as [[a|e] s']; [done|by apply Hf].
Qed.
Lemma leads_finally {A} P Q R (m : N A) (f : N unit) :
  leads P Q m -> leads Q R f -> leads P R (nfinally m f).
Proof.
  intros Hm Hf s Hs. unfold nfinally. specialize (Hm s Hs). destruct (m s) as [r s'].
  specialize (Hf s' Hm). by destruct (f s').
Qed.
Lemma holds_for {A} P (f : A -> N unit) l : (forall x, holds P (f x)) -> holds P (nfor f l).
Proof.
  intros Hf. induction l as [|x l IH]; [apply holds_ret|]. cbn.
  apply leads_bind; [apply Hf|by intros _].
Qed.
Lemma holds_fold {A B} P (f : B -> A -> N B) b l : (forall b x, holds P (f b x)) -> holds P (nfold f b l).
Proof.
  intros Hf. revert b. induction l as [|x l IH]; intros b; [apply holds_ret|]. cbn.
  apply leads_bind; [apply Hf|apply IH].
Qed.
Lemma holds_if {A} P (b : bool) (m1 m2 : N A) : holds P m1 -> holds P m2 -> holds P (if b then m1 else m2).
Proof. by destruct b. Qed.
Lemma holds_call {A} P (m : M S A) : (forall s a s', m s = Ok (a, s') -> P s -> P s') -> holds P (call m).
Proof. intros Hm s Hs. unfold call. destruct (m s) as [[a s']|e] eqn:E; [by eapply Hm|done]. Qed.
Lemma in_operation_ok {A} (m : N A) s a s' : in_operation m s = Ok (a, s') <-> m s = (Ok a, s').
Proof. unfold in_operation. destruct (m s) as [[a'|e] s1]; naive_solver. Qed.
End rules.
Notation holds P m := (leads P P m).
