(* ===== verification/FcInt.v ===== *)
(** * The integer types the sources take from fc and boost

    [share_type] is [fc::safe<int64_t>]; [fc::uint128_t] and boost's
    [uint128_t] are 128-bit unsigned integers, [int128_t] is boost's signed
    one (only its narrowing is a parameter); [fc::bigint] is an
    arbitrary-precision integer.  Their code is not part of the
    repository, so their operations are parameters of the model: the class
    [FcInt].  [FcIntLaws] states the documented behaviour the sources rely on:
    a [safe] operation returns the exact value when it fits in 64 bits and
    throws otherwise; the 128-bit operations are arithmetic modulo [2^128];
    narrowing to 64 bits keeps a value that fits.  [fc_checked] is an
    instance of both, so the laws are consistent; witnesses run on it. *)
From S2P Require Import Prelude.
Local Open Scope Z_scope.

Class FcInt := {
  safe_add : Z -> Z -> result Z;
  safe_sub : Z -> Z -> result Z;
  safe_neg : Z -> result Z;
  safe_mul : Z -> Z -> result Z;
  safe_div : Z -> Z -> result Z;
  u128_of : Z -> Z;
  u128_add : Z -> Z -> Z;
  u128_sub : Z -> Z -> Z;
  u128_mul : Z -> Z -> Z;
  u128_div : Z -> Z -> result Z;
  u128_shl : Z -> Z -> Z;
  u128_to_u64 : Z -> Z;
  u128_to_i64 : Z -> Z;
  i128_to_i64 : Z -> Z;
  bigint_div : Z -> Z -> result Z;
  bigint_to_int64 : Z -> result Z;
}.

Definition checked (z : Z) : result Z :=
  if int64_ok z then Ok z else Throw overflow_exception.

Class FcIntLaws (F : FcInt) : Prop := {
  safe_add_law a b : safe_add a b = checked (a + b);
  safe_sub_law a b : safe_sub a b = checked (a - b);
  safe_neg_law a : safe_neg a = checked (- a);
  safe_mul_law a b : safe_mul a b = checked (a * b);
  safe_div_law a b : b <> 0 -> safe_div a b = checked (Z.quot a b);
  u128_of_law a : u128_of a = wrap 128 a;
  u128_add_law a b : u128_add a b = wrap 128 (a + b);
  u128_sub_law a b : u128_sub a b = wrap 128 (a - b);
  u128_mul_law a b : u128_mul a b = wrap 128 (a * b);
  u128_div_law a b : 0 < b -> u128_div a b = Ok (a / b);
  u128_shl_law a n : 0 <= n < 128 -> u128_shl a n = wrap 128 (a * 2 ^ n);
  u128_to_u64_law a : 0 <= a < 2 ^ 64 -> u128_to_u64 a = a;
  u128_to_i64_law a : 0 <= a < 2 ^ 63 -> u128_to_i64 a = a;
  i128_to_i64_law a : - 2 ^ 63 <= a < 2 ^ 63 -> i128_to_i64 a = a;
  bigint_div_law a b : 0 <= a -> 0 < b -> bigint_div a b = Ok (a / b);
  bigint_to_int64_law a : int64_ok a = true -> bigint_to_int64 a = Ok a;
}.

(** The instance witnesses run on. *)
Definition fc_checked : FcInt := {|
  safe_add a b := checked (a + b);
  safe_sub a b := checked (a - b);
  safe_neg a := checked (- a);
  safe_mul a b := checked (a * b);
  safe_div a b := if b =? 0 then Throw assert_exception else checked (Z.quot a b);
  u128_of a := wrap 128 a;
  u128_add a b := wrap 128 (a + b);
  u128_sub a b := wrap 128 (a - b);
  u128_mul a b := wrap 128 (a * b);
  u128_div a b := if b =? 0 then Throw assert_exception else Ok (a / b);
  u128_shl a n := wrap 128 (Z.shiftl a n);
  u128_to_u64 a := u64 a;
  u128_to_i64 a := i64 a;
  i128_to_i64 a := i64 a;
  bigint_div a b := if b =? 0 then Throw assert_exception else Ok (Z.quot a b);
  bigint_to_int64 a := checked a;
|}.

Lemma fc_checked_laws : FcIntLaws fc_checked.
Proof.
  constructor; cbn; try done.
  - intros a b Hb. by destruct (Z.eqb_spec b 0).
  - intros a b Hb. by destruct (Z.eqb_spec b 0); [lia|].
  - intros a n Hn. by rewrite Z.shiftl_mul_pow2 by lia.
  - intros a Ha. by apply wrap_small.
  - intros a Ha. apply i64_small, int64_ok_iff. lia.
  - intros a Ha. apply i64_small, int64_ok_iff. lia.
  - intros a b Ha Hb. destruct (Z.eqb_spec b 0); [lia|]. by rewrite Z.quot_div_nonneg by lia.
  - intros a Ha. unfold checked. by rewrite Ha.
Qed.

Section fc_int_lemmas.
Context {F : FcInt} {FL : FcIntLaws F}.

Lemma checked_ok z r : checked z = Ok r <-> r = z /\ - 2 ^ 63 <= z < 2 ^ 63.
Proof.
  unfold checked. destruct (int64_ok z) eqn:E.
  - apply int64_ok_iff in E. naive_solver.
  - split; [done|]. intros [_ H%int64_ok_iff]. congruence.
Qed.
Lemma safe_add_ok a b r :
  safe_add a b = Ok r <-> r = a + b /\ - 2 ^ 63 <= a + b < 2 ^ 63.
Proof. rewrite safe_add_law. apply checked_ok. Qed.
Lemma safe_sub_ok a b r :
  safe_sub a b = Ok r <-> r = a - b /\ - 2 ^ 63 <= a - b < 2 ^ 63.
Proof. rewrite safe_sub_law. apply checked_ok. Qed.
Lemma safe_neg_ok a r :
  safe_neg a = Ok r <-> r = - a /\ - 2 ^ 63 <= - a < 2 ^ 63.
Proof. rewrite safe_neg_law. apply checked_ok. Qed.
Lemma safe_mul_ok a b r :
  safe_mul a b = Ok r <-> r = a * b /\ - 2 ^ 63 <= a * b < 2 ^ 63.
Proof. rewrite safe_mul_law. apply checked_ok. Qed.
Lemma safe_div_ok a b r :
  b <> 0 -> safe_div a b = Ok r <-> r = Z.quot a b /\ - 2 ^ 63 <= Z.quot a b < 2 ^ 63.
Proof. intros Hb. rewrite safe_div_law by done. apply checked_ok. Qed.
Lemma u128_mul_small a b : 0 <= a * b < 2 ^ 128 -> u128_mul a b = a * b.
Proof. intros. rewrite u128_mul_law. by apply wrap_small. Qed.
Lemma u128_add_small a b : 0 <= a + b < 2 ^ 128 -> u128_add a b = a + b.
Proof. intros. rewrite u128_add_law. by apply wrap_small. Qed.
Lemma u128_sub_small a b : 0 <= a - b < 2 ^ 128 -> u128_sub a b = a - b.
Proof. intros. rewrite u128_sub_law. by apply wrap_small. Qed.
Lemma u128_of_small a : 0 <= a < 2 ^ 128 -> u128_of a = a.
Proof. intros. rewrite u128_of_law. by apply wrap_small. Qed.
End fc_int_lemmas.

(** [inv_safe] turns successful checked arithmetic into equations and bounds. *)
Ltac inv_safe :=
  repeat match goal with
  | H : safe_add _ _ = Ok _ |- _ => apply safe_add_ok in H; destruct H as [? ?]
  | H : safe_sub _ _ = Ok _ |- _ => apply safe_sub_ok in H; destruct H as [? ?]
  | H : safe_neg _ = Ok _ |- _ => apply safe_neg_ok in H; destruct H as [? ?]
  | H : safe_mul _ _ = Ok _ |- _ => apply safe_mul_ok in H; destruct H as [? ?]
  | H : checked _ = Ok _ |- _ => apply checked_ok in H; destruct H as [? ?]
  end; subst.
