(* ===== verification/ObjectId.v ===== *)
(** * Object ids (libraries/db/include/graphene/db/object_id.hpp)

    An [object_id_type] packs a space (8 bits), a type (8 bits) and an
    instance (48 bits) in one 64-bit number.  An id is represented by its
    [number]. *)
From S2P Require Import Prelude.
Local Open Scope Z_scope.

Module object_id.

(** The constructor [object_id_type(s, t, i)]. *)
Definition make (s t i : Z) : result Z :=
  if Z.shiftr i 48 =? 0
  then Ok (u64 (Z.lor (Z.lor (Z.shiftl s 56) (Z.shiftl t 48)) i))
  else Throw assert_exception.

Definition space (number : Z) : Z := u8 (Z.shiftr number 56).
Definition type (number : Z) : Z := u8 (Z.land (Z.shiftr number 48) 255).
Definition space_type (number : Z) : Z := u16 (Z.shiftr number 48).
(** [GRAPHENE_DB_MAX_INSTANCE_ID = uint64_t(-1) >> 16]. *)
Definition max_instance_id : Z := Z.shiftr (2 ^ 64 - 1) 16.
Definition instance (number : Z) : Z := Z.land number max_instance_id.
(** [operator++]. *)
Definition succ (number : Z) : Z := u64 (number + 1).
(** [operator+]: rebuilds the id from its parts. *)
Definition plus (number delta : Z) : result Z :=
  make (space number) (type number) (u64 (instance number + delta)).

(** The id of the index an object lives in: instance 0 of its space and type
    ([object_id_type( obj.id.space(), obj.id.type(), 0 )]). *)
Definition index_id (number : Z) : Z :=
  Z.lor (Z.shiftl (space number) 56) (Z.shiftl (type number) 48).

Lemma lor_disjoint_add a b n :
  0 <= n -> 0 <= b < 2 ^ n -> Z.lor (Z.shiftl a n) b = a * 2 ^ n + b.
Proof.
  intros Hn Hb. rewrite <- Z.shiftl_mul_pow2 by done.
  symmetry. apply Z.add_nocarry_lor.
  apply Z.bits_inj'. intros i Hi. rewrite Z.land_spec, Z.bits_0.
  destruct (decide (i < n)).
  - by rewrite Z.shiftl_spec_low.
  - assert (Z.testbit b i = false) as ->; [|by rewrite andb_false_r].
    apply Z.testbit_false; [lia|]. rewrite Z.div_small; [done|].
    split; [lia|]. eapply Z.lt_le_trans; [apply Hb|]. apply Z.pow_le_mono_r; lia.
Qed.

Lemma instance_mod n : instance n = n mod 2 ^ 48.
Proof. unfold instance. by rewrite <- Z.land_ones. Qed.

Lemma space_div n : is_uint 64 n -> space n = n / 2 ^ 56.
Proof.
  intros [? ?]. unfold space, u8. rewrite Z.shiftr_div_pow2 by lia.
  apply wrap_small. split; [apply Z.div_pos; lia|].
  apply Z.div_lt_upper_bound; lia.
Qed.

Lemma type_div n : is_uint 64 n -> type n = (n / 2 ^ 48) mod 2 ^ 8.
Proof.
  intros [? ?]. unfold type, u8, wrap.
  rewrite Z.shiftr_div_pow2 by lia.
  change 255 with (Z.ones 8). rewrite Z.land_ones by lia.
  apply Z.mod_small, Z.mod_pos_bound. lia.
Qed.

Lemma make_eq s t i :
  is_uint 8 s -> is_uint 8 t -> is_uint 48 i ->
  make s t i = Ok (s * 2 ^ 56 + t * 2 ^ 48 + i).
Proof.
  intros [? ?] [? ?] [? ?]. unfold make.
  rewrite Z.shiftr_div_pow2, Z.div_small by lia. cbn -[Z.mul Z.pow Z.add].
  rewrite <- Z.lor_assoc. rewrite (lor_disjoint_add t i) by lia.
  rewrite lor_disjoint_add by lia. f_equal.
  unfold u64. rewrite wrap_small; [lia|]. split; lia.
Qed.

(** The three parts of a packed id are the ones it was made from. *)
Lemma make_parts s t i n :
  is_uint 8 s -> is_uint 8 t -> is_uint 48 i -> make s t i = Ok n ->
  is_uint 64 n /\ space n = s /\ type n = t /\ instance n = i.
Proof.
  intros Hs Ht Hi. rewrite make_eq by done. intros [= <-].
  destruct Hs, Ht, Hi.
  assert (is_uint 64 (s * 2 ^ 56 + t * 2 ^ 48 + i)) by (split; lia).
  rewrite space_div, type_div, instance_mod by done.
  repeat split; [lia|lia| | |].
  - symmetry. apply (Z.div_unique _ _ _ (t * 2 ^ 48 + i)); lia.
  - replace ((s * 2 ^ 56 + t * 2 ^ 48 + i) / 2 ^ 48) with (s * 2 ^ 8 + t).
    + symmetry. apply (Z.mod_unique _ _ s); lia.
    + apply (Z.div_unique _ _ _ i); lia.
  - symmetry. apply (Z.mod_unique _ _ (s * 2 ^ 8 + t)); lia.
Qed.

Lemma index_id_eq n : is_uint 64 n -> index_id n = n / 2 ^ 48 * 2 ^ 48.
Proof.
  intros Hn. unfold index_id. rewrite space_div, type_div by done.
  rewrite (Z.shiftl_mul_pow2 (_ mod _)) by lia.
  assert (0 <= (n / 2 ^ 48) mod 2 ^ 8 < 2 ^ 8) by (apply Z.mod_pos_bound; lia).
  rewrite lor_disjoint_add by lia.
  replace (n / 2 ^ 56) with (n / 2 ^ 48 / 2 ^ 8) by (rewrite Z.div_div by lia; done).
  rewrite (Z.div_mod (n / 2 ^ 48) (2 ^ 8)) at 3 by lia. lia.
Qed.

Lemma index_id_idem n : is_uint 64 n -> index_id (index_id n) = index_id n.
Proof.
  intros Hn. rewrite (index_id_eq n) by done. destruct Hn.
  assert (0 <= n / 2 ^ 48 < 2 ^ 16).
  { split; [apply Z.div_pos; lia|apply Z.div_lt_upper_bound; lia]. }
  rewrite index_id_eq by (split; lia). by rewrite Z.div_mul by lia.
Qed.

(** The successor of an id stays in the same index unless its instance is the
    last one. *)
Lemma index_id_succ n :
  is_uint 64 n -> instance n < max_instance_id ->
  is_uint 64 (succ n) /\ succ n = n + 1 /\ index_id (succ n) = index_id n.
Proof.
  intros Hn Hi. rewrite instance_mod in Hi.
  change max_instance_id with (2 ^ 48 - 1) in Hi.
  pose proof (Z.div_mod n (2 ^ 48) ltac:(lia)) as E. destruct Hn.
  pose proof (Z.mod_pos_bound n (2 ^ 48) ltac:(lia)).
  assert (n / 2 ^ 48 < 2 ^ 16) by (apply Z.div_lt_upper_bound; lia).
  assert (is_uint 64 (n + 1)) by (split; lia).
  unfold succ, u64. rewrite wrap_small by done.
  repeat split; [lia|lia|].
  rewrite !index_id_eq by (split; lia). f_equal.
  symmetry. apply (Z.div_unique _ _ _ (n mod 2 ^ 48 + 1)); lia.
Qed.

End object_id.
