(* ===== verification/ObjectDb.v ===== *)
(** * The object database and its undo history (libraries/db)

    [object_database] keeps the objects of all indexes by id and one next id
    per index; [undo_database] keeps a stack of [undo_state]s that record how
    to revert what was done since each of them was pushed.

    An object's value has type [A]; ids identify objects and are fixed at
    creation.  [conflict a b] stands for the uniqueness constraints of the
    secondary keys of a [boost::multi_index] container (two objects of one
    index that may not coexist); containers with no such key ([sparse_index])
    are the instance [fun _ _ => false].  Secondary indexes and observers only
    read the objects and are left out. *)
From S2P Require Import Prelude ObjectId.
Local Open Scope Z_scope.

Module objdb.
Import object_id.

(** ** State *)

Record undo_state {A : Type} := mk_undo_state {
  old_values : gmap Z A;
  old_index_next_ids : gmap Z Z;
  new_ids : gset Z;
  removed : gmap Z A;
}.
Arguments undo_state : clear implicits.
Arguments mk_undo_state {A}.

(** [stack] has the back of the [_stack] deque at its head. *)
Record undo_database {A : Type} := mk_undo_database {
  active_sessions : Z;
  disabled : bool;
  stack : list (undo_state A);
  max_size : nat;
}.
Arguments undo_database : clear implicits.
Arguments mk_undo_database {A}.

Record object_database {A : Type} := mk_object_database {
  objects : gmap Z A;
  next_ids : gmap Z Z;
  undo_db : undo_database A;
}.
Arguments object_database : clear implicits.
Arguments mk_object_database {A}.

(** [undo_database::session]: the flags of a session object. *)
Record session := mk_session {
  apply_undo : bool;
  disable_on_exit : bool;
}.

Section operations.
Context {A : Type} (conflict : A -> A -> bool).
Notation db := (object_database A).
Notation M := (M db).

Definition empty_undo_state : undo_state A := mk_undo_state ∅ ∅ ∅ ∅.

Definition set_objects (o : gmap Z A) (d : db) : db :=
  mk_object_database o (next_ids d) (undo_db d).
Definition set_next_ids (n : gmap Z Z) (d : db) : db :=
  mk_object_database (objects d) n (undo_db d).
Definition set_undo_db (u : undo_database A) (d : db) : db :=
  mk_object_database (objects d) (next_ids d) u.
Definition set_stack (st : list (undo_state A)) (u : undo_database A) :=
  mk_undo_database (active_sessions u) (disabled u) st (max_size u).
Definition set_disabled (b : bool) (u : undo_database A) :=
  mk_undo_database (active_sessions u) b (stack u) (max_size u).
Definition set_active (n : Z) (u : undo_database A) :=
  mk_undo_database n (disabled u) (stack u) (max_size u).

(** ** undo_database: recording *)

(** [if( _stack.empty() ) _stack.emplace_back(); auto& state = _stack.back();]
    followed by an update of [state]. *)
Definition update_back (f : undo_state A -> undo_state A) (u : undo_database A) :=
  match stack u with
  | [] => set_stack [f empty_undo_state] u
  | s :: st => set_stack (f s :: st) u
  end.

Definition record_create (id : Z) (s : undo_state A) : undo_state A :=
  let next :=
    match old_index_next_ids s !! index_id id with
    | None => <[index_id id := id]> (old_index_next_ids s)
    | Some _ => old_index_next_ids s
    end in
  mk_undo_state (old_values s) next ({[id]} ∪ new_ids s) (removed s).

Definition on_create (id : Z) (u : undo_database A) : undo_database A :=
  if disabled u then u else update_back (record_create id) u.

Definition record_modify (id : Z) (obj : A) (s : undo_state A) : undo_state A :=
  if decide (id ∈ new_ids s) then s
  else match old_values s !! id with
       | Some _ => s
       | None => mk_undo_state (<[id := obj]> (old_values s))
                   (old_index_next_ids s) (new_ids s) (removed s)
       end.

Definition on_modify (id : Z) (obj : A) (u : undo_database A) : undo_database A :=
  if disabled u then u else update_back (record_modify id obj) u.

Definition record_remove (id : Z) (obj : A) (s : undo_state A) : undo_state A :=
  if decide (id ∈ new_ids s) then
    mk_undo_state (old_values s) (old_index_next_ids s) (new_ids s ∖ {[id]}) (removed s)
  else match old_values s !! id with
  | Some v => mk_undo_state (delete id (old_values s)) (old_index_next_ids s)
                (new_ids s) (<[id := v]> (removed s))
  | None =>
      match removed s !! id with
      | Some _ => s
      | None => mk_undo_state (old_values s) (old_index_next_ids s) (new_ids s)
                  (<[id := obj]> (removed s))
      end
  end.

Definition on_remove (id : Z) (obj : A) (u : undo_database A) : undo_database A :=
  if disabled u then u else update_back (record_remove id obj) u.

(** ** The indexes *)

(** Another object of the same index that may not coexist with [a]. *)
Definition clash (o : gmap Z A) (id : Z) (a : A) : bool :=
  existsb (fun '(i, b) => negb (i =? id) && (index_id i =? index_id id) && conflict a b)
    (map_to_list o).

(** [get_mutable_index(id)]: the index must have been added. *)
Definition get_mutable_index (id : Z) : M unit :=
  d ← get; fc_assert (bool_decide (is_Some (next_ids d !! index_id id))).

Definition get_object (id : Z) : M A :=
  get_mutable_index id ;;
  d ← get;
  match objects d !! id with Some a => mret a | None => throw assert_exception end.

(** [generic_index::insert] *)
Definition derived_insert (id : Z) (a : A) : M unit :=
  d ← get;
  fc_assert (bool_decide (objects d !! id = None) && negb (clash (objects d) id a)) ;;
  put (set_objects (<[id := a]> (objects d)) d).

(** [generic_index::modify] *)
Definition derived_modify (id : Z) (m : A -> A) : M unit :=
  d ← get;
  match objects d !! id with
  | None => throw undefined_behaviour
  | Some a =>
      fc_assert (negb (clash (objects d) id (m a))) ;;
      put (set_objects (<[id := m a]> (objects d)) d)
  end.

(** [generic_index::remove] *)
Definition derived_remove (id : Z) : M unit :=
  upd (fun d => set_objects (delete id (objects d)) d).

(** [object_database::create] with [primary_index::create] and
    [generic_index::create]: the new object takes the index's next id. *)
Definition create (index : Z) (constructor : Z -> A) : M Z :=
  get_mutable_index index ;;
  d ← get;
  match next_ids d !! index_id index with
  | None => throw assert_exception
  | Some id =>
      derived_insert id (constructor id) ;;
      upd (fun d => set_next_ids (<[index_id index := succ id]> (next_ids d)) d) ;;
      upd (fun d => set_undo_db (on_create id (undo_db d)) d) ;;
      mret id
  end.

(** [object_database::insert] with [primary_index::insert]. *)
Definition insert_object (id : Z) (a : A) : M unit :=
  get_mutable_index id ;;
  derived_insert id a ;;
  upd (fun d => set_undo_db (on_create id (undo_db d)) d).

(** [object_database::modify] with [primary_index::modify]. *)
Definition modify_object (id : Z) (m : A -> A) : M unit :=
  a ← get_object id;
  upd (fun d => set_undo_db (on_modify id a (undo_db d)) d) ;;
  derived_modify id m.

(** [object_database::remove] with [primary_index::remove]. *)
Definition remove_object (id : Z) : M unit :=
  a ← get_object id;
  upd (fun d => set_undo_db (on_remove id a (undo_db d)) d) ;;
  derived_remove id.

(** [get_mutable_index(i).set_next_id(id)] *)
Definition set_next_id (i id : Z) : M unit :=
  get_mutable_index i ;;
  upd (fun d => set_next_ids (<[index_id i := id]> (next_ids d)) d).

(** ** undo_database: sessions *)

Definition mod_undo (f : undo_database A -> undo_database A) : M unit :=
  upd (fun d => set_undo_db (f (undo_db d)) d).
Definition enable : M unit := mod_undo (set_disabled false).
Definition disable : M unit := mod_undo (set_disabled true).

(** [while( size() > max_size() ) _stack.pop_front();] *)
Definition trim (n : nat) (st : list (undo_state A)) : list (undo_state A) := take n st.

(** [start_undo_session] *)
Definition start_undo_session (force_enable : bool) : M session :=
  d ← get;
  let u := undo_db d in
  if disabled u && negb force_enable then mret (mk_session true false)
  else
    let disable_on_exit := disabled u && force_enable in
    let dis := if force_enable then false else disabled u in
    let st := if (max_size u <? length (stack u))%nat
              then trim (max_size u) (stack u) else stack u in
    put (set_undo_db (mk_undo_database (u32 (active_sessions u + 1)) dis
           (empty_undo_state :: st) (max_size u)) d) ;;
    mret (mk_session true disable_on_exit).

(** The loops of [undo] and [pop_commit] over the back state. *)
Definition revert (s : undo_state A) : M unit :=
  mfor (fun '(id, v) => modify_object id (fun _ => v)) (map_to_list (old_values s)) ;;
  mfor (fun id => remove_object id) (elements (new_ids s)) ;;
  mfor (fun '(i, n) => set_next_id i n) (map_to_list (old_index_next_ids s)) ;;
  mfor (fun '(id, v) => insert_object id v) (map_to_list (removed s)).

Definition pop_back : M unit := mod_undo (fun u => set_stack (tail (stack u)) u).

Definition undo : M unit :=
  d ← get;
  fc_assert (negb (disabled (undo_db d))) ;;
  fc_assert (0 <? active_sessions (undo_db d)) ;;
  disable ;;
  match stack (undo_db d) with
  | [] => throw undefined_behaviour
  | s :: _ =>
      revert s ;; pop_back ;; enable ;;
      mod_undo (fun u => set_active (active_sessions u - 1) u)
  end.

(** *+upd: the loop over [state.old_values] *)
Definition merge_upd (id : Z) (v : A) (prev : undo_state A) : undo_state A :=
  if decide (id ∈ new_ids prev) then prev
  else match old_values prev !! id with
       | Some _ => prev
       | None => mk_undo_state (<[id := v]> (old_values prev))
                   (old_index_next_ids prev) (new_ids prev) (removed prev)
       end.

(** *+new and the loop over [state.old_index_next_ids]: entries already in
    [prev_state] are kept. *)
Definition merge_new (state prev : undo_state A) : undo_state A :=
  mk_undo_state (old_values prev)
    (old_index_next_ids prev ∪ old_index_next_ids state)
    (new_ids prev ∪ new_ids state) (removed prev).

(** *+del: the loop over [state.removed] *)
Definition merge_del (id : Z) (v : A) (prev : undo_state A) : undo_state A :=
  if decide (id ∈ new_ids prev) then
    mk_undo_state (old_values prev) (old_index_next_ids prev)
      (new_ids prev ∖ {[id]}) (removed prev)
  else match old_values prev !! id with
  | Some x => mk_undo_state (delete id (old_values prev)) (old_index_next_ids prev)
                (new_ids prev) (<[id := x]> (removed prev))
  | None => mk_undo_state (old_values prev) (old_index_next_ids prev)
              (new_ids prev) (<[id := v]> (removed prev))
  end.

Definition merge_states (state prev : undo_state A) : undo_state A :=
  let p1 := map_fold merge_upd prev (old_values state) in
  let p2 := merge_new state p1 in
  map_fold merge_del p2 (removed state).

Definition merge : M unit :=
  d ← get;
  let u := undo_db d in
  fc_assert (0 <? active_sessions u) ;;
  if (active_sessions u =? 1) && (length (stack u) =? 1)%nat then
    pop_back ;; mod_undo (fun u => set_active (active_sessions u - 1) u)
  else
    fc_assert (2 <=? length (stack u))%nat ;;
    match stack u with
    | state :: prev :: st =>
        mod_undo (set_stack (state :: merge_states state prev :: st)) ;;
        pop_back ;;
        mod_undo (fun u => set_active (active_sessions u - 1) u)
    | _ => throw undefined_behaviour
    end.

Definition commit : M unit :=
  d ← get;
  fc_assert (0 <? active_sessions (undo_db d)) ;;
  mod_undo (fun u => set_active (active_sessions u - 1) u).

Definition pop_commit : M unit :=
  d ← get;
  fc_assert (active_sessions (undo_db d) =? 0) ;;
  match stack (undo_db d) with
  | [] => throw assert_exception
  | s :: _ => disable ;; revert s ;; pop_back ;; enable
  end.

(** ** Session objects: [commit()], [undo()], [merge()] and the destructor.
    Each returns the session with its updated [_apply_undo]. *)
Definition session_commit (x : session) : M session :=
  commit ;; mret (mk_session false (disable_on_exit x)).
Definition session_undo (x : session) : M session :=
  when (apply_undo x) undo ;; mret (mk_session false (disable_on_exit x)).
Definition session_merge (x : session) : M session :=
  when (apply_undo x) merge ;; mret (mk_session false (disable_on_exit x)).
Definition session_destroy (x : session) : M unit :=
  when (apply_undo x) undo ;; when (disable_on_exit x) disable.
(** The move constructor (the new session, and what is left of the old one) and
    the move assignment of two different sessions.  Neither carries
    [_disable_on_exit] over. *)
Definition session_move (mv : session) : session * session :=
  (mk_session (apply_undo mv) false, mk_session false (disable_on_exit mv)).
Definition session_assign (x mv : session) : M (session * session) :=
  when (apply_undo x) undo ;;
  mret (mk_session (apply_undo mv) (disable_on_exit x), mk_session false (disable_on_exit mv)).

(** [head], [set_max_size]. *)
Definition undo_head : M (undo_state A) :=
  d ← get;
  match stack (undo_db d) with
  | [] => throw assert_exception
  | s :: _ => mret s
  end.
Definition set_undo_max_size (n : nat) : M unit :=
  mod_undo (fun u => mk_undo_database (active_sessions u) (disabled u) (stack u) n).

End operations.

End objdb.
