(* ===== verification/UndoProof.v ===== *)
(** * Correctness of the undo history

    The comment above [undo_database::merge] classifies an object's relation
    to an undo state as new, upd, del or nop.  [entry] is that classification;
    [undo_inv s w0 w] says that [s] describes how the world [w] differs from
    the world [w0] it was pushed at.  The recording callbacks preserve it,
    reverting [s] at [w] yields exactly [w0], and merging composes. *)
From S2P Require Import Prelude ObjectId ObjectDb.
Local Open Scope Z_scope.
Import object_id objdb.

Section undo.
Context {A : Type}.
Notation world := (gmap Z A * gmap Z Z)%type.
Implicit Types (s : undo_state A) (o : gmap Z A) (n : gmap Z Z) (w : world).

(** ** Entries of one object *)
Inductive entry := nop | new | upd_was (a : A) | del_was (a : A).

Definition view_at s (id : Z) : bool * option A * option A :=
  (bool_decide (id ∈ new_ids s), old_values s !! id, removed s !! id).

Definition entry_view (e : entry) : bool * option A * option A :=
  match e with
  | nop => (false, None, None)
  | new => (true, None, None)
  | upd_was a => (false, Some a, None)
  | del_was a => (false, None, Some a)
  end.

(** What an entry says about the value before and the value now. *)
Definition entry_ok (e : entry) (before now : option A) : Prop :=
  match e with
  | nop => before = now
  | new => before = None /\ is_Some now
  | upd_was a => before = Some a /\ is_Some now
  | del_was a => before = Some a /\ now = None
  end.

(** The composition matrix of the comment above [merge]; [None] is N/A. *)
Definition compose (a b : entry) : option entry :=
  match a, b with
  | _, nop => Some a
  | nop, _ => Some b
  | new, upd_was _ => Some new
  | new, del_was _ => Some nop
  | upd_was x, upd_was _ => Some (upd_was x)
  | upd_was x, del_was _ => Some (del_was x)
  | _, _ => None
  end.

Lemma compose_ok a b v0 v1 v2 :
  entry_ok a v0 v1 -> entry_ok b v1 v2 -> (b = new -> v0 = None) ->
  exists c, compose a b = Some c /\ entry_ok c v0 v2.
Proof.
  destruct a, b; cbn; intros ?? Hnew; destruct_and?; subst; simplify_eq;
    try (by specialize (Hnew eq_refl));
    repeat match goal with H : is_Some None |- _ => by destruct H end;
    eexists; (split; [reflexivity|]); cbn; eauto.
Qed.

Lemma compose_new a b : compose a b = Some new -> a = new \/ b = new.
Proof. destruct a, b; cbn; intros; simplify_eq; auto. Qed.

(** ** Well-formed worlds *)
Record world_wf (w : world) : Prop := {
  wf_fresh id a : w.1 !! id = Some a ->
    is_uint 64 id /\ exists nx, w.2 !! index_id id = Some nx /\ id < nx;
  wf_next i nx : w.2 !! i = Some nx -> is_uint 64 nx /\ index_id nx = i;
}.

(** ** The invariant of an undo state *)
Record undo_inv s (w0 w : world) : Prop := {
  inv_entry id : exists e, view_at s id = entry_view e /\
                           entry_ok e (w0.1 !! id) (w.1 !! id);
  inv_next i : match old_index_next_ids s !! i with
               | Some x => w0.2 !! i = Some x
               | None => w0.2 !! i = w.2 !! i
               end;
  inv_new id : id ∈ new_ids s -> exists x, w0.2 !! index_id id = Some x /\ x <= id;
  inv_grow i x : w0.2 !! i = Some x -> exists y, w.2 !! i = Some y /\ x <= y;
  inv_wf0 : world_wf w0;
}.

Lemma undo_inv_empty w : world_wf w -> undo_inv empty_undo_state w w.
Proof.
  intros Hwf. split.
  - intros id. exists nop. unfold view_at; cbn.
    by rewrite ?lookup_empty, bool_decide_eq_false_2 by set_solver.
  - intros i. cbn. by rewrite ?lookup_empty.
  - intros id Hid. by apply not_elem_of_empty in Hid.
  - eauto with lia.
  - done.
Qed.

Lemma entry_view_inj e e' : entry_view e = entry_view e' -> e = e'.
Proof. destruct e, e'; cbn; congruence. Qed.

(** The entry of one object after recording an operation on it, and that
    recording leaves the other objects' entries alone. *)
Lemma record_create_view s id j :
  view_at (record_create id s) j =
  if decide (id = j) then (true, (view_at s j).1.2, (view_at s j).2) else view_at s j.
Proof.
  unfold view_at, record_create; cbn. case_decide; subst.
  - by rewrite bool_decide_eq_true_2 by set_solver.
  - do 2 f_equal. apply bool_decide_ext. set_solver.
Qed.

Lemma record_modify_view s id a j :
  view_at (record_modify id a s) j =
  if decide (id = j) then
    match view_at s j with
    | (true, _, _) => view_at s j
    | (false, Some _, _) => view_at s j
    | (false, None, r) => (false, Some a, r)
    end
  else view_at s j.
Proof.
  unfold record_modify, view_at.
  destruct (decide (id = j)) as [->|Hne]; destruct (decide (_ ∈ new_ids s)) as [Hn|Hn];
    rewrite ?(bool_decide_eq_true_2 _ Hn), ?(bool_decide_eq_false_2 _ Hn); try done.
  - destruct (old_values s !! j) eqn:E; cbn [old_values new_ids removed].
    + by rewrite bool_decide_eq_false_2, E by done.
    + by rewrite lookup_insert_eq, bool_decide_eq_false_2 by done.
  - destruct (old_values s !! id) eqn:E; [done|]; cbn [old_values new_ids removed].
    by rewrite lookup_insert_ne by done.
Qed.

Lemma record_remove_view s id a j :
  view_at (record_remove id a s) j =
  if decide (id = j) then
    match view_at s j with
    | (true, o, r) => (false, o, r)
    | (false, Some v, _) => (false, None, Some v)
    | (false, None, Some r) => (false, None, Some r)
    | (false, None, None) => (false, None, Some a)
    end
  else view_at s j.
Proof.
  unfold record_remove, view_at.
  destruct (decide (id = j)) as [->|Hne]; destruct (decide (_ ∈ new_ids s)) as [Hn|Hn];
    rewrite ?(bool_decide_eq_true_2 _ Hn), ?(bool_decide_eq_false_2 _ Hn);
    cbn [old_values new_ids removed].
  - by rewrite bool_decide_eq_false_2 by set_solver.
  - destruct (old_values s !! j) eqn:E; cbn [old_values new_ids removed].
    + by rewrite lookup_delete_eq, lookup_insert_eq, bool_decide_eq_false_2 by done.
    + destruct (removed s !! j) eqn:E'; cbn [old_values new_ids removed].
      * by rewrite E, E', bool_decide_eq_false_2 by done.
      * by rewrite E, lookup_insert_eq, bool_decide_eq_false_2 by done.
  - do 2 f_equal. apply bool_decide_ext. set_solver.
  - destruct (old_values s !! id) eqn:E; cbn [old_values new_ids removed].
    + by rewrite lookup_delete_ne, lookup_insert_ne by done.
    + destruct (removed s !! id) eqn:E'; [done|]; cbn [old_values new_ids removed].
      by rewrite lookup_insert_ne by done.
Qed.

(** ** Recording preserves the invariant *)

Lemma inv_next_dom s w0 w i y :
  undo_inv s w0 w -> w.2 !! i = Some y -> exists x, w0.2 !! i = Some x /\ x <= y.
Proof.
  intros Hinv Hi. pose proof (inv_next _ _ _ Hinv i) as Hn.
  destruct (old_index_next_ids s !! i) as [x|] eqn:E.
  - exists x. split; [done|]. destruct (inv_grow _ _ _ Hinv i x Hn) as (y' & ? & ?).
    by simplify_eq.
  - rewrite Hi in Hn. eauto with lia.
Qed.

(** An object absent from both worlds' past cannot have an id at or above the
    next id of its index. *)
Lemma fresh_absent w id i : world_wf w -> w.2 !! i = Some id -> w.1 !! id = None.
Proof.
  intros Hwf Hi. destruct (w.1 !! id) as [a|] eqn:E; [|done].
  destruct (wf_fresh _ Hwf _ _ E) as (_ & nx & Hnx & ?).
  destruct (wf_next _ Hwf _ _ Hi) as [_ <-]. rewrite Hi in Hnx. simplify_eq. lia.
Qed.

Lemma new_absent w id x :
  world_wf w -> w.2 !! index_id id = Some x -> x <= id -> w.1 !! id = None.
Proof.
  intros Hwf Hx Hle. destruct (w.1 !! id) as [a|] eqn:E; [|done].
  destruct (wf_fresh _ Hwf _ _ E) as (_ & nx & Hnx & ?). simplify_eq. lia.
Qed.

Lemma undo_inv_create s w0 w i id a :
  undo_inv s w0 w -> world_wf w -> w.2 !! i = Some id ->
  instance id < max_instance_id ->
  undo_inv (record_create id s) w0 (<[id := a]> w.1, <[i := succ id]> w.2).
Proof.
  intros Hinv Hwf Hi Hov.
  destruct (wf_next _ Hwf _ _ Hi) as [Hu Hidx].
  destruct (index_id_succ id Hu Hov) as (_ & Hsucc & _).
  destruct (inv_next_dom _ _ _ _ _ Hinv Hi) as (x0 & Hx0 & Hle).
  assert (w0.1 !! id = None) as Hw0.
  { apply (new_absent _ _ x0 (inv_wf0 _ _ _ Hinv)); by rewrite ?Hidx. }
  pose proof (fresh_absent _ _ _ Hwf Hi) as Hw.
  split.
  - intros j. rewrite record_create_view.
    destruct (inv_entry _ _ _ Hinv j) as (e & Hv & He). cbn [fst snd].
    destruct (decide (id = j)) as [<-|Hne].
    + rewrite Hw, Hw0 in He. rewrite lookup_insert_eq, Hv, Hw0. exists new.
      destruct e; cbn in *; destruct_and?; try done; by destruct_or?.
    + rewrite lookup_insert_ne by done. eauto.
  - intros j. pose proof (inv_next _ _ _ Hinv j) as Hn.
    unfold record_create; cbn. rewrite Hidx.
    destruct (decide (i = j)) as [<-|Hne].
    + destruct (old_index_next_ids s !! i) as [y|] eqn:E; [by rewrite E|].
      rewrite lookup_insert_eq. congruence.
    + rewrite lookup_insert_ne with (m := w.2) by done.
      destruct (old_index_next_ids s !! i); [done|].
      by rewrite lookup_insert_ne by done.
  - intros j. unfold record_create; cbn. intros [->%elem_of_singleton|Hj]%elem_of_union.
    + exists x0. by rewrite Hidx.
    + by apply (inv_new _ _ _ Hinv).
  - intros j y Hy. destruct (inv_grow _ _ _ Hinv j y Hy) as (z & Hz & ?). cbn.
    destruct (decide (i = j)) as [<-|Hne].
    + rewrite lookup_insert_eq. eexists; split; [done|]. simplify_eq. lia.
    + rewrite lookup_insert_ne by done. eauto.
  - apply Hinv.
Qed.

Lemma undo_inv_modify s w0 w id a b :
  undo_inv s w0 w -> w.1 !! id = Some a ->
  undo_inv (record_modify id a s) w0 (<[id := b]> w.1, w.2).
Proof.
  intros Hinv Ha.
  assert (Hsame : old_index_next_ids (record_modify id a s) = old_index_next_ids s /\
                  new_ids (record_modify id a s) = new_ids s).
  { unfold record_modify. case_decide; [done|]. by destruct (old_values s !! id). }
  destruct Hsame as [Hs1 Hs2]. split; rewrite ?Hs1, ?Hs2; try apply Hinv.
  intros j. rewrite record_modify_view.
  destruct (inv_entry _ _ _ Hinv j) as (e & Hv & He). cbn [fst snd].
  destruct (decide (id = j)) as [<-|Hne].
  - rewrite Ha in He. rewrite lookup_insert_eq, Hv.
    destruct e as [| |v|v]; cbn in *; destruct_and?; try done.
    + exists (upd_was a). by repeat split.
    + exists new. by repeat split.
    + exists (upd_was v). by repeat split.
  - rewrite lookup_insert_ne by done. eauto.
Qed.

Lemma undo_inv_remove s w0 w id a :
  undo_inv s w0 w -> w.1 !! id = Some a ->
  undo_inv (record_remove id a s) w0 (delete id w.1, w.2).
Proof.
  intros Hinv Ha.
  assert (Hsame : old_index_next_ids (record_remove id a s) = old_index_next_ids s /\
                  new_ids (record_remove id a s) ⊆ new_ids s).
  { unfold record_remove. case_decide; cbn; [set_solver|].
    destruct (old_values s !! id), (removed s !! id); cbn; done. }
  destruct Hsame as [Hs1 Hs2].
  split; rewrite ?Hs1; try apply Hinv; [|intros j Hj%Hs2; by apply Hinv].
  intros j. rewrite record_remove_view.
  destruct (inv_entry _ _ _ Hinv j) as (e & Hv & He). cbn [fst snd].
  destruct (decide (id = j)) as [<-|Hne].
  - rewrite Ha in He. rewrite lookup_delete_eq, Hv.
    destruct e as [| |v|v]; cbn in *; destruct_and?; try done.
    + exists (del_was a). by repeat split.
    + exists nop. by repeat split.
    + exists (del_was v). by repeat split.
  - rewrite lookup_delete_ne by done. eauto.
Qed.

(** ** Merging composes *)

Lemma merge_upd_view id v s j :
  view_at (merge_upd id v s) j = view_at (record_modify id v s) j.
Proof. done. Qed.

Lemma merge_del_view id v s j :
  view_at (merge_del id v s) j =
  if decide (id = j) then
    match view_at s j with
    | (true, o, r) => (false, o, r)
    | (false, Some x, _) => (false, None, Some x)
    | (false, None, _) => (false, None, Some v)
    end
  else view_at s j.
Proof.
  unfold merge_del, view_at.
  destruct (decide (id = j)) as [->|Hne]; destruct (decide (_ ∈ new_ids s)) as [Hn|Hn];
    rewrite ?(bool_decide_eq_true_2 _ Hn), ?(bool_decide_eq_false_2 _ Hn);
    cbn [old_values new_ids removed].
  - by rewrite bool_decide_eq_false_2 by set_solver.
  - destruct (old_values s !! j) eqn:E; cbn [old_values new_ids removed].
    + by rewrite lookup_delete_eq, lookup_insert_eq, bool_decide_eq_false_2 by done.
    + by rewrite E, lookup_insert_eq, bool_decide_eq_false_2 by done.
  - do 2 f_equal. apply bool_decide_ext. set_solver.
  - destruct (old_values s !! id) eqn:E; cbn [old_values new_ids removed].
    + by rewrite lookup_delete_ne, lookup_insert_ne by done.
    + by rewrite lookup_insert_ne by done.
Qed.

(** The merged state holds, for every object, the composition of the two
    entries. *)
Lemma merge_states_view b a id ea eb c :
  view_at a id = entry_view ea -> view_at b id = entry_view eb ->
  compose ea eb = Some c -> view_at (merge_states b a) id = entry_view c.
Proof.
  intros Ha Hb Hc. unfold merge_states.
  rewrite (map_fold_view view_at merge_del (fun v x =>
    match x with
    | (true, o, r) => (false, o, r)
    | (false, Some x, _) => (false, None, Some x)
    | (false, None, _) => (false, None, Some v)
    end)).
  2: { intros. rewrite merge_del_view. by rewrite decide_True. }
  2: { intros. rewrite merge_del_view. by rewrite decide_False. }
  assert (view_at (merge_new b (map_fold merge_upd a (old_values b))) id =
    let x := view_at (map_fold merge_upd a (old_values b)) id in
    (x.1.1 || (view_at b id).1.1, x.1.2, x.2)) as ->.
  { unfold view_at, merge_new; cbn [new_ids old_values removed fst snd]. do 2 f_equal.
    rewrite <- bool_decide_or. apply bool_decide_ext. set_solver. }
  rewrite (map_fold_view view_at merge_upd (fun v x =>
    match x with
    | (true, _, _) => x
    | (false, Some _, _) => x
    | (false, None, r) => (false, Some v, r)
    end)).
  2: { intros. rewrite merge_upd_view, record_modify_view. by rewrite decide_True. }
  2: { intros. rewrite merge_upd_view, record_modify_view. by rewrite decide_False. }
  rewrite Ha, Hb. unfold view_at in Hb.
  destruct ea, eb; cbn in Hc |- *; simplify_eq; cbn in Hb; simplify_eq;
    repeat match goal with H : _ !! id = _ |- _ => rewrite H; clear H end; done.
Qed.

Lemma map_fold_frame {B X} (pr : undo_state A -> X) (f : Z -> B -> undo_state A -> undo_state A)
    (m : gmap Z B) (r : undo_state A) :
  (forall i v t, pr (f i v t) = pr t) -> pr (map_fold f r m) = pr r.
Proof.
  intros Hf. apply (map_fold_weak_ind (fun t _ => pr t = pr r)); [done|].
  intros i x m' t _ IH. by rewrite Hf.
Qed.

Lemma merge_states_next (b a : undo_state A) :
  old_index_next_ids (merge_states b a) = old_index_next_ids a ∪ old_index_next_ids b.
Proof.
  unfold merge_states. rewrite (map_fold_frame (@old_index_next_ids A)).
  - cbn. f_equal. apply (map_fold_frame (@old_index_next_ids A)). intros i v t.
    unfold merge_upd. case_decide; [done|]. by destruct (old_values t !! i).
  - intros i v t. unfold merge_del. case_decide; [done|]. by destruct (old_values t !! i).
Qed.

Lemma undo_inv_merge (a b : undo_state A) w0 w1 w2 :
  undo_inv a w0 w1 -> undo_inv b w1 w2 -> undo_inv (merge_states b a) w0 w2.
Proof.
  intros Ha Hb.
  assert (Hnew : forall id, id ∈ new_ids b ->
    exists x, w0.2 !! index_id id = Some x /\ x <= id).
  { intros id Hid. destruct (inv_new _ _ _ Hb id Hid) as (x1 & Hx1 & ?).
    destruct (inv_next_dom _ _ _ _ _ Ha Hx1) as (x0 & ? & ?). eauto with lia. }
  assert (Hent : forall id, exists ea eb c,
    view_at a id = entry_view ea /\ view_at b id = entry_view eb /\
    view_at (merge_states b a) id = entry_view c /\ compose ea eb = Some c /\
    entry_ok c (w0.1 !! id) (w2.1 !! id)).
  { intros id. destruct (inv_entry _ _ _ Ha id) as (ea & Hva & Hea).
    destruct (inv_entry _ _ _ Hb id) as (eb & Hvb & Heb).
    destruct (compose_ok ea eb _ _ _ Hea Heb) as (c & Hc & Hok).
    { intros ->. destruct (Hnew id) as (x & ? & ?).
      - unfold view_at in Hvb. injection Hvb as Hn _ _. by apply bool_decide_eq_true in Hn.
      - by eapply new_absent; [apply Ha|..]. }
    exists ea, eb, c. split_and!; eauto using merge_states_view. }
  split.
  - intros id. destruct (Hent id) as (? & ? & c & ? & ? & ? & ? & ?). eauto.
  - intros i. rewrite merge_states_next, lookup_union.
    pose proof (inv_next _ _ _ Ha i) as Hna. pose proof (inv_next _ _ _ Hb i) as Hnb.
    destruct (old_index_next_ids a !! i), (old_index_next_ids b !! i); cbn; congruence.
  - intros id Hid. destruct (Hent id) as (ea & eb & c & Hva & Hvb & Hv & Hc & _).
    unfold view_at in Hv. rewrite bool_decide_eq_true_2 in Hv by done.
    assert (c = new) as -> by (destruct c; cbn in Hv; congruence).
    assert (ea = new \/ eb = new) as [-> | ->] by (by apply compose_new).
    + unfold view_at in Hva. injection Hva as Hn _ _. apply bool_decide_eq_true in Hn.
      by apply (inv_new _ _ _ Ha).
    + unfold view_at in Hvb. injection Hvb as Hn _ _. apply bool_decide_eq_true in Hn.
      by apply Hnew.
  - intros i x Hx. destruct (inv_grow _ _ _ Ha i x Hx) as (y & Hy & ?).
    destruct (inv_grow _ _ _ Hb i y Hy) as (z & ? & ?). eauto with lia.
  - apply Ha.
Qed.

(** ** What the database operations do when they return *)

Context (conflict : A -> A -> bool).
Implicit Types d : object_database A.

Lemma get_object_inv id d a d' :
  get_object id d = Ok (a, d') ->
  d' = d /\ objects d !! id = Some a /\ is_Some (next_ids d !! index_id id).
Proof.
  unfold get_object, get_mutable_index. intros H. inv_ok. bool_to_prop.
  destruct (objects _ !! id) eqn:E; inv_ok; done.
Qed.

Lemma modify_object_inv id m d u d' :
  modify_object conflict id m d = Ok (u, d') ->
  exists a, objects d !! id = Some a /\
    d' = mk_object_database (<[id := m a]> (objects d)) (next_ids d)
           (on_modify id a (undo_db d)).
Proof.
  unfold modify_object, derived_modify. intros H. inv_ok.
  match goal with H : get_object _ _ = _ |- _ =>
    apply get_object_inv in H; destruct H as (-> & Ha & _) end.
  exists x. split; [done|]. change (objects (set_undo_db _ d)) with (objects d) in H.
  rewrite Ha in H. inv_ok. done.
Qed.

Lemma remove_object_inv id d u d' :
  remove_object id d = Ok (u, d') ->
  exists a, objects d !! id = Some a /\
    d' = mk_object_database (delete id (objects d)) (next_ids d)
           (on_remove id a (undo_db d)).
Proof.
  unfold remove_object, derived_remove. intros H. inv_ok.
  match goal with H : get_object _ _ = _ |- _ =>
    apply get_object_inv in H; destruct H as (-> & Ha & _) end.
  exists x. split; done.
Qed.

Lemma insert_object_inv id a d u d' :
  insert_object conflict id a d = Ok (u, d') ->
  objects d !! id = None /\
  d' = mk_object_database (<[id := a]> (objects d)) (next_ids d)
         (on_create id (undo_db d)).
Proof.
  unfold insert_object, derived_insert, get_mutable_index. intros H. inv_ok.
  bool_to_prop. done.
Qed.

Lemma create_inv i c d id d' :
  create conflict i c d = Ok (id, d') ->
  next_ids d !! index_id i = Some id /\
  d' = mk_object_database (<[id := c id]> (objects d))
         (<[index_id i := succ id]> (next_ids d)) (on_create id (undo_db d)).
Proof.
  unfold create, derived_insert, get_mutable_index. intros H. inv_ok. bool_to_prop.
  destruct (next_ids _ !! index_id i) eqn:E; inv_ok. done.
Qed.

Lemma set_next_id_inv i x d u d' :
  set_next_id i x d = Ok (u, d') ->
  d' = mk_object_database (objects d) (<[index_id i := x]> (next_ids d)) (undo_db d).
Proof. unfold set_next_id, get_mutable_index. intros H. inv_ok. done. Qed.

(** With recording off, the loops of [revert] are plain map updates. *)

Lemma on_disabled (u : undo_database A) id a :
  disabled u = true ->
  on_create id u = u /\ on_modify id a u = u /\ on_remove id a u = u.
Proof. intros H. unfold on_create, on_modify, on_remove. by rewrite H. Qed.

Lemma modify_loop l d u d' :
  disabled (undo_db d) = true -> NoDup l.*1 ->
  mfor (fun '(id, v) => modify_object conflict id (fun _ => v)) l d = Ok (u, d') ->
  d' = mk_object_database (list_to_map l ∪ objects d) (next_ids d) (undo_db d).
Proof.
  revert d. induction l as [|[id v] l IH]; intros d Hd Hnd H; cbn in H.
  - inv_ok. match goal with |- ?x = _ => destruct x end; cbn. by rewrite map_empty_union.
  - inv_ok. apply NoDup_cons in Hnd as [Hid Hnd].
    match goal with H : modify_object _ _ _ _ = _ |- _ =>
      apply modify_object_inv in H; destruct H as (a & _ & ->) end.
    destruct (on_disabled (undo_db d) id a Hd) as (_ & Hon & _).
    apply IH in H; cbn; rewrite ?Hon in *; try done. subst. f_equal. cbn.
    rewrite <- insert_union_l, insert_union_r; [done|].
    by apply not_elem_of_list_to_map_1.
Qed.

Lemma remove_loop l d u d' :
  disabled (undo_db d) = true ->
  mfor (fun id => remove_object id) l d = Ok (u, d') ->
  d' = mk_object_database (filter (fun p => p.1 ∉ l) (objects d)) (next_ids d) (undo_db d).
Proof.
  revert d. induction l as [|id l IH]; intros d Hd H; cbn in H.
  - inv_ok. match goal with |- ?x = _ => destruct x end; cbn. f_equal. symmetry. apply map_filter_id. set_solver.
  - inv_ok.
    match goal with H : remove_object _ _ = _ |- _ =>
      apply remove_object_inv in H; destruct H as (a & _ & ->) end.
    destruct (on_disabled (undo_db d) id a Hd) as (_ & _ & Hon).
    apply IH in H; cbn; rewrite ?Hon in *; try done. subst. f_equal. cbn.
    apply map_eq. intros j. apply option_eq. intros x.
    rewrite !map_lookup_filter_Some, lookup_delete_Some. cbn. set_solver.
Qed.

Lemma next_loop l d u d' :
  NoDup l.*1 -> Forall (fun p => index_id p.1 = p.1) l ->
  mfor (fun '(i, n) => set_next_id i n) l d = Ok (u, d') ->
  d' = mk_object_database (objects d) (list_to_map l ∪ next_ids d) (undo_db d).
Proof.
  revert d. induction l as [|[i v] l IH]; intros d Hnd Hix H; cbn in H.
  - inv_ok. match goal with |- ?x = _ => destruct x end; cbn. by rewrite map_empty_union.
  - inv_ok. apply NoDup_cons in Hnd as [Hid Hnd]. inversion Hix as [|?? Hi Hix']; subst.
    match goal with H : set_next_id _ _ _ = _ |- _ => apply set_next_id_inv in H end.
    subst. apply IH in H; try done. subst. f_equal. cbn in Hi |- *. rewrite Hi.
    rewrite <- insert_union_l, insert_union_r; [done|].
    by apply not_elem_of_list_to_map_1.
Qed.

Lemma insert_loop l d u d' :
  disabled (undo_db d) = true -> NoDup l.*1 ->
  mfor (fun '(id, v) => insert_object conflict id v) l d = Ok (u, d') ->
  d' = mk_object_database (list_to_map l ∪ objects d) (next_ids d) (undo_db d).
Proof.
  revert d. induction l as [|[id v] l IH]; intros d Hd Hnd H; cbn in H.
  - inv_ok. match goal with |- ?x = _ => destruct x end; cbn. by rewrite map_empty_union.
  - inv_ok. apply NoDup_cons in Hnd as [Hid Hnd].
    match goal with H : insert_object _ _ _ _ = _ |- _ =>
      apply insert_object_inv in H; destruct H as (_ & ->) end.
    destruct (on_disabled (undo_db d) id v Hd) as (Hon & _ & _).
    apply IH in H; cbn; rewrite ?Hon in *; try done. subst. f_equal. cbn.
    rewrite <- insert_union_l, insert_union_r; [done|].
    by apply not_elem_of_list_to_map_1.
Qed.

Lemma revert_inv s d u d' :
  disabled (undo_db d) = true ->
  (forall i x, old_index_next_ids s !! i = Some x -> index_id i = i) ->
  revert conflict s d = Ok (u, d') ->
  objects d' = removed s ∪ filter (fun p => p.1 ∉ new_ids s) (old_values s ∪ objects d) /\
  next_ids d' = old_index_next_ids s ∪ next_ids d /\ undo_db d' = undo_db d.
Proof.
  intros Hd Hix H. unfold revert in H.
  apply mbind_ok in H as (u1 & d1 & H1 & H). apply mbind_ok in H as (u2 & d2 & H2 & H).
  apply mbind_ok in H as (u3 & d3 & H3 & H).
  apply modify_loop in H1; [|done|apply NoDup_fst_map_to_list]. subst d1.
  apply remove_loop in H2; [|done]. subst d2.
  apply next_loop in H3; [|apply NoDup_fst_map_to_list|].
  2: { apply Forall_forall. intros [i x] Hin%elem_of_map_to_list. by eapply Hix. }
  subst d3.
  apply insert_loop in H; [|done|apply NoDup_fst_map_to_list]. subst d'. cbn.
  rewrite !list_to_map_to_list. split_and!; [|done..]. f_equal.
  apply map_eq. intros j. apply option_eq. intros x.
  rewrite !map_lookup_filter_Some. cbn. by rewrite elem_of_elements.
Qed.

(** ** Reverting restores the world the state was pushed at *)

Definition world_of d : world := (objects d, next_ids d).

Lemma inv_next_keys s w0 w i x :
  undo_inv s w0 w -> old_index_next_ids s !! i = Some x -> index_id i = i.
Proof.
  intros Hinv Hi. pose proof (inv_next _ _ _ Hinv i) as Hn. rewrite Hi in Hn.
  destruct (wf_next _ (inv_wf0 _ _ _ Hinv) _ _ Hn) as [Hu <-]. by apply index_id_idem.
Qed.

Lemma revert_restores s w0 d u d' :
  disabled (undo_db d) = true -> undo_inv s w0 (world_of d) ->
  revert conflict s d = Ok (u, d') ->
  world_of d' = w0 /\ undo_db d' = undo_db d.
Proof.
  intros Hd Hinv H. apply revert_inv in H as (Ho & Hn & Hu); [|done|eauto using inv_next_keys].
  split; [|done]. unfold world_of. rewrite Ho, Hn. destruct w0 as [o0 n0]. f_equal.
  - apply map_eq. intros id.
    destruct (inv_entry _ _ _ Hinv id) as (e & Hv & He). unfold view_at in Hv.
    rewrite lookup_union, map_lookup_filter, lookup_union. cbn in He.
    destruct e; cbn in Hv, He; injection Hv as Hnew Hold Hrem; rewrite Hold, Hrem;
      destruct_and?; bool_to_prop; cbn.
    + destruct (objects d !! id); cbn; [|done]. rewrite option_guard_True by done. done.
    + destruct (objects d !! id); cbn; [|done]. rewrite option_guard_False by set_solver. done.
    + destruct (objects d !! id); cbn; rewrite option_guard_True by done; done.
    + by destruct (objects d !! id); cbn; [case_guard|].
  - apply map_eq. intros i. pose proof (inv_next _ _ _ Hinv i) as Hi. cbn in Hi.
    rewrite lookup_union. destruct (old_index_next_ids s !! i); cbn.
    + rewrite Hi. by destruct (next_ids d !! i).
    + rewrite Hi. by destruct (next_ids d !! i).
Qed.

(** ** Reverting succeeds when no secondary key can clash *)

Section no_conflict.
Hypothesis Hconf : forall a b, conflict a b = false.

Lemma clash_false o id a : clash conflict o id a = false.
Proof.
  unfold clash. apply not_true_is_false. intros ((i & b) & _ & H)%existsb_exists.
  rewrite Hconf, andb_false_r in H. done.
Qed.

Lemma get_object_ok id a d :
  objects d !! id = Some a -> is_Some (next_ids d !! index_id id) ->
  get_object id d = Ok (a, d).
Proof.
  intros Ha Hi. unfold get_object, get_mutable_index, mbind, M_bind, get, fc_assert.
  rewrite bool_decide_eq_true_2 by done. by rewrite Ha.
Qed.

Lemma modify_object_total id m d :
  is_Some (objects d !! id) -> is_Some (next_ids d !! index_id id) ->
  is_ok (modify_object conflict id m d) = true.
Proof.
  intros [a Ha] Hi. unfold modify_object, mbind, M_bind.
  rewrite (get_object_ok id a) by done. cbn. unfold derived_modify, mbind, M_bind; cbn.
  rewrite Ha. unfold fc_assert. by rewrite clash_false.
Qed.

Lemma remove_object_total id d :
  is_Some (objects d !! id) -> is_Some (next_ids d !! index_id id) ->
  is_ok (remove_object id d) = true.
Proof.
  intros [a Ha] Hi. unfold remove_object, mbind, M_bind. by rewrite (get_object_ok id a).
Qed.

Lemma insert_object_total id a d :
  objects d !! id = None -> is_Some (next_ids d !! index_id id) ->
  is_ok (insert_object conflict id a d) = true.
Proof.
  intros Ha Hi. unfold insert_object, get_mutable_index, derived_insert, mbind, M_bind; cbn.
  rewrite bool_decide_eq_true_2 by done. cbn. unfold fc_assert.
  rewrite bool_decide_eq_true_2, clash_false by done. done.
Qed.

Lemma set_next_id_total i x d :
  is_Some (next_ids d !! index_id i) -> is_ok (set_next_id i x d) = true.
Proof.
  intros Hi. unfold set_next_id, get_mutable_index, mbind, M_bind; cbn.
  unfold fc_assert. by rewrite bool_decide_eq_true_2 by done.
Qed.

(** A loop whose body always succeeds where its precondition holds succeeds,
    when each step keeps the precondition of the remaining steps. *)
Lemma mfor_total {B K} (key : B -> K) (P : B -> object_database A -> Prop)
    (f : B -> M (object_database A) unit) (l : list B) d :
  (forall x d1, P x d1 -> is_ok (f x d1) = true) ->
  (forall x y d1 u d2, P y d1 -> key x <> key y -> f x d1 = Ok (u, d2) -> P y d2) ->
  NoDup (key <$> l) -> Forall (fun x => P x d) l -> is_ok (mfor f l d) = true.
Proof.
  intros Hok Hstep. revert d. induction l as [|x l IH]; intros d Hnd Hl; [done|].
  apply NoDup_cons in Hnd as [Hx Hnd]. inversion Hl as [|?? Hpx Hl']; subst. cbn.
  unfold mbind, M_bind. pose proof (Hok x d Hpx) as Hf.
  destruct (f x d) as [[u d1]|] eqn:E; [|done]. apply IH; [done|].
  apply Forall_forall. intros y Hy. rewrite Forall_forall in Hl'.
  eapply Hstep; [by apply Hl'| |exact E]. intros Hk. apply Hx. rewrite Hk.
  by apply list_elem_of_fmap_2.
Qed.

Lemma is_ok_bind {B C} (m : M (object_database A) B) (f : B -> M (object_database A) C) d :
  is_ok (m d) = true ->
  (forall b d1, m d = Ok (b, d1) -> is_ok (f b d1) = true) ->
  is_ok ((m ≫= f) d) = true.
Proof. unfold mbind, M_bind. destruct (m d) as [[b d1]|]; eauto. Qed.

(** The four loops of [revert], each from the state the previous ones leave. *)
Section revert_loops.
Context s w0 d (Hd : disabled (undo_db d) = true)
  (Hinv : undo_inv s w0 (world_of d)) (Hwf : world_wf (world_of d)).

Lemma current_index id :
  is_Some (objects d !! id) -> is_Some (next_ids d !! index_id id).
Proof. intros [a Ha]. destruct (wf_fresh _ Hwf id a Ha) as (_ & nx & ? & _). eauto. Qed.

Lemma current_entry id : exists e, view_at s id = entry_view e /\
  entry_ok e (w0.1 !! id) (objects d !! id).
Proof. apply Hinv. Qed.

Lemma modify_loop_total :
  is_ok (mfor (fun '(id, v) => modify_object conflict id (fun _ => v))
           (map_to_list (old_values s)) d) = true.
Proof.
  apply (mfor_total fst (fun '(id, _) d => is_Some (objects d !! id) /\
                                           is_Some (next_ids d !! index_id id))).
  - intros [id v] d1 []. by apply modify_object_total.
  - intros [id v] [id' v'] d1 u d2 [Ho Hn] _ (a & _ & ->)%modify_object_inv. cbn.
    split; [|done]. destruct (decide (id = id')) as [->|];
      [rewrite lookup_insert_eq|rewrite lookup_insert_ne by done]; eauto.
  - apply NoDup_fst_map_to_list.
  - apply Forall_forall. intros [id v] Hin%elem_of_map_to_list.
    destruct (current_entry id) as (e & Hve & He). unfold view_at in Hve. rewrite Hin in Hve.
    destruct e; cbn in Hve, He; simplify_eq; destruct_and?. eauto using current_index.
Qed.

Lemma remove_loop_total o :
  (forall id, is_Some (objects d !! id) -> is_Some (o !! id)) ->
  is_ok (mfor (fun id => remove_object id) (elements (new_ids s))
           (mk_object_database o (next_ids d) (undo_db d))) = true.
Proof.
  intros Ho. apply (mfor_total id (fun id d => is_Some (objects d !! id) /\
                                               is_Some (next_ids d !! index_id id))).
  - intros id d1 []. by apply remove_object_total.
  - intros id id' d1 u d2 [Hx Hn] Hne (a & _ & ->)%remove_object_inv. cbn.
    by rewrite lookup_delete_ne by done.
  - rewrite list_fmap_id. apply NoDup_elements.
  - apply Forall_forall. intros id Hin%elem_of_elements. cbn.
    destruct (current_entry id) as (e & Hve & He). unfold view_at in Hve.
    rewrite bool_decide_eq_true_2 in Hve by done.
    destruct e; cbn in Hve, He; simplify_eq; destruct_and?.
    split; [by apply Ho|by apply current_index].
Qed.

Lemma next_loop_total o :
  is_ok (mfor (fun '(i, n) => set_next_id i n) (map_to_list (old_index_next_ids s))
           (mk_object_database o (next_ids d) (undo_db d))) = true.
Proof.
  apply (mfor_total fst (fun '(i, _) d => is_Some (next_ids d !! index_id i))).
  - intros [i x] d1. apply set_next_id_total.
  - intros [i x] [i' x'] d1 u d2 Hn _ ->%set_next_id_inv. cbn.
    destruct (decide (index_id i = index_id i')) as [->|];
      [rewrite lookup_insert_eq|rewrite lookup_insert_ne by done]; eauto.
  - apply NoDup_fst_map_to_list.
  - apply Forall_forall. intros [i x] Hin%elem_of_map_to_list. cbn.
    rewrite (inv_next_keys _ _ _ _ _ Hinv Hin).
    pose proof (inv_next _ _ _ Hinv i) as Hi. rewrite Hin in Hi.
    destruct (inv_grow _ _ _ Hinv i x Hi) as (y & Hy & _). cbn in Hy. eauto.
Qed.

Lemma insert_loop_total o n :
  (forall id, objects d !! id = None -> old_values s !! id = None -> o !! id = None) ->
  (forall i, is_Some (next_ids d !! i) -> is_Some (n !! i)) ->
  is_ok (mfor (fun '(id, v) => insert_object conflict id v) (map_to_list (removed s))
           (mk_object_database o n (undo_db d))) = true.
Proof.
  intros Ho Hn. apply (mfor_total fst (fun '(id, _) d => objects d !! id = None /\
                                              is_Some (next_ids d !! index_id id))).
  - intros [id v] d1 []. by apply insert_object_total.
  - intros [id v] [id' v'] d1 u d2 [Hx Hi] Hne (_ & ->)%insert_object_inv. cbn.
    by rewrite lookup_insert_ne by done.
  - apply NoDup_fst_map_to_list.
  - apply Forall_forall. intros [id v] Hin%elem_of_map_to_list. cbn.
    destruct (current_entry id) as (e & Hve & He). unfold view_at in Hve. rewrite Hin in Hve.
    destruct e; cbn in Hve, He; simplify_eq; destruct_and?. split; [by apply Ho|].
    match goal with H : w0.1 !! id = Some _ |- _ =>
      destruct (wf_fresh _ (inv_wf0 _ _ _ Hinv) _ _ H) as (_ & nx & Hnx & _) end.
    destruct (inv_grow _ _ _ Hinv _ _ Hnx) as (y & Hy & _). apply Hn. eauto.
Qed.

Lemma revert_total : is_ok (revert conflict s d) = true.
Proof.
  unfold revert. apply is_ok_bind; [apply modify_loop_total|].
  intros [] d1 H1. apply modify_loop in H1; [|done|apply NoDup_fst_map_to_list].
  subst d1. rewrite list_to_map_to_list.
  apply is_ok_bind; [apply remove_loop_total|].
  { intros id [a Ha]. rewrite lookup_union, Ha. destruct (old_values s !! id); cbn; eauto. }
  intros [] d2 H2. apply remove_loop in H2; [|done]. subst d2.
  apply is_ok_bind; [apply next_loop_total|].
  intros [] d3 H3. apply next_loop in H3; [|apply NoDup_fst_map_to_list|].
  2: { apply Forall_forall. intros [i x] Hin%elem_of_map_to_list.
       eauto using inv_next_keys. }
  subst d3. cbn. rewrite list_to_map_to_list. apply insert_loop_total.
  - intros id Ho Hold. by rewrite map_lookup_filter, lookup_union, Ho, Hold.
  - intros i [x Hx]. rewrite lookup_union, Hx. destruct (old_index_next_ids s !! i); cbn; eauto.
Qed.
End revert_loops.

End no_conflict.

End undo.
