(* ===== verification/UndoRefine.v ===== *)
(** * The undo history refines a stack of snapshots

    The abstract database keeps, instead of undo states, a full copy of the
    world for every entry of the stack.  Every operation of the object
    database, of its undo history and of a session is simulated by the
    corresponding step on snapshots. *)
From S2P Require Import Prelude ObjectId ObjectDb UndoProof.
Local Open Scope Z_scope.
Import object_id objdb.

Section refinement.
Context {A : Type} (conflict : A -> A -> bool).
Notation world := (gmap Z A * gmap Z Z)%type.
Notation db := (object_database A).
Implicit Types (d : db) (w : world).

(** ** The specification *)
Record snapshots := mk_snapshots {
  cur : world;
  snaps : list world;
  sactive : Z;
  smax : nat;
}.

Inductive op :=
| OCreate (index : Z) (constructor : Z -> A)
| OModify (id : Z) (m : A -> A)
| ORemove (id : Z)
| OStart
| OUndo
| OMerge
| OCommit
| OPopCommit.

(** A change made with no snapshot on the stack first takes one. *)
Definition or_current w (ws : list world) : list world :=
  match ws with [] => [w] | _ => ws end.

Inductive spec_step : op -> snapshots -> snapshots -> Prop :=
| spec_create i c w ws a k id :
    w.2 !! index_id i = Some id ->
    spec_step (OCreate i c) (mk_snapshots w ws a k)
      (mk_snapshots (<[id := c id]> w.1, <[index_id i := succ id]> w.2)
         (or_current w ws) a k)
| spec_modify id m w ws a k v :
    w.1 !! id = Some v ->
    spec_step (OModify id m) (mk_snapshots w ws a k)
      (mk_snapshots (<[id := m v]> w.1, w.2) (or_current w ws) a k)
| spec_remove id w ws a k :
    is_Some (w.1 !! id) ->
    spec_step (ORemove id) (mk_snapshots w ws a k)
      (mk_snapshots (delete id w.1, w.2) (or_current w ws) a k)
| spec_start w ws a k :
    spec_step OStart (mk_snapshots w ws a k)
      (mk_snapshots w (w :: take k ws) (u32 (a + 1)) k)
| spec_undo w w0 ws a k :
    0 < a ->
    spec_step OUndo (mk_snapshots w (w0 :: ws) a k) (mk_snapshots w0 ws (a - 1) k)
| spec_merge_last w w0 k :
    spec_step OMerge (mk_snapshots w [w0] 1 k) (mk_snapshots w [] 0 k)
| spec_merge w w1 w0 ws a k :
    0 < a ->
    spec_step OMerge (mk_snapshots w (w1 :: w0 :: ws) a k)
      (mk_snapshots w (w0 :: ws) (a - 1) k)
| spec_commit w ws a k :
    0 < a ->
    spec_step OCommit (mk_snapshots w ws a k) (mk_snapshots w ws (a - 1) k)
| spec_pop_commit w w0 ws k :
    spec_step OPopCommit (mk_snapshots w (w0 :: ws) 0 k) (mk_snapshots w0 ws 0 k).

(** The code for each operation. *)
Definition run (o : op) : M db unit :=
  match o with
  | OCreate i c => create conflict i c ;; mret tt
  | OModify id m => modify_object conflict id m
  | ORemove id => remove_object id
  | OStart => start_undo_session false ;; mret tt
  | OUndo => undo conflict
  | OMerge => merge
  | OCommit => commit
  | OPopCommit => pop_commit conflict
  end.

Fixpoint runs (os : list op) : M db unit :=
  match os with [] => mret tt | o :: os => run o ;; runs os end.

(** ** The simulation relation *)
Inductive stack_rel : list (undo_state A) -> list world -> world -> Prop :=
| stack_nil w : stack_rel [] [] w
| stack_cons s st w0 ws w :
    undo_inv s w0 w -> stack_rel st ws w0 -> stack_rel (s :: st) (w0 :: ws) w.

Record refines d (sp : snapshots) : Prop := {
  ref_enabled : disabled (undo_db d) = false;
  ref_cur : world_of d = cur sp;
  ref_active : active_sessions (undo_db d) = sactive sp;
  ref_max : max_size (undo_db d) = smax sp;
  ref_stack : stack_rel (stack (undo_db d)) (snaps sp) (cur sp);
  ref_wf : world_wf (cur sp);
}.

(** An index has 2^48 instances; [create] must not exhaust them. *)
Definition op_fits d (o : op) : Prop :=
  match o with
  | OCreate i _ => forall id, next_ids d !! index_id i = Some id ->
                   instance id < max_instance_id
  | _ => True
  end.

(** ** Worlds stay well formed *)
Lemma world_wf_create w i id a :
  world_wf w -> w.2 !! i = Some id -> instance id < max_instance_id ->
  world_wf (<[id := a]> w.1, <[i := succ id]> w.2).
Proof.
  intros Hwf Hi Hov. destruct (wf_next _ Hwf _ _ Hi) as [Hu Hidx].
  destruct (index_id_succ id Hu Hov) as (Hu' & Hs & Hidx').
  split; cbn [fst snd].
  - intros j b. destruct (decide (id = j)) as [<-|Hne].
    + intros _. split; [done|]. exists (succ id). rewrite Hidx, lookup_insert_eq.
      split; [done|lia].
    + rewrite lookup_insert_ne by done. intros Hj.
      destruct (wf_fresh _ Hwf _ _ Hj) as (? & nx & Hnx & ?). split; [done|].
      destruct (decide (i = index_id j)) as [->|].
      * rewrite lookup_insert_eq. eexists; split; [done|]. simplify_eq. lia.
      * rewrite lookup_insert_ne by done. eauto.
  - intros j nx. destruct (decide (i = j)) as [<-|Hne].
    + rewrite lookup_insert_eq. intros [= <-]. by rewrite Hidx'.
    + rewrite lookup_insert_ne by done. by apply Hwf.
Qed.

Lemma world_wf_modify w id a b :
  world_wf w -> w.1 !! id = Some a -> world_wf (<[id := b]> w.1, w.2).
Proof.
  intros Hwf Ha. split; cbn [fst snd]; [|apply Hwf].
  intros j c. destruct (decide (id = j)) as [<-|Hne].
  - intros _. by eapply wf_fresh.
  - rewrite lookup_insert_ne by done. by apply Hwf.
Qed.

Lemma world_wf_remove w id : world_wf w -> world_wf (delete id w.1, w.2).
Proof.
  intros Hwf. split; cbn [fst snd]; [|apply Hwf].
  intros j c [_ Hj]%lookup_delete_Some. by eapply wf_fresh.
Qed.

Lemma stack_rel_take k st ws w : stack_rel st ws w -> stack_rel (take k st) (take k ws) w.
Proof.
  intros H. revert k. induction H as [w|s st w0 ws w Hinv _ IH]; intros [|k]; cbn;
    constructor; eauto.
Qed.

Lemma stack_rel_length st ws w : stack_rel st ws w -> length st = length ws.
Proof. induction 1; cbn; lia. Qed.

(** A recorded change acts on the back state of the stack, pushed first if
    the stack is empty. *)
Lemma stack_rel_record f u ws w w' :
  disabled u = false -> world_wf w -> stack_rel (stack u) ws w ->
  (forall s w0, undo_inv s w0 w -> undo_inv (f s) w0 w') ->
  stack_rel (stack (update_back f u)) (or_current w ws) w'.
Proof.
  intros _ Hwf Hst Hf. unfold update_back.
  destruct Hst as [w|s st w0 ws w Hinv Hst]; cbn.
  - constructor; [|constructor]. by apply Hf, undo_inv_empty.
  - constructor; [by apply Hf|done].
Qed.

Lemma update_back_fields f (u : undo_database A) :
  disabled (update_back f u) = disabled u /\
  active_sessions (update_back f u) = active_sessions u /\
  max_size (update_back f u) = max_size u.
Proof. unfold update_back. by destruct (stack u). Qed.

Lemma refines_record d sp f o' n' :
  refines d sp -> world_wf (o', n') ->
  (forall s w0, undo_inv s w0 (world_of d) -> undo_inv (f s) w0 (o', n')) ->
  refines (mk_object_database o' n' (update_back f (undo_db d)))
    (mk_snapshots (o', n') (or_current (cur sp) (snaps sp)) (sactive sp) (smax sp)).
Proof.
  intros [He Hc Ha Hm Hs Hw] Hwf Hf.
  destruct (update_back_fields f (undo_db d)) as (Hd' & Ha' & Hm').
  split; cbn; [congruence|done|congruence|congruence| |done].
  rewrite Hc in Hf. by eapply stack_rel_record.
Qed.

(** ** Simulation of the single operations *)

Lemma create_refines d sp i c id d' :
  refines d sp -> (forall id, next_ids d !! index_id i = Some id ->
                   instance id < max_instance_id) ->
  create conflict i c d = Ok (id, d') ->
  exists sp', spec_step (OCreate i c) sp sp' /\ refines d' sp'.
Proof.
  intros Href Hfit (Hid & ->)%create_inv. specialize (Hfit _ Hid).
  assert (Hc := ref_cur _ _ Href). assert (Hwf := ref_wf _ _ Href). rewrite <- Hc in Hwf.
  unfold on_create. rewrite (ref_enabled _ _ Href).
  eexists. split; [|apply (refines_record d sp)]; [destruct sp; cbn in *; subst| |..].
  - by apply (spec_create i c (world_of d)).
  - done.
  - by apply (world_wf_create (world_of d)).
  - intros s w0 Hinv. by apply (undo_inv_create s w0 (world_of d)).
Qed.

Lemma modify_refines d sp id m u d' :
  refines d sp -> modify_object conflict id m d = Ok (u, d') ->
  exists sp', spec_step (OModify id m) sp sp' /\ refines d' sp'.
Proof.
  intros Href (a & Ha & ->)%modify_object_inv.
  assert (Hc := ref_cur _ _ Href). assert (Hwf := ref_wf _ _ Href). rewrite <- Hc in Hwf.
  unfold on_modify. rewrite (ref_enabled _ _ Href).
  eexists. split; [|apply (refines_record d sp)]; [destruct sp; cbn in *; subst| |..].
  - by apply (spec_modify id m (world_of d)).
  - done.
  - by apply (world_wf_modify (world_of d) id a).
  - intros s w0 Hinv. by apply (undo_inv_modify s w0 (world_of d)).
Qed.

Lemma remove_refines d sp id u d' :
  refines d sp -> remove_object id d = Ok (u, d') ->
  exists sp', spec_step (ORemove id) sp sp' /\ refines d' sp'.
Proof.
  intros Href (a & Ha & ->)%remove_object_inv.
  assert (Hc := ref_cur _ _ Href). assert (Hwf := ref_wf _ _ Href). rewrite <- Hc in Hwf.
  unfold on_remove. rewrite (ref_enabled _ _ Href).
  eexists. split; [|apply (refines_record d sp)]; [destruct sp; cbn in *; subst| |..].
  - apply (spec_remove id (world_of d)). by exists a.
  - done.
  - by apply (world_wf_remove (world_of d)).
  - intros s w0 Hinv. by apply (undo_inv_remove s w0 (world_of d)).
Qed.

Lemma start_refines d sp u d' :
  refines d sp -> start_undo_session false d = Ok (u, d') ->
  exists sp', spec_step OStart sp sp' /\ refines d' sp'.
Proof.
  intros [He Hc Ha Hm Hs Hw] H. unfold start_undo_session in H.
  apply mbind_ok in H as (? & ? & Hx%get_ok & H). simplify_eq. rewrite He in H. cbn -[Nat.ltb] in H.
  destruct sp as [w ws a k]; cbn -[Nat.ltb] in *. injection H as _ <-.
  eexists. split; [constructor|].
  split; cbn -[Nat.ltb]; try congruence; try done.
  constructor; [by apply undo_inv_empty|].
  unfold trim. rewrite Hm, (stack_rel_length _ _ _ Hs).
  destruct (k <? length ws)%nat eqn:E; [by apply stack_rel_take|].
  apply Nat.ltb_ge in E. by rewrite take_ge by done.
Qed.

Lemma revert_refines d s st w0 ws u d' :
  stack (undo_db d) = s :: st -> disabled (undo_db d) = true ->
  stack_rel (s :: st) (w0 :: ws) (world_of d) ->
  revert conflict s d = Ok (u, d') ->
  world_of d' = w0 /\ undo_db d' = undo_db d /\ stack_rel st ws w0 /\ world_wf w0.
Proof.
  intros Hst Hd Hrel H. inversion Hrel as [|? ? ? ? ? Hinv Hrel']; subst.
  apply (revert_restores conflict s w0) in H as [? ?]; [|done..].
  split_and!; try done. apply Hinv.
Qed.

Lemma undo_refines_step d sp u d' :
  refines d sp -> undo conflict d = Ok (u, d') ->
  exists sp', spec_step OUndo sp sp' /\ refines d' sp'.
Proof.
  intros [He Hc Ha Hm Hs Hw] H. unfold undo, disable, enable, pop_back, mod_undo in H. destruct sp as [w ws a k]; cbn in *.
  apply mbind_ok in H as (? & ? & Hx%get_ok & H). simplify_eq. inv_ok. bool_to_prop.
  destruct (stack (undo_db d)) as [|s st] eqn:Est; [inv_ok|].
  inversion Hs as [|? ? w0 ws' ? Hinv Hrel]; subst.
  apply mbind_ok in H as ([] & d1 & Hrev & H). inv_ok.
  apply (revert_refines _ s st w0 ws') in Hrev as (Hw0 & Hu & Hst & Hwf); [|done..].
  eexists. split; [by apply spec_undo|].
  split; cbn; rewrite ?Hu; cbn; try done. by rewrite Est.
Qed.

Lemma pop_commit_refines d sp u d' :
  refines d sp -> pop_commit conflict d = Ok (u, d') ->
  exists sp', spec_step OPopCommit sp sp' /\ refines d' sp'.
Proof.
  intros [He Hc Ha Hm Hs Hw] H. unfold pop_commit, disable, enable, pop_back, mod_undo in H. destruct sp as [w ws a k]; cbn in *.
  apply mbind_ok in H as (? & ? & Hx%get_ok & H). simplify_eq. inv_ok. bool_to_prop.
  destruct (stack (undo_db d)) as [|s st] eqn:Est; [inv_ok|].
  inversion Hs as [|? ? w0 ws' ? Hinv Hrel]; subst.
  apply mbind_ok in H as ([] & d0 & Hdis%upd_ok & H). simplify_eq.
  apply mbind_ok in H as ([] & d1 & Hrev & H). inv_ok.
  apply (revert_refines _ s st w0 ws') in Hrev as (Hw0 & Hu & Hst & Hwf); [|done..].
  eexists. split; [match goal with H : active_sessions _ = 0 |- _ => rewrite H end;
                   by apply spec_pop_commit|].
  split; cbn; rewrite ?Hu; cbn; try done. by rewrite Est.
Qed.

Lemma merge_refines d sp u d' :
  refines d sp -> merge d = Ok (u, d') ->
  exists sp', spec_step OMerge sp sp' /\ refines d' sp'.
Proof.
  intros [He Hc Ha Hm Hs Hw] H. unfold merge, pop_back, mod_undo in H.
  destruct sp as [w ws a k]; cbn -[Nat.leb Nat.eqb] in *.
  apply mbind_ok in H as (? & ? & Hx%get_ok & H). simplify_eq.
  apply mbind_ok in H as (? & ? & [Hpos Hx]%fc_assert_ok & H). simplify_eq. bool_to_prop.
  destruct (_ && _) eqn:Elast.
  - apply andb_prop in Elast as [H1%Z.eqb_eq Hlen%Nat.eqb_eq]. inv_ok.
    inversion Hs as [? Est|s st w0 ws' ? Hinv Hrel Est Ews]; subst; rewrite <- Est in Hlen;
      [done|]. destruct st; [|done]. inversion Hrel; subst.
    rewrite H1. eexists. split; [apply spec_merge_last|].
    split; cbn; rewrite <- ?Est; cbn; try done; [by rewrite H1|constructor].
  - apply mbind_ok in H as (? & ? & [Hlen%Nat.leb_le Hx]%fc_assert_ok & H). simplify_eq.
    inversion Hs as [? Est|s st w1 ws' ? Hinv Hrel Est Ews]; subst;
      rewrite <- Est in Hlen, H; [cbn in Hlen; lia|].
    inversion Hrel as [|s' st' w0 ws'' ? Hinv' Hrel']; subst; [cbn in Hlen; lia|].
    inv_ok. eexists. split; [by apply spec_merge|].
    split; cbn; try done. constructor; [by eapply undo_inv_merge|done].
Qed.

Lemma commit_refines d sp u d' :
  refines d sp -> commit d = Ok (u, d') ->
  exists sp', spec_step OCommit sp sp' /\ refines d' sp'.
Proof.
  intros [He Hc Ha Hm Hs Hw] H. unfold commit, mod_undo in H.
  destruct sp as [w ws a k]; cbn in *. inv_ok. bool_to_prop.
  eexists. split; [by apply spec_commit|]. by split.
Qed.

Lemma run_refines d sp o u d' :
  refines d sp -> op_fits d o -> run o d = Ok (u, d') ->
  exists sp', spec_step o sp sp' /\ refines d' sp'.
Proof.
  intros Href Hfit H. destruct o; cbn [run] in H.
  - apply mbind_ok in H as (id & d1 & H & Hr%mret_ok). simplify_eq.
    by eapply create_refines.
  - by eapply modify_refines.
  - by eapply remove_refines.
  - apply mbind_ok in H as (x & d1 & H & Hr%mret_ok). simplify_eq. by eapply start_refines.
  - by eapply undo_refines_step.
  - by eapply merge_refines.
  - by eapply commit_refines.
  - by eapply pop_commit_refines.
Qed.

(** ** Sequences of operations *)

Fixpoint runs_fit (os : list op) d : Prop :=
  match os with
  | [] => True
  | o :: os => op_fits d o /\ forall u d', run o d = Ok (u, d') -> runs_fit os d'
  end.

Inductive spec_steps : list op -> snapshots -> snapshots -> Prop :=
| steps_nil sp : spec_steps [] sp sp
| steps_cons o os sp1 sp2 sp3 :
    spec_step o sp1 sp2 -> spec_steps os sp2 sp3 -> spec_steps (o :: os) sp1 sp3.

Lemma runs_refines os d sp u d' :
  refines d sp -> runs_fit os d -> runs os d = Ok (u, d') ->
  exists sp', spec_steps os sp sp' /\ refines d' sp'.
Proof.
  revert d sp. induction os as [|o os IH]; intros d sp Href Hfit H; cbn in H.
  - inv_ok. eexists. split; [constructor|done].
  - apply mbind_ok in H as ([] & d1 & H1 & H). destruct Hfit as [Hf Hfit].
    destruct (run_refines _ _ _ _ _ Href Hf H1) as (sp1 & Hs & Href1).
    destruct (IH _ _ Href1 (Hfit _ _ H1) H) as (sp2 & Hss & Href2).
    exists sp2. split; [by econstructor|done].
Qed.

Definition is_change (o : op) : bool :=
  match o with OCreate _ _ | OModify _ _ | ORemove _ => true | _ => false end.

(** Changes keep the snapshots once there is one. *)
Lemma changes_keep_snaps os sp sp' :
  Forall (fun o => is_change o = true) os -> spec_steps os sp sp' -> snaps sp <> [] ->
  snaps sp' = snaps sp /\ sactive sp' = sactive sp /\ smax sp' = smax sp.
Proof.
  intros Hos Hst. induction Hst as [sp|o os sp1 sp2 sp3 Hs Hst IH]; [done|].
  inversion Hos as [|? ? Ho Hos']; subst. intros Hne.
  assert (snaps sp2 = snaps sp1 /\ sactive sp2 = sactive sp1 /\ smax sp2 = smax sp1)
    as (E1 & E2 & E3).
  { inversion Hs; subst; cbn in *; try done; by destruct ws. }
  rewrite <- E1, <- E2, <- E3. apply IH; [done|congruence].
Qed.

Lemma spec_steps_app os1 os2 sp sp' :
  spec_steps (os1 ++ os2) sp sp' ->
  exists sp1, spec_steps os1 sp sp1 /\ spec_steps os2 sp1 sp'.
Proof.
  revert sp. induction os1 as [|o os1 IH]; intros sp H; cbn in H.
  - eexists. split; [constructor|done].
  - inversion H as [|? ? ? sp2 ? Hs Hst]; subst. destruct (IH _ Hst) as (sp1 & ? & ?).
    exists sp1. split; [by econstructor|done].
Qed.

(** Starting a session, changing anything, and undoing returns to the start. *)
Lemma spec_session_undo os sp sp' :
  Forall (fun o => is_change o = true) os ->
  spec_steps (OStart :: os ++ [OUndo]) sp sp' ->
  cur sp' = cur sp /\ snaps sp' = take (smax sp) (snaps sp).
Proof.
  intros Hos H. inversion H as [|? ? ? sp1 ? Hs Hst]; subst.
  apply spec_steps_app in Hst as (sp2 & Hst & Hu). inversion Hs; subst.
  apply changes_keep_snaps in Hst as (E1 & E2 & E3); [|done|done]. cbn in *.
  inversion Hu as [|? ? ? sp3 ? Hu1 Hu2]; subst. inversion Hu2; subst.
  inversion Hu1; subst. cbn in *. by simplify_eq.
Qed.

(** The same with an inner session merged into the outer one. *)
Lemma spec_session_merge os1 os2 sp sp' :
  Forall (fun o => is_change o = true) os1 -> Forall (fun o => is_change o = true) os2 ->
  (0 < smax sp)%nat ->
  spec_steps (OStart :: os1 ++ OStart :: os2 ++ [OMerge; OUndo]) sp sp' ->
  cur sp' = cur sp.
Proof.
  intros H1 H2 Hmax H. inversion H as [|? ? ? sp1 ? Hs Hst]; subst. inversion Hs; subst.
  apply spec_steps_app in Hst as (sp2 & Hst & Hu).
  apply changes_keep_snaps in Hst as (E1 & E2 & E3); [|done|done]. cbn in *.
  inversion Hu as [|? ? ? sp3 ? Hs3 Hst3]; subst. inversion Hs3; subst. cbn in *. subst.
  apply spec_steps_app in Hst3 as (sp4 & Hst & Hu4).
  apply changes_keep_snaps in Hst as (F1 & F2 & F3); [|done|done]. cbn in *.
  destruct k as [|k]; [lia|]. cbn in F1.
  inversion Hu4 as [|? ? ? sp5 ? Hm Hst5]; subst. inversion Hm; subst; cbn in *; simplify_eq.
  inversion Hst5 as [|? ? ? sp6 ? Hun Hst6]; subst. inversion Hst6; subst.
  inversion Hun; subst. done.
Qed.

(** A database with nothing on its undo stack refines itself. *)
Lemma refines_init d :
  disabled (undo_db d) = false -> stack (undo_db d) = [] -> world_wf (world_of d) ->
  refines d (mk_snapshots (world_of d) [] (active_sessions (undo_db d)) (max_size (undo_db d))).
Proof. intros He Hs Hw. split; try done. rewrite Hs. constructor. Qed.

(** An executable check of [runs_fit]. *)
Definition op_fitsb d (o : op) : bool :=
  match o with
  | OCreate i _ => match next_ids d !! index_id i with
                   | Some id => instance id <? max_instance_id
                   | None => true
                   end
  | _ => true
  end.

Fixpoint runs_fitb (os : list op) d : bool :=
  match os with
  | [] => true
  | o :: os => op_fitsb d o && match run o d with
                               | Ok (_, d') => runs_fitb os d'
                               | Throw _ => true
                               end
  end.

Lemma op_fitsb_sound d o : op_fitsb d o = true -> op_fits d o.
Proof.
  destruct o; cbn; try done. intros H id Hid. rewrite Hid in H. by bool_to_prop.
Qed.

Lemma runs_fitb_sound os d : runs_fitb os d = true -> runs_fit os d.
Proof.
  revert d. induction os as [|o os IH]; intros d H; cbn in *; [done|].
  bool_to_prop. split; [by apply op_fitsb_sound|].
  intros u d' Hr. rewrite Hr in *. by apply IH.
Qed.

(** ** Properties *)

(** C1.  Refinement: every operation on the object database and its undo
    history (create, modify, remove, starting a session, undo, merge, commit,
    pop_commit) that returns is simulated by the corresponding step on a stack
    of full snapshots of the database, provided [create] does not exhaust the
    2^48 instances of its index. *)
Theorem undo_history_refines_snapshots d sp o u d' :
  refines d sp -> op_fits d o -> run o d = Ok (u, d') ->
  exists sp', spec_step o sp sp' /\ refines d' sp'.
Proof. apply run_refines. Qed.

(**  Roundtrip: starting an undo session, making any sequence of changes
    and undoing gives back exactly the objects and the next ids there were at
    the start, whatever the older history. *)
Theorem undo_session_restores d sp os u d' :
  refines d sp -> Forall (fun o => is_change o = true) os ->
  runs_fit (OStart :: os ++ [OUndo]) d ->
  runs (OStart :: os ++ [OUndo]) d = Ok (u, d') ->
  objects d' = objects d /\ next_ids d' = next_ids d.
Proof.
  intros Href Hos Hfit H. destruct (runs_refines _ _ _ _ _ Href Hfit H) as (sp' & Hst & Href').
  apply spec_session_undo in Hst as [Hcur _]; [|done].
  rewrite <- (ref_cur _ _ Href), <- (ref_cur _ _ Href') in Hcur. by injection Hcur.
Qed.

(** Merging an inner session into the outer one keeps the outer one
    undoable: undoing the outer session after the merge reverts the changes of
    both. *)
Theorem merged_session_undo_restores d sp os1 os2 u d' :
  let os := OStart :: os1 ++ OStart :: os2 ++ [OMerge; OUndo] in
  refines d sp -> (0 < max_size (undo_db d))%nat ->
  Forall (fun o => is_change o = true) os1 -> Forall (fun o => is_change o = true) os2 ->
  runs_fit os d -> runs os d = Ok (u, d') ->
  objects d' = objects d /\ next_ids d' = next_ids d.
Proof.
  intros os Href Hmax H1 H2 Hfit H.
  destruct (runs_refines _ _ _ _ _ Href Hfit H) as (sp' & Hst & Href').
  apply spec_session_merge in Hst as Hcur; [|done|done|by rewrite <- (ref_max _ _ Href)].
  rewrite <- (ref_cur _ _ Href), <- (ref_cur _ _ Href') in Hcur. by injection Hcur.
Qed.

(** Termination without error: with no secondary uniqueness constraint,
    [undo] never throws when a session is active and its undo state is on the
    stack: it returns with the database of the last snapshot. *)
Theorem undo_succeeds d sp w0 ws :
  (forall a b, conflict a b = false) -> refines d sp ->
  snaps sp = w0 :: ws -> 0 < sactive sp ->
  exists d', undo conflict d = Ok (tt, d') /\ world_of d' = w0.
Proof.
  intros Hconf Href Hsn Hact. pose proof Href as [He Hc Ha Hm Hs Hw].
  rewrite Hsn in Hs. inversion Hs as [|s st ? ? ? Hinv Hrel Est]; subst.
  assert (is_ok (undo conflict d) = true) as Hok.
  { unfold undo, mbind, M_bind, fc_assert; cbn -[Z.ltb]. rewrite He, Ha; cbn -[Z.ltb].
    destruct (Z.ltb_spec 0 (sactive sp)); [|lia]. rewrite <- Est.
    pose proof (revert_total conflict Hconf s w0
      (set_undo_db (set_disabled true (undo_db d)) d)) as Hrev.
    assert (Hwd : world_of (set_undo_db (set_disabled true (undo_db d)) d) = world_of d)
      by done.
    rewrite Hwd, Hc in Hrev. specialize (Hrev eq_refl Hinv Hw).
    destruct (revert _ _ _) as [[? ?]|]; done. }
  destruct (undo conflict d) as [[[] d']|] eqn:Hu; [|done]. exists d'. split; [done|].
  destruct (undo_refines_step _ _ _ _ Href Hu) as (sp' & Hstep & Href').
  rewrite (ref_cur _ _ Href'). inversion Hstep; subst; cbn in *. congruence.
Qed.

End refinement.

(** ** Witnesses *)
Section witnesses.
Definition no_conflict (a b : Z) : bool := false.
(** Space 1, type 2 of [Z]-valued objects: objects 0 and 1 exist. *)
Definition wit_index : Z := Z.shiftl 1 56 + Z.shiftl 2 48.
Definition wit_db : object_database Z :=
  mk_object_database {[ wit_index := 10; wit_index + 1 := 20 ]}
    {[ wit_index := wit_index + 2 ]} (mk_undo_database 0 false [] 256).
Definition wit_snap : snapshots :=
  mk_snapshots (world_of wit_db) [] 0 256.
Definition wit_changes : list (@op Z) :=
  [OCreate wit_index (fun _ => 30); OModify wit_index (fun x => x + 1);
   ORemove (wit_index + 1); OModify (wit_index + 2) (fun _ => 0); ORemove (wit_index + 2)].

Lemma wit_db_wf : world_wf (world_of wit_db).
Proof.
  split; cbn [world_of wit_db objects next_ids fst snd].
  - intros id a [[<- <-]|[_ Hid]]%lookup_insert_Some.
    + split; [vm_compute; split; congruence|]. exists (wit_index + 2). by vm_compute.
    + apply lookup_singleton_Some in Hid as [<- <-].
      split; [vm_compute; split; congruence|]. exists (wit_index + 2). by vm_compute.
  - intros i nx [<- <-]%lookup_singleton_Some. split; [vm_compute; split; congruence|].
    by vm_compute.
Qed.

Lemma wit_refines : refines wit_db wit_snap.
Proof. apply (refines_init wit_db); [done|done|apply wit_db_wf]. Qed.

Lemma wit_fit os : runs_fitb no_conflict os wit_db = true -> runs_fit no_conflict os wit_db.
Proof. apply runs_fitb_sound. Qed.

(** The database after an operation that returns. *)
Definition after (os : list (@op Z)) (d : object_database Z) : object_database Z :=
  match runs no_conflict os d with Ok (_, d') => d' | Throw _ => d end.

Lemma undo_history_refines_snapshots_witness :
  exists sp', spec_step (OCreate wit_index (fun _ => 30)) wit_snap sp' /\
    refines (after [OCreate wit_index (fun _ => 30)] wit_db) sp'.
Proof.
  apply (undo_history_refines_snapshots no_conflict wit_db wit_snap _ tt).
  - exact wit_refines.
  - apply (op_fitsb_sound wit_db (OCreate wit_index (fun _ => 30))). vm_compute. reflexivity.
  - vm_compute. reflexivity.
Defined.

Lemma undo_session_restores_witness :
  objects (after (OStart :: wit_changes ++ [OUndo]) wit_db) = objects wit_db /\
  next_ids (after (OStart :: wit_changes ++ [OUndo]) wit_db) = next_ids wit_db.
Proof.
  apply (undo_session_restores no_conflict wit_db wit_snap wit_changes tt).
  - exact wit_refines.
  - repeat constructor.
  - apply wit_fit. vm_compute. reflexivity.
  - vm_compute. reflexivity.
Defined.

Lemma merged_session_undo_restores_witness :
  let os := OStart :: wit_changes ++ OStart :: [OModify wit_index (fun x => x * 2)]
            ++ [OMerge; OUndo] in
  objects (after os wit_db) = objects wit_db /\ next_ids (after os wit_db) = next_ids wit_db.
Proof.
  intros os.
  apply (merged_session_undo_restores no_conflict wit_db wit_snap wit_changes
           [OModify wit_index (fun x => x * 2)] tt).
  - exact wit_refines.
  - cbn. lia.
  - repeat constructor.
  - repeat constructor.
  - apply wit_fit. vm_compute. reflexivity.
  - vm_compute. reflexivity.
Defined.

Lemma undo_succeeds_witness :
  exists d', undo no_conflict (after (OStart :: wit_changes) wit_db) = Ok (tt, d') /\
    world_of d' = world_of wit_db.
Proof.
  destruct (runs_refines no_conflict (OStart :: wit_changes) wit_db wit_snap tt
    (after (OStart :: wit_changes) wit_db) wit_refines) as (sp' & Hst & Href).
  - apply wit_fit. vm_compute. reflexivity.
  - vm_compute. reflexivity.
  - inversion Hst as [|? ? ? sp1 ? Hs Hst']; subst. inversion Hs; subst.
    apply changes_keep_snaps in Hst' as (E1 & E2 & _); [|repeat constructor|done].
    apply (undo_succeeds no_conflict _ sp' _ _ (fun _ _ => eq_refl) Href E1).
    rewrite E2. vm_compute. reflexivity.
Defined.

End witnesses.
