(* ===== verification/Block.v ===== *)
(** * Block ids and the transaction merkle root
    (libraries/chain/protocol/block.cpp, block_header.hpp)

    A [block_id_type] is 20 bytes; it is represented by the integer they spell
    in big-endian order, so its first four bytes, the block number, are its
    topmost 32 bits. The hash functions are parameters. *)
From S2P Require Import Prelude.
Local Open Scope Z_scope.

Module block.

Record signed_block {T : Type} := mk_signed_block {
  previous : Z;
  timestamp : Z;
  witness : Z;
  transaction_merkle_root : Z;
  transactions : list T;
}.
Arguments signed_block : clear implicits.

(** [block_header::num_from_id] *)
Definition num_from_id (id : Z) : Z := u32 (Z.shiftr id 128).

Definition block_num {T} (b : signed_block T) : Z := u32 (num_from_id (previous b) + 1).

Section hashing.
Context {T : Type}.
(** The SHA-224 digest of a header, as the big-endian integer of its 28 bytes. *)
Context (sha224 : signed_block T -> Z).

(** [signed_block_header::id]: the first word of the digest is replaced by the
    block number and the first 20 bytes are kept. *)
Definition id (b : signed_block T) : Z :=
  let tmp := Z.lor (Z.shiftl (block_num b) 192) (Z.land (sha224 b) (Z.ones 192)) in
  Z.shiftr tmp 64.

(** [processed_transaction::merkle_digest], the digest of a pair, and the final
    [checksum_type::hash]. *)
Context {D C : Type} (merkle_digest : T -> D) (hash_pair : D -> D -> D)
  (hash_root : D -> C) (empty_root : C).

(** One pass of the loop: neighbours are hashed in pairs, an odd last one is
    carried over. *)
Fixpoint hash_level (ids : list D) : list D :=
  match ids with
  | a :: b :: rest => hash_pair a b :: hash_level rest
  | _ => ids
  end.

(** [while( current_number_of_hashes > 1 )]; each pass at least halves the
    number of hashes, so as many passes as there are hashes are enough. *)
Fixpoint merkle_loop (fuel : nat) (ids : list D) : result D :=
  match ids with
  | [] => Throw undefined_behaviour
  | [d] => Ok d
  | _ => match fuel with
         | O => Throw out_of_fuel
         | S fuel => merkle_loop fuel (hash_level ids)
         end
  end.

Definition calculate_merkle_root (b : signed_block T) : result C :=
  match transactions b with
  | [] => Ok empty_root
  | txs => hash_root <$> merkle_loop (length txs) (merkle_digest <$> txs)
  end.

(** ** Reference: hashing the leaves as a binary tree *)
Inductive tree := leaf (d : D) | node (l r : tree).
Fixpoint tree_root (t : tree) : D :=
  match t with leaf d => d | node l r => hash_pair (tree_root l) (tree_root r) end.
Fixpoint tree_leaves (t : tree) : list D :=
  match t with leaf d => [d] | node l r => tree_leaves l ++ tree_leaves r end.
Fixpoint tree_depth (t : tree) : nat :=
  match t with leaf _ => O | node l r => S (Nat.max (tree_depth l) (tree_depth r)) end.

(** The level of trees the loop computes the roots of. *)
Fixpoint pair_trees (ts : list tree) : list tree :=
  match ts with
  | a :: b :: rest => node a b :: pair_trees rest
  | _ => ts
  end.

Lemma list_ind2 {X} (P : list X -> Prop) :
  P [] -> (forall x, P [x]) -> (forall x y l, P l -> P (x :: y :: l)) -> forall l, P l.
Proof.
  intros H0 H1 H2. refine (fix IH l := match l with [] => H0 | [x] => H1 x
    | x :: y :: l' => H2 x y l' (IH l') end).
Qed.

Lemma hash_level_trees ts : hash_level (tree_root <$> ts) = tree_root <$> pair_trees ts.
Proof. induction ts as [|t|t1 t2 ts IH] using list_ind2; cbn; [done..|]. by rewrite IH. Qed.

Lemma pair_trees_leaves ts : flat_map tree_leaves (pair_trees ts) = flat_map tree_leaves ts.
Proof.
  induction ts as [|t|t1 t2 ts IH] using list_ind2; cbn; [done..|].
  rewrite IH. by rewrite (assoc_L (++)).
Qed.

Lemma flat_map_leaf (l : list D) : flat_map tree_leaves (leaf <$> l) = l.
Proof. induction l as [|d l IH]; cbn; [done|]. by rewrite IH. Qed.

Lemma roots_leaf (l : list D) : tree_root <$> (leaf <$> l) = l.
Proof. induction l as [|d l IH]; cbn; [done|]. by f_equal. Qed.

Lemma pair_trees_length ts : length (pair_trees ts) = Nat.div2 (S (length ts)).
Proof. induction ts as [|t|t1 t2 ts IH] using list_ind2; cbn in *; lia. Qed.

Lemma pair_trees_depth n ts :
  Forall (fun t => (tree_depth t <= n)%nat) ts ->
  Forall (fun t => (tree_depth t <= S n)%nat) (pair_trees ts).
Proof.
  induction ts as [|t|t1 t2 ts IH] using list_ind2; cbn; intros H.
  - done.
  - apply Forall_cons in H as [H _]. apply Forall_singleton. lia.
  - apply Forall_cons in H as [? H]. apply Forall_cons in H as [? H].
    constructor; [|auto]. cbn in *. lia.
Qed.

Lemma merkle_loop_trees fuel ts n k :
  ts <> [] -> (length ts <= fuel)%nat -> (length ts <= 2 ^ k)%nat ->
  Forall (fun t => (tree_depth t <= n)%nat) ts ->
  exists t, merkle_loop fuel (tree_root <$> ts) = Ok (tree_root t) /\
    tree_leaves t = flat_map tree_leaves ts /\ (tree_depth t <= n + k)%nat.
Proof.
  revert ts n k. induction fuel as [|fuel IH]; intros ts n k Hne Hlen Hk Hd;
    (destruct ts as [|t1 [|t2 ts]]; [done| |]); try (cbn in Hlen; lia).
  - exists t1. apply Forall_cons in Hd as [Hd _]. cbn. rewrite app_nil_r.
    split_and!; [done|done|lia].
  - set (l := t1 :: t2 :: ts) in *.
    assert (Hpl : length (pair_trees l) = Nat.div2 (S (length l))) by apply pair_trees_length.
    assert (2 <= length l)%nat by (cbn; lia).
    assert (Hdiv := Nat.div2_odd (S (length l))).
    assert (Hodd : (Nat.b2n (Nat.odd (S (length l))) <= 1)%nat)
      by (destruct (Nat.odd _); cbn; lia).
    destruct k as [|k]; [cbn in Hk; lia|].
    destruct (IH (pair_trees l) (S n) k) as (t & Ht & Hl & Hdep).
    + by destruct l as [|? [|]].
    + lia.
    + rewrite Nat.pow_succ_r' in Hk. lia.
    + by apply pair_trees_depth.
    + exists t. split_and!; [|by rewrite Hl, pair_trees_leaves|lia].
      rewrite <- Ht, <- hash_level_trees. done.
Qed.

(** C5.  The merkle root of a block with transactions is the root hash of a
    binary tree whose leaves are the transactions' digests in order and whose
    depth is at most [k] when there are at most [2^k] transactions; the pairing
    loop always terminates.  (An empty block gets the default checksum.) *)
Theorem merkle_root_is_tree_root (b : signed_block T) (k : nat) :
  transactions b <> [] -> (length (transactions b) <= 2 ^ k)%nat ->
  exists t, calculate_merkle_root b = Ok (hash_root (tree_root t)) /\
    tree_leaves t = merkle_digest <$> transactions b /\ (tree_depth t <= k)%nat.
Proof.
  intros Hne Hk.
  destruct (merkle_loop_trees (length (transactions b))
    (leaf <$> (merkle_digest <$> transactions b)) 0 k) as (t & Ht & Hl & Hd).
  - by destruct (transactions b).
  - rewrite !length_fmap. lia.
  - rewrite !length_fmap. lia.
  - apply Forall_fmap, Forall_true. intros x. cbn. lia.
  - exists t. split_and!; [| |done].
    + rewrite roots_leaf in Ht. unfold calculate_merkle_root.
      destruct (transactions b) eqn:E; [done|]. by rewrite Ht.
    + by rewrite Hl, flat_map_leaf.
Qed.

(** The number stored in a block's id is its block number. *)
Lemma num_from_id_id (b : signed_block T) : num_from_id (id b) = block_num b.
Proof.
  unfold num_from_id, id.
  rewrite Z.shiftr_shiftr by lia. change (64 + 128) with 192.
  assert (Hb : is_uint 32 (block_num b)) by (apply wrap_bound; lia).
  rewrite Z.shiftr_lor, Z.shiftr_shiftl_l by lia. rewrite Z.sub_diag, Z.shiftl_0_r.
  assert (Z.shiftr (Z.land (sha224 b) (Z.ones 192)) 192 = 0) as ->.
  { rewrite Z.land_ones, Z.shiftr_div_pow2 by lia. apply Z.div_small, Z.mod_pos_bound. lia. }
  rewrite Z.lor_0_r. by apply wrap_small.
Qed.

End hashing.

Definition wit_block : signed_block Z := mk_signed_block Z 0 0 0 0 [1; 2; 3; 4; 5].

Lemma merkle_root_is_tree_root_witness :
  exists t, calculate_merkle_root (fun t => t) (fun a b => 10 * a + b) (fun d => d) 0 wit_block
    = Ok (tree_root (fun a b => 10 * a + b) t) /\
    tree_leaves t = (fun t => t) <$> [1; 2; 3; 4; 5] /\ (tree_depth t <= 3)%nat.
Proof.
  apply (merkle_root_is_tree_root (fun t => t) (fun a b => 10 * a + b) (fun d => d) 0
           wit_block 3); [discriminate|cbn; lia].
Defined.

End block.
