(* ===== verification/ForkDb.v ===== *)
(** * The fork database (libraries/chain/fork_database.cpp, fork_database.hpp)

    Fork items live on a heap and are shared: [item_ptr] is a heap address,
    [prev] a weak pointer.  An item is alive while the database refers to it
    (from an index or as head); locking a weak pointer to an item that is no
    longer alive yields a null pointer, as for [std::weak_ptr]. *)
From S2P Require Import Prelude Block.
Local Open Scope Z_scope.
Import block.

Module forkdb.

Record fork_item := mk_fork_item {
  prev : option nat;
  num : Z;
  invalid : bool;
  item_id : Z;
  previous_id : Z;
}.

(** An index keeps its items in insertion order; it is unique in the item id
    and ordered by number. *)
Record fork_database := mk_fork_database {
  max_size : Z;
  unlinked_index : list nat;
  index : list nat;
  head : option nat;
  heap : gmap nat fork_item;
  next_ptr : nat;
}.

#[local] Notation M := (M fork_database).

Section fork_database.
Context {T : Type} (sha224 : signed_block T -> Z).
Implicit Types (d : fork_database) (p q : nat) (it : fork_item) (b : signed_block T).

(** [fork_item::fork_item] *)
Definition make_item b : fork_item :=
  mk_fork_item None (block_num b) false (id sha224 b) (previous b).

Definition alive d p : bool :=
  bool_decide (p ∈ index d) || bool_decide (p ∈ unlinked_index d) ||
  bool_decide (head d = Some p).

(** [weak_ptr::lock] *)
Definition lock d (w : option nat) : option nat :=
  match w with Some p => if alive d p then Some p else None | None => None end.

Definition item_at d p : option fork_item := heap d !! p.
Definition num_at d p : Z := match heap d !! p with Some it => num it | None => 0 end.
Definition id_at d p : Z := match heap d !! p with Some it => item_id it | None => 0 end.
Definition previous_at d p : Z :=
  match heap d !! p with Some it => previous_id it | None => 0 end.
Definition prev_at d p : option nat :=
  match heap d !! p with Some it => prev it | None => None end.
Definition invalid_at d p : bool :=
  match heap d !! p with Some it => invalid it | None => false end.

(** [index.get<block_id>().find(id)] *)
Definition find_id d (l : list nat) (i : Z) : option nat :=
  list_find (fun p => id_at d p = i) l ≫= fun '(_, p) => Some p.

(** [index.insert(item)]: refused when the id is already present. *)
Definition insert_item d (l : list nat) p : list nat :=
  match find_id d l (id_at d p) with Some _ => l | None => l ++ [p] end.

(** Erasing from the front of the index by number while below a bound. *)
Definition prune d (min_num : Z) (l : list nat) : list nat :=
  filter (fun p => min_num <= num_at d p) l.

Definition set_head_ptr (h : option nat) d : fork_database :=
  mk_fork_database (max_size d) (unlinked_index d) (index d) h (heap d) (next_ptr d).
Definition set_index (l : list nat) d : fork_database :=
  mk_fork_database (max_size d) (unlinked_index d) l (head d) (heap d) (next_ptr d).
Definition set_unlinked (l : list nat) d : fork_database :=
  mk_fork_database (max_size d) l (index d) (head d) (heap d) (next_ptr d).
Definition set_heap (h : gmap nat fork_item) d : fork_database :=
  mk_fork_database (max_size d) (unlinked_index d) (index d) (head d) h (next_ptr d).

(** [std::make_shared<fork_item>(b)] *)
Definition alloc (it : fork_item) : M nat :=
  d ← get;
  put (mk_fork_database (max_size d) (unlinked_index d) (index d) (head d)
         (<[next_ptr d := it]> (heap d)) (S (next_ptr d))) ;;
  mret (next_ptr d).

Definition empty_fork_database : fork_database :=
  mk_fork_database 1024 [] [] None ∅ 0.

Definition reset : M unit := upd (fun d => set_index [] (set_head_ptr None d)).

Definition pop_block : M unit :=
  d ← get;
  match head d with
  | None => throw assert_exception
  | Some h =>
      match lock d (prev_at d h) with
      | None => throw assert_exception
      | Some p => put (set_head_ptr (Some p) d)
      end
  end.

Definition start_block b : M unit :=
  p ← alloc (make_item b);
  upd (fun d => set_head_ptr (Some p) (set_index (insert_item d (index d) p) d)).

Definition set_prev p (w : option nat) d : fork_database :=
  match heap d !! p with
  | Some it => set_heap (<[p := mk_fork_item w (num it) (invalid it) (item_id it)
                                  (previous_id it)]> (heap d)) d
  | None => d
  end.

(** The first part of [_push_block]: the age check and the link to the parent.
    The default [block_id_type()] is 0. *)
Definition link_block p : M unit :=
  d ← get;
  match head d with
  | None => mret tt
  | Some h =>
      fc_assert (Z.max 0 (num_at d h - max_size d) <? num_at d p) ;;
      if previous_at d p =? 0 then mret tt
      else match find_id d (index d) (previous_at d p) with
           | None => throw unlinkable_block_exception
           | Some q =>
               fc_assert (negb (invalid_at d q)) ;;
               put (set_prev p (Some q) d)
           end
  end.

Definition push_item p : M unit :=
  link_block p ;;
  upd (fun d => set_index (insert_item d (index d) p) d) ;;
  d ← get;
  match head d with
  | None => put (set_head_ptr (Some p) d)
  | Some h =>
      if num_at d h <? num_at d p then
        let d1 := set_head_ptr (Some p) d in
        let hn := num_at d p in
        let min_num := u32 (hn - Z.min (max_size d) hn) in
        put (set_unlinked
               (filter (fun q => num_at d1 q <> u32 (hn - max_size d)) (unlinked_index d1))
               (set_index (prune d1 min_num (index d1)) d1))
      else mret tt
  end.

(** [push_block]: the statement after the rethrow is unreachable. *)
Definition push_block b : M (option nat) :=
  p ← alloc (make_item b);
  push_item p ;;
  gets head.

Definition set_max_size (s : Z) : M unit :=
  upd (fun d => mk_fork_database s (unlinked_index d) (index d) (head d) (heap d) (next_ptr d)) ;;
  d ← get;
  match head d with
  | None => mret tt
  | Some h =>
      let m := Z.max 0 (num_at d h - max_size d) in
      put (set_unlinked (prune d m (unlinked_index d)) (set_index (prune d m (index d)) d))
  end.

Definition is_known_block d (i : Z) : bool :=
  match find_id d (index d) i with
  | Some _ => true
  | None => match find_id d (unlinked_index d) i with Some _ => true | None => false end
  end.

Definition fetch_block d (i : Z) : option nat :=
  match find_id d (index d) i with
  | Some p => Some p
  | None => find_id d (unlinked_index d) i
  end.

Definition fetch_block_by_number d (n : Z) : list nat :=
  filter (fun p => num_at d p = n) (index d).

(** [while( first->num > second->num ) { result.push_back(first); first =
    first->prev.lock(); FC_ASSERT(first); }], as (pushed items, new first). *)
Fixpoint walk_down d (fuel : nat) p (n : Z) : result (list nat * nat) :=
  if n <? num_at d p then
    match fuel with
    | O => Throw out_of_fuel
    | S fuel =>
        match lock d (prev_at d p) with
        | None => Throw assert_exception
        | Some q => '(l, r) ← walk_down d fuel q n; Ok (p :: l, r)
        end
    end
  else Ok ([], p).

Fixpoint walk_both d (fuel : nat) p q : result (list nat * list nat * nat * nat) :=
  if previous_at d p =? previous_at d q then Ok ([], [], p, q)
  else
    match fuel with
    | O => Throw out_of_fuel
    | S fuel =>
        match lock d (prev_at d p) with
        | None => Throw assert_exception
        | Some p' =>
            match lock d (prev_at d q) with
            | None => Throw assert_exception
            | Some q' => '(l1, l2, p2, q2) ← walk_both d fuel p' q';
                         Ok (p :: l1, q :: l2, p2, q2)
            end
        end
    end.

(** Fuel: the loops walk down the block numbers. *)
Definition fuel_at d p : nat := S (Z.to_nat (num_at d p)).

Definition fetch_branch_from d (first second : Z) : result (list nat * list nat) :=
  p ← deref (find_id d (index d) first) assert_exception;
  q ← deref (find_id d (index d) second) assert_exception;
  '(l1, p1) ← walk_down d (fuel_at d p) p (num_at d q);
  '(l2, q1) ← walk_down d (fuel_at d q) q (num_at d p1);
  '(m1, m2, p2, q2) ← walk_both d (fuel_at d p1) p1 q1;
  Ok (l1 ++ m1 ++ [p2], l2 ++ m2 ++ [q2]).

Definition set_head (h : option nat) : M unit := upd (set_head_ptr h).

Definition remove (i : Z) : M unit :=
  upd (fun d => set_index (filter (fun p => id_at d p <> i) (index d)) d).

End fork_database.

End forkdb.
