(* ===== verification/ForkProof.v ===== *)
(** * Invariants of the fork database and correctness of its branches *)
From S2P Require Import Prelude Block ForkDb.
Local Open Scope Z_scope.
Import block forkdb.

Section fork_proofs.
Context {T : Type} (sha224 : signed_block T -> Z).
Implicit Types (d : fork_database) (p q r : nat) (it : fork_item) (b : signed_block T).

(** ** The invariant *)
Record fork_wf d : Prop := {
  wf_next p it : heap d !! p = Some it -> (p < next_ptr d)%nat;
  wf_index p : p ∈ index d -> is_Some (heap d !! p);
  wf_head p : head d = Some p -> is_Some (heap d !! p);
  wf_num p it : heap d !! p = Some it ->
    is_uint 32 (num it) /\ num it = num_from_id (item_id it) /\
    num it = u32 (num_from_id (previous_id it) + 1);
  wf_prev p it q : heap d !! p = Some it -> prev it = Some q ->
    exists it', heap d !! q = Some it' /\ item_id it' = previous_id it /\
      num it = num it' + 1;
  wf_unique : NoDup (id_at d <$> index d);
  wf_unlinked : unlinked_index d = [];
}.

(** Block numbers do not wrap around. *)
Definition block_fits b : Prop := num_from_id (previous b) < 2 ^ 32 - 1.

(** ** Lookups *)
Lemma find_id_Some d l i p :
  find_id d l i = Some p -> p ∈ l /\ id_at d p = i.
Proof.
  unfold find_id. destruct (list_find _ l) as [[k q]|] eqn:E; [|done].
  apply list_find_Some in E as (Hl & Hi & _). cbn. intros [= <-].
  split; [by eapply list_elem_of_lookup_2|done].
Qed.

Lemma find_id_None d l i : find_id d l i = None <-> Forall (fun p => id_at d p <> i) l.
Proof.
  unfold find_id. destruct (list_find _ l) as [[k q]|] eqn:E; cbn.
  - apply list_find_Some in E as (Hl & Hi & _). split; [done|].
    rewrite Forall_forall. intros H. exfalso. by eapply H; [eapply list_elem_of_lookup_2|].
  - apply list_find_None in E. done.
Qed.

Lemma insert_item_elem d l p q : q ∈ insert_item d l p -> q ∈ l \/ q = p.
Proof. unfold insert_item. destruct (find_id _ _ _); set_solver. Qed.

Lemma insert_item_unique d l p :
  NoDup (id_at d <$> l) -> NoDup (id_at d <$> insert_item d l p).
Proof.
  intros H. unfold insert_item. destruct (find_id _ _ _) eqn:E; [done|].
  apply find_id_None in E. rewrite Forall_forall in E.
  rewrite fmap_app, NoDup_app. split_and!; [done| |apply NoDup_singleton].
  intros x (q & -> & Hq)%list_elem_of_fmap ?%list_elem_of_singleton. by eapply E.
Qed.

Lemma filter_unique d (P : nat -> Prop) `{forall x, Decision (P x)} l :
  NoDup (id_at d <$> l) -> NoDup (id_at d <$> filter P l).
Proof.
  intros HN. eapply sublist_NoDup; [exact HN|].
  apply fmap_sublist, sublist_filter.
Qed.

Lemma fresh_ptr d : fork_wf d -> heap d !! next_ptr d = None.
Proof.
  intros Hwf. destruct (heap d !! next_ptr d) as [it|] eqn:E; [|done].
  apply (wf_next _ Hwf) in E. lia.
Qed.

(** An index holds one item per id. *)
Lemma unique_id d p q : fork_wf d -> p ∈ index d -> q ∈ index d -> id_at d p = id_at d q -> p = q.
Proof.
  intros Hwf [i Hi]%list_elem_of_lookup_1 [j Hj]%list_elem_of_lookup_1 E.
  assert (i = j) as ->; [|congruence]. apply (NoDup_lookup _ i j (id_at d p) (wf_unique _ Hwf)).
  - by rewrite list_lookup_fmap, Hi.
  - by rewrite list_lookup_fmap, Hj, E.
Qed.

(** [d'] differs from [d] by the new item [p], possibly linked. *)
Definition with_item d p it : fork_database :=
  mk_fork_database (max_size d) (unlinked_index d) (index d) (head d)
    (<[p := it]> (heap d)) (S (next_ptr d)).

Lemma id_at_with_item d it q :
  fork_wf d -> is_Some (heap d !! q) ->
  id_at (with_item d (next_ptr d) it) q = id_at d q /\
  num_at (with_item d (next_ptr d) it) q = num_at d q /\
  invalid_at (with_item d (next_ptr d) it) q = invalid_at d q.
Proof.
  intros Hwf [it' Hq]. unfold id_at, num_at, invalid_at, with_item; cbn.
  rewrite lookup_insert_ne; [done|]. intros Heq.
  rewrite <- Heq, fresh_ptr in Hq; done.
Qed.

Lemma with_item_wf d b w :
  fork_wf d -> block_fits b ->
  (forall q, w = Some q -> exists it', heap d !! q = Some it' /\ item_id it' = previous b) ->
  fork_wf (with_item d (next_ptr d)
    (mk_fork_item w (block_num b) false (id sha224 b) (previous b))).
Proof.
  intros Hwf Hfit Hw. pose proof (fresh_ptr _ Hwf) as Hfresh.
  assert (Hold : forall q it', heap d !! q = Some it' -> q <> next_ptr d) by congruence.
  split; cbn.
  - intros p it. rewrite lookup_insert_Some. intros [[<- _]|[_ H]]; [lia|].
    apply (wf_next _ Hwf) in H. lia.
  - intros p Hp. apply (wf_index _ Hwf) in Hp as [it Hit]. exists it.
    rewrite lookup_insert_ne by (intros <-; congruence). done.
  - intros p Hp. apply (wf_head _ Hwf) in Hp as [it Hit]. exists it.
    rewrite lookup_insert_ne by (intros <-; congruence). done.
  - intros p it. rewrite lookup_insert_Some. intros [[<- <-]|[_ H]]; [|by eapply wf_num].
    cbn. split_and!; [apply wrap_bound; lia..| |done]. by rewrite num_from_id_id.
  - intros p it q. rewrite lookup_insert_Some. intros [[<- <-]|[_ H]] Hq; cbn in Hq.
    + destruct (Hw q Hq) as (it' & Hit' & Hid). exists it'.
      rewrite lookup_insert_ne by (intros <-; congruence). split_and!; [done..|]. cbn.
      destruct (wf_num _ Hwf _ _ Hit') as (Hr & Hn & _). unfold block_fits in Hfit.
      unfold block_num. rewrite <- Hid, <- Hn in *. unfold u32. apply wrap_small.
      destruct Hr. split; lia.
    + destruct (wf_prev _ Hwf _ _ _ H Hq) as (it' & Hit' & ? & ?). exists it'.
      rewrite lookup_insert_ne by (intros <-; congruence). done.
  - rewrite (list_fmap_ext _ (id_at d) (index d)).
    + apply (wf_unique _ Hwf).
    + intros k q Hq. apply list_elem_of_lookup_2, (wf_index _ Hwf) in Hq.
      by apply (id_at_with_item d _ q Hwf).
  - apply Hwf.
Qed.

(** Changing the head and filtering the index keep the invariant. *)
Lemma rehead_wf d h : fork_wf d -> (forall p, h = Some p -> is_Some (heap d !! p)) ->
  fork_wf (set_head_ptr h d).
Proof. intros [] Hh. split; cbn; eauto. Qed.

Lemma insert_wf d p : fork_wf d -> is_Some (heap d !! p) ->
  fork_wf (set_index (insert_item d (index d) p) d).
Proof.
  intros Hwf Hp. split; cbn; try apply Hwf.
  - intros q [Hq| ->]%insert_item_elem; [by apply Hwf|done].
  - apply (insert_item_unique d), Hwf.
Qed.

Lemma filter_index_wf d (P : nat -> Prop) `{forall x, Decision (P x)} :
  fork_wf d -> fork_wf (set_index (filter P (index d)) d).
Proof.
  intros Hwf. split; cbn; try apply Hwf.
  - intros p [_ Hp]%list_elem_of_filter. by apply Hwf.
  - apply (filter_unique d P), Hwf.
Qed.

(** ** The outcome of pushing a block *)

Definition pushed_item d b : fork_item :=
  mk_fork_item
    (match head d with
     | None => None
     | Some _ => if previous b =? 0 then None else find_id d (index d) (previous b)
     end)
    (block_num b) false (id sha224 b) (previous b).

(** The guards of [_push_block], in the order the code checks them. *)
Definition push_guard d b : result unit :=
  match head d with
  | None => Ok tt
  | Some h =>
      if Z.max 0 (num_at d h - max_size d) <? block_num b then
        if previous b =? 0 then Ok tt
        else match find_id d (index d) (previous b) with
             | None => Throw unlinkable_block_exception
             | Some q => if invalid_at d q then Throw assert_exception else Ok tt
             end
      else Throw assert_exception
  end.

(** The database after the new item has been inserted. *)
Definition inserted d b : fork_database :=
  let d1 := with_item d (next_ptr d) (pushed_item d b) in
  set_index (insert_item d1 (index d1) (next_ptr d)) d1.

Definition advanced d b : fork_database :=
  let d2 := inserted d b in
  let hn := block_num b in
  let d3 := set_head_ptr (Some (next_ptr d)) d2 in
  set_unlinked []
    (set_index (prune d3 (u32 (hn - Z.min (max_size d) hn)) (index d3)) d3).

Definition push_outcome d b : fork_database :=
  match head d with
  | None => set_head_ptr (Some (next_ptr d)) (inserted d b)
  | Some h => if num_at d h <? block_num b then advanced d b else inserted d b
  end.

Lemma find_id_cons d x l i :
  find_id d (x :: l) i = if decide (id_at d x = i) then Some x else find_id d l i.
Proof.
  unfold find_id. cbn. case_decide; [done|]. by destruct (list_find _ l) as [[]|].
Qed.

Lemma find_id_ext d d' l i :
  (forall p, p ∈ l -> id_at d p = id_at d' p) -> find_id d l i = find_id d' l i.
Proof.
  induction l as [|x l IH]; intros H; [done|]. rewrite !find_id_cons.
  rewrite (H x) by set_solver. rewrite IH by set_solver. done.
Qed.

Lemma find_id_with_item d it i :
  fork_wf d -> find_id (with_item d (next_ptr d) it) (index d) i = find_id d (index d) i.
Proof.
  intros Hwf. apply find_id_ext. intros p Hp%(wf_index _ Hwf).
  by apply (id_at_with_item d it p Hwf).
Qed.

Lemma new_at d it :
  let d1 := with_item d (next_ptr d) it in
  num_at d1 (next_ptr d) = num it /\ previous_at d1 (next_ptr d) = previous_id it.
Proof. cbn. unfold num_at, previous_at; cbn. by rewrite lookup_insert_eq. Qed.

Lemma alloc_eq d it :
  alloc it d = Ok (next_ptr d, with_item d (next_ptr d) it).
Proof. done. Qed.

Lemma link_block_eq d b :
  fork_wf d ->
  link_block (next_ptr d) (with_item d (next_ptr d) (make_item sha224 b)) =
  match push_guard d b with
  | Ok _ => Ok (tt, with_item d (next_ptr d) (pushed_item d b))
  | Throw e => Throw e
  end.
Proof.
  intros Hwf. unfold link_block, push_guard, pushed_item, mbind, M_bind, get.
  set (d1 := with_item d (next_ptr d) (make_item sha224 b)).
  change (head d1) with (head d). destruct (head d) as [h|] eqn:Eh; [|done].
  destruct (new_at d (make_item sha224 b)) as [Hn Hp]. fold d1 in Hn, Hp.
  destruct (id_at_with_item d (make_item sha224 b) h Hwf) as (_ & Hnh & _).
  { by apply (wf_head _ Hwf). }
  fold d1 in Hnh. rewrite Hnh, Hn, Hp. change (max_size d1) with (max_size d).
  cbn [num previous_id make_item]. unfold fc_assert.
  destruct (_ <? block_num b); [|done].
  destruct (previous b =? 0); [done|].
  change (index d1) with (index d). unfold d1 at 1. rewrite find_id_with_item by done.
  destruct (find_id d (index d) (previous b)) as [q|] eqn:Eq; [|done].
  apply find_id_Some in Eq as [Hq _]. apply (wf_index _ Hwf) in Hq.
  destruct (id_at_with_item d (make_item sha224 b) q Hwf Hq) as (_ & _ & Hi).
  fold d1 in Hi. rewrite Hi. destruct (invalid_at d q); [done|].
  cbn [negb]. unfold put, set_prev, set_heap, d1, with_item; cbn.
  rewrite lookup_insert_eq. cbn. by rewrite insert_insert_eq.
Qed.

Lemma push_block_eq d b :
  fork_wf d ->
  push_block sha224 b d =
  match push_guard d b with
  | Ok _ => Ok (head (push_outcome d b), push_outcome d b)
  | Throw e => Throw e
  end.
Proof.
  intros Hwf. unfold push_block, push_item, mbind, M_bind. rewrite alloc_eq.
  rewrite link_block_eq by done. destruct (push_guard d b); [|done].
  unfold upd, get, gets, push_outcome, inserted.
  set (d1 := with_item d (next_ptr d) (pushed_item d b)). cbn [index head set_index].
  change (head d1) with (head d). destruct (head d) as [h|] eqn:Eh; [|done].
  destruct (new_at d (pushed_item d b)) as [Hn _]. fold d1 in Hn.
  destruct (id_at_with_item d (pushed_item d b) h Hwf) as (_ & Hnh & _).
  { by apply (wf_head _ Hwf). }
  fold d1 in Hnh.
  change (num_at (set_index ?l d1)) with (num_at d1). rewrite Hn, Hnh. cbn [num pushed_item].
  destruct (num_at d h <? block_num b); [|by cbn; rewrite Eh].
  unfold put, advanced, inserted. fold d1. cbn [unlinked_index set_head_ptr set_index].
  change (unlinked_index d1) with (unlinked_index d). rewrite (wf_unlinked _ Hwf). done.
Qed.

Lemma inserted_wf d b :
  fork_wf d -> block_fits b -> fork_wf (inserted d b).
Proof.
  intros Hwf Hfit. unfold inserted. cbv zeta. apply insert_wf.
  - apply with_item_wf; [done|done|]. intros q. destruct (head d); [|done].
    destruct (previous b =? 0); [done|]. intros [Hq Hid]%find_id_Some.
    destruct (wf_index _ Hwf _ Hq) as [it Hit]. exists it. split; [done|].
    unfold id_at in Hid. by rewrite Hit in Hid.
  - cbn. rewrite lookup_insert_eq. eauto.
Qed.

Lemma push_outcome_wf d b :
  fork_wf d -> block_fits b -> fork_wf (push_outcome d b).
Proof.
  intros Hwf Hfit. pose proof (inserted_wf d b Hwf Hfit) as Hi.
  assert (Hnew : fork_wf (set_head_ptr (Some (next_ptr d)) (inserted d b))).
  { apply rehead_wf; [done|]. intros p [= <-]. cbn. rewrite lookup_insert_eq. eauto. }
  unfold push_outcome. destruct (head d) as [h|]; [|done].
  destruct (_ <? _); [|done]. unfold advanced. cbv zeta.
  pose proof (filter_index_wf _ (fun q => u32 (block_num b - Z.min (max_size d) (block_num b))
    <= num_at (set_head_ptr (Some (next_ptr d)) (inserted d b)) q) Hnew) as [].
  by split.
Qed.

(** ** Every operation keeps the invariant *)

Inductive fork_op :=
| FPush (b : signed_block T)
| FStart (b : signed_block T)
| FPop
| FSetHead (h : option nat)
| FRemove (i : Z)
| FSetMax (s : Z)
| FReset.

Definition run_fork (o : fork_op) : M fork_database unit :=
  match o with
  | FPush b => push_block sha224 b ;; mret tt
  | FStart b => start_block sha224 b
  | FPop => pop_block
  | FSetHead h => set_head h
  | FRemove i => remove i
  | FSetMax s => set_max_size s
  | FReset => reset
  end.

(** Blocks fit their number; a head that is set points to an existing item. *)
Definition fork_op_ok d (o : fork_op) : Prop :=
  match o with
  | FPush b | FStart b => block_fits b
  | FSetHead h => forall p, h = Some p -> is_Some (heap d !! p)
  | _ => True
  end.

Lemma start_block_wf d b u d' :
  fork_wf d -> block_fits b -> start_block sha224 b d = Ok (u, d') -> fork_wf d'.
Proof.
  intros Hwf Hfit H. unfold start_block in H.
  apply mbind_ok in H as (p & d1 & H1 & H). rewrite alloc_eq in H1. simplify_eq.
  apply upd_ok in H. simplify_eq.
  assert (Hw1 := with_item_wf d b None Hwf Hfit (fun q Hq => ltac:(discriminate))).
  apply rehead_wf; [apply (insert_wf _ _ Hw1)|];
    [|intros p [= <-]]; cbn; rewrite lookup_insert_eq; eauto.
Qed.

Lemma pop_block_inv d u d' :
  pop_block d = Ok (u, d') ->
  exists h p, head d = Some h /\ prev_at d h = Some p /\ alive d p = true /\
    d' = set_head_ptr (Some p) d.
Proof.
  unfold pop_block. intros H. apply mbind_ok in H as (? & ? & Hx%get_ok & H). simplify_eq.
  destruct (head d) as [h|]; [|inv_ok]. unfold lock in H.
  destruct (prev_at d h) as [p|] eqn:Ep; [|inv_ok]. destruct (alive d p) eqn:Ea; [|inv_ok].
  inv_ok. eauto 10.
Qed.

Lemma prev_at_heap d h p :
  fork_wf d -> prev_at d h = Some p ->
  is_Some (heap d !! p) /\ id_at d p = previous_at d h /\ num_at d h = num_at d p + 1.
Proof.
  intros Hwf. unfold prev_at, id_at, previous_at, num_at.
  destruct (heap d !! h) as [it|] eqn:E; [|done]. intros Hp.
  destruct (wf_prev _ Hwf _ _ _ E Hp) as (it' & Hit' & ? & ?). rewrite Hit'. eauto.
Qed.

Lemma run_fork_wf d o u d' :
  fork_wf d -> fork_op_ok d o -> run_fork o d = Ok (u, d') -> fork_wf d'.
Proof.
  intros Hwf Hok H. destruct o; cbn [run_fork] in H.
  - apply mbind_ok in H as (h & d1 & H & Hr%mret_ok). simplify_eq.
    rewrite push_block_eq in H by done. destruct (push_guard d b); simplify_eq.
    by apply push_outcome_wf.
  - by eapply start_block_wf.
  - apply pop_block_inv in H as (h & p & _ & Hp & _ & ->). apply rehead_wf; [done|].
    intros q [= <-]. by apply (prev_at_heap d h).
  - apply upd_ok in H. simplify_eq. by apply rehead_wf.
  - apply upd_ok in H. simplify_eq. by apply filter_index_wf.
  - unfold set_max_size in H. apply mbind_ok in H as ([] & d1 & Hx%upd_ok & H).
    apply mbind_ok in H as (? & ? & Hy%get_ok & H). simplify_eq.
    set (d1 := mk_fork_database _ _ _ _ _ _) in H.
    assert (Hw1 : fork_wf d1) by (destruct Hwf; by split).
    destruct (head d1) as [h|]; inv_ok; [|done].
    pose proof (filter_index_wf d1 (fun p => Z.max 0 (num_at d1 h - max_size d1) <= num_at d1 p)
      Hw1) as [? ? ? ? ? ? Hun].
    split; try done. cbn. unfold prune. rewrite (wf_unlinked _ Hwf). done.
  - apply upd_ok in H. simplify_eq. destruct Hwf. split; cbn; try done;
      [by intros p Hp%elem_of_nil|constructor].
Qed.

Lemma empty_wf : fork_wf empty_fork_database.
Proof. split; cbn; try done; [by intros p Hp%elem_of_nil|constructor]. Qed.

(** Databases reachable from the empty one by operations that return. *)
Inductive fork_reachable : fork_database -> Prop :=
| reach_empty : fork_reachable empty_fork_database
| reach_step d o u d' : fork_reachable d -> fork_op_ok d o ->
    run_fork o d = Ok (u, d') -> fork_reachable d'.

Lemma reachable_wf d : fork_reachable d -> fork_wf d.
Proof. induction 1; eauto using empty_wf, run_fork_wf. Qed.

(** ** Branches *)

(** [path d l p r]: following [prev] from [p] through the items [l] leads to [r]. *)
Inductive path d : list nat -> nat -> nat -> Prop :=
| path_nil p : path d [] p p
| path_cons p q l r : prev_at d p = Some q -> path d l q r -> path d (p :: l) p r.

Lemma path_app d l1 l2 p q r : path d l1 p q -> path d l2 q r -> path d (l1 ++ l2) p r.
Proof. induction 1; cbn; [done|]. intros. econstructor; eauto. Qed.

Lemma lock_Some d w p : lock d w = Some p -> w = Some p.
Proof. unfold lock. destruct w as [q|]; [|done]. by destruct (alive d q). Qed.

Lemma path_num d l p r :
  fork_wf d -> path d l p r -> num_at d p = num_at d r + Z.of_nat (length l).
Proof.
  intros Hwf. induction 1 as [p|p q l r Hp _ IH]; cbn [length]; [lia|].
  apply (prev_at_heap d p q Hwf) in Hp as (_ & _ & ->). lia.
Qed.

Lemma num_at_nonneg d p : fork_wf d -> 0 <= num_at d p.
Proof.
  intros Hwf. unfold num_at. destruct (heap d !! p) as [it|] eqn:E; [|lia].
  destruct (wf_num _ Hwf _ _ E) as ([? ?] & _). lia.
Qed.

Lemma walk_down_ok d fuel p n l r :
  fork_wf d -> walk_down d fuel p n = Ok (l, r) ->
  path d l p r /\ num_at d r = Z.min n (num_at d p).
Proof.
  intros Hwf. revert p l. induction fuel as [|fuel IH]; intros p l; cbn;
    (destruct (Z.ltb_spec n (num_at d p)); [|intros [= <- <-]; split; [constructor|lia]]);
    [done|].
  destruct (lock d (prev_at d p)) as [q|] eqn:Eq; [|done]. apply lock_Some in Eq.
  intros ([l' r'] & H1 & [= <- <-])%bind_ok. apply IH in H1 as [Hpath Hnum].
  split; [by econstructor|]. apply (prev_at_heap d p q Hwf) in Eq as (_ & _ & ?). lia.
Qed.

Lemma walk_down_fuel d fuel p n :
  fork_wf d -> (Z.to_nat (num_at d p) < fuel)%nat -> 0 <= n ->
  walk_down d fuel p n <> Throw out_of_fuel.
Proof.
  intros Hwf. revert p. induction fuel as [|fuel IH]; intros p Hf Hn; [lia|]. cbn.
  destruct (Z.ltb_spec n (num_at d p)); [|done].
  destruct (lock d (prev_at d p)) as [q|] eqn:Eq; [|done]. apply lock_Some in Eq.
  apply (prev_at_heap d p q Hwf) in Eq as (_ & _ & Hnum).
  specialize (IH q ltac:(lia) Hn). destruct (walk_down d fuel q n) as [[]|]; cbn; congruence.
Qed.

Lemma walk_both_ok d fuel p q l1 l2 p2 q2 :
  walk_both d fuel p q = Ok (l1, l2, p2, q2) ->
  path d l1 p p2 /\ path d l2 q q2 /\ length l1 = length l2 /\
  previous_at d p2 = previous_at d q2 /\
  Forall2 (fun x y => previous_at d x <> previous_at d y) l1 l2.
Proof.
  revert p q l1 l2. induction fuel as [|fuel IH]; intros p q l1 l2; cbn;
    (destruct (Z.eqb_spec (previous_at d p) (previous_at d q));
      [intros [= <- <- <- <-]; split_and!; by try constructor|]); [done|].
  destruct (lock d (prev_at d p)) as [p'|] eqn:Ep; [|done]. apply lock_Some in Ep.
  destruct (lock d (prev_at d q)) as [q'|] eqn:Eq; [|done]. apply lock_Some in Eq.
  intros ([[[m1 m2] p3] q3] & H1 & [= <- <- <- <-])%bind_ok.
  apply IH in H1 as (? & ? & ? & ? & ?).
  split_and!; [by econstructor|by econstructor|cbn; lia|done|by constructor].
Qed.

Lemma walk_both_fuel d fuel p q :
  fork_wf d -> (Z.to_nat (num_at d p) < fuel)%nat ->
  walk_both d fuel p q <> Throw out_of_fuel.
Proof.
  intros Hwf. revert p q. induction fuel as [|fuel IH]; intros p q Hf; [lia|]. cbn.
  destruct (_ =? _); [done|].
  destruct (lock d (prev_at d p)) as [p'|] eqn:Ep; [|done]. apply lock_Some in Ep.
  destruct (lock d (prev_at d q)) as [q'|] eqn:Eq; [|done].
  pose proof (num_at_nonneg d p' Hwf).
  apply (prev_at_heap d p p' Hwf) in Ep as (_ & _ & Hnum).
  specialize (IH p' q' ltac:(lia)).
  destruct (walk_both d fuel p' q') as [[[[] ?] ?]|]; cbn; congruence.
Qed.

Lemma path_last d l p r : path d l p r -> exists l', l ++ [r] = p :: l'.
Proof. destruct 1; cbn; eauto. Qed.

Lemma bind_throw {X Y} (m : result X) (f : X -> result Y) e :
  m ≫= f = Throw e -> m = Throw e \/ exists x, m = Ok x /\ f x = Throw e.
Proof. destruct m; cbn; [eauto|intros [= ->]; auto]. Qed.

Lemma fetch_branches d first second (br1 br2 : list nat) :
  fork_wf d -> fetch_branch_from d first second = Ok (br1, br2) ->
  exists p q l1 l2 m1 m2 p1 q1 p2 q2,
    br1 = l1 ++ m1 ++ [p2] /\ br2 = l2 ++ m2 ++ [q2] /\
    id_at d p = first /\ id_at d q = second /\ p ∈ index d /\ q ∈ index d /\
    path d l1 p p1 /\ path d m1 p1 p2 /\ path d l2 q q1 /\ path d m2 q1 q2 /\
    (l1 = [] \/ l2 = []) /\ num_at d p1 = num_at d q1 /\ num_at d p2 = num_at d q2 /\
    previous_at d p2 = previous_at d q2 /\
    Forall2 (fun x y => previous_at d x <> previous_at d y) m1 m2.
Proof.
  intros Hwf. unfold fetch_branch_from.
  intros (p & [Hp Hpi]%deref_ok%find_id_Some & H)%bind_ok.
  apply bind_ok in H as (q & [Hq Hqi]%deref_ok%find_id_Some & H).
  apply bind_ok in H as ([l1 p1] & H1 & H). apply bind_ok in H as ([l2 q1] & H2 & H).
  apply bind_ok in H as ([[[m1 m2] p2] q2] & H3 & [= <- <-]).
  apply walk_down_ok in H1 as [Hl1 Hn1]; [|done]. apply walk_down_ok in H2 as [Hl2 Hn2]; [|done].
  apply walk_both_ok in H3 as (Hm1 & Hm2 & Hlen & Hprev & Hdiff).
  pose proof (path_num _ _ _ _ Hwf Hl1). pose proof (path_num _ _ _ _ Hwf Hl2).
  pose proof (path_num _ _ _ _ Hwf Hm1). pose proof (path_num _ _ _ _ Hwf Hm2).
  exists p, q, l1, l2, m1, m2, p1, q1, p2, q2.
  split_and!; try done; [|lia|lia].
  destruct l1; [by left|]. destruct l2; [by right|]. cbn [length] in *. lia.
Qed.

(** ** What pushing a block promises *)
(** What [_push_block] refuses, in terms of the index: blocks below the window of
    the fork database, blocks whose parent is not in the index, blocks on an invalid parent. *)
Definition too_old d h b : Prop := block_num b <= Z.max 0 (num_at d h - max_size d).
Definition parent_of d b q : Prop := q ∈ index d /\ id_at d q = previous b.

Lemma parent_found d b q : fork_wf d -> parent_of d b q <-> find_id d (index d) (previous b) = Some q.
Proof.
  intros Hwf. split; [|apply find_id_Some]. intros [Hq Hid].
  destruct (find_id d (index d) (previous b)) as [p|] eqn:E.
  - apply find_id_Some in E as [Hp Hi]. f_equal. eapply unique_id; [done..|congruence].
  - apply find_id_None in E. rewrite Forall_forall in E. by destruct (E q).
Qed.
Lemma push_guard_throws d b e :
  fork_wf d -> push_guard d b = Throw e ->
  exists h, head d = Some h /\
    (too_old d h b /\ e = assert_exception \/
     ~ too_old d h b /\ previous b <> 0 /\
       ((forall q, ~ parent_of d b q) /\ e = unlinkable_block_exception \/
        (exists q, parent_of d b q /\ invalid_at d q = true) /\ e = assert_exception)).
Proof.
  intros Hwf. unfold push_guard, too_old. destruct (head d) as [h|]; [|done]. intros H. exists h. split; [done|].
  destruct (Z.ltb_spec (Z.max 0 (num_at d h - max_size d)) (block_num b)); [right|left; by injection H as <-].
  split; [lia|]. destruct (Z.eqb_spec (previous b) 0); [done|]. split; [done|].
  destruct (find_id d (index d) (previous b)) as [q|] eqn:E.
  - right. destruct (invalid_at d q) eqn:Ei; [|done]. injection H as <-. split; [|done].
    exists q. split; [by apply parent_found|done].
  - left. injection H as <-. split; [|done]. intros q Hq%(parent_found d b q Hwf). congruence.
Qed.
Lemma push_guard_passes d b :
  fork_wf d -> push_guard d b = Ok tt -> forall h, head d = Some h -> ~ too_old d h b /\
    (previous b <> 0 -> exists q, parent_of d b q /\ invalid_at d q = false).
Proof.
  intros Hwf H h Hh. unfold push_guard, too_old in *. rewrite Hh in H.
  destruct (Z.ltb_spec (Z.max 0 (num_at d h - max_size d)) (block_num b)); [|done]. split; [lia|]. intros Hp.
  destruct (Z.eqb_spec (previous b) 0); [done|].
  destruct (find_id d (index d) (previous b)) as [q|] eqn:E; [|done].
  exists q. split; [by apply parent_found|by destruct (invalid_at d q)].
Qed.
Lemma push_outcome_heap d b :
  heap (push_outcome d b) = <[next_ptr d := pushed_item d b]> (heap d).
Proof. unfold push_outcome. destruct (head d); [by destruct (_ <? _)|done]. Qed.
Lemma pushed_item_facts d b :
  fork_wf d -> exists it, heap (push_outcome d b) !! next_ptr d = Some it /\ item_id it = id sha224 b /\
    num it = block_num b /\ previous_id it = previous b /\ invalid it = false /\
    forall q, prev it = Some q <-> (head d <> None /\ previous b <> 0 /\ parent_of d b q).
Proof.
  intros Hwf. exists (pushed_item d b). rewrite push_outcome_heap, lookup_insert_eq.
  split_and!; [done..|]. intros q. rewrite parent_found by done. cbn.
  destruct (head d); [|naive_solver]. destruct (Z.eqb_spec (previous b) 0); naive_solver.
Qed.
Lemma push_outcome_head d b :
  head (push_outcome d b) = match head d with
    | Some h => if num_at d h <? block_num b then Some (next_ptr d) else Some h
    | None => Some (next_ptr d)
    end.
Proof. unfold push_outcome. destruct (head d) eqn:E; [|done]. by destruct (_ <? _). Qed.

(** The index after the insertion. *)
Lemma inserted_elem d b q :
  fork_wf d -> q ∈ index (inserted d b) <->
    (q ∈ index d \/ q = next_ptr d /\ forall p, p ∈ index d -> id_at d p <> id sha224 b).
Proof.
  intros Hwf. unfold inserted, insert_item. cbn [index set_index with_item].
  assert (id_at (with_item d (next_ptr d) (pushed_item d b)) (next_ptr d) = id sha224 b) as ->.
  { unfold id_at. cbn. by rewrite lookup_insert_eq. }
  rewrite find_id_with_item by done.
  destruct (find_id d (index d) (id sha224 b)) as [p|] eqn:E.
  - apply find_id_Some in E as [Hp Hi]. split; [by left|]. intros [?|[_ H]]; [done|]. by destruct (H p).
  - apply find_id_None in E. rewrite Forall_forall in E. rewrite elem_of_app, list_elem_of_singleton. naive_solver.
Qed.
Lemma num_at_outcome d b q : fork_wf d -> 0 <= num_at (push_outcome d b) q.
Proof.
  intros Hwf. unfold num_at. rewrite push_outcome_heap.
  destruct (decide (q = next_ptr d)) as [->|Hne].
  - rewrite lookup_insert_eq. cbn. apply (wrap_bound 32); lia.
  - rewrite lookup_insert_ne by done. by apply num_at_nonneg.
Qed.
Lemma push_outcome_index d b :
  fork_wf d -> 0 <= max_size d < 2 ^ 32 -> forall q, q ∈ index (push_outcome d b) <->
    (q ∈ index d \/ q = next_ptr d /\ forall p, p ∈ index d -> id_at d p <> id sha224 b) /\
    forall h, head d = Some h -> num_at d h < block_num b ->
      block_num b - max_size d <= num_at (push_outcome d b) q.
Proof.
  intros Hwf Hmax q. rewrite <- inserted_elem by done. pose proof (num_at_outcome d b q Hwf) as Hq.
  assert (0 <= block_num b < 2 ^ 32) as Hb by (apply (wrap_bound 32); lia).
  revert Hq. unfold push_outcome. destruct (head d) as [h|]; [|naive_solver].
  destruct (Z.ltb_spec (num_at d h) (block_num b)) as [Hlt|Hge].
  - unfold advanced. cbn [index set_unlinked set_index]. unfold prune. rewrite list_elem_of_filter.
    change (num_at (set_unlinked _ _) q) with (num_at (inserted d b) q).
    change (num_at (set_head_ptr _ _) q) with (num_at (inserted d b) q).
    change (index (set_head_ptr _ (inserted d b))) with (index (inserted d b)).
    unfold u32. rewrite wrap_small by (split; lia). intros Hq. split.
    + intros [H1 H2]. split; [done|]. intros ? _ _. lia.
    + intros [H1 H2]. specialize (H2 h eq_refl Hlt). split; [lia|done].
  - intros _. split; [|naive_solver]. intros H. split; [done|]. intros h' [= <-] ?. lia.
Qed.
Lemma pushed_block_known d b :
  fork_wf d -> 0 <= max_size d < 2 ^ 32 -> is_known_block (push_outcome d b) (id sha224 b) = true.
Proof.
  intros Hwf Hmax. assert (exists q, q ∈ index (push_outcome d b) /\ id_at (push_outcome d b) q = id sha224 b)
    as (q & Hq & Hid).
  { setoid_rewrite (push_outcome_index d b Hwf Hmax). unfold id_at, num_at. rewrite push_outcome_heap.
    destruct (find_id d (index d) (id sha224 b)) as [p|] eqn:E.
    - apply find_id_Some in E as [Hp Hi]. destruct (wf_index _ Hwf _ Hp) as [it Hit].
      unfold id_at in Hi. rewrite Hit in Hi. exists p.
      rewrite lookup_insert_ne, Hit by (intros <-; by rewrite fresh_ptr in Hit). split_and!; [by left| |done].
      intros h _ _. destruct (wf_num _ Hwf _ _ Hit) as (_ & -> & _). rewrite Hi, num_from_id_id. lia.
    - apply find_id_None in E. rewrite Forall_forall in E. exists (next_ptr d). rewrite lookup_insert_eq.
      split_and!; [by right|cbn; lia|done]. }
  unfold is_known_block. destruct (find_id _ (index (push_outcome d b)) _) eqn:E; [done|].
  apply find_id_None in E. rewrite Forall_forall in E. by destruct (E q).
Qed.

(** ** Properties *)

(** C6.  Invariant: in every fork database reachable by pushing, starting,
    popping, removing, resizing, resetting and setting the head, ids are unique
    in the index, an item's number is the one stored in its id, an item's
    parent pointer leads to the item with the id it names as previous and
    the number one below, and the cache of unlinked blocks is empty. *)
Theorem fork_reachable_invariant d :
  fork_reachable d ->
  NoDup (id_at d <$> index d) /\ unlinked_index d = [] /\
  forall p it, heap d !! p = Some it ->
    num it = num_from_id (item_id it) /\
    forall q, prev it = Some q -> exists it', heap d !! q = Some it' /\
      item_id it' = previous_id it /\ num it = num it' + 1.
Proof.
  intros Hwf%reachable_wf. split_and!; [apply Hwf..|].
  intros p it Hp. split; [by apply (wf_num _ Hwf p)|]. intros q. by apply (wf_prev _ Hwf p).
Qed.

(** C7.  [push_block] on every branch.  It throws only when there is a head: an
    assertion for a block that is too old, [unlinkable_block_exception] for one
    that names a parent the index does not have, an assertion for one on an
    invalid parent; and it does throw then.  Otherwise the new item holds the
    block, its parent pointer leads to the item of the named parent (and to
    nothing without a head or a name), the head returned is the new item
    if there was no head or its number is higher, the index gains exactly the
    new item unless an item with the same id is there, loses exactly the items below the window
    if the head advances, answers for the id of the block, and no other item changes. *)
Theorem push_block_outcome d b :
  fork_reachable d -> 0 <= max_size d < 2 ^ 32 ->
  match push_block sha224 b d with
  | Throw e =>
      exists h, head d = Some h /\
        (too_old d h b /\ e = assert_exception \/
         ~ too_old d h b /\ previous b <> 0 /\
           ((forall q, ~ parent_of d b q) /\ e = unlinkable_block_exception \/
            (exists q, parent_of d b q /\ invalid_at d q = true) /\ e = assert_exception))
  | Ok (r, d') =>
      (forall h, head d = Some h -> ~ too_old d h b /\
         (previous b <> 0 -> exists q, parent_of d b q /\ invalid_at d q = false)) /\
      (exists it, heap d' !! next_ptr d = Some it /\ item_id it = id sha224 b /\
         num it = block_num b /\ previous_id it = previous b /\ invalid it = false /\
         forall q, prev it = Some q <-> (head d <> None /\ previous b <> 0 /\ parent_of d b q)) /\
      r = head d' /\
      head d' = match head d with
                | Some h => if num_at d h <? block_num b then Some (next_ptr d) else Some h
                | None => Some (next_ptr d)
                end /\
      (forall q, q ∈ index d' <->
         (q ∈ index d \/ q = next_ptr d /\ forall p, p ∈ index d -> id_at d p <> id sha224 b) /\
         forall h, head d = Some h -> num_at d h < block_num b ->
           block_num b - max_size d <= num_at d' q) /\
      is_known_block d' (id sha224 b) = true /\
      (forall q, is_Some (heap d !! q) -> heap d' !! q = heap d !! q)
  end.
Proof.
  intros Hwf%reachable_wf Hmax. rewrite push_block_eq by done.
  destruct (push_guard d b) as [[]|e] eqn:Eg; [|by apply push_guard_throws].
  split; [by apply push_guard_passes|]. split; [by apply pushed_item_facts|]. split; [done|].
  split; [apply push_outcome_head|]. pose proof (push_outcome_index d b Hwf Hmax) as Hi. split; [exact Hi|].
  split; [by apply pushed_block_known|]. intros q [it Hq]. rewrite push_outcome_heap. apply lookup_insert_ne.
  intros <-. by rewrite fresh_ptr in Hq.
Qed.

(**  Retention: when a push advances the head, the index keeps exactly the
    items whose number is at least the new head's number less [_max_size]. *)
Theorem push_block_prunes d b h rh d' :
  fork_reachable d -> block_fits b -> head d = Some h ->
  0 <= max_size d < 2 ^ 32 -> num_at d h < block_num b ->
  push_block sha224 b d = Ok (rh, d') ->
  forall q, q ∈ index d' <->
    (q ∈ insert_item d' (index d) (next_ptr d) /\ block_num b - max_size d <= num_at d' q).
Proof.
  intros Hwf%reachable_wf Hfit Hh Hmax Hnum. rewrite push_block_eq by done.
  destruct (push_guard d b); [|done]. intros [= _ <-] q.
  assert (Hb : is_uint 32 (block_num b)) by (apply wrap_bound; lia).
  unfold push_outcome. rewrite Hh. destruct (Z.ltb_spec (num_at d h) (block_num b)); [|lia].
  unfold advanced, inserted. cbn [index set_unlinked set_index set_head_ptr]. unfold prune.
  rewrite list_elem_of_filter.
  set (d1 := with_item d (next_ptr d) (pushed_item d b)).
  change (num_at (set_unlinked _ _)) with (num_at d1).
  change (num_at (set_head_ptr _ _)) with (num_at d1).
  change (insert_item (set_unlinked _ _)) with (insert_item d1).
  change (index d1) with (index d).
  unfold u32. rewrite (wrap_small 32 (block_num b - Z.min (max_size d) (block_num b)))
    by (destruct Hb; split; lia).
  pose proof (num_at_nonneg d1 q) as Hq0.
  assert (fork_wf d1) as Hw1.
  { pose proof (inserted_wf d b Hwf Hfit) as [? ? ? ? ? _ ?].
    unfold inserted in *. cbn in *. split; cbn; try done.
    - intros p Hp. destruct (wf_index _ Hwf p Hp) as [it Hit]. exists it.
      rewrite lookup_insert_ne; [done|]. intros <-. by rewrite fresh_ptr in Hit.
    - rewrite (list_fmap_ext _ (id_at d) (index d)); [apply Hwf|].
      intros k p Hp%list_elem_of_lookup_2%(wf_index _ Hwf).
      by apply (id_at_with_item d (pushed_item d b) p Hwf). }
  specialize (Hq0 Hw1). split; intros [? ?]; split; (done || lia).
Qed.

(** [fetch_branch_from] returns two branches that start at the two given
    blocks, follow parent links, and end in items with the same previous block;
    above that the aligned parts of the branches never share their parent (the
    branches meet at the most recent common point), and both ends have the same
    number. *)
Theorem fetch_branch_from_correct d first second (br1 br2 : list nat) :
  fork_reachable d -> fetch_branch_from d first second = Ok (br1, br2) ->
  exists p q l1 l2 m1 m2 p1 q1 p2 q2,
    br1 = l1 ++ m1 ++ [p2] /\ br2 = l2 ++ m2 ++ [q2] /\
    id_at d p = first /\ id_at d q = second /\ p ∈ index d /\ q ∈ index d /\
    path d l1 p p1 /\ path d m1 p1 p2 /\ path d l2 q q1 /\ path d m2 q1 q2 /\
    (l1 = [] \/ l2 = []) /\ num_at d p1 = num_at d q1 /\ num_at d p2 = num_at d q2 /\
    previous_at d p2 = previous_at d q2 /\
    Forall2 (fun x y => previous_at d x <> previous_at d y) m1 m2.
Proof. intros Hwf%reachable_wf. by apply fetch_branches. Qed.

(** Termination: the three loops of [fetch_branch_from] end; the fuel the
    model gives them is never exhausted. *)
Theorem fetch_branch_from_terminates d first second :
  fork_reachable d -> fetch_branch_from d first second <> Throw out_of_fuel.
Proof.
  intros Hwf%reachable_wf H. unfold fetch_branch_from in H.
  apply bind_throw in H as [H|(p & _ & H)]; [by destruct (find_id _ _ _)|].
  apply bind_throw in H as [H|(q & _ & H)]; [by destruct (find_id _ _ _)|].
  apply bind_throw in H as [H|([l1 p1] & _ & H)].
  { apply walk_down_fuel in H; [done|done|unfold fuel_at; lia|by apply num_at_nonneg]. }
  apply bind_throw in H as [H|([l2 q1] & _ & H)].
  { apply walk_down_fuel in H; [done|done|unfold fuel_at; lia|by apply num_at_nonneg]. }
  apply bind_throw in H as [H|([[[m1 m2] p2] q2] & _ & H)]; [|done].
  apply walk_both_fuel in H; [done|done|unfold fuel_at; lia].
Qed.

End fork_proofs.

(** ** Witnesses: blocks are numbered by their previous id *)
Section witnesses.
Definition wit_sha (b : signed_block Z) : Z := timestamp b * 2 ^ 64.
Definition wit_blk (prev stamp : Z) : signed_block Z := mk_signed_block Z prev stamp 0 0 [].
Definition wit_b1 := wit_blk 0 1.
Definition wit_b2 := wit_blk (id wit_sha wit_b1) 2.
Definition wit_b2' := wit_blk (id wit_sha wit_b1) 3.
Definition wit_b3 := wit_blk (id wit_sha wit_b2) 4.

Definition fork_apply (d : fork_database) (o : @fork_op Z) : fork_database :=
  match run_fork wit_sha o d with Ok (_, d') => d' | Throw _ => d end.
Definition fork_after (os : list (@fork_op Z)) : fork_database :=
  fold_left fork_apply os empty_fork_database.

Lemma reach_apply d o :
  fork_reachable wit_sha d -> fork_op_ok d o -> fork_reachable wit_sha (fork_apply d o).
Proof.
  intros Hd Ho. unfold fork_apply. destruct (run_fork wit_sha o d) as [[u d']|] eqn:E; [|done].
  by eapply reach_step.
Qed.

Definition wit_fork : fork_database :=
  fork_after [FStart wit_b1; FPush wit_b2; FPush wit_b2'; FPush wit_b3].

Lemma wit_fork_reachable : fork_reachable wit_sha wit_fork.
Proof.
  unfold wit_fork, fork_after. cbn [fold_left].
  repeat (apply reach_apply; [|vm_compute; reflexivity]). constructor.
Qed.

Definition wit_b3' := wit_blk (id wit_sha wit_b2') 5.
Definition wit_b4 := wit_blk (id wit_sha wit_b3) 6.

Lemma fork_reachable_invariant_witness :
  NoDup (id_at wit_fork <$> index wit_fork) /\ unlinked_index wit_fork = [] /\
  forall p it, heap wit_fork !! p = Some it ->
    num it = num_from_id (item_id it) /\
    forall q, prev it = Some q -> exists it', heap wit_fork !! q = Some it' /\
      item_id it' = previous_id it /\ num it = num it' + 1.
Proof. apply (fork_reachable_invariant wit_sha), wit_fork_reachable. Defined.

(** With room for one block below the head. *)
Definition wit_narrow : fork_database := fork_after
  [FStart wit_b1; FPush wit_b2; FPush wit_b2'; FPush wit_b3; FSetMax 1].
Lemma wit_narrow_reachable : fork_reachable wit_sha wit_narrow.
Proof.
  unfold wit_narrow, fork_after. cbn [fold_left].
  repeat (apply reach_apply; [|vm_compute; reflexivity]). constructor.
Qed.

(** A block whose parent is unknown, and the database after pushing block 4. *)
Definition wit_orphan := wit_blk (id wit_sha wit_b3') 7.
Definition wit_grown : fork_database :=
  match push_block wit_sha wit_b4 wit_fork with Ok (_, d') => d' | Throw _ => wit_fork end.

(** Block 4 is linked to block 3, becomes the head and is known; a block without
    its parent and, with room for one block below the head only, another block 2 are refused. *)
Lemma push_block_outcome_witness :
  push_block wit_sha wit_b4 wit_fork = Ok (Some 4%nat, wit_grown) /\
  (4%nat ∈ index wit_grown /\ prev_at wit_grown 4 = Some 3%nat /\
   is_known_block wit_grown (id wit_sha wit_b4) = true) /\
  push_block wit_sha wit_orphan wit_fork = Throw unlinkable_block_exception /\
  (forall q, ~ parent_of wit_fork wit_orphan q) /\
  push_block wit_sha wit_b2 wit_narrow = Throw assert_exception /\ too_old wit_narrow 3 wit_b2.
Proof.
  assert (push_block wit_sha wit_b4 wit_fork = Ok (Some 4%nat, wit_grown)) as E1 by (vm_compute; reflexivity).
  assert (push_block wit_sha wit_orphan wit_fork = Throw unlinkable_block_exception) as E2 by (vm_compute; reflexivity).
  assert (push_block wit_sha wit_b2 wit_narrow = Throw assert_exception) as E3 by (vm_compute; reflexivity).
  split; [exact E1|]. split.
  { pose proof (push_block_outcome wit_sha wit_fork wit_b4 wit_fork_reachable ltac:(vm_compute; split; congruence)) as H.
    rewrite E1 in H. destruct H as (_ & (it & Hit & _ & _ & _ & _ & Hprev) & _ & _ & Hi & Hk & _).
    split; [|split; [|exact Hk]].
    - apply Hi. split; [right; split; [vm_compute; reflexivity|]|intros h _ _; vm_compute; congruence].
      apply Forall_forall, (bool_decide_unpack _). vm_compute. exact I.
    - replace (next_ptr wit_fork) with 4%nat in Hit by (vm_compute; reflexivity).
      unfold prev_at. rewrite Hit. apply Hprev. split; [vm_compute; discriminate|]. split; [vm_compute; discriminate|]. split; [|vm_compute; reflexivity].
      apply list_elem_of_In. replace (index wit_fork) with (seq 0 4) by (vm_compute; reflexivity). cbn. auto 10. }
  split; [exact E2|]. split.
  { pose proof (push_block_outcome wit_sha wit_fork wit_orphan wit_fork_reachable ltac:(vm_compute; split; congruence)) as H.
    rewrite E2 in H. destruct H as (h & _ & [[_ [=]]|(_ & _ & [[H _]|[_ [=]]])]). exact H. }
  split; [exact E3|vm_compute; congruence].
Defined.

(** With room for two blocks below the head, pushing block 4 drops block 1. *)
Definition wit_small : fork_database := fork_after
  [FStart wit_b1; FPush wit_b2; FPush wit_b2'; FPush wit_b3; FSetMax 2].

Lemma wit_small_reachable : fork_reachable wit_sha wit_small.
Proof.
  unfold wit_small, fork_after. cbn [fold_left].
  repeat (apply reach_apply; [|vm_compute; reflexivity]). constructor.
Qed.

Definition wit_pushed : fork_database :=
  match push_block wit_sha wit_b4 wit_small with Ok (_, d') => d' | Throw _ => wit_small end.

Lemma push_block_prunes_witness :
  (num_at wit_pushed <$> index wit_small) = [1; 2; 2; 3] /\
  (num_at wit_pushed <$> index wit_pushed) = [2; 2; 3; 4] /\
  forall q, q ∈ index wit_pushed <->
    (q ∈ insert_item wit_pushed (index wit_small) (next_ptr wit_small) /\
     block_num wit_b4 - max_size wit_small <= num_at wit_pushed q).
Proof.
  split; [vm_compute; reflexivity|]. split; [vm_compute; reflexivity|].
  apply (push_block_prunes wit_sha wit_small wit_b4 3%nat (Some 4%nat) wit_pushed
           wit_small_reachable); try (vm_compute; reflexivity).
  vm_compute; split; congruence.
Defined.

Lemma fetch_branch_from_correct_witness :
  let d := wit_fork in
  exists p q l1 l2 m1 m2 p1 q1 p2 q2,
    [3%nat; 1%nat] = l1 ++ m1 ++ [p2] /\ [2%nat] = l2 ++ m2 ++ [q2] /\
    id_at d p = id wit_sha wit_b3 /\ id_at d q = id wit_sha wit_b2' /\
    p ∈ index d /\ q ∈ index d /\
    path d l1 p p1 /\ path d m1 p1 p2 /\ path d l2 q q1 /\ path d m2 q1 q2 /\
    (l1 = [] \/ l2 = []) /\ num_at d p1 = num_at d q1 /\ num_at d p2 = num_at d q2 /\
    previous_at d p2 = previous_at d q2 /\
    Forall2 (fun x y => previous_at d x <> previous_at d y) m1 m2.
Proof.
  apply (fetch_branch_from_correct wit_sha wit_fork (id wit_sha wit_b3) (id wit_sha wit_b2')
           [3%nat; 1%nat] [2%nat] wit_fork_reachable).
  vm_compute. reflexivity.
Defined.

Lemma fetch_branch_from_terminates_witness :
  fetch_branch_from wit_fork (id wit_sha wit_b3) (id wit_sha wit_b2') <> Throw out_of_fuel.
Proof.
  apply (fetch_branch_from_terminates wit_sha wit_fork), wit_fork_reachable.
Defined.

End witnesses.
