(* ===== verification/FlatMap.v ===== *)
(** * boost's ordered containers

    [flat_map] and [flat_set] of the sources (and [std::map]) are iterated in
    key order, and several algorithms depend on that order (the signature
    check stops at the first keys that reach the threshold, the releasing
    pledges are drained from the latest entry).  A [flat_map K V] is the list
    of its entries in key order; [KeyOrder] is the [operator<] of the key. *)
From S2P Require Import Prelude.

Class KeyOrder (K : Type) := key_ltb : K -> K -> bool.

Class KeyOrderLaws (K : Type) `{KeyOrder K} : Prop := {
  key_irrefl k : key_ltb k k = false;
  key_trans a b c : key_ltb a b = true -> key_ltb b c = true -> key_ltb a c = true;
  key_total a b : key_ltb a b = false -> key_ltb b a = false -> a = b;
}.

Notation flat_map K V := (list (K * V)) (only parsing).

Section flat_map.
Context {K V : Type} `{KeyOrder K} `{!KeyOrderLaws K}.
Implicit Types m : flat_map K V.

(** [find(k)]: the mapped value, if any. *)
Fixpoint fm_find (k : K) (m : flat_map K V) : option V :=
  match m with
  | [] => None
  | (k', v) :: m' =>
      if key_ltb k k' then None
      else if key_ltb k' k then fm_find k m'
      else Some v
  end.

(** [m[k] = v]. *)
Fixpoint fm_set (k : K) (v : V) (m : flat_map K V) : flat_map K V :=
  match m with
  | [] => [(k, v)]
  | (k', v') :: m' =>
      if key_ltb k k' then (k, v) :: m
      else if key_ltb k' k then (k', v') :: fm_set k v m'
      else (k, v) :: m'
  end.

(** [m.emplace(k, v)]: an existing entry is left as it is. *)
Definition fm_emplace (k : K) (v : V) (m : flat_map K V) : flat_map K V :=
  match fm_find k m with Some _ => m | None => fm_set k v m end.

(** [m.erase(k)]. *)
Fixpoint fm_erase (k : K) (m : flat_map K V) : flat_map K V :=
  match m with
  | [] => []
  | (k', v') :: m' =>
      if key_ltb k k' then m
      else if key_ltb k' k then (k', v') :: fm_erase k m'
      else m'
  end.

(** The entries are in strictly increasing key order. *)
Fixpoint fm_sorted m : Prop :=
  match m with
  | [] => True
  | (k, _) :: m' => Forall (fun p => key_ltb k p.1 = true) m' /\ fm_sorted m'
  end.

Lemma fm_find_below k m :
  Forall (fun p => key_ltb k p.1 = true) m -> fm_find k m = None.
Proof. destruct m as [|[k' v] m]; [done|]. intros [Hk _]%Forall_cons; cbn in *. by rewrite Hk. Qed.

Lemma key_ltb_asym a b : key_ltb a b = true -> key_ltb b a = false.
Proof.
  intros Hab. destruct (key_ltb b a) eqn:E; [|done].
  pose proof (key_trans a b a Hab E) as Haa. by rewrite key_irrefl in Haa.
Qed.

Lemma fm_find_set k k' v m :
  fm_sorted m ->
  fm_find k' (fm_set k v m) =
  if key_ltb k k' || key_ltb k' k then fm_find k' m else Some v.
Proof.
  induction m as [|[k0 v0] m IH]; cbn.
  { intros _. by destruct (key_ltb k' k), (key_ltb k k'). }
  intros [Hall Hs]. destruct (key_ltb k k0) eqn:E1; cbn.
  { destruct (key_ltb k' k) eqn:E2; cbn; rewrite ?orb_true_r.
    - by rewrite (key_trans k' k k0 E2 E1).
    - by destruct (key_ltb k k'). }
  destruct (key_ltb k0 k) eqn:E2; cbn.
  { destruct (key_ltb k' k0) eqn:E3.
    - rewrite (key_trans k' k0 k E3 E2), orb_true_r. done.
    - destruct (key_ltb k0 k') eqn:E4; [by apply IH|].
      pose proof (key_total _ _ E3 E4) as ->. rewrite E2, orb_true_r. done. }
  pose proof (key_total _ _ E1 E2) as <-.
  by destruct (key_ltb k' k) eqn:E3, (key_ltb k k') eqn:E4.
Qed.

Lemma fm_set_in k v m p : p ∈ fm_set k v m -> p = (k, v) \/ p ∈ m.
Proof.
  induction m as [|[k0 v0] m IH]; cbn.
  { rewrite list_elem_of_singleton. auto. }
  destruct (key_ltb k k0); [rewrite !elem_of_cons; tauto|].
  destruct (key_ltb k0 k); rewrite !elem_of_cons; [|tauto].
  intros [->|Hp]; [tauto|]. destruct (IH Hp); tauto.
Qed.

Lemma fm_set_sorted k v m : fm_sorted m -> fm_sorted (fm_set k v m).
Proof.
  induction m as [|[k0 v0] m IH]; cbn; [by split; [constructor|]|].
  intros [Hall Hs]. destruct (key_ltb k k0) eqn:E1; cbn.
  { split; [|done]. constructor; [done|]. eapply Forall_impl; [exact Hall|].
    intros p Hp. by apply (key_trans _ k0). }
  destruct (key_ltb k0 k) eqn:E2; cbn.
  - split; [|by apply IH]. apply Forall_forall. intros p Hp.
    apply fm_set_in in Hp as [->|Hp]; [done|]. by rewrite Forall_forall in Hall; apply Hall.
  - by rewrite (key_total _ _ E1 E2).
Qed.

Lemma fm_erase_in k m p : p ∈ fm_erase k m -> p ∈ m.
Proof.
  induction m as [|[k0 v0] m IH]; cbn; [done|].
  destruct (key_ltb k k0); [done|].
  destruct (key_ltb k0 k); rewrite !elem_of_cons; [|tauto].
  intros [->|Hp]; [tauto|]. right. auto.
Qed.

Lemma fm_erase_sorted k m : fm_sorted m -> fm_sorted (fm_erase k m).
Proof.
  induction m as [|[k0 v0] m IH]; cbn; [done|].
  intros [Hall Hs]. destruct (key_ltb k k0) eqn:E1; cbn; [done|].
  destruct (key_ltb k0 k) eqn:E2; cbn; [|done].
  split; [|by apply IH]. apply Forall_forall. intros p Hp%fm_erase_in.
  by rewrite Forall_forall in Hall; apply Hall.
Qed.

Lemma fm_find_None k m : fm_sorted m -> fm_find k m = None <-> k ∉ m.*1.
Proof.
  induction m as [|[k0 v0] m IH]; cbn; [intros _; split; [intros _ []%elem_of_nil|done]|].
  intros [Hall Hs]. rewrite not_elem_of_cons. destruct (key_ltb k k0) eqn:E1.
  - split; [|done]. intros _. split; [intros ->; by rewrite key_irrefl in E1|].
    intros [p [-> Hp]]%list_elem_of_fmap. rewrite Forall_forall in Hall. apply Hall in Hp.
    by rewrite (key_ltb_asym _ _ Hp) in E1.
  - destruct (key_ltb k0 k) eqn:E2.
    + rewrite IH by done. split; [|tauto]. intros Hn. split; [intros ->; by rewrite key_irrefl in E2|done].
    + pose proof (key_total _ _ E1 E2) as ->. split; [done|]. intros [Hn _]. done.
Qed.

Lemma fm_emplace_new k v m : fm_find k m = None -> fm_emplace k v m ≡ₚ (k, v) :: m.
Proof.
  intros Hf. unfold fm_emplace. rewrite Hf. revert Hf. induction m as [|[k0 v0] m IH]; cbn; [done|].
  destruct (key_ltb k k0); [done|]. destruct (key_ltb k0 k); [|done].
  intros Hf. rewrite (IH Hf). apply Permutation_swap.
Qed.
Lemma fm_set_new k v m : fm_find k m = None -> fm_set k v m ≡ₚ (k, v) :: m.
Proof. intros Hf. pose proof (fm_emplace_new k v m Hf) as Hp. unfold fm_emplace in Hp. by rewrite Hf in Hp. Qed.
Lemma fm_erase_found k v m : fm_find k m = Some v -> m ≡ₚ (k, v) :: fm_erase k m.
Proof.
  induction m as [|[k' v'] m IH]; cbn [fm_find fm_erase]; [done|]. destruct (key_ltb k k') eqn:E1; [done|].
  destruct (key_ltb k' k) eqn:E2.
  - intros Hf. rewrite (IH Hf) at 1. apply perm_swap.
  - intros [= <-]. by rewrite (key_total _ _ E1 E2).
Qed.
Lemma fm_set_found k v w m : fm_find k m = Some v -> fm_set k w m ≡ₚ (k, w) :: fm_erase k m.
Proof.
  induction m as [|[k' v'] m IH]; cbn [fm_find fm_set fm_erase]; [done|]. destruct (key_ltb k k') eqn:E1; [done|].
  destruct (key_ltb k' k) eqn:E2; [|done]. intros Hf. rewrite (IH Hf). apply perm_swap.
Qed.
Lemma fm_find_erase_ne k k' m : fm_sorted m -> k' <> k -> fm_find k' (fm_erase k m) = fm_find k' m.
Proof.
  intros Hs Hne. induction m as [|[k0 v0] m IH]; cbn [fm_find fm_erase]; [done|]. cbn in Hs. destruct Hs as [Hall Hs].
  destruct (key_ltb k k0) eqn:E1; [done|]. destruct (key_ltb k0 k) eqn:E2.
  - cbn. by rewrite IH.
  - pose proof (key_total _ _ E1 E2) as ->. destruct (key_ltb k' k0) eqn:E3.
    + apply fm_find_below. eapply Forall_impl; [exact Hall|]. intros x Hx. by eapply key_trans.
    + destruct (key_ltb k0 k') eqn:E4; [done|]. by destruct Hne; apply key_total.
Qed.
Lemma fm_emplace_sorted k v m : fm_sorted m -> fm_sorted (fm_emplace k v m).
Proof. intros Hs. unfold fm_emplace. destruct (fm_find k m); [done|by apply fm_set_sorted]. Qed.

Lemma fm_sorted_nodup m : fm_sorted m -> NoDup m.*1.
Proof.
  induction m as [|[k0 v0] m IH]; cbn; [constructor|]. intros [Hall Hs]. constructor; [|auto].
  intros [p [-> Hp]]%list_elem_of_fmap. rewrite Forall_forall in Hall. apply Hall in Hp.
  by rewrite key_irrefl in Hp.
Qed.
Lemma fm_find_Some k v m : fm_sorted m -> fm_find k m = Some v <-> (k, v) ∈ m.
Proof.
  induction m as [|[k0 v0] m IH]; cbn; [intros _; split; [done|intros []%elem_of_nil]|].
  intros [Hall Hs]. rewrite elem_of_cons. rewrite Forall_forall in Hall. destruct (key_ltb k k0) eqn:E1.
  - split; [done|]. intros [[= -> _]|Hp%Hall]; [by rewrite key_irrefl in E1|].
    cbn in Hp. by rewrite (key_ltb_asym _ _ Hp) in E1.
  - destruct (key_ltb k0 k) eqn:E2.
    + rewrite IH by done. split; [by right|]. intros [[= -> _]|Hp]; [by rewrite key_irrefl in E2|done].
    + pose proof (key_total _ _ E1 E2) as ->. split; [intros [= ->]; by left|].
      intros [[= ->]|Hp%Hall]; [done|]. cbn in Hp. by rewrite key_irrefl in Hp.
Qed.
End flat_map.

#[global] Instance Z_key_order : KeyOrder Z := Z.ltb.
#[global] Instance Z_key_order_laws : KeyOrderLaws Z.
Proof.
  split; unfold key_ltb, Z_key_order; intros *;
    rewrite ?Z.ltb_lt, ?Z.ltb_ge, ?Z.ltb_irrefl; [done|lia..].
Qed.

(** A [flat_set<T>] in key order, with [insert]. *)
Notation flat_set K := (list K) (only parsing).

Fixpoint fs_insert {K} `{KeyOrder K} (k : K) (l : flat_set K) : flat_set K :=
  match l with
  | [] => [k]
  | k' :: l' =>
      if key_ltb k k' then k :: l
      else if key_ltb k' k then k' :: fs_insert k l'
      else l
  end.

Lemma elem_of_fs_insert {K} `{KeyOrder K} `{!KeyOrderLaws K} (k : K) l x :
  x ∈ fs_insert k l <-> x = k \/ x ∈ l.
Proof.
  induction l as [|k' l IH]; cbn; [by rewrite list_elem_of_singleton, elem_of_nil; tauto|].
  destruct (key_ltb k k') eqn:E1; [by rewrite !elem_of_cons|].
  destruct (key_ltb k' k) eqn:E2; rewrite !elem_of_cons; [rewrite IH; tauto|].
  rewrite (key_total _ _ E1 E2). tauto.
Qed.

(** The elements are in strictly increasing order. *)
Definition fs_sorted {K} `{KeyOrder K} : flat_set K -> Prop := StronglySorted (fun a b => key_ltb a b = true).
Lemma fs_insert_sorted {K} `{KeyOrder K} `{!KeyOrderLaws K} (k : K) l : fs_sorted l -> fs_sorted (fs_insert k l).
Proof.
  induction 1 as [|k' l Hs IH Hall]; cbn; [by repeat constructor|].
  destruct (key_ltb k k') eqn:E1.
  - constructor; [by constructor|]. constructor; [done|]. eapply Forall_impl; [exact Hall|].
    intros x Hx. by apply (key_trans _ k').
  - destruct (key_ltb k' k) eqn:E2; [|by constructor]. constructor; [done|].
    apply Forall_forall. intros x [->|Hx]%elem_of_fs_insert; [done|]. by rewrite Forall_forall in Hall; apply Hall.
Qed.
Lemma fs_sorted_nodup {K} `{KeyOrder K} `{!KeyOrderLaws K} (l : flat_set K) : fs_sorted l -> NoDup l.
Proof.
  induction 1 as [|k l Hs IH Hall]; constructor; [|done]. intros Hk. rewrite Forall_forall in Hall.
  apply Hall in Hk. by rewrite key_irrefl in Hk.
Qed.
Lemma length_fs_insert {K} `{KeyOrder K} (k : K) l : (length (fs_insert k l) <= S (length l))%nat.
Proof.
  induction l as [|k' l IH]; cbn; [lia|]. destruct (key_ltb k k'); [cbn; lia|].
  destruct (key_ltb k' k); cbn; lia.
Qed.
