(* ===== verification/Uid.v ===== *)
(** * Account uids and their checksum (protocol/types.cpp)

    An account uid is a 56-bit number followed by one checksum byte, the first
    byte of the sha256 hash of the number.  [sha256_word0 x] stands for
    [fc::sha256::hash(x)._hash[0].value()], code that is not part of the
    repository. *)
From S2P Require Import Prelude.
Local Open Scope Z_scope.

Module uid.
Section uid.
Variable sha256_word0 : Z -> Z.

Definition calc_account_uid (id_without_checksum : Z) : Z :=
  let max := Z.shiftr (2 ^ 64 - 1) 8 in
  let id := Z.land id_without_checksum max in
  let head := Z.land (sha256_word0 id) 0xFF in
  Z.lor (u64 (Z.shiftl id 8)) head.

Definition is_valid_account_uid (uid : Z) : bool :=
  let checksum := Z.land uid 0xFF in
  let to_check := Z.shiftr uid 8 in
  let head := Z.land (sha256_word0 to_check) 0xFF in
  checksum =? head.

Lemma land_ff x : Z.land x 0xFF = x mod 2 ^ 8.
Proof. change 0xFF with (Z.ones 8). by rewrite Z.land_ones. Qed.

(** Shifting in a byte and or-ing it is adding it. *)
Lemma lor_byte a b : 0 <= b < 2 ^ 8 -> Z.lor (Z.shiftl a 8) b = a * 2 ^ 8 + b.
Proof.
  intros Hb. rewrite <- Z.shiftl_mul_pow2 by done.
  pose proof (Z.add_lor_land (Z.shiftl a 8) b) as Hadd.
  assert (Z.land (Z.shiftl a 8) b = 0) as Hland; [|lia].
  apply Z.bits_inj'. intros n Hn. rewrite Z.land_spec, Z.bits_0, Z.shiftl_spec by done.
  destruct (Z.ltb_spec n 8).
  - by rewrite Z.testbit_neg_r by lia.
  - rewrite <- (Z.mod_small b (2 ^ 8)), Z.mod_pow2_bits_high by lia. apply andb_false_r.
Qed.

Lemma calc_account_uid_eq id :
  calc_account_uid id =
  (id mod 2 ^ 56) * 2 ^ 8 + sha256_word0 (id mod 2 ^ 56) mod 2 ^ 8.
Proof.
  unfold calc_account_uid. change (Z.shiftr (2 ^ 64 - 1) 8) with (Z.ones 56).
  rewrite Z.land_ones, land_ff by lia.
  assert (0 <= id mod 2 ^ 56 < 2 ^ 56) by (apply Z.mod_pos_bound; lia).
  unfold u64. rewrite wrap_small; [apply lor_byte, Z.mod_pos_bound; lia|].
  rewrite Z.shiftl_mul_pow2 by done. unfold is_uint. lia.
Qed.

Lemma calc_account_uid_shiftr id : Z.shiftr (calc_account_uid id) 8 = id mod 2 ^ 56.
Proof.
  rewrite calc_account_uid_eq, Z.shiftr_div_pow2 by done.
  rewrite Z.div_add_l by lia. rewrite Z.div_small; [lia|].
  apply Z.mod_pos_bound. lia.
Qed.

(** C32. A computed uid passes the validity check, fits in 64 bits and determines
    the 56 bits it was computed from; and the valid 64-bit uids are exactly
    the computed ones. *)
Theorem account_uid_roundtrip (x : Z) :
  is_valid_account_uid (calc_account_uid x) = true /\
  is_uint 64 (calc_account_uid x) /\
  Z.shiftr (calc_account_uid x) 8 = x mod 2 ^ 56 /\
  (is_uint 64 x -> is_valid_account_uid x = true ->
   x = calc_account_uid (Z.shiftr x 8)).
Proof.
  assert (0 <= x mod 2 ^ 56 < 2 ^ 56) by (apply Z.mod_pos_bound; lia).
  pose proof (Z.mod_pos_bound (sha256_word0 (x mod 2 ^ 56)) (2 ^ 8)) as Hh.
  split_and!.
  - unfold is_valid_account_uid. rewrite calc_account_uid_shiftr, !land_ff.
    apply Z.eqb_eq. rewrite calc_account_uid_eq, Z.add_comm, Z.mod_add by lia.
    by rewrite Z.mod_mod by lia.
  - rewrite calc_account_uid_eq. unfold is_uint. lia.
  - apply calc_account_uid_shiftr.
  - intros Hx Hv. unfold is_valid_account_uid in Hv.
    apply Z.eqb_eq in Hv. rewrite !land_ff in Hv.
    assert (0 <= x / 2 ^ 8 < 2 ^ 56).
    { unfold is_uint in Hx. split; [apply Z.div_pos; lia|apply Z.div_lt_upper_bound; lia]. }
    rewrite calc_account_uid_eq, !(Z.mod_small (Z.shiftr x 8));
      rewrite Z.shiftr_div_pow2 in * by done; try done.
    rewrite <- Hv. rewrite (Z.div_mod x (2 ^ 8)) at 1 by lia. lia.
Qed.
End uid.

Lemma account_uid_roundtrip_witness :
  1285 = calc_account_uid (fun _ => 5) (Z.shiftr 1285 8).
Proof.
  apply (account_uid_roundtrip (fun _ => 5) 1285); [unfold is_uint; lia|reflexivity].
Defined.
End uid.
