(* ===== verification/Utf8.v ===== *)
(** * UTF-8 (utf8/core.h, utf8/checked.h)

    The decoder that names and texts of operations are checked with, and the
    encoder of the same library.  Bytes are integers; a string is the list of
    its bytes. *)
From S2P Require Import Prelude.
From Stdlib Require Import Ascii.
Local Open Scope Z_scope.

Module utf8.

Definition byte_of (c : ascii) : Z := Z.of_N (N_of_ascii c).
Definition bytes_of (s : string) : list Z := byte_of <$> String.list_ascii_of_string s.

Definition CODE_POINT_MAX : Z := 0x10ffff.
Definition is_surrogate (cp : Z) : bool := (0xd800 <=? cp) && (cp <=? 0xdfff).
Definition is_code_point_valid (cp : Z) : bool := (cp <=? CODE_POINT_MAX) && negb (is_surrogate cp).

Definition is_trail (oc : Z) : bool := Z.shiftr oc 6 =? 0x2.
Definition sequence_length (lead : Z) : Z :=
  if lead <? 0x80 then 1
  else if Z.shiftr lead 5 =? 0x6 then 2
  else if Z.shiftr lead 4 =? 0xe then 3
  else if Z.shiftr lead 3 =? 0x1e then 4
  else 0.
Definition is_overlong_sequence (cp length : Z) : bool :=
  if cp <? 0x80 then negb (length =? 1)
  else if cp <? 0x800 then negb (length =? 2)
  else if cp <? 0x10000 then negb (length =? 3)
  else false.

Inductive utf_error :=
  NOT_ENOUGH_ROOM | INVALID_LEAD | INCOMPLETE_SEQUENCE | OVERLONG_SEQUENCE | INVALID_CODE_POINT.

(** The iterator is at a byte [lead] with the bytes [it] behind it. *)
#[local] Instance decode_bind : MBind (sum utf_error) := fun A B f m =>
  match m with inl e => inl e | inr a => f a end.
#[local] Instance decode_ret : MRet (sum utf_error) := fun A a => inr a.

Definition increase_safely (it : list Z) : utf_error + Z * list Z :=
  match it with
  | [] => inl NOT_ENOUGH_ROOM
  | oc :: it' => if is_trail oc then inr (oc, it') else inl INCOMPLETE_SEQUENCE
  end.
Definition get_sequence_2 (lead : Z) (it : list Z) : utf_error + Z * list Z :=
  '(b1, it) ← increase_safely it;
  mret (Z.land (Z.shiftl lead 6) 0x7ff + Z.land b1 0x3f, it).
Definition get_sequence_3 (lead : Z) (it : list Z) : utf_error + Z * list Z :=
  '(b1, it) ← increase_safely it;
  let code_point := Z.land (Z.shiftl lead 12) 0xffff + Z.land (Z.shiftl b1 6) 0xfff in
  '(b2, it) ← increase_safely it;
  mret (code_point + Z.land b2 0x3f, it).
Definition get_sequence_4 (lead : Z) (it : list Z) : utf_error + Z * list Z :=
  '(b1, it) ← increase_safely it;
  let code_point := Z.land (Z.shiftl lead 18) 0x1fffff + Z.land (Z.shiftl b1 12) 0x3ffff in
  '(b2, it) ← increase_safely it;
  let code_point := code_point + Z.land (Z.shiftl b2 6) 0xfff in
  '(b3, it) ← increase_safely it;
  mret (code_point + Z.land b3 0x3f, it).
Definition get_sequence (length lead : Z) (it : list Z) : utf_error + Z * list Z :=
  if length =? 0 then inl INVALID_LEAD
  else if length =? 1 then inr (lead, it)
  else if length =? 2 then get_sequence_2 lead it
  else if length =? 3 then get_sequence_3 lead it
  else get_sequence_4 lead it.
Definition validate_next (lead : Z) (it : list Z) : utf_error + Z * list Z :=
  let length := sequence_length lead in
  '(cp, it) ← get_sequence length lead it;
  if is_code_point_valid cp then
    if negb (is_overlong_sequence cp length) then inr (cp, it) else inl OVERLONG_SEQUENCE
  else inl INVALID_CODE_POINT.

Definition exception_of (e : utf_error) : exn :=
  match e with
  | NOT_ENOUGH_ROOM => utf8_not_enough_room
  | INVALID_LEAD | INCOMPLETE_SEQUENCE | OVERLONG_SEQUENCE => utf8_invalid
  | INVALID_CODE_POINT => utf8_invalid_code_point
  end.
(** [next] at the end of the string reads behind it. *)
Definition next (it : list Z) : result (Z * list Z) :=
  match it with
  | [] => Throw undefined_behaviour
  | lead :: it' => match validate_next lead it' with
                   | inl e => Throw (exception_of e)
                   | inr r => Ok r
                   end
  end.

Definition append (cp : Z) : result (list Z) :=
  if negb (is_code_point_valid cp) then Throw utf8_invalid_code_point
  else Ok (if cp <? 0x80 then [cp]
           else if cp <? 0x800 then [Z.lor (Z.shiftr cp 6) 0xc0; Z.lor (Z.land cp 0x3f) 0x80]
           else if cp <? 0x10000 then
             [Z.lor (Z.shiftr cp 12) 0xe0; Z.lor (Z.land (Z.shiftr cp 6) 0x3f) 0x80; Z.lor (Z.land cp 0x3f) 0x80]
           else
             [Z.lor (Z.shiftr cp 18) 0xf0; Z.lor (Z.land (Z.shiftr cp 12) 0x3f) 0x80;
              Z.lor (Z.land (Z.shiftr cp 6) 0x3f) 0x80; Z.lor (Z.land cp 0x3f) 0x80]).

(** ** Bytes *)
(** What holds of each of finitely many integers. *)
Lemma each_below (P : Z -> bool) n : forallb P (seqZ 0 n) = true -> forall x, 0 <= x < n -> P x = true.
Proof. intros H x Hx. rewrite forallb_forall in H. apply H, list_elem_of_In, elem_of_seqZ. lia. Qed.
Ltac Zify.zify_post_hook ::= Z.to_euclidean_division_equations.
Lemma trail_byte b : 0 <= b < 256 -> is_trail b = true <-> 128 <= b < 192.
Proof.
  unfold is_trail. rewrite Z.eqb_eq, Z.shiftr_div_pow2 by lia. change (2 ^ 6) with 64. lia.
Qed.
Lemma length_cases b : 0 <= b < 256 ->
  b < 128 /\ sequence_length b = 1 \/ 192 <= b < 224 /\ sequence_length b = 2 \/
  224 <= b < 240 /\ sequence_length b = 3 \/ 240 <= b < 248 /\ sequence_length b = 4 \/
  (128 <= b < 192 \/ 248 <= b) /\ sequence_length b = 0.
Proof.
  intros Hb. unfold sequence_length. rewrite !Z.shiftr_div_pow2 by lia.
  change (2 ^ 5) with 32. change (2 ^ 4) with 16. change (2 ^ 3) with 8.
  destruct (Z.ltb_spec b 128); [lia|]. destruct (Z.eqb_spec (b / 32) 6); [lia|].
  destruct (Z.eqb_spec (b / 16) 14); [lia|]. destruct (Z.eqb_spec (b / 8) 30); lia.
Qed.
Lemma land_mod x n : 0 <= n -> Z.land x (2 ^ n - 1) = x mod 2 ^ n.
Proof. intros Hn. rewrite <- Z.land_ones by done. by rewrite Z.ones_equiv, <- Z.sub_1_r. Qed.

(** The bytes of an encoded code point. *)
Lemma lor_lead x n y : 0 <= x < 2 ^ n -> 0 <= n -> y mod 2 ^ n = 0 -> Z.lor x y = x + y.
Proof.
  intros Hx Hn Hy. symmetry. apply Z.add_nocarry_lor. apply Z.bits_inj'. intros i Hi. rewrite Z.land_spec, Z.bits_0.
  destruct (Z.lt_ge_cases i n).
  - rewrite <- (Z.mod_pow2_bits_low y n i) by lia. rewrite Hy, Z.bits_0. apply andb_false_r.
  - rewrite <- (Z.mod_small x (2 ^ n)), Z.mod_pow2_bits_high by lia. done.
Qed.
Lemma land_63 x : Z.land x 0x3f = x mod 64.
Proof. exact (land_mod x 6 ltac:(lia)). Qed.
(** [append] with plain arithmetic. *)
Lemma append_eq cp : 0 <= cp -> is_code_point_valid cp = true ->
  append cp = Ok (if cp <? 128 then [cp]
    else if cp <? 2048 then [192 + cp / 64; 128 + cp mod 64]
    else if cp <? 65536 then [224 + cp / 4096; 128 + cp / 64 mod 64; 128 + cp mod 64]
    else [240 + cp / 262144; 128 + cp / 4096 mod 64; 128 + cp / 64 mod 64; 128 + cp mod 64]).
Proof.
  intros H0 Hv. unfold append. rewrite Hv. cbn [negb].
  unfold is_code_point_valid, CODE_POINT_MAX in Hv. bool_to_prop.
  rewrite !land_63, !Z.shiftr_div_pow2 by lia.
  change (2 ^ 6) with 64. change (2 ^ 12) with 4096. change (2 ^ 18) with 262144.
  assert (forall x, Z.lor (x mod 64) 128 = 128 + x mod 64) as L6.
  { intros x. rewrite (lor_lead _ 6); [lia|lia|lia|done]. }
  rewrite !L6. destruct (Z.ltb_spec cp 128); [done|]. destruct (Z.ltb_spec cp 2048).
  { rewrite (lor_lead (cp / 64) 5); [do 2 f_equal; lia|lia|lia|done]. }
  destruct (Z.ltb_spec cp 65536).
  { rewrite (lor_lead (cp / 4096) 4); [do 2 f_equal; lia|lia|lia|done]. }
  rewrite (lor_lead (cp / 262144) 3); [do 2 f_equal; lia|lia|lia|done].
Qed.

(** ** Decoding *)
Lemma shl_mask b k n y : 0 <= k -> 0 <= n -> y = 2 ^ n - 1 -> Z.land (Z.shiftl b k) y = (b * 2 ^ k) mod 2 ^ n.
Proof. intros Hk Hn ->. by rewrite land_mod, Z.shiftl_mul_pow2. Qed.
Lemma increase_ok it b r : increase_safely it = inr (b, r) <-> it = b :: r /\ is_trail b = true.
Proof.
  unfold increase_safely. destruct it as [|c it]; [by split; [|intros []]|]. destruct (is_trail c) eqn:E.
  - split; [by intros [= <- <-]|by intros [[= <- <-] _]].
  - split; [done|]. intros [[= <- <-] H]. congruence.
Qed.
Lemma increase_trail b it : 128 <= b < 192 -> increase_safely (b :: it) = inr (b, it).
Proof. intros Hb. apply increase_ok. split; [done|]. by apply trail_byte; lia. Qed.
Definition octets (l : list Z) : Prop := Forall (fun b => 0 <= b < 256) l.

(** The code point of a sequence, with plain arithmetic. *)
Lemma sequence_2 lead b1 : 192 <= lead < 224 -> 128 <= b1 < 192 ->
  Z.land (Z.shiftl lead 6) 0x7ff + Z.land b1 0x3f = (lead - 192) * 64 + (b1 - 128).
Proof. intros. rewrite land_63, (shl_mask _ 6 11) by done. change (2 ^ 6) with 64. change (2 ^ 11) with 2048. lia. Qed.
Lemma sequence_3 lead b1 b2 : 224 <= lead < 240 -> 128 <= b1 < 192 -> 128 <= b2 < 192 ->
  Z.land (Z.shiftl lead 12) 0xffff + Z.land (Z.shiftl b1 6) 0xfff + Z.land b2 0x3f
  = (lead - 224) * 4096 + (b1 - 128) * 64 + (b2 - 128).
Proof.
  intros. rewrite land_63, (shl_mask _ 12 16), (shl_mask _ 6 12) by done.
  change (2 ^ 6) with 64. change (2 ^ 12) with 4096. change (2 ^ 16) with 65536. lia.
Qed.
Lemma sequence_4 lead b1 b2 b3 : 240 <= lead < 248 -> 128 <= b1 < 192 -> 128 <= b2 < 192 -> 128 <= b3 < 192 ->
  Z.land (Z.shiftl lead 18) 0x1fffff + Z.land (Z.shiftl b1 12) 0x3ffff + Z.land (Z.shiftl b2 6) 0xfff + Z.land b3 0x3f
  = (lead - 240) * 262144 + (b1 - 128) * 4096 + (b2 - 128) * 64 + (b3 - 128).
Proof.
  intros. rewrite land_63, (shl_mask _ 18 21), (shl_mask _ 12 18), (shl_mask _ 6 12) by done.
  change (2 ^ 6) with 64. change (2 ^ 12) with 4096. change (2 ^ 18) with 262144. change (2 ^ 21) with 2097152. lia.
Qed.

Lemma next_append cp bs rest : 0 <= cp -> append cp = Ok bs -> next (bs ++ rest) = Ok (cp, rest).
Proof.
  intros H0 H. destruct (is_code_point_valid cp) eqn:Hv; [|unfold append in H; by rewrite Hv in H].
  rewrite append_eq in H by done. injection H as <-. pose proof Hv as Hv'.
  unfold is_code_point_valid, CODE_POINT_MAX in Hv'. apply andb_true_iff in Hv' as [Hm _]. apply Z.leb_le in Hm.
  assert (forall length lead it, get_sequence length lead it = inr (cp, rest) -> sequence_length lead = length ->
            is_overlong_sequence cp length = false -> next (lead :: it) = Ok (cp, rest)) as K.
  { intros length lead it Hs Hl Ho. unfold next, validate_next. rewrite Hl, Hs. cbn. by rewrite Hv, Ho. }
  destruct (Z.ltb_spec cp 128) as [H1|H1]; [|destruct (Z.ltb_spec cp 2048) as [H2|H2];
    [|destruct (Z.ltb_spec cp 65536) as [H3|H3]]]; cbn [app].
  - apply (K 1); [done|pose proof (length_cases cp); lia|]. unfold is_overlong_sequence. by rewrite (proj2 (Z.ltb_lt _ _) H1).
  - apply (K 2); [|pose proof (length_cases (192 + cp / 64)); lia|].
    + change (get_sequence 2) with get_sequence_2. unfold get_sequence_2. rewrite increase_trail by lia.
      cbn [mbind decode_bind]. rewrite sequence_2 by lia. do 2 f_equal. lia.
    + unfold is_overlong_sequence. by rewrite (proj2 (Z.ltb_ge _ _) H1), (proj2 (Z.ltb_lt _ _) H2).
  - apply (K 3); [|pose proof (length_cases (224 + cp / 4096)); lia|].
    + change (get_sequence 3) with get_sequence_3. unfold get_sequence_3.
      do 2 (rewrite increase_trail by lia; cbn [mbind decode_bind]). rewrite sequence_3 by lia. do 2 f_equal. lia.
    + unfold is_overlong_sequence.
      by rewrite (proj2 (Z.ltb_ge _ _) H1), (proj2 (Z.ltb_ge _ _) H2), (proj2 (Z.ltb_lt _ _) H3).
  - apply (K 4); [|pose proof (length_cases (240 + cp / 262144)); lia|].
    + change (get_sequence 4) with get_sequence_4. unfold get_sequence_4.
      do 3 (rewrite increase_trail by lia; cbn [mbind decode_bind]). rewrite sequence_4 by lia. do 2 f_equal. lia.
    + unfold is_overlong_sequence.
      by rewrite (proj2 (Z.ltb_ge _ _) H1), (proj2 (Z.ltb_ge _ _) H2), (proj2 (Z.ltb_ge _ _) H3).
Qed.

(** What [next] decoded is the encoding of the code point, whatever the length. *)
Ltac take_trail Hb Es :=
  lazymatch type of Es with
  | context [increase_safely ?it] =>
      let b := fresh "b" in let r := fresh "r" in let E := fresh "E" in let H := fresh "H" in let T := fresh "T" in
      destruct (increase_safely it) as [?|[b r]] eqn:E; [done|];
      apply increase_ok in E as [-> T]; apply Forall_cons in Hb as [H Hb]; apply (trail_byte _ H) in T;
      cbn [mbind decode_bind] in Es
  end.
Ltac shortest Eo cp :=
  unfold is_overlong_sequence in Eo;
  destruct (Z.ltb_spec cp 128); try done; destruct (Z.ltb_spec cp 2048); try done;
  destruct (Z.ltb_spec cp 65536); try done.
Lemma next_appended bs cp rest : octets bs -> next bs = Ok (cp, rest) ->
  0 <= cp /\ exists es, append cp = Ok es /\ bs = es ++ rest.
Proof.
  intros Hb H. destruct bs as [|lead it]; [done|]. apply Forall_cons in Hb as [Hl Hb]. unfold next in H.
  destruct (validate_next lead it) as [e|r] eqn:E; [done|]. injection H as ->. unfold validate_next in E.
  destruct (get_sequence (sequence_length lead) lead it) as [e|[cp' r]] eqn:Es; [done|]. cbn in E.
  destruct (is_code_point_valid cp') eqn:Ev; [|done]. destruct (is_overlong_sequence _ _) eqn:Eo; [done|].
  injection E as -> ->. pose proof Ev as Hmax. unfold is_code_point_valid, CODE_POINT_MAX in Hmax.
  apply andb_true_iff in Hmax as [Hmax _]. apply Z.leb_le in Hmax.
  destruct (length_cases lead Hl) as [[Hr El]|[[Hr El]|[[Hr El]|[[Hr El]|[Hr El]]]]]; rewrite El in Es, Eo.
  - injection Es as <- <-. split; [lia|]. rewrite append_eq by (done || lia). eexists. split; [done|]. shortest Eo lead; first [done|lia].
  - change (get_sequence 2) with get_sequence_2 in Es. unfold get_sequence_2 in Es. take_trail Hb Es.
    rewrite sequence_2 in Es by done. injection Es as <- <-. split; [lia|]. rewrite append_eq by (done || lia).
    eexists. split; [done|]. shortest Eo ((lead - 192) * 64 + (b - 128)); cbn; repeat f_equal; lia.
  - change (get_sequence 3) with get_sequence_3 in Es. unfold get_sequence_3 in Es. do 2 take_trail Hb Es.
    rewrite sequence_3 in Es by done. injection Es as <- <-. split; [lia|]. rewrite append_eq by (done || lia).
    eexists. split; [done|].
    shortest Eo ((lead - 224) * 4096 + (b - 128) * 64 + (b0 - 128)); cbn; repeat f_equal; lia.
  - change (get_sequence 4) with get_sequence_4 in Es. unfold get_sequence_4 in Es. do 3 take_trail Hb Es.
    rewrite sequence_4 in Es by done. injection Es as <- <-. split; [lia|]. rewrite append_eq by (done || lia).
    eexists. split; [done|].
    shortest Eo ((lead - 240) * 262144 + (b - 128) * 4096 + (b0 - 128) * 64 + (b1 - 128)); cbn; repeat f_equal; lia.
  - done.
Qed.

Lemma append_octets cp es : 0 <= cp -> append cp = Ok es -> octets es.
Proof.
  intros H0 H. destruct (is_code_point_valid cp) eqn:Hv; [|unfold append in H; by rewrite Hv in H].
  rewrite append_eq in H by done. injection H as <-. unfold is_code_point_valid, CODE_POINT_MAX in Hv. bool_to_prop.
  repeat case_match; bool_to_prop; repeat constructor; lia.
Qed.

(** ** Texts *)
Fixpoint encode (l : list Z) : result (list Z) :=
  match l with [] => Ok [] | cp :: l' => es ← append cp; r ← encode l'; Ok (es ++ r) end.

Lemma append_length cp es : append cp = Ok es -> (0 < length es)%nat.
Proof. unfold append. destruct (negb _); [done|]. intros [= <-]. repeat case_match; cbn; lia. Qed.
Lemma next_shorter bs cp rest : octets bs -> next bs = Ok (cp, rest) -> octets rest /\ (length rest < length bs)%nat.
Proof.
  intros Hb H. destruct (next_appended _ _ _ Hb H) as (_ & es & Ha & ->). apply append_length in Ha.
  apply Forall_app in Hb as [_ Hr]. split; [done|]. rewrite length_app. lia.
Qed.
Lemma encode_cons cp l bs :
  encode (cp :: l) = Ok bs <-> exists es r, append cp = Ok es /\ encode l = Ok r /\ bs = es ++ r.
Proof.
  cbn. split.
  - intros (es & He & (r & Hr & [= <-])%bind_ok)%bind_ok. eauto.
  - intros (es & r & -> & -> & ->). done.
Qed.
Lemma byte_of_range c : 0 <= byte_of c < 256.
Proof. unfold byte_of. pose proof (N_ascii_bounded c). lia. Qed.
Lemma bytes_octets s : octets (bytes_of s).
Proof. apply Forall_fmap, Forall_forall. intros c _. apply byte_of_range. Qed.

(** C8. Encoding and decoding are inverse to each other: [append] writes every
    valid code point as bytes that [next] reads back as that code point, whatever
    follows them; and what [next] reads as a code point is valid, and the bytes
    it read are those [append] writes for it, so no code point has a second
    encoding. *)
Theorem utf8_round_trip :
  (forall cp rest, 0 <= cp -> is_code_point_valid cp = true ->
     exists es, append cp = Ok es /\ octets es /\ next (es ++ rest) = Ok (cp, rest)) /\
  (forall bs cp rest, octets bs -> next bs = Ok (cp, rest) ->
     0 <= cp /\ is_code_point_valid cp = true /\ exists es, append cp = Ok es /\ bs = es ++ rest).
Proof.
  split.
  - intros cp rest H0 Hv. pose proof (append_eq cp H0 Hv) as E.
    eexists. split; [exact E|]. split; [by eapply append_octets|by apply next_append].
  - intros bs cp rest Hb H. destruct (next_appended _ _ _ Hb H) as (H0 & es & He & ->).
    split; [done|]. split; [|by eauto]. unfold append in He. by destruct (is_code_point_valid cp).
Qed.
(** The euro sign. *)
Lemma utf8_round_trip_witness :
  append 0x20ac = Ok [0xe2; 0x82; 0xac] /\ next [0xe2; 0x82; 0xac; 0x21] = Ok (0x20ac, [0x21]).
Proof.
  destruct (proj1 utf8_round_trip 0x20ac [0x21] ltac:(lia) ltac:(vm_compute; reflexivity)) as (es & He & _ & Hn).
  split; [vm_compute; reflexivity|]. vm_compute in He. injection He as <-. exact Hn.
Defined.
End utf8.
