(* ===== verification/Names.v ===== *)
(** * Names and texts (validate_account_name of protocol/account.cpp,
      validate_platform_string of protocol/content.cpp) *)
From S2P Require Import Prelude Utf8.
Local Open Scope Z_scope.
Import utf8.

Module names.
Definition MIN_ACCOUNT_NAME_LENGTH : Z := 2.
Definition MAX_ACCOUNT_NAME_LENGTH : Z := 63.
Definition UNDERLINE : Z := 0x5f.
Definition is_number (cp : Z) : bool := (0x30 <=? cp) && (cp <=? 0x39).
(** Underline, numbers, lower case Latin letters, common Chinese characters and
    parentheses. *)
Definition is_name_char (cp : Z) : bool :=
  (cp =? UNDERLINE) || is_number cp || ((0x61 <=? cp) && (cp <=? 0x7a)) ||
  ((0x4e00 <=? cp) && (cp <=? 0x9fa5)) || ((cp =? 0xff08) || (cp =? 0xff09)).

Inductive name_flaw := not_utf8 | too_long | starts_with_underline | starts_with_number | invalid_char.
#[global] Instance name_flaw_eq_dec : EqDecision name_flaw.
Proof. solve_decision. Defined.

(** The loop over the name: the flag it breaks with, the characters read, the
    last of them, and the iterator.  Only [invalid_utf8] is caught. *)
Fixpoint scan_name (fuel : nat) (it : list Z) (len last_char : Z)
    : result (option name_flaw * Z * Z * list Z) :=
  match it, fuel with
  | [], _ => Ok (None, len, last_char, [])
  | _, O => Throw out_of_fuel
  | _, S n =>
      match next it with
      | Throw utf8_invalid => Ok (Some not_utf8, len, last_char, it)
      | Throw e => Throw e
      | Ok (cp, it') =>
          let len := u32 (len + 1) in
          if MAX_ACCOUNT_NAME_LENGTH <? len then Ok (Some too_long, len, cp, it')
          else if (len =? 1) && (cp =? UNDERLINE) then Ok (Some starts_with_underline, len, cp, it')
          else if (len =? 1) && is_number cp then Ok (Some starts_with_number, len, cp, it')
          else if negb (is_name_char cp) then Ok (Some invalid_char, len, cp, it')
          else scan_name n it' len cp
      end
  end.
Definition no_flaw (flaw : option name_flaw) (f : name_flaw) : bool := negb (bool_decide (flaw = Some f)).
Definition validate_account_name (name : list Z) : result unit :=
  '(flaw, len, last_char, it) ← scan_name (length name) name 0 0;
  guard_ok (no_flaw flaw not_utf8) assert_exception ;;
  guard_ok (no_flaw flaw starts_with_number) assert_exception ;;
  guard_ok (no_flaw flaw starts_with_underline) assert_exception ;;
  guard_ok (no_flaw flaw invalid_char) assert_exception ;;
  guard_ok (negb ((0 <? len) && bool_decide (it = []) && no_flaw flaw not_utf8 && (last_char =? UNDERLINE)))
    assert_exception ;;
  guard_ok (negb (len <? MIN_ACCOUNT_NAME_LENGTH)) assert_exception ;;
  guard_ok (no_flaw flaw too_long) assert_exception.

Inductive text_flaw := text_not_utf8 | text_too_long.
Fixpoint scan_text (fuel : nat) (it : list Z) (len maxlen : Z) : result (option text_flaw) :=
  match it, fuel with
  | [], _ => Ok None
  | _, O => Throw out_of_fuel
  | _, S n =>
      match next it with
      | Throw utf8_invalid => Ok (Some text_not_utf8)
      | Throw e => Throw e
      | Ok (_, it') =>
          let len := u32 (len + 1) in
          if maxlen <? len then Ok (Some text_too_long) else scan_text n it' len maxlen
      end
  end.
Definition validate_platform_string (str : list Z) (maxlen : Z) : result unit :=
  flaw ← scan_text (length str) str 0 maxlen;
  guard_ok (match flaw with None => true | Some _ => false end) assert_exception.

(** ** What the loops accept *)
(** The characters of a name from the [n]-th on. *)
Definition name_tail_ok (n : nat) (l : list Z) : Prop :=
  Forall (fun cp => is_name_char cp = true) l /\ (n + length l <= 63)%nat /\
  (n = 0%nat -> forall cp, head l = Some cp -> cp <> UNDERLINE /\ is_number cp = false).

(** Reading the first character of an encoded text. *)
Lemma encode_next l it : Forall (fun cp => 0 <= cp) l -> encode l = Ok it -> it <> [] ->
  exists cp l' it', l = cp :: l' /\ encode l' = Ok it' /\ next it = Ok (cp, it').
Proof.
  intros Hl H Hne. destruct l as [|cp l]; [by injection H as <-|].
  apply encode_cons in H as (es & r & He & Hr & ->). apply Forall_cons in Hl as [Hc _].
  exists cp, l, r. split_and!; [done..|]. by apply next_append.
Qed.
Lemma next_encode cp l it it' : octets it -> next it = Ok (cp, it') -> encode l = Ok it' -> encode (cp :: l) = Ok it.
Proof.
  intros Hb H Hl. destruct (next_appended _ _ _ Hb H) as (_ & es & He & ->). apply encode_cons. eauto.
Qed.
Lemma encode_inj l l' bs : Forall (fun cp => 0 <= cp) l -> Forall (fun cp => 0 <= cp) l' ->
  encode l = Ok bs -> encode l' = Ok bs -> l = l'.
Proof.
  revert l' bs. induction l as [|cp l IH]; intros l' bs Hl Hl' H H'.
  - injection H as <-. destruct l' as [|c l']; [done|]. apply encode_cons in H' as (es & r & He & _ & E).
    apply append_length in He. by destruct es; [cbn in He; lia|].
  - apply encode_cons in H as (es & r & He & Hr & ->). apply Forall_cons in Hl as [Hc Hl].
    destruct (encode_next l' (es ++ r) Hl' H') as (c & k & it & -> & Hk & Hn).
    { apply append_length in He. by destruct es; [cbn in He; lia|]. }
    rewrite (next_append cp es r Hc He) in Hn. injection Hn as <- <-. f_equal.
    apply Forall_cons in Hl' as [_ Hl']. by eapply IH.
Qed.
Lemma last_cons (cp d : Z) l : List.last (cp :: l) d = List.last l cp.
Proof. revert cp d. induction l as [|x l IH]; intros cp d; [done|]. change (List.last (cp :: x :: l) d) with (List.last (x :: l) d). by rewrite !IH. Qed.
Lemma name_chars_pos l : Forall (fun cp => is_name_char cp = true) l -> Forall (fun cp => 0 <= cp) l.
Proof.
  intros Hl. eapply Forall_impl; [exact Hl|]. intros cp H. unfold is_name_char, is_number, UNDERLINE in H. lia.
Qed.
Lemma name_tail_cons n cp l :
  name_tail_ok n (cp :: l) <->
  is_name_char cp = true /\ (n = 0%nat -> cp <> UNDERLINE /\ is_number cp = false) /\ (n < 63)%nat /\ name_tail_ok (S n) l.
Proof.
  unfold name_tail_ok. rewrite Forall_cons. cbn [length head]. split.
  - intros ([H1 H2] & H3 & H4). split_and!; [done| |lia|done|lia|done]. intros Hn. by apply H4.
  - intros (H1 & H2 & H3 & H4 & H5 & _). split_and!; [done..|lia|]. intros Hn c [= <-]. by apply H2.
Qed.

Lemma scan_name_spec fuel it n last_char :
  octets it -> (length it <= fuel)%nat -> (n <= 63)%nat ->
  match scan_name fuel it (Z.of_nat n) last_char with
  | Ok (None, len, c, r) =>
      r = [] /\ exists l, encode l = Ok it /\ name_tail_ok n l /\ len = Z.of_nat (n + length l) /\
        c = List.last l last_char
  | _ => forall l, encode l = Ok it -> ~ name_tail_ok n l
  end.
Proof.
  revert it n last_char. induction fuel as [|fuel IH]; intros it n last_char Hb Hf Hn.
  all: destruct it as [|b it]; [split; [done|]; exists []; split_and!; [done| |cbn; lia|done]; repeat split; [constructor|cbn; lia|done..]|].
  { cbn in Hf. lia. }
  cbn [scan_name]. remember (b :: it) as bs eqn:Ebs. assert (bs <> []) as Hne by (by rewrite Ebs). clear b it Ebs.
  assert (forall l, encode l = Ok bs -> name_tail_ok n l -> exists cp l' it',
    l = cp :: l' /\ encode l' = Ok it' /\ next bs = Ok (cp, it')) as Hfirst.
  { intros l Hl [Hc _]. by apply encode_next; [apply name_chars_pos| |]. }
  destruct (next bs) as [[cp it']|e] eqn:En; cycle 1.
  { assert (forall l, encode l = Ok bs -> ~ name_tail_ok n l) as Hno.
    { intros l Hl Ht. by destruct (Hfirst l Hl Ht) as (? & ? & ? & _ & _ & ?). }
    by destruct e. }
  replace (u32 (Z.of_nat n + 1)) with (Z.of_nat (S n)) by (unfold u32; rewrite wrap_small; unfold is_uint; lia).
  assert (forall l, encode l = Ok bs -> name_tail_ok n l -> exists l',
    l = cp :: l' /\ encode l' = Ok it' /\ is_name_char cp = true /\
    (n = 0%nat -> cp <> UNDERLINE /\ is_number cp = false) /\ (n < 63)%nat /\ name_tail_ok (S n) l') as Hrest.
  { intros l Hl Ht. destruct (Hfirst l Hl Ht) as (c & l' & r & -> & Hl' & [= <- <-]).
    exists l'. apply name_tail_cons in Ht. naive_solver. }
  clear Hfirst. unfold MAX_ACCOUNT_NAME_LENGTH.
  destruct (Z.ltb_spec 63 (Z.of_nat (S n))) as [Hlt|Hle].
  { intros l Hl Ht. destruct (Hrest l Hl Ht) as (_ & _ & _ & _ & _ & ? & _). lia. }
  destruct (_ && (cp =? UNDERLINE)) eqn:E1.
  { intros l Hl Ht. destruct (Hrest l Hl Ht) as (_ & _ & _ & _ & H0 & _). bool_to_prop.
    destruct H0 as [H0 _]; [lia|done]. }
  destruct (_ && is_number cp) eqn:E2.
  { intros l Hl Ht. destruct (Hrest l Hl Ht) as (_ & _ & _ & _ & H0 & _). bool_to_prop.
    destruct H0 as [_ H0]; [lia|congruence]. }
  destruct (is_name_char cp) eqn:E3; cbn [negb]; cycle 1.
  { intros l Hl Ht. by destruct (Hrest l Hl Ht) as (_ & _ & _ & ? & _). }
  destruct (next_shorter _ _ _ Hb En) as [Hb' Hlen]. specialize (IH it' (S n) cp Hb' ltac:(lia) ltac:(lia)).
  destruct (scan_name fuel it' (Z.of_nat (S n)) cp) as [[[[[f|] len] c] r]|e];
    [intros l Hl Ht; destruct (Hrest l Hl Ht) as (l' & _ & Hl' & _ & _ & _ & Ht'); by eapply IH| |
     intros l Hl Ht; destruct (Hrest l Hl Ht) as (l' & _ & Hl' & _ & _ & _ & Ht'); by eapply IH].
  destruct IH as (-> & l & Hl & Ht & -> & ->). split; [done|]. exists (cp :: l). rewrite last_cons.
  split_and!; [by eapply next_encode| |cbn; lia|done]. apply name_tail_cons. split_and!; [done| |lia|done].
  intros ->. rewrite andb_true_l in E1, E2. split; [by apply Z.eqb_neq|done].
Qed.

(** ** Account names *)
Record account_name (l : list Z) : Prop := {
  an_chars : Forall (fun cp => is_name_char cp = true) l;
  an_length : (2 <= length l <= 63)%nat;
  an_first cp : head l = Some cp -> cp <> UNDERLINE /\ is_number cp = false;
  an_last : List.last l 0 <> UNDERLINE;
}.
Lemma guard_seq {A} b e (m : result A) r : (guard_ok b e ;; m) = Ok r <-> b = true /\ m = Ok r.
Proof. destruct b; cbn; naive_solver. Qed.
Lemma validate_name_ok name : octets name ->
  validate_account_name name = Ok tt <-> exists l, encode l = Ok name /\ account_name l.
Proof.
  intros Hb. pose proof (scan_name_spec (length name) name 0 0 Hb ltac:(lia) ltac:(lia)) as H.
  unfold validate_account_name. change (Z.of_nat 0) with 0 in H.
  assert (forall l, account_name l -> name_tail_ok 0 l) as Ht.
  { intros l [H1 H2 H3 H4]. split_and!; [done|cbn; lia|]. intros _. apply H3. }
  destruct (scan_name _ _ _ _) as [[[[[f|] len] c] r]|e]; cbn [mbind result_bind].
  - rewrite !guard_seq, guard_ok_inv. split; [|intros (l & Hl & Hn); destruct (H l Hl (Ht l Hn))].
    intros Hv. by destruct f; naive_solver.
  - destruct H as (-> & l & Hl & [T1 [T2 T3]] & -> & ->). rewrite !guard_seq, guard_ok_inv. unfold MIN_ACCOUNT_NAME_LENGTH.
    cbn [Nat.add] in *. split.
    + intros (_ & _ & _ & _ & H1 & H2%negb_true_iff%Z.ltb_ge & _). exists l. split; [done|].
      split; [done|lia|by apply T3|]. intros Hu. rewrite Hu in H1.
      destruct (Z.ltb_spec 0 (Z.of_nat (length l))); [done|lia].
    + intros (l' & Hl' & [N1 N2 N3 N4]).
      assert (l' = l) as -> by (eapply encode_inj; [by apply name_chars_pos..|exact Hl'|exact Hl]).
      split_and!; try done.
      * by rewrite (proj2 (Z.eqb_neq _ _) N4), !andb_false_r.
      * apply negb_true_iff, Z.ltb_ge. lia.
  - split; [done|]. intros (l & Hl & Hn). destruct (H l Hl (Ht l Hn)).
Qed.

(** ** Texts *)
Lemma scan_text_spec fuel it n maxlen :
  octets it -> (length it <= fuel)%nat -> Z.of_nat n <= maxlen < 2 ^ 32 - 1 ->
  scan_text fuel it (Z.of_nat n) maxlen = Ok None <->
  exists l, Forall (fun cp => 0 <= cp) l /\ encode l = Ok it /\ Z.of_nat (n + length l) <= maxlen.
Proof.
  revert it n. induction fuel as [|fuel IH]; intros it n Hb Hf Hn.
  all: destruct it as [|b it]; [split; [intros _; exists []; split_and!; [constructor|done|cbn; lia]|done]|].
  { cbn in Hf. lia. }
  cbn [scan_text]. remember (b :: it) as bs eqn:Ebs. assert (bs <> []) as Hne by (by rewrite Ebs). clear b it Ebs.
  destruct (next bs) as [[cp it']|e] eqn:En; cycle 1.
  { split; [by destruct e|]. intros (l & Hl & He & _). destruct (encode_next l bs Hl He Hne) as (? & ? & ? & _ & _ & ?).
    congruence. }
  replace (u32 (Z.of_nat n + 1)) with (Z.of_nat (S n)) by (unfold u32; rewrite wrap_small; unfold is_uint; lia).
  destruct (next_shorter _ _ _ Hb En) as [Hb' Hlen]. destruct (next_appended _ _ _ Hb En) as (H0 & _).
  assert (forall l, Forall (fun cp => 0 <= cp) l -> encode l = Ok bs ->
            exists l', l = cp :: l' /\ Forall (fun cp => 0 <= cp) l' /\ encode l' = Ok it') as Hrest.
  { intros l Hl He. destruct (encode_next l bs Hl He Hne) as (c & l' & r & -> & He' & E). rewrite En in E.
    injection E as <- <-. apply Forall_cons in Hl as [_ Hl]. eauto. }
  destruct (Z.ltb_spec maxlen (Z.of_nat (S n))) as [Hlt|Hle].
  { split; [done|]. intros (l & Hl & He & Hm). destruct (Hrest l Hl He) as (l' & -> & _). cbn in Hm. lia. }
  rewrite (IH it' (S n) Hb' ltac:(lia) ltac:(lia)). split.
  - intros (l & Hl & He & Hm). exists (cp :: l). split_and!; [by constructor|by eapply next_encode|cbn in *; lia].
  - intros (l & Hl & He & Hm). destruct (Hrest l Hl He) as (l' & -> & Hl' & He'). exists l'. cbn in Hm. split_and!; [done..|lia].
Qed.

(** C17. The loops over names and texts accept exactly what they document, for
    every string of bytes.  An account name is the UTF-8 encoding of 2 to 63
    characters that are underlines, numbers, lower case Latin letters, common
    Chinese characters or parentheses, the first neither an underline nor a
    number and the last no underline; a text of a platform is the encoding of at
    most the given number of code points. *)
Theorem names_checked (s : string) :
  (validate_account_name (bytes_of s) = Ok tt <-> exists l, encode l = Ok (bytes_of s) /\ account_name l) /\
  (forall maxlen, 0 <= maxlen < 2 ^ 32 - 1 ->
     validate_platform_string (bytes_of s) maxlen = Ok tt <->
     exists l, Forall (fun cp => 0 <= cp) l /\ encode l = Ok (bytes_of s) /\ Z.of_nat (length l) <= maxlen).
Proof.
  pose proof (bytes_octets s) as Hb. split; [by apply validate_name_ok|]. intros maxlen Hm.
  rewrite <- (scan_text_spec (length (bytes_of s)) (bytes_of s) 0 maxlen Hb ltac:(lia) ltac:(lia)).
  unfold validate_platform_string. change (Z.of_nat 0) with 0. destruct (scan_text _ _ _ _) as [[f|]|e]; cbn; split; done.
Qed.
Lemma names_checked_witness :
  validate_platform_string (bytes_of "yoyow") 100 = Ok tt.
Proof.
  apply (names_checked "yoyow"); [lia|]. exists (bytes_of "yoyow").
  split_and!; [repeat constructor; vm_compute; discriminate|vm_compute; reflexivity|vm_compute; discriminate].
Defined.

Example name_good : validate_account_name (bytes_of "yoyow_2019") = Ok tt.
Proof. reflexivity. Qed.
Example name_underline : validate_account_name (bytes_of "yoyow_") = Throw assert_exception.
Proof. reflexivity. Qed.
(** Cut in the middle of a character: the exception is none the loop catches. *)
Example name_truncated : validate_account_name [0x79; 0xe4; 0xb8] = Throw utf8_not_enough_room.
Proof. reflexivity. Qed.
End names.
