(* ===== verification/Authority.v ===== *)
(** * Transaction authority: the signature check (protocol/transaction.cpp,
      protocol/authority.hpp, protocol/authority.cpp)

    [sign_state] walks the weighted authorities of the accounts a transaction
    needs, marks the signatures it uses, caches the account authorities it has
    approved and builds the tree of signers.  [verify_authority] runs it over
    every required authority and rejects unused signatures.

    Public keys are numbers, the default-constructed key being [0].  The
    required authorities of an operation come from the operation's own
    visitor, an argument here ([get_required]); key recovery from a signature
    is code of fc and is an argument of [get_signature_keys]. *)
From S2P Require Import Prelude FlatMap.
Local Open Scope Z_scope.

Module auth.

Notation public_key := Z (only parsing).
Notation account_uid := Z (only parsing).

Inductive account_auth_type := owner_auth | active_auth | secondary_auth.

#[global] Instance account_auth_type_eq_dec : EqDecision account_auth_type.
Proof. solve_decision. Defined.

Definition auth_type_num (t : account_auth_type) : Z :=
  match t with owner_auth => 0 | active_auth => 1 | secondary_auth => 2 end.
#[global] Instance account_auth_type_countable : Countable account_auth_type.
Proof.
  refine (inj_countable' auth_type_num
    (fun n => if n =? 0 then owner_auth else if n =? 1 then active_auth else secondary_auth) _).
  by intros [].
Defined.

(** [account_uid_auth_type]: an account and which of its authorities. *)
Notation account_uid_auth_type := (Z * account_auth_type)%type.

#[global] Instance uid_auth_order : KeyOrder account_uid_auth_type := fun a b =>
  (a.1 <? b.1) || ((a.1 =? b.1) && (auth_type_num a.2 <? auth_type_num b.2)).

(** ** [struct authority] *)
Record authority := Authority {
  weight_threshold : Z;
  account_uid_auths : flat_map account_uid_auth_type Z;
  key_auths : flat_map public_key Z;
}.

Definition add_key_authority (k : public_key) (w : Z) (a : authority) : authority :=
  Authority (weight_threshold a) (account_uid_auths a) (fm_set k w (key_auths a)).
Definition add_uid_authority (k : account_uid_auth_type) (w : Z) (a : authority) : authority :=
  Authority (weight_threshold a) (fm_set k w (account_uid_auths a)) (key_auths a).

Definition add_weights {K} (l : flat_map K Z) (acc : Z) : Z :=
  fold_left (fun acc p => u64 (acc + p.2)) l acc.
Definition is_impossible (a : authority) : bool :=
  add_weights (account_uid_auths a) (add_weights (key_auths a) 0) <? weight_threshold a.

Definition get_keys (a : authority) : list public_key := (key_auths a).*1.
Definition num_auths (a : authority) : Z :=
  u32 (Z.of_nat (length (account_uid_auths a)) + Z.of_nat (length (key_auths a))).
Definition clear (a : authority) : authority := Authority (weight_threshold a) [] [].

Definition add_authority_account_uids (result : gset account_uid) (a : authority)
    : gset account_uid :=
  fold_left (fun s item => {[ item.1.1 ]} ∪ s) (account_uid_auths a) result.

(** ** [signed_information] and its [sign_tree] *)
Inductive sign_tree :=
| SignTree (uid : account_uid) (pub_keys : gset public_key) (children : list sign_tree).

Definition st_uid (t : sign_tree) := let 'SignTree u _ _ := t in u.
Definition st_pub_keys (t : sign_tree) := let 'SignTree _ k _ := t in k.
Definition st_children (t : sign_tree) := let 'SignTree _ _ c := t in c.
Definition new_tree (uid : account_uid) : sign_tree := SignTree uid ∅ [].

#[global] Instance sign_tree_order : KeyOrder sign_tree := fun a b => st_uid a <? st_uid b.

(** [parent.pub_keys.emplace(k)]; [parent.children.emplace(child)] keeps a
    child already there with the same uid. *)
Definition add_pub_key (k : public_key) (t : sign_tree) : sign_tree :=
  SignTree (st_uid t) ({[ k ]} ∪ st_pub_keys t) (st_children t).
Definition add_child (c t : sign_tree) : sign_tree :=
  SignTree (st_uid t) (st_pub_keys t) (fs_insert c (st_children t)).

Record signed_information := {
  si_owner : gmap account_uid sign_tree;
  si_active : gmap account_uid sign_tree;
  si_secondary : gmap account_uid sign_tree;
}.

(** The loop of [real_owner_uid], [real_active_uid], [real_secondary_uid]. *)
Fixpoint real_root (depth : nat) (root : sign_tree) : account_uid :=
  match depth, st_children root with
  | S depth', [c] =>
      if bool_decide (st_pub_keys root = ∅) then real_root depth' c else st_uid root
  | _, _ => st_uid root
  end.
Definition real_uid (m : gmap account_uid sign_tree) (uid : account_uid) (depth : nat)
    : account_uid :=
  match m !! uid with None => 0 | Some root => real_root depth root end.
Definition real_owner_uid (si : signed_information) := real_uid (si_owner si).
Definition real_active_uid (si : signed_information) := real_uid (si_active si).
Definition real_secondary_uid (si : signed_information) := real_uid (si_secondary si).

(** ** [struct sign_state] *)
Record sign_state := {
  used_keys : gset public_key;
  provided_signatures : gmap public_key bool;
  approved_by_uid_auth : gset account_uid_auth_type;
  sigs : signed_information;
}.

(** The verdict of a check: satisfied, possible, missed keys. *)
Notation verdict := (bool * bool * gset public_key)%type.
Definition approved : verdict := (true, true, ∅).
Definition impossible : verdict := (false, false, {[ 0 ]}).

Section sign_state.
(** The constant members of [sign_state]. *)
Variables get_owner_by_uid get_active_by_uid get_secondary_by_uid :
  account_uid -> option authority.
Variable available_keys : gset public_key.

Definition get_by_uid_auth (x : account_uid_auth_type) : option authority :=
  match x.2 with
  | secondary_auth => get_secondary_by_uid x.1
  | active_auth => get_active_by_uid x.1
  | owner_auth => get_owner_by_uid x.1
  end.

Definition signed_by (k : public_key) (s : sign_state) : bool * sign_state :=
  match provided_signatures s !! k with
  | None =>
      if decide (k ∈ available_keys) then
        (true, {| used_keys := {[ k ]} ∪ used_keys s;
                  provided_signatures := <[k := true]> (provided_signatures s);
                  approved_by_uid_auth := approved_by_uid_auth s;
                  sigs := sigs s |})
      else (false, s)
  | Some _ =>
      (true, {| used_keys := used_keys s;
                provided_signatures := <[k := true]> (provided_signatures s);
                approved_by_uid_auth := approved_by_uid_auth s;
                sigs := sigs s |})
  end.

Definition approve (x : account_uid_auth_type) (s : sign_state) : sign_state :=
  {| used_keys := used_keys s; provided_signatures := provided_signatures s;
     approved_by_uid_auth := {[ x ]} ∪ approved_by_uid_auth s; sigs := sigs s |}.

(** The local variables of [check_authority], with the mutable parent. *)
Record scan := {
  total_weight : Z;
  total_possible_weight : Z;
  missed_keys : gset public_key;
  parent : sign_tree;
  st : sign_state;
}.

(** The loop over [auth.key_auths]; [true] is the early return. *)
Fixpoint key_loop (threshold : Z) (ks : flat_map public_key Z) (c : scan) : bool * scan :=
  match ks with
  | [] => (false, c)
  | (kf, w) :: ks' =>
      let possible := if negb (kf =? 0) then u32 (total_possible_weight c + w)
                      else total_possible_weight c in
      let '(signed, s') := signed_by kf (st c) in
      if signed then
        let c' := {| total_weight := u32 (total_weight c + w);
                     total_possible_weight := possible;
                     missed_keys := missed_keys c;
                     parent := add_pub_key kf (parent c); st := s' |} in
        if threshold <=? total_weight c' then (true, c') else key_loop threshold ks' c'
      else
        key_loop threshold ks'
          {| total_weight := total_weight c; total_possible_weight := possible;
             missed_keys := (if negb (kf =? 0) then {[ kf ]} ∪ missed_keys c
                             else missed_keys c);
             parent := parent c; st := s' |}
  end.

(** The loop over [auth.account_uid_auths].  [rec] is the recursive call at
    [depth + 1], absent when [depth == max_recursion]. *)
Fixpoint uid_loop
    (rec : option (option authority -> sign_tree -> sign_state ->
                   verdict * sign_tree * sign_state))
    (threshold : Z) (us : flat_map account_uid_auth_type Z) (c : scan) : bool * scan :=
  match us with
  | [] => (false, c)
  | (a, w) :: us' =>
      if decide (a ∈ approved_by_uid_auth (st c)) then
        let c' := {| total_weight := u32 (total_weight c + w);
                     total_possible_weight := u32 (total_possible_weight c + w);
                     missed_keys := missed_keys c;
                     parent := add_child (new_tree a.1) (parent c); st := st c |} in
        if threshold <=? total_weight c' then (true, c') else uid_loop rec threshold us' c'
      else
        match rec with
        | None => uid_loop rec threshold us' c
        | Some check =>
            let '(result, child, s') := check (get_by_uid_auth a) (new_tree a.1) (st c) in
            if result.1.1 then
              let c' := {| total_weight := u32 (total_weight c + w);
                           total_possible_weight := u32 (total_possible_weight c + w);
                           missed_keys := missed_keys c;
                           parent := add_child child (parent c); st := approve a s' |} in
              if threshold <=? total_weight c' then (true, c')
              else uid_loop rec threshold us' c'
            else
              uid_loop rec threshold us'
                {| total_weight := total_weight c;
                   total_possible_weight :=
                     (if result.1.2 then u32 (total_possible_weight c + w)
                      else total_possible_weight c);
                   missed_keys := (if result.1.2 then result.2 ∪ missed_keys c
                                   else missed_keys c);
                   parent := parent c; st := s' |}
        end
  end.

(** [check_authority(au, parent, depth)]; [n] is [max_recursion - depth]. *)
Fixpoint check_authority (n : nat) (au : option authority) (par : sign_tree)
    (s : sign_state) : verdict * sign_tree * sign_state :=
  match au with
  | None => (impossible, par, s)
  | Some auth =>
      let thr := weight_threshold auth in
      let c0 := {| total_weight := 0; total_possible_weight := 0; missed_keys := ∅;
                   parent := par; st := s |} in
      let '(done1, c1) := key_loop thr (key_auths auth) c0 in
      if done1 then (approved, parent c1, st c1) else
      let rec := match n with O => None | S n' => Some (check_authority n') end in
      let '(done2, c2) := uid_loop rec thr (account_uid_auths auth) c1 in
      if done2 then (approved, parent c2, st c2) else
      if thr <=? total_possible_weight c2
      then ((thr <=? total_weight c2, true, missed_keys c2), parent c2, st c2)
      else (impossible, parent c2, st c2)
  end.

Definition record_sig (x : account_uid_auth_type) (t : sign_tree) (s : sign_state) : sign_state :=
  let put (m : gmap account_uid sign_tree) :=
    match m !! x.1 with Some _ => m | None => <[x.1 := t]> m end in
  {| used_keys := used_keys s; provided_signatures := provided_signatures s;
     approved_by_uid_auth := approved_by_uid_auth s;
     sigs := match x.2 with
             | secondary_auth => {| si_owner := si_owner (sigs s); si_active := si_active (sigs s);
                                    si_secondary := put (si_secondary (sigs s)) |}
             | active_auth => {| si_owner := si_owner (sigs s);
                                 si_active := put (si_active (sigs s));
                                 si_secondary := si_secondary (sigs s) |}
             | owner_auth => {| si_owner := put (si_owner (sigs s));
                                si_active := si_active (sigs s);
                                si_secondary := si_secondary (sigs s) |}
             end |}.

(** [check_authority(uid_auth)], the top-level entry. *)
Definition check_uid_auth (max_recursion : nat) (x : account_uid_auth_type) (s : sign_state)
    : verdict * sign_state :=
  if decide (x ∈ approved_by_uid_auth s) then (approved, s)
  else
    let '(result, par, s') := check_authority max_recursion (get_by_uid_auth x) (new_tree x.1) s in
    if result.1.1 then (result, record_sig x par s') else (result, s').

Definition get_unused_signature_keys (s : sign_state) : list public_key :=
  (filter (fun p => p.2 = false) (map_to_list (provided_signatures s))).*1.

(** Returns whether anything was removed. *)
Definition remove_unused_signatures (s : sign_state) : bool * sign_state :=
  let remove_sigs := get_unused_signature_keys s in
  (negb (length remove_sigs =? 0)%nat,
   {| used_keys := used_keys s;
      provided_signatures := fold_left (fun m k => delete k m) remove_sigs (provided_signatures s);
      approved_by_uid_auth := approved_by_uid_auth s; sigs := sigs s |}).
End sign_state.

Section verify.
(** [GRAPHENE_TEMP_ACCOUNT_UID] and [GRAPHENE_COMMITTEE_ACCOUNT_UID], the
    checksummed uids 5 and 1 (see [Uid]). *)
Variables TEMP_ACCOUNT_UID COMMITTEE_ACCOUNT_UID : account_uid.
Context {signature_type : Type}.

(** The constructor of [sign_state]. *)
Definition new_sign_state (sig : gmap public_key signature_type) : sign_state :=
  {| used_keys := ∅;
     provided_signatures := (fun _ => false) <$> sig;
     approved_by_uid_auth := {[ (TEMP_ACCOUNT_UID, owner_auth);
                                (TEMP_ACCOUNT_UID, active_auth);
                                (TEMP_ACCOUNT_UID, secondary_auth) ]};
     sigs := {| si_owner := ∅; si_active := ∅; si_secondary := ∅ |} |}.

(** What the operations require: three sets of uids in uid order and further
    authorities. *)
Record required := {
  req_owner : flat_set account_uid;
  req_active : flat_set account_uid;
  req_secondary : flat_set account_uid;
  req_other : list authority;
}.
Definition no_required : required :=
  {| req_owner := []; req_active := []; req_secondary := []; req_other := [] |}.

Context {operation : Type}.
(** [operation_get_required_uid_authorities]. *)
Variable op_required : bool -> operation -> required -> required.

Definition get_required_uid_authorities (enabled_hardfork : bool) (ops : list operation)
    : required :=
  fold_left (fun r op => op_required enabled_hardfork op r) ops no_required.

Variables get_owner_by_uid get_active_by_uid get_secondary_by_uid :
  account_uid -> option authority.

Notation get_auth :=
  (get_by_uid_auth get_owner_by_uid get_active_by_uid get_secondary_by_uid).

Definition missing_auth (t : account_auth_type) : exn :=
  match t with
  | owner_auth => tx_missing_owner_auth
  | active_auth => tx_missing_active_auth
  | secondary_auth => tx_missing_secondary_auth
  end.

(** The three loops over the required uids.  The message of the failing
    assertion dereferences the authority: a null pointer there has no
    defined behaviour. *)
Fixpoint require_uids (max_recursion : nat) (t : account_auth_type)
    (uids : list account_uid) (s : sign_state) : result sign_state :=
  match uids with
  | [] => Ok s
  | u :: uids' =>
      let '(v, s') := check_uid_auth get_owner_by_uid get_active_by_uid get_secondary_by_uid
                        ∅ max_recursion (u, t) s in
      if v.1.1 then require_uids max_recursion t uids' s'
      else match get_auth (u, t) with
           | Some _ => Throw (missing_auth t)
           | None => Throw undefined_behaviour
           end
  end.

Fixpoint require_others (max_recursion : nat) (auths : list authority) (s : sign_state)
    : result sign_state :=
  match auths with
  | [] => Ok s
  | a :: auths' =>
      let '(v, _, s') := check_authority get_owner_by_uid get_active_by_uid get_secondary_by_uid
                           ∅ max_recursion (Some a) (new_tree 0) s in
      if v.1.1 then require_others max_recursion auths' s' else Throw tx_missing_other_auth
  end.

Definition pre_approve (t : account_auth_type) (uids : list account_uid) (s : sign_state)
    : sign_state :=
  fold_left (fun s u => approve (u, t) s) uids s.

Definition verify_authority (ops : list operation) (sig : gmap public_key signature_type)
    (enabled_hardfork : bool) (max_recursion_depth : nat) (allow_committe : bool)
    (owner_uid_approvals active_uid_approvals secondary_uid_approvals : list account_uid)
    : result signed_information :=
  let r := get_required_uid_authorities enabled_hardfork ops in
  guard_ok (allow_committe || bool_decide (COMMITTEE_ACCOUNT_UID ∉ req_active r))
           invalid_committee_approval ;;
  let s := pre_approve secondary_auth secondary_uid_approvals
             (pre_approve active_auth active_uid_approvals
                (pre_approve owner_auth owner_uid_approvals (new_sign_state sig))) in
  s ← require_uids max_recursion_depth owner_auth (req_owner r) s;
  s ← require_uids max_recursion_depth active_auth (req_active r) s;
  s ← require_uids max_recursion_depth secondary_auth (req_secondary r) s;
  s ← require_others max_recursion_depth (req_other r) s;
  let '(removed, s) := remove_unused_signatures s in
  guard_ok (negb removed) tx_irrelevant_sig ;;
  mret (sigs s).

(** [signed_transaction::get_signature_keys]; [recover] is
    [fc::ecc::public_key(sig, digest)]. *)
Fixpoint get_signature_keys (recover : signature_type -> public_key)
    (signatures : list signature_type) (acc : gmap public_key signature_type)
    : result (gmap public_key signature_type) :=
  match signatures with
  | [] => Ok acc
  | sig :: rest =>
      let key := recover sig in
      match acc !! key with
      | Some _ => Throw tx_duplicate_sig
      | None => get_signature_keys recover rest (<[key := sig]> acc)
      end
  end.

(** [signed_transaction::get_required_signatures]. *)
Fixpoint required_loop (max_recursion : nat) (available_keys : gset public_key)
    (auths : list authority) (missed : gset public_key) (s : sign_state)
    : gset public_key * sign_state :=
  match auths with
  | [] => (missed, s)
  | a :: auths' =>
      let '(v, _, s') := check_authority get_owner_by_uid get_active_by_uid get_secondary_by_uid
                           available_keys max_recursion (Some a) (new_tree 0) s in
      if v.1.2 then required_loop max_recursion available_keys auths' (v.2 ∪ missed) s'
      else (v.2, s')
  end.

Definition get_required_signatures `{Countable signature_type} (ops : list operation)
    (recover : signature_type -> public_key) (signatures : list signature_type)
    (available_keys : gset public_key) (enabled_hardfork : bool) (max_recursion_depth : nat)
    : result (gset public_key * gset public_key * gset signature_type) :=
  let r := get_required_uid_authorities enabled_hardfork ops in
  owners ← mapM (fun u => deref (get_owner_by_uid u) undefined_behaviour) (req_owner r);
  actives ← mapM (fun u => deref (get_active_by_uid u) undefined_behaviour) (req_active r);
  secondaries ← mapM (fun u => deref (get_secondary_by_uid u) undefined_behaviour) (req_secondary r);
  key_sigs ← get_signature_keys recover signatures ∅;
  let '(missed, s) := required_loop max_recursion_depth available_keys
                        (owners ++ actives ++ secondaries ++ req_other r) ∅
                        (new_sign_state key_sigs) in
  let unused := omap (fun k => key_sigs !! k) (get_unused_signature_keys s) in
  mret (used_keys s, missed, list_to_set unused).
End verify.

(** ** [get_authority_uid]: the accounts an account's authorities lead to *)
Record account_auths := { acc_uid : account_uid; acc_owner : authority;
                          acc_active : authority; acc_secondary : authority }.
Record auth_uids := { owner_auth_uid : gset account_uid; active_auth_uid : gset account_uid;
                      secondary_auth_uid : gset account_uid }.

Section get_authority_uid.
Variable get_acc_by_uid : account_uid -> option account_auths.

(** [n] is [GRAPHENE_MAX_SIG_CHECK_DEPTH - depth]. *)
Fixpoint authority_uids_rec (n : nat) (auth : authority) (out : auth_uids) : auth_uids :=
  fold_left (fun out a =>
    match n with
    | O => out
    | S n' =>
        match get_acc_by_uid a.1.1 with
        | None => out
        | Some acc =>
            match a.1.2 with
            | secondary_auth =>
                authority_uids_rec n' (acc_secondary acc)
                  {| owner_auth_uid := owner_auth_uid out; active_auth_uid := active_auth_uid out;
                     secondary_auth_uid := {[ acc_uid acc ]} ∪ secondary_auth_uid out |}
            | active_auth =>
                authority_uids_rec n' (acc_active acc)
                  {| owner_auth_uid := owner_auth_uid out;
                     active_auth_uid := {[ acc_uid acc ]} ∪ active_auth_uid out;
                     secondary_auth_uid := secondary_auth_uid out |}
            | owner_auth =>
                authority_uids_rec n' (acc_owner acc)
                  {| owner_auth_uid := {[ acc_uid acc ]} ∪ owner_auth_uid out;
                     active_auth_uid := active_auth_uid out;
                     secondary_auth_uid := secondary_auth_uid out |}
            end
        end
    end) (account_uid_auths auth) out.

Definition get_authority_uid (uid : account_uid) (out : auth_uids) : auth_uids :=
  match get_acc_by_uid uid with
  | None => out
  | Some acc =>
      authority_uids_rec 2 (acc_secondary acc)
        (authority_uids_rec 2 (acc_active acc)
           (authority_uids_rec 2 (acc_owner acc) out))
  end.
End get_authority_uid.
End auth.
