(* ===== verification/AuthorityProof.v ===== *)
(** * The signature check against a stateless reference

    The reference [ref_sat] sums the weights of the signed keys and of the
    approved accounts of an authority, with no cache, no early return and no
    marking.  The check of the code is sound for it (a satisfied verdict means
    the reference is satisfied at some depth: the cache lets the code see
    deeper than its recursion limit) and complete (an authority the reference
    satisfies within the recursion limit is accepted). *)
From S2P Require Import Prelude FlatMap Authority.
Local Open Scope Z_scope.
Import auth.

Section reference.
Variables go ga gs : account_uid -> option authority.
Variable keys : gset public_key.
Variable pre : gset (account_uid * account_auth_type).
Notation get_auth := (get_by_uid_auth go ga gs).

Definition key_weight (ks : flat_map public_key Z) : Z :=
  zsum ((fun p => if bool_decide (p.1 ∈ keys) then p.2 else 0) <$> ks).

Definition uid_weight (ok : account_uid * account_auth_type -> bool)
    (us : flat_map (account_uid * account_auth_type) Z) : Z :=
  zsum ((fun p => if ok p.1 then p.2 else 0) <$> us).

(** [a] is satisfied by the keys and the pre-approved accounts, following at
    most [n] account references. *)
Fixpoint ref_sat (n : nat) (a : authority) : bool :=
  weight_threshold a <=?
    key_weight (key_auths a) +
    uid_weight (fun x => bool_decide (x ∈ pre) ||
                  match n, get_auth x with
                  | S n', Some a' => ref_sat n' a'
                  | _, _ => false
                  end) (account_uid_auths a).

Definition ref_approved (n : nat) (x : account_uid * account_auth_type) : bool :=
  bool_decide (x ∈ pre) ||
  match n, get_auth x with S n', Some a' => ref_sat n' a' | _, _ => false end.

Lemma ref_sat_eq n a :
  ref_sat n a =
  (weight_threshold a <=?
     key_weight (key_auths a) + uid_weight (ref_approved n) (account_uid_auths a)).
Proof. by destruct n. Qed.

(** The authorities an authority leads to. *)
Inductive reach : authority -> authority -> Prop :=
| reach_refl a : reach a a
| reach_step a x w a' b :
    (x, w) ∈ account_uid_auths a -> get_auth x = Some a' -> reach a' b -> reach a b.
End reference.

(** The weights of an authority are not negative and their sum fits in 32 bits. *)
Definition total {K} (l : flat_map K Z) : Z := zsum l.*2.
Definition wf_weights {K} (l : flat_map K Z) : Prop := Forall (fun p => 0 <= p.2) l.
Definition wf_authority (a : authority) : Prop :=
  wf_weights (key_auths a) /\ wf_weights (account_uid_auths a) /\
  total (key_auths a) + total (account_uid_auths a) < 2 ^ 32.

Section weights.
Context {K : Type}.
Lemma total_nonneg (l : flat_map K Z) : wf_weights l -> 0 <= total l.
Proof.
  induction 1 as [|p l Hp Hl IH]; [done|].
  change (total (p :: l)) with (p.2 + total l). lia.
Qed.

Lemma filtered_sum (f g : K -> bool) (l : flat_map K Z) :
  wf_weights l -> (forall x, f x = true -> g x = true) ->
  0 <= zsum ((fun p => if f p.1 then p.2 else 0) <$> l)
    <= zsum ((fun p => if g p.1 then p.2 else 0) <$> l).
Proof.
  intros Hl Hfg. induction Hl as [|[x w] l Hp Hl IH]; cbn in *; [lia|].
  pose proof (Hfg x) as Hx. destruct (f x), (g x); lia || discriminate (Hx eq_refl).
Qed.

Lemma filtered_le_total (f : K -> bool) (l : flat_map K Z) :
  wf_weights l -> 0 <= zsum ((fun p => if f p.1 then p.2 else 0) <$> l) <= total l.
Proof. intros Hl. by apply (filtered_sum f (fun _ => true)). Qed.
End weights.

Lemma u32_le x : 0 <= x -> 0 <= u32 x <= x.
Proof.
  intros. unfold u32, wrap. split; [apply Z.mod_pos_bound; lia|apply Z.mod_le; lia].
Qed.

Section check.
Variables go ga gs : account_uid -> option authority.
Variable available : gset public_key.
Variable keys : gset public_key.
Variable pre : gset (account_uid * account_auth_type).
Notation get_auth := (get_by_uid_auth go ga gs).
Notation sat := (ref_sat go ga gs keys pre).
Notation appr := (ref_approved go ga gs keys pre).
Hypothesis Hwf : forall x a, get_auth x = Some a -> wf_authority a.

Lemma ref_sat_mono n m a :
  (n <= m)%nat -> wf_authority a -> sat n a = true -> sat m a = true.
Proof.
  revert m a. induction n as [|n IH]; intros m a Hnm Ha Hs;
    rewrite ref_sat_eq in Hs |- *; apply Z.leb_le in Hs; apply Z.leb_le;
    (eapply Z.le_trans; [exact Hs|]); apply Z.add_le_mono_l; apply filtered_sum;
    try apply Ha; unfold ref_approved; intros x Hx; apply orb_true_iff in Hx as [->|Hx]; try done.
  destruct m as [|m]; [lia|]. destruct (get_auth x) as [a'|] eqn:E; [|done].
  rewrite (IH m a'); [by rewrite orb_true_r|lia|eauto|done].
Qed.
Lemma ref_approved_mono n m x : (n <= m)%nat -> appr n x = true -> appr m x = true.
Proof.
  intros Hnm. unfold ref_approved. intros [->|Hx]%orb_true_iff; [done|].
  destruct n as [|n], m as [|m]; try done; [lia|].
  destruct (get_auth x) as [a'|] eqn:E; [|done].
  rewrite (ref_sat_mono n m a'); [by rewrite orb_true_r|lia|eauto|done].
Qed.

(** The state of a check in progress: the keys it can count are [keys], and
    its cache holds the pre-approved accounts and accounts the reference
    approves. *)
Definition check_inv (s : sign_state) : Prop :=
  dom (provided_signatures s) ∪ available = keys /\
  pre ⊆ approved_by_uid_auth s /\
  (forall x, x ∈ approved_by_uid_auth s -> exists m, appr m x = true).

Lemma signed_by_spec k s b s' :
  signed_by available k s = (b, s') -> check_inv s ->
  check_inv s' /\ b = bool_decide (k ∈ keys).
Proof.
  unfold signed_by, check_inv. intros Hs (Hk & Hp & Ha).
  destruct (provided_signatures s !! k) as [b0|] eqn:E; [|case_decide as Hav];
    injection Hs as <- <-; cbn.
  - apply elem_of_dom_2 in E. split; [rewrite dom_insert_L; set_solver|].
    symmetry. apply bool_decide_eq_true. set_solver.
  - split; [rewrite dom_insert_L; set_solver|].
    symmetry. apply bool_decide_eq_true. set_solver.
  - apply not_elem_of_dom in E. split; [done|].
    symmetry. apply bool_decide_eq_false. set_solver.
Qed.

(** The totals after a loop over weights summing to [w] of which [good]
    may be counted. *)
Definition loop_totals (thr w good : Z) (b : bool) (c c' : scan) : Prop :=
  total_weight c' <= total_weight c + good /\
  0 <= total_weight c' /\ 0 <= total_possible_weight c' /\
  if b then thr <= total_weight c'
  else total_weight c' < thr \/ total_weight c' = total_weight c.

Lemma key_loop_spec thr ks c b c' :
  key_loop available thr ks c = (b, c') ->
  check_inv (st c) -> wf_weights ks -> 0 <= total_weight c -> 0 <= total_possible_weight c ->
  check_inv (st c') /\
  loop_totals thr (total ks) (key_weight keys ks) b c c' /\
  (b = false -> total_weight c + total ks < 2 ^ 32 ->
   total_weight c' = total_weight c + key_weight keys ks).
Proof.
  revert c. induction ks as [|[kf w] ks IH]; intros c Hrun Hinv Hw Hc Hp; cbn in Hrun.
  { injection Hrun as <- <-. unfold loop_totals, key_weight; cbn.
    split_and!; [done|lia|done..|by right|intros; lia]. }
  apply Forall_cons in Hw as [Hw0 Hw]; cbn in Hw0.
  pose proof (total_nonneg _ Hw) as Htot.
  destruct (signed_by available kf (st c)) as [sg s1] eqn:Es.
  apply signed_by_spec in Es as [Hinv1 ->]; [|done].
  pose proof (u32_le (total_weight c + w) ltac:(lia)) as Hu.
  pose proof (u32_le (total_possible_weight c + w) ltac:(lia)) as Hup.
  assert (0 <= (if negb (kf =? 0) then u32 (total_possible_weight c + w)
                else total_possible_weight c)) as Hpos by (destruct (negb _); lia).
  assert (0 <= key_weight keys ks) as Hkw.
  { exact (proj1 (filtered_le_total (fun k => bool_decide (k ∈ keys)) ks Hw)). }
  change (key_weight keys ((kf, w) :: ks)) with
    ((if bool_decide (kf ∈ keys) then w else 0) + key_weight keys ks).
  change (total ((kf, w) :: ks)) with (w + total ks).
  case_bool_decide as Hk; [cbn [total_weight] in Hrun;
    destruct (Z.leb_spec thr (u32 (total_weight c + w)))|].
  - injection Hrun as <- <-. unfold loop_totals; cbn; split_and!; [done|lia..|done].
  - apply IH in Hrun as (Hi & (Ht1 & Ht2 & Ht3 & Ht4) & He);
      cbn in *; [|done..|lia|done].
    split_and!; [done| |].
    + unfold loop_totals. split_and!; [lia..|]. destruct b; [done|]. cbn in Ht4. lia.
    + intros Hb Hlt. rewrite (He Hb); [|lia]. unfold u32. rewrite wrap_small; [lia|]. split; lia.
  - apply IH in Hrun as (Hi & (Ht1 & Ht2 & Ht3 & Ht4) & He); cbn in *; [|done..].
    split_and!; [done| |].
    + unfold loop_totals. split_and!; [lia..|]. by destruct b.
    + intros Hb Hlt. rewrite (He Hb); lia.
Qed.

(** What a recursive check promises: it keeps the invariant, is sound, and
    accepts what the reference satisfies with [n] references. *)
Definition check_spec (n : nat) (check : option authority -> sign_tree -> sign_state ->
                                  verdict * sign_tree * sign_state) : Prop :=
  forall au par s v par' s', check au par s = (v, par', s') -> check_inv s ->
    (forall a, au = Some a -> wf_authority a) ->
    check_inv s' /\
    (v.1.1 = true -> exists a m, au = Some a /\ sat m a = true) /\
    (forall a, au = Some a -> sat n a = true -> v.1.1 = true).

Definition rec_spec (n : nat) rec : Prop :=
  match n, rec with
  | O, None => True
  | S n', Some check => check_spec n' check
  | _, _ => False
  end.

Lemma uid_weight_cons ok x w us :
  uid_weight ok ((x, w) :: us) = (if ok x then w else 0) + uid_weight ok us.
Proof. done. Qed.

Lemma uid_weight_mono n m us : (n <= m)%nat -> wf_weights us ->
  0 <= uid_weight (appr n) us <= uid_weight (appr m) us.
Proof. intros. apply filtered_sum; [done|]. intros. by eapply ref_approved_mono. Qed.

Lemma approve_inv x m s : check_inv s -> appr m x = true -> check_inv (approve x s).
Proof.
  intros (Hk & Hp & Ha) Hx. split; [done|]. cbn. split; [set_solver|].
  intros y [->%elem_of_singleton|Hy]%elem_of_union; eauto.
Qed.

Lemma appr_auth m x a : get_auth x = Some a -> sat m a = true -> appr (S m) x = true.
Proof. unfold ref_approved. intros -> ->. by rewrite orb_true_r. Qed.

(** The step of [uid_loop] that counts an approved account. *)
Lemma uid_step_count n rec thr x w us c c1 b c' M0 :
  (forall c b c', uid_loop go ga gs rec thr us c = (b, c') ->
    check_inv (st c) -> 0 <= total_weight c -> 0 <= total_possible_weight c ->
    check_inv (st c') /\
    (exists M, loop_totals thr (total us) (uid_weight (appr M) us) b c c') /\
    (b = false -> total_weight c + total us < 2 ^ 32 ->
     total_weight c + uid_weight (appr n) us <= total_weight c')) ->
  (if thr <=? total_weight c1 then (true, c1) else uid_loop go ga gs rec thr us c1) = (b, c') ->
  wf_weights ((x, w) :: us) -> 0 <= total_weight c -> 0 <= total_possible_weight c ->
  total_weight c1 = u32 (total_weight c + w) ->
  total_possible_weight c1 = u32 (total_possible_weight c + w) ->
  check_inv (st c1) -> appr M0 x = true ->
  check_inv (st c') /\
  (exists M, loop_totals thr (total ((x, w) :: us)) (uid_weight (appr M) ((x, w) :: us)) b c c') /\
  (b = false -> total_weight c + total ((x, w) :: us) < 2 ^ 32 ->
   total_weight c + uid_weight (appr n) ((x, w) :: us) <= total_weight c').
Proof.
  intros IH Hrun [Hw0 Hw]%Forall_cons Hc Hp Htw Htp Hinv HM0. cbn in Hw0.
  pose proof (total_nonneg _ Hw) as Htot.
  pose proof (u32_le (total_weight c + w) ltac:(lia)) as Hu.
  pose proof (u32_le (total_possible_weight c + w) ltac:(lia)) as Hup.
  destruct (Z.leb_spec thr (total_weight c1)).
  - injection Hrun as <- <-. split; [done|]. split; [|done].
    exists M0. pose proof (uid_weight_mono M0 M0 us ltac:(lia) Hw).
    unfold loop_totals. rewrite uid_weight_cons, HM0. repeat split; lia.
  - apply IH in Hrun as (Hi & (M & Ht1 & Ht2 & Ht3 & Ht4) & He); [|done|lia..].
    split; [done|]. split.
    + exists (Nat.max M0 M). pose proof (uid_weight_mono M (Nat.max M0 M) us ltac:(lia) Hw).
      unfold loop_totals. rewrite uid_weight_cons.
      rewrite (ref_approved_mono M0 (Nat.max M0 M) x) by (done || lia).
      split_and!; [lia..|]. destruct b; [done|]. lia.
    + intros Hb. change (total ((x, w) :: us)) with (w + total us). intros Hlt.
      assert (total_weight c1 = total_weight c + w) as Heq.
      { rewrite Htw. unfold u32. rewrite wrap_small; [done|]. split; lia. }
      specialize (He Hb ltac:(lia)). rewrite uid_weight_cons.
      destruct (appr n x); lia.
Qed.

Lemma uid_loop_spec n rec thr us c b c' :
  rec_spec n rec -> wf_weights us ->
  uid_loop go ga gs rec thr us c = (b, c') ->
  check_inv (st c) -> 0 <= total_weight c -> 0 <= total_possible_weight c ->
  check_inv (st c') /\
  (exists M, loop_totals thr (total us) (uid_weight (appr M) us) b c c') /\
  (b = false -> total_weight c + total us < 2 ^ 32 ->
   total_weight c + uid_weight (appr n) us <= total_weight c').
Proof.
  intros Hrec Hw. revert c b c'. induction us as [|[x w] us IH]; intros c b c' Hrun Hinv Hc Hp.
  { injection Hrun as <- <-. split; [done|]. split; [exists 0%nat|];
      unfold loop_totals, uid_weight; cbn; [split_and!; [lia|done..|by right]|intros; lia]. }
  specialize (IH (Forall_inv_tail Hw)). pose proof (Forall_inv Hw) as Hw0; cbn in Hw0.
  pose proof (total_nonneg _ (Forall_inv_tail Hw)) as Htot.
  (* an account that is not counted *)
  assert (forall c1, uid_loop go ga gs rec thr us c1 = (b, c') -> check_inv (st c1) ->
    total_weight c1 = total_weight c -> 0 <= total_possible_weight c1 -> appr n x = false ->
    check_inv (st c') /\
    (exists M, loop_totals thr (total ((x, w) :: us)) (uid_weight (appr M) ((x, w) :: us)) b c c') /\
    (b = false -> total_weight c + total ((x, w) :: us) < 2 ^ 32 ->
     total_weight c + uid_weight (appr n) ((x, w) :: us) <= total_weight c')) as Hskip.
  { intros c1 H1 Hi1 Htw Htp Hx.
    apply IH in H1 as (Hi & (M & Ht1 & Ht2 & Ht3 & Ht4) & He); [|done|lia..].
    split; [done|]. split.
    - exists M. unfold loop_totals. rewrite uid_weight_cons.
      split_and!; [destruct (appr M x); lia|lia..|]. destruct b; [done|]. lia.
    - intros Hb. change (total ((x, w) :: us)) with (w + total us). intros Hlt.
      specialize (He Hb ltac:(lia)). rewrite uid_weight_cons, Hx. lia. }
  cbn [uid_loop] in Hrun. case_decide as Hx.
  { destruct (proj2 (proj2 Hinv) _ Hx) as [M0 HM0].
    eapply uid_step_count; [exact IH|exact Hrun|done..|exact HM0]. }
  assert (x ∉ pre) as Hxp by (intros ?; apply Hx; by apply Hinv).
  destruct rec as [check|].
  - destruct n as [|n]; [done|]. cbn in Hrec.
    destruct (check (get_auth x) (new_tree x.1) (st c)) as [[v child] s1] eqn:Ec.
    destruct (Hrec _ _ _ _ _ _ Ec Hinv (Hwf x)) as (Hi1 & Hsound & Hcompl).
    destruct v as [[sat1 poss] missed]. cbn [fst snd] in *. destruct sat1.
    + destruct (Hsound eq_refl) as (a & m & Ea & Hm).
      pose proof (appr_auth _ _ _ Ea Hm).
      eapply uid_step_count; [exact IH|exact Hrun|done..| |eassumption].
      by eapply approve_inv.
    + pose proof (u32_le (total_possible_weight c + w) ltac:(lia)).
      eapply Hskip; [exact Hrun|done|done|cbn; destruct poss; lia|].
      unfold ref_approved. rewrite bool_decide_false by done. cbn.
      destruct (get_auth x) as [a|] eqn:Ea; [|done].
      destruct (sat n a) eqn:E; [|done]. by specialize (Hcompl a eq_refl E).
  - destruct n as [|n]; [|done]. eapply Hskip; [exact Hrun|done..|].
    unfold ref_approved. by rewrite bool_decide_false.
Qed.

Lemma check_authority_spec n : check_spec n (check_authority go ga gs available n).
Proof.
  induction n as [n IHn] using (well_founded_induction lt_wf).
  intros au par s v par' s' Hrun Hinv Hau.
  destruct au as [a|]; [|destruct n; injection Hrun as <- <- <-; cbn; naive_solver].
  assert (exists rec, rec_spec n rec /\ check_authority go ga gs available n (Some a) par s =
    let thr := weight_threshold a in
    let '(done1, c1) := key_loop available thr (key_auths a)
       {| total_weight := 0; total_possible_weight := 0; missed_keys := ∅; parent := par; st := s |} in
    if done1 then (approved, parent c1, st c1) else
    let '(done2, c2) := uid_loop go ga gs rec thr (account_uid_auths a) c1 in
    if done2 then (approved, parent c2, st c2) else
    if thr <=? total_possible_weight c2
    then ((thr <=? total_weight c2, true, missed_keys c2), parent c2, st c2)
    else (impossible, parent c2, st c2)) as (rec & Hrec & Heq).
  { destruct n as [|n]; [by exists None|].
    exists (Some (check_authority go ga gs available n)). split; [|done]. apply IHn. lia. }
  rewrite Heq in Hrun. clear Heq IHn. cbv zeta in Hrun.
  destruct (Hau a eq_refl) as (Hkw & Huw & Hsum).
  pose proof (total_nonneg _ Hkw). pose proof (total_nonneg _ Huw).
  destruct (key_loop _ _ _ _) as [b1 c1] eqn:E1.
  apply key_loop_spec in E1 as (Hi1 & (Ht1 & Ht2 & Ht3 & Ht4) & He1); [|done..].
  cbn [total_weight total_possible_weight st parent] in *.
  destruct b1.
  { injection Hrun as <- <- <-. split; [done|]. split; [|done]. intros _. exists a, 0%nat.
    split; [done|]. rewrite ref_sat_eq. apply Z.leb_le.
    pose proof (uid_weight_mono 0 0 (account_uid_auths a) ltac:(lia) Huw). lia. }
  destruct (uid_loop _ _ _ _ _ _ _) as [b2 c2] eqn:E2.
  eapply uid_loop_spec in E2 as (Hi2 & (M & Hu1 & Hu2 & Hu3 & Hu4) & He2); [|done..|lia|lia].
  assert (b2 = true \/ weight_threshold a <= total_weight c2 -> sat M a = true) as Hs.
  { intros Hb. rewrite ref_sat_eq. apply Z.leb_le. destruct b2; lia. }
  destruct b2; [injection Hrun as <- <- <-; cbn; eauto 10|].
  specialize (He1 eq_refl ltac:(lia)). specialize (He2 eq_refl).
  assert (sat n a = true -> weight_threshold a <= total_weight c2) as Hc.
  { rewrite ref_sat_eq. intros Hle%Z.leb_le. assert (total_weight c1 <= total (key_auths a)).
    { rewrite He1.
      exact (proj2 (filtered_le_total (fun k => bool_decide (k ∈ keys)) _ Hkw)). }
    specialize (He2 ltac:(lia)). lia. }
  destruct (Z.leb_spec (weight_threshold a) (total_possible_weight c2));
    injection Hrun as <- <- <-; cbn; (split; [done|]); split.
  - intros Hle%Z.leb_le. exists a, M. auto.
  - intros a' [= <-] Hn. apply Z.leb_le. auto.
  - done.
  - intros a' [= <-] Hn. specialize (Hc Hn). lia.
Qed.
End check.

(** ** Which signatures a check marks as used *)
Section marks.
Variables go ga gs : account_uid -> option authority.
Variable available : gset public_key.
Variable Q : public_key -> Prop.
Notation get_auth := (get_by_uid_auth go ga gs).

Definition marks (s : sign_state) : Prop :=
  forall k, provided_signatures s !! k = Some true -> Q k.

(** Every key the authority leads to satisfies [Q]. *)
Definition leads_to (a : authority) : Prop :=
  forall b k, reach go ga gs a b -> k ∈ get_keys b -> Q k.

Lemma signed_by_marks k s b s' :
  signed_by available k s = (b, s') -> Q k -> marks s -> marks s'.
Proof.
  unfold signed_by. intros Hs Hk Hm.
  destruct (provided_signatures s !! k) as [b0|]; [|case_decide];
    injection Hs as <- <-; intros k'; cbn; try apply Hm;
    rewrite lookup_insert_Some; intros [[<- _]|[_ ?]]; auto.
Qed.

Lemma key_loop_marks thr ks c b c' :
  key_loop available thr ks c = (b, c') ->
  (forall k, k ∈ ks.*1 -> Q k) -> marks (st c) -> marks (st c').
Proof.
  revert c. induction ks as [|[kf w] ks IH]; intros c Hrun HQ Hm.
  { by injection Hrun as <- <-. }
  cbn [key_loop] in Hrun. destruct (signed_by available kf (st c)) as [sg s1] eqn:Es.
  apply signed_by_marks in Es; [|apply HQ; left|done].
  destruct sg; [case_match; [by injection Hrun as <- <-|]|];
    (eapply IH; [exact Hrun|intros; apply HQ; by right|done]).
Qed.

Definition check_marks (check : option authority -> sign_tree -> sign_state ->
                                verdict * sign_tree * sign_state) : Prop :=
  forall au par s v par' s', check au par s = (v, par', s') ->
    (forall a, au = Some a -> leads_to a) -> marks s -> marks s'.

Lemma uid_loop_marks rec thr us c b c' :
  (forall check, rec = Some check -> check_marks check) ->
  uid_loop go ga gs rec thr us c = (b, c') ->
  (forall x w a, (x, w) ∈ us -> get_auth x = Some a -> leads_to a) ->
  marks (st c) -> marks (st c').
Proof.
  intros Hrec. revert c. induction us as [|[x w] us IH]; intros c Hrun HQ Hm.
  { by injection Hrun as <- <-. }
  assert (forall c1, uid_loop go ga gs rec thr us c1 = (b, c') -> marks (st c1) -> marks (st c'))
    as Hnext.
  { intros c1 H1 Hm1. eapply IH; [exact H1| |done]. intros y w' a Hy.
    eapply HQ. right. exact Hy. }
  cbn [uid_loop] in Hrun. case_decide.
  { case_match; [by injection Hrun as <- <-|]. by eapply Hnext. }
  destruct rec as [check|]; [|by eapply Hnext].
  destruct (check (get_auth x) (new_tree x.1) (st c)) as [[v child] s1] eqn:Ec.
  assert (marks s1) as Hm1.
  { apply (Hrec check eq_refl _ _ _ _ _ _ Ec); [|done]. intros a Ha. eapply HQ; [left|done]. }
  destruct v as [[sat1 poss] missed]. cbn [fst snd] in *.
  destruct sat1; [case_match; [by injection Hrun as <- <-|]|]; (eapply Hnext; [exact Hrun|done]).
Qed.

Lemma check_authority_marks n : check_marks (check_authority go ga gs available n).
Proof.
  induction n as [|n IH]; intros au par s v par' s' Hrun HQ Hm;
    (destruct au as [a|]; [|by injection Hrun as <- <- <-]);
    specialize (HQ a eq_refl); cbn -[key_loop uid_loop] in Hrun;
    (destruct (key_loop _ _ _ _) as [b1 c1] eqn:E1;
     apply key_loop_marks in E1; [|intros k Hk; by eapply HQ; [apply reach_refl|]|done]);
    (destruct b1; [by injection Hrun as <- <- <-|]);
    (destruct (uid_loop _ _ _ _ _ _ _) as [b2 c2] eqn:E2;
     eapply uid_loop_marks in E2; [|naive_solver|
       intros x w a' Hx Ha b k Hb Hk; eapply HQ; [by eapply reach_step|done]|done]);
    repeat case_match; by injection Hrun as <- <- <-.
Qed.
End marks.

(** ** [verify_authority] *)
Section verify.
Context {signature_type operation : Type}.
Variables TEMP COMMITTEE : account_uid.
Variable op_required : bool -> operation -> required -> required.
Variables go ga gs : account_uid -> option authority.
Notation get_auth := (get_by_uid_auth go ga gs).

Definition req_uids (r : required) (t : account_auth_type) : list account_uid :=
  match t with
  | owner_auth => req_owner r | active_auth => req_active r | secondary_auth => req_secondary r
  end.

(** The authorities a transaction must satisfy. *)
Definition required_authority (r : required) (a : authority) : Prop :=
  a ∈ req_other r \/ exists u t, u ∈ req_uids r t /\ get_auth (u, t) = Some a.

(** The account authorities granted without a signature. *)
Definition granted (o a s : list account_uid) : gset (account_uid * account_auth_type) :=
  {[ (TEMP, owner_auth); (TEMP, active_auth); (TEMP, secondary_auth) ]} ∪
  list_to_set ((fun u => (u, owner_auth)) <$> o) ∪
  list_to_set ((fun u => (u, active_auth)) <$> a) ∪
  list_to_set ((fun u => (u, secondary_auth)) <$> s).

Lemma pre_approve_eq t uids s :
  provided_signatures (pre_approve t uids s) = provided_signatures s /\
  approved_by_uid_auth (pre_approve t uids s) =
    approved_by_uid_auth s ∪ list_to_set ((fun u => (u, t)) <$> uids).
Proof.
  revert s. induction uids as [|u uids IH]; intros s; [cbn; by rewrite union_empty_r_L|].
  change (pre_approve t (u :: uids) s) with (pre_approve t uids (approve (u, t) s)).
  destruct (IH (approve (u, t) s)) as [-> ->]. split; [done|]. cbn. set_solver.
Qed.

Definition start_state (sig : gmap public_key signature_type) (o a s : list account_uid)
    : sign_state :=
  pre_approve secondary_auth s (pre_approve active_auth a
    (pre_approve owner_auth o (new_sign_state TEMP sig))).

Lemma start_state_inv sig o a s :
  check_inv go ga gs ∅ (dom sig) (granted o a s) (start_state sig o a s) /\
  marks (fun _ => False) (start_state sig o a s).
Proof.
  destruct (pre_approve_eq owner_auth o (new_sign_state TEMP sig)) as [P1 A1].
  destruct (pre_approve_eq active_auth a (pre_approve owner_auth o (new_sign_state TEMP sig)))
    as [P2 A2].
  destruct (pre_approve_eq secondary_auth s (pre_approve active_auth a
    (pre_approve owner_auth o (new_sign_state TEMP sig)))) as [P3 A3].
  fold (start_state sig o a s) in P3, A3. rewrite P2, P1 in P3. rewrite A2, A1 in A3.
  cbn in P3, A3. split; [split_and!|].
  - rewrite P3, dom_fmap_L, union_empty_r_L. done.
  - rewrite A3. done.
  - intros x Hx. exists 0%nat. unfold ref_approved. rewrite bool_decide_true; [done|].
    unfold granted. rewrite <- A3. done.
  - intros k. rewrite P3, lookup_fmap. by destruct (sig !! k).
Qed.

Section steps.
Variable keys : gset public_key.
Variable pre : gset (account_uid * account_auth_type).
Hypothesis Hwf : forall x a, get_auth x = Some a -> wf_authority a.
Notation inv := (check_inv go ga gs ∅ keys pre).
Notation appr := (ref_approved go ga gs keys pre).
Notation sat := (ref_sat go ga gs keys pre).

Lemma check_uid_auth_spec n x s v s' :
  check_uid_auth go ga gs ∅ n x s = (v, s') -> inv s ->
  inv s' /\ (v.1.1 = true -> exists m, appr m x = true) /\
  (appr (S n) x = true -> v.1.1 = true).
Proof.
  unfold check_uid_auth. intros Hrun Hinv. case_decide as Hx.
  { injection Hrun as <- <-. split; [done|]. split; [|done]. intros _. by apply Hinv. }
  destruct (check_authority _ _ _ _ _ _ _ _) as [[v1 par] s1] eqn:Ec.
  destruct (check_authority_spec go ga gs ∅ keys pre Hwf n _ _ _ _ _ _ Ec Hinv (Hwf x))
    as (Hi & Hs & Hc).
  assert (inv s' /\ v = v1) as [Hi' ->].
  { destruct v1.1.1; injection Hrun as <- <-; [split; [exact Hi|done]|done]. }
  split; [done|]. split.
  - intros Hv. destruct (Hs Hv) as (a & m & Ha & Hm). exists (S m). by eapply appr_auth.
  - unfold ref_approved. rewrite bool_decide_false; [|intros ?; apply Hx; by apply Hinv].
    cbn. destruct (get_auth x) as [a|]; [|done]. intros Hn. by apply (Hc a).
Qed.

Lemma require_uids_spec n t uids s :
  inv s ->
  (forall s', require_uids go ga gs n t uids s = Ok s' ->
     inv s' /\ forall u, u ∈ uids -> exists m, appr m (u, t) = true) /\
  ((forall u, u ∈ uids -> appr (S n) (u, t) = true) ->
   exists s', require_uids go ga gs n t uids s = Ok s').
Proof.
  revert s. induction uids as [|u uids IH]; intros s Hinv; cbn [require_uids].
  { split; [|eauto]. intros s' [= <-]. split; [done|]. intros u Hu. by apply elem_of_nil in Hu. }
  destruct (check_uid_auth _ _ _ _ _ _ _) as [v s1] eqn:Ec.
  apply check_uid_auth_spec in Ec as (Hi & Hs & Hc); [|done].
  destruct (IH s1 Hi) as [IH1 IH2]. destruct v.1.1.
  - split.
    + intros s' Hrun. destruct (IH1 s' Hrun) as [Hi' Hu]. split; [done|].
      intros u' [->|Hu']%elem_of_cons; auto.
    + intros Ha. apply IH2. intros u' Hu'. apply Ha. by right.
  - split; [by case_match|]. intros Ha. discriminate Hc. apply Ha. left.
Qed.

Lemma require_others_spec n auths s :
  inv s -> (forall a, a ∈ auths -> wf_authority a) ->
  (forall s', require_others go ga gs n auths s = Ok s' ->
     inv s' /\ forall a, a ∈ auths -> exists m, sat m a = true) /\
  ((forall a, a ∈ auths -> sat n a = true) ->
   exists s', require_others go ga gs n auths s = Ok s').
Proof.
  revert s. induction auths as [|a auths IH]; intros s Hinv Hw; cbn [require_others].
  { split; [|eauto]. intros s' [= <-]. split; [done|]. intros u Hu. by apply elem_of_nil in Hu. }
  destruct (check_authority _ _ _ _ _ _ _ _) as [[v par] s1] eqn:Ec.
  destruct (check_authority_spec go ga gs ∅ keys pre Hwf n _ _ _ _ _ _ Ec Hinv)
    as (Hi & Hs & Hc). { intros ? [= <-]. apply Hw. left. }
  destruct (IH s1 Hi) as [IH1 IH2]. { intros; apply Hw; by right. }
  destruct v.1.1.
  - split.
    + intros s' Hrun. destruct (IH1 s' Hrun) as [Hi' Ha]. split; [done|].
      intros a' [->|Ha']%elem_of_cons; [|auto]. destruct (Hs eq_refl) as (? & m & [= <-] & ?). eauto.
    + intros Ha. apply IH2. intros a' Ha'. apply Ha. by right.
  - split; [done|]. intros Ha. discriminate (Hc a eq_refl). apply Ha. left.
Qed.
End steps.

Lemma require_uids_marks Q n t uids s s' :
  (forall u a, u ∈ uids -> get_auth (u, t) = Some a -> leads_to go ga gs Q a) ->
  require_uids go ga gs n t uids s = Ok s' -> marks Q s -> marks Q s'.
Proof.
  revert s. induction uids as [|u uids IH]; intros s HQ Hrun Hm; cbn [require_uids] in Hrun.
  { by injection Hrun as <-. }
  destruct (check_uid_auth _ _ _ _ _ _ _) as [v s1] eqn:Ec.
  assert (marks Q s1) as Hm1.
  { unfold check_uid_auth in Ec. case_decide; [by injection Ec as <- <-|].
    destruct (check_authority _ _ _ _ _ _ _ _) as [[v1 par] s2] eqn:E2.
    assert (marks Q s2).
    { apply (check_authority_marks _ _ _ _ Q _ _ _ _ _ _ _ E2); [|done].
      intros a. apply HQ. left. }
    destruct v1.1.1; injection Ec as <- <-; done. }
  destruct v.1.1; [|by case_match].
  apply (IH s1); [|done..]. intros u' a Hu'. apply HQ. by right.
Qed.

Lemma require_others_marks Q n auths s s' :
  (forall a, a ∈ auths -> leads_to go ga gs Q a) ->
  require_others go ga gs n auths s = Ok s' -> marks Q s -> marks Q s'.
Proof.
  revert s. induction auths as [|a auths IH]; intros s HQ Hrun Hm; cbn [require_others] in Hrun.
  { by injection Hrun as <-. }
  destruct (check_authority _ _ _ _ _ _ _ _) as [[v1 par] s2] eqn:E2.
  assert (marks Q s2).
  { apply (check_authority_marks _ _ _ _ Q _ _ _ _ _ _ _ E2); [|done].
    intros ? [= <-]. apply HQ. left. }
  destruct v1.1.1; [|done]. apply (IH s2); [|done..]. intros a' Ha. apply HQ. by right.
Qed.

Lemma remove_unused_none s :
  (remove_unused_signatures s).1 = false ->
  forall k, k ∈ dom (provided_signatures s) -> provided_signatures s !! k = Some true.
Proof.
  cbn. intros Hn%negb_false_iff%Nat.eqb_eq%length_zero_iff_nil k [b Hb]%elem_of_dom.
  destruct b; [done|]. exfalso.
  assert (k ∈ get_unused_signature_keys s) as Hk.
  { unfold get_unused_signature_keys. apply list_elem_of_fmap. exists (k, false).
    split; [done|]. apply list_elem_of_filter. split; [done|]. by apply elem_of_map_to_list. }
  rewrite Hn in Hk. by apply elem_of_nil in Hk.
Qed.

(** Every required authority is satisfied according to the reference, and every
    key belongs to an authority that a required one leads to. *)
Definition all_granted (r : required) (keys : gset public_key) (pre : gset (account_uid * account_auth_type)) : Prop :=
  (forall u t, u ∈ req_uids r t -> exists m, ref_approved go ga gs keys pre m (u, t) = true) /\
  (forall au, au ∈ req_other r -> exists m, ref_sat go ga gs keys pre m au = true) /\
  (forall k, k ∈ keys -> exists au b, required_authority r au /\ reach go ga gs au b /\ k ∈ get_keys b).
Lemma verify_grants ops (sig : gmap public_key signature_type) hf n allow o a s si :
  (forall x au, get_auth x = Some au -> wf_authority au) ->
  (forall au, au ∈ req_other (get_required_uid_authorities op_required hf ops) -> wf_authority au) ->
  verify_authority TEMP COMMITTEE op_required go ga gs ops sig hf n allow o a s = Ok si ->
  let r := get_required_uid_authorities op_required hf ops in
  (allow = true \/ COMMITTEE ∉ req_active r) /\ all_granted r (dom sig) (granted o a s).
Proof.
  intros Hwf Hother. unfold verify_authority. set (r := get_required_uid_authorities _ _ _) in *.
  intros Hrun. apply bind_ok in Hrun as ([] & Hc & Hrun). apply guard_ok_inv in Hc.
  apply bind_ok in Hrun as (s1 & H1 & Hrun). apply bind_ok in Hrun as (s2 & H2 & Hrun).
  apply bind_ok in Hrun as (s3 & H3 & Hrun). apply bind_ok in Hrun as (s4 & H4 & Hrun).
  destruct (start_state_inv sig o a s) as [Hi0 Hm0].
  fold (start_state sig o a s) in H1.
  destruct (proj1 (require_uids_spec _ _ Hwf n _ _ _ Hi0) _ H1) as [Hi1 Hr1].
  destruct (proj1 (require_uids_spec _ _ Hwf n _ _ _ Hi1) _ H2) as [Hi2 Hr2].
  destruct (proj1 (require_uids_spec _ _ Hwf n _ _ _ Hi2) _ H3) as [Hi3 Hr3].
  destruct (proj1 (require_others_spec _ _ Hwf n _ _ Hi3 Hother) _ H4) as [Hi4 Hr4].
  set (Q := fun k => exists au b,
     required_authority r au /\ reach go ga gs au b /\ k ∈ get_keys b).
  assert (marks Q (start_state sig o a s)) as HQ0 by (intros k Hk; by destruct (Hm0 k)).
  assert (forall t u au, u ∈ req_uids r t -> get_by_uid_auth go ga gs (u, t) = Some au ->
            leads_to go ga gs Q au) as HQ.
  { intros t u au Hu Hau b k Hb Hk. exists au, b. split; [right; eauto|done]. }
  apply (require_uids_marks Q) in H1; [|exact (HQ owner_auth)|done].
  apply (require_uids_marks Q) in H2; [|exact (HQ active_auth)|done].
  apply (require_uids_marks Q) in H3; [|exact (HQ secondary_auth)|done].
  apply (require_others_marks Q) in H4; [|
    intros au Hau b k Hb Hk; exists au, b; split; [by left|done]|done].
  unfold all_granted. split_and!.
  - apply orb_true_iff in Hc as [Hc|Hc]; [auto|]. right. by apply bool_decide_eq_true in Hc.
  - intros u []; auto.
  - done.
  - intros k Hk. apply H4. destruct (remove_unused_signatures s4) as [rem s5] eqn:E.
    apply bind_ok in Hrun as ([] & Hrem & _). apply guard_ok_inv, negb_true_iff in Hrem.
    apply remove_unused_none; [by rewrite E|]. destruct Hi4 as [Hd _].
    by rewrite union_empty_r_L in Hd; rewrite Hd.
Qed.
End verify.
