(* ===== verification/AuthorityClaims.v ===== *)
(** * What the signature check of a transaction guarantees

    The theorems on [verify_authority], [check_authority] and
    [get_signature_keys], with concrete runs as witnesses. *)
From S2P Require Import Prelude FlatMap Authority AuthorityProof.
Local Open Scope Z_scope.
Import auth.

(** C11. [verify_authority] is sound: when it returns, the committee account
    is not among the required active accounts unless allowed, every required
    owner, active and secondary authority is satisfied by the keys that signed
    (the stateless reference approves it), so is every further authority, and
    no signature is irrelevant: each signing key belongs to an authority a
    required authority leads to. *)
Theorem verify_authority_sound {signature_type operation : Type}
    (TEMP COMMITTEE : account_uid) (op_required : bool -> operation -> required -> required)
    (go ga gs : account_uid -> option authority)
    ops (sig : gmap public_key signature_type) hf n allow o a s si :
  (forall x au, get_by_uid_auth go ga gs x = Some au -> wf_authority au) ->
  (forall au, au ∈ req_other (get_required_uid_authorities op_required hf ops) -> wf_authority au) ->
  verify_authority TEMP COMMITTEE op_required go ga gs ops sig hf n allow o a s = Ok si ->
  let r := get_required_uid_authorities op_required hf ops in
  let pre := granted TEMP o a s in
  (allow = true \/ COMMITTEE ∉ req_active r) /\
  (forall u t, u ∈ req_uids r t -> exists m, ref_approved go ga gs (dom sig) pre m (u, t) = true) /\
  (forall au, au ∈ req_other r -> exists m, ref_sat go ga gs (dom sig) pre m au = true) /\
  (forall k, k ∈ dom sig -> exists au b,
     required_authority go ga gs r au /\ reach go ga gs au b /\ k ∈ get_keys b).
Proof.
  intros Hwf Hother H. exact (verify_grants TEMP COMMITTEE op_required go ga gs ops sig hf n allow o a s si Hwf Hother H).
Qed.

(** A concrete transaction: account 10 must sign with its active authority,
    two of key 7 and the active authority of account 11, whose key is 8. *)
Definition ex_auth10 : authority := Authority 2 [((11, active_auth), 1)] [(7, 1)].
Definition ex_auth11 : authority := Authority 1 [] [(8, 1)].
Definition ex_get (u : account_uid) : option authority :=
  if u =? 10 then Some ex_auth10 else if u =? 11 then Some ex_auth11 else None.
Definition ex_required (hf : bool) (u : Z) (r : required) : required :=
  {| req_owner := req_owner r; req_active := fs_insert u (req_active r);
     req_secondary := req_secondary r; req_other := req_other r |}.
Definition ex_sigs : gmap public_key Z := {[ 7 := 700; 8 := 800 ]}.

Lemma ex_get_wf x au : get_by_uid_auth ex_get ex_get ex_get x = Some au -> wf_authority au.
Proof.
  assert (ex_get x.1 = Some au -> wf_authority au) as H.
  { unfold ex_get. repeat case_match; intros [= <-];
      unfold wf_authority, wf_weights, total; cbn; repeat constructor; cbn; lia. }
  destruct x as [u []]; exact H.
Qed.

Lemma verify_authority_sound_witness :
  exists si, verify_authority 1285 311 ex_required ex_get ex_get ex_get [10] ex_sigs
               true 2 false [] [] [] = Ok si /\
  (exists m, ref_approved ex_get ex_get ex_get (dom ex_sigs) (granted 1285 [] [] []) m
               (10, active_auth) = true).
Proof.
  assert (is_ok (verify_authority 1285 311 ex_required ex_get ex_get ex_get [10] ex_sigs
               true 2 false [] [] []) = true) as Hok by (vm_compute; reflexivity).
  destruct (verify_authority _ _ _ _ _ _ _ _ _ _ _ _ _ _) as [si|e] eqn:E; [|discriminate Hok].
  exists si. split; [reflexivity|].
  pose proof (verify_authority_sound 1285 311 ex_required ex_get ex_get ex_get [10] ex_sigs
    true 2 false [] [] [] si ex_get_wf) as H.
  specialize (H ltac:(intros au Hau; cbn in Hau; by apply elem_of_nil in Hau) E).
  apply H. cbn. apply list_elem_of_here.
Defined.

(** C12. [verify_authority] is complete up to its recursion limit: when the
    committee rule holds and the stateless reference satisfies every required
    authority following at most the allowed number of account references, the
    only reason left to reject the transaction is an irrelevant signature. *)
Theorem verify_authority_complete {signature_type operation : Type}
    (TEMP COMMITTEE : account_uid) (op_required : bool -> operation -> required -> required)
    (go ga gs : account_uid -> option authority)
    ops (sig : gmap public_key signature_type) hf n allow o a s :
  let r := get_required_uid_authorities op_required hf ops in
  let pre := granted TEMP o a s in
  (forall x au, get_by_uid_auth go ga gs x = Some au -> wf_authority au) ->
  (forall au, au ∈ req_other r -> wf_authority au) ->
  (allow = true \/ COMMITTEE ∉ req_active r) ->
  (forall u t, u ∈ req_uids r t -> ref_approved go ga gs (dom sig) pre (S n) (u, t) = true) ->
  (forall au, au ∈ req_other r -> ref_sat go ga gs (dom sig) pre n au = true) ->
  (exists si, verify_authority TEMP COMMITTEE op_required go ga gs ops sig hf n allow o a s = Ok si)
  \/ verify_authority TEMP COMMITTEE op_required go ga gs ops sig hf n allow o a s
     = Throw tx_irrelevant_sig.
Proof.
  intros r pre Hwf Hother Hcom Hreq Hoth. unfold verify_authority. fold r.
  fold (start_state TEMP sig o a s).
  assert (allow || bool_decide (COMMITTEE ∉ req_active r) = true) as ->.
  { apply orb_true_iff. destruct Hcom; [auto|right; by apply bool_decide_eq_true]. }
  destruct (start_state_inv TEMP go ga gs sig o a s) as [Hi0 _].
  assert (forall t st, check_inv go ga gs ∅ (dom sig) pre st -> exists st',
    require_uids go ga gs n t (req_uids r t) st = Ok st' /\
    check_inv go ga gs ∅ (dom sig) pre st') as Hstep.
  { intros t st Hi. destruct (require_uids_spec go ga gs _ _ Hwf n t (req_uids r t) st Hi) as [H1 H2].
    destruct H2 as [st' Hst']; [auto|]. exists st'. split; [done|]. by apply H1. }
  destruct (Hstep owner_auth _ Hi0) as (s1 & E1 & Hi1).
  destruct (Hstep active_auth _ Hi1) as (s2 & E2 & Hi2).
  destruct (Hstep secondary_auth _ Hi2) as (s3 & E3 & Hi3).
  destruct (proj2 (require_others_spec go ga gs _ _ Hwf n _ _ Hi3 Hother) Hoth) as (s4 & E4).
  cbn [req_uids] in E1, E2, E3. cbn [guard_ok mbind result_bind].
  rewrite E1; cbn [mbind result_bind]. rewrite E2; cbn [mbind result_bind].
  rewrite E3; cbn [mbind result_bind]. rewrite E4; cbn [mbind result_bind].
  destruct (remove_unused_signatures s4) as [[] s5]; [right|left; eexists]; reflexivity.
Qed.

Lemma verify_authority_complete_witness :
  (exists si, verify_authority 1285 311 ex_required ex_get ex_get ex_get [10] ex_sigs
                true 2 false [] [] [] = Ok si)
  \/ verify_authority 1285 311 ex_required ex_get ex_get ex_get [10] ex_sigs
                true 2 false [] [] [] = Throw tx_irrelevant_sig.
Proof.
  apply (verify_authority_complete 1285 311 ex_required ex_get ex_get ex_get [10] ex_sigs
    true 2 false [] [] [] ex_get_wf).
  - intros au Hau. cbn in Hau. by apply elem_of_nil in Hau.
  - right. vm_compute. intros H. inversion H as [|? ? ? H']; subst. inversion H'.
  - intros u [] Hu; cbn in Hu; try by apply elem_of_nil in Hu.
    apply list_elem_of_singleton in Hu as ->. vm_compute. reflexivity.
  - intros au Hau. cbn in Hau. by apply elem_of_nil in Hau.
Defined.

(** The recovered signers of a transaction: duplicate signers are
    rejected, and nothing else is; the result maps exactly the recovered keys
    to the signatures they come from. *)
Theorem get_signature_keys_spec {signature_type : Type}
    (recover : signature_type -> public_key) (sl : list signature_type) :
  match get_signature_keys recover sl ∅ with
  | Ok m => NoDup (recover <$> sl) /\
            forall k x, m !! k = Some x <-> x ∈ sl /\ recover x = k
  | Throw e => e = tx_duplicate_sig /\ ~ NoDup (recover <$> sl)
  end.
Proof.
  assert (forall acc, match get_signature_keys recover sl acc with
    | Ok m => NoDup (recover <$> sl) /\ (forall x, x ∈ sl -> acc !! recover x = None) /\
        forall k x, m !! k = Some x <-> acc !! k = Some x \/ x ∈ sl /\ recover x = k
    | Throw e => e = tx_duplicate_sig /\
        ((forall x, x ∈ sl -> acc !! recover x = None) -> ~ NoDup (recover <$> sl))
    end) as H.
  { induction sl as [|x0 sl IH]; intros acc; cbn [get_signature_keys].
    { split_and!; [constructor|intros x Hx; by apply elem_of_nil in Hx|].
      intros k x. rewrite elem_of_nil. tauto. }
    destruct (acc !! recover x0) eqn:E0.
    { split; [done|]. intros Hf. specialize (Hf x0 (list_elem_of_here _ _)). congruence. }
    specialize (IH (<[recover x0 := x0]> acc)).
    destruct (get_signature_keys _ _ _) as [m|e].
    - destruct IH as (Hnd & Hfresh & Hm).
      assert (recover x0 ∉ recover <$> sl) as Hnot.
      { intros (x & Hx & Hin)%list_elem_of_fmap. specialize (Hfresh x Hin).
        by rewrite <- Hx, lookup_insert_eq in Hfresh. }
      split_and!.
      + cbn. by constructor.
      + intros x [->|Hin]%elem_of_cons; [done|]. specialize (Hfresh x Hin).
        by apply lookup_insert_None in Hfresh as [? _].
      + intros k x. rewrite Hm, lookup_insert_Some, elem_of_cons. split.
        * intros [[[<- <-]|[_ H]]|[H1 H2]]; auto.
        * intros [H|[[->|H1] <-]]; [|by auto..].
          left. right. split; [congruence|done].
    - destruct IH as [-> Hdup]. split; [done|]. intros Hfresh Hnd. cbn in Hnd.
      apply NoDup_cons in Hnd as [Hnot Hnd]. apply Hdup; [|done]. intros x Hin.
      apply lookup_insert_None. split; [apply Hfresh; by right|].
      intros Heq. apply Hnot. rewrite Heq. by apply list_elem_of_fmap_2. }
  specialize (H ∅). destruct (get_signature_keys _ _ _) as [m|e].
  - destruct H as (Hnd & _ & Hm). split; [done|]. intros k x. rewrite Hm, lookup_empty.
    split; [|auto]. by intros [|].
  - destruct H as [-> Hd]. split; [done|]. apply Hd. intros. apply lookup_empty.
Qed.
