(* ===== verification/Asset.v ===== *)
(** * Assets and prices (protocol/asset.hpp, protocol/asset.cpp)

    An [asset] is an amount of an asset type; a [price] is a ratio of two
    assets.  Amounts are [share_type] (checked 64-bit integers), products go
    through 128-bit integers (see [FcInt]). *)
From S2P Require Import Prelude FcInt.
Local Open Scope Z_scope.

(** [GRAPHENE_MAX_SHARE_SUPPLY], [GRAPHENE_CORE_ASSET_AID]. *)
Notation MAX_SHARE_SUPPLY := 1000000000000000.
Notation CORE_ASSET_AID := 0.

Module asset.

Record asset := Asset { amount : Z; asset_id : Z }.
#[global] Instance asset_eq_dec : EqDecision asset.
Proof. solve_decision. Defined.

Record price := Price { base : asset; quote : asset }.
#[global] Instance price_eq_dec : EqDecision price.
Proof. solve_decision. Defined.

Section ops.
Context {F : FcInt}.

Definition same_asset (a b : asset) : bool := asset_id a =? asset_id b.

(** [operator+=], [operator-=], [operator+], [operator-], unary [-]. *)
Definition add (a o : asset) : result asset :=
  guard_ok (same_asset a o) assert_exception ;;
  x ← safe_add (amount a) (amount o); mret (Asset x (asset_id a)).
Definition sub (a o : asset) : result asset :=
  guard_ok (same_asset a o) assert_exception ;;
  x ← safe_sub (amount a) (amount o); mret (Asset x (asset_id a)).
Definition neg (a : asset) : result asset :=
  x ← safe_neg (amount a); mret (Asset x (asset_id a)).

(** The comparisons of assets. *)
Definition eqb (a b : asset) : bool := same_asset a b && (amount a =? amount b).
Definition ltb (a b : asset) : result bool :=
  guard_ok (same_asset a b) assert_exception ;; mret (amount a <? amount b).
Definition leb (a b : asset) : result bool :=
  if eqb a b then mret true else ltb a b.
Definition gtb (a b : asset) : result bool := x ← leb a b; mret (negb x).
Definition geb (a b : asset) : result bool := x ← ltb a b; mret (negb x).

(** [scaled_precision_lut] and [asset::scaled_precision]. *)
Fixpoint p10 (n : nat) : Z := match n with O => 1 | S n' => 10 * p10 n' end.
Definition scaled_precision_lut : list Z := p10 <$> seq 0 19.
Definition scaled_precision (precision : Z) : result Z :=
  guard_ok (precision <? 19) assert_exception ;;
  deref (scaled_precision_lut !! Z.to_nat precision) undefined_behaviour.

(** The comparisons of prices. *)
Definition amult (a b : price) : Z := u128_mul (u128_of (amount (quote b))) (amount (base a)).
Definition bmult (a b : price) : Z := u128_mul (u128_of (amount (quote a))) (amount (base b)).

Definition price_eqb (a b : price) : bool :=
  (asset_id (base a) =? asset_id (base b)) && (asset_id (quote a) =? asset_id (quote b)) &&
  (amult a b =? bmult a b).
Definition price_ltb (a b : price) : bool :=
  if asset_id (base a) <? asset_id (base b) then true
  else if asset_id (base b) <? asset_id (base a) then false
  else if asset_id (quote a) <? asset_id (quote b) then true
  else if asset_id (quote b) <? asset_id (quote a) then false
  else amult a b <? bmult a b.
Definition price_leb (a b : price) : bool := price_eqb a b || price_ltb a b.
Definition price_gtb (a b : price) : bool := negb (price_leb a b).
Definition price_geb (a b : price) : bool := negb (price_ltb a b).

Definition is_null (p : price) : bool :=
  price_eqb p (Price (Asset 0 CORE_ASSET_AID) (Asset 0 CORE_ASSET_AID)).
Definition validate (p : price) : result unit :=
  guard_ok (0 <? amount (base p)) assert_exception ;;
  guard_ok (0 <? amount (quote p)) assert_exception ;;
  guard_ok (negb (asset_id (base p) =? asset_id (quote p))) assert_exception.

(** [operator/], [operator~], [price::max], [price::min], [unit_price]. *)
Definition div (b q : asset) : result price :=
  guard_ok (negb (asset_id b =? asset_id q)) assert_exception ;; mret (Price b q).
Definition inv (p : price) : price := Price (quote p) (base p).
Definition price_max (b q : Z) : result price := div (Asset MAX_SHARE_SUPPLY b) (Asset 1 q).
Definition price_min (b q : Z) : result price := div (Asset 1 b) (Asset MAX_SHARE_SUPPLY q).
Definition unit_price (a : Z) : price := Price (Asset 1 a) (Asset 1 a).

(** [operator*]: convert at the price, rounding down. *)
Definition convert_down (x num den id : Z) : result asset :=
  guard_ok (0 <? den) assert_exception ;;
  r ← u128_div (u128_mul (u128_of x) num) den;
  guard_ok (r <=? MAX_SHARE_SUPPLY) assert_exception ;;
  mret (Asset (u128_to_i64 r) id).
Definition mul (a : asset) (b : price) : result asset :=
  if asset_id a =? asset_id (base b)
  then convert_down (amount a) (amount (quote b)) (amount (base b)) (asset_id (quote b))
  else if asset_id a =? asset_id (quote b)
  then convert_down (amount a) (amount (base b)) (amount (quote b)) (asset_id (base b))
  else Throw assert_exception.

(** [asset::multiply_and_round_up]. *)
Definition convert_up (x num den id : Z) : result asset :=
  guard_ok (0 <? den) assert_exception ;;
  r ← u128_div (u128_sub (u128_add (u128_mul (u128_of x) num) den) 1) den;
  guard_ok (r <=? MAX_SHARE_SUPPLY) assert_exception ;;
  mret (Asset (u128_to_i64 r) id).
Definition multiply_and_round_up (a : asset) (b : price) : result asset :=
  if asset_id a =? asset_id (base b)
  then convert_up (amount a) (amount (quote b)) (amount (base b)) (asset_id (quote b))
  else if asset_id a =? asset_id (quote b)
  then convert_up (amount a) (amount (base b)) (amount (quote b)) (asset_id (base b))
  else Throw assert_exception.
End ops.

(** ** Conversions *)
Section conversion.
Context {F : FcInt} {FL : FcIntLaws F}.

Definition is_amount (x : Z) : Prop := 0 <= x < 2 ^ 63.
(** A price that passed [validate]. *)
Definition valid_price (p : price) : Prop :=
  0 < amount (base p) < 2 ^ 63 /\ 0 < amount (quote p) < 2 ^ 63 /\
  asset_id (base p) <> asset_id (quote p).

Lemma mul_fits x y : is_amount x -> is_amount y -> 0 <= x * y < 2 ^ 126.
Proof. unfold is_amount. nia. Qed.

Lemma u128_product x y :
  is_amount x -> is_amount y -> u128_mul (u128_of x) y = x * y.
Proof.
  intros Hx Hy. pose proof (mul_fits x y Hx Hy). unfold is_amount in *.
  rewrite u128_of_small, u128_mul_small; lia.
Qed.

Definition bounded (v id : Z) : result asset :=
  if v <=? MAX_SHARE_SUPPLY then Ok (Asset v id) else Throw assert_exception.

Lemma finish v id : 0 <= v ->
  (guard_ok (v <=? MAX_SHARE_SUPPLY) assert_exception ;;
   mret (Asset (u128_to_i64 v) id)) = bounded v id.
Proof.
  intros Hv. unfold bounded. destruct (Z.leb_spec v MAX_SHARE_SUPPLY); [|done].
  cbn. unfold mret, result_ret. rewrite u128_to_i64_law; [done|lia].
Qed.

Lemma convert_down_eq x num den id :
  is_amount x -> is_amount num -> 0 < den ->
  convert_down x num den id = bounded (x * num / den) id.
Proof.
  intros Hx Hn Hd. unfold convert_down. rewrite (proj2 (Z.ltb_lt 0 den)) by done.
  cbn [guard_ok mbind result_bind]. rewrite u128_product by done.
  rewrite u128_div_law by done. cbn [mbind result_bind]. apply finish.
  apply Z.div_pos; [|done]. apply (mul_fits x num); done.
Qed.

Lemma convert_up_eq x num den id :
  is_amount x -> is_amount num -> 0 < den < 2 ^ 63 ->
  convert_up x num den id = bounded ((x * num + den - 1) / den) id.
Proof.
  intros Hx Hn Hd. unfold convert_up. rewrite (proj2 (Z.ltb_lt 0 den)) by lia.
  cbn [guard_ok mbind result_bind]. rewrite u128_product by done.
  pose proof (mul_fits x num Hx Hn).
  rewrite u128_add_small, u128_sub_small by lia. rewrite u128_div_law by lia.
  cbn [mbind result_bind]. apply finish. apply Z.div_pos; lia.
Qed.

Lemma bounded_ok v id r : bounded v id = Ok r <-> v <= MAX_SHARE_SUPPLY /\ r = Asset v id.
Proof. unfold bounded. destruct (Z.leb_spec v MAX_SHARE_SUPPLY); naive_solver lia. Qed.

(** Rounding the result of a floored conversion back up does not exceed the
    original amount and converts to the same result. *)
Lemma floor_ceil_floor x num den :
  0 <= x -> 0 < num -> 0 < den ->
  let r := x * num / den in
  let x' := (r * den + num - 1) / num in
  0 <= x' <= x /\ x' * num / den = r.
Proof.
  intros Hx Hn Hd r x'.
  assert (0 <= r) as Hr by (apply Z.div_pos; nia).
  assert (den * r <= x * num) as Hle by (by apply Z.mul_div_le).
  assert (0 <= x') as H0 by (apply Z.div_pos; nia).
  assert (x' <= x) as H1.
  { apply Z.lt_succ_r. apply Z.div_lt_upper_bound; nia. }
  split; [done|]. apply Z.le_antisymm.
  - apply Z.div_le_mono; nia.
  - apply Z.div_le_lower_bound; [done|].
    assert (r * den + num - 1 < num * Z.succ x') by (by apply Z.mul_succ_div_gt). nia.
Qed.

Lemma convert_round_trip x num den id id' r :
  is_amount x -> x <= MAX_SHARE_SUPPLY -> 0 < num < 2 ^ 63 -> 0 < den < 2 ^ 63 ->
  convert_down x num den id = Ok r ->
  amount r = x * num / den /\ asset_id r = id /\
  exists x', convert_up (amount r) den num id' = Ok (Asset x' id') /\ 0 <= x' <= x /\
             convert_down x' num den id = Ok r.
Proof.
  intros Hx Hmax Hn Hd. rewrite convert_down_eq by (unfold is_amount in *; lia).
  rewrite bounded_ok. intros [Hb ->]. cbn.
  pose proof (floor_ceil_floor x num den ltac:(apply Hx) ltac:(lia) ltac:(lia)) as [H1 H2].
  assert (0 <= x * num / den) by (apply Z.div_pos; unfold is_amount in *; nia).
  split_and!; [done..|]. eexists. split; [|split; [exact H1|]].
  - rewrite convert_up_eq by (unfold is_amount in *; lia). apply bounded_ok. split; [lia|done].
  - rewrite convert_down_eq by (unfold is_amount in *; lia). rewrite H2. by apply bounded_ok.
Qed.
End conversion.

(** C14. Converting at a valid price rounds down and stays within the share
    supply; rounding the proceeds back up at the same price never asks for
    more than was converted, always succeeds, and the rounded-back amount
    still buys exactly the same proceeds.  (The matching engine charges the
    rounded-back amount.) *)
Theorem price_conversion_round_trip {F : FcInt} {FL : FcIntLaws F} (a : asset) (p : price) (r : asset) :
  valid_price p -> 0 <= amount a <= MAX_SHARE_SUPPLY ->
  mul a p = Ok r ->
  0 <= amount r <= MAX_SHARE_SUPPLY /\
  (asset_id a = asset_id (base p) /\ asset_id r = asset_id (quote p) /\
     amount r = amount a * amount (quote p) / amount (base p) \/
   asset_id a = asset_id (quote p) /\ asset_id r = asset_id (base p) /\
     amount r = amount a * amount (base p) / amount (quote p)) /\
  exists a', multiply_and_round_up r p = Ok a' /\ asset_id a' = asset_id a /\
    0 <= amount a' <= amount a /\ mul a' p = Ok r.
Proof.
  intros (Hb & Hq & Hne) Ha. unfold mul, multiply_and_round_up.
  assert (is_amount (amount a)) as Ham by (unfold is_amount; lia).
  destruct (Z.eqb_spec (asset_id a) (asset_id (base p))) as [Hid|Hid];
    [|destruct (Z.eqb_spec (asset_id a) (asset_id (quote p))) as [Hid'|Hid']; [|done]];
    intros Hrun; pose proof Hrun as Hd;
    rewrite convert_down_eq in Hd by (unfold is_amount in *; lia); apply bounded_ok in Hd as [Hmax _].
  - eapply convert_round_trip with (id' := asset_id a) in Hrun
      as (Hamt & Hrid & x' & Hup & Hx' & Hdown); [|done|lia..].
    rewrite Hamt, Hrid in *. split; [split; [apply Z.div_pos; lia|done]|]. split; [auto|].
    exists (Asset x' (asset_id a)). cbn.
    destruct (Z.eqb_spec (asset_id (quote p)) (asset_id (base p))); [congruence|].
    rewrite Z.eqb_refl, <- Hid, Z.eqb_refl. auto.
  - eapply convert_round_trip with (id' := asset_id a) in Hrun
      as (Hamt & Hrid & x' & Hup & Hx' & Hdown); [|done|lia..].
    rewrite Hamt, Hrid in *. split; [split; [apply Z.div_pos; lia|done]|]. split; [auto|].
    exists (Asset x' (asset_id a)). cbn. rewrite <- Hid'.
    rewrite Z.eqb_refl, (proj2 (Z.eqb_neq _ _) Hid), Z.eqb_refl. auto.
Qed.

Lemma price_conversion_round_trip_witness :
  let p := Price (Asset 3 0) (Asset 7 1) in
  exists a', multiply_and_round_up (F := fc_checked) (Asset 9 1) p = Ok a' /\ asset_id a' = 0 /\
    0 <= amount a' <= 4 /\ mul (F := fc_checked) a' p = Ok (Asset 9 1).
Proof.
  refine (proj2 (proj2 (@price_conversion_round_trip fc_checked fc_checked_laws (Asset 4 0)
    (Price (Asset 3 0) (Asset 7 1)) (Asset 9 1) _ _ _))).
  - unfold valid_price; cbn; lia.
  - cbn; lia.
  - vm_compute; reflexivity.
Defined.

(** The order of valid prices is the order of the ratios within a market. *)
Section price_order.
Context {F : FcInt} {FL : FcIntLaws F}.

Lemma price_mults a b : valid_price a -> valid_price b ->
  amult a b = amount (quote b) * amount (base a) /\
  bmult a b = amount (quote a) * amount (base b).
Proof.
  unfold valid_price. intros Ha Hb. unfold amult, bmult.
  by rewrite !u128_product by (unfold is_amount; lia).
Qed.

Definition price_lt_spec (a b : price) : Prop :=
  asset_id (base a) < asset_id (base b) \/
  asset_id (base a) = asset_id (base b) /\
  (asset_id (quote a) < asset_id (quote b) \/
   asset_id (quote a) = asset_id (quote b) /\
   amount (base a) * amount (quote b) < amount (base b) * amount (quote a)).

Lemma price_ltb_lt a b : valid_price a -> valid_price b ->
  price_ltb a b = true <-> price_lt_spec a b.
Proof.
  intros Ha Hb. unfold price_ltb, price_lt_spec. destruct (price_mults a b Ha Hb) as [-> ->].
  repeat (case_match; bool_to_prop); rewrite ?Z.ltb_lt; split; try done; lia.
Qed.
Lemma price_eqb_eq a b : valid_price a -> valid_price b ->
  price_eqb a b = true <->
  asset_id (base a) = asset_id (base b) /\ asset_id (quote a) = asset_id (quote b) /\
  amount (base a) * amount (quote b) = amount (base b) * amount (quote a).
Proof.
  intros Ha Hb. unfold price_eqb. destruct (price_mults a b Ha Hb) as [-> ->].
  rewrite !andb_true_iff, !Z.eqb_eq. lia.
Qed.

Lemma ratio_trans (b1 q1 b2 q2 b3 q3 : Z) :
  0 < q1 -> 0 < q2 -> 0 < q3 ->
  b1 * q2 <= b2 * q1 -> b2 * q3 < b3 * q2 -> b1 * q3 < b3 * q1.
Proof. intros. nia. Qed.
End price_order.

(** The comparison of valid prices is a strict weak order, as the ordered
    order-book index needs: no price is below itself, the order is transitive,
    exactly one of [<], [==], [>] holds of two prices, and equal prices are
    interchangeable. *)
Theorem price_order_strict_weak {F : FcInt} {FL : FcIntLaws F} (a b c : price) :
  valid_price a -> valid_price b -> valid_price c ->
  price_ltb a a = false /\
  (price_ltb a b = true -> price_ltb b c = true -> price_ltb a c = true) /\
  (price_eqb a b = true -> price_ltb b c = true -> price_ltb a c = true) /\
  (price_ltb a b = true /\ price_eqb a b = false /\ price_ltb b a = false \/
   price_ltb a b = false /\ price_eqb a b = true /\ price_ltb b a = false \/
   price_ltb a b = false /\ price_eqb a b = false /\ price_ltb b a = true).
Proof.
  intros Ha Hb Hc.
  assert (0 < amount (quote a) /\ 0 < amount (quote b) /\ 0 < amount (quote c)) as (Qa & Qb & Qc)
    by (unfold valid_price in *; lia).
  pose proof (ratio_trans (amount (base a)) (amount (quote a)) (amount (base b)) (amount (quote b))
    (amount (base c)) (amount (quote c)) Qa Qb Qc) as Htr.
  rewrite !price_eqb_eq, !price_ltb_lt by done. split_and!.
  - apply not_true_iff_false. rewrite price_ltb_lt by done. unfold price_lt_spec. lia.
  - unfold price_lt_spec. lia.
  - unfold price_lt_spec. lia.
  - rewrite <- !not_true_iff_false, !price_ltb_lt, !price_eqb_eq by done.
    unfold price_lt_spec. lia.
Qed.
End asset.
