(* ===== verification/Pledge.v ===== *)
(** * Pledge balances (account_object.hpp, db_update.cpp)

    A [pledge_balance_object] holds a pledge and the part of it that is being
    released, keyed by the block number at which each part becomes available.
    [update_pledge] moves amounts between the two; [release_due] is the inner
    loop of [database::process_pledge_balance_release]. *)
From S2P Require Import Prelude FcInt FlatMap Asset.
Local Open Scope Z_scope.
Import asset.

(** [ENABLE_HEAD_FORK_NONE], [_04], [_05]. *)
Notation HEAD_FORK_NONE := 0.
Notation HEAD_FORK_04 := 1.
Notation HEAD_FORK_05 := 2.

Module pledge.

Inductive pledge_balance_type := Witness | Commitment | Platform | Lock_balance | Mine.
#[global] Instance pledge_balance_type_eq_dec : EqDecision pledge_balance_type.
Proof. solve_decision. Defined.

Record pledge_balance_object := {
  superior_index : Z;
  type : pledge_balance_type;
  pb_asset_id : Z;
  pledge : Z;
  total_releasing_pledge : Z;
  releasing_pledges : flat_map Z Z;
}.

Definition set_pledge (x : Z) (p : pledge_balance_object) :=
  {| superior_index := superior_index p; type := type p; pb_asset_id := pb_asset_id p;
     pledge := x; total_releasing_pledge := total_releasing_pledge p;
     releasing_pledges := releasing_pledges p |}.
Definition set_releasing (t : Z) (m : flat_map Z Z) (p : pledge_balance_object) :=
  {| superior_index := superior_index p; type := type p; pb_asset_id := pb_asset_id p;
     pledge := pledge p; total_releasing_pledge := t; releasing_pledges := m |}.

Section ops.
Context {F : FcInt}.

Definition earliest_release_block_number (p : pledge_balance_object) : Z :=
  match releasing_pledges p with [] => 2 ^ 32 - 1 | (k, _) :: _ => k end.
Definition last_release_block_number (p : pledge_balance_object) : Z :=
  match last (releasing_pledges p) with None => 2 ^ 32 - 1 | Some (k, _) => k end.

Definition total_unrelease_pledge (p : pledge_balance_object) : result Z :=
  safe_add (pledge p) (total_releasing_pledge p).

(** The database parameters [new_releasing] reads. *)
Definition max_releasing_size (enabled_hardfork_version max_pledge_releasing_size : Z) : Z :=
  if enabled_hardfork_version <? HEAD_FORK_05 then 1 else u16 max_pledge_releasing_size.

Definition new_releasing (new_releasing_pledge : asset) (new_relase_num max : Z)
    (p : pledge_balance_object) : result pledge_balance_object :=
  guard_ok (asset_id new_releasing_pledge =? pb_asset_id p) assert_exception ;;
  let m := releasing_pledges p in
  let size := Z.of_nat (length m) in
  m' ← (if size =? max then
          (* --end() of an empty map *)
          '(k, last_releasing_pledge) ← deref (last m) undefined_behaviour;
          v ← safe_add last_releasing_pledge (amount new_releasing_pledge);
          mret (fm_set new_relase_num v (fm_erase k m))
        else if size <? max then
          v ← safe_add (default 0 (fm_find new_relase_num m)) (amount new_releasing_pledge);
          mret (fm_set new_relase_num v m)
        else Throw assert_exception);
  t ← safe_add (total_releasing_pledge p) (amount new_releasing_pledge);
  mret (set_releasing t m' p).

(** The loop of [reduce_releasing], over the entries from the last one. *)
Fixpoint reduce_loop (entries : flat_map Z Z) (amt erase_from : Z) (m : flat_map Z Z)
    : result (Z * flat_map Z Z) :=
  match entries with
  | [] => mret (erase_from, m)
  | (k, v) :: entries' =>
      if v <=? amt then
        amt' ← safe_sub amt v; reduce_loop entries' amt' k m
      else
        v' ← safe_sub v amt; mret (erase_from, fm_set k v' m)
  end.

Definition reduce_releasing (amt : Z) (p : pledge_balance_object)
    : result pledge_balance_object :=
  guard_ok (amt <=? total_releasing_pledge p) assert_exception ;;
  t ← safe_sub (total_releasing_pledge p) amt;
  '(erase_from, m) ← reduce_loop (rev (releasing_pledges p)) amt (2 ^ 32 - 1) (releasing_pledges p);
  let m' := if erase_from =? 2 ^ 32 - 1 then m else filter (fun e => e.1 < erase_from) m in
  mret (set_releasing t m' p).

(** Returns the amount to take from the account balance.  The callers of
    [new_releasing] pass a plain amount, which converts to an amount of the
    core asset. *)
Definition update_pledge (new_pledge : asset) (new_relase_num max : Z)
    (p : pledge_balance_object) : result (Z * pledge_balance_object) :=
  guard_ok (asset_id new_pledge =? pb_asset_id p) assert_exception ;;
  unrelease ← total_unrelease_pledge p;
  delta ← safe_sub (amount new_pledge) unrelease;
  delta_releasing ← safe_sub (pledge p) (amount new_pledge);
  let p := set_pledge (amount new_pledge) p in
  if 0 <=? delta then mret (delta, set_releasing 0 [] p)
  else
    p' ← (if 0 <? delta_releasing
          then new_releasing (Asset delta_releasing CORE_ASSET_AID) new_relase_num max p
          else d ← safe_neg delta_releasing; reduce_releasing d p);
    mret (0, p').

(** The inner loop of [process_pledge_balance_release]: everything due at
    [head_num] leaves the object; [delta] is the released sum. *)
Fixpoint release_loop (m : flat_map Z Z) (head_num total delta : Z)
    : result (flat_map Z Z * Z * Z) :=
  match m with
  | [] => mret (m, total, delta)
  | (k, v) :: m' =>
      if k <=? head_num then
        guard_ok (v <=? total) assert_exception ;;
        total' ← safe_sub total v;
        delta' ← safe_add delta v;
        release_loop m' head_num total' delta'
      else mret (m, total, delta)
  end.
Definition release_due (head_num : Z) (p : pledge_balance_object)
    : result (Z * pledge_balance_object) :=
  guard_ok (0 <=? pledge p) assert_exception ;;
  '(m, total, delta) ← release_loop (releasing_pledges p) head_num (total_releasing_pledge p) 0;
  mret (delta, set_releasing total m p).
End ops.

(** ** The invariant of a pledge balance

    The releasing entries are in key order, not negative, keyed by 32-bit block
    numbers below the maximum, and their sum is [total_releasing_pledge]. *)
Definition releasing_sum (p : pledge_balance_object) : Z := zsum (releasing_pledges p).*2.

Definition entry_ok (e : Z * Z) : Prop := 0 <= e.1 < 2 ^ 32 - 1 /\ 0 <= e.2.
Definition pledge_inv (p : pledge_balance_object) : Prop :=
  0 <= pledge p /\ fm_sorted (releasing_pledges p) /\ Forall entry_ok (releasing_pledges p) /\
  releasing_sum p = total_releasing_pledge p.

Section lemmas.
Implicit Types m : flat_map Z Z.

Lemma sum_nonneg m : Forall entry_ok m -> 0 <= zsum m.*2.
Proof. induction 1 as [|[k v] m [_ Hv] _ IH]; cbn in *; lia. Qed.

Lemma fm_sorted_app m1 m2 : fm_sorted (m1 ++ m2) <->
  fm_sorted m1 /\ fm_sorted m2 /\ (forall a b, a ∈ m1 -> b ∈ m2 -> a.1 < b.1).
Proof.
  induction m1 as [|[k v] m1 IH]; cbn.
  { split; [intros; split_and!; [done..|]|by intros (_ & ? & _)].
    intros a b Ha. by apply elem_of_nil in Ha. }
  rewrite IH, Forall_app. unfold key_ltb, Z_key_order. rewrite !Forall_forall.
  setoid_rewrite Z.ltb_lt. split.
  - intros ([H1 H2] & H3 & H4 & H5). split_and!; try done.
    intros a b [->|Ha]%elem_of_cons Hb; [by apply H2|by apply H5].
  - intros ([H1 H2] & H3 & H4). split_and!; try done.
    + intros b Hb. apply (H4 (k, v)); [left|done].
    + intros a b Ha Hb. apply H4; [by right|done].
Qed.

Lemma key_above (a b : Z) : a < b -> key_ltb b a = false /\ key_ltb a b = true.
Proof. intros. split; [apply Z.ltb_ge|apply Z.ltb_lt]; lia. Qed.

(** Setting a key not below the others. *)
Lemma fm_set_top k v m :
  (forall e, e ∈ m -> e.1 < k) -> fm_set k v m = m ++ [(k, v)].
Proof.
  induction m as [|[k0 v0] m IH]; intros Hm; [done|].
  pose proof (Hm (k0, v0) (list_elem_of_here _ _)) as H0. cbn in *.
  destruct (key_above k0 k H0) as [-> ->].
  rewrite IH; [done|]. intros e He. apply Hm. by right.
Qed.
Lemma fm_erase_last k v m :
  (forall e, e ∈ m -> e.1 < k) -> fm_erase k (m ++ [(k, v)]) = m.
Proof.
  induction m as [|[k1 v1] m IH]; intros Hm; cbn.
  { by rewrite !key_irrefl. }
  pose proof (Hm (k1, v1) (list_elem_of_here _ _)) as H0. cbn in *.
  destruct (key_above k1 k H0) as [-> ->].
  rewrite IH; [done|]. intros e He. apply Hm. by right.
Qed.

Lemma sum_snoc m k v : zsum (m ++ [(k, v)]).*2 = zsum m.*2 + v.
Proof. rewrite fmap_app, zsum_app. cbn. lia. Qed.

Lemma sum_fm_set k x w m :
  fm_find k m = Some w -> zsum (fm_set k x m).*2 = zsum m.*2 - w + x.
Proof.
  induction m as [|[k1 v1] m IH]; cbn; [done|].
  destruct (key_ltb k k1); [done|]. destruct (key_ltb k1 k).
  - intros H. cbn. rewrite IH by done. lia.
  - intros [= ->]. cbn. lia.
Qed.

Lemma filter_keeps (P : Z * Z -> Prop) `{forall x, Decision (P x)} m :
  (forall e, e ∈ m -> P e) -> filter P m = m.
Proof.
  induction m as [|x m IH]; intros Hm; [done|].
  rewrite filter_cons_True by (apply Hm, list_elem_of_here). f_equal.
  apply IH. intros e He. apply Hm. by right.
Qed.
Lemma filter_drops (P : Z * Z -> Prop) `{forall x, Decision (P x)} m :
  (forall e, e ∈ m -> ~ P e) -> filter P m = [].
Proof.
  induction m as [|x m IH]; intros Hm; [done|].
  rewrite filter_cons_False by (apply Hm, list_elem_of_here).
  apply IH. intros e He. apply Hm. by right.
Qed.
End lemmas.

(** ** The operations *)
Section spec.
Context {F : FcInt} {FL : FcIntLaws F}.

Lemma safe_add_eq a b : - 2 ^ 63 <= a + b < 2 ^ 63 -> safe_add a b = Ok (a + b).
Proof. intros. by apply safe_add_ok. Qed.
Lemma safe_sub_eq a b : - 2 ^ 63 <= a - b < 2 ^ 63 -> safe_sub a b = Ok (a - b).
Proof. intros. by apply safe_sub_ok. Qed.

(** The releasing entries of an object that satisfies the invariant, with sum [t]. *)
Definition entries_inv (m : flat_map Z Z) (t : Z) : Prop :=
  fm_sorted m /\ Forall entry_ok m /\ zsum m.*2 = t.


Lemma entries_inv_unsnoc m k v t :
  entries_inv (m ++ [(k, v)]) t ->
  entries_inv m (t - v) /\ entry_ok (k, v) /\ (forall e, e ∈ m -> e.1 < k) /\ 0 <= t - v.
Proof.
  intros (Hs & Hf & Ht). rewrite sum_snoc in Ht. apply fm_sorted_app in Hs as (Hs & _ & Hk).
  apply Forall_app in Hf as [Hf [Hv _]%Forall_cons]. pose proof (sum_nonneg _ Hf).
  split_and!; try done; try lia.
  - split_and!; [done..|lia].
  - intros e He. apply (Hk e (k, v)); [done|]. apply list_elem_of_here.
Qed.


#[local] Instance zsum_permutation : Proper (Permutation ==> eq) zsum.
Proof. intros l l'. apply zsum_perm. Qed.




Lemma release_loop_spec m head t d :
  entries_inv m t -> 0 <= d -> d + t < 2 ^ 63 ->
  exists due rest, m = due ++ rest /\
    release_loop m head t d = Ok (rest, t - zsum due.*2, d + zsum due.*2) /\
    entries_inv rest (t - zsum due.*2) /\
    (forall e, e ∈ due -> e.1 <= head) /\ (forall e, e ∈ rest -> head < e.1).
Proof.
  revert t d. induction m as [|[k v] m IH]; intros t d (Hs & Hf & Ht) Hd Hb; cbn [release_loop].
  { exists [], []. cbn. rewrite Z.sub_0_r, Z.add_0_r. split_and!; try done;
      intros e He; by apply elem_of_nil in He. }
  destruct Hs as [Hk Hs]. apply Forall_cons in Hf as [[Hk0 Hv] Hf]. cbn in Hk0, Hv, Ht.
  pose proof (sum_nonneg _ Hf). destruct (Z.leb_spec k head).
  - rewrite (proj2 (Z.leb_le _ _)) by lia. cbn [guard_ok mbind result_bind].
    rewrite safe_sub_eq by lia. cbn [mbind result_bind]. rewrite safe_add_eq by lia.
    cbn [mbind result_bind].
    destruct (IH (t - v) (d + v)) as (due & rest & -> & Hr & Hi & H1 & H2);
      [split_and!; [done..|lia]|lia|lia|].
    exists ((k, v) :: due), rest. cbn. rewrite Hr.
    replace (t - (v + zsum due.*2)) with (t - v - zsum due.*2) by lia.
    replace (d + (v + zsum due.*2)) with (d + v + zsum due.*2) by lia.
    split_and!; try done. intros e [->|He]%elem_of_cons; [done|auto].
  - exists [], ((k, v) :: m). cbn. rewrite Z.sub_0_r, Z.add_0_r. split_and!; try done.
    + split_and!; [done|by constructor; [split|]|cbn; lia].
    + intros e He. by apply elem_of_nil in He.
    + rewrite Forall_forall in Hk. intros e [->|He]%elem_of_cons; [done|].
      specialize (Hk e He). apply Z.ltb_lt in Hk. lia.
Qed.
End spec.


Definition ex_pledge : pledge_balance_object :=
  {| superior_index := 10; type := Witness; pb_asset_id := 0; pledge := 500;
     total_releasing_pledge := 30; releasing_pledges := [(100, 10); (200, 20)] |}.

Lemma ex_pledge_inv : pledge_inv ex_pledge.
Proof.
  split_and!; cbn; [lia| |by repeat constructor; cbn; lia|reflexivity].
  split; [by repeat constructor|]. by repeat constructor.
Qed.


(** Releasing what is due at the head block: it succeeds on an object
    satisfying the invariant, removes exactly the entries due, returns their
    sum, takes it from what the object holds and leaves only later entries. *)
Theorem release_due_spec {F : FcInt} {FL : FcIntLaws F} (head : Z) (p : pledge_balance_object) :
  pledge_inv p -> total_releasing_pledge p < 2 ^ 63 ->
  exists delta p', release_due head p = Ok (delta, p') /\ pledge_inv p' /\
    pledge p' = pledge p /\
    total_releasing_pledge p' = total_releasing_pledge p - delta /\
    releasing_pledges p' = filter (fun e => head < e.1) (releasing_pledges p) /\
    delta = zsum (filter (fun e => e.1 <= head) (releasing_pledges p)).*2 /\
    (releasing_pledges p' <> [] -> head < earliest_release_block_number p').
Proof.
  intros (Hp & Hs & Hf & Hsum) Hb. unfold release_due.
  rewrite (proj2 (Z.leb_le _ _)) by lia. cbn [guard_ok mbind result_bind].
  destruct (release_loop_spec (releasing_pledges p) head (total_releasing_pledge p) 0)
    as (due & rest & Hm & -> & (Hs' & Hf' & Hsum') & H1 & H2); [by split_and!|lia|lia|].
  cbn [mbind result_bind]. eexists _, _. split; [reflexivity|].
  unfold pledge_inv, releasing_sum. cbn. rewrite Hm.
  assert (filter (fun e : Z * Z => head < e.1) (due ++ rest) = rest) as ->.
  { rewrite filter_app, (filter_keeps _ rest), (filter_drops _ due); try done.
    intros e He. specialize (H1 e He). lia. }
  assert (filter (fun e : Z * Z => e.1 <= head) (due ++ rest) = due) as ->.
  { rewrite filter_app, (filter_keeps _ due), (filter_drops _ rest); [apply app_nil_r| |done].
    intros e He. specialize (H2 e He). lia. }
  split_and!; try done. unfold earliest_release_block_number. cbn.
  destruct rest as [|[k v] rest]; [done|]. intros _. apply (H2 (k, v)), list_elem_of_here.
Qed.

Lemma release_due_spec_witness :
  exists delta p', release_due (F := fc_checked) 150 ex_pledge = Ok (delta, p') /\ delta = 10.
Proof.
  destruct (@release_due_spec fc_checked fc_checked_laws 150 ex_pledge) as (delta & p' & H & _ & _ & _ & _ & Hd & _).
  - exact ex_pledge_inv.
  - cbn; lia.
  - exists delta, p'. split; [exact H|]. rewrite Hd. reflexivity.
Defined.

(** C18. Reducing a pledge can lose coins: when the release queue is full and
    the new release block is already pending with amount [w] but is not the
    last one, the entry is overwritten.  The update succeeds, the object still
    counts the coins as releasing, but no entry releases [w] of them. *)
Theorem update_pledge_can_lose_releasing {F : FcInt} {FL : FcIntLaws F} (new : asset) (num max : Z)
    (p : pledge_balance_object) (m : flat_map Z Z) (k v w : Z) :
  pledge_inv p -> pb_asset_id p = CORE_ASSET_AID -> asset_id new = CORE_ASSET_AID ->
  0 <= amount new < pledge p -> pledge p + total_releasing_pledge p < 2 ^ 62 ->
  releasing_pledges p = m ++ [(k, v)] -> fm_find num m = Some w ->
  Z.of_nat (length (releasing_pledges p)) = max ->
  exists p', update_pledge new num max p = Ok (0, p') /\ pledge p' = amount new /\
    total_releasing_pledge p' = total_releasing_pledge p + (pledge p - amount new) /\
    releasing_sum p' = total_releasing_pledge p' - w.
Proof.
  intros (Hp & Hs & Hf & Ht) Hid Hnid Hn Hmax Hm Hw Hlen.
  assert (entries_inv (releasing_pledges p) (total_releasing_pledge p)) as Hinv by done.
  rewrite Hm in Hinv. apply entries_inv_unsnoc in Hinv as ((_ & _ & Hsum) & [_ Hv] & Hlt & Hr). cbn in Hv.
  unfold update_pledge, total_unrelease_pledge. rewrite Hid, Hnid. cbn [guard_ok mbind result_bind Z.eqb].
  rewrite safe_add_eq by lia. cbn [mbind result_bind]. rewrite !safe_sub_eq by lia.
  cbn [mbind result_bind]. rewrite (proj2 (Z.leb_gt _ _)), (proj2 (Z.ltb_lt _ _)) by lia.
  unfold new_releasing. cbn [set_pledge pb_asset_id releasing_pledges total_releasing_pledge asset_id amount].
  rewrite Hid, Hlen, Z.eqb_refl, Hm, last_snoc. cbn [guard_ok deref mbind result_bind Z.eqb].
  rewrite safe_add_eq by lia. cbn [mbind result_bind]. rewrite safe_add_eq by lia.
  eexists. split; [reflexivity|]. split_and!; [done..|]. unfold releasing_sum. cbn.
  rewrite (fm_erase_last _ _ _ Hlt), (sum_fm_set _ _ _ _ Hw). lia.
Qed.

Lemma update_pledge_can_lose_releasing_witness :
  exists p', @update_pledge fc_checked (Asset 300 CORE_ASSET_AID) 100 2 ex_pledge = Ok (0, p') /\
    total_releasing_pledge p' = 230 /\ releasing_sum p' = 220.
Proof.
  destruct (@update_pledge_can_lose_releasing fc_checked fc_checked_laws (Asset 300 CORE_ASSET_AID)
    100 2 ex_pledge [(100, 10)] 200 20 10) as (p' & H & _ & Ht & Hs);
    [exact ex_pledge_inv|try reflexivity; try (cbn; lia)..|].
  exists p'. split; [exact H|]. rewrite Hs, Ht. cbn. lia.
Defined.
End pledge.
