(* ===== verification/Parameters.v ===== *)
(** * Parameters of the chain and proposals to change them
      (protocol/chain_parameters.hpp, protocol/committee_member.hpp and .cpp,
      committee_member_object.cpp)

    The committee can change most parameters of the chain, the fees and the
    priviledges of accounts.  A proposal is a list of items; how many of the
    committee must approve depends on what the items change. *)
From S2P Require Import Prelude FlatMap.
Local Open Scope Z_scope.

(** [GRAPHENE_100_PERCENT]. *)
Notation PERCENT_100 := 10000.
Module parameters.

(** The members of [extension_parameter_type] that concern contents, awards,
    advertisements and contracts. *)
Record extension_parameter_type := {
  content_award_interval : Z;
  platform_award_interval : Z;
  max_csaf_per_approval : Z;
  approval_expiration : Z;
  min_effective_csaf : Z;
  total_content_award_amount : Z;
  total_platform_content_award_amount : Z;
  total_platform_voted_award_amount : Z;
  platform_award_min_votes : Z;
  platform_award_requested_rank : Z;
  platform_award_basic_rate : Z;
  casf_modulus : Z;
  post_award_expiration : Z;
  approval_casf_min_weight : Z;
  approval_casf_first_rate : Z;
  approval_casf_second_rate : Z;
  receiptor_award_modulus : Z;
  disapprove_award_modulus : Z;
  advertising_confirmed_fee_rate : Z;
  advertising_confirmed_min_fee : Z;
  custom_vote_effective_time : Z;
  registrar_referrer_rate_from_score : Z;
  scorer_earnings_rate : Z;
  platform_content_award_min_votes : Z;
  trx_cpu_limit : Z;
  block_cpu_limit : Z;
  max_inter_contract_depth : Z;
  max_inline_action_size : Z;
}.
#[global] Instance extension_parameter_type_fields : Fields extension_parameter_type :=
  of_ctor Build_extension_parameter_type
  <*> content_award_interval <*> platform_award_interval <*> max_csaf_per_approval
  <*> approval_expiration <*> min_effective_csaf <*> total_content_award_amount
  <*> total_platform_content_award_amount <*> total_platform_voted_award_amount
  <*> platform_award_min_votes <*> platform_award_requested_rank <*> platform_award_basic_rate
  <*> casf_modulus <*> post_award_expiration <*> approval_casf_min_weight
  <*> approval_casf_first_rate <*> approval_casf_second_rate <*> receiptor_award_modulus
  <*> disapprove_award_modulus <*> advertising_confirmed_fee_rate
  <*> advertising_confirmed_min_fee <*> custom_vote_effective_time
  <*> registrar_referrer_rate_from_score <*> scorer_earnings_rate
  <*> platform_content_award_min_votes <*> trx_cpu_limit <*> block_cpu_limit
  <*> max_inter_contract_depth <*> max_inline_action_size.

(** [chain_parameters]; the other members of [extension_parameter_type] stand
    beside its own. *)
Record chain_parameters := {
  csaf_rate : Z;
  max_csaf_per_account : Z;
  csaf_accumulate_window : Z;
  min_governance_voting_balance : Z;
  max_governance_voting_proxy_level : nat;
  governance_voting_expiration_blocks : Z;
  governance_votes_update_interval : Z;
  max_governance_votes_seconds : Z;
  max_witness_pledge_seconds : Z;
  witness_avg_pledge_update_interval : Z;
  by_vote_top_witness_count : nat;
  by_vote_rest_witness_count : nat;
  by_pledge_witness_count : nat;
  block_interval : Z;
  maintenance_skip_slots : Z;
  content_award_skip_slots : Z;
  max_pledge_releasing_size : Z;
  unlocked_balance_release_delay : Z;
  csaf_limit_lock_balance_modulus : Z;
  min_witness_block_produce_pledge : Z;
  by_pledge_witness_pay_param : Z;
  maintenance_interval : Z;
  by_vote_top_witness_pay_per_block : Z;
  by_vote_rest_witness_pay_per_block : Z;
  max_witness_inactive_blocks : Z;
  budget_adjust_interval : Z;
  budget_adjust_target : Z;
  committee_size : Z;
  committee_update_interval : Z;
  min_witness_pledge : Z;
  witness_pledge_release_delay : Z;
  max_witnesses_voted_per_account : Z;
  min_mining_pledge : Z;
  mining_pledge_release_delay : Z;
  max_pledge_mining_bonus_rate : Z;
  witness_report_prosecution_period : Z;
  witness_report_allow_pre_last_block : bool;
  witness_report_pledge_deduction_amount : Z;
  maximum_asset_whitelist_authorities : Z;
  platform_max_pledge_seconds : Z;
  platform_avg_pledge_update_interval : Z;
  maximum_transaction_size : Z;
  maximum_block_size : Z;
  maximum_time_until_expiration : Z;
  maximum_authority_membership : Z;
  max_authority_depth : Z;
  min_committee_member_pledge : Z;
  committee_member_pledge_release_delay : Z;
  platform_min_pledge : Z;
  platform_pledge_release_delay : Z;
  platform_max_vote_per_account : Z;
  max_committee_members_voted_per_account : Z;
  allow_non_member_whitelists : bool;
  extension_parameters : extension_parameter_type;
}.
#[global] Instance chain_parameters_fields : Fields chain_parameters :=
  of_ctor Build_chain_parameters
  <*> csaf_rate <*> max_csaf_per_account <*> csaf_accumulate_window
  <*> min_governance_voting_balance <*> max_governance_voting_proxy_level
  <*> governance_voting_expiration_blocks <*> governance_votes_update_interval
  <*> max_governance_votes_seconds <*> max_witness_pledge_seconds
  <*> witness_avg_pledge_update_interval <*> by_vote_top_witness_count
  <*> by_vote_rest_witness_count <*> by_pledge_witness_count <*> block_interval
  <*> maintenance_skip_slots <*> content_award_skip_slots <*> max_pledge_releasing_size
  <*> unlocked_balance_release_delay <*> csaf_limit_lock_balance_modulus
  <*> min_witness_block_produce_pledge <*> by_pledge_witness_pay_param <*> maintenance_interval
  <*> by_vote_top_witness_pay_per_block <*> by_vote_rest_witness_pay_per_block
  <*> max_witness_inactive_blocks <*> budget_adjust_interval <*> budget_adjust_target
  <*> committee_size <*> committee_update_interval <*> min_witness_pledge
  <*> witness_pledge_release_delay <*> max_witnesses_voted_per_account <*> min_mining_pledge
  <*> mining_pledge_release_delay <*> max_pledge_mining_bonus_rate
  <*> witness_report_prosecution_period <*> witness_report_allow_pre_last_block
  <*> witness_report_pledge_deduction_amount <*> maximum_asset_whitelist_authorities
  <*> platform_max_pledge_seconds <*> platform_avg_pledge_update_interval
  <*> maximum_transaction_size <*> maximum_block_size <*> maximum_time_until_expiration
  <*> maximum_authority_membership <*> max_authority_depth <*> min_committee_member_pledge
  <*> committee_member_pledge_release_delay <*> platform_min_pledge
  <*> platform_pledge_release_delay <*> platform_max_vote_per_account
  <*> max_committee_members_voted_per_account <*> allow_non_member_whitelists
  <*> extension_parameters.

(** ** What a proposal can change *)
(** [committee_updatable_parameters]: the members that are present are changed. *)
Record committee_updatable_parameters := {
  up_maximum_transaction_size : option Z;
  up_maximum_block_size : option Z;
  up_maximum_time_until_expiration : option Z;
  up_maximum_authority_membership : option Z;
  up_max_authority_depth : option Z;
  up_csaf_rate : option Z;
  up_max_csaf_per_account : option Z;
  up_csaf_accumulate_window : option Z;
  up_min_witness_pledge : option Z;
  up_max_witness_pledge_seconds : option Z;
  up_witness_avg_pledge_update_interval : option Z;
  up_witness_pledge_release_delay : option Z;
  up_min_governance_voting_balance : option Z;
  up_governance_voting_expiration_blocks : option Z;
  up_governance_votes_update_interval : option Z;
  up_max_governance_votes_seconds : option Z;
  up_max_witnesses_voted_per_account : option Z;
  up_max_witness_inactive_blocks : option Z;
  up_by_vote_top_witness_pay_per_block : option Z;
  up_by_vote_rest_witness_pay_per_block : option Z;
  up_by_pledge_witness_pay_param : option Z;
  up_by_vote_top_witness_count : option nat;
  up_by_vote_rest_witness_count : option nat;
  up_by_pledge_witness_count : option nat;
  up_budget_adjust_interval : option Z;
  up_budget_adjust_target : option Z;
  up_min_committee_member_pledge : option Z;
  up_committee_member_pledge_release_delay : option Z;
  up_witness_report_prosecution_period : option Z;
  up_witness_report_allow_pre_last_block : option bool;
  up_witness_report_pledge_deduction_amount : option Z;
  up_platform_min_pledge : option Z;
  up_platform_pledge_release_delay : option Z;
  up_platform_max_vote_per_account : option Z;
  up_platform_max_pledge_seconds : option Z;
  up_platform_avg_pledge_update_interval : option Z;
}.

(** [committee_updatable_extension_parameters]. *)
Record committee_updatable_extension_parameters := {
  ux_content_award_interval : option Z;
  ux_platform_award_interval : option Z;
  ux_max_csaf_per_approval : option Z;
  ux_approval_expiration : option Z;
  ux_min_effective_csaf : option Z;
  ux_total_content_award_amount : option Z;
  ux_total_platform_content_award_amount : option Z;
  ux_total_platform_voted_award_amount : option Z;
  ux_platform_award_min_votes : option Z;
  ux_platform_award_requested_rank : option Z;
  ux_platform_award_basic_rate : option Z;
  ux_casf_modulus : option Z;
  ux_post_award_expiration : option Z;
  ux_approval_casf_min_weight : option Z;
  ux_approval_casf_first_rate : option Z;
  ux_approval_casf_second_rate : option Z;
  ux_receiptor_award_modulus : option Z;
  ux_disapprove_award_modulus : option Z;
  ux_advertising_confirmed_fee_rate : option Z;
  ux_advertising_confirmed_min_fee : option Z;
  ux_custom_vote_effective_time : option Z;
  ux_min_witness_block_produce_pledge : option Z;
  ux_content_award_skip_slots : option Z;
  ux_unlocked_balance_release_delay : option Z;
  ux_min_mining_pledge : option Z;
  ux_mining_pledge_release_delay : option Z;
  ux_max_pledge_mining_bonus_rate : option Z;
  ux_registrar_referrer_rate_from_score : option Z;
  ux_max_pledge_releasing_size : option Z;
  ux_scorer_earnings_rate : option Z;
  ux_platform_content_award_min_votes : option Z;
  ux_csaf_limit_lock_balance_modulus : option Z;
  ux_trx_cpu_limit : option Z;
  ux_block_cpu_limit : option Z;
  ux_max_inter_contract_depth : option Z;
  ux_max_inline_action_size : option Z;
}.

Definition assign {A} (new : option A) (old : A) : A := match new with Some x => x | None => old end.
Definition update_parameters (pv : committee_updatable_parameters) (o : chain_parameters)
    : chain_parameters :=
  o
    <| maximum_transaction_size ::= assign (up_maximum_transaction_size pv) |>
    <| maximum_block_size ::= assign (up_maximum_block_size pv) |>
    <| maximum_time_until_expiration ::= assign (up_maximum_time_until_expiration pv) |>
    <| maximum_authority_membership ::= assign (up_maximum_authority_membership pv) |>
    <| max_authority_depth ::= assign (up_max_authority_depth pv) |>
    <| csaf_rate ::= assign (up_csaf_rate pv) |>
    <| max_csaf_per_account ::= assign (up_max_csaf_per_account pv) |>
    <| csaf_accumulate_window ::= assign (up_csaf_accumulate_window pv) |>
    <| min_witness_pledge ::= assign (up_min_witness_pledge pv) |>
    <| max_witness_pledge_seconds ::= assign (up_max_witness_pledge_seconds pv) |>
    <| witness_avg_pledge_update_interval ::= assign (up_witness_avg_pledge_update_interval pv) |>
    <| witness_pledge_release_delay ::= assign (up_witness_pledge_release_delay pv) |>
    <| min_governance_voting_balance ::= assign (up_min_governance_voting_balance pv) |>
    <| governance_voting_expiration_blocks ::= assign (up_governance_voting_expiration_blocks pv) |>
    <| governance_votes_update_interval ::= assign (up_governance_votes_update_interval pv) |>
    <| max_governance_votes_seconds ::= assign (up_max_governance_votes_seconds pv) |>
    <| max_witnesses_voted_per_account ::= assign (up_max_witnesses_voted_per_account pv) |>
    <| max_witness_inactive_blocks ::= assign (up_max_witness_inactive_blocks pv) |>
    <| by_vote_top_witness_pay_per_block ::= assign (up_by_vote_top_witness_pay_per_block pv) |>
    <| by_vote_rest_witness_pay_per_block ::= assign (up_by_vote_rest_witness_pay_per_block pv) |>
    <| by_pledge_witness_pay_param ::= assign (up_by_pledge_witness_pay_param pv) |>
    <| by_vote_top_witness_count ::= assign (up_by_vote_top_witness_count pv) |>
    <| by_vote_rest_witness_count ::= assign (up_by_vote_rest_witness_count pv) |>
    <| by_pledge_witness_count ::= assign (up_by_pledge_witness_count pv) |>
    <| budget_adjust_interval ::= assign (up_budget_adjust_interval pv) |>
    <| budget_adjust_target ::= assign (up_budget_adjust_target pv) |>
    <| min_committee_member_pledge ::= assign (up_min_committee_member_pledge pv) |>
    <| committee_member_pledge_release_delay ::= assign (up_committee_member_pledge_release_delay pv) |>
    <| witness_report_prosecution_period ::= assign (up_witness_report_prosecution_period pv) |>
    <| witness_report_allow_pre_last_block ::= assign (up_witness_report_allow_pre_last_block pv) |>
    <| witness_report_pledge_deduction_amount ::= assign (up_witness_report_pledge_deduction_amount pv) |>
    <| platform_min_pledge ::= assign (up_platform_min_pledge pv) |>
    <| platform_pledge_release_delay ::= assign (up_platform_pledge_release_delay pv) |>
    <| platform_max_vote_per_account ::= assign (up_platform_max_vote_per_account pv) |>
    <| platform_max_pledge_seconds ::= assign (up_platform_max_pledge_seconds pv) |>
    <| platform_avg_pledge_update_interval ::= assign (up_platform_avg_pledge_update_interval pv) |>.
(** The limits of contracts are not assigned. *)
Definition update_award_parameters (pv : committee_updatable_extension_parameters)
    (v : extension_parameter_type) : extension_parameter_type :=
  v
    <| content_award_interval ::= assign (ux_content_award_interval pv) |>
    <| platform_award_interval ::= assign (ux_platform_award_interval pv) |>
    <| max_csaf_per_approval ::= assign (ux_max_csaf_per_approval pv) |>
    <| approval_expiration ::= assign (ux_approval_expiration pv) |>
    <| min_effective_csaf ::= assign (ux_min_effective_csaf pv) |>
    <| total_content_award_amount ::= assign (ux_total_content_award_amount pv) |>
    <| total_platform_content_award_amount ::= assign (ux_total_platform_content_award_amount pv) |>
    <| total_platform_voted_award_amount ::= assign (ux_total_platform_voted_award_amount pv) |>
    <| platform_award_min_votes ::= assign (ux_platform_award_min_votes pv) |>
    <| platform_award_requested_rank ::= assign (ux_platform_award_requested_rank pv) |>
    <| platform_award_basic_rate ::= assign (ux_platform_award_basic_rate pv) |>
    <| casf_modulus ::= assign (ux_casf_modulus pv) |>
    <| post_award_expiration ::= assign (ux_post_award_expiration pv) |>
    <| approval_casf_min_weight ::= assign (ux_approval_casf_min_weight pv) |>
    <| approval_casf_first_rate ::= assign (ux_approval_casf_first_rate pv) |>
    <| approval_casf_second_rate ::= assign (ux_approval_casf_second_rate pv) |>
    <| receiptor_award_modulus ::= assign (ux_receiptor_award_modulus pv) |>
    <| disapprove_award_modulus ::= assign (ux_disapprove_award_modulus pv) |>
    <| advertising_confirmed_fee_rate ::= assign (ux_advertising_confirmed_fee_rate pv) |>
    <| advertising_confirmed_min_fee ::= assign (ux_advertising_confirmed_min_fee pv) |>
    <| custom_vote_effective_time ::= assign (ux_custom_vote_effective_time pv) |>
    <| registrar_referrer_rate_from_score ::= assign (ux_registrar_referrer_rate_from_score pv) |>
    <| scorer_earnings_rate ::= assign (ux_scorer_earnings_rate pv) |>
    <| platform_content_award_min_votes ::= assign (ux_platform_content_award_min_votes pv) |>.
Definition update_extension_parameters (pv : committee_updatable_extension_parameters)
    (o : chain_parameters) : chain_parameters :=
  o <| extension_parameters ::= update_award_parameters pv |>
    <| min_witness_block_produce_pledge ::= assign (ux_min_witness_block_produce_pledge pv) |>
    <| content_award_skip_slots ::= assign (ux_content_award_skip_slots pv) |>
    <| unlocked_balance_release_delay ::= assign (ux_unlocked_balance_release_delay pv) |>
    <| min_mining_pledge ::= assign (ux_min_mining_pledge pv) |>
    <| mining_pledge_release_delay ::= assign (ux_mining_pledge_release_delay pv) |>
    <| max_pledge_mining_bonus_rate ::= assign (ux_max_pledge_mining_bonus_rate pv) |>
    <| max_pledge_releasing_size ::= assign (ux_max_pledge_releasing_size pv) |>
    <| csaf_limit_lock_balance_modulus ::= assign (ux_csaf_limit_lock_balance_modulus pv) |>.

(** [account_priviledge_update_options]. *)
Record account_priviledge_update_options := {
  pv_can_vote : option bool;
  pv_is_admin : option bool;
  pv_is_registrar : option bool;
  pv_takeover_registrar : option Z;
}.
#[global] Instance account_priviledge_update_options_fields : Fields account_priviledge_update_options :=
  of_ctor Build_account_priviledge_update_options <*> pv_can_vote <*> pv_is_admin
  <*> pv_is_registrar <*> pv_takeover_registrar.

(** The fee parameters of the operation with a tag; they are not looked into. *)
Record fee_parameters := { fee_which : Z; fee_values : list Z }.
Inductive committee_proposal_item_type :=
| committee_update_account_priviledge_item (account : Z) (new_priviledges : account_priviledge_update_options)
| committee_update_fee_schedule_item (fees : list fee_parameters)
| committee_update_global_parameter_item (value : committee_updatable_parameters)
| committee_update_global_extension_parameter_item (value : committee_updatable_extension_parameters)
| committee_withdraw_platform_pledge_item (platform_account receiver withdraw_amount : Z).
Inductive voting_opinion_type := opinion_against | opinion_neutral | opinion_for.
#[global] Instance voting_opinion_type_eq_dec : EqDecision voting_opinion_type.
Proof. solve_decision. Defined.

(** ** [validate] *)
Definition if_present {A} (p : A -> bool) (o : option A) : bool :=
  match o with Some x => p x | None => true end.
Definition some {A} (o : option A) : bool := match o with Some _ => true | None => false end.
(** [GRAPHENE_MIN_TRANSACTION_SIZE_LIMIT], [GRAPHENE_MIN_BLOCK_SIZE_LIMIT],
    [GRAPHENE_MIN_GOVERNANCE_VOTING_EXPIRATION_BLOCKS],
    [GRAPHENE_RECEIPTOR_AWARD_THRESHOLD], [GRAPHENE_1_PERCENT]. *)
Definition MIN_TRANSACTION_SIZE_LIMIT : Z := 1024.
Definition MIN_BLOCK_SIZE_LIMIT : Z := 5120.
Definition MIN_GOVERNANCE_VOTING_EXPIRATION_BLOCKS : Z := 28800.
Definition RECEIPTOR_AWARD_THRESHOLD : Z := 7500.
Definition ONE_PERCENT : Z := 100.

Section validate.
Variable is_valid_uid : Z -> bool.
Definition validate_priviledges (account : Z) (pv : account_priviledge_update_options) : result unit :=
  guard_ok (is_valid_uid account) assert_exception ;;
  guard_ok (some (pv_can_vote pv) || some (pv_is_admin pv) || some (pv_is_registrar pv) ||
            some (pv_takeover_registrar pv)) assert_exception ;;
  guard_ok (match pv_is_registrar pv with
            | Some false => some (pv_takeover_registrar pv)
            | Some true => negb (some (pv_takeover_registrar pv))
            | None => true
            end) assert_exception ;;
  guard_ok (if_present (fun t => negb (account =? t) && is_valid_uid t) (pv_takeover_registrar pv)) assert_exception.

Definition is_positive (x : Z) : bool := 0 <? x.
Definition is_non_negative (x : Z) : bool := 0 <=? x.
Definition validate_parameters (pv : committee_updatable_parameters) : result unit :=
  guard_ok (if_present (Z.leb MIN_TRANSACTION_SIZE_LIMIT) (up_maximum_transaction_size pv)) assert_exception ;;
  guard_ok (if_present (Z.leb MIN_BLOCK_SIZE_LIMIT) (up_maximum_block_size pv)) assert_exception ;;
  guard_ok (if_present is_positive (up_maximum_authority_membership pv)) assert_exception ;;
  guard_ok (if_present is_positive (up_csaf_rate pv)) assert_exception ;;
  guard_ok (if_present is_non_negative (up_max_csaf_per_account pv)) assert_exception ;;
  guard_ok (if_present is_positive (up_max_witness_pledge_seconds pv)) assert_exception ;;
  guard_ok (if_present is_positive (up_witness_avg_pledge_update_interval pv)) assert_exception ;;
  guard_ok (if_present (Z.leb MIN_GOVERNANCE_VOTING_EXPIRATION_BLOCKS) (up_governance_voting_expiration_blocks pv))
    assert_exception ;;
  guard_ok (if_present is_positive (up_governance_votes_update_interval pv)) assert_exception ;;
  guard_ok (if_present is_positive (up_max_governance_votes_seconds pv)) assert_exception ;;
  guard_ok (if_present is_positive (up_max_witnesses_voted_per_account pv)) assert_exception ;;
  guard_ok (if_present is_non_negative (up_by_vote_top_witness_pay_per_block pv)) assert_exception ;;
  guard_ok (if_present is_non_negative (up_by_vote_rest_witness_pay_per_block pv)) assert_exception ;;
  guard_ok (if_present is_non_negative (up_by_pledge_witness_pay_param pv)) assert_exception ;;
  guard_ok (if_present (Nat.ltb 0) (up_by_vote_top_witness_count pv)) assert_exception ;;
  guard_ok (if_present is_positive (up_budget_adjust_interval pv)) assert_exception ;;
  guard_ok (if_present is_non_negative (up_witness_report_pledge_deduction_amount pv)) assert_exception ;;
  guard_ok (if_present is_positive (up_platform_max_vote_per_account pv)) assert_exception ;;
  guard_ok (if_present is_positive (up_platform_max_pledge_seconds pv)) assert_exception ;;
  guard_ok (if_present is_positive (up_platform_avg_pledge_update_interval pv)) assert_exception.

(** The three rates of approvals are changed together, and so are the two of
    awards; their comparison is computed in 32 bits. *)
Definition approval_rates_ok (pv : committee_updatable_extension_parameters) : bool :=
  match ux_approval_casf_min_weight pv, ux_approval_casf_first_rate pv, ux_approval_casf_second_rate pv with
  | Some w, Some r1, Some r2 =>
      (0 <=? w) && (w <=? PERCENT_100) && (0 <=? r1) && (r2 <=? PERCENT_100) && (r1 <? r2)
  | None, None, None => true
  | _, _, _ => false
  end.
Definition award_moduli_ok (pv : committee_updatable_extension_parameters) : bool :=
  match ux_receiptor_award_modulus pv, ux_disapprove_award_modulus pv with
  | Some r, Some x =>
      (0 <=? r) && (r <=? PERCENT_100) && (PERCENT_100 <? x) &&
      (u32 ((PERCENT_100 - RECEIPTOR_AWARD_THRESHOLD) * (x - PERCENT_100)) <=?
       u32 (RECEIPTOR_AWARD_THRESHOLD * (PERCENT_100 - r)))
  | None, None => true
  | _, _ => false
  end.
Definition in_range (a b x : Z) : bool := (a <=? x) && (x <=? b).
Definition validate_extension_parameters (pv : committee_updatable_extension_parameters) : result unit :=
  guard_ok (approval_rates_ok pv) assert_exception ;;
  guard_ok (award_moduli_ok pv) assert_exception ;;
  guard_ok (if_present (in_range 1 (PERCENT_100 - 1)) (ux_platform_award_basic_rate pv)) assert_exception ;;
  guard_ok (if_present (in_range 1 (PERCENT_100 - 1)) (ux_advertising_confirmed_fee_rate pv)) assert_exception ;;
  guard_ok (if_present is_positive (ux_min_witness_block_produce_pledge pv)) assert_exception ;;
  guard_ok (if_present (fun x => x <=? 86400 * 365) (ux_content_award_interval pv)) assert_exception ;;
  guard_ok (if_present (fun x => x <=? 86400 * 365) (ux_platform_award_interval pv)) assert_exception ;;
  guard_ok (if_present (in_range (10 * ONE_PERCENT) (PERCENT_100 - 10 * ONE_PERCENT))
              (ux_max_pledge_mining_bonus_rate pv)) assert_exception ;;
  guard_ok (if_present (in_range 0 (25 * ONE_PERCENT)) (ux_registrar_referrer_rate_from_score pv)) assert_exception ;;
  guard_ok (if_present (Z.leb 1) (ux_max_pledge_releasing_size pv)) assert_exception ;;
  guard_ok (if_present (fun x => x <? PERCENT_100) (ux_scorer_earnings_rate pv)) assert_exception ;;
  guard_ok (if_present is_non_negative (ux_platform_content_award_min_votes pv)) assert_exception ;;
  guard_ok (if_present is_non_negative (ux_csaf_limit_lock_balance_modulus pv)) assert_exception.

Definition validate_item (item : committee_proposal_item_type) : result unit :=
  match item with
  | committee_update_account_priviledge_item account pv => validate_priviledges account pv
  | committee_update_fee_schedule_item _ => Ok tt
  | committee_update_global_parameter_item pv => validate_parameters pv
  | committee_update_global_extension_parameter_item pv => validate_extension_parameters pv
  | committee_withdraw_platform_pledge_item platform_account receiver withdraw_amount =>
      guard_ok (is_valid_uid platform_account) assert_exception ;;
      guard_ok (is_valid_uid receiver) assert_exception ;;
      guard_ok (is_positive withdraw_amount) assert_exception
  end.
Definition is_fee_item (item : committee_proposal_item_type) : bool :=
  match item with committee_update_fee_schedule_item _ => true | _ => false end.
Definition is_parameter_item (item : committee_proposal_item_type) : bool :=
  match item with committee_update_global_parameter_item _ => true | _ => false end.
Definition is_extension_item (item : committee_proposal_item_type) : bool :=
  match item with committee_update_global_extension_parameter_item _ => true | _ => false end.
Definition at_most_one (p : committee_proposal_item_type -> bool) (l : list committee_proposal_item_type) : bool :=
  (length (List.filter p l) <=? 1)%nat.
Definition validate_items (items : list committee_proposal_item_type) : result unit :=
  guard_ok (negb (bool_decide (length items = 0%nat))) assert_exception ;;
  guard_ok (at_most_one is_fee_item items) assert_exception ;;
  guard_ok (at_most_one is_parameter_item items) assert_exception ;;
  guard_ok (at_most_one is_extension_item items) assert_exception ;;
  _ ← mapM validate_item items;
  Ok tt.
End validate.

(** ** [get_approve_threshold] *)
(** The tag of [committee_proposal_create_operation]. *)
Definition COMMITTEE_PROPOSAL_CREATE : Z := 11.
Definition fee_threshold (f : fee_parameters) : Z :=
  if fee_which f =? COMMITTEE_PROPOSAL_CREATE then 8500 else 5001.
Definition threshold_of {A} (o : option A) (t : Z) : Z := if some o then t else 0.
Definition item_thresholds (item : committee_proposal_item_type) : list Z :=
  match item with
  | committee_update_account_priviledge_item _ pv =>
      [threshold_of (pv_can_vote pv) 6500; threshold_of (pv_is_admin pv) 5001;
       threshold_of (pv_is_registrar pv) 6500; threshold_of (pv_takeover_registrar pv) 6500]
  | committee_update_fee_schedule_item fees => fee_threshold <$> fees
  | committee_update_global_parameter_item pv =>
      [threshold_of (up_maximum_transaction_size pv) 5001;
       threshold_of (up_maximum_block_size pv) 5001;
       threshold_of (up_maximum_time_until_expiration pv) 5001;
       threshold_of (up_maximum_authority_membership pv) 7500;
       threshold_of (up_max_authority_depth pv) 7500; threshold_of (up_csaf_rate pv) 5001;
       threshold_of (up_max_csaf_per_account pv) 5001;
       threshold_of (up_csaf_accumulate_window pv) 5001;
       threshold_of (up_min_witness_pledge pv) 6500;
       threshold_of (up_max_witness_pledge_seconds pv) 6500;
       threshold_of (up_witness_avg_pledge_update_interval pv) 5001;
       threshold_of (up_witness_pledge_release_delay pv) 5001;
       threshold_of (up_min_governance_voting_balance pv) 6500;
       threshold_of (up_governance_voting_expiration_blocks pv) 6500;
       threshold_of (up_governance_votes_update_interval pv) 5001;
       threshold_of (up_max_governance_votes_seconds pv) 6500;
       threshold_of (up_max_witnesses_voted_per_account pv) 6500;
       threshold_of (up_max_witness_inactive_blocks pv) 6500;
       threshold_of (up_by_vote_top_witness_pay_per_block pv) 6500;
       threshold_of (up_by_vote_rest_witness_pay_per_block pv) 6500;
       threshold_of (up_by_pledge_witness_pay_param pv) 6500;
       threshold_of (up_by_vote_top_witness_count pv) 6500;
       threshold_of (up_by_vote_rest_witness_count pv) 6500;
       threshold_of (up_by_pledge_witness_count pv) 6500;
       threshold_of (up_budget_adjust_interval pv) 8500;
       threshold_of (up_budget_adjust_target pv) 8500;
       threshold_of (up_min_committee_member_pledge pv) 8500;
       threshold_of (up_committee_member_pledge_release_delay pv) 8500;
       threshold_of (up_witness_report_prosecution_period pv) 6500;
       threshold_of (up_witness_report_allow_pre_last_block pv) 6500;
       threshold_of (up_witness_report_pledge_deduction_amount pv) 6500;
       threshold_of (up_platform_min_pledge pv) 6500;
       threshold_of (up_platform_pledge_release_delay pv) 6500;
       threshold_of (up_platform_max_vote_per_account pv) 6500;
       threshold_of (up_platform_max_pledge_seconds pv) 6500;
       threshold_of (up_platform_avg_pledge_update_interval pv) 6500]
  | committee_update_global_extension_parameter_item _ | committee_withdraw_platform_pledge_item _ _ _ => []
  end.
Definition get_approve_threshold (hard_fork_05 : bool) (items : list committee_proposal_item_type) : Z :=
  foldl Z.max (if hard_fork_05 then 5001 else 0) (items ≫= item_thresholds).
End parameters.
