(* ===== verification/ContentState.v ===== *)
(** * Posts, scores, licenses, advertisements and custom votes: the objects
      (content_object.hpp, advertising_object.hpp, custom_vote_object.hpp)

    The indexes of the content component, with the members of their objects that are
    not the key. *)
From S2P Require Import Prelude FlatMap.
Local Open Scope Z_scope.

Module content.

(** [Receiptor_Parameter]: the share of a post an account receives, and the
    part of it that is for sale. *)
Record receiptor_parameter := Receiptor {
  cur_ratio : Z;
  to_buyout : bool;
  buyout_ratio : Z;
  buyout_price : Z;
  buyout_expiration : Z;
}.
#[global] Instance receiptor_parameter_fields : Fields receiptor_parameter :=
  of_ctor Receiptor <*> cur_ratio <*> to_buyout <*> buyout_ratio <*> buyout_price <*> buyout_expiration.

(** [post_object], keyed by (platform, poster, post_pid). *)
Record post_object := {
  post_type : Z;
  origin_poster : option Z;
  origin_post_pid : option Z;
  origin_platform : option Z;
  hash_value : string;
  post_extra_data : string;
  title : string;
  body : string;
  post_create_time : Z;
  post_last_update_time : Z;
  receiptors : flat_map Z receiptor_parameter;
  forward_price : option Z;
  license_lid : option Z;
  post_permission_flags : Z;
  score_settlement : bool;
}.
#[global] Instance post_object_fields : Fields post_object :=
  of_ctor Build_post_object <*> post_type <*> origin_poster <*> origin_post_pid <*> origin_platform
  <*> hash_value <*> post_extra_data <*> title <*> body
  <*> post_create_time <*> post_last_update_time <*> receiptors <*> forward_price <*> license_lid
  <*> post_permission_flags <*> score_settlement.

(** [active_post_object], keyed by (platform, poster, period, post_pid); the
    index by period is in the order of the ids. *)
Record receiptor_detail := {
  detail_forward : Z;
  detail_post_award : Z;
  detail_rewards : flat_map Z Z;
}.
#[global] Instance receiptor_detail_fields : Fields receiptor_detail :=
  of_ctor Build_receiptor_detail <*> detail_forward <*> detail_post_award <*> detail_rewards.
Record active_post_object := {
  active_id : Z;
  total_csaf : Z;
  total_rewards : flat_map Z Z;
  positive_win : bool;
  post_award : Z;
  forward_award : Z;
  receiptor_details : flat_map Z receiptor_detail;
}.
#[global] Instance active_post_object_fields : Fields active_post_object :=
  of_ctor Build_active_post_object <*> active_id <*> total_csaf <*> total_rewards <*> positive_win
  <*> post_award <*> forward_award <*> receiptor_details.

(** [score_object], keyed by (platform, poster, post_pid, from_account_uid). *)
Record score_object := {
  score_id : Z;
  score : Z;
  score_csaf : Z;
  score_period : Z;
  score_profits : Z;
  score_create_time : Z;
}.
#[global] Instance score_object_fields : Fields score_object :=
  of_ctor Build_score_object <*> score_id <*> score <*> score_csaf <*> score_period <*> score_profits
  <*> score_create_time.

(** [license_object], keyed by (platform, license_lid). *)
Record license_object := {
  license_type : Z;
  license_hash_value : string;
  license_extra_data : string;
  license_title : string;
  license_body : string;
  license_create_time : Z;
}.

(** [advertising_object], keyed by (platform, advertising_aid), and
    [advertising_order_object], keyed by (platform, advertising_aid, order_oid). *)
Record advertising_object := {
  on_sell : bool;
  unit_time : Z;
  unit_price : Z;
  ad_description : string;
  last_order_sequence : Z;
  publish_time : Z;
  ad_last_update_time : Z;
}.
#[global] Instance advertising_object_fields : Fields advertising_object :=
  of_ctor Build_advertising_object <*> on_sell <*> unit_time <*> unit_price <*> ad_description
  <*> last_order_sequence <*> publish_time <*> ad_last_update_time.
Inductive advertising_state :=
| advertising_undetermined | advertising_accepted | advertising_refused | advertising_ransom.
#[global] Instance advertising_state_eq_dec : EqDecision advertising_state.
Proof. solve_decision. Defined.
Record advertising_order_object := {
  ad_user : Z;
  released_balance : Z;
  start_time : Z;
  end_time : Z;
  buy_request_time : Z;
  status : advertising_state;
  handle_time : Z;
  ad_memo : option string;
  ad_extra_data : string;
}.
#[global] Instance advertising_order_object_fields : Fields advertising_order_object :=
  of_ctor Build_advertising_order_object <*> ad_user <*> released_balance <*> start_time <*> end_time
  <*> buy_request_time <*> status <*> handle_time <*> ad_memo <*> ad_extra_data.

(** [custom_vote_object], keyed by (creator, vote_vid). *)
Record custom_vote_object := {
  cv_title : string;
  cv_description : string;
  vote_expired_time : Z;
  vote_asset_id : Z;
  required_asset_amount : Z;
  minimum_selected_items : Z;
  maximum_selected_items : Z;
  options : list string;
  vote_result : list Z;
}.
#[global] Instance custom_vote_object_fields : Fields custom_vote_object :=
  of_ctor Build_custom_vote_object <*> cv_title <*> cv_description <*> vote_expired_time <*> vote_asset_id
  <*> required_asset_amount <*> minimum_selected_items <*> maximum_selected_items <*> options <*> vote_result.

Record content_objects := {
  posts : gmap (Z * Z * Z) post_object;
  active_posts : gmap (Z * Z * Z * Z) active_post_object;
  next_active_id : Z;
  scores : gmap (Z * Z * Z * Z) score_object;
  next_score_id : Z;
  licenses : gmap (Z * Z) license_object;
  advertisings : gmap (Z * Z) advertising_object;
  advertising_orders : gmap (Z * Z * Z) advertising_order_object;
  custom_votes : gmap (Z * Z) custom_vote_object;
}.
#[global] Instance content_objects_fields : Fields content_objects :=
  of_ctor Build_content_objects <*> posts <*> active_posts <*> next_active_id <*> scores <*> next_score_id
  <*> licenses <*> advertisings <*> advertising_orders <*> custom_votes.
Definition no_content : content_objects := Build_content_objects ∅ ∅ 0 ∅ 0 ∅ ∅ ∅ ∅.

(** [platform_object::Platform_Period_Profits]. *)
Record period_profits_type := {
  rewards_profits : flat_map Z Z;
  foward_profits : Z;
  post_profits : Z;
  post_profits_by_platform : Z;
  platform_profits : Z;
}.
#[global] Instance period_profits_fields : Fields period_profits_type :=
  of_ctor Build_period_profits_type <*> rewards_profits <*> foward_profits <*> post_profits
  <*> post_profits_by_platform <*> platform_profits.
End content.
