(* ===== verification/ChainState.v ===== *)
(** * The state of the chain

    The objects of the database the modelled components read and change, as
    records with the fields those components use, and the database as one map
    per index.  The fields keep the names of the C++ members; where two classes
    share a member name the less used one carries a prefix.  The accessors are
    those of db_getter.cpp.  Times are seconds since the epoch, uids and
    amounts are integers, and unsigned members that the code lets wrap are
    wrapped where it does.

    Objects keyed by account in the model ([witnesses], [committee_members],
    [platforms]) are the account's current object of that class.  An invalid
    witness, committee member or platform that a new one replaced moves to
    [replaced_witnesses], [replaced_members] or [replaced_platforms], keyed by
    (account, sequence), until it is removed.  The objects of a map are
    the live objects of the index: the undo machinery underneath is [ObjectDb]. *)
From S2P Require Import Prelude FlatMap FcInt Asset Pledge Authority.
From S2P Require Export Parameters ContentState.
Local Open Scope Z_scope.
Import asset pledge.

(** [GRAPHENE_PROXY_TO_SELF_ACCOUNT_UID] and [GRAPHENE_NULL_ACCOUNT_UID], the checksummed
    uids 0 and 4 (see [Uid]). *)
Class ChainConfig := { PROXY_TO_SELF_ACCOUNT_UID : Z; NULL_ACCOUNT_UID : Z }.

(** [UINT128_MAX_VALUE], [GRAPHENE_VIRTUAL_LAP_LENGTH],
    [uint32_t(-1)], and the times of the hard forks. *)
Notation UINT128_MAX := (2 ^ 128 - 1).
Notation VIRTUAL_LAP_LENGTH := (2 ^ 128 - 1).
Notation NEVER := (2 ^ 32 - 1).
Notation HARDFORK_0_2_TIME := 1519956000.
Notation HARDFORK_0_2_1_TIME := 1521709200.
Notation HARDFORK_0_3_TIME := 1530522000.
Notation HARDFORK_0_4_TIME := 1561852800.
Notation HARDFORK_0_5_TIME := 1588204800.

Module chain.
Export parameters content.

Inductive scheduled_witness_type := scheduled_by_vote_top | scheduled_by_vote_rest | scheduled_by_pledge.
#[global] Instance scheduled_witness_type_eq_dec : EqDecision scheduled_witness_type.
Proof. solve_decision. Defined.

(** The order of the enumeration, for [std::map<pledge_balance_type, _>]. *)
Definition pledge_type_num (t : pledge_balance_type) : Z :=
  match t with Witness => 0 | Commitment => 1 | Platform => 2 | Lock_balance => 3 | Mine => 4 end.
#[global] Instance pledge_type_order : KeyOrder pledge_balance_type :=
  fun a b => pledge_type_num a <? pledge_type_num b.

(** [dynamic_global_property_object]. *)
Record dynamic_global_property_object := {
  time : Z;
  head_block_number : Z;
  enabled_hardfork_version : Z;
  current_aslot : Z;
  recent_slots_filled : Z;
  maintenance_flag : bool;
  content_award_skip_flag : bool;
  by_pledge_witness_pay_per_block : Z;
  total_witness_pledge : Z;
  head_block_id : Z;
  current_witness : Z;
  budget_pool : Z;
  total_budget_per_block : Z;
  next_budget_adjust_block : Z;
  next_committee_update_block : Z;
  recently_missed_count : Z;
  last_irreversible_block_num : Z;
  resign_witness_pledge_before_05 : Z;
  next_committee_proposal_number : Z;
  next_content_award_time : Z;
  last_content_award_time : Z;
  next_platform_voted_award_time : Z;
  last_platform_voted_award_time : Z;
  current_active_post_sequence : Z;
  content_award_enable : bool;
}.
#[global] Instance dynamic_global_property_object_fields : Fields dynamic_global_property_object :=
  of_ctor Build_dynamic_global_property_object <*> time <*> head_block_number
  <*> enabled_hardfork_version <*> current_aslot <*> recent_slots_filled <*> maintenance_flag
  <*> content_award_skip_flag <*> by_pledge_witness_pay_per_block <*> total_witness_pledge
  <*> head_block_id <*> current_witness <*> budget_pool <*> total_budget_per_block
  <*> next_budget_adjust_block <*> next_committee_update_block <*> recently_missed_count
  <*> last_irreversible_block_num <*> resign_witness_pledge_before_05
  <*> next_committee_proposal_number <*> next_content_award_time
  <*> last_content_award_time <*> next_platform_voted_award_time <*> last_platform_voted_award_time
  <*> current_active_post_sequence <*> content_award_enable.

(** [account_object]; the members of its [reg_info] are its own here. *)
Record account_object := {
  a_name : string;
  a_owner : auth.authority;
  a_active : auth.authority;
  a_secondary : auth.authority;
  a_memo_key : Z;
  registrar : Z;
  referrer : Z;
  registrar_percent : Z;
  referrer_percent : Z;
  allowance_per_article : asset;
  max_share_per_article : asset;
  max_share_total : asset;
  buyout_percent : Z;
  referrer_by_platform : Z;
  allowed_assets : option (gset Z);
  whitelisting_accounts : list Z;
  blacklisting_accounts : list Z;
  whitelisted_accounts : list Z;
  blacklisted_accounts : list Z;
  can_post : bool;
  can_reply : bool;
  can_rate : bool;
  is_full_member : bool;
  is_registrar : bool;
  is_admin : bool;
  a_create_time : Z;
  last_update_time : Z;
}.
#[global] Instance account_object_fields : Fields account_object :=
  of_ctor Build_account_object <*> a_name <*> a_owner <*> a_active <*> a_secondary <*> a_memo_key
  <*> registrar <*> referrer <*> registrar_percent <*> referrer_percent
  <*> allowance_per_article <*> max_share_per_article <*> max_share_total <*> buyout_percent
  <*> referrer_by_platform <*> allowed_assets <*> whitelisting_accounts
  <*> blacklisting_accounts <*> whitelisted_accounts <*> blacklisted_accounts <*> can_post
  <*> can_reply <*> can_rate <*> is_full_member <*> is_registrar <*> is_admin
  <*> a_create_time <*> last_update_time.

(** [_account_statistics_object]. *)
Record account_statistics := {
  total_core_in_orders : Z;
  prepaid : Z;
  csaf : Z;
  core_balance : Z;
  core_leased_in : Z;
  core_leased_out : Z;
  average_coins : Z;
  average_coins_last_update : Z;
  coin_seconds_earned : Z;
  coin_seconds_earned_last_update : Z;
  total_mining_pledge : Z;
  uncollected_witness_pay : Z;
  uncollected_pledge_bonus : Z;
  uncollected_market_fees : gmap Z Z;
  uncollected_score_bonus : Z;
  is_voter : bool;
  last_voter_sequence : Z;
  pledge_balance_ids : flat_map pledge_balance_type Z;
  last_witness_sequence : Z;
  witness_last_confirmed_block_num : Z;
  witness_last_aslot : Z;
  witness_total_produced : Z;
  witness_total_missed : Z;
  witness_last_reported_block_num : Z;
  witness_total_reported : Z;
  can_vote : bool;
  beneficiary : option Z;
  last_committee_member_sequence : Z;
  last_platform_sequence : Z;
  last_post_sequence : Z;
  last_license_sequence : Z;
  last_advertising_sequence : Z;
  last_custom_vote_sequence : Z;
}.
#[global] Instance account_statistics_fields : Fields account_statistics :=
  of_ctor Build_account_statistics <*> total_core_in_orders <*> prepaid <*> csaf
  <*> core_balance <*> core_leased_in <*> core_leased_out <*> average_coins
  <*> average_coins_last_update <*> coin_seconds_earned <*> coin_seconds_earned_last_update
  <*> total_mining_pledge <*> uncollected_witness_pay <*> uncollected_pledge_bonus
  <*> uncollected_market_fees <*> uncollected_score_bonus <*> is_voter <*> last_voter_sequence
  <*> pledge_balance_ids <*> last_witness_sequence <*> witness_last_confirmed_block_num
  <*> witness_last_aslot <*> witness_total_produced <*> witness_total_missed
  <*> witness_last_reported_block_num <*> witness_total_reported <*> can_vote <*> beneficiary
  <*> last_committee_member_sequence <*> last_platform_sequence <*> last_post_sequence
  <*> last_license_sequence <*> last_advertising_sequence <*> last_custom_vote_sequence.

(** [voter_object]; it is keyed by (uid, sequence). *)
Record voter_object := {
  v_is_valid : bool;
  votes : Z;
  votes_last_update : Z;
  effective_votes : Z;
  effective_votes_last_update : Z;
  effective_votes_next_update_block : Z;
  proxy_uid : Z;
  proxy_sequence : Z;
  proxied_voters : Z;
  proxied_votes : list Z;
  proxy_last_vote_block : list Z;
  effective_last_vote_block : Z;
  number_of_witnesses_voted : Z;
  number_of_platform_voted : Z;
  number_of_committee_members_voted : Z;
}.
#[global] Instance voter_object_fields : Fields voter_object :=
  of_ctor Build_voter_object <*> v_is_valid <*> votes <*> votes_last_update <*>
  effective_votes <*> effective_votes_last_update <*> effective_votes_next_update_block <*>
  proxy_uid <*> proxy_sequence <*> proxied_voters <*> proxied_votes <*>
  proxy_last_vote_block <*> effective_last_vote_block <*> number_of_witnesses_voted <*>
  number_of_platform_voted <*> number_of_committee_members_voted.

(** [witness_object]: per account, its current witness object. *)
Record witness_object := {
  w_sequence : Z;
  w_is_valid : bool;
  signing_key : Z;
  w_pledge : Z;
  pledge_last_update : Z;
  average_pledge : Z;
  average_pledge_last_update : Z;
  average_pledge_next_update_block : Z;
  w_total_votes : Z;
  by_pledge_position : Z;
  by_pledge_position_last_update : Z;
  by_pledge_scheduled_time : Z;
  by_vote_position : Z;
  by_vote_position_last_update : Z;
  by_vote_scheduled_time : Z;
  bonus_rate : Z;
  w_total_mining_pledge : Z;
  unhandled_bonus : Z;
  need_distribute_bonus : Z;
  last_update_bonus_block_num : Z;
  last_confirmed_block_num : Z;
  last_aslot : Z;
  total_produced : Z;
  total_missed : Z;
  w_url : string;
  can_pledge : bool;
  bonus_per_pledge : flat_map Z Z;
  already_distribute_bonus : Z;
}.
#[global] Instance witness_object_fields : Fields witness_object :=
  of_ctor Build_witness_object <*> w_sequence <*> w_is_valid <*> signing_key <*> w_pledge
  <*> pledge_last_update <*> average_pledge <*> average_pledge_last_update
  <*> average_pledge_next_update_block <*> w_total_votes <*> by_pledge_position
  <*> by_pledge_position_last_update <*> by_pledge_scheduled_time <*> by_vote_position
  <*> by_vote_position_last_update <*> by_vote_scheduled_time <*> bonus_rate
  <*> w_total_mining_pledge <*> unhandled_bonus <*> need_distribute_bonus
  <*> last_update_bonus_block_num <*> last_confirmed_block_num <*> last_aslot <*> total_produced
  <*> total_missed <*> w_url <*> can_pledge <*> bonus_per_pledge <*> already_distribute_bonus.

(** [committee_member_object]: per account, its current one. *)
Record committee_member_object := {
  c_sequence : Z;
  c_is_valid : bool;
  c_total_votes : Z;
  c_pledge : Z;
  c_url : string;
}.
#[global] Instance committee_member_object_fields : Fields committee_member_object :=
  of_ctor Build_committee_member_object <*> c_sequence <*> c_is_valid <*> c_total_votes
  <*> c_pledge <*> c_url.

(** [platform_object]: per owner, its current one. *)
Record platform_object := {
  p_sequence : Z;
  p_is_valid : bool;
  p_total_votes : Z;
  p_pledge : Z;
  p_pledge_last_update : Z;
  p_average_pledge : Z;
  p_average_pledge_last_update : Z;
  p_average_pledge_next_update_block : Z;
  p_last_update_time : Z;
  p_name : string;
  p_url : string;
  p_extra_data : string;
  p_create_time : Z;
  vote_profits : flat_map Z Z;
  period_profits : flat_map Z period_profits_type;
}.
#[global] Instance platform_object_fields : Fields platform_object :=
  of_ctor Build_platform_object <*> p_sequence <*> p_is_valid <*> p_total_votes <*> p_pledge
  <*> p_pledge_last_update <*> p_average_pledge <*> p_average_pledge_last_update
  <*> p_average_pledge_next_update_block <*> p_last_update_time <*> p_name <*> p_url
  <*> p_extra_data <*> p_create_time <*> vote_profits <*> period_profits.

(** [witness_vote_object], [committee_member_vote_object], [platform_vote_object]: a voter
    and what it voted for. *)
Record vote_object := {
  voter_uid : Z;
  voter_sequence : Z;
  target_uid : Z;
  target_sequence : Z;
}.
#[global] Instance vote_object_fields : Fields vote_object :=
  of_ctor Build_vote_object <*> voter_uid <*> voter_sequence <*> target_uid <*>
  target_sequence.

(** [asset_object] with the [asset_options] the modelled code reads. *)
Record asset_object := {
  issuer : Z;
  flags : Z;
  market_fee_percent : Z;
  max_market_fee : Z;
  reward_percent : option Z;
  whitelist_authorities : gset Z;
  blacklist_authorities : gset Z;
  whitelist_markets : gset Z;
  blacklist_markets : gset Z;
  symbol : string;
  precision : Z;
  max_supply : Z;
  issuer_permissions : Z;
  description : string;
}.
#[global] Instance asset_object_fields : Fields asset_object :=
  of_ctor Build_asset_object <*> issuer <*> flags <*> market_fee_percent <*> max_market_fee
  <*> reward_percent <*> whitelist_authorities <*> blacklist_authorities <*> whitelist_markets
  <*> blacklist_markets <*> symbol <*> precision <*> max_supply <*> issuer_permissions
  <*> description.

(** [asset_dynamic_data_object]. *)
Record asset_dynamic_data_object := {
  current_supply : Z;
  accumulated_fees : Z;
}.
#[global] Instance asset_dynamic_data_object_fields : Fields asset_dynamic_data_object :=
  of_ctor Build_asset_dynamic_data_object <*> current_supply <*> accumulated_fees.

(** [limit_order_object] (market_object.hpp), keyed by its id. *)
Record limit_order_object := {
  expiration : Z;
  seller : Z;
  for_sale : Z;
  sell_price : price;
}.
#[global] Instance limit_order_object_fields : Fields limit_order_object :=
  of_ctor Build_limit_order_object <*> expiration <*> seller <*> for_sale <*> sell_price.

(** [csaf_lease_object], keyed by (from, to). *)
Record csaf_lease_object := {
  l_amount : Z;
  l_expiration : Z;
  l_id : Z;
}.
#[global] Instance csaf_lease_object_fields : Fields csaf_lease_object :=
  of_ctor Build_csaf_lease_object <*> l_amount <*> l_expiration <*> l_id.

(** [account_auth_platform_object], keyed by (account, platform). *)
Record account_auth_platform_object := {
  permission_flags : Z;
  max_limit : Z;
  cur_used : Z;
  is_active : bool;
  ap_memo : option string;
}.
#[global] Instance account_auth_platform_object_fields : Fields account_auth_platform_object :=
  of_ctor Build_account_auth_platform_object <*> permission_flags <*> max_limit <*>
  cur_used <*> is_active <*> ap_memo.

(** [witness_schedule_object]. *)
Record witness_schedule_object := {
  current_by_vote_time : Z;
  current_by_pledge_time : Z;
  current_shuffled_witnesses : list Z;
  next_schedule_block_num : Z;
}.
#[global] Instance witness_schedule_object_fields : Fields witness_schedule_object :=
  of_ctor Build_witness_schedule_object <*> current_by_vote_time <*> current_by_pledge_time
  <*> current_shuffled_witnesses <*> next_schedule_block_num.

(** [pledge_mining_object], keyed by (witness, pledge_account). *)
Record pledge_mining_object := {
  pm_id : Z;
  last_bonus_block_num : Z;
  pm_pledge_id : Z;
}.
#[global] Instance pledge_mining_object_fields : Fields pledge_mining_object :=
  of_ctor Build_pledge_mining_object <*> pm_id <*> last_bonus_block_num <*> pm_pledge_id.

(** [committee_proposal_object], keyed by its number. *)
Record committee_proposal_object := {
  proposer : Z;
  items : list committee_proposal_item_type;
  voting_closing_block_num : Z;
  execution_block_num : Z;
  expiration_block_num : Z;
  opinions : flat_map Z voting_opinion_type;
  approve_threshold : Z;
  is_approved : bool;
}.
#[global] Instance committee_proposal_object_fields : Fields committee_proposal_object :=
  of_ctor Build_committee_proposal_object <*> proposer <*> items <*> voting_closing_block_num
  <*> execution_block_num <*> expiration_block_num <*> opinions <*> approve_threshold
  <*> is_approved.

(** The object database: one map per index. *)
Record database := {
  params : chain_parameters;
  dgp : dynamic_global_property_object;
  accounts : gmap Z account_object;
  stats : gmap Z account_statistics;
  balances : gmap (Z * Z) Z;
  pledge_balances : gmap Z pledge_balance_object;
  next_pledge_balance_id : Z;
  voters : gmap (Z * Z) voter_object;
  witnesses : gmap Z witness_object;
  witness_votes : list vote_object;
  committee_members : gmap Z committee_member_object;
  replaced_members : gmap (Z * Z) committee_member_object;
  committee_member_votes : list vote_object;
  platforms : gmap Z platform_object;
  platform_votes : list vote_object;
  assets : gmap Z asset_object;
  asset_dynamic_data : gmap Z asset_dynamic_data_object;
  limit_orders : gmap Z limit_order_object;
  next_order_id : Z;
  csaf_leases : gmap (Z * Z) csaf_lease_object;
  auth_platforms : gmap (Z * Z) account_auth_platform_object;
  witness_schedule : witness_schedule_object;
  active_witnesses : flat_map Z scheduled_witness_type;
  replaced_witnesses : gmap (Z * Z) witness_object;
  pledge_minings : gmap (Z * Z) pledge_mining_object;
  next_pledge_mining_id : Z;
  active_committee_members : list Z;
  committee_proposals : gmap Z committee_proposal_object;
  next_asset_id : Z;
  next_csaf_lease_id : Z;
  registrar_takeovers : gmap Z Z;
  fee_schedule : flat_map Z (list Z);
  replaced_platforms : gmap (Z * Z) platform_object;
  contents : content_objects;
}.
#[global] Instance database_fields : Fields database :=
  of_ctor Build_database <*> params <*> dgp <*> accounts <*> stats <*> balances
  <*> pledge_balances <*> next_pledge_balance_id <*> voters <*> witnesses <*> witness_votes
  <*> committee_members <*> replaced_members <*> committee_member_votes <*> platforms <*> platform_votes <*> assets
  <*> asset_dynamic_data <*> limit_orders <*> next_order_id <*> csaf_leases <*> auth_platforms
  <*> witness_schedule <*> active_witnesses <*> replaced_witnesses <*> pledge_minings
  <*> next_pledge_mining_id <*> active_committee_members <*> committee_proposals
  <*> next_asset_id <*> next_csaf_lease_id <*> registrar_takeovers <*> fee_schedule
  <*> replaced_platforms <*> contents.
(** ** Accessors (db_getter.cpp) *)
Definition head_block_time (d : database) : Z := time (dgp d).
Definition head_block_num (d : database) : Z := head_block_number (dgp d).
Definition hardfork (d : database) : Z := enabled_hardfork_version (dgp d).

Definition get_asset_by_aid (d : database) (aid : Z) : result asset_object :=
  deref (assets d !! aid) assert_exception.
Definition get_account_by_uid (d : database) (uid : Z) : result account_object :=
  deref (accounts d !! uid) assert_exception.
Definition get_account_statistics_by_uid (d : database) (uid : Z) : result account_statistics :=
  deref (stats d !! uid) assert_exception.
Definition find_voter (d : database) (uid sequence : Z) : option voter_object :=
  voters d !! (uid, sequence).
Definition find_witness_by_uid (d : database) (uid : Z) : option witness_object :=
  w ← witnesses d !! uid; if w_is_valid w then Some w else None.
Definition get_witness_by_uid (d : database) (uid : Z) : result witness_object :=
  deref (find_witness_by_uid d uid) assert_exception.
Definition find_committee_member_by_uid (d : database) (uid : Z) : option committee_member_object :=
  c ← committee_members d !! uid; if c_is_valid c then Some c else None.
Definition find_platform_by_owner (d : database) (owner : Z) : option platform_object :=
  p ← platforms d !! owner; if p_is_valid p then Some p else None.
Definition find_platform_by_sequence (d : database) (owner sequence : Z) : option platform_object :=
  p ← platforms d !! owner; if p_is_valid p && (p_sequence p =? sequence) then Some p else None.
(** [db.get(id)] of a pledge balance. *)
Definition get_pledge_balance_object (d : database) (id : Z) : result pledge_balance_object :=
  deref (pledge_balances d !! id) assert_exception.

(** [modify(obj, f)] for the objects changed in place. *)
Definition modify_stats (uid : Z) (f : account_statistics -> result account_statistics)
    : M database unit := fun d =>
  s ← get_account_statistics_by_uid d uid;
  s' ← f s;
  Ok (tt, d <| stats ::= <[uid := s']> |>).
Definition modify_voter (k : Z * Z) (f : voter_object -> result voter_object)
    : M database unit := fun d =>
  v ← deref (voters d !! k) undefined_behaviour;
  v' ← f v;
  Ok (tt, d <| voters ::= <[k := v']> |>).
Definition modify_witness (uid : Z) (f : witness_object -> result witness_object)
    : M database unit := fun d =>
  w ← deref (witnesses d !! uid) undefined_behaviour;
  w' ← f w;
  Ok (tt, d <| witnesses ::= <[uid := w']> |>).

(** ** Objects as their classes initialize them, before [create] sets their fields *)
Definition new_authority : auth.authority :=
  {| auth.weight_threshold := 0; auth.account_uid_auths := []; auth.key_auths := [] |}.
Definition new_account : account_object :=
  {| a_name := EmptyString; a_owner := new_authority; a_active := new_authority;
     a_secondary := new_authority; a_memo_key := 0;
     registrar := 0; referrer := 0; registrar_percent := 0; referrer_percent := 0;
     allowance_per_article := Asset 0 0; max_share_per_article := Asset 0 0;
     max_share_total := Asset 0 0; buyout_percent := 0;
     referrer_by_platform := 0; allowed_assets := None; whitelisting_accounts := [];
     blacklisting_accounts := []; whitelisted_accounts := []; blacklisted_accounts := [];
     can_post := true; can_reply := false; can_rate := false; is_full_member := false;
     is_registrar := false; is_admin := false; a_create_time := 0; last_update_time := 0 |}.
Definition new_account_statistics : account_statistics :=
  {| total_core_in_orders := 0; prepaid := 0; csaf := 0; core_balance := 0; core_leased_in := 0;
     core_leased_out := 0; average_coins := 0; average_coins_last_update := 0;
     coin_seconds_earned := 0; coin_seconds_earned_last_update := 0; total_mining_pledge := 0;
     uncollected_witness_pay := 0; uncollected_pledge_bonus := 0; uncollected_market_fees := ∅;
     uncollected_score_bonus := 0; is_voter := false; last_voter_sequence := 0;
     pledge_balance_ids := []; last_witness_sequence := 0; witness_last_confirmed_block_num := 0;
     witness_last_aslot := 0; witness_total_produced := 0; witness_total_missed := 0;
     witness_last_reported_block_num := 0; witness_total_reported := 0; can_vote := true;
     beneficiary := None; last_committee_member_sequence := 0; last_platform_sequence := 0;
     last_post_sequence := 0; last_license_sequence := 0; last_advertising_sequence := 0;
     last_custom_vote_sequence := 0 |}.
Definition new_witness : witness_object :=
  {| w_sequence := 0; w_is_valid := true; signing_key := 0; w_pledge := 0; pledge_last_update := 0;
     average_pledge := 0; average_pledge_last_update := 0; average_pledge_next_update_block := 0;
     w_total_votes := 0; by_pledge_position := 0; by_pledge_position_last_update := 0;
     by_pledge_scheduled_time := UINT128_MAX; by_vote_position := 0;
     by_vote_position_last_update := 0; by_vote_scheduled_time := UINT128_MAX; bonus_rate := 0;
     w_total_mining_pledge := 0; unhandled_bonus := 0; need_distribute_bonus := 0;
     last_update_bonus_block_num := 0; last_confirmed_block_num := 0; last_aslot := 0;
     total_produced := 0; total_missed := 0; w_url := EmptyString; can_pledge := false;
     bonus_per_pledge := []; already_distribute_bonus := 0 |}.
Definition new_platform : platform_object :=
  {| p_sequence := 0; p_is_valid := true; p_total_votes := 0; p_pledge := 0; p_pledge_last_update := 0;
     p_average_pledge := 0; p_average_pledge_last_update := 0; p_average_pledge_next_update_block := 0;
     p_last_update_time := 0; p_name := EmptyString; p_url := EmptyString; p_extra_data := "{}";
     p_create_time := 0; vote_profits := []; period_profits := [] |}.
Definition new_asset : asset_object :=
  {| issuer := 0; flags := 0; market_fee_percent := 0; max_market_fee := 0; reward_percent := None;
     whitelist_authorities := ∅; blacklist_authorities := ∅; whitelist_markets := ∅;
     blacklist_markets := ∅; symbol := EmptyString; precision := 0; max_supply := 0;
     issuer_permissions := 0; description := EmptyString |}.

(** An empty chain with small parameters, for concrete runs. *)
Definition sample_extension_parameters : extension_parameter_type :=
  {| content_award_interval := 0; platform_award_interval := 0; max_csaf_per_approval := 0;
     approval_expiration := 0; min_effective_csaf := 0; total_content_award_amount := 0;
     total_platform_content_award_amount := 0; total_platform_voted_award_amount := 0;
     platform_award_min_votes := 0; platform_award_requested_rank := 0;
     platform_award_basic_rate := 0; casf_modulus := 0; post_award_expiration := 0;
     approval_casf_min_weight := 0; approval_casf_first_rate := 0; approval_casf_second_rate
     := 0; receiptor_award_modulus := 0; disapprove_award_modulus := 0;
     advertising_confirmed_fee_rate := 0; advertising_confirmed_min_fee := 0;
     custom_vote_effective_time := 0; registrar_referrer_rate_from_score := 0;
     scorer_earnings_rate := 0; platform_content_award_min_votes := 0; trx_cpu_limit := 0;
     block_cpu_limit := 0; max_inter_contract_depth := 0; max_inline_action_size := 0 |}.
Definition sample_params : chain_parameters :=
  {| csaf_rate := 86400; max_csaf_per_account := 100000; csaf_accumulate_window := 604800;
     min_governance_voting_balance := 10000; max_governance_voting_proxy_level := 4;
     governance_voting_expiration_blocks := 2592000; governance_votes_update_interval := 28800;
     max_governance_votes_seconds := 86400; max_witness_pledge_seconds := 604800;
     witness_avg_pledge_update_interval := 1200; by_vote_top_witness_count := 2;
     by_vote_rest_witness_count := 1; by_pledge_witness_count := 1; block_interval := 3;
     maintenance_skip_slots := 0; content_award_skip_slots := 0; max_pledge_releasing_size := 20;
     unlocked_balance_release_delay := 201600; csaf_limit_lock_balance_modulus := 5000;
     min_witness_block_produce_pledge := 100;
     by_pledge_witness_pay_param := 50000; maintenance_interval := 86400;
     by_vote_top_witness_pay_per_block := 500; by_vote_rest_witness_pay_per_block := 300;
     max_witness_inactive_blocks := 28800; budget_adjust_interval := 1000; budget_adjust_target := 400;
     committee_size := 3; committee_update_interval := 2000; min_witness_pledge := 1000;
     witness_pledge_release_delay := 100; max_witnesses_voted_per_account := 5;
     min_mining_pledge := 10; mining_pledge_release_delay := 50; max_pledge_mining_bonus_rate := 9000;
     witness_report_prosecution_period := 86400; witness_report_allow_pre_last_block := false;
     witness_report_pledge_deduction_amount := 700; maximum_asset_whitelist_authorities := 10;
     platform_max_pledge_seconds := 604800; platform_avg_pledge_update_interval := 1200;
     maximum_transaction_size := 2048; maximum_block_size := 20480; maximum_time_until_expiration := 86400;
     maximum_authority_membership := 10; max_authority_depth := 2; min_committee_member_pledge := 1000;
     committee_member_pledge_release_delay := 100; platform_min_pledge := 1000;
     platform_pledge_release_delay := 100; platform_max_vote_per_account := 5;
     max_committee_members_voted_per_account := 3; allow_non_member_whitelists := true;
     extension_parameters := sample_extension_parameters |}.
Definition sample_db : database :=
  {| params := sample_params;
     dgp := {| time := 1600000000; head_block_number := 5000000; enabled_hardfork_version := HEAD_FORK_05;
               current_aslot := 0; recent_slots_filled := 0; maintenance_flag := false;
               content_award_skip_flag := false; by_pledge_witness_pay_per_block := 0;
               total_witness_pledge := 2000000000000; head_block_id := 0; current_witness := 0;
               budget_pool := 0; total_budget_per_block := 0; next_budget_adjust_block := 0;
               next_committee_update_block := 0; recently_missed_count := 0;
               last_irreversible_block_num := 0; resign_witness_pledge_before_05 := 0;
               next_committee_proposal_number := 1; next_content_award_time := 0; last_content_award_time := 0;
               next_platform_voted_award_time := 0; last_platform_voted_award_time := 0;
               current_active_post_sequence := 0; content_award_enable := false |};
     accounts := ∅; stats := ∅; balances := ∅; pledge_balances := ∅; next_pledge_balance_id := 0;
     voters := ∅; witnesses := ∅; witness_votes := []; committee_members := ∅;
     replaced_members := ∅; committee_member_votes := []; platforms := ∅; platform_votes := []; assets := ∅;
     asset_dynamic_data := ∅; limit_orders := ∅; next_order_id := 0; csaf_leases := ∅;
     auth_platforms := ∅;
     witness_schedule := {| current_by_vote_time := 0; current_by_pledge_time := 0;
                            current_shuffled_witnesses := []; next_schedule_block_num := 0 |};
     active_witnesses := []; replaced_witnesses := ∅; pledge_minings := ∅;
     next_pledge_mining_id := 0; active_committee_members := []; committee_proposals := ∅;
     next_asset_id := 1; next_csaf_lease_id := 0; registrar_takeovers := ∅; fee_schedule := [];
     replaced_platforms := ∅; contents := no_content |}.
End chain.
