(* ===== verification/AccountStats.v ===== *)
(** * Account statistics: available balances and coin-seconds
      (account_object.hpp, account_object.cpp)

    Coin-seconds accumulate with the effective balance over time and are capped
    by the average balance over a window; they are what fees can be paid with
    instead of coins. *)
From S2P Require Import Prelude FlatMap FcInt Asset Pledge ChainState.
Local Open Scope Z_scope.
Import asset pledge chain.

Module acc.
Section ops.
Context {F : FcInt}.

(** [cut_fee]: a percentage of an amount. *)
Definition cut_fee (a p : Z) : result Z :=
  if (a =? 0) || (p =? 0) then Ok 0
  else if p =? PERCENT_100 then Ok a
  else
    r ← u128_div (u128_mul (u128_of a) p) PERCENT_100;
    Ok (i64 (u128_to_u64 r)).

Definition pledge_id (t : pledge_balance_type) (s : account_statistics) : option Z :=
  fm_find t (pledge_balance_ids s).

(** [get_all_pledge_balance], [get_pledge_balance], [get_releasing_pledge]. *)
Fixpoint sum_pledges (d : database) (aid : Z) (l : flat_map pledge_balance_type Z) (res : Z)
    : result Z :=
  match l with
  | [] => Ok res
  | (_, id) :: l' =>
      p ← get_pledge_balance_object d id;
      res' ← (if pb_asset_id p =? aid
              then u ← total_unrelease_pledge p; safe_add res u
              else Ok res);
      sum_pledges d aid l' res'
  end.
Definition get_all_pledge_balance (aid : Z) (d : database) (s : account_statistics) : result Z :=
  sum_pledges d aid (pledge_balance_ids s) 0.
Definition get_pledge_balance (aid : Z) (t : pledge_balance_type) (d : database)
    (s : account_statistics) : result Z :=
  match pledge_id t s with
  | None => Ok 0
  | Some id =>
      p ← get_pledge_balance_object d id;
      if pb_asset_id p =? aid then total_unrelease_pledge p else Ok 0
  end.
Definition get_releasing_pledge (aid : Z) (t : pledge_balance_type) (d : database)
    (s : account_statistics) : result Z :=
  match pledge_id t s with
  | None => Ok 0
  | Some id =>
      p ← get_pledge_balance_object d id;
      Ok (if pb_asset_id p =? aid then total_releasing_pledge p else 0)
  end.

(** The two overloads of [get_available_core_balance]. *)
Definition get_available_core_balance (d : database) (s : account_statistics) : result Z :=
  all ← get_all_pledge_balance CORE_ASSET_AID d s;
  a ← safe_sub (core_balance s) all;
  b ← safe_sub a (total_mining_pledge s);
  safe_sub b (core_leased_out s).
Definition get_available_core_balance_excluding (t : pledge_balance_type) (d : database)
    (s : account_statistics) : result Z :=
  a ← get_available_core_balance d s;
  p ← get_pledge_balance CORE_ASSET_AID t d s;
  safe_add a p.

Definition get_votes_from_core_balance (s : account_statistics) : Z :=
  u64 (core_balance s + total_core_in_orders s).

(** The balance that earns coin-seconds, by enabled hard fork. *)
Definition effective_balance (d : database) (hf : Z) (s : account_statistics) : result Z :=
  let leased := a ← safe_add (core_balance s) (core_leased_in s);
                safe_sub a (core_leased_out s) in
  if hf =? HEAD_FORK_NONE then leased
  else if hf =? HEAD_FORK_04 then
    match pledge_id Witness s with
    | Some _ => b ← leased; p ← get_pledge_balance CORE_ASSET_AID Witness d s; safe_sub b p
    | None => leased
    end
  else if hf =? HEAD_FORK_05 then
    match pledge_id Lock_balance s with
    | Some id =>
        p ← get_pledge_balance_object d id;
        Ok (if pb_asset_id p =? CORE_ASSET_AID then pledge p else 0)
    | None => Ok 0
    end
  else Ok 0.

Definition round_minute (now : Z) : Z := now / 60 * 60.

(** The new average over the window. *)
Definition new_average (window now_rounded eff : Z) (s : account_statistics) : result Z :=
  if now_rounded <=? average_coins_last_update s then Ok (average_coins s)
  else
    let delta_seconds := now_rounded - average_coins_last_update s in
    if window <=? delta_seconds then Ok eff
    else
      let old_seconds := window - delta_seconds in
      let old_coin_seconds := u128_mul (u128_of (average_coins s)) old_seconds in
      let new_coin_seconds := u128_mul (u128_of eff) delta_seconds in
      q ← u128_div (u128_add old_coin_seconds new_coin_seconds) window;
      Ok (i64 (u128_to_u64 q)).

Definition compute_coin_seconds_earned (window now : Z) (d : database) (hf : Z)
    (s : account_statistics) : result (Z * Z) :=
  let now_rounded := round_minute now in
  eff ← effective_balance d hf s;
  avg ← new_average window now_rounded eff s;
  let max_coin_seconds := u128_mul (u128_of avg) window in
  let earned :=
    if now_rounded <=? coin_seconds_earned_last_update s then coin_seconds_earned s
    else
      let delta_seconds := now_rounded - coin_seconds_earned_last_update s in
      u128_add (coin_seconds_earned s) (u128_mul (u128_of eff) delta_seconds) in
  Ok (if max_coin_seconds <? earned then max_coin_seconds else earned, avg).

Definition compute_coin_seconds_earned_fix (window now : Z) (d : database) (hf : Z)
    (s : account_statistics) : result (Z * Z) :=
  compute_coin_seconds_earned window now d (if hf <? HEAD_FORK_05 then HEAD_FORK_NONE else hf) s.

Definition update_coin_seconds_earned (window now : Z) (d : database) (hf : Z)
    (s : account_statistics) : result account_statistics :=
  let now_rounded := round_minute now in
  if (now_rounded <=? coin_seconds_earned_last_update s) &&
     (now_rounded <=? average_coins_last_update s)
  then Ok s
  else
    '(earned, avg) ← compute_coin_seconds_earned window now_rounded d hf s;
    Ok (s <| coin_seconds_earned := earned |>
          <| coin_seconds_earned_last_update := now_rounded |>
          <| average_coins := avg |>
          <| average_coins_last_update := now_rounded |>).

Definition set_coin_seconds_earned (new_coin_seconds now : Z) (s : account_statistics)
    : account_statistics :=
  let now_rounded := round_minute now in
  let s := s <| coin_seconds_earned := new_coin_seconds |> in
  if coin_seconds_earned_last_update s <? now_rounded
  then s <| coin_seconds_earned_last_update := now_rounded |> else s.

Definition add_uncollected_market_fee (aid amt : Z) (s : account_statistics)
    : result account_statistics :=
  match uncollected_market_fees s !! aid with
  | Some x => y ← safe_add x amt; Ok (s <| uncollected_market_fees ::= <[aid := y]> |>)
  | None => Ok (s <| uncollected_market_fees ::= <[aid := amt]> |>)
  end.
End ops.

(** ** Bounds *)
Section bounds.
Context {F : FcInt} {FL : FcIntLaws F}.

(** Amounts, windows and times small enough for the 128-bit arithmetic. *)
Definition small_amount (x : Z) : Prop := 0 <= x <= MAX_SHARE_SUPPLY.
Definition stats_small (s : account_statistics) : Prop :=
  small_amount (average_coins s) /\ 0 <= coin_seconds_earned s < 2 ^ 120 /\
  is_uint 32 (average_coins_last_update s) /\ is_uint 32 (coin_seconds_earned_last_update s).

Lemma round_minute_bounds now : is_uint 32 now -> 0 <= round_minute now <= now.
Proof.
  unfold is_uint, round_minute. intros. pose proof (Z.mul_div_le now 60 ltac:(lia)).
  pose proof (Z.div_pos now 60 ltac:(lia) ltac:(lia)). lia.
Qed.

Lemma u128_small_product x y :
  small_amount x -> 0 <= y < 2 ^ 64 -> u128_mul (u128_of x) y = x * y /\ 0 <= x * y < 2 ^ 114.
Proof.
  unfold small_amount. intros. assert (0 <= x * y < 2 ^ 114) by nia.
  rewrite u128_of_small, u128_mul_small by lia. done.
Qed.

(** A weighted average lies between the two values. *)
Lemma average_between a b w1 w2 :
  0 <= w1 -> 0 <= w2 -> 0 < w1 + w2 -> Z.min a b <= (a * w1 + b * w2) / (w1 + w2) <= Z.max a b.
Proof.
  intros. split; [apply Z.div_le_lower_bound; [done|]|
    apply Z.lt_succ_r, Z.div_lt_upper_bound; [done|]]; nia.
Qed.

Lemma new_average_spec window nr eff s :
  stats_small s -> small_amount eff -> is_uint 32 nr -> 0 < window < 2 ^ 64 ->
  exists a, new_average window nr eff s = Ok a /\
    Z.min (average_coins s) eff <= a <= Z.max (average_coins s) eff /\ small_amount a.
Proof.
  intros (Ha & _ & Ht & _) He Hn Hw. unfold new_average.
  destruct (Z.leb_spec nr (average_coins_last_update s)).
  { exists (average_coins s). split; [done|]. split; [lia|done]. }
  destruct (Z.leb_spec window (nr - average_coins_last_update s)).
  { exists eff. split; [done|]. split; [lia|done]. }
  set (dt := nr - average_coins_last_update s) in *.
  destruct (u128_small_product (average_coins s) (window - dt)) as [E1 B1]; [done|lia|].
  destruct (u128_small_product eff dt) as [E2 B2]; [done|lia|].
  rewrite E1, E2, u128_add_small by lia. rewrite u128_div_law by lia. cbn [mbind result_bind].
  pose proof (average_between (average_coins s) eff (window - dt) dt ltac:(lia) ltac:(lia) ltac:(lia)) as Hb.
  replace (window - dt + dt) with window in Hb by lia.
  unfold small_amount in *.
  rewrite u128_to_u64_law, i64_small by (rewrite ?int64_ok_iff; lia). eexists. split; [done|].
  split; lia.
Qed.
End bounds.

(** C19. Coin-seconds are bounded.  Whenever the effective balance is defined
    and the amounts are within the share supply, the computation succeeds; the
    new average lies between the old average and the effective balance; the
    earned coin-seconds are not negative, never exceed the average over the
    window, and never exceed what was earned before plus the effective balance
    over the elapsed time. *)
Theorem coin_seconds_bounded {F : FcInt} {FL : FcIntLaws F} window now d hf s eff :
  effective_balance d hf s = Ok eff -> small_amount eff -> stats_small s ->
  is_uint 32 now -> 0 < window < 2 ^ 64 ->
  exists earned avg, compute_coin_seconds_earned window now d hf s = Ok (earned, avg) /\
    Z.min (average_coins s) eff <= avg <= Z.max (average_coins s) eff /\
    0 <= earned <= avg * window /\
    earned <= coin_seconds_earned s
              + eff * Z.max 0 (round_minute now - coin_seconds_earned_last_update s).
Proof.
  intros Heff He Hs Hnow Hw. pose proof (round_minute_bounds now Hnow) as Hr.
  assert (is_uint 32 (round_minute now)) as Hnr by (unfold is_uint in *; lia).
  unfold compute_coin_seconds_earned. rewrite Heff. cbn [mbind result_bind].
  destruct (new_average_spec window (round_minute now) eff s Hs He Hnr Hw) as (a & -> & Ha & Has).
  cbn [mbind result_bind]. destruct (u128_small_product a window) as [-> Hm]; [done|lia|].
  destruct Hs as (Hav & Hc & _ & Ht). unfold is_uint in *.
  eexists _, a. split; [reflexivity|]. split; [done|].
  destruct (Z.leb_spec (round_minute now) (coin_seconds_earned_last_update s)).
  - destruct (Z.ltb_spec (a * window) (coin_seconds_earned s)); unfold small_amount in He; nia.
  - set (dt := round_minute now - coin_seconds_earned_last_update s) in *.
    destruct (u128_small_product eff dt) as [-> Hd]; [done|lia|].
    rewrite u128_add_small by lia. rewrite Z.max_r by lia.
    destruct (Z.ltb_spec (a * window) (coin_seconds_earned s + eff * dt)); lia.
Qed.

Definition ex_stats : account_statistics :=
  new_account_statistics
    <| core_balance := 1000 |> <| average_coins := 400 |> <| average_coins_last_update := 600 |>
    <| coin_seconds_earned := 5000 |> <| coin_seconds_earned_last_update := 600 |>.

Lemma coin_seconds_bounded_witness :
  exists earned avg, compute_coin_seconds_earned (F := fc_checked) 3600 1234 sample_db HEAD_FORK_NONE ex_stats
                     = Ok (earned, avg) /\ 0 <= earned <= avg * 3600.
Proof.
  destruct (@coin_seconds_bounded fc_checked fc_checked_laws 3600 1234 sample_db HEAD_FORK_NONE ex_stats 1000)
    as (e & a & H & _ & Hb & _).
  - reflexivity.
  - unfold small_amount. lia.
  - unfold stats_small, small_amount, is_uint; cbn; lia.
  - unfold is_uint; lia.
  - lia.
  - exists e, a. split; [exact H|exact Hb].
Defined.
End acc.
