(* ===== verification/Voter.v ===== *)
(** * Governance voting (db_voter.cpp, with [adjust_witness_votes] of
      db_witness_schedule.cpp and [adjust_platform_votes] of db_update.cpp)

    A voter's effective votes follow its votes over a window; a change is
    added to the tallies of what the voter votes for, directly or through a
    chain of proxies of bounded length.  Each proxy records, per level of the
    chain, the votes proxied to it.

    The three kinds of ballots (witnesses, committee members, platforms) have
    the same shape in the code, which repeats the loops for each; the model
    has the loops once, over a [ballot]. *)
From S2P Require Import Prelude FlatMap FcInt Asset Pledge ChainState.
From S2P Require Import AccountStats.
Local Open Scope Z_scope.
Import asset pledge chain.

Module voter.
#[local] Notation M := (M database).

(** [v[i] = f(v[i])] of a [vector]; out of range there is no defined behaviour. *)
Definition vec_modify (i : nat) (f : Z -> Z) (l : list Z) : result (list Z) :=
  match l !! i with
  | Some x => Ok (<[i := f x]> l)
  | None => Throw undefined_behaviour
  end.

(** [t + seconds] of [fc::time_point_sec]. *)
Definition time_add (t seconds : Z) : Z := u32 (t + seconds).

(** [voter_object::total_votes], [update_effective_last_vote_block]. *)
Definition total_votes (v : voter_object) : Z :=
  fold_left (fun acc x => u64 (acc + x)) (proxied_votes v) (effective_votes v).
Definition update_effective_last_vote_block (v : voter_object) : result voter_object :=
  match proxy_last_vote_block v with
  | [] => Throw undefined_behaviour
  | x :: l => Ok (v <| effective_last_vote_block := fold_left Z.max l x |>)
  end.

Section ops.
Context {F : FcInt} {C : ChainConfig}.

(** The average of a value that grew, over the window; shared by
    [update_voter_effective_votes] and [update_witness_avg_pledge]. *)
Definition window_average (hf window now value value_last_update avg avg_last_update : Z)
    : result Z :=
  let delta_seconds := now - avg_last_update in
  if hf <? HEAD_FORK_05 then
    let old_seconds := u64 (window - delta_seconds) in
    q ← u128_div (u128_add (u128_mul (u128_of avg) old_seconds)
                           (u128_mul (u128_of value) delta_seconds)) window;
    Ok (u128_to_u64 q)
  else
    let total_seconds := u64 (window - (avg_last_update - value_last_update)) in
    q ← u128_div (u128_mul (u128_of (u64 (value - avg))) delta_seconds) total_seconds;
    Ok (u64 (avg + u128_to_u64 q)).

(** *** Tallies *)
Definition adjust_witness_votes (uid delta : Z) : M unit := fun d =>
  w ← deref (witnesses d !! uid) undefined_behaviour;
  if (delta =? 0) || negb (w_is_valid w) then Ok (tt, d)
  else
    let cur := current_by_vote_time (witness_schedule d) in
    modify_witness uid (fun w =>
      let w := if by_vote_position_last_update w <? cur then
                 let delta_pos := u128_mul (u128_sub cur (by_vote_position_last_update w))
                                           (w_total_votes w) in
                 w <| by_vote_position ::= fun p => u128_add p delta_pos |>
                   <| by_vote_position_last_update := cur |>
               else w in
      let w := w <| w_total_votes ::= fun t => u64 (t + delta) |> in
      need_time ← u128_div (u128_sub VIRTUAL_LAP_LENGTH (by_vote_position w))
                           (u64 (w_total_votes w + 1));
      let scheduled := u128_add (by_vote_position_last_update w) need_time in
      Ok (w <| by_vote_scheduled_time := if scheduled <? cur then UINT128_MAX else scheduled |>)) d.

Definition adjust_committee_member_votes (uid delta : Z) : M unit := fun d =>
  c ← deref (committee_members d !! uid) undefined_behaviour;
  if (delta =? 0) || negb (c_is_valid c) then Ok (tt, d)
  else Ok (tt, d <| committee_members ::=
                      <[uid := c <| c_total_votes ::= fun t => u64 (t + delta) |>]> |>).

Definition adjust_platform_votes (owner delta : Z) : M unit := fun d =>
  p ← deref (platforms d !! owner) undefined_behaviour;
  if (delta =? 0) || negb (p_is_valid p) then Ok (tt, d)
  else Ok (tt, d <| platforms ::=
                      <[owner := p <| p_total_votes ::= fun t => u64 (t + delta) |>]> |>).

(** *** Ballots *)
Record ballot := Ballot {
  b_votes : database -> list vote_object;
  b_set_votes : list vote_object -> database -> database;
  (** sequence and tally of the valid object of an account *)
  b_target : database -> Z -> option (Z * Z);
  b_adjust : Z -> Z -> M unit;
  (** the voter's number of direct votes of this kind *)
  b_set_number : (Z -> Z) -> voter_object -> voter_object;
  b_number : voter_object -> Z;
  (** how many an account may vote for *)
  b_max : chain_parameters -> Z;
}.
Definition witness_ballot : ballot :=
  {| b_votes := witness_votes;
     b_set_votes := fun l d => d <| witness_votes := l |>;
     b_target := fun d u => w ← find_witness_by_uid d u; Some (w_sequence w, w_total_votes w);
     b_adjust := adjust_witness_votes;
     b_set_number := fun f v => v <| number_of_witnesses_voted ::= f |>;
     b_number := number_of_witnesses_voted; b_max := max_witnesses_voted_per_account |}.
Definition committee_ballot : ballot :=
  {| b_votes := committee_member_votes;
     b_set_votes := fun l d => d <| committee_member_votes := l |>;
     b_target := fun d u => c ← find_committee_member_by_uid d u; Some (c_sequence c, c_total_votes c);
     b_adjust := adjust_committee_member_votes;
     b_set_number := fun f v => v <| number_of_committee_members_voted ::= f |>;
     b_number := number_of_committee_members_voted; b_max := max_committee_members_voted_per_account |}.
Definition platform_ballot : ballot :=
  {| b_votes := platform_votes;
     b_set_votes := fun l d => d <| platform_votes := l |>;
     b_target := fun d u => p ← find_platform_by_owner d u; Some (p_sequence p, p_total_votes p);
     b_adjust := adjust_platform_votes;
     b_set_number := fun f v => v <| number_of_platform_voted ::= f |>;
     b_number := number_of_platform_voted; b_max := platform_max_vote_per_account |}.

Definition is_vote_of (k : Z * Z) (o : vote_object) : bool :=
  (voter_uid o =? k.1) && (voter_sequence o =? k.2).
(** The vote's target is the current valid object of the account. *)
Definition target_current (b : ballot) (d : database) (o : vote_object) : bool :=
  match b_target b d (target_uid o) with
  | Some (sequence, _) => sequence =? target_sequence o
  | None => false
  end.

(** The loop over the voter's votes: adjust what is current; returns the
    number of votes to remove. *)
Fixpoint adjust_loop (b : ballot) (os : list vote_object) (delta removed : Z) : M Z := fun d =>
  match os with
  | [] => Ok (removed, d)
  | o :: os' =>
      if target_current b d o then
        (b_adjust b (target_uid o) delta ;; adjust_loop b os' delta removed) d
      else adjust_loop b os' delta (u16 (removed + 1)) d
  end.
(** [adjust_voter_self_{witness,committee_member,platform}_votes]. *)
Definition adjust_voter_self (b : ballot) (k : Z * Z) (delta : Z) : M unit := fun d =>
  let stale o := is_vote_of k o && negb (target_current b d o) in
  '(removed, d1) ← adjust_loop b (filter (fun o => is_vote_of k o = true) (b_votes b d)) delta 0 d;
  let d2 := b_set_votes b (filter (fun o => stale o = false) (b_votes b d1)) d1 in
  (if 0 <? removed
   then modify_voter k (fun v => Ok (b_set_number b (fun n => u16 (n - removed)) v)) d2
   else Ok (tt, d2)).
Definition adjust_voter_self_witness_votes := adjust_voter_self witness_ballot.
Definition adjust_voter_self_committee_member_votes := adjust_voter_self committee_ballot.
Definition adjust_voter_self_platform_votes := adjust_voter_self platform_ballot.

Definition adjust_voter_self_votes (k : Z * Z) (delta : Z) : M unit :=
  adjust_voter_self_witness_votes k delta ;;
  adjust_voter_self_committee_member_votes k delta ;;
  adjust_voter_self_platform_votes k delta.

(** *** Proxies *)
Definition votes_by_self (v : voter_object) : bool := proxy_uid v =? PROXY_TO_SELF_ACCOUNT_UID.
Definition proxy_key (v : voter_object) : Z * Z := (proxy_uid v, proxy_sequence v).

Definition get_voter (k : Z * Z) : M voter_object := fun d =>
  v ← deref (voters d !! k) undefined_behaviour; Ok (v, d).

(** The loop of [adjust_voter_votes]: follow the proxies for at most [n] more
    levels; returns the last voter reached. *)
Fixpoint proxy_walk (n level : nat) (cur : Z * Z) (delta : Z) : M (Z * Z) :=
  v ← get_voter cur;
  if votes_by_self v then mret cur
  else match n with
       | O => mret cur
       | S n' =>
           modify_voter (proxy_key v) (fun p =>
             l ← vec_modify level (fun x => u64 (x + delta)) (proxied_votes p);
             Ok (p <| proxied_votes := l |>)) ;;
           proxy_walk n' (S level) (proxy_key v) delta
       end.
Definition adjust_voter_votes (k : Z * Z) (delta : Z) : M unit :=
  max_level ← gets (fun d => max_governance_voting_proxy_level (params d));
  current ← proxy_walk max_level 0 k delta;
  v ← get_voter current;
  when (votes_by_self v) (adjust_voter_self_votes current delta) ;;
  d ← get;
  ant ← lift (get_account_by_uid d k.1);
  if referrer_by_platform ant =? 0 then mret tt
  else match find_platform_by_sequence d (referrer ant) (referrer_by_platform ant) with
       | Some _ => adjust_platform_votes (referrer ant) delta
       | None => mret tt
       end.

(** [update_voter_effective_votes(voter)]. *)
Definition next_effective_votes (d : database) (v : voter_object) : result voter_object :=
  let window := max_governance_votes_seconds (params d) in
  let now := head_block_time d in
  let next_block := u32 (head_block_num d + governance_votes_update_interval (params d)) in
  if effective_votes v =? votes v then
    Ok (v <| effective_votes_last_update := now |> <| effective_votes_next_update_block := NEVER |>)
  else if (votes v <? effective_votes v) || (time_add (votes_last_update v) window <=? now) then
    Ok (v <| effective_votes := votes v |> <| effective_votes_last_update := now |>
          <| effective_votes_next_update_block := NEVER |>)
  else if effective_votes_last_update v <? now then
    avg ← window_average (hardfork d) window now (votes v) (votes_last_update v)
            (effective_votes v) (effective_votes_last_update v);
    Ok (v <| effective_votes := avg |> <| effective_votes_last_update := now |>
          <| effective_votes_next_update_block := next_block |>)
  else Ok (v <| effective_votes_next_update_block := next_block |>).
Definition update_voter_effective_votes (k : Z * Z) : M unit :=
  d ← get;
  v ← get_voter k;
  v' ← lift (next_effective_votes d v);
  modify_voter k (fun _ => Ok v') ;;
  if effective_votes v =? effective_votes v' then mret tt
  else
    delta ← lift (safe_sub (i64 (effective_votes v')) (i64 (effective_votes v)));
    adjust_voter_votes k delta.

(** [adjust_voter_proxy_votes]: [path] collects the voters from the first one
    up, the last one reached first. *)
Fixpoint add_levels (j : nat) (delta : list Z) (l : list Z) : result (list Z) :=
  match delta with
  | [] => Ok l
  | x :: delta' => l' ← vec_modify j (fun y => u64 (y + x)) l; add_levels (S j) delta' l'
  end.
Fixpoint proxy_votes_walk (n level : nat) (cur : Z * Z) (delta : list Z) (path : list (Z * Z))
    : M (nat * list (Z * Z)) :=
  match n with
  | O => mret (level, path)
  | S n' =>
      c ← get_voter cur;
      let p := proxy_key c in
      modify_voter p (fun v =>
        l ← add_levels level (take n delta) (proxied_votes v);
        Ok (v <| proxied_votes := l |>)) ;;
      v ← get_voter p;
      if votes_by_self v then mret (level, p :: path)
      else proxy_votes_walk n' (S level) p delta (p :: path)
  end.
Definition copy_last_vote (max_level : nat) (src : voter_object) (v : voter_object)
    : result voter_object :=
  l ← foldr (fun j acc =>
               l ← acc;
               x ← deref (proxy_last_vote_block src !! (j - 1)%nat) undefined_behaviour;
               vec_modify j (fun _ => x) l)
            (Ok (proxy_last_vote_block v)) (rev (seq 1 max_level));
  update_effective_last_vote_block (v <| proxy_last_vote_block := l |>).
Fixpoint refresh_last_votes (max_level : nat) (path : list (Z * Z)) : M unit :=
  match path with
  | top :: ((below :: _) as path') =>
      src ← get_voter top;
      modify_voter below (copy_last_vote max_level src) ;;
      refresh_last_votes max_level path'
  | _ => mret tt
  end.
Definition sum_delta (l : list Z) : result Z :=
  foldr (fun x acc => a ← acc; safe_add a x) (Ok 0) (rev l).
Definition adjust_voter_proxy_votes (k : Z * Z) (delta : list Z) (update_last_vote : bool)
    : M unit :=
  max_level ← gets (fun d => max_governance_voting_proxy_level (params d));
  '(level, path) ← proxy_votes_walk max_level 0 k delta [k];
  when update_last_vote (refresh_last_votes max_level path) ;;
  let current := default k (head path) in
  v ← get_voter current;
  when (votes_by_self v)
    (total ← lift (sum_delta (take (max_level - level) delta));
     adjust_voter_self_votes current total).

(** [clear_voter_{witness,committee_member,platform}_votes]. *)
Fixpoint clear_loop (b : ballot) (os : list vote_object) (minus_votes : Z) : M unit := fun d =>
  match os with
  | [] => Ok (tt, d)
  | o :: os' =>
      if target_current b d o then
        (b_adjust b (target_uid o) minus_votes ;; clear_loop b os' minus_votes) d
      else clear_loop b os' minus_votes d
  end.
Definition clear_voter_ballot (b : ballot) (k : Z * Z) : M unit := fun d =>
  v ← deref (voters d !! k) undefined_behaviour;
  let os := filter (fun o => is_vote_of k o = true) (b_votes b d) in
  (* -votes is computed only for a vote that counts *)
  minus ← (if existsb (target_current b d) os then safe_neg (i64 (total_votes v)) else Ok 0);
  '(_, d1) ← clear_loop b os minus d;
  let d2 := b_set_votes b (filter (fun o => is_vote_of k o = false) (b_votes b d1)) d1 in
  modify_voter k (fun v => Ok (b_set_number b (fun _ => 0) v)) d2.
Definition clear_voter_witness_votes := clear_voter_ballot witness_ballot.
Definition clear_voter_committee_member_votes := clear_voter_ballot committee_ballot.
Definition clear_voter_platform_votes := clear_voter_ballot platform_ballot.

Definition clear_voter_proxy_votes (k : Z * Z) : M unit :=
  v ← get_voter k;
  fc_assert (negb (votes_by_self v)) ;;
  max_level ← gets (fun d => max_governance_voting_proxy_level (params d));
  fst_delta ← lift (match max_level with
                    | O => Throw undefined_behaviour
                    | _ => safe_neg (i64 (effective_votes v)) end);
  rest ← lift (mapM (fun i => x ← deref (proxied_votes v !! (i - 1)%nat) undefined_behaviour;
                              safe_neg (i64 x)) (seq 1 (max_level - 1)));
  adjust_voter_proxy_votes k (fst_delta :: rest) true.

Definition clear_voter_votes (k : Z * Z) : M unit :=
  v ← get_voter k;
  if votes_by_self v then
    clear_voter_witness_votes k ;; clear_voter_committee_member_votes k ;;
    clear_voter_platform_votes k
  else clear_voter_proxy_votes k.

Definition invalidate_voter (k : Z * Z) : M unit :=
  v ← get_voter k;
  if negb (v_is_valid v) then mret tt
  else
    clear_voter_votes k ;;
    v ← get_voter k;
    when (negb (votes_by_self v))
      (modify_voter (proxy_key v) (fun p => Ok (p <| proxied_voters ::= fun n => u64 (n - 1) |>))) ;;
    modify_stats k.1 (fun s => Ok (s <| is_voter := false |>)) ;;
    now ← gets head_block_time;
    modify_voter k (fun v =>
      let v := v <| v_is_valid := false |> <| votes := 0 |> <| votes_last_update := now |>
                 <| effective_votes := 0 |> <| effective_votes_last_update := now |>
                 <| effective_votes_next_update_block := NEVER |> in
      Ok (if negb (votes_by_self v)
          then v <| proxy_uid := PROXY_TO_SELF_ACCOUNT_UID |> <| proxy_sequence := 0 |> else v)).

(** [check_voter_valid(voter, deep_check)]. *)
Fixpoint any_above (n : nat) (bound : Z) (l : list Z) : result bool :=
  match n with
  | O => Ok false
  | S n' => match l with
            | [] => Throw undefined_behaviour
            | x :: l' => if bound <? x then Ok true else any_above n' bound l'
            end
  end.
Fixpoint check_levels (d : database) (level : nat) (bound : Z) (v : voter_object) : result bool :=
  any ← any_above (S level) bound (proxy_last_vote_block v);
  if any : bool then Ok true
  else if votes_by_self v then Ok false
  else match level with
       | O => Ok false
       | S level' =>
           match find_voter d (proxy_uid v) (proxy_sequence v) with
           | None => Ok false
           | Some p => check_levels d level' bound p
           end
       end.
Definition check_voter_valid (d : database) (v : voter_object) (deep_check : bool) : result bool :=
  if negb deep_check then Ok (v_is_valid v)
  else if negb (v_is_valid v) then Ok false
  else
    let expire_blocks := governance_voting_expiration_blocks (params d) in
    if head_block_num d <? expire_blocks then Ok true
    else check_levels d (max_governance_voting_proxy_level (params d))
           (u32 (head_block_num d - expire_blocks)) v.
End ops.
End voter.
