(* ===== verification/Voting.v ===== *)
(** * Voting (witness_evaluator.cpp, committee_member_evaluator.cpp,
      content_evaluator.cpp, and the validation of the operations)

    Accounts with enough coins vote for witnesses, committee members and
    platforms.  The three operations are written out three times in the code
    and differ in the indexes they use, so they are one definition here, for a
    [ballot]. *)
From S2P Require Import Prelude FlatMap FcInt Asset Pledge ChainState.
From S2P Require Import AccountStats Voter.
Local Open Scope Z_scope.
Import asset pledge chain acc voter.

Module voting.
#[local] Notation M := (M database).

Record vote_update_operation := { wv_voter : Z; wv_add : list Z; wv_remove : list Z }.

(** What [do_evaluate] leaves: the voter that votes, the one to invalidate, the
    invalid proxy, and the votes for objects that are gone. *)
Record vote_plan := {
  vp_voter : option (Z * Z); vp_invalid : option (Z * Z); vp_invalid_proxy : option (Z * Z);
  vp_stale : list vote_object }.

#[global] Instance vote_object_eq_dec : EqDecision vote_object.
Proof. solve_decision. Defined.

Definition size_of {A} (l : list A) : Z := Z.of_nat (length l).
Definition empty {A} (l : list A) : bool := match l with [] => true | _ => false end.

Section validate.
Variable is_valid_uid : Z -> bool.
(** The walk over the two ordered sets that finds a common uid. *)
Fixpoint common_uid (fuel : nat) (l k : list Z) : bool :=
  match fuel, l, k with
  | S n, x :: l', y :: k' =>
      if x =? y then true else if x <? y then common_uid n l' k else common_uid n l k'
  | _, _, _ => false
  end.
Definition validate_vote_update (op : vote_update_operation) : result unit :=
  guard_ok (is_valid_uid (wv_voter op)) assert_exception ;;
  guard_ok (negb (common_uid (length (wv_add op) + length (wv_remove op)) (wv_add op) (wv_remove op)))
    assert_exception ;;
  guard_ok (forallb is_valid_uid (wv_add op)) assert_exception ;;
  guard_ok (forallb is_valid_uid (wv_remove op)) assert_exception.
End validate.

Section ops.
Context {F : FcInt} {C : ChainConfig} (b : ballot).

(** The valid object of an account: its sequence and tally. *)
Definition get_target (d : database) (uid : Z) : result (Z * Z) :=
  deref (b_target b d uid) assert_exception.
Definition vote_for (k : Z * Z) (uid : Z) (sequence : Z) : vote_object :=
  {| voter_uid := k.1; voter_sequence := k.2; target_uid := uid; target_sequence := sequence |}.
Definition find_vote (d : database) (o : vote_object) : bool := bool_decide (o ∈ b_votes b d).

(** A voter that votes for itself. *)
Definition check_own_votes (op : vote_update_operation) (k : Z * Z) (v : voter_object)
    (removed added : list (Z * Z)) (d : database) : result (list vote_object) :=
  let stale := filter (fun o => is_vote_of k o && negb (target_current b d o) = true)
                 (b_votes b d) in
  let voted := u16 (b_number b v - size_of stale) in
  guard_ok (size_of (wv_remove op) <=? voted) assert_exception ;;
  let new_total := u16 (voted - size_of (wv_remove op) + size_of (wv_add op)) in
  guard_ok (new_total <=? b_max b (params d)) assert_exception ;;
  guard_ok (forallb (fun x => find_vote d (vote_for k x.1 x.2.1)) (zip (wv_remove op) removed))
    assert_exception ;;
  guard_ok (forallb (fun x => negb (find_vote d (vote_for k x.1 x.2.1))) (zip (wv_add op) added))
    assert_exception ;;
  Ok stale.

Definition vote_update_evaluate (op : vote_update_operation) (d : database) : result vote_plan :=
  s ← get_account_statistics_by_uid d (wv_voter op);
  guard_ok (can_vote s) assert_exception ;;
  guard_ok (i64 (min_governance_voting_balance (params d)) <=? core_balance s) assert_exception ;;
  guard_ok (size_of (wv_add op) <=? b_max b (params d)) assert_exception ;;
  removed ← mapM (get_target d) (wv_remove op);
  added ← mapM (get_target d) (wv_add op);
  let k := (wv_voter op, last_voter_sequence s) in
  own ← (if is_voter s then
           v ← deref (voters d !! k) assert_exception;
           still_valid ← check_voter_valid d v true;
           Ok (Some (v, still_valid))
         else Ok None);
  match own with
  | Some (v, true) =>
      if votes_by_self v then
        stale ← check_own_votes op k v removed added d;
        Ok {| vp_voter := Some k; vp_invalid := None; vp_invalid_proxy := None; vp_stale := stale |}
      else
        p ← deref (voters d !! proxy_key v) assert_exception;
        proxy_valid ← check_voter_valid d p true;
        if proxy_valid : bool then
          guard_ok (empty (wv_remove op) && empty (wv_add op)) assert_exception ;;
          Ok {| vp_voter := Some k; vp_invalid := None; vp_invalid_proxy := None; vp_stale := [] |}
        else
          guard_ok (empty (wv_remove op)) assert_exception ;;
          Ok {| vp_voter := Some k; vp_invalid := None; vp_invalid_proxy := Some (proxy_key v);
                vp_stale := [] |}
  | Some (_, false) =>
      guard_ok (empty (wv_remove op)) assert_exception ;;
      Ok {| vp_voter := None; vp_invalid := Some k; vp_invalid_proxy := None; vp_stale := [] |}
  | None =>
      guard_ok (empty (wv_remove op)) assert_exception ;;
      Ok {| vp_voter := None; vp_invalid := None; vp_invalid_proxy := None; vp_stale := [] |}
  end.

(** [create<voter_object>] for an account that starts to vote. *)
Definition new_voter (d : database) (s : account_statistics) (voted : Z) : voter_object :=
  let max_level := max_governance_voting_proxy_level (params d) in
  b_set_number b (fun _ => u16 voted)
  {| v_is_valid := true; votes := get_votes_from_core_balance s;
     votes_last_update := head_block_time d; effective_votes := 0;
     effective_votes_last_update := head_block_time d;
     effective_votes_next_update_block :=
       u32 (head_block_num d + governance_votes_update_interval (params d));
     proxy_uid := PROXY_TO_SELF_ACCOUNT_UID; proxy_sequence := 0; proxied_voters := 0;
     proxied_votes := repeat 0 max_level;
     proxy_last_vote_block := head_block_num d :: repeat 0 max_level;
     effective_last_vote_block := head_block_num d; number_of_witnesses_voted := 0;
     number_of_platform_voted := 0; number_of_committee_members_voted := 0 |}.
Definition start_voting (uid voted : Z) : M (Z * Z) :=
  modify_stats uid (fun s =>
    Ok (s <| is_voter := true |> <| last_voter_sequence ::= fun n => u32 (n + 1) |>)) ;;
  d ← get;
  s ← lift (get_account_statistics_by_uid d uid);
  let k := (uid, last_voter_sequence s) in
  upd (fun d => d <| voters ::= <[k := new_voter d s voted]> |>) ;;
  mret k.

Definition remove_vote (o : vote_object) : M unit :=
  upd (fun d => b_set_votes b (filter (fun o' => o' <> o) (b_votes b d)) d).
Definition withdraw_votes (k : Z * Z) (total : Z) (uids : list Z) : M unit :=
  mfor (fun uid =>
    d ← get;
    w ← lift (get_target d uid);
    n ← lift (safe_neg total);
    b_adjust b uid n ;;
    remove_vote (vote_for k uid w.1)) uids.
Definition cast_votes (k : Z * Z) (total : Z) (uids : list Z) : M unit :=
  mfor (fun uid =>
    d ← get;
    w ← lift (get_target d uid);
    upd (fun d => b_set_votes b (b_votes b d ++ [vote_for k uid w.1]) d) ;;
    when (0 <? total) (b_adjust b uid total)) uids.

(** The existing voter withdraws votes; returns its total votes. *)
Definition update_voter (op : vote_update_operation) (k : Z * Z) (pl : vote_plan) : M Z :=
  when (some (vp_invalid_proxy pl))
    (clear_voter_proxy_votes k ;;
     match vp_invalid_proxy pl with
     | Some p => modify_voter p (fun v => Ok (v <| proxied_voters ::= fun n => u64 (n - 1) |>))
     | None => mret tt
     end) ;;
  mfor remove_vote (vp_stale pl) ;;
  v ← get_voter k;
  let total := i64 (total_votes v) in
  withdraw_votes k total (wv_remove op) ;;
  d ← get;
  modify_voter k (fun v =>
    let v := if some (vp_invalid_proxy pl)
             then v <| proxy_uid := PROXY_TO_SELF_ACCOUNT_UID |> <| proxy_sequence := 0 |> else v in
    l ← vec_modify 0 (fun _ => head_block_num d) (proxy_last_vote_block v);
    Ok (b_set_number b
          (fun n => u16 (n - size_of (vp_stale pl) - size_of (wv_remove op) + size_of (wv_add op)))
          (v <| proxy_last_vote_block := l |> <| effective_last_vote_block := head_block_num d |>))) ;;
  mret total.

Definition vote_update_apply (op : vote_update_operation) (pl : vote_plan) : M unit :=
  match vp_invalid_proxy pl with Some p => invalidate_voter p | None => mret tt end ;;
  match vp_invalid pl with Some k => invalidate_voter k | None => mret tt end ;;
  '(k, total) ← (match vp_voter pl with
                 | Some k => total ← update_voter op k pl; mret (k, total)
                 | None => k ← start_voting (wv_voter op) (size_of (wv_add op)); mret (k, 0)
                 end);
  cast_votes k total (wv_add op).
Definition vote_update (op : vote_update_operation) : M unit :=
  d ← get; pl ← lift (vote_update_evaluate op d); vote_update_apply op pl.
End ops.
End voting.
