(* ===== verification/WitnessSchedule.v ===== *)
(** * The witness schedule (db_witness_schedule.cpp; get_witness_pay_by_pledge of db_update.cpp)

    Time is cut into slots of one block interval.  Every round the schedule
    picks the witnesses with most votes, then others by vote and by pledge in
    the order of their scheduled times (a witness comes up more often the more
    votes or pledge it has), and shuffles them over the next slots.  An index of
    witnesses that starts with [is_valid] is the list of valid witnesses ordered
    by the rest of its key. *)
From S2P Require Import Prelude FlatMap FcInt Asset Pledge ChainState.
From S2P Require Import AccountStats Voter.
Local Open Scope Z_scope.
Import asset pledge chain acc voter.

Module schedule.
#[local] Notation M := (M database).

(** ** Slots *)
Definition get_scheduled_witness (slot_num : Z) (d : database) : result Z :=
  let aslot := u64 (current_aslot (dgp d) + slot_num) in
  let ws := current_shuffled_witnesses (witness_schedule d) in
  guard_ok (negb (length ws =? 0)%nat) undefined_behaviour ;;
  deref (ws !! Z.to_nat (aslot mod Z.of_nat (length ws))) undefined_behaviour.

Definition get_slot_time (slot_num : Z) (d : database) : result Z :=
  if slot_num =? 0 then Ok 0
  else
    let interval := block_interval (params d) in
    if head_block_num d =? 0 then Ok (time_add (time (dgp d)) (u32 (slot_num * interval)))
    else
      guard_ok (negb (interval =? 0)) undefined_behaviour ;;
      let head_slot_time := u32 (head_block_time d / interval * interval) in
      let slot_num := if maintenance_flag (dgp d)
                      then u32 (slot_num + maintenance_skip_slots (params d)) else slot_num in
      let slot_num := if content_award_skip_flag (dgp d)
                      then u32 (slot_num + content_award_skip_slots (params d)) else slot_num in
      Ok (time_add head_slot_time (u32 (slot_num * interval))).

Definition get_slot_at_time (when : Z) (d : database) : result Z :=
  first_slot_time ← get_slot_time 1 d;
  if when <? first_slot_time then Ok 0
  else
    guard_ok (negb (block_interval (params d) =? 0)) undefined_behaviour ;;
    Ok (u32 ((when - first_slot_time) / block_interval (params d) + 1)).

Fixpoint popcount (p : positive) : Z :=
  match p with xH => 1 | xO q => popcount q | xI q => 1 + popcount q end.
Definition witness_participation_rate (d : database) : Z :=
  PERCENT_100 * (match recent_slots_filled (dgp d) with Zpos p => popcount p | _ => 0 end) / 128.

(** ** The indices of witnesses *)
Definition rank_le (key : witness_object -> Z) (x y : Z * witness_object) : Prop :=
  key x.2 < key y.2 \/ key x.2 = key y.2 /\ x.1 <= y.1.
#[local] Instance rank_le_dec key x y : Decision (rank_le key x y).
Proof. unfold rank_le. apply _. Defined.
Definition ranked (key : witness_object -> Z) (d : database) : list (Z * witness_object) :=
  merge_sort (rank_le key) (filter (fun x => w_is_valid x.2 = true) (map_to_list (witnesses d))).
Definition by_votes := ranked (fun w => - w_total_votes w).
Definition by_vote_schedule := ranked by_vote_scheduled_time.
Definition by_pledge_schedule := ranked by_pledge_scheduled_time.
Definition by_valid := ranked (fun _ => 0).

(** ** Choosing the witnesses of a round *)
Notation witness_map := (flat_map Z scheduled_witness_type).

Fixpoint pick_top (max : nat) (ws : list (Z * witness_object)) (new_witnesses : witness_map)
    : witness_map :=
  match ws with
  | [] => new_witnesses
  | (uid, w) :: ws' =>
      if (length new_witnesses <? max)%nat then
        pick_top max ws'
          (if negb (signing_key w =? 0) then fm_emplace uid scheduled_by_vote_top new_witnesses
           else new_witnesses)
      else new_witnesses
  end.

(** What a loop over a schedule leaves: the witnesses chosen, how many it
    added, those it passed, and the scheduled time it reached. *)
Record picked := {
  p_witnesses : witness_map; p_added : nat; p_processed : list Z; p_time : Z }.

Fixpoint pick (eligible : witness_object -> bool) (kind : scheduled_witness_type)
    (scheduled : witness_object -> Z) (max : nat) (ws : list (Z * witness_object)) (p : picked)
    : picked :=
  match ws with
  | [] => p
  | (uid, w) :: ws' =>
      if (p_added p <? max)%nat then
        let new := negb (signing_key w =? 0) &&
                   match fm_find uid (p_witnesses p) with Some _ => false | None => true end &&
                   eligible w in
        pick eligible kind scheduled max ws'
          {| p_witnesses := if new then fm_emplace uid kind (p_witnesses p) else p_witnesses p;
             p_added := if new then S (p_added p) else p_added p;
             p_processed := p_processed p ++ [uid];
             p_time := scheduled w |}
      else p
  end.

Section ops.
Context {F : FcInt}.

(** The time a witness with that many votes or coins needs for a lap. *)
Definition lap_time (weight : Z) : result Z := u128_div VIRTUAL_LAP_LENGTH (u64 (weight + 1)).
Definition pledge_weight (w : witness_object) : Z := u64 (average_pledge w + w_total_mining_pledge w).

Definition reset_witness_by_pledge_schedule : M unit :=
  upd (fun d => d <| witness_schedule ::= fun s => s <| current_by_pledge_time := 0 |> |>) ;;
  d ← get;
  mfor (fun x => modify_witness x.1 (fun w =>
    t ← lap_time (pledge_weight w);
    Ok (w <| by_pledge_position := 0 |> <| by_pledge_position_last_update := 0 |>
          <| by_pledge_scheduled_time := t |>))) (by_valid d).

Definition reset_witness_by_vote_schedule : M unit :=
  upd (fun d => d <| witness_schedule ::= fun s => s <| current_by_vote_time := 0 |> |>) ;;
  d ← get;
  mfor (fun x => modify_witness x.1 (fun w =>
    t ← lap_time (w_total_votes w);
    Ok (w <| by_vote_position := 0 |> <| by_vote_position_last_update := 0 |>
          <| by_vote_scheduled_time := t |>))) (by_valid d).

(** The loops that start a new lap for the witnesses passed; [true] when the
    virtual time overflowed. *)
Fixpoint advance_by_vote (now : Z) (uids : list Z) : M bool :=
  match uids with
  | [] => mret false
  | uid :: uids' =>
      d ← get;
      w ← lift (deref (witnesses d !! uid) undefined_behaviour);
      lap ← lift (lap_time (w_total_votes w));
      let new_time := u128_add now lap in
      if new_time <? now then mret true
      else
        modify_witness uid (fun w =>
          Ok (w <| by_vote_position := 0 |> <| by_vote_position_last_update := now |>
                <| by_vote_scheduled_time := new_time |>)) ;;
        advance_by_vote now uids'
  end.
Fixpoint advance_by_pledge (now : Z) (uids : list Z) : M bool :=
  match uids with
  | [] => mret false
  | uid :: uids' =>
      d ← get;
      w ← lift (deref (witnesses d !! uid) undefined_behaviour);
      lap ← lift (lap_time (pledge_weight w));
      let new_time := u128_add now lap in
      if new_time <? now then mret true
      else
        modify_witness uid (fun w =>
          Ok (w <| by_pledge_position := 0 |> <| by_pledge_position_last_update := now |>
                <| by_pledge_scheduled_time := new_time |>)) ;;
        advance_by_pledge now uids'
  end.

(** ** Pay *)
Definition pay_per_year (pledge : Z) : result Z :=
  let A := 100000 * 10000000 in
  if pledge <? 100000 * 10000000 then bigint_div (100 * 25 * pledge) PERCENT_100
  else if pledge <? 100000 * 320000000 then
    let rate := pledge * pledge * 69370 * A - pledge * pledge * pledge * 1052
                - pledge * 1656000 * A * A + 21120000 * A * A * A in
    bigint_div (pledge * rate * 100) (A * A * A * 1000000 * PERCENT_100)
  else Ok (150110208 * 100000 / 10).
Definition get_witness_pay_by_pledge (d : database) (by_pledge_witness_count : nat) : result Z :=
  if head_block_time d <? HARDFORK_0_4_TIME then Ok (by_pledge_witness_pay_param (params d))
  else
    year ← pay_per_year (total_witness_pledge (dgp d));
    let count := 86400 * 365 * Z.of_nat by_pledge_witness_count in
    guard_ok (count <? 2 ^ 31) undefined_behaviour ;;
    q ← bigint_div (year * block_interval (params d) * Z.of_nat (length (active_witnesses d))) count;
    bigint_to_int64 q.

(** ** Shuffling *)
Definition xorshift (now_hi i : Z) : Z :=
  let k := u64 (now_hi + u64 (i * 2685821657736338717)) in
  let k := Z.lxor k (Z.shiftr k 12) in
  let k := Z.lxor k (u64 (Z.shiftl k 25)) in
  let k := Z.lxor k (Z.shiftr k 27) in
  u64 (k * 2685821657736338717).
Definition swap_at (i j : nat) (l : list Z) : result (list Z) :=
  x ← deref (l !! i) undefined_behaviour;
  y ← deref (l !! j) undefined_behaviour;
  Ok (<[i := y]> (<[j := x]> l)).
(** The loop from position [i] on, with [n] positions to go. *)
Fixpoint shuffle (now_hi : Z) (n i : nat) (l : list Z) : result (list Z) :=
  match n with
  | O => Ok l
  | S n' =>
      let j := (i + Z.to_nat (xorshift now_hi (Z.of_nat i) mod Z.of_nat (length l - i)))%nat in
      l' ← swap_at i j l;
      shuffle now_hi n' (S i) l'
  end.

(** ** [update_witness_schedule] *)
Definition choose_top (d : database) : witness_map :=
  pick_top (by_vote_top_witness_count (params d)) (by_votes d) [].
Definition choose_by_vote (d : database) (ws : witness_map) : picked :=
  pick (fun _ => true) scheduled_by_vote_rest by_vote_scheduled_time
    (by_vote_rest_witness_count (params d)) (by_vote_schedule d)
    {| p_witnesses := ws; p_added := 0; p_processed := [];
       p_time := current_by_vote_time (witness_schedule d) |}.
Definition choose_by_pledge (d : database) (ws : witness_map) : picked :=
  pick (fun w => (min_witness_block_produce_pledge (params d) <=? w_pledge w) ||
                 (head_block_time d <? HARDFORK_0_4_TIME))
    scheduled_by_pledge by_pledge_scheduled_time
    (by_pledge_witness_count (params d)) (by_pledge_schedule d)
    {| p_witnesses := ws; p_added := 0; p_processed := [];
       p_time := current_by_pledge_time (witness_schedule d) |}.

Definition restart_by_vote (p : picked) : M unit :=
  when (0 <? p_added p)%nat
    (overflow ← advance_by_vote (p_time p) (p_processed p);
     if overflow : bool then reset_witness_by_vote_schedule
     else upd (fun d => d <| witness_schedule ::= fun s => s <| current_by_vote_time := p_time p |> |>)).
Definition restart_by_pledge (p : picked) : M unit :=
  when (0 <? p_added p)%nat
    (overflow ← advance_by_pledge (p_time p) (p_processed p);
     if overflow : bool then reset_witness_by_pledge_schedule
     else upd (fun d => d <| witness_schedule ::= fun s => s <| current_by_pledge_time := p_time p |> |>)).

Definition shuffle_witnesses : M unit :=
  d ← get;
  let uids := (active_witnesses d).*1 in
  let now_hi := u64 (Z.shiftl (head_block_time d) 32) in
  l ← lift (shuffle now_hi (length uids) 0 uids);
  upd (fun d => d <| witness_schedule ::= fun s =>
    s <| current_shuffled_witnesses := l |>
      <| next_schedule_block_num ::= fun n => u32 (n + Z.of_nat (length l)) |> |>).

Definition update_witness_schedule : M unit :=
  d ← get;
  if next_schedule_block_num (witness_schedule d) <=? head_block_num d then
    let top := choose_top d in
    let rest := choose_by_vote d top in
    restart_by_vote rest ;;
    d ← get;
    let pledged := choose_by_pledge d (p_witnesses rest) in
    restart_by_pledge pledged ;;
    upd (fun d => d <| active_witnesses := p_witnesses pledged |>) ;;
    d ← get;
    pay ← lift (if (0 <? p_added pledged)%nat then get_witness_pay_by_pledge d (p_added pledged)
                else Ok 0);
    upd (fun d => d <| dgp ::= fun g => g <| by_pledge_witness_pay_per_block := pay |> |>) ;;
    shuffle_witnesses
  else mret tt.

(** ** [update_witness_avg_pledge] *)
Definition update_witness_avg_pledge (uid : Z) : M unit :=
  d ← get;
  w ← lift (get_witness_by_uid d uid);
  if negb (w_is_valid w) then mret tt
  else
    let window := max_witness_pledge_seconds (params d) in
    let now := head_block_time d in
    let cur := current_by_pledge_time (witness_schedule d) in
    let next := u32 (head_block_num d + witness_avg_pledge_update_interval (params d)) in
    when (by_pledge_position_last_update w <? cur)
      (modify_witness uid (fun w =>
        let delta_pos := u128_mul (u128_sub cur (by_pledge_position_last_update w)) (average_pledge w) in
        Ok (w <| by_pledge_position ::= fun p => u128_add p delta_pos |>
              <| by_pledge_position_last_update := cur |>))) ;;
    (if average_pledge w =? w_pledge w then
       modify_witness uid (fun w => Ok (w <| average_pledge_last_update := now |>
                                          <| average_pledge_next_update_block := NEVER |>))
     else if (w_pledge w <? average_pledge w) || (time_add (pledge_last_update w) window <=? now) then
       modify_witness uid (fun w => Ok (w <| average_pledge := w_pledge w |>
                                          <| average_pledge_last_update := now |>
                                          <| average_pledge_next_update_block := NEVER |>))
     else if average_pledge_last_update w <? now then
       avg ← lift (window_average (hardfork d) window now (w_pledge w) (pledge_last_update w)
                     (average_pledge w) (average_pledge_last_update w));
       modify_witness uid (fun w => Ok (w <| average_pledge := avg |>
                                          <| average_pledge_last_update := now |>
                                          <| average_pledge_next_update_block := next |>))
     else
       modify_witness uid (fun w => Ok (w <| average_pledge_next_update_block := next |>))) ;;
    d ← get;
    w' ← lift (get_witness_by_uid d uid);
    when (negb (average_pledge w =? average_pledge w'))
      (modify_witness uid (fun w =>
        need_time ← u128_div (u128_sub VIRTUAL_LAP_LENGTH (by_pledge_position w))
                             (u64 (average_pledge w + w_total_mining_pledge w + 1));
        let scheduled := u128_add (by_pledge_position_last_update w) need_time in
        Ok (w <| by_pledge_scheduled_time := if scheduled <? cur then UINT128_MAX else scheduled |>))).
End ops.
End schedule.
