(* ===== verification/MapSum.v ===== *)
(** * Sums over finite maps, and equality of 64-bit counters

    [msum f m] adds [f k x] over the entries of [m]; the lemmas say how an
    insertion, an update or a deletion changes it.  [eq64] is equality modulo
    [2^64], the equality of unsigned 64-bit counters; it is a congruence for
    addition and subtraction, so it can be rewritten with. *)
From S2P Require Import Prelude.
From Stdlib Require Import Setoid Morphisms.
Local Open Scope Z_scope.

Section msum.
Context {K A : Type} `{Countable K}.
Implicit Types (f g : K -> A -> Z) (m : gmap K A).

Definition msum f m : Z := map_fold (fun k x acc => f k x + acc) 0 m.

Lemma msum_empty f : msum f ∅ = 0.
Proof. apply map_fold_empty. Qed.

Lemma msum_insert f m k x : m !! k = None -> msum f (<[k := x]> m) = f k x + msum f m.
Proof. intros. unfold msum. rewrite map_fold_insert_L; [done| |done]. intros; lia. Qed.

Lemma msum_delete f m k x : m !! k = Some x -> msum f m = f k x + msum f (delete k m).
Proof.
  intros. rewrite <- (insert_delete_id m k x) at 1 by done.
  by rewrite msum_insert by apply lookup_delete_eq.
Qed.

Lemma msum_update f m k x y :
  m !! k = Some x -> msum f (<[k := y]> m) = msum f m - f k x + f k y.
Proof.
  intros Hx. rewrite (msum_delete f m k x Hx), <- insert_delete_eq.
  rewrite msum_insert by apply lookup_delete_eq. lia.
Qed.

(** Inserting where there may or may not be an entry. *)
Definition at_key f m k : Z := match m !! k with Some x => f k x | None => 0 end.
Lemma msum_set f m k y : msum f (<[k := y]> m) = msum f m - at_key f m k + f k y.
Proof.
  unfold at_key. destruct (m !! k) as [x|] eqn:E.
  - by apply msum_update.
  - rewrite msum_insert by done. lia.
Qed.
Lemma msum_delete_key f m k : msum f (delete k m) = msum f m - at_key f m k.
Proof.
  unfold at_key. destruct (m !! k) as [x|] eqn:E.
  - rewrite (msum_delete f m k x E). lia.
  - rewrite delete_id by done. lia.
Qed.

Lemma msum_ext f g m : (forall k x, m !! k = Some x -> f k x = g k x) -> msum f m = msum g m.
Proof.
  induction m as [|k x m Hk IH] using map_ind; intros Hfg; [done|].
  rewrite !msum_insert by done. rewrite IH, Hfg; [done|apply lookup_insert_eq|].
  intros k' x' Hx'. apply Hfg. rewrite lookup_insert_ne; [done|congruence].
Qed.

Lemma msum_nonneg f m : (forall k x, m !! k = Some x -> 0 <= f k x) -> 0 <= msum f m.
Proof.
  induction m as [|k x m Hk IH] using map_ind; intros Hf; [done|].
  rewrite msum_insert by done. pose proof (Hf k x (lookup_insert_eq _ _ _)).
  assert (0 <= msum f m); [|lia]. apply IH. intros k' x' Hx'. apply Hf.
  rewrite lookup_insert_ne; [done|congruence].
Qed.
(** Entries that count for nothing may go. *)
Lemma msum_filter_zero f m (P : K * A -> Prop) `{!forall x, Decision (P x)} :
  (forall k x, m !! k = Some x -> ~ P (k, x) -> f k x = 0) -> msum f (filter P m) = msum f m.
Proof.
  induction m as [|k x m Hk IH] using map_ind; intros Hf; [by rewrite map_filter_empty|].
  assert (msum f (filter P m) = msum f m) as IH'.
  { apply IH. intros k' x' Hx'. apply Hf. rewrite lookup_insert_ne; [done|congruence]. }
  rewrite map_filter_insert, (msum_insert f m k x Hk). destruct (decide (P (k, x))) as [Hp|Hp].
  - rewrite msum_insert, IH'; [done|]. apply map_lookup_filter_None_2. by left.
  - rewrite (Hf k x), delete_id by (done || apply lookup_insert_eq || by apply map_lookup_filter_None_2; left).
    lia.
Qed.
End msum.

Lemma msum_fmap {K A B} `{Countable K} (h : A -> B) (f : K -> B -> Z) (m : gmap K A) :
  msum f (h <$> m) = msum (fun k x => f k (h x)) m.
Proof.
  induction m as [|k x m Hk IH] using map_ind.
  - by rewrite fmap_empty.
  - rewrite fmap_insert, !msum_insert, IH; [done|done|]. by rewrite lookup_fmap, Hk.
Qed.

(** ** Counters modulo [2^64] *)
Definition eq64 (x y : Z) : Prop := u64 x = u64 y.

#[global] Instance eq64_equivalence : Equivalence eq64.
Proof. split; unfold eq64; congruence || done || intros x y z; congruence. Qed.
#[global] Instance add_eq64 : Proper (eq64 ==> eq64 ==> eq64) Z.add.
Proof.
  unfold eq64, u64, wrap. intros x x' Hx y y' Hy.
  by rewrite (Z.add_mod x y), Hx, Hy, <- Z.add_mod.
Qed.
#[global] Instance sub_eq64 : Proper (eq64 ==> eq64 ==> eq64) Z.sub.
Proof.
  unfold eq64, u64, wrap. intros x x' Hx y y' Hy.
  by rewrite (Zminus_mod x y), Hx, Hy, <- Zminus_mod.
Qed.
Lemma u64_eq64 x : eq64 (u64 x) x.
Proof. unfold eq64, u64, wrap. by rewrite Z.mod_mod by lia. Qed.
Lemma eq64_add_cancel x y z : eq64 (x + z) (y + z) -> eq64 x y.
Proof.
  intros Hxy. replace x with (x + z - z) by lia. replace y with (y + z - z) by lia.
  by rewrite Hxy.
Qed.
