(* ===== verification/VoterProof.v ===== *)
(** * The tallies of governance votes are consistent

    The invariant [tally_inv]: the votes a proxy records at each level are the
    sum of what the voters that chose it hold one level below; the tally of
    every valid witness and committee member is the sum of the total votes of
    those voting for it; and only voters without a proxy vote directly.  The
    sums are of unsigned 64-bit counters, so they hold modulo [2^64]. *)
From S2P Require Import Prelude FlatMap FcInt Asset Pledge ChainState.
From S2P Require Import AccountStats Voter MapSum.
From Stdlib Require Import Setoid Morphisms.
Local Open Scope Z_scope.
Import chain voter acc.

(** What the tallies depend on, of a voter. *)
Record vcore := VCore {
  vc_eff : Z; vc_proxied : list Z; vc_self : bool; vc_proxy : Z * Z }.

Section tally.
Context {C : ChainConfig}.

Definition core (v : voter_object) : vcore :=
  VCore (effective_votes v) (proxied_votes v) (votes_by_self v) (proxy_key v).
Definition cores (d : database) : gmap (Z * Z) vcore := core <$> voters d.

Definition weight (c : vcore) : Z := vc_eff c + zsum (vc_proxied c).
Definition level (j : nat) (c : vcore) : Z :=
  match j with O => vc_eff c | S j' => default 0 (vc_proxied c !! j') end.

(** The votes the voters that chose [k] as their proxy hold at level [j]. *)
Definition proxy_sum (cv : gmap (Z * Z) vcore) (k : Z * Z) (j : nat) : Z :=
  msum (fun _ c => if negb (vc_self c) && bool_decide (vc_proxy c = k) then level j c else 0) cv.

(** [delta] is still missing from level [l] of the proxy of [cur]. *)
Definition pending (cv : gmap (Z * Z) vcore) (cur : Z * Z) (l : nat) (delta : Z)
    (k : Z * Z) (j : nat) : Z :=
  match cv !! cur with
  | Some c => if negb (vc_self c) && bool_decide (vc_proxy c = k) && (j =? l)%nat then delta else 0
  | None => 0
  end.
Definition proxy_okP (max : nat) cv cur l delta : Prop :=
  forall k c, cv !! k = Some c -> length (vc_proxied c) = max /\
    forall j x, vc_proxied c !! j = Some x ->
      eq64 (x + pending cv cur l delta k j) (proxy_sum cv k j).

Definition vkey (o : vote_object) : Z * Z := (voter_uid o, voter_sequence o).
Definition wt (cv : gmap (Z * Z) vcore) (k : Z * Z) : Z :=
  match cv !! k with Some c => weight c | None => 0 end.
Definition votes_for (uid sequence : Z) (o : vote_object) : bool :=
  (target_uid o =? uid) && (target_sequence o =? sequence).

(** The votes for a target, [delta] of the votes of [cur] not yet counted. *)
Definition tally cv (cur : Z * Z) (delta : Z) (os : list vote_object) (uid sequence : Z) : Z :=
  zsum ((fun o => if votes_for uid sequence o
                  then wt cv (vkey o) - (if bool_decide (vkey o = cur) then delta else 0)
                  else 0) <$> os).
Definition tally_okP (b : ballot) (cur : Z * Z) (delta : Z) (d : database) : Prop :=
  forall uid sequence t, b_target b d uid = Some (sequence, t) ->
    eq64 t (tally (cores d) cur delta (b_votes b d) uid sequence).
Definition self_only (b : ballot) (d : database) : Prop :=
  forall o, o ∈ b_votes b d -> exists c, cores d !! vkey o = Some c /\ vc_self c = true.

Lemma total_votes_weight v : eq64 (total_votes v) (weight (core v)).
Proof.
  unfold total_votes, weight. cbn. generalize (effective_votes v).
  induction (proxied_votes v) as [|x l IH]; intros e; cbn.
  - by rewrite Z.add_0_r.
  - rewrite IH, u64_eq64. by rewrite Z.add_assoc.
Qed.

(** The same target with [delta] more votes. *)
Definition bumped (delta : Z) (o o' : option (Z * Z)) : Prop :=
  match o, o' with
  | Some (q, t), Some (q', t') => q' = q /\ eq64 t' (t + delta)
  | None, None => True
  | _, _ => False
  end.
Lemma bumped_refl o : bumped 0 o o.
Proof. destruct o as [[q t]|]; [|done]. split; [done|]. by rewrite Z.add_0_r. Qed.

(** ** What a ballot promises *)
Class BallotLaws (b : ballot) : Prop := {
  bl_adjust uid delta d u d' : b_adjust b uid delta d = Ok (u, d') ->
    cores d' = cores d /\ params d' = params d /\ b_votes b d' = b_votes b d /\
    forall u', bumped (if u' =? uid then delta else 0) (b_target b d u') (b_target b d' u');
  bl_set_votes l d :
    cores (b_set_votes b l d) = cores d /\ params (b_set_votes b l d) = params d /\
    b_votes b (b_set_votes b l d) = l /\
    forall u, b_target b (b_set_votes b l d) u = b_target b d u;
  bl_number f v : core (b_set_number b f v) = core v;
  bl_voters f d : b_votes b (d <| voters ::= f |>) = b_votes b d /\
    forall u, b_target b (d <| voters ::= f |>) u = b_target b d u;
}.

(** Operations on ballot [b] leave ballot [b'] alone. *)
Definition same_ballot (b : ballot) (d d' : database) : Prop :=
  b_votes b d' = b_votes b d /\ forall u, b_target b d' u = b_target b d u.
Class BallotFrame (b b' : ballot) : Prop := {
  bf_adjust uid delta d u d' : b_adjust b uid delta d = Ok (u, d') -> same_ballot b' d d';
  bf_set_votes l d : same_ballot b' d (b_set_votes b l d);
}.

Lemma same_ballot_trans b d1 d2 d3 :
  same_ballot b d1 d2 -> same_ballot b d2 d3 -> same_ballot b d1 d3.
Proof. intros [H1 H2] [H3 H4]. split; [congruence|]. intros. by rewrite H4, H2. Qed.

Lemma same_ballot_inv b cur delta d d' :
  cores d' = cores d -> same_ballot b d d' ->
  tally_okP b cur delta d /\ self_only b d -> tally_okP b cur delta d' /\ self_only b d'.
Proof.
  intros Hc [Hv Ht] [H1 H2]. split.
  - intros uid q t. rewrite Ht, Hv, Hc. apply H1.
  - intros o. rewrite Hv, Hc. apply H2.
Qed.

(** *** Changing voters *)
Lemma modify_voter_ok k f d u d' :
  modify_voter k f d = Ok (u, d') ->
  exists v v', voters d !! k = Some v /\ f v = Ok v' /\ d' = d <| voters ::= <[k := v']> |>.
Proof.
  unfold modify_voter. intros H. inv_ok. eexists _, _. split_and!; done.
Qed.
Lemma get_voter_ok k d v d' : get_voter k d = Ok (v, d') -> voters d !! k = Some v /\ d' = d.
Proof. unfold get_voter. intros H. inv_ok. done. Qed.

Lemma voters_id (d : database) : d = d <| voters ::= fun x => x |>.
Proof. by destruct d. Qed.
Lemma cores_insert d k v : cores (d <| voters ::= <[k := v]> |>) = <[k := core v]> (cores d).
Proof. unfold cores. cbn. apply fmap_insert. Qed.
Lemma cores_lookup d k v : voters d !! k = Some v -> cores d !! k = Some (core v).
Proof. unfold cores. rewrite lookup_fmap. by intros ->. Qed.
Lemma cores_same d k v v' :
  voters d !! k = Some v -> core v' = core v -> cores (d <| voters ::= <[k := v']> |>) = cores d.
Proof. intros Hv Hc. rewrite cores_insert, Hc. apply insert_id. by apply cores_lookup. Qed.

(** ** The loop over one voter's votes *)
Definition hits (os : list vote_object) (uid sequence delta : Z) : Z :=
  zsum ((fun o => if votes_for uid sequence o then delta else 0) <$> os).

Lemma adjust_loop_spec b {BL : BallotLaws b} os delta r d r' d' :
  adjust_loop b os delta r d = Ok (r', d') ->
  cores d' = cores d /\ params d' = params d /\ b_votes b d' = b_votes b d /\
  forall u, match b_target b d u, b_target b d' u with
            | Some (q, t), Some (q', t') => q' = q /\ eq64 t' (t + hits os u q delta)
            | None, None => True
            | _, _ => False
            end.
Proof.
  revert r d. induction os as [|o os IH]; intros r d Hrun; cbn [adjust_loop] in Hrun.
  { injection Hrun as <- <-. split_and!; [done..|]. intros u.
    destruct (b_target b d u) as [[q t]|]; [|done]. split; [done|].
    unfold hits. cbn. by rewrite Z.add_0_r. }
  destruct (target_current b d o) eqn:Ecur; unfold target_current in Ecur.
  - apply mbind_ok in Hrun as (x & d1 & Ha & Hl).
    apply bl_adjust in Ha as (Hc & Hp & Hv & Ht). apply IH in Hl as (Hc' & Hp' & Hv' & Ht').
    split_and!; try congruence. intros u. specialize (Ht u). specialize (Ht' u).
    destruct (b_target b d u) as [[q t]|] eqn:Eu, (b_target b d1 u) as [[q1 t1]|],
      (b_target b d' u) as [[q2 t2]|]; try done.
    destruct Ht as [-> Ht], Ht' as [-> Ht']. split; [done|]. rewrite Ht', Ht.
    unfold hits, votes_for. cbn [fmap list_fmap zsum]. rewrite (Z.eqb_sym (target_uid o) u).
    destruct (Z.eqb_spec u (target_uid o)) as [->|]; cbn [andb]; [|by rewrite Z.add_0_r].
    rewrite Eu in Ecur. rewrite (Z.eqb_sym (target_sequence o)), Ecur. by rewrite Z.add_assoc.
  - apply IH in Hrun as (Hc & Hp & Hv & Ht). split_and!; try done. intros u. specialize (Ht u).
    destruct (b_target b d u) as [[q t]|] eqn:Eu, (b_target b d' u) as [[q' t']|]; try done.
    destruct Ht as [-> Ht]. split; [done|]. rewrite Ht. unfold hits, votes_for.
    cbn [fmap list_fmap zsum].
    destruct (Z.eqb_spec (target_uid o) u) as [Hu|]; cbn [andb]; [|done].
    rewrite Hu, Eu in Ecur. rewrite (Z.eqb_sym (target_sequence o)), Ecur. done.
Qed.

Lemma adjust_loop_frame b b' {BF : BallotFrame b b'} os delta r d r' d' :
  adjust_loop b os delta r d = Ok (r', d') -> same_ballot b' d d'.
Proof.
  revert r d. induction os as [|o os IH]; intros r d Hrun; cbn [adjust_loop] in Hrun.
  { by injection Hrun as <- <-. }
  destruct (target_current b d o); [|by eapply IH].
  apply mbind_ok in Hrun as (x & d1 & Ha & Hl).
  eapply same_ballot_trans; [by eapply bf_adjust|by eapply IH].
Qed.

Lemma is_vote_of_key k o : is_vote_of k o = bool_decide (vkey o = k).
Proof.
  unfold is_vote_of, vkey. destruct k as [u q]. cbn.
  destruct (Z.eqb_spec (voter_uid o) u), (Z.eqb_spec (voter_sequence o) q); cbn;
    symmetry; rewrite ?bool_decide_eq_true, ?bool_decide_eq_false; congruence.
Qed.

(** Dropping the stale votes does not change the tally of a current target. *)
Lemma tally_filter cv cur (P : vote_object -> Prop) `{forall x, Decision (P x)} os u q :
  (forall o, o ∈ os -> ~ P o -> votes_for u q o = false) ->
  tally cv cur 0 (filter P os) u q = tally cv cur 0 os u q.
Proof.
  unfold tally. induction os as [|o os IH]; intros Hst; [done|].
  assert (forall o', o' ∈ os -> ~ P o' -> votes_for u q o' = false) as Hst'
    by (intros; apply Hst; [by right|done]).
  rewrite filter_cons. case_decide as Hp; cbn [fmap list_fmap zsum]; rewrite IH by done; [done|].
  rewrite (Hst o (list_elem_of_here _ _) Hp). done.
Qed.

Lemma tally_settle cv k delta os u q :
  tally cv k delta os u q
  + hits (filter (fun o => is_vote_of k o = true) os) u q delta = tally cv k 0 os u q.
Proof.
  unfold tally, hits. induction os as [|o os IH]; [done|].
  rewrite filter_cons, is_vote_of_key. cbn [fmap list_fmap zsum].
  destruct (decide (bool_decide (vkey o = k) = true)) as [Hd|Hd].
  - cbn [fmap list_fmap zsum]. rewrite Hd. destruct (votes_for u q o); lia.
  - apply not_true_is_false in Hd. rewrite Hd. destruct (votes_for u q o); lia.
Qed.

Lemma tally_zero cv k k' os u q : tally cv k 0 os u q = tally cv k' 0 os u q.
Proof.
  unfold tally. f_equal. apply list_fmap_ext. intros ? o _.
  by repeat case_bool_decide.
Qed.

Definition tally_ok (b : ballot) (d : database) : Prop := forall k, tally_okP b k 0 d.

Lemma adjust_voter_self_cores b {BL : BallotLaws b} k delta d u d' :
  adjust_voter_self b k delta d = Ok (u, d') ->
  exists d1 r, adjust_loop b (filter (fun o => is_vote_of k o = true) (b_votes b d)) delta 0 d
               = Ok (r, d1) /\
    cores d' = cores d /\ params d' = params d /\
    (exists f, d' = (b_set_votes b (filter (fun o => is_vote_of k o && negb (target_current b d o)
                                                   = false) (b_votes b d1)) d1) <| voters ::= f |>).
Proof.
  unfold adjust_voter_self. intros Hrun.
  destruct (adjust_loop _ _ _ _ _) as [[r d1]|] eqn:El; [|done].
  cbn [mbind result_bind] in Hrun. set (l := filter _ (b_votes b d1)) in *.
  pose proof (adjust_loop_spec _ _ _ _ _ _ _ El) as (Hc & Hp & _ & _).
  destruct (bl_set_votes l d1) as (Hc2 & Hp2 & _ & _).
  exists d1, r. split; [done|]. destruct (0 <? r).
  - apply modify_voter_ok in Hrun as (v & v' & Hv & [= <-] & ->). cbn [params].
    rewrite (cores_same _ _ _ _ Hv) by apply bl_number. split_and!; [congruence| |eauto].
    cbn. congruence.
  - injection Hrun as <- <-. split_and!; [congruence..|]. exists (fun x => x). apply voters_id.
Qed.

Lemma adjust_voter_self_tally b {BL : BallotLaws b} k delta d u d' :
  adjust_voter_self b k delta d = Ok (u, d') ->
  tally_okP b k delta d -> self_only b d -> tally_ok b d' /\ self_only b d'.
Proof.
  intros Hrun Hok Hself.
  apply adjust_voter_self_cores in Hrun as (d1 & r & El & Hc & _ & f & ->); [|done].
  apply adjust_loop_spec in El as (Hc1 & _ & Hv1 & Ht1); [|done].
  set (l := filter _ (b_votes b d1)) in *.
  destruct (bl_set_votes l d1) as (_ & _ & Hv2 & Ht2).
  destruct (bl_voters f (b_set_votes b l d1)) as (Hv3 & Ht3). split.
  - intros k' uid q t. rewrite Ht3, Ht2, Hv3, Hv2, Hc. intros Ht.
    specialize (Ht1 uid). rewrite Ht in Ht1.
    destruct (b_target b d uid) as [[q0 t0]|] eqn:E0; [|done]. destruct Ht1 as [<- Ht1].
    rewrite Ht1, (Hok uid q t0 E0), tally_settle, (tally_zero _ k k').
    subst l. rewrite Hv1, tally_filter; [done|].
    intros o Ho Hst. apply not_false_is_true, andb_prop in Hst as [_ Hst].
    unfold target_current in Hst. unfold votes_for.
    destruct (Z.eqb_spec (target_uid o) uid) as [Hu|]; [|done]. rewrite Hu, E0 in Hst.
    rewrite Z.eqb_sym. by apply negb_true_iff in Hst.
  - intros o. rewrite Hv3, Hv2, Hc. subst l. rewrite Hv1. intros [_ Ho]%list_elem_of_filter.
    by apply Hself.
Qed.

Lemma adjust_voter_self_frame b b' {BL : BallotLaws b} {BL' : BallotLaws b'}
    {BF : BallotFrame b b'} k delta d u d' :
  adjust_voter_self b k delta d = Ok (u, d') -> same_ballot b' d d' /\ cores d' = cores d.
Proof.
  intros Hrun. apply adjust_voter_self_cores in Hrun as (d1 & r & El & Hc & _ & f & ->); [|done].
  split; [|done]. eapply same_ballot_trans; [by eapply adjust_loop_frame|].
  eapply same_ballot_trans; [apply bf_set_votes|]. destruct (bl_voters f (b_set_votes b
    (filter (fun o => is_vote_of k o && negb (target_current b d o) = false) (b_votes b d1)) d1)).
  by split.
Qed.
End tally.

(** ** The three kinds of ballots keep the promise *)
Section ballots.
Context {F : FcInt} {C : ChainConfig}.

#[export] Instance witness_ballot_laws : BallotLaws witness_ballot.
Proof.
  split; [|by intros; split_and!|done|by intros; split].
  cbn [b_adjust witness_ballot]. intros uid delta d u d' Hrun.
  unfold adjust_witness_votes in Hrun. apply bind_ok in Hrun as (w & Hw & Hrun).
  apply deref_ok in Hw. destruct ((delta =? 0) || negb (w_is_valid w)) eqn:E0.
  { injection Hrun as <- <-. split_and!; [done..|]. intros u'.
    apply orb_true_iff in E0 as [E0|E0].
    - apply Z.eqb_eq in E0 as ->. destruct (u' =? uid); apply bumped_refl.
    - destruct (Z.eqb_spec u' uid) as [->|]; [|apply bumped_refl].
      cbn. unfold find_witness_by_uid. rewrite Hw. cbn.
      apply negb_true_iff in E0. by rewrite E0. }
  unfold modify_witness in Hrun. rewrite Hw in Hrun. cbn [deref mbind result_bind] in Hrun.
  apply bind_ok in Hrun as (w' & Hf & [= <- <-]). apply bind_ok in Hf as (nt & _ & [= <-]).
  split_and!; [done..|]. intros u'. cbn. unfold find_witness_by_uid. cbn.
  destruct (Z.eqb_spec u' uid) as [->|Hne].
  - rewrite lookup_insert_eq, Hw. cbn. apply orb_false_iff in E0 as [_ E0].
    apply negb_false_iff in E0. destruct (by_vote_position_last_update w <? _); cbn;
      rewrite E0; cbn; (split; [done|]); by rewrite u64_eq64.
  - rewrite lookup_insert_ne by done. apply bumped_refl.
Qed.

#[export] Instance committee_ballot_laws : BallotLaws committee_ballot.
Proof.
  split; [|by intros; split_and!|done|by intros; split].
  cbn [b_adjust committee_ballot]. intros uid delta d u d' Hrun.
  unfold adjust_committee_member_votes in Hrun. apply bind_ok in Hrun as (w & Hw & Hrun).
  apply deref_ok in Hw. destruct ((delta =? 0) || negb (c_is_valid w)) eqn:E0.
  { injection Hrun as <- <-. split_and!; [done..|]. intros u'.
    apply orb_true_iff in E0 as [E0|E0].
    - apply Z.eqb_eq in E0 as ->. destruct (u' =? uid); apply bumped_refl.
    - destruct (Z.eqb_spec u' uid) as [->|]; [|apply bumped_refl].
      cbn. unfold find_committee_member_by_uid. rewrite Hw. cbn.
      apply negb_true_iff in E0. by rewrite E0. }
  injection Hrun as <- <-. split_and!; [done..|]. intros u'. cbn.
  unfold find_committee_member_by_uid. cbn. destruct (Z.eqb_spec u' uid) as [->|Hne].
  - rewrite lookup_insert_eq, Hw. cbn. apply orb_false_iff in E0 as [_ E0].
    apply negb_false_iff in E0. rewrite E0. cbn. split; [done|]. by rewrite u64_eq64.
  - rewrite lookup_insert_ne by done. apply bumped_refl.
Qed.

Lemma adjust_platform_votes_ok owner delta d u d' :
  adjust_platform_votes owner delta d = Ok (u, d') -> exists f, d' = d <| platforms ::= f |>.
Proof.
  unfold adjust_platform_votes. intros Hrun. apply bind_ok in Hrun as (p & _ & Hrun).
  destruct (_ || _); injection Hrun as <- <-; [|by eauto]. exists (fun x => x). by destruct d.
Qed.

#[export] Instance platform_ballot_laws : BallotLaws platform_ballot.
Proof.
  split; [|by intros; split_and!|done|by intros; split].
  cbn [b_adjust platform_ballot]. intros uid delta d u d' Hrun.
  unfold adjust_platform_votes in Hrun. apply bind_ok in Hrun as (w & Hw & Hrun).
  apply deref_ok in Hw. destruct ((delta =? 0) || negb (p_is_valid w)) eqn:E0.
  { injection Hrun as <- <-. split_and!; [done..|]. intros u'.
    apply orb_true_iff in E0 as [E0|E0].
    - apply Z.eqb_eq in E0 as ->. destruct (u' =? uid); apply bumped_refl.
    - destruct (Z.eqb_spec u' uid) as [->|]; [|apply bumped_refl].
      cbn. unfold find_platform_by_owner. rewrite Hw. cbn.
      apply negb_true_iff in E0. by rewrite E0. }
  injection Hrun as <- <-. split_and!; [done..|]. intros u'. cbn.
  unfold find_platform_by_owner. cbn. destruct (Z.eqb_spec u' uid) as [->|Hne].
  - rewrite lookup_insert_eq, Hw. cbn. apply orb_false_iff in E0 as [_ E0].
    apply negb_false_iff in E0. rewrite E0. cbn. split; [done|]. by rewrite u64_eq64.
  - rewrite lookup_insert_ne by done. apply bumped_refl.
Qed.

#[export] Instance witness_committee_frame : BallotFrame witness_ballot committee_ballot.
Proof.
  split; [|by intros; split]. cbn [b_adjust witness_ballot]. intros uid delta d u d' Hrun.
  unfold adjust_witness_votes in Hrun. apply bind_ok in Hrun as (w & Hw & Hrun).
  destruct (_ || _); [by injection Hrun as <- <-|]. unfold modify_witness in Hrun.
  apply bind_ok in Hrun as (? & _ & Hrun). apply bind_ok in Hrun as (? & _ & [= <- <-]). done.
Qed.
#[export] Instance committee_witness_frame : BallotFrame committee_ballot witness_ballot.
Proof.
  split; [|by intros; split]. cbn [b_adjust committee_ballot]. intros uid delta d u d' Hrun.
  unfold adjust_committee_member_votes in Hrun. apply bind_ok in Hrun as (w & Hw & Hrun).
  destruct (_ || _); by injection Hrun as <- <-.
Qed.
#[export] Instance platform_witness_frame : BallotFrame platform_ballot witness_ballot.
Proof. split; [|by intros; split]. intros * (f & ->)%adjust_platform_votes_ok. done. Qed.
#[export] Instance platform_committee_frame : BallotFrame platform_ballot committee_ballot.
Proof. split; [|by intros; split]. intros * (f & ->)%adjust_platform_votes_ok. done. Qed.
End ballots.

(** ** Following the proxies *)
Lemma zsum_list_insert (l : list Z) i x y :
  l !! i = Some x -> zsum (<[i := y]> l) = zsum l - x + y.
Proof.
  revert i. induction l as [|z l IH]; intros [|i] Hi; try done; cbn in Hi.
  - injection Hi as ->. cbn. lia.
  - change (<[S i := y]> (z :: l)) with (z :: <[i := y]> l). cbn [zsum]. rewrite (IH i Hi). lia.
Qed.
Lemma vec_modify_ok i f l l' :
  vec_modify i f l = Ok l' -> exists x, l !! i = Some x /\ l' = <[i := f x]> l.
Proof. unfold vec_modify. destruct (l !! i); naive_solver. Qed.

Section walk.
Context {C : ChainConfig}.
Implicit Types cv : gmap (Z * Z) vcore.

Definition proxy_ok (max : nat) cv : Prop := forall cur l, proxy_okP max cv cur l 0.

Definition contrib (k : Z * Z) (j : nat) (c : vcore) : Z :=
  if negb (vc_self c) && bool_decide (vc_proxy c = k) then level j c else 0.

Lemma proxy_sum_update cv p c c' k j :
  cv !! p = Some c ->
  proxy_sum (<[p := c']> cv) k j = proxy_sum cv k j - contrib k j c + contrib k j c'.
Proof. intros Hc. unfold proxy_sum. by rewrite (msum_update _ _ _ c). Qed.

Lemma pending_zero cv cur l k j : pending cv cur l 0 k j = 0.
Proof. unfold pending. destruct (cv !! cur); [|done]. by destruct (_ && _). Qed.

Lemma proxy_ok_from max cv cur l : proxy_okP max cv cur l 0 -> proxy_ok max cv.
Proof.
  intros H cur' l' k c Hc. destruct (H k c Hc) as [Hl Hj]. split; [done|].
  intros j x Hx. specialize (Hj j x Hx). by rewrite !pending_zero in *.
Qed.

(** Voter [p] changed at one level [l] by [delta]; everything recorded in [p]
    itself at level [m] is off by [pend] before. *)
Lemma level_change max cv p c c' l delta :
  cv !! p = Some c -> vc_self c' = vc_self c -> vc_proxy c' = vc_proxy c ->
  length (vc_proxied c') = length (vc_proxied c) ->
  (forall j, eq64 (level j c') (level j c + if (j =? l)%nat then delta else 0)) ->
  (forall k c0, cv !! k = Some c0 -> length (vc_proxied c0) = max) ->
  (forall k c0 j x, <[p := c']> cv !! k = Some c0 -> vc_proxied c0 !! j = Some x ->
     eq64 x (proxy_sum cv k j)) ->
  proxy_okP max (<[p := c']> cv) p l delta.
Proof.
  intros Hc Hs Hp Hlen Hlev Hmax Hold k c0 Hk.
  split.
  { apply lookup_insert_Some in Hk as [[<- <-]|[_ Hk]]; [rewrite Hlen|]; eauto. }
  intros j x Hx. specialize (Hold k c0 j x Hk Hx). rewrite Hold.
  rewrite (proxy_sum_update cv p c) by done. unfold pending. rewrite lookup_insert_eq.
  unfold contrib. rewrite Hs, Hp. destruct (negb (vc_self c) && bool_decide (vc_proxy c = k)); cbn [andb].
  - rewrite Hlev. replace (proxy_sum cv k j - level j c + (level j c + (if (j =? l)%nat then delta else 0)))
      with (proxy_sum cv k j + (if (j =? l)%nat then delta else 0)) by lia. done.
  - by replace (proxy_sum cv k j - 0 + 0) with (proxy_sum cv k j + 0) by lia.
Qed.

(** The first step: the effective votes of [p] changed by [delta]. *)
Lemma eff_change max cv p c e delta :
  proxy_ok max cv -> cv !! p = Some c -> eq64 e (vc_eff c + delta) ->
  proxy_okP max (<[p := VCore e (vc_proxied c) (vc_self c) (vc_proxy c)]> cv) p 0 delta.
Proof.
  intros Hok Hc He. eapply level_change; try done.
  - intros [|j]; cbn; [done|]. by rewrite Z.add_0_r.
  - intros k c0 Hk. by apply (Hok p 0%nat k c0).
  - intros k c0 j x Hk Hx. rewrite <- (Z.add_0_r x), <- (pending_zero cv p 0 k j).
    apply lookup_insert_Some in Hk as [[<- <-]|[_ Hk]]; [by apply (Hok p 0%nat p c)|by eapply Hok].
Qed.

(** A step up the chain. *)
Lemma proxied_change max cv cur cc c l x delta :
  proxy_okP max cv cur l delta -> cv !! cur = Some cc -> vc_self cc = false ->
  cv !! vc_proxy cc = Some c -> vc_proxied c !! l = Some x ->
  proxy_okP max (<[vc_proxy cc := VCore (vc_eff c) (<[l := u64 (x + delta)]> (vc_proxied c))
                                        (vc_self c) (vc_proxy c)]> cv) (vc_proxy cc) (S l) delta.
Proof.
  intros Hok Hcur Hns Hc Hx. assert (l < length (vc_proxied c))%nat as Hlt by (by eapply lookup_lt_Some).
  eapply level_change; try done.
  - cbn. apply length_insert.
  - intros [|j]; cbn; [by rewrite Z.add_0_r|]. destruct (Nat.eqb_spec j l) as [->|Hne].
    + rewrite list_lookup_insert_eq by done. rewrite Hx. cbn. apply u64_eq64.
    + rewrite list_lookup_insert_ne by done. by rewrite Z.add_0_r.
  - intros k c0 Hk. by apply (Hok k c0).
  - assert (forall k j, pending cv cur l delta k j =
      if bool_decide (vc_proxy cc = k) && (j =? l)%nat then delta else 0) as Hpend.
    { intros k j. unfold pending. by rewrite Hcur, Hns. }
    intros k c0 j y Hk Hy. apply lookup_insert_Some in Hk as [[<- <-]|[Hne Hk]].
    + destruct (Hok _ _ Hc) as [_ Hj]. cbn in Hy. destruct (decide (j = l)) as [->|Hjl].
      * rewrite list_lookup_insert_eq in Hy by done. injection Hy as <-.
        specialize (Hj l x Hx). rewrite Hpend, bool_decide_true, Nat.eqb_refl in Hj by done.
        by rewrite u64_eq64.
      * rewrite list_lookup_insert_ne in Hy by done. specialize (Hj j y Hy).
        rewrite Hpend, (proj2 (Nat.eqb_neq _ _)), andb_false_r, Z.add_0_r in Hj by done. done.
    + destruct (Hok _ _ Hk) as [_ Hj]. specialize (Hj j y Hy).
      rewrite Hpend, bool_decide_false, Z.add_0_r in Hj by done. done.
Qed.

(** *** Tallies while votes move up *)
Lemma tally_ext cv cv' k k' delta delta' os u q :
  (forall o, o ∈ os ->
     eq64 (wt cv (vkey o) - (if bool_decide (vkey o = k) then delta else 0))
          (wt cv' (vkey o) - (if bool_decide (vkey o = k') then delta' else 0))) ->
  eq64 (tally cv k delta os u q) (tally cv' k' delta' os u q).
Proof.
  unfold tally. induction os as [|o os IH]; intros Ho; [done|]. cbn [fmap list_fmap zsum].
  rewrite IH by (intros; apply Ho; by right). specialize (Ho o (list_elem_of_here _ _)).
  destruct (votes_for u q o); [by rewrite Ho|done].
Qed.

(** A voter with a proxy has no direct votes, so nothing of its is missing. *)
Lemma tally_drop b cur delta d cc :
  tally_okP b cur delta d -> self_only b d ->
  cores d !! cur = Some cc -> vc_self cc = false -> tally_ok b d.
Proof.
  intros Hok Hself Hcur Hns k uid q t Ht. rewrite (Hok uid q t Ht). apply tally_ext.
  intros o Ho. destruct (Hself o Ho) as (c & Hc & Hs). rewrite (bool_decide_false (vkey o = cur)).
  - by case_bool_decide.
  - intros Heq. rewrite Heq in Hc. congruence.
Qed.

(** Voter [p] gained [delta], which its votes do not show yet. *)
Lemma tally_gain b p c c' delta d d' :
  tally_ok b d /\ self_only b d -> cores d !! p = Some c -> cores d' = <[p := c']> (cores d) ->
  same_ballot b d d' -> vc_self c' = vc_self c -> eq64 (weight c') (weight c + delta) ->
  tally_okP b p delta d' /\ self_only b d'.
Proof.
  intros [Hok Hself] Hc Hc' [Hv Ht] Hs Hw. split.
  - intros uid q t. rewrite Ht, Hv, Hc'. intros Htgt. rewrite (Hok p uid q t Htgt).
    apply tally_ext. intros o Ho. unfold wt. case_bool_decide as Heq.
    + rewrite Heq, Hc, lookup_insert_eq, Hw. replace (weight c + delta - delta) with (weight c) by lia.
      by rewrite Z.sub_0_r.
    + by rewrite lookup_insert_ne.
  - intros o. rewrite Hv, Hc'. intros Ho. destruct (Hself o Ho) as (c0 & H0 & H0s).
    destruct (decide (p = vkey o)) as [->|Hne].
    + exists c'. rewrite lookup_insert_eq. split; [done|]. rewrite Hc in H0. injection H0 as <-.
      by rewrite Hs.
    + exists c0. by rewrite lookup_insert_ne.
Qed.

(** *** The whole invariant *)
Context {F : FcInt}.
#[local] Notation wb := witness_ballot.
#[local] Notation cb := committee_ballot.

Definition tally_inv (d : database) : Prop :=
  proxy_ok (max_governance_voting_proxy_level (params d)) (cores d) /\
  (tally_ok wb d /\ self_only wb d) /\ (tally_ok cb d /\ self_only cb d).

(** While [delta] travels from [cur] up. *)
Definition walk_inv (d : database) (cur : Z * Z) (l : nat) (delta : Z) : Prop :=
  proxy_okP (max_governance_voting_proxy_level (params d)) (cores d) cur l delta /\
  (tally_okP wb cur delta d /\ self_only wb d) /\ (tally_okP cb cur delta d /\ self_only cb d).

Lemma walk_step d cur v p l x delta :
  voters d !! cur = Some v -> votes_by_self v = false ->
  voters d !! proxy_key v = Some p -> proxied_votes p !! l = Some x ->
  walk_inv d cur l delta ->
  walk_inv (d <| voters ::= <[proxy_key v := p <| proxied_votes := <[l := u64 (x + delta)]> (proxied_votes p) |>]> |>)
           (proxy_key v) (S l) delta.
Proof.
  intros Hv Hns Hp Hx (Hok & [Hw Hws] & [Hc Hcs]).
  apply cores_lookup in Hv, Hp. unfold walk_inv. rewrite cores_insert.
  assert (eq64 (weight (core (p <| proxied_votes := <[l := u64 (x + delta)]> (proxied_votes p) |>)))
               (weight (core p) + delta)) as Hwt.
  { unfold weight. cbn. rewrite (zsum_list_insert _ _ x) by done. rewrite u64_eq64.
    match goal with |- eq64 ?a ?b => replace a with b by lia end. done. }
  split_and!.
  - by apply (proxied_change _ _ cur (core v) (core p)).
  - eapply (tally_gain wb (proxy_key v) (core p)); [split; [by eapply tally_drop|done]|done|by rewrite cores_insert| |done|done].
    by apply (bl_voters (b := wb)).
  - eapply (tally_gain wb (proxy_key v) (core p)); [split; [by eapply tally_drop|done]|done|by rewrite cores_insert| |done|done].
    by apply (bl_voters (b := wb)).
  - eapply (tally_gain cb (proxy_key v) (core p)); [split; [by eapply tally_drop|done]|done|by rewrite cores_insert| |done|done].
    by apply (bl_voters (b := cb)).
  - eapply (tally_gain cb (proxy_key v) (core p)); [split; [by eapply tally_drop|done]|done|by rewrite cores_insert| |done|done].
    by apply (bl_voters (b := cb)).
Qed.

Lemma proxy_walk_spec n l cur delta d r d' :
  proxy_walk n l cur delta d = Ok (r, d') ->
  (n + l = max_governance_voting_proxy_level (params d))%nat -> walk_inv d cur l delta ->
  exists l' v, walk_inv d' r l' delta /\ params d' = params d /\
    voters d' !! r = Some v /\
    (votes_by_self v = true \/ l' = max_governance_voting_proxy_level (params d')).
Proof.
  revert l cur d. induction n as [|n IH]; intros l cur d Hrun Hn Hinv; cbn [proxy_walk] in Hrun;
    apply mbind_ok in Hrun as (v & d0 & Hg & Hrun); apply get_voter_ok in Hg as [Hv ->];
    destruct (votes_by_self v) eqn:Es.
  1, 2, 3: injection Hrun as <- <-; exists l, v; split_and!; auto.
  apply mbind_ok in Hrun as (u & d1 & Hm & Hrun).
  apply modify_voter_ok in Hm as (p & p' & Hp & Hf & ->).
  apply bind_ok in Hf as (l1 & Hl & [= <-]). apply vec_modify_ok in Hl as (x & Hx & ->).
  apply IH in Hrun as (l' & v' & Hi & Hpar & Hv' & Hend); [|cbn; lia|by apply (walk_step d cur)].
  exists l', v'. split_and!; done.
Qed.

(** At the end of the chain nothing is pending among the proxies. *)
Lemma walk_end d r l v delta :
  walk_inv d r l delta -> voters d !! r = Some v ->
  votes_by_self v = true \/ l = max_governance_voting_proxy_level (params d) ->
  proxy_ok (max_governance_voting_proxy_level (params d)) (cores d).
Proof.
  intros (Hok & _) Hv Hend cur l0 k c Hk. destruct (Hok k c Hk) as [Hlen Hj]. split; [done|].
  intros j x Hx. specialize (Hj j x Hx). rewrite pending_zero, Z.add_0_r.
  assert (pending (cores d) r l delta k j = 0) as Hz; [|by rewrite Hz, Z.add_0_r in Hj].
  unfold pending. rewrite (cores_lookup _ _ _ Hv). cbn. destruct Hend as [->| ->]; [done|].
  apply lookup_lt_Some in Hx. rewrite (proj2 (Nat.eqb_neq _ _)) by lia. by rewrite andb_false_r.
Qed.

Lemma tally_ok_frame b d d' :
  cores d' = cores d -> same_ballot b d d' -> tally_ok b d /\ self_only b d ->
  tally_ok b d' /\ self_only b d'.
Proof.
  intros Hc Hb [Hok Hself]. split; [intros k|];
    apply (same_ballot_inv b k 0 d d' Hc Hb) || apply (same_ballot_inv b (0, 0) 0 d d' Hc Hb);
    split; try done; apply Hok.
Qed.

Lemma adjust_voter_self_votes_spec k delta d u d' l :
  adjust_voter_self_votes k delta d = Ok (u, d') -> walk_inv d k l delta ->
  proxy_ok (max_governance_voting_proxy_level (params d)) (cores d) -> tally_inv d'.
Proof.
  intros Hrun (_ & [Hw Hws] & Hcb) Hpo.
  apply mbind_ok in Hrun as (u1 & d1 & H1 & Hrun). apply mbind_ok in Hrun as (u2 & d2 & H2 & H3).
  destruct (adjust_voter_self_tally wb _ _ _ _ _ H1 Hw Hws) as [Hw1 Hws1].
  destruct (adjust_voter_self_frame wb cb _ _ _ _ _ H1) as [Fc1 Hc1].
  destruct (same_ballot_inv cb k delta d d1 Hc1 Fc1 Hcb) as [Hcb1 Hcs1].
  pose proof (adjust_voter_self_tally cb _ _ _ _ _ H2 Hcb1 Hcs1) as Hcb2.
  destruct (adjust_voter_self_frame cb wb _ _ _ _ _ H2) as [Fw2 Hc2].
  destruct (adjust_voter_self_frame platform_ballot wb _ _ _ _ _ H3) as [Fw3 Hc3].
  destruct (adjust_voter_self_frame platform_ballot cb _ _ _ _ _ H3) as [Fc3 _].
  apply adjust_voter_self_cores in H1 as (_ & _ & _ & _ & Hp1 & _); [|apply _].
  apply adjust_voter_self_cores in H2 as (_ & _ & _ & _ & Hp2 & _); [|apply _].
  apply adjust_voter_self_cores in H3 as (_ & _ & _ & _ & Hp3 & _); [|apply _].
  unfold tally_inv. rewrite Hp3, Hp2, Hp1, Hc3, Hc2, Hc1. split; [done|]. split.
  - apply (tally_ok_frame wb d2 d'); [done..|]. by apply (tally_ok_frame wb d1 d2).
  - by apply (tally_ok_frame cb d2 d').
Qed.

Lemma tally_inv_platform d d' f : d' = d <| platforms ::= f |> -> tally_inv d -> tally_inv d'.
Proof. intros -> (H1 & H2 & H3). split; [exact H1|]. split; [exact H2|exact H3]. Qed.

Lemma adjust_voter_votes_spec k delta d u d' :
  adjust_voter_votes k delta d = Ok (u, d') -> walk_inv d k 0 delta -> tally_inv d'.
Proof.
  intros Hrun Hinv. unfold adjust_voter_votes in Hrun.
  apply mbind_ok in Hrun as (max & d0 & Hg & Hrun). apply gets_ok in Hg. injection Hg as -> ->.
  apply mbind_ok in Hrun as (r & d1 & Hw & Hrun).
  apply proxy_walk_spec in Hw as (l' & v & Hi & _ & Hv & Hend); [|lia|done].
  pose proof (walk_end _ _ _ _ _ Hi Hv Hend) as Hpo.
  apply mbind_ok in Hrun as (v0 & d2 & Hg & Hrun). apply get_voter_ok in Hg as [Hv0 ->].
  rewrite Hv in Hv0. injection Hv0 as <-.
  apply mbind_ok in Hrun as (u1 & d3 & Hs & Hrun).
  assert (tally_inv d3) as H3.
  { unfold when in Hs. destruct (votes_by_self v) eqn:Es; [by eapply adjust_voter_self_votes_spec|].
    apply mret_ok in Hs. injection Hs as -> ->. destruct Hi as (_ & [Hw1 Hw2] & [Hc1 Hc2]).
    apply cores_lookup in Hv. split; [done|].
    split; (split; [|done]); by apply (tally_drop _ r delta d1 (core v)). }
  apply mbind_ok in Hrun as (d4 & d5 & Hg & Hrun). apply get_ok in Hg. injection Hg as -> ->.
  apply mbind_ok in Hrun as (ant & d6 & Hg & Hrun). apply lift_ok in Hg as (a & _ & Ha).
  injection Ha as -> ->.
  destruct (referrer_by_platform a =? 0); [by injection Hrun as <- <-|].
  destruct (find_platform_by_sequence _ _ _); [|by injection Hrun as <- <-].
  apply adjust_platform_votes_ok in Hrun as (f & Hf). by eapply tally_inv_platform.
Qed.

Lemma i64_eq64 x : eq64 (i64 x) x.
Proof.
  unfold eq64, i64, u64, wrap. rewrite Zminus_mod_idemp_l. f_equal. lia.
Qed.

Lemma next_effective_votes_core d v v' :
  next_effective_votes d v = Ok v' ->
  core v' = VCore (effective_votes v') (proxied_votes v) (votes_by_self v) (proxy_key v).
Proof.
  unfold next_effective_votes. repeat case_match; intros Hr; inv_ok; done.
Qed.
End walk.

(** ** The average over the window *)
Section average.
Context {F : FcInt} {FL : FcIntLaws F}.

Lemma u128_product63 x y :
  is_uint 63 x -> is_uint 63 y -> u128_mul (u128_of x) y = x * y /\ 0 <= x * y < 2 ^ 126.
Proof.
  unfold is_uint. intros. assert (0 <= x * y < 2 ^ 126) by nia.
  rewrite u128_of_small, u128_mul_small by lia. done.
Qed.

(** For a value that grew, the average moves towards it without passing it. *)
Lemma window_average_spec hf w now value vlast avg alast :
  is_uint 63 value -> is_uint 63 avg -> avg <= value ->
  0 <= vlast <= alast -> alast < now -> now < vlast + w -> vlast + w < 2 ^ 32 ->
  exists a, window_average hf w now value vlast avg alast = Ok a /\ avg <= a <= value.
Proof.
  intros Hv Ha Hle Hl Hn Hw Hf. unfold window_average, is_uint in *.
  set (dt := now - alast) in *. destruct (hf <? HEAD_FORK_05).
  - unfold u64 at 1. rewrite (wrap_small 64 (w - dt)) by (unfold is_uint; lia).
    destruct (u128_product63 avg (w - dt)) as [-> H1]; [unfold is_uint; lia..|].
    destruct (u128_product63 value dt) as [-> H2]; [unfold is_uint; lia..|].
    rewrite u128_add_small by lia. rewrite u128_div_law by lia. cbn [mbind result_bind].
    pose proof (average_between avg value (w - dt) dt ltac:(lia) ltac:(lia) ltac:(lia)) as Hb.
    replace (w - dt + dt) with w in Hb by lia.
    rewrite u128_to_u64_law by lia. eexists. split; [done|]. lia.
  - unfold u64. rewrite (wrap_small 64 (value - avg)) by (unfold is_uint; lia).
    rewrite (wrap_small 64 (w - (alast - vlast))) by (unfold is_uint; lia).
    destruct (u128_product63 (value - avg) dt) as [-> H1]; [unfold is_uint; lia..|].
    rewrite u128_div_law by lia. cbn [mbind result_bind].
    set (tot := w - (alast - vlast)) in *.
    assert (0 <= (value - avg) * dt / tot <= value - avg) as Hb.
    { split; [apply Z.div_pos; lia|]. apply Z.div_le_upper_bound; [lia|]. nia. }
    rewrite u128_to_u64_law by lia. rewrite wrap_small by (unfold is_uint; lia).
    eexists. split; [done|]. lia.
Qed.
End average.
