(* ===== verification/VoterClaims.v ===== *)
(** * What the voting code guarantees *)
From S2P Require Import Prelude FlatMap FcInt Asset Pledge ChainState.
From S2P Require Import AccountStats Voter MapSum VoterProof.
Local Open Scope Z_scope.
Import chain voter.

(** A chain of three voters: 1 proxies to 2, which proxies to 3, which votes
    for witness 9 and committee member 8. *)
Definition self_uid : ChainConfig := {| PROXY_TO_SELF_ACCOUNT_UID := 0; NULL_ACCOUNT_UID := 4 |}.
Definition ex_voter (votes eff proxy : Z) (proxied : list Z) : voter_object :=
  {| v_is_valid := true; votes := votes; votes_last_update := 1599990000; effective_votes := eff;
     effective_votes_last_update := 1599990000; effective_votes_next_update_block := 0;
     proxy_uid := proxy; proxy_sequence := if proxy =? 0 then 0 else 1; proxied_voters := 0;
     proxied_votes := proxied; proxy_last_vote_block := [100; 0; 0; 0; 0];
     effective_last_vote_block := 100; number_of_witnesses_voted := 1;
     number_of_platform_voted := 0; number_of_committee_members_voted := 1 |}.
Definition ex_witness (votes : Z) : witness_object :=
  new_witness <| w_sequence := 1 |> <| signing_key := 77 |> <| w_total_votes := votes |>
    <| by_pledge_scheduled_time := 0 |> <| by_vote_scheduled_time := 0 |>.
Definition ex_vote : vote_object :=
  {| voter_uid := 3; voter_sequence := 1; target_uid := 9; target_sequence := 1 |}.
Definition ex_voters : gmap (Z * Z) voter_object :=
  {[ (1, 1) := ex_voter 100000 40000 2 [0; 0; 0; 0];
     (2, 1) := ex_voter 500 500 3 [40000; 0; 0; 0];
     (3, 1) := ex_voter 70 70 0 [500; 40000; 0; 0] ]}.
Definition ex_voting_db : database :=
  sample_db
    <| accounts := {[ 1 := new_account; 2 := new_account; 3 := new_account ]} |>
    <| voters := ex_voters |>
    <| witnesses := {[ 9 := ex_witness 40570 ]} |>
    <| committee_members := {[ 8 := {| c_sequence := 1; c_is_valid := true; c_total_votes := 40570; c_pledge := 0; c_url := EmptyString |} ]} |>
    <| witness_votes := [ex_vote] |>
    <| committee_member_votes := [{| voter_uid := 3; voter_sequence := 1;
                                     target_uid := 8; target_sequence := 1 |}] |>.

(** C20. Effective votes follow the votes and never overshoot.  With the clocks
    in order and a window within range, the update succeeds; the effective
    votes stay between their old value and the voter's votes, reach the votes
    at once when they decrease or the window has passed, and nothing else that
    the tallies depend on changes. *)
Theorem effective_votes_follow_votes {F : FcInt} {FL : FcIntLaws F} {C : ChainConfig}
    (d : database) (v : voter_object) :
  is_uint 63 (votes v) -> is_uint 63 (effective_votes v) ->
  0 <= votes_last_update v <= effective_votes_last_update v ->
  effective_votes_last_update v <= head_block_time d ->
  0 < max_governance_votes_seconds (params d) ->
  votes_last_update v + max_governance_votes_seconds (params d) < 2 ^ 32 ->
  exists v', next_effective_votes d v = Ok v' /\
    Z.min (effective_votes v) (votes v) <= effective_votes v' <= Z.max (effective_votes v) (votes v) /\
    (votes v <= effective_votes v \/
     votes_last_update v + max_governance_votes_seconds (params d) <= head_block_time d ->
     effective_votes v' = votes v) /\
    votes v' = votes v /\ proxied_votes v' = proxied_votes v /\ proxy_key v' = proxy_key v.
Proof.
  unfold is_uint. intros Hv He Hlast Hnow Hw Hfit. unfold next_effective_votes.
  set (w := max_governance_votes_seconds (params d)) in *. set (now := head_block_time d) in *.
  assert (time_add (votes_last_update v) w = votes_last_update v + w) as ->.
  { unfold time_add, u32. apply wrap_small. split; lia. }
  destruct (Z.eqb_spec (effective_votes v) (votes v)) as [Heq|Hne].
  { eexists. split; [reflexivity|]. cbn. split_and!; try done; lia. }
  destruct (Z.ltb_spec (votes v) (effective_votes v)); cbn [orb].
  { eexists. split; [reflexivity|]. cbn. split_and!; try done; lia. }
  destruct (Z.leb_spec (votes_last_update v + w) now).
  { eexists. split; [reflexivity|]. cbn. split_and!; try done; lia. }
  destruct (Z.ltb_spec (effective_votes_last_update v) now).
  2: { eexists. split; [reflexivity|]. cbn. split_and!; try done; lia. }
  destruct (window_average_spec (hardfork d) w now (votes v) (votes_last_update v)
    (effective_votes v) (effective_votes_last_update v)) as (a & -> & Ha);
    try (unfold is_uint; lia).
  eexists. split; [reflexivity|]. cbn. split_and!; try done; lia.
Qed.

Lemma effective_votes_follow_votes_witness :
  exists v', next_effective_votes (F := fc_checked) ex_voting_db (ex_voter 100000 40000 2 [0; 0; 0; 0])
             = Ok v' /\ 40000 <= effective_votes v' <= 100000.
Proof.
  destruct (@effective_votes_follow_votes fc_checked fc_checked_laws self_uid ex_voting_db
    (ex_voter 100000 40000 2 [0; 0; 0; 0])) as (v' & H & Hb & _);
    try (unfold is_uint; cbn; lia).
  exists v'. split; [exact H|]. cbn in Hb. lia.
Defined.

(** C21. Vote tallies stay consistent: an update of a voter's effective votes
    preserves the invariant that every proxy records, level by level, what the
    voters behind it hold, that every valid witness and committee member has
    the sum of the total votes of its voters, and that only voters without a
    proxy vote directly. *)
Theorem tallies_stay_consistent {F : FcInt} {FL : FcIntLaws F} {C : ChainConfig}
    (k : Z * Z) (d d' : database) (u : unit) :
  tally_inv d -> update_voter_effective_votes k d = Ok (u, d') -> tally_inv d'.
Proof.
  intros (Hpo & Hwb & Hcb) Hrun. unfold update_voter_effective_votes in Hrun.
  apply mbind_ok in Hrun as (d0 & d1 & Hg & Hrun). apply get_ok in Hg. injection Hg as -> ->.
  apply mbind_ok in Hrun as (v & d2 & Hg & Hrun). apply get_voter_ok in Hg as [Hv ->].
  apply mbind_ok in Hrun as (v' & d3 & Hg & Hrun). apply lift_ok in Hg as (x & Hn & Hx).
  injection Hx as -> ->.
  apply mbind_ok in Hrun as (u1 & d4 & Hm & Hrun).
  apply modify_voter_ok in Hm as (v0 & v1 & Hv0 & [= <-] & ->).
  rewrite Hv in Hv0. injection Hv0 as <-.
  pose proof (next_effective_votes_core d v x Hn) as Hcore.
  pose proof (cores_lookup _ _ _ Hv) as Hlk.
  destruct (Z.eqb_spec (effective_votes v) (effective_votes x)) as [Heq|Hne].
  { injection Hrun as <- <-.
    assert (cores (d <| voters ::= <[k := x]> |>) = cores d) as Hc.
    { apply (cores_same d k v); [done|]. rewrite Hcore, <- Heq. done. }
    split; [rewrite Hc; exact Hpo|].
    split; (eapply tally_ok_frame; [exact Hc| |done]); apply bl_voters. }
  apply mbind_ok in Hrun as (delta & d5 & Hd & Hrun). apply lift_ok in Hd as (y & Hs & Hy).
  injection Hy as -> ->. apply safe_sub_ok in Hs as [-> _].
  eapply adjust_voter_votes_spec; [exact Hrun|]. unfold walk_inv. rewrite cores_insert.
  set (delta := i64 (effective_votes x) - i64 (effective_votes v)) in *.
  assert (eq64 (effective_votes x) (effective_votes v + delta)) as He.
  { unfold delta. rewrite !i64_eq64.
    by replace (effective_votes v + (effective_votes x - effective_votes v))
      with (effective_votes x) by lia. }
  assert (eq64 (weight (core x)) (weight (core v) + delta)) as Hwt.
  { rewrite Hcore. unfold weight. cbn. rewrite He.
    match goal with |- eq64 ?a ?b => by replace a with b by lia end. }
  split; [|split].
  - rewrite Hcore. by apply (eff_change _ _ k (core v)).
  - eapply (tally_gain _ k (core v)); [exact Hwb|done|apply cores_insert|apply bl_voters|by rewrite Hcore|done].
  - eapply (tally_gain _ k (core v)); [exact Hcb|done|apply cores_insert|apply bl_voters|by rewrite Hcore|done].
Qed.

Lemma ex_voting_db_inv : @tally_inv self_uid fc_checked ex_voting_db.
Proof.
  split; [|split].
  - intros cur l k c Hk. unfold cores in Hk. apply lookup_fmap_Some in Hk as (v & <- & Hv).
    change (voters ex_voting_db) with ex_voters in Hv. unfold ex_voters in Hv.
    repeat (apply lookup_insert_Some in Hv as [[<- <-]|[_ Hv]] ||
            apply lookup_singleton_Some in Hv as [<- <-]);
      (split; [reflexivity|]); intros j x Hx; rewrite pending_zero;
      do 4 (destruct j as [|j]; [injection Hx as <-; vm_compute; reflexivity|]); done.
  - split.
    + intros k uid q t Ht. cbn in Ht. unfold find_witness_by_uid in Ht. cbn in Ht.
      destruct (decide (uid = 9)) as [->|Hne].
      * vm_compute in Ht. injection Ht as <- <-. rewrite (tally_zero _ k (0, 0)). vm_compute. reflexivity.
      * by rewrite lookup_singleton_ne in Ht.
    + intros o Ho. cbn in Ho. apply list_elem_of_singleton in Ho as ->.
      eexists. split; [vm_compute; reflexivity|reflexivity].
  - split.
    + intros k uid q t Ht. cbn in Ht. unfold find_committee_member_by_uid in Ht. cbn in Ht.
      destruct (decide (uid = 8)) as [->|Hne].
      * vm_compute in Ht. injection Ht as <- <-. rewrite (tally_zero _ k (0, 0)). vm_compute. reflexivity.
      * by rewrite lookup_singleton_ne in Ht.
    + intros o Ho. cbn in Ho. apply list_elem_of_singleton in Ho as ->.
      eexists. split; [vm_compute; reflexivity|reflexivity].
Qed.

(** The witness of account 9 gains what voter 1 gained, through two proxies. *)
Lemma tallies_stay_consistent_witness :
  exists d', @update_voter_effective_votes fc_checked self_uid (1, 1) ex_voting_db = Ok (tt, d') /\
    (w_total_votes <$> witnesses d' !! 9) = Some 47514 /\ @tally_inv self_uid fc_checked d'.
Proof.
  destruct (@update_voter_effective_votes fc_checked self_uid (1, 1) ex_voting_db)
    as [[[] d']|e] eqn:E; [|exfalso; vm_compute in E; discriminate E].
  exists d'. split; [reflexivity|]. split.
  - assert (match @update_voter_effective_votes fc_checked self_uid (1, 1) ex_voting_db with
            | Ok (_, d2) => w_total_votes <$> witnesses d2 !! 9 | Throw _ => None end = Some 47514)
      as H by (vm_compute; reflexivity).
    rewrite E in H. exact H.
  - apply (@tallies_stay_consistent fc_checked fc_checked_laws self_uid (1, 1) ex_voting_db d' tt).
    + exact ex_voting_db_inv.
    + exact E.
Defined.
