(* ===== verification/Balance.v ===== *)
(** * Balances (db_balance.cpp) *)
From S2P Require Import Prelude FlatMap FcInt Asset Pledge ChainState.
From S2P Require Import AccountStats Voter.
Local Open Scope Z_scope.
Import asset pledge chain acc voter.

Module balance.
#[local] Notation M := (M database).

Section ops.
Context {F : FcInt} {C : ChainConfig}.

Definition balance_of (d : database) (owner aid : Z) : Z := default 0 (balances d !! (owner, aid)).
Definition get_balance (d : database) (owner aid : Z) : asset := Asset (balance_of d owner aid) aid.

(** The votes of a voter after its core balance or the core in its orders
    changed: refresh the effective votes before and after. *)
Definition refresh_votes (account : Z) : M unit :=
  d ← get;
  s ← lift (get_account_statistics_by_uid d account);
  if is_voter s then
    let k := (account, last_voter_sequence s) in
    update_voter_effective_votes k ;;
    modify_voter k (fun v =>
      Ok (v <| votes := get_votes_from_core_balance s |>
            <| votes_last_update := head_block_time d |>)) ;;
    update_voter_effective_votes k
  else mret tt.

(** The balance object itself. *)
Definition adjust_balance_object (account : Z) (delta : asset) : M unit := fun d =>
  let k := (account, asset_id delta) in
  match balances d !! k with
  | None =>
      guard_ok (0 <? amount delta) assert_exception ;;
      Ok (tt, d <| balances ::= <[k := amount delta]> |>)
  | Some b =>
      (if amount delta <? 0
       then n ← safe_neg (amount delta); guard_ok (n <=? b) assert_exception
       else Ok tt) ;;
      b' ← safe_add b (amount delta);
      Ok (tt, d <| balances ::= <[k := b']> |>)
  end.

(** Before core leaves an account: it must be available, and a voter that
    falls below the minimum is invalidated. *)
Definition check_core_debit (account delta : Z) : M unit :=
  d ← get;
  s ← lift (get_account_statistics_by_uid d account);
  available ← lift (get_available_core_balance d s);
  n ← lift (safe_neg delta);
  fc_assert (n <=? available) ;;
  if is_voter s then
    b ← lift (safe_add (core_balance s) delta);
    when (b <? i64 (min_governance_voting_balance (params d)))
      (invalidate_voter (account, last_voter_sequence s))
  else mret tt.

(** The bookkeeping of the core asset in the account statistics. *)
Definition adjust_core (account delta : Z) : M unit :=
  when (delta <? 0) (check_core_debit account delta) ;;
  d ← get;
  let window := csaf_accumulate_window (params d) in
  modify_stats account (fun s =>
    s ← (if hardfork d <? HEAD_FORK_05
         then update_coin_seconds_earned window (head_block_time d) d (hardfork d) s
         else Ok s);
    b ← safe_add (core_balance s) delta;
    Ok (s <| core_balance := b |>)) ;;
  refresh_votes account.

Definition adjust_balance (account : Z) (delta : asset) : M unit :=
  if amount delta =? 0 then mret tt
  else
    adjust_balance_object account delta ;;
    when (asset_id delta =? CORE_ASSET_AID) (adjust_core account (amount delta)).

(** [deposit_witness_pay]: part of the pay of a witness scheduled by pledge
    goes to those who pledged to it. *)
Definition deposit_witness_pay (wit : Z) (pay : Z) (wit_type : scheduled_witness_type) : M unit :=
  fc_assert (0 <=? pay) ;;
  if pay =? 0 then mret tt
  else
    d ← get;
    w ← lift (deref (witnesses d !! wit) undefined_behaviour);
    _ ← lift (get_account_statistics_by_uid d wit);
    let deposit x := modify_stats wit (fun s =>
      y ← safe_add (uncollected_witness_pay s) x; Ok (s <| uncollected_witness_pay := y |>)) in
    if (hardfork d <? HEAD_FORK_05) || negb (bool_decide (wit_type = scheduled_by_pledge)) ||
       (w_total_mining_pledge w =? 0) || (bonus_rate w =? 0)
    then deposit pay
    else
      q ← lift (bigint_div (pay * bonus_rate w * w_total_mining_pledge w)
                  (u64 (u64 (w_pledge w + w_total_mining_pledge w) * PERCENT_100)));
      pledge_bonus ← lift (bigint_to_int64 q);
      when (0 <? pledge_bonus) (modify_witness wit (fun w =>
        u ← safe_add (unhandled_bonus w) pledge_bonus;
        n ← safe_add (need_distribute_bonus w) pledge_bonus;
        let w := w <| unhandled_bonus := u |> <| need_distribute_bonus := n |> in
        Ok (if last_update_bonus_block_num w =? 0
            then w <| last_update_bonus_block_num := head_block_num d |> else w))) ;;
      rest ← lift (safe_sub pay pledge_bonus);
      deposit rest.
End ops.
End balance.
