(* ===== verification/Transfer.v ===== *)
(** * Transfers, balance locks and coin-seconds fees
      (protocol/transfer.hpp, protocol/transfer.cpp, transfer_evaluator.cpp,
      is_authorized_asset.cpp, balance_lock_evaluator.cpp, csaf_evaluator.cpp)

    Each evaluator is its [do_evaluate] followed by its [do_apply]; the values
    the first stores in members of the evaluator are passed to the second. *)
From S2P Require Import Prelude FlatMap FcInt Asset Pledge ChainState.
From S2P Require Import AccountStats Voter Balance.
Local Open Scope Z_scope.
Import asset pledge chain acc voter balance.

Module transfer.
#[local] Notation M := (M database).

(** The flags of an asset ([asset_issuer_permission_flags]). *)
Definition has_flag (a : asset_object) (flag : Z) : bool := negb (Z.land (flags a) flag =? 0).
Definition charges_market_fees (a : asset_object) : bool := has_flag a 1.
Definition enabled_whitelist (a : asset_object) : bool := has_flag a 2.
Definition can_override (a : asset_object) : bool := has_flag a 4.
Definition is_transfer_restricted (a : asset_object) : bool := has_flag a 8.

(** [_validate_authorized_asset] and the inline test in front of it. *)
Definition validate_authorized_asset (acct : account_object) (aid : Z) (a : asset_object)
    : result unit :=
  if enabled_whitelist a || match allowed_assets acct with Some _ => true | None => false end then
    guard_ok (match allowed_assets acct with
              | Some allowed => bool_decide (aid ∈ allowed) | None => true end) assert_exception ;;
    if negb (enabled_whitelist a) then Ok tt
    else
      guard_ok (forallb (fun id => negb (bool_decide (id ∈ blacklist_authorities a)))
                  (blacklisting_accounts acct)) assert_exception ;;
      if bool_decide (whitelist_authorities a = ∅) then Ok tt
      else guard_ok (existsb (fun id => bool_decide (id ∈ whitelist_authorities a))
                       (whitelisting_accounts acct)) assert_exception
  else Ok tt.

(** ** [transfer_operation] *)
Record transfer_ext := {
  from_balance : option asset; from_prepaid : option asset;
  to_balance : option asset; to_prepaid : option asset;
  sign_platform : option Z }.
Record transfer_operation := {
  from : Z; to : Z; t_amount : asset; extensions : option transfer_ext }.

Definition some_from_balance (op : transfer_operation) : bool :=
  match extensions op with
  | None => true
  | Some ev => match from_balance ev with Some b => 0 <? amount b | None => false end
  end.
(** The accounts whose active and secondary authority the operation needs. *)
Definition required_active (op : transfer_operation) : list Z :=
  if some_from_balance op then [from op] else [].
Definition required_secondary (op : transfer_operation) : list Z :=
  if some_from_balance op then [] else [from op].

Section ops.
Context {F : FcInt} {C : ChainConfig}.
(** [is_valid_account_uid] of [Uid], with its hash. *)
Variable is_valid_uid : Z -> bool.

Definition validate_positive (a : asset) : result unit := guard_ok (0 <? amount a) assert_exception.
Definition validate_asset_id (a : asset) (aid : Z) : result unit :=
  guard_ok (asset_id a =? aid) assert_exception.

Definition validate_part (p : option asset) (aid : Z) : result asset :=
  match p with
  | None => Ok (Asset 0 aid)
  | Some a => validate_positive a ;; validate_asset_id a aid ;; mret a
  end.
Definition validate_core_part (p : option asset) (total : asset) : result asset :=
  match p with
  | None => Ok (Asset 0 (asset_id total))
  | Some a => validate_asset_id a CORE_ASSET_AID ;; validate_positive a ;;
              validate_asset_id total CORE_ASSET_AID ;; mret a
  end.

(** [transfer_operation::validate], without the check of the fee. *)
Definition validate (op : transfer_operation) : result unit :=
  guard_ok (is_valid_uid (from op)) assert_exception ;;
  guard_ok (is_valid_uid (to op)) assert_exception ;;
  validate_positive (t_amount op) ;;
  match extensions op with
  | None => guard_ok (negb (from op =? to op)) assert_exception
  | Some ev =>
      let aid := asset_id (t_amount op) in
      fb ← validate_part (from_balance ev) aid;
      fp ← validate_core_part (from_prepaid ev) (t_amount op);
      tb ← validate_part (to_balance ev) aid;
      tp ← validate_core_part (to_prepaid ev) (t_amount op);
      (if (0 <? amount fb) || (0 <? amount fp)
       then s ← add fb fp; guard_ok (eqb (t_amount op) s) assert_exception else Ok tt) ;;
      (if (0 <? amount tb) || (0 <? amount tp)
       then s ← add tb tp; guard_ok (eqb (t_amount op) s) assert_exception else Ok tt) ;;
      if from op =? to op then
        guard_ok ((amount fp =? 0) && (amount tp =? amount (t_amount op)) ||
                  (amount fp =? amount (t_amount op)) && (amount tp =? 0)) assert_exception
      else Ok tt
  end.

(** [get_auth_platform_usable_prepaid]. *)
Definition usable_prepaid (o : account_auth_platform_object) (account_prepaid : Z) : result Z :=
  guard_ok (cur_used o <=? max_limit o) assert_exception ;;
  a ← safe_sub (max_limit o) (cur_used o);
  Ok (if a <=? account_prepaid then a else account_prepaid).

(** What [do_evaluate] leaves for [do_apply]. *)
Record transfer_plan := {
  p_from_balance : asset; p_from_prepaid : asset;
  p_to_balance : asset; p_to_prepaid : asset;
  p_auth : option (Z * Z) }.

Definition positive_part (p : option asset) : asset :=
  match p with
  | Some a => if 0 <? amount a then a else Asset 0 CORE_ASSET_AID
  | None => Asset 0 CORE_ASSET_AID
  end.
Definition balance_part (explicit : option asset) (prepaid_part whole : asset) : asset :=
  match explicit with
  | Some a => a
  | None => if 0 <? amount prepaid_part then Asset 0 (asset_id whole) else whole
  end.

(** The check of a transfer signed by a platform: [sign_account] is
    [sigs.real_secondary_uid(op.from, 1)]. *)
Definition find_auth (d : database) (sign_account : Z) (op : transfer_operation)
    : result (option (Z * Z)) :=
  if some_from_balance op || (sign_account =? from op) then Ok None
  else
    s ← get_account_statistics_by_uid d (from op);
    match auth_platforms d !! (from op, sign_account) with
    | None => Ok None
    | Some o =>
        guard_ok (0 <? Z.land (permission_flags o) 32) assert_exception ;;
        guard_ok (amount (t_amount op) <=? prepaid s) assert_exception ;;
        (if max_limit o <? 2 ^ 63 - 1
         then u ← usable_prepaid o (prepaid s);
              guard_ok (amount (t_amount op) <=? u) assert_exception
         else Ok tt) ;;
        Ok (Some (from op, sign_account))
    end.
Definition check_sign_platform (d : database) (auth : option (Z * Z)) (op : transfer_operation)
    : result unit :=
  if head_block_time d <=? HARDFORK_0_4_TIME then Ok tt
  else match auth with
       | Some k =>
           ev ← deref (extensions op) assert_exception;
           p ← deref (sign_platform ev) assert_exception;
           guard_ok (p =? k.2) assert_exception
       | None =>
           match extensions op with
           | Some ev => guard_ok (match sign_platform ev with None => true | Some _ => false end)
                                 assert_exception
           | None => Ok tt
           end
       end.

Definition transfer_do_evaluate (sign_account : Z) (op : transfer_operation) (d : database)
    : result transfer_plan :=
  fa ← get_account_by_uid d (from op);
  ta ← get_account_by_uid d (to op);
  let aid := asset_id (t_amount op) in
  a ← get_asset_by_aid d aid;
  validate_authorized_asset fa aid a ;;
  validate_authorized_asset ta aid a ;;
  auth ← find_auth d sign_account op;
  check_sign_platform d auth op ;;
  guard_ok (negb (is_transfer_restricted a) || (from op =? issuer a) || (to op =? issuer a))
    assert_exception ;;
  plan ← match extensions op with
         | None => Ok {| p_from_balance := t_amount op; p_from_prepaid := Asset 0 CORE_ASSET_AID;
                         p_to_balance := t_amount op; p_to_prepaid := Asset 0 CORE_ASSET_AID;
                         p_auth := auth |}
         | Some ev =>
             let fp := positive_part (from_prepaid ev) in
             let tp := positive_part (to_prepaid ev) in
             (if 0 <? amount fp
              then s ← get_account_statistics_by_uid d (from op);
                   guard_ok (amount fp <=? prepaid s) assert_exception
              else Ok tt) ;;
             (if 0 <? amount tp
              then _ ← get_account_statistics_by_uid d (to op); Ok tt else Ok tt) ;;
             Ok {| p_from_balance := balance_part (from_balance ev) fp (t_amount op);
                   p_from_prepaid := fp;
                   p_to_balance := balance_part (to_balance ev) tp (t_amount op);
                   p_to_prepaid := tp;
                   p_auth := auth |}
         end;
  guard_ok (negb (0 <? amount (p_from_balance plan)) ||
            (amount (p_from_balance plan) <=? balance_of d (from op) aid)) assert_exception ;;
  Ok plan.

Definition adjust_prepaid (account delta : Z) : M unit :=
  modify_stats account (fun s => x ← safe_add (prepaid s) delta; Ok (s <| prepaid := x |>)).

(** The platform's used part of the prepaid of the account. *)
Definition use_auth (k : Z * Z) (x : Z) : M unit := fun d =>
  o ← deref (auth_platforms d !! k) undefined_behaviour;
  u ← safe_add (cur_used o) x;
  Ok (tt, d <| auth_platforms ::= <[k := o <| cur_used := u |>]> |>).

Definition transfer_do_apply (op : transfer_operation) (p : transfer_plan) : M unit :=
  when (0 <? amount (p_from_balance p))
    (n ← lift (neg (p_from_balance p)); adjust_balance (from op) n) ;;
  when (0 <? amount (p_from_prepaid p))
    (modify_stats (from op) (fun s =>
       x ← safe_sub (prepaid s) (amount (p_from_prepaid p)); Ok (s <| prepaid := x |>)) ;;
     match p_auth p with
     | Some k => use_auth k (amount (p_from_prepaid p))
     | None => mret tt
     end) ;;
  when (0 <? amount (p_to_balance p)) (adjust_balance (to op) (p_to_balance p)) ;;
  when (0 <? amount (p_to_prepaid p)) (adjust_prepaid (to op) (amount (p_to_prepaid p))).

Definition transfer (sign_account : Z) (op : transfer_operation) : M unit :=
  d ← get;
  plan ← lift (transfer_do_evaluate sign_account op d);
  transfer_do_apply op plan.

(** ** [override_transfer_operation] and [inline_transfer_operation] *)
Definition override_transfer (op_issuer op_from op_to : Z) (amt : asset) : M unit :=
  d ← get;
  a ← lift (get_asset_by_aid d (asset_id amt));
  fc_assert (can_override a) ;;
  fc_assert (issuer a =? op_issuer) ;;
  _ ← lift (get_account_by_uid d op_from);
  ta ← lift (get_account_by_uid d op_to);
  lift (validate_authorized_asset ta (asset_id amt) a) ;;
  fc_assert (amount amt <=? balance_of d op_from (asset_id amt)) ;;
  n ← lift (neg amt);
  adjust_balance op_from n ;;
  adjust_balance op_to amt.

Definition inline_transfer (op_from op_to : Z) (amt : asset) : M unit :=
  d ← get;
  _ ← lift (get_account_by_uid d op_from);
  _ ← lift (get_account_by_uid d op_to);
  _ ← lift (get_asset_by_aid d (asset_id amt));
  fc_assert (amount amt <=? balance_of d op_from (asset_id amt)) ;;
  n ← lift (neg amt);
  adjust_balance op_from n ;;
  adjust_balance op_to amt.

(** ** [balance_lock_update_operation] *)
Definition balance_lock_update (account new_lock_balance : Z) : M unit :=
  d ← get;
  fc_assert (HEAD_FORK_05 <=? hardfork d) ;;
  s ← lift (get_account_statistics_by_uid d account);
  o ← lift (match pledge_id Lock_balance s with
            | Some id => p ← get_pledge_balance_object d id; Ok (Some (id, p))
            | None => Ok None
            end);
  when (0 <? new_lock_balance)
    (fc_assert (match o with Some (_, p) => negb (new_lock_balance =? pledge p) | None => true end) ;;
     available ← lift (get_available_core_balance_excluding Lock_balance d s);
     fc_assert (new_lock_balance <=? available)) ;;
  modify_stats account
    (update_coin_seconds_earned (csaf_accumulate_window (params d)) (head_block_time d) d HEAD_FORK_05) ;;
  match o with
  | Some (id, p) =>
      let num := u32 (head_block_num d + unlocked_balance_release_delay (params d)) in
      let max := max_releasing_size (hardfork d) (max_pledge_releasing_size (params d)) in
      '(_, p') ← lift (update_pledge (Asset new_lock_balance CORE_ASSET_AID) num max p);
      upd (fun d => d <| pledge_balances ::= <[id := p']> |>)
  | None =>
      let id := next_pledge_balance_id d in
      let p := {| superior_index := account; type := Lock_balance; pb_asset_id := CORE_ASSET_AID;
                  pledge := new_lock_balance; total_releasing_pledge := 0; releasing_pledges := [] |} in
      upd (fun d => d <| pledge_balances ::= <[id := p]> |> <| next_pledge_balance_id := id + 1 |>) ;;
      modify_stats account (fun s =>
        Ok (s <| pledge_balance_ids ::= fm_emplace Lock_balance id |>))
  end.

(** ** [csaf_collect_operation] *)
Definition csaf_collect (op_from op_to amt op_time : Z) : M unit :=
  d ← get;
  fs ← lift (get_account_statistics_by_uid d op_from);
  ts ← lift (get_account_statistics_by_uid d op_to);
  want ← lift (safe_add amt (csaf ts));
  limit ← lift (match pledge_id Lock_balance ts with
                | Some id =>
                    if HEAD_FORK_05 <=? hardfork d then
                      p ← get_pledge_balance_object d id;
                      q ← u128_div (u128_mul (u128_of (pledge p))
                                      (csaf_limit_lock_balance_modulus (params d))) PERCENT_100;
                      safe_add (max_csaf_per_account (params d)) (u128_to_i64 q)
                    else Ok (max_csaf_per_account (params d))
                | None => Ok (max_csaf_per_account (params d))
                end);
  fc_assert (want <=? limit) ;;
  fc_assert (op_time <=? head_block_time d) ;;
  fc_assert (head_block_time d <=? time_add op_time 300) ;;
  '(available, _) ← lift (compute_coin_seconds_earned_fix (csaf_accumulate_window (params d))
                            op_time d (hardfork d) fs);
  let collecting := u128_mul (u128_of amt) (csaf_rate (params d)) in
  fc_assert (collecting <=? available) ;;
  modify_stats op_from (fun s =>
    Ok (set_coin_seconds_earned (u128_sub available collecting) op_time s)) ;;
  modify_stats op_to (fun s => x ← safe_add (csaf s) amt; Ok (s <| csaf := x |>)).

(** ** [csaf_lease_operation] *)
Definition lease_core (account : Z)
    (f : account_statistics -> result account_statistics) : M unit :=
  d ← get;
  modify_stats account (fun s =>
    s ← (if hardfork d <? HEAD_FORK_05
         then update_coin_seconds_earned (csaf_accumulate_window (params d)) (head_block_time d) d
                (hardfork d) s
         else Ok s);
    f s).
Definition csaf_lease (op_from op_to amt op_expiration : Z) : M unit :=
  d ← get;
  fc_assert ((amt =? 0) || (head_block_time d <? op_expiration)) ;;
  let current := csaf_leases d !! (op_from, op_to) in
  delta ← lift (match current with
                | None => guard_ok (0 <? amt) assert_exception ;; Ok amt
                | Some l =>
                    guard_ok (negb (l_amount l =? amt) || negb (l_expiration l =? op_expiration))
                      assert_exception ;;
                    safe_sub amt (l_amount l)
                end);
  fs ← lift (get_account_statistics_by_uid d op_from);
  _ ← lift (get_account_statistics_by_uid d op_to);
  when (0 <? delta)
    (available ← lift (get_available_core_balance d fs);
     fc_assert (delta <=? available)) ;;
  upd (fun d =>
    match current with
    | Some l => d <| csaf_leases ::=
        if 0 <? amt then <[(op_from, op_to) := l <| l_amount := amt |> <| l_expiration := op_expiration |>]>
        else delete (op_from, op_to) |>
    | None => d <| csaf_leases ::= <[(op_from, op_to) := {| l_amount := amt; l_expiration := op_expiration;
                                                           l_id := next_csaf_lease_id d |}]> |>
                <| next_csaf_lease_id ::= Z.succ |>
    end) ;;
  when (negb (delta =? 0))
    (lease_core op_from (fun s =>
       x ← safe_add (core_leased_out s) delta; Ok (s <| core_leased_out := x |>)) ;;
     lease_core op_to (fun s =>
       x ← safe_add (core_leased_in s) delta; Ok (s <| core_leased_in := x |>))).
End ops.
End transfer.
