(* ===== verification/Frame.v ===== *)
(** * What an operation leaves alone

    [keeps p m] says that the computation [m] does not change the part [p] of
    the database.  Parts that voting does not touch form the class
    [VotingFrame]; every voting operation keeps them. *)
From S2P Require Import Prelude FlatMap FcInt Asset Pledge ChainState.
From S2P Require Import AccountStats Voter.
Local Open Scope Z_scope.
Import asset pledge chain acc voter.

Definition keeps {X A} (p : database -> X) (m : M database A) : Prop :=
  forall d a d', m d = Ok (a, d') -> p d' = p d.

Create HintDb keeps.

Section keeps.
Context {X : Type} (p : database -> X).

Lemma keeps_bind {A B} (m : M database A) (f : A -> M database B) :
  keeps p m -> (forall a, keeps p (f a)) -> keeps p (m ≫= f).
Proof.
  intros Hm Hf d b d' (a & d1 & H1 & H2)%mbind_ok. rewrite (Hf a _ _ _ H2). by eapply Hm.
Qed.
Lemma keeps_ret {A} (a : A) : keeps p (mret a).
Proof. intros d b d' [= _ <-]. done. Qed.
Lemma keeps_get : keeps p get.
Proof. intros d b d' [= _ <-]. done. Qed.
Lemma keeps_gets {A} (f : database -> A) : keeps p (gets f).
Proof. intros d b d' [= _ <-]. done. Qed.
Lemma keeps_lift {A} (r : result A) : keeps p (lift r).
Proof. intros d b d' Hl. apply lift_ok in Hl as (? & _ & [= _ ->]). done. Qed.
Lemma keeps_assert b : keeps p (fc_assert b).
Proof. intros d u d' Hl. apply fc_assert_ok in Hl as [_ [= _ ->]]. done. Qed.
Lemma keeps_throw {A} e : keeps p (throw (A := A) e).
Proof. by intros d u d' H. Qed.
Lemma keeps_when b (m : M database unit) : keeps p m -> keeps p (when b m).
Proof. intros Hm. destruct b; [done|apply keeps_ret]. Qed.
Lemma keeps_if {A} (b : bool) (m1 m2 : M database A) :
  keeps p m1 -> keeps p m2 -> keeps p (if b then m1 else m2).
Proof. by destruct b. Qed.
Lemma keeps_mfor {A} (f : A -> M database unit) l : (forall x, keeps p (f x)) -> keeps p (mfor f l).
Proof.
  intros Hf. induction l as [|x l IH]; cbn [mfor]; [apply keeps_ret|].
  apply keeps_bind; [apply Hf|intros _; exact IH].
Qed.
Lemma keeps_get_voter k : keeps p (get_voter k).
Proof. unfold get_voter. intros d v d' H. inv_ok. done. Qed.
End keeps.
#[export] Hint Resolve keeps_bind keeps_ret keeps_get keeps_gets keeps_lift keeps_assert keeps_throw keeps_when
  keeps_if keeps_get_voter : keeps.

(** Solve a [keeps] goal by walking the computation. *)
Ltac keep_step :=
  match goal with
  | |- keeps _ (_ ≫= _) => apply keeps_bind; [|intros ?]
  | |- keeps _ (match ?x with _ => _ end) => destruct x
  | |- keeps _ _ => solve [auto with keeps]
  | |- keeps _ (when _ _) => apply keeps_when
  | |- keeps _ (mfor _ _) => apply keeps_mfor; intros ?
  | |- keeps _ (let _ := _ in _) => cbv zeta
  end.
Ltac keep := repeat keep_step.

(** The members of a witness that a change of its votes may touch. *)
Definition vote_change (w w' : witness_object) : Prop :=
  w' = w <| w_total_votes := w_total_votes w' |> <| by_vote_position := by_vote_position w' |>
         <| by_vote_position_last_update := by_vote_position_last_update w' |>
         <| by_vote_scheduled_time := by_vote_scheduled_time w' |>.

(** Parts of the database that voting does not touch. *)
Class VotingFrame {X} (p : database -> X) : Prop := {
  vf_voters d f : p (d <| voters ::= f |>) = p d;
  vf_witnesses d uid w w' : witnesses d !! uid = Some w -> vote_change w w' ->
    p (d <| witnesses ::= <[uid := w']> |>) = p d;
  vf_committee d f : p (d <| committee_members ::= f |>) = p d;
  vf_platforms d f : p (d <| platforms ::= f |>) = p d;
  vf_witness_votes d l : p (d <| witness_votes := l |>) = p d;
  vf_committee_votes d l : p (d <| committee_member_votes := l |>) = p d;
  vf_platform_votes d l : p (d <| platform_votes := l |>) = p d;
  vf_is_voter d uid s : stats d !! uid = Some s ->
    p (d <| stats ::= <[uid := s <| is_voter := false |>]> |>) = p d;
}.

(** The members of a voter that say for whom it votes stay. *)
Definition tally_change (v v' : voter_object) : Prop := proxy_key v' = proxy_key v.
(** Parts that moving votes along the proxies does not touch. *)
Class TallyFrame {X} (p : database -> X) : Prop := {
  tf_voter d k v v' : voters d !! k = Some v -> tally_change v v' -> p (d <| voters ::= <[k := v']> |>) = p d;
  tf_witnesses d uid w w' : witnesses d !! uid = Some w -> vote_change w w' ->
    p (d <| witnesses ::= <[uid := w']> |>) = p d;
  tf_committee d f : p (d <| committee_members ::= f |>) = p d;
  tf_platforms d f : p (d <| platforms ::= f |>) = p d;
  tf_witness_votes d l : p (d <| witness_votes := l |>) = p d;
  tf_committee_votes d l : p (d <| committee_member_votes := l |>) = p d;
  tf_platform_votes d l : p (d <| platform_votes := l |>) = p d;
}.
#[export] Instance voting_tally {X} (p : database -> X) `{!VotingFrame p} : TallyFrame p.
Proof.
  split; intros; [apply vf_voters|by eapply vf_witnesses|apply vf_committee|apply vf_platforms
    |apply vf_witness_votes|apply vf_committee_votes|apply vf_platform_votes].
Qed.

Section tally.
Context {F : FcInt} {C : ChainConfig} {X : Type} (p : database -> X) {TF : TallyFrame p}.

Lemma keeps_tally k f : (forall v v', f v = Ok v' -> tally_change v v') -> keeps p (modify_voter k f).
Proof. unfold modify_voter. intros Hf d u d' H. inv_ok. by eapply tf_voter; [|apply Hf]. Qed.
Lemma keeps_modify_witness k f :
  (forall w w', f w = Ok w' -> vote_change w w') -> keeps p (modify_witness k f).
Proof. unfold modify_witness. intros Hf d u d' H. inv_ok. eapply tf_witnesses; eauto. Qed.
#[local] Hint Extern 2 (keeps _ (modify_voter _ _)) =>
  apply keeps_tally; intros ? ? ?; inv_ok; done : keeps.

Lemma keeps_adjust_witness_votes uid delta : keeps p (adjust_witness_votes uid delta).
Proof.
  intros d u d' H. unfold adjust_witness_votes in H. apply bind_ok in H as (w & _ & H).
  destruct (_ || _); [by injection H as _ <-|]. eapply keeps_modify_witness, H.
  clear. intros w w' H. cbv beta zeta in H.
  destruct (by_vote_position_last_update w <? current_by_vote_time (witness_schedule d));
    apply bind_ok in H as (t & _ & [= <-]); by destruct w.
Qed.
Lemma keeps_adjust_committee_member_votes uid delta : keeps p (adjust_committee_member_votes uid delta).
Proof.
  intros d u d' H. unfold adjust_committee_member_votes in H. apply bind_ok in H as (w & _ & H).
  destruct (_ || _); injection H as _ <-; [done|apply tf_committee].
Qed.
Lemma keeps_adjust_platform_votes uid delta : keeps p (adjust_platform_votes uid delta).
Proof.
  intros d u d' H. unfold adjust_platform_votes in H. apply bind_ok in H as (w & _ & H).
  destruct (_ || _); injection H as _ <-; [done|apply tf_platforms].
Qed.

(** A ballot whose operations keep [p]. *)
Class BallotKeeps (b : ballot) : Prop := {
  bk_adjust uid delta : keeps p (b_adjust b uid delta);
  bk_set_votes l d : p (b_set_votes b l d) = p d;
  bk_number f v : tally_change v (b_set_number b f v);
}.
#[export] Instance witness_keeps : BallotKeeps witness_ballot.
Proof. split; [apply keeps_adjust_witness_votes|intros; apply tf_witness_votes|done]. Qed.
#[export] Instance committee_keeps : BallotKeeps committee_ballot.
Proof. split; [apply keeps_adjust_committee_member_votes|intros; apply tf_committee_votes|done]. Qed.
#[export] Instance platform_keeps : BallotKeeps platform_ballot.
Proof. split; [apply keeps_adjust_platform_votes|intros; apply tf_platform_votes|done]. Qed.

Lemma keeps_adjust_loop b {BK : BallotKeeps b} os delta r : keeps p (adjust_loop b os delta r).
Proof.
  revert r. induction os as [|o os IH]; intros r d a d' H; cbn [adjust_loop] in H.
  { by injection H as _ <-. }
  destruct (target_current b d o); [|by eapply IH].
  revert H. apply keeps_bind; [apply bk_adjust|intros; apply IH].
Qed.
Lemma keeps_clear_loop b {BK : BallotKeeps b} os delta : keeps p (clear_loop b os delta).
Proof.
  induction os as [|o os IH]; intros d a d' H; cbn [clear_loop] in H.
  { by injection H as _ <-. }
  destruct (target_current b d o); [|by eapply IH].
  revert H. apply keeps_bind; [apply bk_adjust|intros; apply IH].
Qed.
Lemma keeps_adjust_voter_self b {BK : BallotKeeps b} k delta : keeps p (adjust_voter_self b k delta).
Proof.
  intros d u d' H. unfold adjust_voter_self in H. apply bind_ok in H as ([r d1] & Hl & H).
  apply keeps_adjust_loop in Hl; [|done]. rewrite <- Hl. destruct (0 <? r).
  - apply keeps_tally in H; [by rewrite H, bk_set_votes|]. intros v v' [= <-]. apply bk_number.
  - injection H as _ <-. by rewrite bk_set_votes.
Qed.
Lemma keeps_clear_voter_ballot b {BK : BallotKeeps b} k : keeps p (clear_voter_ballot b k).
Proof.
  intros d u d' H. unfold clear_voter_ballot in H. apply bind_ok in H as (v & _ & H).
  apply bind_ok in H as (m & _ & H). apply bind_ok in H as ([r d1] & Hl & H).
  apply keeps_clear_loop in Hl; [|done]. rewrite <- Hl.
  apply keeps_tally in H; [by rewrite H, bk_set_votes|]. intros v' v'' [= <-]. apply bk_number.
Qed.
#[local] Hint Resolve keeps_adjust_voter_self keeps_clear_voter_ballot
  keeps_adjust_platform_votes witness_keeps committee_keeps platform_keeps : keeps.

Lemma keeps_adjust_voter_self_votes k delta : keeps p (adjust_voter_self_votes k delta).
Proof.
  unfold adjust_voter_self_votes, adjust_voter_self_witness_votes,
    adjust_voter_self_committee_member_votes, adjust_voter_self_platform_votes. keep.
Qed.
Lemma keeps_proxy_walk n l cur delta : keeps p (proxy_walk n l cur delta).
Proof.
  revert l cur. induction n as [|n IH]; intros l cur; cbn [proxy_walk]; keep.
Qed.
#[local] Hint Resolve keeps_adjust_voter_self_votes keeps_proxy_walk : keeps.
Lemma keeps_adjust_voter_votes k delta : keeps p (adjust_voter_votes k delta).
Proof. unfold adjust_voter_votes. keep. Qed.
#[local] Hint Resolve keeps_adjust_voter_votes : keeps.
Lemma next_effective_votes_tally d v v' : next_effective_votes d v = Ok v' -> tally_change v v'.
Proof. unfold next_effective_votes. cbv zeta. intros H. repeat case_match; inv_ok; done. Qed.
Lemma keeps_update_voter_effective_votes k : keeps p (update_voter_effective_votes k).
Proof.
  intros d u d' H. unfold update_voter_effective_votes in H. peel H as d0 Hd. step H as v d1 Hv.
  apply bind_ok in Hv as (v0 & Hv%deref_ok & [= -> ->]). peel H as v' Hv'. step H as u1 d2 H1.
  assert (p d2 = p d1) as <-.
  { apply bind_ok in H1 as (v0 & Hv0%deref_ok & H1). injection H1 as _ <-. eapply tf_voter; [done|].
    eapply next_effective_votes_tally. rewrite Hv in Hv0. injection Hv0 as <-. exact Hv'. }
  destruct (_ =? _); [by injection H as _ <-|]. peel H as x Hx. by apply keeps_adjust_voter_votes in H.
Qed.

Lemma keeps_proxy_votes_walk n l cur delta path : keeps p (proxy_votes_walk n l cur delta path).
Proof.
  revert l cur path. induction n as [|n IH]; intros l cur path; cbn [proxy_votes_walk]; keep.
Qed.
Lemma copy_last_vote_tally max src v v' : copy_last_vote max src v = Ok v' -> tally_change v v'.
Proof.
  unfold copy_last_vote, update_effective_last_vote_block. intros (l & _ & H)%bind_ok.
  case_match; [done|]. by injection H as <-.
Qed.
Lemma keeps_refresh_last_votes max path : keeps p (refresh_last_votes max path).
Proof.
  induction path as [|top path IH]; [apply keeps_ret|].
  destruct path as [|b path]; [apply keeps_ret|].
  apply keeps_bind; [auto with keeps|intros src].
  apply keeps_bind; [|done]. apply keeps_tally, copy_last_vote_tally.
Qed.
#[local] Hint Resolve keeps_proxy_votes_walk keeps_refresh_last_votes : keeps.
Lemma keeps_adjust_voter_proxy_votes k delta u : keeps p (adjust_voter_proxy_votes k delta u).
Proof. unfold adjust_voter_proxy_votes. keep. Qed.
#[local] Hint Resolve keeps_adjust_voter_proxy_votes : keeps.
Lemma keeps_clear_voter_proxy_votes k : keeps p (clear_voter_proxy_votes k).
Proof. unfold clear_voter_proxy_votes. keep. Qed.
#[local] Hint Resolve keeps_clear_voter_proxy_votes : keeps.
Lemma keeps_clear_voter_votes k : keeps p (clear_voter_votes k).
Proof.
  unfold clear_voter_votes, clear_voter_witness_votes,
    clear_voter_committee_member_votes, clear_voter_platform_votes. keep.
Qed.
End tally.
#[export] Hint Resolve keeps_update_voter_effective_votes keeps_clear_voter_votes
  keeps_clear_voter_proxy_votes keeps_adjust_voter_proxy_votes voting_tally : keeps.

Section voting.
Context {F : FcInt} {C : ChainConfig} {X : Type} (p : database -> X) {VF : VotingFrame p}.
Lemma keeps_modify_voter k f : keeps p (modify_voter k f).
Proof. unfold modify_voter. intros d u d' H. inv_ok. apply vf_voters. Qed.
Lemma keeps_is_voter uid : keeps p (modify_stats uid (fun s => Ok (s <| is_voter := false |>))).
Proof.
  intros d u d' H. unfold modify_stats, get_account_statistics_by_uid in H. inv_ok.
  by apply vf_is_voter.
Qed.
#[local] Hint Resolve keeps_modify_voter keeps_is_voter : keeps.
Lemma keeps_invalidate_voter k : keeps p (invalidate_voter k).
Proof. unfold invalidate_voter. keep. Qed.
End voting.
#[export] Hint Resolve keeps_modify_voter keeps_invalidate_voter : keeps.
