(* ===== verification/Ledger.v ===== *)
(** * The ledger: where the coins are

    [ledger_of d] is the part of the database that holds coins: account
    balances, open orders, accumulated market fees, and per account the
    prepaid coins and what it can still collect.  [supply aid] adds up one
    asset over all of them, the sum the code checks against
    [asset_dynamic_data_object::current_supply]. *)
From S2P Require Import Prelude FcInt FlatMap Asset Pledge ChainState AccountStats Voter MapSum.
From S2P Require Import Balance Frame.
Local Open Scope Z_scope.
Import asset pledge chain acc voter balance.

Record money := Money {
  m_core : Z; m_in_orders : Z; m_prepaid : Z; m_fees : gmap Z Z; m_uncollected : Z }.
Definition money_of (s : account_statistics) : money :=
  Money (core_balance s) (total_core_in_orders s) (prepaid s) (uncollected_market_fees s)
    (uncollected_witness_pay s + uncollected_pledge_bonus s + uncollected_score_bonus s).

Record ledger := Ledger {
  l_balances : gmap (Z * Z) Z;
  l_orders : gmap Z limit_order_object;
  l_fees : gmap Z asset_dynamic_data_object;
  l_money : gmap Z money }.
Definition ledger_of (d : database) : ledger :=
  Ledger (balances d) (limit_orders d) (asset_dynamic_data d) (money_of <$> stats d).

(** The coins that are not in the ledger: the bonus witnesses still owe to those
    who pledged to them and what was paid for advertisements that are not
    confirmed (the budget pool is in the global properties); and what the assets
    record as issued. *)
Definition owed_bonus (w : witness_object) : Z := need_distribute_bonus w - already_distribute_bonus w.
Definition in_escrow (o : advertising_order_object) : Z :=
  if decide (status o = advertising_undetermined) then released_balance o else 0.
Definition owed_coins (d : database) : Z :=
  msum (fun _ => owed_bonus) (witnesses d) + msum (fun _ => owed_bonus) (replaced_witnesses d)
  + msum (fun _ => in_escrow) (advertising_orders (contents d)).
Definition issued (d : database) : gmap Z Z := current_supply <$> asset_dynamic_data d.

(** What no transfer, order or vote changes. *)
Definition statics (d : database) :=
  (assets d, accounts d, params d, dgp d, owed_coins d, issued d, next_asset_id d).

(** ** Supply *)
Definition in_balance (aid : Z) (k : Z * Z) (b : Z) : Z := if k.2 =? aid then b else 0.
Definition in_order (aid : Z) (_ : Z) (o : limit_order_object) : Z :=
  if asset_id (base (sell_price o)) =? aid then for_sale o else 0.
Definition in_money (aid : Z) (_ : Z) (m : money) : Z :=
  default 0 (m_fees m !! aid) + (if aid =? CORE_ASSET_AID then m_prepaid m + m_uncollected m else 0).
Definition in_fees (aid : Z) (fs : gmap Z asset_dynamic_data_object) : Z :=
  match fs !! aid with Some dd => accumulated_fees dd | None => 0 end.
Definition supply (aid : Z) (L : ledger) : Z :=
  msum (in_balance aid) (l_balances L) + msum (in_order aid) (l_orders L)
  + in_fees aid (l_fees L) + msum (in_money aid) (l_money L).

(** The core balance recorded in the statistics is the balance, and no balance
    is negative. *)
Definition ledger_inv (L : ledger) : Prop :=
  (forall acc m, l_money L !! acc = Some m ->
     m_core m = default 0 (l_balances L !! (acc, CORE_ASSET_AID))) /\
  (forall k b, l_balances L !! k = Some b -> 0 <= b).

Definition with_money (acc : Z) (m : money) (L : ledger) : ledger :=
  Ledger (l_balances L) (l_orders L) (l_fees L) (<[acc := m]> (l_money L)).

(** Adding to the balance of an account. *)
Definition credit (acc aid delta : Z) (L : ledger) : ledger :=
  let b := default 0 (l_balances L !! (acc, aid)) + delta in
  Ledger (<[(acc, aid) := b]> (l_balances L)) (l_orders L) (l_fees L)
    (if aid =? CORE_ASSET_AID
     then alter (fun m => Money (m_core m + delta) (m_in_orders m) (m_prepaid m) (m_fees m)
                                (m_uncollected m)) acc (l_money L)
     else l_money L).

Lemma msum_alter {K A} `{Countable K} (f : K -> A -> Z) g k (m : gmap K A) :
  (forall x, f k (g x) = f k x) -> msum f (alter g k m) = msum f m.
Proof.
  intros Hg. destruct (m !! k) as [x|] eqn:E.
  - assert (alter g k m = <[k := g x]> m) as ->.
    { apply map_eq. intros i. destruct (decide (k = i)) as [<-|Hne].
      - by rewrite lookup_alter_eq, lookup_insert_eq, E.
      - by rewrite lookup_alter_ne, lookup_insert_ne. }
    rewrite (msum_update f m k x) by done. rewrite Hg. lia.
  - rewrite alter_id; [done|]. intros y. congruence.
Qed.

Lemma supply_credit aid acc aid' delta L :
  supply aid (credit acc aid' delta L) = supply aid L + (if aid' =? aid then delta else 0).
Proof.
  unfold supply, credit. cbn [l_balances l_orders l_fees l_money]. rewrite msum_set.
  assert (msum (in_money aid)
    (if aid' =? CORE_ASSET_AID
     then alter (fun m => Money (m_core m + delta) (m_in_orders m) (m_prepaid m) (m_fees m)
                                (m_uncollected m)) acc (l_money L)
     else l_money L) = msum (in_money aid) (l_money L)) as ->.
  { destruct (aid' =? CORE_ASSET_AID); [|done]. by apply msum_alter. }
  unfold at_key, in_balance. cbn. destruct (l_balances L !! (acc, aid')); cbn;
    destruct (aid' =? aid); lia.
Qed.

Lemma supply_with_money aid acc m m0 L :
  l_money L !! acc = Some m0 ->
  supply aid (with_money acc m L) = supply aid L + in_money aid acc m - in_money aid acc m0.
Proof. intros E. unfold supply, with_money. cbn. rewrite (msum_update _ _ _ m0) by done. lia. Qed.

Lemma ledger_inv_credit acc aid delta L :
  0 <= default 0 (l_balances L !! (acc, aid)) + delta ->
  ledger_inv L -> ledger_inv (credit acc aid delta L).
Proof.
  intros Hd [Hs Hn]. split.
  - intros acc' m Hm. cbn in *. destruct (Z.eqb_spec aid CORE_ASSET_AID) as [->|Hne].
    + destruct (decide (acc = acc')) as [<-|Hacc].
      * rewrite lookup_alter_eq in Hm. destruct (l_money L !! acc) as [m0|] eqn:E; [|done].
        injection Hm as <-. rewrite lookup_insert_eq. cbn. by rewrite (Hs acc m0 E).
      * rewrite lookup_alter_ne in Hm by done. rewrite lookup_insert_ne by congruence. by apply Hs.
    + rewrite lookup_insert_ne by congruence. by apply Hs.
  - intros k b Hb. cbn in Hb. apply lookup_insert_Some in Hb as [[_ <-]|[_ Hb]]; [done|by eapply Hn].
Qed.

(** Money changes that do not touch the core balance keep the invariant. *)
Lemma ledger_inv_with_money acc m m0 L :
  l_money L !! acc = Some m0 -> m_core m = m_core m0 -> ledger_inv L -> ledger_inv (with_money acc m L).
Proof.
  intros E Hc [Hs Hn]. split; [|exact Hn]. intros acc' m' Hm. cbn in *.
  apply lookup_insert_Some in Hm as [[<- <-]|[_ Hm]]; [|by apply Hs].
  rewrite Hc. by apply Hs.
Qed.

(** ** Frames *)
#[export] Instance ledger_voting : VotingFrame ledger_of.
Proof.
  split; try done. intros d uid s Hs. unfold ledger_of. cbn. f_equal.
  rewrite fmap_insert. apply insert_id. by rewrite lookup_fmap, Hs.
Qed.
Lemma owed_coins_witness d uid w w' :
  witnesses d !! uid = Some w ->
  owed_coins (d <| witnesses ::= <[uid := w']> |>) = owed_coins d - owed_bonus w + owed_bonus w'.
Proof. intros Hw. unfold owed_coins. cbn. rewrite (msum_update _ _ _ w) by done. lia. Qed.
#[export] Instance statics_voting : VotingFrame statics.
Proof.
  split; try done. intros d uid w w' Hw Hc. unfold statics. rewrite (owed_coins_witness _ _ _ _ Hw).
  rewrite Hc. change (owed_bonus _) with (owed_bonus w) at 2. by rewrite Z.sub_add.
Qed.

Section balance_effect.
Context {F : FcInt} {C : ChainConfig}.

Lemma modify_stats_ok uid f d u d' :
  modify_stats uid f d = Ok (u, d') ->
  exists s s', stats d !! uid = Some s /\ f s = Ok s' /\ d' = d <| stats ::= <[uid := s']> |>.
Proof.
  unfold modify_stats, get_account_statistics_by_uid. intros H. inv_ok. eexists _, _. done.
Qed.
Lemma ledger_stats d uid s' :
  ledger_of (d <| stats ::= <[uid := s']> |>) = with_money uid (money_of s') (ledger_of d).
Proof. unfold ledger_of, with_money. cbn. by rewrite fmap_insert. Qed.
Lemma money_lookup d uid s : stats d !! uid = Some s -> l_money (ledger_of d) !! uid = Some (money_of s).
Proof. cbn. rewrite lookup_fmap. by intros ->. Qed.

Lemma update_coin_seconds_money w now d hf s s' :
  update_coin_seconds_earned w now d hf s = Ok s' -> money_of s' = money_of s.
Proof.
  unfold update_coin_seconds_earned. destruct (_ && _); [by intros [= <-]|].
  intros H. apply bind_ok in H as ([e a] & _ & [= <-]). done.
Qed.

(** Refreshing a voter keeps every part voting does not touch. *)
Lemma keeps_refresh_votes {X} (p : database -> X) `{!VotingFrame p} account :
  keeps p (refresh_votes account).
Proof. unfold refresh_votes. keep. Qed.
Lemma keeps_check_core_debit {X} (p : database -> X) `{!VotingFrame p} account delta :
  keeps p (check_core_debit account delta).
Proof. unfold check_core_debit. keep. Qed.
End balance_effect.
#[export] Hint Resolve keeps_refresh_votes keeps_check_core_debit : keeps.

Section adjust.
Context {F : FcInt} {FL : FcIntLaws F} {C : ChainConfig}.

Lemma adjust_balance_object_ok account delta d u d' :
  adjust_balance_object account delta d = Ok (u, d') -> amount delta <> 0 ->
  d' = d <| balances ::= <[(account, asset_id delta) :=
                           balance_of d account (asset_id delta) + amount delta]> |> /\
  (amount delta < 0 -> - amount delta <= balance_of d account (asset_id delta)).
Proof.
  unfold adjust_balance_object, balance_of. intros H Hne.
  destruct (balances d !! (account, asset_id delta)) as [b|]; cbn [default from_option].
  - apply bind_ok in H as (x & Hx & H). apply bind_ok in H as (b' & Hb & [= _ <-]).
    apply safe_add_ok in Hb as [-> _]. split; [done|]. intros Hlt.
    rewrite (proj2 (Z.ltb_lt _ _)) in Hx by done. apply bind_ok in Hx as (n & Hn & Hg).
    apply safe_neg_ok in Hn as [-> _]. apply guard_ok_inv, Z.leb_le in Hg. done.
  - apply bind_ok in H as (x & Hx & [= _ <-]). apply guard_ok_inv, Z.ltb_lt in Hx.
    rewrite Z.add_0_l. split; [done|]. lia.
Qed.

Lemma with_money_alter L acc m0 delta :
  l_money L !! acc = Some m0 ->
  <[acc := Money (m_core m0 + delta) (m_in_orders m0) (m_prepaid m0) (m_fees m0) (m_uncollected m0)]>
    (l_money L) =
  alter (fun m => Money (m_core m + delta) (m_in_orders m) (m_prepaid m) (m_fees m)
                        (m_uncollected m)) acc (l_money L).
Proof.
  intros E. apply map_eq. intros i. destruct (decide (acc = i)) as [<-|Hne].
  - by rewrite lookup_alter_eq, lookup_insert_eq, E.
  - by rewrite lookup_alter_ne, lookup_insert_ne.
Qed.

Lemma adjust_core_effect account delta d u d' :
  adjust_core account delta d = Ok (u, d') ->
  statics d' = statics d /\
  exists m0, l_money (ledger_of d) !! account = Some m0 /\
    ledger_of d' = with_money account
      (Money (m_core m0 + delta) (m_in_orders m0) (m_prepaid m0) (m_fees m0) (m_uncollected m0))
      (ledger_of d).
Proof.
  unfold adjust_core. intros H. apply mbind_ok in H as (u1 & d1 & H1 & H).
  assert (keeps ledger_of (when (delta <? 0) (check_core_debit account delta))) as K1
    by auto with keeps typeclass_instances.
  assert (keeps statics (when (delta <? 0) (check_core_debit account delta))) as K2
    by auto with keeps typeclass_instances.
  pose proof (K1 _ _ _ H1) as L1. pose proof (K2 _ _ _ H1) as S1.
  apply mbind_ok in H as (dd & d2 & Hg & H). apply get_ok in Hg. injection Hg as -> ->.
  apply mbind_ok in H as (u2 & d3 & H2 & H).
  apply modify_stats_ok in H2 as (s & s' & Hs & Hf & ->).
  pose proof (keeps_refresh_votes ledger_of account _ _ _ H) as L2.
  pose proof (keeps_refresh_votes statics account _ _ _ H) as S2.
  rewrite L2, S2, ledger_stats, L1, <- S1. split; [done|].
  exists (money_of s). rewrite <- L1. split; [by apply money_lookup|].
  apply bind_ok in Hf as (s1 & Hs1 & Hf). apply bind_ok in Hf as (b & Hb & [= <-]).
  apply safe_add_ok in Hb as [-> _].
  assert (money_of s1 = money_of s) as Hm.
  { destruct (hardfork d1 <? HEAD_FORK_05); [by eapply update_coin_seconds_money|by injection Hs1 as ->]. }
  rewrite <- Hm. done.
Qed.

(** A successful [adjust_balance] is a credit (or debit) of the account. *)
Lemma adjust_balance_effect account delta d u d' :
  adjust_balance account delta d = Ok (u, d') ->
  statics d' = statics d /\
  (amount delta = 0 /\ ledger_of d' = ledger_of d \/
   amount delta <> 0 /\
   ledger_of d' = credit account (asset_id delta) (amount delta) (ledger_of d) /\
   (amount delta < 0 -> - amount delta <= balance_of d account (asset_id delta))).
Proof.
  unfold adjust_balance. intros H. destruct (Z.eqb_spec (amount delta) 0) as [H0|Hne].
  { injection H as _ <-. auto. }
  apply mbind_ok in H as (u1 & d1 & H1 & H).
  apply adjust_balance_object_ok in H1 as [-> Hlt]; [|done].
  unfold when in H. unfold credit. destruct (asset_id delta =? CORE_ASSET_AID) eqn:Ec.
  - apply adjust_core_effect in H as [HS (m0 & Hm0 & HL)]. split; [done|]. right.
    split; [done|]. split; [|done]. rewrite HL. unfold with_money.
    change (l_money (ledger_of (d <| balances ::= _ |>))) with (l_money (ledger_of d)) in *.
    by rewrite (with_money_alter _ _ _ _ Hm0).
  - injection H as _ <-. auto.
Qed.

Lemma adjust_balance_supply account delta d u d' aid :
  adjust_balance account delta d = Ok (u, d') ->
  supply aid (ledger_of d') = supply aid (ledger_of d)
                              + (if asset_id delta =? aid then amount delta else 0).
Proof.
  intros H. apply adjust_balance_effect in H as [_ [[-> ->]|(_ & -> & _)]].
  - destruct (_ =? _); lia.
  - apply supply_credit.
Qed.
Lemma adjust_balance_inv account delta d u d' :
  adjust_balance account delta d = Ok (u, d') -> ledger_inv (ledger_of d) -> ledger_inv (ledger_of d').
Proof.
  intros H Hi. apply adjust_balance_effect in H as [_ [[_ ->]|(Hne & -> & Hlt)]]; [done|].
  apply ledger_inv_credit; [|done]. cbn. fold (balance_of d account (asset_id delta)).
  destruct (Z.ltb_spec (amount delta) 0); [specialize (Hlt ltac:(lia)); lia|].
  assert (0 <= balance_of d account (asset_id delta)); [|lia]. unfold balance_of.
  destruct (balances d !! (account, asset_id delta)) eqn:E; cbn; [|lia]. by apply (proj2 Hi _ _ E).
Qed.
Lemma adjust_balance_statics account delta d u d' :
  adjust_balance account delta d = Ok (u, d') -> statics d' = statics d.
Proof. intros H. by apply adjust_balance_effect in H as [? _]. Qed.
Lemma adjust_balance_orders account delta d u d' :
  adjust_balance account delta d = Ok (u, d') -> limit_orders d' = limit_orders d.
Proof.
  intros H. apply adjust_balance_effect in H as [_ [[_ HL]|(_ & HL & _)]];
    by apply (f_equal l_orders) in HL.
Qed.
Lemma adjust_balance_balances account delta d u d' :
  adjust_balance account delta d = Ok (u, d') ->
  balance_of d' account (asset_id delta) = balance_of d account (asset_id delta) + amount delta /\
  forall k, k <> (account, asset_id delta) -> balances d' !! k = balances d !! k.
Proof.
  intros H. apply adjust_balance_effect in H as [_ [[-> HL]|(_ & HL & _)]];
    apply (f_equal l_balances) in HL; cbn in HL; unfold balance_of; rewrite HL.
  - by rewrite Z.add_0_r.
  - rewrite lookup_insert_eq. split; [done|]. intros k Hk. by rewrite lookup_insert_ne.
Qed.
End adjust.

(** [adjust_balance] is exact.  When it succeeds, the account's balance of
    that asset changes by the delta and no other balance changes; the supply of
    that asset changes by the delta and of no other asset; the core balance in
    the statistics stays in step; no balance becomes negative; and a debit
    beyond the balance never succeeds. *)
Theorem adjust_balance_exact {F : FcInt} {FL : FcIntLaws F} {C : ChainConfig}
    (account : Z) (delta : asset) (d d' : database) (u : unit) :
  adjust_balance account delta d = Ok (u, d') -> ledger_inv (ledger_of d) ->
  ledger_inv (ledger_of d') /\
  balance_of d' account (asset_id delta) = balance_of d account (asset_id delta) + amount delta /\
  (forall k, k <> (account, asset_id delta) -> balances d' !! k = balances d !! k) /\
  (forall aid, supply aid (ledger_of d') = supply aid (ledger_of d)
                                          + (if asset_id delta =? aid then amount delta else 0)) /\
  0 <= balance_of d account (asset_id delta) + amount delta.
Proof.
  intros H Hi. pose proof (adjust_balance_inv _ _ _ _ _ H Hi) as Hi'.
  pose proof (fun aid => adjust_balance_supply _ _ _ _ _ aid H) as Hs.
  destruct (adjust_balance_balances _ _ _ _ _ H) as [Hb Ho].
  split_and!; try done. rewrite <- Hb. unfold balance_of.
  destruct (balances d' !! (account, asset_id delta)) eqn:E; cbn; [|lia]. by apply (proj2 Hi' _ _ E).
Qed.

(** Two accounts, 10 and 20, and the assets 0 and 5. *)
Definition bank_stats (core : Z) : account_statistics :=
  new_account_statistics <| prepaid := 50 |> <| core_balance := core |>.
Definition bank_account : account_object :=
  new_account <| registrar := 20 |> <| referrer := 20 |> <| registrar_percent := 4000 |>
    <| referrer_percent := 6000 |>.
Definition bank_asset (flags fee : Z) : asset_object :=
  new_asset <| issuer := 20 |> <| chain.flags := flags |> <| market_fee_percent := fee |>
    <| max_market_fee := 100 |> <| reward_percent := Some 5000 |> <| max_supply := 1000000 |>.
Definition bank : database :=
  sample_db
    <| accounts := {[ 10 := bank_account; 20 := bank_account ]} |>
    <| stats := {[ 10 := bank_stats 1000; 20 := bank_stats 300 ]} |>
    <| balances := {[ (10, 0) := 1000; (20, 0) := 300; (20, 5) := 700 ]} |>
    <| assets := {[ 0 := bank_asset 0 0; 5 := bank_asset 513 200 ]} |>
    <| asset_dynamic_data := {[ 0 := {| current_supply := 1400; accumulated_fees := 0 |};
                                5 := {| current_supply := 700; accumulated_fees := 0 |} ]} |>.

Lemma bank_inv : ledger_inv (ledger_of bank).
Proof.
  split.
  - intros acc m Hm. cbn in Hm. apply lookup_fmap_Some in Hm as (s & <- & Hs).
    apply lookup_insert_Some in Hs as [[<- <-]|[_ Hs]]; [reflexivity|].
    by apply lookup_singleton_Some in Hs as [<- <-].
  - intros k b Hb. cbn in Hb. apply lookup_insert_Some in Hb as [[_ <-]|[_ Hb]]; [lia|].
    apply lookup_insert_Some in Hb as [[_ <-]|[_ Hb]]; [lia|].
    apply lookup_singleton_Some in Hb as [_ <-]. lia.
Qed.

Definition no_proxy : ChainConfig := {| PROXY_TO_SELF_ACCOUNT_UID := 0; NULL_ACCOUNT_UID := 4 |}.

Lemma adjust_balance_exact_witness :
  exists d', @adjust_balance fc_checked no_proxy 10 (Asset (-250) 0) bank = Ok (tt, d') /\
    balance_of d' 10 0 = 750.
Proof.
  destruct (@adjust_balance fc_checked no_proxy 10 (Asset (-250) 0) bank) as [[[] d']|e] eqn:E;
    [|exfalso; vm_compute in E; discriminate E].
  exists d'. split; [reflexivity|].
  pose proof (@adjust_balance_exact fc_checked fc_checked_laws no_proxy 10 (Asset (-250) 0) bank d' tt
    E bank_inv) as (_ & H & _).
  exact H.
Defined.

(** * Flows of money

    [flow d d' f g] accounts for a step from [d] to [d']: the supply of asset
    [a] changes by [f a], the gap between what account [x] is recorded to have
    in core orders and what it has in them changes by [g x], the configuration
    is unchanged, no order appears, and the ledger invariant is kept.  Flows
    compose by addition. *)
(** Parts of the database that neither voting nor paying touches. *)
Class MoneyFrame {X} (p : database -> X) : Prop := {
  mf_voting :: VotingFrame p;
  mf_stats d f : p (d <| stats ::= f |>) = p d;
  mf_balances d f : p (d <| balances ::= f |>) = p d;
}.
#[export] Instance statics_money : MoneyFrame statics.
Proof. split; [apply _|done..]. Qed.
#[export] Instance orders_money : MoneyFrame limit_orders.
Proof. split; [by split|done..]. Qed.
#[export] Instance next_order_money : MoneyFrame next_order_id.
Proof. split; [by split|done..]. Qed.

Section money_frame.
Context {F : FcInt} {C : ChainConfig} {X : Type} (p : database -> X) {MF : MoneyFrame p}.

Lemma keeps_modify_stats uid f : keeps p (modify_stats uid f).
Proof. intros d u d' H. apply modify_stats_ok in H as (s & s' & _ & _ & ->). apply mf_stats. Qed.
#[local] Hint Resolve keeps_modify_stats : keeps.
Lemma keeps_adjust_balance_object account delta : keeps p (adjust_balance_object account delta).
Proof.
  intros d u d' H. unfold adjust_balance_object in H.
  destruct (balances d !! _); inv_ok; apply mf_balances.
Qed.
#[local] Hint Resolve keeps_adjust_balance_object : keeps.
Lemma keeps_adjust_balance account delta : keeps p (adjust_balance account delta).
Proof. unfold adjust_balance, adjust_core. keep; auto with keeps typeclass_instances.
Qed.
End money_frame.
#[export] Hint Resolve keeps_modify_stats keeps_adjust_balance : keeps.

(** ** Core in orders *)
Definition in_orders_of (acc : Z) (_ : Z) (o : limit_order_object) : Z :=
  if (seller o =? acc) && (asset_id (base (sell_price o)) =? CORE_ASSET_AID) then for_sale o else 0.
Definition gap (acc : Z) (L : ledger) : Z :=
  default 0 (m_in_orders <$> l_money L !! acc) - msum (in_orders_of acc) (l_orders L).

Definition only (k x a : Z) : Z := if k =? a then x else 0.
Lemma only_zero k a : only k 0 a = 0.
Proof. unfold only. by destruct (k =? a). Qed.
Lemma only_add k x y a : only k (x + y) a = only k x a + only k y a.
Proof. unfold only. by destruct (k =? a). Qed.
Lemma only_opp k x a : only k (- x) a = - only k x a.
Proof. unfold only. by destruct (k =? a). Qed.

Record flow (d d' : database) (f g : Z -> Z) : Prop := {
  flow_statics : statics d' = statics d;
  flow_next : next_order_id d' = next_order_id d;
  flow_no_new id : limit_orders d !! id = None -> limit_orders d' !! id = None;
  flow_supply a : supply a (ledger_of d') = supply a (ledger_of d) + f a;
  flow_gap x : gap x (ledger_of d') = gap x (ledger_of d) + g x;
  flow_inv : ledger_inv (ledger_of d) -> ledger_inv (ledger_of d');
}.

Lemma flow_trans d1 d2 d3 f1 f2 g1 g2 :
  flow d1 d2 f1 g1 -> flow d2 d3 f2 g2 -> flow d1 d3 (fun a => f1 a + f2 a) (fun x => g1 x + g2 x).
Proof.
  intros [A1 A2 A3 A4 A5 A6] [B1 B2 B3 B4 B5 B6]. split; [congruence..|auto| | |auto].
  - intros a. rewrite B4, A4. lia.
  - intros a. rewrite B5, A5. lia.
Qed.
Lemma flow_ext d d' f f' g g' :
  (forall a, f a = f' a) -> (forall x, g x = g' x) -> flow d d' f g -> flow d d' f' g'.
Proof. intros Hf Hg [A1 A2 A3 A4 A5 A6]. split; try done; intros; [rewrite A4, Hf|rewrite A5, Hg]; done. Qed.
Lemma flow_refl d : flow d d (fun _ => 0) (fun _ => 0).
Proof. split; try done; intros; lia. Qed.
(** A step that changes no coin. *)
Lemma flow_same d d' :
  statics d' = statics d -> next_order_id d' = next_order_id d -> ledger_of d' = ledger_of d ->
  flow d d' (fun _ => 0) (fun _ => 0).
Proof.
  intros Hs Hn HL. split; rewrite ?HL; try done; [|intros; lia..].
  intros id. apply (f_equal l_orders) in HL. cbn in HL. by rewrite HL.
Qed.

Section steps.
Context {F : FcInt} {FL : FcIntLaws F} {C : ChainConfig}.

Lemma gap_credit x acc aid delta L : gap x (credit acc aid delta L) = gap x L.
Proof.
  unfold gap, credit. cbn. f_equal. destruct (aid =? CORE_ASSET_AID); [|done].
  destruct (decide (acc = x)) as [<-|Hne]; [|by rewrite lookup_alter_ne].
  rewrite lookup_alter_eq. by destruct (l_money L !! acc).
Qed.

Lemma flow_adjust acc a d u d' :
  adjust_balance acc a d = Ok (u, d') -> flow d d' (only (asset_id a) (amount a)) (fun _ => 0).
Proof.
  intros H. split.
  - by eapply adjust_balance_statics.
  - by eapply keeps_adjust_balance; [apply _|].
  - intros id. by rewrite (keeps_adjust_balance limit_orders _ _ _ _ _ H).
  - intros; by eapply adjust_balance_supply.
  - intros x. apply adjust_balance_effect in H as [_ [[_ ->]|(_ & -> & _)]]; [lia|].
    rewrite gap_credit. lia.
  - by eapply adjust_balance_inv.
Qed.

(** A change of one account's statistics that leaves its core balance. *)
Lemma flow_stats acc fn d u d' f x :
  modify_stats acc fn d = Ok (u, d') ->
  (forall s s', stats d !! acc = Some s -> fn s = Ok s' ->
     m_core (money_of s') = m_core (money_of s) /\
     m_in_orders (money_of s') = m_in_orders (money_of s) + x /\
     forall a, in_money a acc (money_of s') = in_money a acc (money_of s) + f a) ->
  flow d d' f (only acc x).
Proof.
  intros H Hf. pose proof (keeps_modify_stats statics _ _ _ _ _ H) as Hst.
  pose proof (keeps_modify_stats next_order_id _ _ _ _ _ H) as Hnx.
  pose proof (keeps_modify_stats limit_orders _ _ _ _ _ H) as Hor.
  apply modify_stats_ok in H as (s & s' & Hs & Hfs & ->).
  destruct (Hf s s' Hs Hfs) as (Hc & Ho & Hm). pose proof (money_lookup _ _ _ Hs) as Hl.
  split; [done|done|by rewrite Hor|..]; rewrite ledger_stats.
  - intros a. rewrite (supply_with_money _ _ _ _ _ Hl), Hm. lia.
  - intros y. unfold gap, with_money, only. cbn [l_money l_orders].
    destruct (Z.eqb_spec acc y) as [E|Hne].
    + rewrite <- E, lookup_insert_eq, Hl. cbn in *. lia.
    + rewrite lookup_insert_ne by done. lia.
  - by eapply ledger_inv_with_money.
Qed.

(** Replacing or removing an order. *)
Lemma flow_set_order id o o' d :
  limit_orders d !! id = Some o ->
  flow d (d <| limit_orders ::= <[id := o']> |>)
    (fun a => in_order a id o' - in_order a id o)
    (fun x => in_orders_of x id o - in_orders_of x id o').
Proof.
  intros Ho. split; try done.
  - intros i Hi. cbn. rewrite lookup_insert_ne; [done|congruence].
  - intros a. unfold supply. cbn. rewrite (msum_update _ _ _ o) by done. lia.
  - intros x. unfold gap. cbn. rewrite (msum_update _ _ _ o) by done. lia.
Qed.
Lemma flow_delete_order id o d :
  limit_orders d !! id = Some o ->
  flow d (d <| limit_orders ::= delete id |>)
    (fun a => - in_order a id o) (fun x => in_orders_of x id o).
Proof.
  intros Ho. split; try done.
  - intros i Hi. cbn. by apply lookup_delete_None; right.
  - intros a. unfold supply. cbn. rewrite (msum_delete _ _ id o Ho). lia.
  - intros x. unfold gap. cbn. rewrite (msum_delete _ _ id o Ho). lia.
Qed.
End steps.

(** Close the equations between changes that [flow_ext] leaves. *)
Ltac flow_lia := intros; cbv beta; unfold only in *; repeat case_match; lia.
