(* ===== verification/TransferProof.v ===== *)
(** * Transfers conserve every asset *)
From S2P Require Import Prelude FlatMap FcInt Asset Pledge ChainState.
From S2P Require Import AccountStats Voter Balance Transfer MapSum Frame Ledger.
Local Open Scope Z_scope.
Import asset pledge chain acc voter balance transfer.

Section plan.
Context {F : FcInt} {FL : FcIntLaws F}.

(** One side of a transfer, from or to: the balance part and the prepaid part
    add up to the amount, and prepaid is core. *)
Definition balanced (whole bal pre : asset) : Prop :=
  asset_id bal = asset_id whole /\ 0 <= amount bal /\ 0 <= amount pre /\
  amount bal + amount pre = amount whole /\ (0 < amount pre -> asset_id whole = CORE_ASSET_AID).

Lemma validate_part_ok p aid a :
  validate_part p aid = Ok a ->
  asset_id a = aid /\
  (p = Some a /\ 0 < amount a \/ p = None /\ a = Asset 0 aid).
Proof.
  unfold validate_part, validate_positive, validate_asset_id. destruct p as [x|].
  - intros H. inv_ok. bool_to_prop. auto.
  - intros [= <-]. auto.
Qed.
Lemma validate_core_part_ok p whole a :
  validate_core_part p whole = Ok a ->
  asset_id a = asset_id whole /\
  (p = Some a /\ 0 < amount a /\ asset_id whole = CORE_ASSET_AID \/ p = None /\ a = Asset 0 (asset_id whole)).
Proof.
  unfold validate_core_part, validate_positive, validate_asset_id. destruct p as [x|].
  - intros H. inv_ok. bool_to_prop. split; [congruence|]. auto.
  - intros [= <-]. auto.
Qed.

Lemma add_eqb_ok x y whole :
  (s ← add x y; guard_ok (eqb whole s) assert_exception) = Ok tt ->
  amount x + amount y = amount whole.
Proof.
  unfold add. intros (s & H & Hg)%bind_ok. apply guard_ok_inv in Hg. unfold eqb in Hg.
  apply andb_true_iff in Hg as [_ Hg%Z.eqb_eq]. apply bind_ok in H as (u & _ & H).
  apply bind_ok in H as (z & Hz & [= <-]). apply safe_add_ok in Hz as [-> _]. cbn in Hg. lia.
Qed.

Lemma side_balanced e p whole b pr :
  0 < amount whole ->
  validate_part e (asset_id whole) = Ok b -> validate_core_part p whole = Ok pr ->
  (if (0 <? amount b) || (0 <? amount pr)
   then s ← add b pr; guard_ok (eqb whole s) assert_exception else Ok tt) = Ok tt ->
  balanced whole (balance_part e (positive_part p) whole) (positive_part p).
Proof.
  intros Hw (Hb & He)%validate_part_ok (Hp & Hpr)%validate_core_part_ok Hsum.
  assert (0 < amount b \/ 0 < amount pr -> amount b + amount pr = amount whole) as Hs.
  { intros Hpos. rewrite (proj2 (orb_true_iff _ _)) in Hsum by (rewrite !Z.ltb_lt; done).
    by apply add_eqb_ok. }
  clear Hsum. unfold balanced, positive_part, balance_part.
  destruct He as [[-> Hb0]|[-> ->]], Hpr as [(-> & Hp0 & Hc)|[-> ->]]; cbn [amount asset_id] in *;
    repeat rewrite (proj2 (Z.ltb_lt 0 (amount pr))) by lia;
    cbn [amount asset_id Z.ltb Z.compare]; split_and!; (congruence || lia).
Qed.

Lemma plan_balanced valid_uid sign op d plan :
  validate valid_uid op = Ok tt -> transfer_do_evaluate sign op d = Ok plan ->
  balanced (t_amount op) (p_from_balance plan) (p_from_prepaid plan) /\
  balanced (t_amount op) (p_to_balance plan) (p_to_prepaid plan).
Proof.
  unfold validate, transfer_do_evaluate. intros Hv He.
  apply bind_ok in Hv as (u1 & _ & Hv). apply bind_ok in Hv as (u2 & _ & Hv).
  apply bind_ok in Hv as (u3 & Hpos & Hv). apply guard_ok_inv, Z.ltb_lt in Hpos.
  do 8 (apply bind_ok in He as (? & _ & He)). apply bind_ok in He as (pl & Hpl & He).
  apply bind_ok in He as (u4 & _ & [= <-]).
  destruct (extensions op) as [ev|].
  - apply bind_ok in Hv as (fb & H1 & Hv). apply bind_ok in Hv as (fp & H2 & Hv).
    apply bind_ok in Hv as (tb & H3 & Hv). apply bind_ok in Hv as (tp & H4 & Hv).
    apply bind_ok in Hv as ([] & H5 & Hv). apply bind_ok in Hv as ([] & H6 & _).
    apply bind_ok in Hpl as (u5 & _ & Hpl). apply bind_ok in Hpl as (u6 & _ & [= <-]). cbn.
    split; [by eapply side_balanced|by eapply side_balanced].
  - injection Hpl as <-. cbn. unfold balanced. cbn. split_and!; lia || done.
Qed.

(** Without a word on where the coins come from, they come from the balance. *)
Lemma plan_without_from sign op ev d plan :
  extensions op = Some ev -> from_balance ev = None -> from_prepaid ev = None ->
  transfer_do_evaluate sign op d = Ok plan ->
  p_from_balance plan = t_amount op /\ p_from_prepaid plan = Asset 0 CORE_ASSET_AID.
Proof.
  unfold transfer_do_evaluate. intros -> Hfb Hfp He.
  do 8 (apply bind_ok in He as (? & _ & He)). apply bind_ok in He as (pl & Hpl & He).
  apply bind_ok in He as (u4 & _ & [= <-]).
  apply bind_ok in Hpl as (u5 & _ & Hpl). apply bind_ok in Hpl as (u6 & _ & [= <-]).
  cbn. by rewrite Hfb, Hfp.
Qed.
End plan.

Section apply.
Context {F : FcInt} {FL : FcIntLaws F} {C : ChainConfig}.

(** Payments to (or from, when negative) accounts, and what an account gets of
    them. *)
Definition total (l : list (Z * Z)) : Z := zsum l.*2.
Definition got (y : Z) (l : list (Z * Z)) : Z := zsum ((fun e => only e.1 e.2 y) <$> l).
Definition prepaid_of (d : database) (y : Z) : Z := default 0 (prepaid <$> stats d !! y).

(** A step that makes the payments [bs] to balances of asset [aid] and the
    payments [ps] to prepaid. *)
Record moves (d d' : database) (aid : Z) (bs ps : list (Z * Z)) : Prop := {
  mv_flow : flow d d' (only aid (total bs + total ps)) (fun _ => 0);
  mv_balance y a : balance_of d' y a = balance_of d y a + only aid (got y bs) a;
  mv_prepaid y : prepaid_of d' y = prepaid_of d y + got y ps }.

Lemma moves_trans d1 d2 d3 aid bs ps bs' ps' :
  moves d1 d2 aid bs ps -> moves d2 d3 aid bs' ps' -> moves d1 d3 aid (bs ++ bs') (ps ++ ps').
Proof.
  intros [F1 B1 P1] [F2 B2 P2]. split; unfold total, got in *.
  - eapply flow_ext, flow_trans; [| |exact F1|exact F2]; [|done].
    intros a. cbv beta. rewrite <- only_add, !fmap_app, !zsum_app. f_equal. lia.
  - intros y a. rewrite B2, B1, fmap_app, zsum_app, only_add. lia.
  - intros y. rewrite P2, P1, fmap_app, zsum_app. lia.
Qed.

Lemma moves_none d aid : moves d d aid [] [].
Proof.
  split; [|intros y a; cbn; rewrite only_zero; lia|intros y; cbn; lia].
  eapply flow_ext, flow_refl; [|done]. intros a. symmetry. apply only_zero.
Qed.

Lemma moves_adjust acc a d u d' :
  adjust_balance acc a d = Ok (u, d') -> moves d d' (asset_id a) [(acc, amount a)] [].
Proof.
  intros H. split.
  - apply flow_adjust in H. unfold total. cbn. by rewrite !Z.add_0_r.
  - intros y b. unfold got, balance_of. cbn. rewrite Z.add_0_r.
    apply adjust_balance_effect in H as [_ [[-> HL]|(_ & HL & _)]];
      apply (f_equal l_balances) in HL; cbn in HL; rewrite HL.
    + rewrite !only_zero. lia.
    + unfold only. destruct (Z.eqb_spec (asset_id a) b) as [<-|Hb], (Z.eqb_spec acc y) as [<-|Hy];
        [rewrite lookup_insert_eq; cbn; lia|rewrite lookup_insert_ne by congruence; lia..].
  - intros y. unfold got, prepaid_of. cbn. rewrite Z.add_0_r.
    assert (m_prepaid <$> (money_of <$> stats d') !! y = m_prepaid <$> (money_of <$> stats d) !! y) as Hp.
    { apply adjust_balance_effect in H as [_ [[_ HL]|(_ & HL & _)]];
        apply (f_equal l_money) in HL; cbn in HL; rewrite HL; [done|].
      destruct (asset_id a =? CORE_ASSET_AID); [|done].
      destruct (decide (acc = y)) as [<-|Hy]; [rewrite lookup_alter_eq|by rewrite lookup_alter_ne].
      by destruct ((money_of <$> stats d) !! acc). }
    rewrite !lookup_fmap in Hp. by destruct (stats d' !! y), (stats d !! y); simplify_eq/=.
Qed.

Lemma moves_stats_prepaid acc x d u d' f :
  (forall s s', f s = Ok s' -> s' = s <| prepaid := prepaid s + x |>) ->
  modify_stats acc f d = Ok (u, d') -> moves d d' CORE_ASSET_AID [] [(acc, x)].
Proof.
  intros Hf H. split.
  - eapply flow_ext; [| |eapply (flow_stats _ _ _ _ _ (only CORE_ASSET_AID x) 0 H)].
    + intros a. unfold total. cbn. by rewrite Z.add_0_r.
    + intros y. apply only_zero.
    + intros s s' _ ->%Hf. split_and!; [done|cbn; lia|]. intros a. unfold in_money, only.
      rewrite (Z.eqb_sym CORE_ASSET_AID a). destruct (a =? CORE_ASSET_AID); cbn; lia.
  - apply modify_stats_ok in H as (s & s' & _ & _ & ->). intros y a. unfold got. cbn [fmap list_fmap zsum].
    rewrite only_zero, Z.add_0_r. done.
  - apply modify_stats_ok in H as (s & s' & Hs & ->%Hf & ->). intros y. unfold prepaid_of, got, only.
    cbn. rewrite Z.add_0_r. destruct (Z.eqb_spec acc y) as [<-|Hy].
    + by rewrite lookup_insert_eq, Hs.
    + rewrite lookup_insert_ne by done. lia.
Qed.

(** A payment the code makes only if it is positive. *)
Lemma moves_when x m d u d' aid bs ps :
  when (0 <? x) m d = Ok (u, d') -> 0 <= x ->
  (0 < x -> m d = Ok (u, d') -> moves d d' aid bs ps) ->
  (x = 0 -> moves d d aid bs ps) -> moves d d' aid bs ps.
Proof.
  intros H Hx Hm Hz. destruct (Z.ltb_spec 0 x); [by apply Hm|]. injection H as _ <-. apply Hz. lia.
Qed.

Lemma moves_zero d aid acc : moves d d aid [(acc, 0)] [] /\ moves d d aid [] [(acc, 0)].
Proof.
  destruct (moves_none d aid) as [Hf Hb Hp].
  split; split; unfold total, got in *; cbn in *; try exact Hf; intros;
    rewrite ?only_zero; cbn; rewrite ?only_zero; lia.
Qed.

Lemma moves_use_auth k x d u d' aid : use_auth k x d = Ok (u, d') -> moves d d' aid [] [].
Proof.
  intros H. unfold use_auth in H. inv_ok. destruct (moves_none d aid) as [_ Hb Hp].
  split; [|exact Hb|exact Hp]. eapply flow_ext, flow_same; [| |done..]; [|done].
  intros a. symmetry. apply only_zero.
Qed.

Lemma transfer_apply_moves op plan d u d' :
  balanced (t_amount op) (p_from_balance plan) (p_from_prepaid plan) ->
  balanced (t_amount op) (p_to_balance plan) (p_to_prepaid plan) ->
  transfer_do_apply op plan d = Ok (u, d') ->
  moves d d' (asset_id (t_amount op))
    [(from op, - amount (p_from_balance plan)); (to op, amount (p_to_balance plan))]
    [(from op, - amount (p_from_prepaid plan)); (to op, amount (p_to_prepaid plan))].
Proof.
  intros (F1 & F2 & F3 & F4 & F5) (T1 & T2 & T3 & T4 & T5) H. unfold transfer_do_apply in H.
  apply mbind_ok in H as (u1 & d1 & H1 & H). apply mbind_ok in H as (u2 & d2 & H2 & H).
  apply mbind_ok in H as (u3 & d3 & H3 & H4). set (A := asset_id (t_amount op)) in *.
  assert (moves d d1 A [(from op, - amount (p_from_balance plan))] []) as M1.
  { eapply moves_when; [exact H1|done| |intros ->; apply moves_zero]. intros _ Hm.
    apply mbind_ok in Hm as (n & dn & Hn & Hm). apply lift_ok in Hn as (a & Ha & [= -> ->]).
    apply bind_ok in Ha as (x & Hx & [= <-]). apply safe_neg_ok in Hx as [-> _].
    apply moves_adjust in Hm. cbn in Hm. by rewrite F1 in Hm. }
  assert (moves d1 d2 A [] [(from op, - amount (p_from_prepaid plan))]) as M2.
  { eapply moves_when; [exact H2|done| |intros ->; apply moves_zero]. intros E Hm.
    rewrite (F5 E). apply mbind_ok in Hm as (n & dn & Hn & Hm).
    eapply (moves_trans _ dn _ _ [] [_] [] []).
    - eapply moves_stats_prepaid; [|exact Hn]. intros s s' Hs.
      apply bind_ok in Hs as (x & Hx & [= <-]). by apply safe_sub_ok in Hx as [-> _].
    - destruct (p_auth plan); [by eapply moves_use_auth|injection Hm as _ <-; apply moves_none]. }
  assert (moves d2 d3 A [(to op, amount (p_to_balance plan))] []) as M3.
  { eapply moves_when; [exact H3|done| |intros ->; apply moves_zero]. intros _ Hm.
    apply moves_adjust in Hm. by rewrite T1 in Hm. }
  assert (moves d3 d' A [] [(to op, amount (p_to_prepaid plan))]) as M4.
  { eapply moves_when; [exact H4|done| |intros ->; apply moves_zero]. intros E Hm.
    rewrite (T5 E). eapply moves_stats_prepaid; [|exact Hm].
    intros s s' Hs. apply bind_ok in Hs as (x & Hx & [= <-]). by apply safe_add_ok in Hx as [-> _]. }
  exact (moves_trans _ _ _ _ _ _ _ _ (moves_trans _ _ _ _ _ _ _ _ (moves_trans _ _ _ _ _ _ _ _ M1 M2) M3) M4).
Qed.

(** A validated transfer that succeeds makes the payments of its plan. *)
Lemma transfer_moves valid_uid sign op d u d' :
  validate valid_uid op = Ok tt -> transfer sign op d = Ok (u, d') ->
  exists plan, transfer_do_evaluate sign op d = Ok plan /\
    balanced (t_amount op) (p_from_balance plan) (p_from_prepaid plan) /\
    balanced (t_amount op) (p_to_balance plan) (p_to_prepaid plan) /\
    moves d d' (asset_id (t_amount op))
      [(from op, - amount (p_from_balance plan)); (to op, amount (p_to_balance plan))]
      [(from op, - amount (p_from_prepaid plan)); (to op, amount (p_to_prepaid plan))].
Proof.
  intros Hv H. unfold transfer in H. apply mbind_ok in H as (d0 & d1 & Hg & H).
  apply get_ok in Hg. injection Hg as -> ->. apply mbind_ok in H as (pl & d2 & Hp & H).
  apply lift_ok in Hp as (plan & He & [= -> ->]). exists plan.
  destruct (plan_balanced _ _ _ _ _ Hv He) as [Hf Ht]. split_and!; try done.
  by eapply transfer_apply_moves.
Qed.
End apply.

(** C23. A transfer moves exactly its amount.  When a transfer that passed
    [validate] is applied, the amount splits into a part [fb] taken from the
    sender's balance and a part [fp] from its prepaid, and into a part [tb]
    added to the receiver's balance and a part [tp] to its prepaid; no other
    balance or prepaid changes, also when sender and receiver are one account.
    So the supply of every asset is unchanged; and no balance becomes negative
    and the core balances in the statistics stay in step. *)
Theorem transfer_conserves {F : FcInt} {FL : FcIntLaws F} {C : ChainConfig}
    (valid_uid : Z -> bool) (sign : Z) (op : transfer_operation) (d d' : database) (u : unit) :
  validate valid_uid op = Ok tt -> transfer sign op d = Ok (u, d') ->
  (exists fb fp tb tp, 0 <= fb /\ 0 <= fp /\ 0 <= tb /\ 0 <= tp /\
     fb + fp = amount (t_amount op) /\ tb + tp = amount (t_amount op) /\
     (forall y a, balance_of d' y a = balance_of d y a +
        only (asset_id (t_amount op)) (only (to op) tb y - only (from op) fb y) a) /\
     (forall y, prepaid_of d' y = prepaid_of d y + only (to op) tp y - only (from op) fp y)) /\
  (forall aid, supply aid (ledger_of d') = supply aid (ledger_of d)) /\
  (ledger_inv (ledger_of d) -> ledger_inv (ledger_of d')).
Proof.
  intros Hv H. destruct (transfer_moves _ _ _ _ _ _ Hv H)
    as (plan & _ & (_ & F2 & F3 & F4 & _) & (_ & T2 & T3 & T4 & _) & [Hf Hb Hp]).
  split; [|split; [|apply Hf]].
  - eexists _, _, _, _. split_and!; [exact F2|exact F3|exact T2|exact T3|done|done|..].
    + intros y a. rewrite Hb. unfold got. cbn. rewrite only_opp. do 2 f_equal. lia.
    + intros y. rewrite Hp. unfold got. cbn. rewrite only_opp. lia.
  - intros aid. destruct Hf as [_ _ _ Hs _ _]. rewrite Hs. unfold total, only. cbn.
    destruct (_ =? aid); lia.
Qed.

(** A transfer of 100 core from account 10 to account 20, with an extension
    that names only where the coins go. *)
Definition ex_ext : transfer_ext :=
  {| from_balance := None; from_prepaid := None; to_balance := Some (Asset 100 0);
     to_prepaid := None; sign_platform := None |}.
Definition ex_transfer : transfer_operation :=
  {| from := 10; to := 20; t_amount := Asset 100 0; extensions := Some ex_ext |}.

Lemma transfer_conserves_witness :
  exists d', @transfer fc_checked no_proxy 10 ex_transfer bank = Ok (tt, d') /\
    supply 0 (ledger_of d') = supply 0 (ledger_of bank).
Proof.
  destruct (@transfer fc_checked no_proxy 10 ex_transfer bank) as [[[] d']|e] eqn:E;
    [|exfalso; vm_compute in E; discriminate E].
  exists d'. split; [reflexivity|].
  apply (@transfer_conserves fc_checked fc_checked_laws no_proxy (fun _ => true) 10 ex_transfer bank d' tt);
    [vm_compute; reflexivity|exact E].
Defined.

(** C24. Active authority is not always needed to spend a balance: a transfer
    between two accounts whose extension is present but names neither
    [from_balance] nor [from_prepaid] requires no active authority, only the
    secondary authority of the sender, and when it is applied takes its whole
    amount from the sender's balance and nothing from its prepaid. *)
Theorem transfer_from_balance_with_secondary_authority {F : FcInt} {FL : FcIntLaws F} {C : ChainConfig}
    (valid_uid : Z -> bool) (sign : Z) (op : transfer_operation) (ev : transfer_ext)
    (d d' : database) (u : unit) :
  extensions op = Some ev -> from_balance ev = None -> from_prepaid ev = None ->
  from op <> to op ->
  validate valid_uid op = Ok tt -> transfer sign op d = Ok (u, d') ->
  required_active op = [] /\ required_secondary op = [from op] /\
  balance_of d' (from op) (asset_id (t_amount op))
    = balance_of d (from op) (asset_id (t_amount op)) - amount (t_amount op) /\
  prepaid_of d' (from op) = prepaid_of d (from op).
Proof.
  intros He Hfb Hfp Hne Hv H. unfold required_active, required_secondary, some_from_balance.
  rewrite He, Hfb. split_and!; [done..| |];
    destruct (transfer_moves _ _ _ _ _ _ Hv H) as (plan & Hpl & _ & _ & [_ Hb Hp]);
    apply (plan_without_from _ _ _ _ _ He Hfb Hfp) in Hpl as [E1 E2].
  - rewrite Hb. unfold got, only. cbn. rewrite !Z.eqb_refl, E1.
    destruct (Z.eqb_spec (to op) (from op)); [congruence|]. lia.
  - rewrite Hp. unfold got, only. cbn. rewrite !Z.eqb_refl, E2. cbn [amount].
    destruct (Z.eqb_spec (to op) (from op)); [congruence|]. lia.
Qed.

Lemma transfer_from_balance_with_secondary_authority_witness :
  exists d', @transfer fc_checked no_proxy 10 ex_transfer bank = Ok (tt, d') /\
    required_active ex_transfer = [] /\
    balance_of bank 10 0 = 1000 /\ balance_of d' 10 0 = 900.
Proof.
  destruct (@transfer fc_checked no_proxy 10 ex_transfer bank) as [[[] d']|e] eqn:E;
    [|exfalso; vm_compute in E; discriminate E].
  exists d'. split; [reflexivity|].
  destruct (@transfer_from_balance_with_secondary_authority fc_checked fc_checked_laws no_proxy
    (fun _ => true) 10 ex_transfer ex_ext bank d' tt) as (H1 & _ & H2 & _);
    [reflexivity..|discriminate|vm_compute; reflexivity|exact E|].
  split; [exact H1|]. split; [reflexivity|]. exact H2.
Defined.
