(* ===== verification/CsafProof.v ===== *)
(** * Coin-seconds as fees: collecting and leasing

    What an account is recorded to have leased out and in is what its leases
    say; collecting turns earned coin-seconds into csaf at the chain's rate. *)
From S2P Require Import Prelude FlatMap FcInt Asset Pledge ChainState.
From S2P Require Import AccountStats Voter Balance Transfer MapSum Frame Ledger.
Local Open Scope Z_scope.
Import asset pledge chain acc voter balance transfer.

Section collect.
Context {F : FcInt} {FL : FcIntLaws F}.

Lemma coin_seconds_range window now d hf s e a :
  compute_coin_seconds_earned window now d hf s = Ok (e, a) ->
  is_uint 128 (coin_seconds_earned s) -> is_uint 128 e.
Proof.
  unfold compute_coin_seconds_earned. intros (eff & _ & H)%bind_ok Hs.
  apply bind_ok in H as (avg & _ & [= <- _]).
  assert (forall x y, is_uint 128 (u128_mul x y)) as Hm by (intros; rewrite u128_mul_law; by apply wrap_bound).
  assert (forall x y, is_uint 128 (u128_add x y)) as Ha by (intros; rewrite u128_add_law; by apply wrap_bound).
  destruct (_ <? _); [apply Hm|]. by destruct (_ <=? _).
Qed.
End collect.

(** Collecting csaf is exact.  It succeeds only if the earned coin-seconds
    of the paying account, at the operation's time, cover the amount at the
    chain's rate; exactly that many coin-seconds are taken from it, the
    receiving account's csaf grows by exactly the amount, and no other account
    changes. *)
Theorem csaf_collect_exact {F : FcInt} {FL : FcIntLaws F} (from to amt t : Z) (d d' : database) (u : unit) :
  csaf_collect from to amt t d = Ok (u, d') ->
  0 <= amt < 2 ^ 63 -> is_uint 64 (csaf_rate (params d)) ->
  (forall s, stats d !! from = Some s -> is_uint 128 (coin_seconds_earned s)) ->
  exists fs ts available avg fs' ts',
    stats d !! from = Some fs /\ stats d !! to = Some ts /\
    compute_coin_seconds_earned_fix (csaf_accumulate_window (params d)) t d (hardfork d) fs = Ok (available, avg) /\
    stats d' !! from = Some fs' /\ stats d' !! to = Some ts' /\
    coin_seconds_earned fs' = available - amt * csaf_rate (params d) /\
    0 <= coin_seconds_earned fs' /\ csaf ts' = csaf ts + amt /\ t <= head_block_time d /\
    (forall x, x <> from -> x <> to -> stats d' !! x = stats d !! x).
Proof.
  intros H Hamt Hrate Hrange. unfold csaf_collect in H. peel H as d0 Hg. peel H as fs Hfs. peel H as ts Hts.
  peel H as want Hwant. peel H as limit Hlimit. peel H as u1 E1. peel H as u2 E2. peel H as u3 E3.
  apply mbind_ok in H as ([available avg] & d1 & Hl & H). apply lift_ok in Hl as (x & Hc & E). injection E as <- ->.
  cbv zeta in H. peel H as u4 E4. step H as u5 d2 H1.
  unfold get_account_statistics_by_uid in Hfs, Hts. apply deref_ok in Hfs, Hts.
  assert (u128_mul (u128_of amt) (csaf_rate (params d)) = amt * csaf_rate (params d)) as Hmul.
  { unfold is_uint in Hrate. rewrite u128_of_small, u128_mul_small; nia. }
  rewrite Hmul in *. apply Z.leb_le in E2, E4.
  pose proof (coin_seconds_range _ _ _ _ _ _ _ Hc (Hrange _ Hfs)) as Hav.
  assert (0 <= amt * csaf_rate (params d)) by (unfold is_uint in Hrate; nia).
  rewrite u128_sub_small in H1 by (unfold is_uint in Hav; lia).
  apply modify_stats_ok in H1 as (s1 & s1' & Hs1 & [= <-] & ->).
  apply modify_stats_ok in H as (s2 & s2' & Hs2 & Hf2 & ->). cbn in Hs1, Hs2.
  rewrite Hfs in Hs1. injection Hs1 as <-.
  apply bind_ok in Hf2 as (y & Hy & [= <-]). apply safe_add_ok in Hy as [-> _].
  set (taken := set_coin_seconds_earned _ t fs) in *.
  assert (csaf taken = csaf fs /\ coin_seconds_earned taken = available - amt * csaf_rate (params d)) as [Ht1 Ht2].
  { unfold taken, set_coin_seconds_earned. by destruct (_ <? _). }
  exists fs, ts, available, avg. destruct (decide (to = from)) as [->|Hne].
  - rewrite lookup_insert_eq in Hs2. injection Hs2 as <-. rewrite Hfs in Hts. injection Hts as <-.
    eexists _, _. cbn. rewrite lookup_insert_eq. split_and!; try done; cbn; try lia; try congruence.
    intros z Hz _. by rewrite !lookup_insert_ne.
  - rewrite lookup_insert_ne in Hs2 by done. rewrite Hts in Hs2. injection Hs2 as <-.
    eexists _, _. cbn. rewrite lookup_insert_eq, lookup_insert_ne, lookup_insert_eq by done.
    split_and!; try done; cbn; try lia. intros z Hz1 Hz2. by rewrite !lookup_insert_ne.
Qed.

(** Account 10 with ten csaf worth of coin-seconds. *)
Definition ex_earner : account_statistics :=
  bank_stats 1000 <| average_coins := 500 |> <| average_coins_last_update := 1600000000 |>
                  <| coin_seconds_earned := 864000 |> <| coin_seconds_earned_last_update := 1600000000 |>.
Definition ex_earning : database := bank <| stats ::= <[10 := ex_earner]> |>.

Lemma csaf_collect_exact_witness :
  exists d' fs ts, @csaf_collect fc_checked 10 20 7 1599999900 ex_earning = Ok (tt, d') /\
    stats d' !! 10 = Some fs /\ coin_seconds_earned fs = 259200 /\
    stats d' !! 20 = Some ts /\ csaf ts = 7.
Proof.
  destruct (@csaf_collect fc_checked 10 20 7 1599999900 ex_earning) as [[[] d']|e] eqn:E;
    [|exfalso; vm_compute in E; discriminate E].
  destruct (@csaf_collect_exact fc_checked fc_checked_laws 10 20 7 1599999900 ex_earning d' tt E)
    as (fs & ts & av & avg & fs' & ts' & Hf & Ht & Hc & Hf' & Ht' & Hce & _ & Hcs & _).
  - lia.
  - split; vm_compute; (reflexivity || discriminate).
  - intros s Hs. vm_compute in Hs. injection Hs as <-. split; vm_compute; (reflexivity || discriminate).
  - exists d', fs', ts'. split; [reflexivity|]. split; [exact Hf'|]. split.
    + rewrite Hce. vm_compute in Hf. injection Hf as <-. vm_compute in Hc. injection Hc as <- _. reflexivity.
    + split; [exact Ht'|]. rewrite Hcs. vm_compute in Ht. injection Ht as <-. reflexivity.
Defined.

(** ** Leases *)
Definition leased_from (acc : Z) (k : Z * Z) (l : csaf_lease_object) : Z := if k.1 =? acc then l_amount l else 0.
Definition leased_to (acc : Z) (k : Z * Z) (l : csaf_lease_object) : Z := if k.2 =? acc then l_amount l else 0.
(** How far the recorded totals of an account are from its leases. *)
Definition out_gap (acc : Z) (d : database) : Z :=
  default 0 (core_leased_out <$> stats d !! acc) - msum (leased_from acc) (csaf_leases d).
Definition in_gap (acc : Z) (d : database) : Z :=
  default 0 (core_leased_in <$> stats d !! acc) - msum (leased_to acc) (csaf_leases d).

Section lease.
Context {F : FcInt} {FL : FcIntLaws F}.

(** Putting a lease of [amt] in the place of [current]. *)
Definition set_lease (k : Z * Z) (amt exp new_id : Z) (current : option csaf_lease_object)
    : gmap (Z * Z) csaf_lease_object -> gmap (Z * Z) csaf_lease_object :=
  match current with
  | Some l => if 0 <? amt then <[k := l <| l_amount := amt |> <| l_expiration := exp |>]> else delete k
  | None => <[k := {| l_amount := amt; l_expiration := exp; l_id := new_id |}]>
  end.
Definition leased (current : option csaf_lease_object) : Z := default 0 (l_amount <$> current).

Lemma msum_set_lease (f : Z * Z -> csaf_lease_object -> Z) k amt exp n m :
  (forall l, f k l = 0) \/ (forall l, f k l = l_amount l) -> 0 <= amt ->
  msum f (set_lease k amt exp n (m !! k) m) =
  msum f m + f k {| l_amount := amt - leased (m !! k); l_expiration := 0; l_id := 0 |}.
Proof.
  intros Hf Hamt. unfold set_lease, leased. destruct (m !! k) as [l|] eqn:E; cbn.
  - destruct (Z.ltb_spec 0 amt).
    + rewrite (msum_update _ _ _ l) by done. destruct Hf as [Hf|Hf]; rewrite !Hf; cbn; lia.
    + rewrite msum_delete_key. unfold at_key. rewrite E. destruct Hf as [Hf|Hf]; rewrite !Hf; cbn; lia.
  - rewrite msum_insert by done. destruct Hf as [Hf|Hf]; rewrite !Hf; cbn; lia.
Qed.

Lemma update_coin_seconds_leases w now d hf s s' :
  update_coin_seconds_earned w now d hf s = Ok s' ->
  core_leased_out s' = core_leased_out s /\ core_leased_in s' = core_leased_in s.
Proof.
  unfold update_coin_seconds_earned. destruct (_ && _); [by intros [= <-]|].
  intros H. apply bind_ok in H as ([e a] & _ & [= <-]). done.
Qed.

Lemma lease_core_ok acc f d u d' :
  lease_core acc f d = Ok (u, d') ->
  exists s s1 s', stats d !! acc = Some s /\ f s1 = Ok s' /\ d' = d <| stats ::= <[acc := s']> |> /\
    core_leased_out s1 = core_leased_out s /\ core_leased_in s1 = core_leased_in s.
Proof.
  unfold lease_core. intros H. peel H as d0 Hg. apply modify_stats_ok in H as (s & s' & Hs & Hf & ->).
  apply bind_ok in Hf as (s1 & Hs1 & Hf). exists s, s1, s'. split_and!; try done;
    (destruct (hardfork d <? HEAD_FORK_05); [by apply update_coin_seconds_leases in Hs1 as []|by injection Hs1 as <-]).
Qed.

Lemma default_insert {A} (g : A -> Z) (m : gmap Z A) acc x s s' delta :
  m !! acc = Some s -> g s' = g s + delta ->
  default 0 (g <$> <[acc := s']> m !! x) = default 0 (g <$> m !! x) + only acc delta x.
Proof.
  intros Hs Hg. unfold only. destruct (Z.eqb_spec acc x) as [->|Hne].
  - rewrite lookup_insert_eq, Hs. cbn. lia.
  - rewrite lookup_insert_ne by done. lia.
Qed.

Lemma lease_both from to delta d u d' :
  when (negb (delta =? 0))
    (lease_core from (fun s => x ← safe_add (core_leased_out s) delta; Ok (s <| core_leased_out := x |>)) ;;
     lease_core to (fun s => x ← safe_add (core_leased_in s) delta; Ok (s <| core_leased_in := x |>))) d
    = Ok (u, d') ->
  csaf_leases d' = csaf_leases d /\
  forall x, default 0 (core_leased_out <$> stats d' !! x)
              = default 0 (core_leased_out <$> stats d !! x) + only from delta x /\
            default 0 (core_leased_in <$> stats d' !! x)
              = default 0 (core_leased_in <$> stats d !! x) + only to delta x.
Proof.
  intros H. destruct (Z.eqb_spec delta 0) as [->|Hne]; cbn [negb when] in H.
  { injection H as _ <-. split; [done|]. intros x. rewrite !only_zero. lia. }
  step H as u1 d1 H1. apply lease_core_ok in H1 as (s & s1 & s' & Hs & Hf & -> & Ho & Hi).
  apply bind_ok in Hf as (x1 & Hx1 & [= <-]). apply safe_add_ok in Hx1 as [-> _].
  apply lease_core_ok in H as (t & t1 & t' & Ht & Hf & -> & Ho' & Hi').
  apply bind_ok in Hf as (x2 & Hx2 & [= <-]). apply safe_add_ok in Hx2 as [-> _].
  split; [done|]. intros x. cbn in Ht |- *. split.
  - rewrite (default_insert core_leased_out _ to x t _ 0 Ht) by (cbn; lia).
    rewrite (default_insert core_leased_out _ from x s _ delta Hs) by (cbn; lia).
    rewrite only_zero. lia.
  - rewrite (default_insert core_leased_in _ to x t _ delta Ht) by (cbn; lia).
    rewrite (default_insert core_leased_in _ from x s _ 0 Hs) by (cbn; lia).
    rewrite only_zero. lia.
Qed.
End lease.

(** C31. Leases add up.  Creating, changing or ending a lease of coins for csaf
    keeps, for every account, the recorded amounts leased out and leased in
    equal to the sums over its leases; more can be leased only out of the
    available core balance. *)
Theorem csaf_lease_totals {F : FcInt} {FL : FcIntLaws F} (from to amt exp : Z) (d d' : database) (u : unit) :
  csaf_lease from to amt exp d = Ok (u, d') -> 0 <= amt ->
  (forall acc, out_gap acc d' = out_gap acc d /\ in_gap acc d' = in_gap acc d) /\
  leased (csaf_leases d' !! (from, to)) = amt /\
  (leased (csaf_leases d !! (from, to)) < amt ->
   exists s available, stats d !! from = Some s /\ get_available_core_balance d s = Ok available /\
     amt - leased (csaf_leases d !! (from, to)) <= available).
Proof.
  intros H Hamt. unfold csaf_lease in H. peel H as d0 Hg. peel H as u1 E1. cbv zeta in H.
  peel H as delta Hdelta. peel H as fs Hfs. peel H as ts Hts. step H as u2 d1 H1. step H as u3 d2 H2.
  injection H2 as _ <-. unfold get_account_statistics_by_uid in Hfs. apply deref_ok in Hfs.
  assert (delta = amt - leased (csaf_leases d !! (from, to))) as Hd.
  { destruct (csaf_leases d !! (from, to)) as [l|]; cbn.
    - apply bind_ok in Hdelta as (u4 & _ & Hs). by apply safe_sub_ok in Hs as [-> _].
    - apply bind_ok in Hdelta as (u4 & _ & [= <-]). lia. }
  assert (d1 = d /\ (0 < delta -> exists available, get_available_core_balance d fs = Ok available /\ delta <= available))
    as [-> Hav].
  { destruct (Z.ltb_spec 0 delta); [|injection H1 as _ <-; split; [done|lia]].
    cbn [when] in H1. peel H1 as av Hav. apply fc_assert_ok in H1 as [Hle%Z.leb_le [= _ ->]]. eauto. }
  apply lease_both in H as [HL Hst].
  assert (csaf_leases d' = set_lease (from, to) amt exp (next_csaf_lease_id d)
            (csaf_leases d !! (from, to)) (csaf_leases d)) as HL'
    by (rewrite HL; unfold set_lease; repeat case_match; done).
  clear HL. rename HL' into HL. rewrite HL.
  pose proof (fun f Hf => msum_set_lease f (from, to) amt exp (next_csaf_lease_id d)
                (csaf_leases d) Hf Hamt) as Hsum.
  split_and!.
  - intros acc. unfold out_gap, in_gap. rewrite HL. destruct (Hst acc) as [-> ->].
    replace (stats (match csaf_leases d !! (from, to) with Some _ => _ | None => _ end)) with (stats d)
      by by repeat case_match.
    rewrite !Hsum by (unfold leased_from, leased_to; cbn; destruct (_ =? acc); auto).
    unfold leased_from, leased_to, only. cbn. rewrite <- Hd. destruct (from =? acc), (to =? acc); lia.
  - unfold set_lease, leased. destruct (csaf_leases d !! (from, to)).
    + destruct (Z.ltb_spec 0 amt); [by rewrite lookup_insert_eq|]. rewrite lookup_delete_eq. cbn. lia.
    + by rewrite lookup_insert_eq.
  - intros Hlt. destruct Hav as (av & Hav & Hle); [lia|]. exists fs, av. split_and!; try done. lia.
Qed.

Lemma csaf_lease_totals_witness :
  exists d', @csaf_lease fc_checked 10 20 300 1700000000 bank = Ok (tt, d') /\
    out_gap 10 d' = 0 /\ in_gap 20 d' = 0 /\ leased (csaf_leases d' !! (10, 20)) = 300.
Proof.
  destruct (@csaf_lease fc_checked 10 20 300 1700000000 bank) as [[[] d']|e] eqn:E;
    [|exfalso; vm_compute in E; discriminate E].
  destruct (@csaf_lease_totals fc_checked fc_checked_laws 10 20 300 1700000000 bank d' tt E ltac:(lia))
    as (Hg & Hl & _).
  exists d'. split; [reflexivity|]. split; [exact (proj1 (Hg 10))|]. split; [exact (proj2 (Hg 20))|exact Hl].
Defined.
