(* ===== verification/Market.v ===== *)
(** * The order book (db_market.cpp, market_evaluator.cpp, market_object.hpp,
      protocol/market.cpp)

    A new order is matched against the opposite side of the book, best price
    first, at the price of the order on the book.  The book is the index
    [by_price]: all orders by decreasing price, then by increasing id. *)
From S2P Require Import Prelude FlatMap FcInt Asset Pledge ChainState.
From S2P Require Import AccountStats Voter Balance Transfer.
Local Open Scope Z_scope.
Import asset pledge chain acc voter balance transfer.

Module market.
#[local] Notation M := (M database).

(** [limit_order_object]. *)
Definition amount_for_sale (o : limit_order_object) : asset :=
  Asset (for_sale o) (asset_id (base (sell_price o))).
Definition sell_asset_id (o : limit_order_object) : Z := asset_id (base (sell_price o)).
Definition receive_asset_id (o : limit_order_object) : Z := asset_id (quote (sell_price o)).
Definition get_market (o : limit_order_object) : Z * Z :=
  let a := asset_id (base (sell_price o)) in
  let b := asset_id (quote (sell_price o)) in
  if b <? a then (b, a) else (a, b).

Section ops.
Context {F : FcInt} {C : ChainConfig}.

Definition amount_to_receive (o : limit_order_object) : result asset :=
  mul (amount_for_sale o) (sell_price o).

Definition get_order (id : Z) : M limit_order_object := fun d =>
  o ← deref (limit_orders d !! id) undefined_behaviour; Ok (o, d).

(** [cancel_limit_order]; the virtual operation is only reported. *)
Definition cancel_limit_order (id : Z) : M unit :=
  o ← get_order id;
  let refunded := amount_for_sale o in
  when (asset_id refunded =? CORE_ASSET_AID)
    (modify_stats (seller o) (fun s =>
       x ← safe_sub (total_core_in_orders s) (amount refunded);
       Ok (s <| total_core_in_orders := x |>))) ;;
  adjust_balance (seller o) refunded ;;
  upd (fun d => d <| limit_orders ::= delete id |>).

Definition maybe_cull_small_order (id : Z) : M bool :=
  o ← get_order id;
  r ← lift (amount_to_receive o);
  if amount r =? 0 then cancel_limit_order id ;; mret true else mret false.

(** *** Fees *)
Definition calculate_percent (value percent : Z) : result Z :=
  q ← u128_div (u128_mul (u128_of value) percent) PERCENT_100;
  Ok (u128_to_u64 q).
Definition calculate_market_fee (aid : Z) (a : asset_object) (trade_amount : asset) : result asset :=
  if negb (charges_market_fees a) then Ok (Asset 0 aid)
  else if market_fee_percent a =? 0 then Ok (Asset 0 aid)
  else
    q ← u128_div (u128_mul (u128_of (amount trade_amount)) (market_fee_percent a)) PERCENT_100;
    let percent_fee := u128_to_i64 q in
    Ok (Asset (if max_market_fee a <? percent_fee then max_market_fee a else percent_fee) aid).

(** The part of the fee that rewards the seller's referrer and registrar. *)
Definition pay_reward (sel : Z) (aid : Z) (a : asset_object) (fee : asset) : M Z :=
  match reward_percent a with
  | None => mret 0
  | Some p =>
      if p =? 0 then mret 0
      else
        v ← lift (calculate_percent (amount fee) p);
        if 0 <? v then
          let reward := i64 v in
          lt ← lift (ltb (Asset reward aid) fee);
          fc_assert lt ;;
          d ← get;
          acc ← lift (get_account_by_uid d sel);
          fc_assert (referrer_percent acc + registrar_percent acc =? PERCENT_100) ;;
          _ ← lift (get_account_statistics_by_uid d (referrer acc));
          _ ← lift (get_account_statistics_by_uid d (registrar acc));
          rv ← lift (calculate_percent reward (referrer_percent acc));
          modify_stats (referrer acc) (add_uncollected_market_fee aid (i64 rv)) ;;
          rest ← lift (safe_sub reward (i64 rv));
          modify_stats (registrar acc) (add_uncollected_market_fee aid rest) ;;
          mret reward
        else mret 0
  end.
Definition pay_market_fees (sel : Z) (aid : Z) (a : asset_object) (receives : asset) : M asset :=
  fee ← lift (calculate_market_fee aid a receives);
  le ← lift (leb fee receives);
  fc_assert le ;;
  when (0 <? amount fee)
    (reward ← pay_reward sel aid a fee;
     accumulated ← lift (safe_sub (amount fee) reward);
     when (0 <? accumulated) (fun d =>
       dd ← deref (asset_dynamic_data d !! aid) assert_exception;
       x ← safe_add (accumulated_fees dd) accumulated;
       Ok (tt, d <| asset_dynamic_data ::= <[aid := dd <| accumulated_fees := x |>]> |>))) ;;
  mret fee.

(** *** Filling orders *)
Definition pay_order (receiver : Z) (receives pays : asset) : M unit :=
  d ← get;
  _ ← lift (get_account_statistics_by_uid d receiver);
  when (asset_id pays =? CORE_ASSET_AID)
    (modify_stats receiver (fun s =>
       x ← safe_sub (total_core_in_orders s) (amount pays);
       Ok (s <| total_core_in_orders := x |>)) ;;
     refresh_votes receiver) ;;
  adjust_balance receiver receives.

Definition fill_limit_order (id : Z) (pays receives : asset) (cull_if_small : bool) : M bool :=
  o ← get_order id;
  fc_assert (asset_id (amount_for_sale o) =? asset_id pays) ;;
  fc_assert (negb (asset_id pays =? asset_id receives)) ;;
  d ← get;
  _ ← lift (get_account_by_uid d (seller o));
  a ← lift (get_asset_by_aid d (asset_id receives));
  fees ← pay_market_fees (seller o) (asset_id receives) a receives;
  net ← lift (sub receives fees);
  pay_order (seller o) net pays ;;
  if eqb pays (amount_for_sale o) then
    upd (fun d => d <| limit_orders ::= delete id |>) ;; mret true
  else
    x ← lift (safe_sub (for_sale o) (amount pays));
    upd (fun d => d <| limit_orders ::= <[id := o <| for_sale := x |>]> |>) ;;
    if cull_if_small then maybe_cull_small_order id else mret false.

(** What each side of a match gets: [None] when the taker would get nothing,
    else (taker receives, maker receives, whether to cull the taker). *)
Definition match_amounts (taker maker : limit_order_object) (match_price : price)
    : result (option (asset * asset * bool)) :=
  let usd_for_sale := amount_for_sale taker in
  let core_for_sale := amount_for_sale maker in
  limit ← mul core_for_sale match_price;
  le ← leb usd_for_sale limit;
  if le : bool then
    usd_receives ← mul usd_for_sale match_price;
    if amount usd_receives =? 0 then Ok None
    else
      core_receives ← multiply_and_round_up usd_receives match_price;
      Ok (Some (usd_receives, core_receives, true))
  else
    core_receives ← mul core_for_sale match_price;
    usd_receives ← multiply_and_round_up core_receives match_price;
    Ok (Some (usd_receives, core_receives, false)).

(** [match]: bit 0 of the result says the taker is filled, bit 1 the maker. *)
Definition match_orders (taker_id maker_id : Z) : M Z :=
  usd ← get_order taker_id;
  core ← get_order maker_id;
  let match_price := sell_price core in
  fc_assert (asset_id (quote (sell_price usd)) =? asset_id (base (sell_price core))) ;;
  fc_assert (asset_id (base (sell_price usd)) =? asset_id (quote (sell_price core))) ;;
  fc_assert ((0 <? for_sale usd) && (0 <? for_sale core)) ;;
  m ← lift (match_amounts usd core match_price);
  match m with
  | None => mret 1
  | Some (usd_receives, core_receives, cull_taker) =>
      f1 ← fill_limit_order taker_id core_receives usd_receives cull_taker;
      f2 ← fill_limit_order maker_id usd_receives core_receives true;
      let result := Z.lor (Z.b2z f1) (Z.shiftl (Z.b2z f2) 1) in
      fc_assert (negb (result =? 0)) ;;
      mret result
  end.

(** *** The book *)
Definition order_before (x y : Z * limit_order_object) : bool :=
  price_gtb (sell_price x.2) (sell_price y.2) ||
  (negb (price_gtb (sell_price y.2) (sell_price x.2)) && (x.1 <? y.1)).
Definition order_le (x y : Z * limit_order_object) : Prop := order_before y x = false.
#[local] Instance order_le_dec x y : Decision (order_le x y).
Proof. unfold order_le. apply _. Defined.
Definition book (d : database) : list (Z * limit_order_object) :=
  merge_sort order_le (map_to_list (limit_orders d)).

(** The order just before the new one in the book, if any. *)
Definition predecessor (d : database) (id : Z) (o : limit_order_object)
    : option (Z * limit_order_object) :=
  last (filter (fun x => order_before x (id, o) = true) (book d)).

(** The orders on the opposite side at the new order's price or better:
    [lower_bound(max_price.max())] to [upper_bound(max_price)]. *)
Definition opposite (d : database) (o : limit_order_object) : result (list Z) :=
  let max_price := inv (sell_price o) in
  top ← price_max (asset_id (base max_price)) (asset_id (quote max_price));
  Ok (filter (fun x => price_gtb (sell_price x.2) top = false /\
                       price_gtb max_price (sell_price x.2) = false) (book d)).*1.

Fixpoint match_loop (id : Z) (makers : list Z) : M unit :=
  match makers with
  | [] => mret tt
  | m :: makers' =>
      r ← match_orders id m;
      if r =? 2 then match_loop id makers' else mret tt
  end.

(** Whether the order is gone. *)
Definition apply_order (id : Z) : M bool :=
  d ← get;
  o ← get_order id;
  let behind := match predecessor d id o with
                | Some (_, p) => (sell_asset_id p =? sell_asset_id o) &&
                                 (receive_asset_id p =? receive_asset_id o)
                | None => false
                end in
  if behind then mret false
  else
    makers ← lift (opposite d o);
    match_loop id makers ;;
    left ← gets (fun d => limit_orders d !! id);
    match left with
    | None => mret true
    | Some _ => maybe_cull_small_order id
    end.

(** ** Operations *)
Definition validate_limit_order_create (amount_to_sell min_to_receive : asset) : result unit :=
  guard_ok (negb (asset_id amount_to_sell =? asset_id min_to_receive)) assert_exception ;;
  guard_ok (0 <? amount amount_to_sell) assert_exception ;;
  guard_ok (0 <? amount min_to_receive) assert_exception.

Definition limit_order_create (sel : Z) (amount_to_sell min_to_receive : asset)
    (op_expiration : Z) (fill_or_kill : bool) : M Z :=
  d ← get;
  fc_assert (HARDFORK_0_5_TIME <=? head_block_time d) ;;
  fc_assert (head_block_time d <=? op_expiration) ;;
  acc ← lift (get_account_by_uid d sel);
  sa ← lift (get_asset_by_aid d (asset_id amount_to_sell));
  ra ← lift (get_asset_by_aid d (asset_id min_to_receive));
  fc_assert (bool_decide (whitelist_markets sa = ∅) ||
             bool_decide (asset_id min_to_receive ∈ whitelist_markets sa)) ;;
  fc_assert (negb (bool_decide (asset_id min_to_receive ∈ blacklist_markets sa))) ;;
  lift (validate_authorized_asset acc (asset_id amount_to_sell) sa) ;;
  lift (validate_authorized_asset acc (asset_id min_to_receive) ra) ;;
  fc_assert (amount amount_to_sell <=? balance_of d sel (asset_id amount_to_sell)) ;;
  _ ← lift (get_account_statistics_by_uid d sel);
  when (asset_id amount_to_sell =? CORE_ASSET_AID)
    (modify_stats sel (fun s =>
       x ← safe_add (total_core_in_orders s) (amount amount_to_sell);
       Ok (s <| total_core_in_orders := x |>))) ;;
  n ← lift (neg amount_to_sell);
  adjust_balance sel n ;;
  p ← lift (div amount_to_sell min_to_receive);
  id ← gets next_order_id;
  upd (fun d => d <| limit_orders ::= <[id := {| expiration := op_expiration; seller := sel;
                                                 for_sale := amount amount_to_sell;
                                                 sell_price := p |}]> |>
                  <| next_order_id := id + 1 |>) ;;
  filled ← apply_order id;
  fc_assert (negb fill_or_kill || filled) ;;
  mret id.

Definition limit_order_cancel (id fee_paying_account : Z) : M asset :=
  d ← get;
  fc_assert (HARDFORK_0_5_TIME <=? head_block_time d) ;;
  o ← lift (deref (limit_orders d !! id) assert_exception);
  fc_assert (seller o =? fee_paying_account) ;;
  cancel_limit_order id ;;
  mret (amount_for_sale o).

Definition market_fee_collect (account aid amt : Z) : M unit :=
  d ← get;
  fc_assert (HARDFORK_0_5_TIME <=? head_block_time d) ;;
  s ← lift (get_account_statistics_by_uid d account);
  have ← lift (deref (uncollected_market_fees s !! aid) assert_exception);
  fc_assert (amt <=? have) ;;
  modify_stats account (fun s =>
    if have =? amt then Ok (s <| uncollected_market_fees ::= delete aid |>)
    else x ← safe_sub have amt; Ok (s <| uncollected_market_fees ::= <[aid := x]> |>)) ;;
  adjust_balance account (Asset amt aid).
End ops.
End market.
