(* ===== verification/MarketProof.v ===== *)
(** * The market conserves every asset

    Filling, culling, cancelling and collecting are flows with no net change:
    what a seller pays leaves his order, what he receives is split between his
    balance, the fee the asset accumulates and the rewards of his referrer and
    registrar. *)
From S2P Require Import Prelude FcInt FlatMap Asset Pledge ChainState AccountStats Voter MapSum.
From S2P Require Import Balance Transfer Frame Ledger Market.
Local Open Scope Z_scope.
Import asset pledge chain acc voter balance transfer market.

(** Fee settings an asset can have: [market_fee_percent] is a [uint16_t] and
    [asset_options::validate] bounds the maximum fee from below. *)
Definition fee_ok (a : asset_object) : Prop :=
  0 <= market_fee_percent a < 2 ^ 16 /\ 0 <= max_market_fee a.
Definition fees_ok (d : database) : Prop := forall aid a, assets d !! aid = Some a -> fee_ok a.

Section amounts.
Context {F : FcInt} {FL : FcIntLaws F}.

Lemma wrap_nonneg w x : 0 <= w -> 0 <= wrap w x.
Proof. intros. by apply wrap_bound. Qed.

Lemma share_amount r id b :
  0 <= r -> (guard_ok (r <=? MAX_SHARE_SUPPLY) assert_exception ;;
             mret (Asset (u128_to_i64 r) id)) = Ok b -> 0 <= amount b <= MAX_SHARE_SUPPLY /\ asset_id b = id.
Proof.
  intros Hr H. rewrite finish in H by done. apply bounded_ok in H as [? ->]. cbn. lia.
Qed.
Lemma convert_down_range x num den id r :
  convert_down x num den id = Ok r -> 0 <= amount r <= MAX_SHARE_SUPPLY /\ asset_id r = id.
Proof.
  unfold convert_down. intros (u & Hd & H)%bind_ok. apply guard_ok_inv, Z.ltb_lt in Hd.
  rewrite u128_div_law in H by done. eapply share_amount, H. rewrite u128_mul_law.
  apply Z.div_pos; [by apply wrap_nonneg|done].
Qed.
Lemma convert_up_range x num den id r :
  convert_up x num den id = Ok r -> 0 <= amount r <= MAX_SHARE_SUPPLY /\ asset_id r = id.
Proof.
  unfold convert_up. intros (u & Hd & H)%bind_ok. apply guard_ok_inv, Z.ltb_lt in Hd.
  rewrite u128_div_law in H by done. eapply share_amount, H. rewrite u128_sub_law.
  apply Z.div_pos; [by apply wrap_nonneg|done].
Qed.
Lemma mul_range a p r : mul a p = Ok r -> 0 <= amount r <= MAX_SHARE_SUPPLY.
Proof. unfold mul. repeat case_match; intros Hr; [exact (proj1 (convert_down_range _ _ _ _ _ Hr))..|done]. Qed.
Lemma round_up_range a p r : multiply_and_round_up a p = Ok r -> 0 <= amount r <= MAX_SHARE_SUPPLY.
Proof.
  unfold multiply_and_round_up. repeat case_match; intros Hr; [exact (proj1 (convert_up_range _ _ _ _ _ Hr))..|done].
Qed.

Lemma match_amounts_range usd core p x y b :
  match_amounts usd core p = Ok (Some (x, y, b)) ->
  0 <= amount x <= MAX_SHARE_SUPPLY /\ 0 <= amount y <= MAX_SHARE_SUPPLY.
Proof.
  unfold match_amounts. intros (l & Hl & H)%bind_ok. apply bind_ok in H as (le & _ & H).
  destruct le; apply bind_ok in H as (r1 & H1 & H).
  - destruct (amount r1 =? 0); [done|]. apply bind_ok in H as (r2 & H2 & [= <- <- <-]).
    apply mul_range in H1. apply round_up_range in H2. done.
  - apply bind_ok in H as (r2 & H2 & [= <- <- <-]). apply mul_range in H1.
    apply round_up_range in H2. done.
Qed.

Lemma market_fee_range aid a t fee :
  fee_ok a -> 0 <= amount t <= MAX_SHARE_SUPPLY ->
  calculate_market_fee aid a t = Ok fee -> 0 <= amount fee /\ asset_id fee = aid.
Proof.
  intros [Hp Hm] Ht. unfold calculate_market_fee.
  destruct (negb _); [by intros [= <-]|]. destruct (market_fee_percent a =? 0); [by intros [= <-]|].
  assert (0 <= amount t * market_fee_percent a < 2 ^ 100) as Hb by nia.
  rewrite u128_of_small, u128_mul_small, u128_div_law by lia. intros [= <-]. cbn [amount asset_id].
  split; [|done].
  assert (0 <= amount t * market_fee_percent a / PERCENT_100 < 2 ^ 63) as Hq.
  { split; [apply Z.div_pos; lia|apply Z.div_lt_upper_bound; nia]. }
  rewrite u128_to_i64_law by done. destruct (_ <? _); lia.
Qed.
End amounts.

(** ** The steps *)
Notation still d d' := (flow d d' (fun _ => 0) (fun _ => 0)).

Section steps.
Context {F : FcInt} {FL : FcIntLaws F} {C : ChainConfig}.

Lemma still_trans d1 d2 d3 f g : flow d1 d2 f g -> still d2 d3 -> flow d1 d3 f g.
Proof. intros H1 H2. eapply flow_ext, flow_trans; [| |exact H1|exact H2]; intros; cbn; lia. Qed.
Lemma still_trans_l d1 d2 d3 f g : still d1 d2 -> flow d2 d3 f g -> flow d1 d3 f g.
Proof. intros H1 H2. eapply flow_ext, flow_trans; [| |exact H1|exact H2]; intros; cbn; lia. Qed.
Lemma flow_zero d f g : (forall a, f a = 0) -> (forall x, g x = 0) -> flow d d f g.
Proof. intros Hf Hg. eapply flow_ext, flow_refl; intros; by rewrite ?Hf, ?Hg. Qed.

Lemma flow_core_in_orders (b : bool) acc x fn d u d' :
  (forall s s', fn s = Ok s' -> s' = s <| total_core_in_orders := total_core_in_orders s + x |>) ->
  when b (modify_stats acc fn) d = Ok (u, d') ->
  flow d d' (fun _ => 0) (only acc (if b then x else 0)).
Proof.
  intros Hf H. destruct b; [|injection H as _ <-; apply flow_zero; [done|intros; apply only_zero]].
  eapply flow_stats; [exact H|]. intros s s' _ ->%Hf. split_and!; [done..|]. intros a.
  change (in_money a acc (money_of s) = in_money a acc (money_of s) + 0). lia.
Qed.

Lemma flow_market_fee acc aid x d u d' :
  modify_stats acc (add_uncollected_market_fee aid x) d = Ok (u, d') ->
  flow d d' (only aid x) (fun _ => 0).
Proof.
  intros H. eapply flow_ext; [| |eapply (flow_stats _ _ _ _ _ (only aid x) 0 H)].
  - done.
  - intros y. apply only_zero.
  - intros s s' _ Hs.
    assert (s' = s <| uncollected_market_fees ::=
              <[aid := default 0 (uncollected_market_fees s !! aid) + x]> |>) as ->.
    { unfold add_uncollected_market_fee in Hs. destruct (uncollected_market_fees s !! aid); cbn.
      - apply bind_ok in Hs as (y & Hy & [= <-]). by apply safe_add_ok in Hy as [-> _].
      - by injection Hs as <-. }
    split_and!; [done|cbn; lia|]. intros a. unfold in_money, only. cbn [m_fees m_prepaid m_uncollected money_of].
    change (uncollected_market_fees (s <| uncollected_market_fees ::= ?f |>))
      with (f (uncollected_market_fees s)).
    destruct (Z.eqb_spec aid a) as [->|Hne].
    + rewrite lookup_insert_eq. cbn. lia.
    + rewrite lookup_insert_ne by done. cbn. lia.
Qed.

Lemma flow_accumulate aid dd x d :
  asset_dynamic_data d !! aid = Some dd ->
  flow d (d <| asset_dynamic_data ::= <[aid := dd <| accumulated_fees := accumulated_fees dd + x |>]> |>)
    (only aid x) (fun _ => 0).
Proof.
  intros Hd. split; try done; [| |intros y; cbn; unfold gap; cbn; lia].
  { unfold statics, issued. cbn. rewrite fmap_insert, insert_id; [done|]. by rewrite lookup_fmap, Hd. }
  intros a. unfold supply, in_fees, only. cbn. destruct (Z.eqb_spec aid a) as [E|Hne].
  - rewrite <- E, lookup_insert_eq, Hd. cbn. lia.
  - rewrite lookup_insert_ne by done. lia.
Qed.

Lemma flow_refresh_votes acc d u d' : refresh_votes acc d = Ok (u, d') -> still d d'.
Proof.
  intros H. apply flow_same.
  - exact (keeps_refresh_votes statics acc _ _ _ H).
  - exact (keeps_refresh_votes next_order_id acc _ _ _ H).
  - exact (keeps_refresh_votes ledger_of acc _ _ _ H).
Qed.

Lemma pay_reward_flow sel aid a fee d r d' :
  asset_id fee = aid -> 0 < amount fee -> pay_reward sel aid a fee d = Ok (r, d') ->
  flow d d' (only aid r) (fun _ => 0) /\ r < amount fee.
Proof.
  intros Haid Hfee H.
  assert (forall d0 r0, Ok (0, d0) = Ok (r0, d') -> flow d0 d' (only aid r0) (fun _ => 0) /\ r0 < amount fee)
    as Hnone.
  { intros d0 r0 [= <- <-]. split; [apply flow_zero; [intros; apply only_zero|done]|done]. }
  unfold pay_reward in H. destruct (reward_percent a) as [p|]; [|by apply Hnone].
  destruct (p =? 0); [by apply Hnone|]. peel H as v Hv.
  destruct (0 <? v); [|by apply Hnone]. cbv zeta in H. peel H as lt Hlt. peel H as u1 Ha. subst lt.
  apply bind_ok in Hlt as (u2 & _ & Hlt). injection Hlt as Hlt. cbn [amount] in Hlt.
  apply Z.ltb_lt in Hlt. set (reward := i64 v) in *.
  peel H as d0 Hg. peel H as acc Hacc. peel H as u3 Hpc. peel H as s1 Hs1. peel H as s2 Hs2.
  peel H as rv Hrv. step H as u4 d1 H1. peel H as rest Hr. step H as u5 d2 H2.
  injection H as <- <-. apply safe_sub_ok in Hr as [-> _].
  split; [|done]. apply flow_market_fee in H1, H2.
  eapply flow_ext, flow_trans; [| |exact H1|exact H2]; [flow_lia|done].
Qed.

Lemma pay_market_fees_flow sel aid a receives d fee d' :
  fee_ok a -> 0 <= amount receives <= MAX_SHARE_SUPPLY ->
  pay_market_fees sel aid a receives d = Ok (fee, d') ->
  flow d d' (only aid (amount fee)) (fun _ => 0) /\ asset_id fee = aid.
Proof.
  intros Hok Hr H. unfold pay_market_fees in H. peel H as fee' Hf.
  destruct (market_fee_range _ _ _ _ Hok Hr Hf) as [H0 Hid]. peel H as le Hle. peel H as u1 Hu.
  step H as u2 d1 Hw. injection H as <- <-. split; [|done].
  destruct (Z.ltb_spec 0 (amount fee')) as [Hpos|Hz]; cbn [when] in Hw.
  - step Hw as r d2 Hp. apply pay_reward_flow in Hp as [Hp Hlt]; [|done..]. peel Hw as rest Hx.
    apply safe_sub_ok in Hx as [-> _]. rewrite (proj2 (Z.ltb_lt _ _)) in Hw by lia. cbn [when] in Hw.
    apply bind_ok in Hw as (dd & Hd & Hw). apply deref_ok in Hd.
    apply bind_ok in Hw as (y & Hy & [= _ <-]). apply safe_add_ok in Hy as [-> _].
    pose proof (flow_accumulate aid dd (amount fee' - r) d2 Hd) as Hacc.
    eapply flow_ext, flow_trans; [| |exact Hp|exact Hacc]; [flow_lia|done].
  - injection Hw as _ <-. apply flow_zero; [|done]. intros y. replace (amount fee') with 0 by lia.
    apply only_zero.
Qed.
End steps.

(** ** Orders *)
Section orders.
Context {F : FcInt} {FL : FcIntLaws F} {C : ChainConfig}.

Lemma get_order_ok id d o d' : get_order id d = Ok (o, d') -> limit_orders d !! id = Some o /\ d' = d.
Proof. unfold get_order. intros (x & Hx & [= <- <-])%bind_ok. by apply deref_ok in Hx. Qed.

Lemma keeps_orders_fees sel aid a receives : keeps limit_orders (pay_market_fees sel aid a receives).
Proof.
  unfold pay_market_fees, pay_reward. keep; auto with keeps typeclass_instances.
  intros d u d' H. apply bind_ok in H as (dd & _ & H). by apply bind_ok in H as (x & _ & [= _ <-]).
Qed.
Lemma keeps_orders_pay receiver receives pays : keeps limit_orders (pay_order receiver receives pays).
Proof. unfold pay_order. keep; auto with keeps typeclass_instances. Qed.

Lemma cancel_limit_order_flow id d u d' : cancel_limit_order id d = Ok (u, d') -> still d d'.
Proof.
  intros H. unfold cancel_limit_order in H. step H as o d0 Ho. apply get_order_ok in Ho as [Ho ->].
  cbv zeta in H. step H as u1 d1 H1. step H as u2 d2 H2. injection H as _ <-.
  assert (limit_orders d2 !! id = Some o) as Ho2.
  { rewrite (keeps_adjust_balance limit_orders _ _ _ _ _ H2).
    assert (keeps limit_orders (when (asset_id (amount_for_sale o) =? CORE_ASSET_AID)
      (modify_stats (seller o) (fun s =>
        x ← safe_sub (total_core_in_orders s) (amount (amount_for_sale o));
        Ok (s <| total_core_in_orders := x |>))))) as K by auto with keeps typeclass_instances.
    by rewrite (K _ _ _ H1). }
  apply flow_core_in_orders with (x := - for_sale o) in H1.
  2: { intros s s' Hs. apply bind_ok in Hs as (x & Hx & [= <-]). by apply safe_sub_ok in Hx as [-> _]. }
  apply flow_adjust in H2. pose proof (flow_delete_order id o d2 Ho2) as H3.
  eapply flow_ext, flow_trans; [| |exact H1|eapply flow_trans; [exact H2|exact H3]].
  - intros a. unfold in_order, only. cbn. repeat case_match; lia.
  - intros x. unfold in_orders_of, only. cbn [amount_for_sale asset_id]. cbv beta.
    destruct (seller o =? x), (_ =? CORE_ASSET_AID); cbn [andb]; lia.
Qed.

Lemma maybe_cull_flow id d b d' : maybe_cull_small_order id d = Ok (b, d') -> still d d'.
Proof.
  intros H. unfold maybe_cull_small_order in H. step H as o d0 Ho. apply get_order_ok in Ho as [_ ->].
  peel H as r Hr. destruct (amount r =? 0); [|by injection H as _ <-; apply flow_refl].
  step H as u d1 Hc. injection H as _ <-. by eapply cancel_limit_order_flow.
Qed.

Lemma pay_order_flow receiver receives pays d u d' :
  pay_order receiver receives pays d = Ok (u, d') ->
  flow d d' (only (asset_id receives) (amount receives))
    (only receiver (if asset_id pays =? CORE_ASSET_AID then - amount pays else 0)).
Proof.
  unfold pay_order. intros H. peel H as dd Hg. peel H as sx Hsx. step H as u1 d1 H1. apply flow_adjust in H.
  eapply flow_ext, flow_trans; [| | |exact H]; [| |
    instantiate (2 := fun _ => 0);
    instantiate (1 := only receiver (if asset_id pays =? CORE_ASSET_AID then - amount pays else 0))].
  - done.
  - intros x. cbv beta. lia.
  - destruct (asset_id pays =? CORE_ASSET_AID);
      [|injection H1 as _ <-; apply flow_zero; [done|intros; apply only_zero]].
    cbn [when] in H1. step H1 as u2 d2 H2. apply flow_refresh_votes in H1.
    eapply still_trans; [|exact H1].
    apply (flow_core_in_orders true _ (- amount pays)) in H2; [exact H2|].
    intros s s' Hs. apply bind_ok in Hs as (x & Hx & [= <-]). by apply safe_sub_ok in Hx as [-> _].
Qed.

(** Paying out of an order. *)
Lemma reduce_order_flow id o pays receives d b d' (cull : bool) :
  limit_orders d !! id = Some o -> asset_id (base (sell_price o)) = asset_id pays ->
  (if eqb pays (amount_for_sale o) then
     upd (fun d => d <| limit_orders ::= delete id |>) ;; mret true
   else
     x ← lift (safe_sub (for_sale o) (amount pays));
     upd (fun d => d <| limit_orders ::= <[id := o <| for_sale := x |>]> |>) ;;
     if cull then maybe_cull_small_order id else mret false) d = Ok (b, d') ->
  receives = amount pays ->
  flow d d' (fun a => - only (asset_id pays) receives a)
    (only (seller o) (if asset_id pays =? CORE_ASSET_AID then receives else 0)).
Proof.
  intros Ho Hid H ->. destruct (eqb pays (amount_for_sale o)) eqn:E.
  - step H as u d1 H1. injection H1 as _ <-. injection H as _ <-.
    unfold eqb in E. apply andb_prop in E as [_ E%Z.eqb_eq]. cbn in E.
    eapply flow_ext, (flow_delete_order id o d Ho).
    + intros a. unfold in_order, only. rewrite Hid, E. by destruct (_ =? _).
    + intros x. unfold in_orders_of, only. rewrite Hid, E. by destruct (_ =? _), (_ =? _).
  - peel H as x Hx. apply safe_sub_ok in Hx as [-> _]. step H as u d1 H1. injection H1 as _ <-.
    eapply still_trans.
    2: { destruct cull; [by eapply maybe_cull_flow|injection H as _ <-; apply flow_refl]. }
    eapply flow_ext, (flow_set_order id o _ d Ho).
    + intros a. unfold in_order, only. cbn. rewrite Hid. destruct (_ =? _); lia.
    + intros x. unfold in_orders_of, only. cbn. rewrite Hid. destruct (_ =? _), (_ =? _); cbn; lia.
Qed.

Lemma fill_limit_order_flow id pays receives cull d b d' :
  fees_ok d -> 0 <= amount receives <= MAX_SHARE_SUPPLY ->
  fill_limit_order id pays receives cull d = Ok (b, d') ->
  flow d d' (fun a => only (asset_id receives) (amount receives) a - only (asset_id pays) (amount pays) a)
    (fun _ => 0).
Proof.
  intros Hok Hr H. unfold fill_limit_order in H. step H as o d0 Ho. apply get_order_ok in Ho as [Ho ->].
  peel H as u1 Hid. apply Z.eqb_eq in Hid. peel H as u2 Hne. peel H as dd Hg. peel H as acc Hacc.
  peel H as a Ha. unfold get_asset_by_aid in Ha. apply deref_ok in Ha.
  step H as fees d1 H1. pose proof (keeps_orders_fees _ _ _ _ _ _ _ H1) as K1.
  apply pay_market_fees_flow in H1 as [H1 Hfid]; [|by eapply Hok|done].
  peel H as net Hnet. apply bind_ok in Hnet as (u3 & _ & Hnet).
  apply bind_ok in Hnet as (n & Hn & [= <-]). apply safe_sub_ok in Hn as [-> _].
  step H as u4 d2 H2. pose proof (keeps_orders_pay _ _ _ _ _ _ H2) as K2.
  apply pay_order_flow in H2. cbn [asset_id amount] in H2.
  rewrite <- K1, <- K2 in Ho. eapply reduce_order_flow in H; [|exact Ho|exact Hid|reflexivity].
  eapply flow_ext, flow_trans; [| |exact H1|eapply flow_trans; [exact H2|exact H]].
  - flow_lia.
  - flow_lia.
Qed.
End orders.

(** ** Matching *)
Section matching.
Context {F : FcInt} {FL : FcIntLaws F} {C : ChainConfig}.

Lemma fees_ok_flow d d' f g : flow d d' f g -> fees_ok d -> fees_ok d'.
Proof.
  intros H Hok aid a. pose proof (flow_statics _ _ _ _ H) as Hs. unfold statics in Hs.
  injection Hs as -> _ _ _ _ _ _. apply Hok.
Qed.

Lemma match_orders_flow taker maker d r d' :
  fees_ok d -> match_orders taker maker d = Ok (r, d') -> still d d'.
Proof.
  intros Hok H. unfold match_orders in H.
  step H as usd d0 Hu. apply get_order_ok in Hu as [_ ->].
  step H as core d0 Hc. apply get_order_ok in Hc as [_ ->]. cbv zeta in H.
  peel H as u1 E1. peel H as u2 E2. peel H as u3 E3. peel H as m Hm.
  destruct m as [[[x y] b]|]; [|by injection H as _ <-; apply flow_refl].
  apply match_amounts_range in Hm as [Hx Hy]. step H as f1 d1 H1. step H as f2 d2 H2.
  peel H as u4 E4. injection H as _ <-.
  apply fill_limit_order_flow in H1; [|done..].
  apply fill_limit_order_flow in H2; [|by eapply fees_ok_flow|done].
  eapply flow_ext, flow_trans; [| |exact H1|exact H2]; [|done]. intros a. cbv beta. lia.
Qed.

Lemma match_loop_flow id makers d u d' :
  fees_ok d -> match_loop id makers d = Ok (u, d') -> still d d'.
Proof.
  revert d. induction makers as [|m makers IH]; intros d Hok H; cbn [match_loop] in H.
  { injection H as _ <-. apply flow_refl. }
  step H as r d1 H1. apply match_orders_flow in H1; [|done].
  destruct (r =? 2); [|by injection H as _ <-].
  eapply still_trans_l; [exact H1|]. eapply IH, H. by eapply fees_ok_flow.
Qed.

Lemma apply_order_flow id d b d' : fees_ok d -> apply_order id d = Ok (b, d') -> still d d'.
Proof.
  intros Hok H. unfold apply_order in H. peel H as d0 Hg. step H as o d1 Ho.
  apply get_order_ok in Ho as [_ ->]. cbv zeta in H. destruct (predecessor d id o) as [[? p]|].
  1: destruct (_ && _); [by injection H as _ <-; apply flow_refl|].
  all: peel H as makers Hm; step H as u d1 Hl; apply match_loop_flow in Hl; [|done].
  all: peel H as left Hleft; destruct (limit_orders d1 !! id); [|by injection H as _ <-].
  all: eapply still_trans; [exact Hl|by eapply maybe_cull_flow].
Qed.

(** What the market keeps besides the supply. *)
Record market_inv (d : database) : Prop := {
  mi_fees : fees_ok d;
  mi_fresh id : next_order_id d <= id -> limit_orders d !! id = None;
  mi_ledger : ledger_inv (ledger_of d);
  mi_in_orders acc : gap acc (ledger_of d) = 0;
}.

Definition conserves (d d' : database) : Prop :=
  market_inv d -> market_inv d' /\ statics d' = statics d /\
  forall aid, supply aid (ledger_of d') = supply aid (ledger_of d).

Lemma conserves_flow d d' f : (forall a, f a = 0) -> flow d d' f (fun _ => 0) -> conserves d d'.
Proof.
  intros Hf H [I1 I2 I3 I4].
  split; [|split; [apply H|intros aid; rewrite (flow_supply _ _ _ _ H), Hf; lia]].
  split.
  - by eapply fees_ok_flow.
  - intros id. rewrite (flow_next _ _ _ _ H). intros Hid. by apply (flow_no_new _ _ _ _ H), I2.
  - by apply (flow_inv _ _ _ _ H).
  - intros x. rewrite (flow_gap _ _ _ _ H), I4. done.
Qed.

Definition place (id : Z) (o : limit_order_object) (d : database) : database :=
  d <| limit_orders ::= <[id := o]> |> <| next_order_id := id + 1 |>.

(** Placing an order of coins taken from the seller. *)
Lemma place_conserves d d1 o :
  flow d d1 (fun a => - in_order a 0 o) (fun x => in_orders_of x 0 o) ->
  conserves d (place (next_order_id d1) o d1).
Proof.
  intros H [I1 I2 I3 I4]. assert (limit_orders d1 !! next_order_id d1 = None) as Hn.
  { rewrite (flow_next _ _ _ _ H). apply (flow_no_new _ _ _ _ H), I2. done. }
  split; [split|split; [apply H|]].
  - intros aid a Ha. exact (fees_ok_flow _ _ _ _ H I1 aid a Ha).
  - intros id Hid. cbn in Hid |- *. rewrite lookup_insert_ne by lia.
    apply (flow_no_new _ _ _ _ H), I2. rewrite <- (flow_next _ _ _ _ H). lia.
  - exact (flow_inv _ _ _ _ H I3).
  - intros x. pose proof (flow_gap _ _ _ _ H x) as Hg. rewrite I4 in Hg. unfold gap in *. cbn in *.
    rewrite msum_insert by done. change (in_orders_of x (next_order_id d1) o) with (in_orders_of x 0 o). lia.
  - intros a. pose proof (flow_supply _ _ _ _ H a) as Hs. unfold supply in *. cbn in *.
    rewrite msum_insert by done. change (in_order a (next_order_id d1) o) with (in_order a 0 o). lia.
Qed.

Lemma conserves_trans d1 d2 d3 : conserves d1 d2 -> conserves d2 d3 -> conserves d1 d3.
Proof.
  intros H1 H2 Hi. destruct (H1 Hi) as (Hi2 & S1 & Hs). destruct (H2 Hi2) as (Hi3 & S2 & Hs').
  split; [done|]. split; [congruence|]. intros aid. by rewrite Hs', Hs.
Qed.

Lemma limit_order_create_conserves sel sell recv exp fok d id d' :
  limit_order_create sel sell recv exp fok d = Ok (id, d') -> conserves d d'.
Proof.
  intros H. unfold limit_order_create in H. peel H as d0 Hg. peel H as u1 E1. peel H as u2 E2.
  peel H as acc E3. peel H as sa E4. peel H as ra E5. peel H as u3 E6. peel H as u4 E7.
  peel H as u5 E8. peel H as u6 E9. peel H as u7 E10. peel H as sx Hsx. step H as u8 d1 H1.
  peel H as n Hn. apply bind_ok in Hn as (x & Hx & [= <-]). apply safe_neg_ok in Hx as [-> _].
  step H as u9 d2 H2. peel H as p Hp. apply bind_ok in Hp as (u10 & _ & [= <-]).
  peel H as i Hi. step H as u11 d3 H3. injection H3 as _ <-.
  step H as filled d4 H4. peel H as u12 E12. injection H as _ <-.
  apply flow_core_in_orders with (x := amount sell) in H1.
  2: { intros s s' Hs. apply bind_ok in Hs as (x & Hx & [= <-]). by apply safe_add_ok in Hx as [-> _]. }
  apply flow_adjust in H2. cbn [asset_id amount] in H2.
  set (o := {| expiration := exp; seller := sel; for_sale := amount sell;
               sell_price := {| base := sell; quote := recv |} |}) in *.
  assert (conserves d (place (next_order_id d2) o d2)) as Hplace.
  { apply place_conserves. eapply flow_ext, flow_trans; [| |exact H1|exact H2].
    - intros a. unfold in_order. cbn. rewrite only_opp. done.
    - intros y. unfold in_orders_of, only. cbn. destruct (sel =? y), (asset_id sell =? 0); cbn; lia. }
  intros Hi. eapply conserves_trans; [exact Hplace| |exact Hi].
  eapply conserves_flow; [done|]. eapply apply_order_flow; [|exact H4].
  exact (mi_fees _ (proj1 (Hplace Hi))).
Qed.

Lemma limit_order_cancel_conserves id acc d r d' :
  limit_order_cancel id acc d = Ok (r, d') -> conserves d d'.
Proof.
  intros H. unfold limit_order_cancel in H. peel H as d0 Hg. peel H as u1 E1. peel H as o E2.
  peel H as u2 E3. step H as u3 d1 H1. injection H as _ <-.
  eapply conserves_flow; [done|]. by eapply cancel_limit_order_flow.
Qed.

Lemma market_fee_collect_conserves account aid amt d u d' :
  market_fee_collect account aid amt d = Ok (u, d') -> conserves d d'.
Proof.
  intros H. unfold market_fee_collect in H. peel H as d0 Hg. peel H as u1 E1. peel H as sx E2.
  unfold get_account_statistics_by_uid in E2. apply deref_ok in E2.
  peel H as have E3. apply deref_ok in E3. peel H as u2 E4. step H as u3 d1 H1.
  apply flow_adjust in H. cbn [asset_id amount] in H.
  assert (flow d d1 (only aid (- amt)) (only account 0)) as H1'.
  { eapply flow_stats; [exact H1|]. intros s0 s' Hs0 Hs'. rewrite E2 in Hs0. injection Hs0 as <-.
    destruct (Z.eqb_spec have amt) as [->|Hne].
    - injection Hs' as <-. split_and!; [done|cbn; lia|]. intros a. unfold in_money, only. cbn.
      destruct (Z.eqb_spec aid a) as [<-|Ha].
      + rewrite lookup_delete_eq, E3. cbn. lia.
      + rewrite lookup_delete_ne by done. lia.
    - apply bind_ok in Hs' as (x & Hx & [= <-]). apply safe_sub_ok in Hx as [-> _].
      split_and!; [done|cbn; lia|]. intros a. unfold in_money, only. cbn.
      destruct (Z.eqb_spec aid a) as [<-|Ha].
      + rewrite lookup_insert_eq, E3. cbn. lia.
      + rewrite lookup_insert_ne by done. lia. }
  eapply conserves_flow; [|eapply flow_ext, flow_trans; [| |exact H1'|exact H]].
  - instantiate (1 := fun _ => 0). done.
  - flow_lia.
  - intros x. cbv beta. by rewrite only_zero.
Qed.
End matching.

(** One operation on the market. *)
Inductive market_step {F : FcInt} {C : ChainConfig} (d d' : database) : Prop :=
| market_create sel sell recv exp fok id :
    limit_order_create sel sell recv exp fok d = Ok (id, d') -> market_step d d'
| market_cancel id acc r :
    limit_order_cancel id acc d = Ok (r, d') -> market_step d d'
| market_collect acc aid amt :
    market_fee_collect acc aid amt d = Ok (tt, d') -> market_step d d'.

Lemma market_step_conserves {F : FcInt} {FL : FcIntLaws F} {C : ChainConfig} (d d' : database) :
  market_step d d' -> conserves d d'.
Proof.
  intros Hs. destruct Hs; [by eapply limit_order_create_conserves|by eapply limit_order_cancel_conserves|
    by eapply market_fee_collect_conserves].
Qed.

(** C25. The market conserves every asset.  Along any sequence of order
    creations (with all the matching, fees and culling they cause),
    cancellations and collections of fee rewards, the supply of every asset
    over balances, orders, fees and uncollected rewards is unchanged; the core
    an account is recorded to have in orders is what its orders hold; balances
    stay non-negative and in step with the statistics. *)
Theorem market_conserves {F : FcInt} {FL : FcIntLaws F} {C : ChainConfig} (d d' : database) :
  rtc market_step d d' -> market_inv d ->
  market_inv d' /\ forall aid, supply aid (ledger_of d') = supply aid (ledger_of d).
Proof.
  induction 1 as [d|d1 d2 d3 Hs _ IH]; intros Hi; [done|].
  destruct (market_step_conserves _ _ Hs Hi) as (Hi2 & _ & Hs2). destruct (IH Hi2) as [Hi3 Hs3].
  split; [done|]. intros aid. by rewrite Hs3, Hs2.
Qed.

(** Account 20 offers 100 of asset 5 for 50 core; account 10 takes it with 60
    core, of which 10 stay on the book.  Asset 5 takes a fee of 2%. *)
Definition ex_ask : M database Z :=
  @limit_order_create fc_checked no_proxy 20 (Asset 100 5) (Asset 50 0) 1700000000 false.
Definition ex_bid : M database Z :=
  @limit_order_create fc_checked no_proxy 10 (Asset 60 0) (Asset 60 5) 1700000000 false.

Lemma bank_market_inv : market_inv bank.
Proof.
  split.
  - intros aid a Ha. cbn in Ha. apply lookup_insert_Some in Ha as [[_ <-]|[_ Ha]]; [unfold fee_ok; cbn; lia|].
    apply lookup_singleton_Some in Ha as [_ <-]. unfold fee_ok; cbn; lia.
  - done.
  - apply bank_inv.
  - intros acc. unfold gap. cbn. destruct (decide (acc = 10)) as [->|H1]; [done|].
    destruct (decide (acc = 20)) as [->|H2]; [done|].
    rewrite fmap_insert, lookup_insert_ne by done.
    rewrite map_fmap_singleton, lookup_singleton_ne by done. done.
Qed.

Lemma market_conserves_witness :
  exists d1 d2, ex_ask bank = Ok (0, d1) /\ ex_bid d1 = Ok (1, d2) /\
    balance_of d2 10 5 = 98 /\ balance_of d2 20 0 = 350 /\
    (exists dd, asset_dynamic_data d2 !! 5 = Some dd /\ accumulated_fees dd = 1) /\
    market_inv d2 /\ forall aid, supply aid (ledger_of d2) = supply aid (ledger_of bank).
Proof.
  destruct (ex_ask bank) as [[i1 d1]|e] eqn:E1; [|exfalso; vm_compute in E1; discriminate E1].
  assert (ex_bid d1 = match ex_ask bank with Ok (_, d) => ex_bid d | Throw e => Throw e end) as E2
    by (rewrite E1; reflexivity).
  destruct (ex_bid d1) as [[i2 d2]|e] eqn:E3; [|exfalso; vm_compute in E2; discriminate E2].
  assert (i1 = 0) as -> by (vm_compute in E1; injection E1 as E _; symmetry; exact E).
  assert (i2 = 1) as -> by (vm_compute in E2; injection E2 as E _; exact E).
  exists d1, d2. split; [reflexivity|]. split; [exact E3|].
  assert (balance_of d2 10 5 = 98 /\ balance_of d2 20 0 = 350 /\
    (exists dd, asset_dynamic_data d2 !! 5 = Some dd /\ accumulated_fees dd = 1)) as (A & B & D).
  { vm_compute in E2. injection E2 as E. rewrite E. split; [reflexivity|]. split; [reflexivity|].
    eexists; split; reflexivity. }
  split; [exact A|]. split; [exact B|]. split; [exact D|].
  apply (@market_conserves fc_checked fc_checked_laws no_proxy bank d2); [|exact bank_market_inv].
  apply rtc_l with d1; [|apply rtc_once].
  - exact (market_create _ _ _ _ _ _ _ _ E1).
  - exact (market_create _ _ _ _ _ _ _ _ E3).
Defined.

(** * Matching two orders

    The arithmetic of [match]: what the two sides of a match exchange, at the
    price of the order on the book. *)
(** ** Rounding *)
Lemma small_when_crossed n qt bt b q :
  0 <= n -> 0 < q -> 0 < bt -> qt * q <= b * bt -> n * b < q -> n * qt < bt.
Proof. intros. nia. Qed.

Lemma remainder_small x num den :
  0 <= x -> 0 < num -> 0 < den ->
  let x' := (x * num / den * den + num - 1) / num in (x - x') * num < den.
Proof.
  intros Hx Hn Hd x'. pose proof (Z.mul_succ_div_gt (x * num) den Hd).
  assert (x * num / den * den + num - 1 < num * Z.succ x') by (by apply Z.mul_succ_div_gt). nia.
Qed.

(** Selling [x] at [num / den] for [r], rounded down, and paying only the
    [x'] that [r] is worth, rounded up. *)
Lemma rounded_exchange x num den :
  0 <= x -> 0 < num -> 0 < den ->
  let r := x * num / den in
  let x' := (r * den + num - 1) / num in
  0 < r -> 0 < x' <= x /\ x' * num / den = r /\ r * den <= x' * num /\ (x - x') * num < den.
Proof.
  intros Hx Hn Hd r x' Hr. destruct (floor_ceil_floor x num den Hx Hn Hd) as [Hle Hfl].
  fold r in Hfl, Hle. fold x' in Hfl, Hle.
  pose proof (remainder_small x num den Hx Hn Hd) as Hrem. cbv zeta in Hrem. fold r in Hrem. fold x' in Hrem.
  assert (r * den + num - 1 < num * Z.succ x') by (by apply Z.mul_succ_div_gt).
  split_and!; [nia|lia|done|nia|done].
Qed.

Section conversions.
Context {F : FcInt} {FL : FcIntLaws F}.

Lemma mul_base a p : valid_price p -> asset_id a = asset_id (base p) -> is_amount (amount a) ->
  mul a p = bounded (amount a * amount (quote p) / amount (base p)) (asset_id (quote p)).
Proof.
  intros (Hb & Hq & _) Hid Ha. unfold mul. rewrite Hid, Z.eqb_refl.
  apply convert_down_eq; unfold is_amount in *; lia.
Qed.
Lemma mul_quote a p : valid_price p -> asset_id a = asset_id (quote p) -> is_amount (amount a) ->
  mul a p = bounded (amount a * amount (base p) / amount (quote p)) (asset_id (base p)).
Proof.
  intros (Hb & Hq & Hne) Hid Ha. unfold mul.
  rewrite Hid, Z.eqb_refl, (proj2 (Z.eqb_neq _ _)) by congruence.
  apply convert_down_eq; unfold is_amount in *; lia.
Qed.
Lemma round_up_base a p : valid_price p -> asset_id a = asset_id (base p) -> is_amount (amount a) ->
  multiply_and_round_up a p =
  bounded ((amount a * amount (quote p) + amount (base p) - 1) / amount (base p)) (asset_id (quote p)).
Proof.
  intros (Hb & Hq & _) Hid Ha. unfold multiply_and_round_up. rewrite Hid, Z.eqb_refl.
  apply convert_up_eq; unfold is_amount in *; lia.
Qed.
Lemma round_up_quote a p : valid_price p -> asset_id a = asset_id (quote p) -> is_amount (amount a) ->
  multiply_and_round_up a p =
  bounded ((amount a * amount (base p) + amount (quote p) - 1) / amount (quote p)) (asset_id (base p)).
Proof.
  intros (Hb & Hq & Hne) Hid Ha. unfold multiply_and_round_up.
  rewrite Hid, Z.eqb_refl, (proj2 (Z.eqb_neq _ _)) by congruence.
  apply convert_up_eq; unfold is_amount in *; lia.
Qed.
Lemma bounded_le v id : v <= MAX_SHARE_SUPPLY -> bounded v id = Ok (Asset v id).
Proof. intros. by apply bounded_ok. Qed.

Lemma leb_same a b : asset_id a = asset_id b -> leb a b = Ok (amount a <=? amount b).
Proof.
  intros Hid. unfold leb, ltb, eqb, same_asset. rewrite Hid, Z.eqb_refl. cbn.
  destruct (Z.eqb_spec (amount a) (amount b)), (Z.ltb_spec (amount a) (amount b)),
    (Z.leb_spec (amount a) (amount b)); done || lia.
Qed.

(** The opposite side of the book at a price the new order accepts. *)
Lemma crossing_ratio pt pm :
  valid_price pt -> valid_price pm -> price_gtb (inv pt) pm = false ->
  asset_id (base pt) = asset_id (quote pm) -> asset_id (quote pt) = asset_id (base pm) ->
  amount (quote pt) * amount (quote pm) <= amount (base pm) * amount (base pt).
Proof.
  intros Ht Hm Hg E1 E2. assert (valid_price (inv pt)) as Hi.
  { destruct Ht as (? & ? & ?). repeat split; cbn; lia || congruence. }
  unfold price_gtb, price_leb in Hg. apply negb_false_iff, orb_true_iff in Hg as [Hg|Hg].
  - apply price_eqb_eq in Hg as (_ & _ & Hg); [|done..]. cbn in Hg. lia.
  - apply price_ltb_lt in Hg; [|done..]. unfold price_lt_spec in Hg. cbn in Hg. lia.
Qed.
End conversions.

(** An order that [match] can meet: a valid price and a positive amount within
    the share supply. *)
Definition order_ok (o : limit_order_object) : Prop :=
  valid_price (sell_price o) /\ 0 < for_sale o <= MAX_SHARE_SUPPLY.
Definition leftover (o : limit_order_object) (paid : asset) : limit_order_object :=
  o <| for_sale := for_sale o - amount paid |>.

Section match_amounts.
Context {F : FcInt} {FL : FcIntLaws F}.

Lemma receive_zero o n :
  valid_price (sell_price o) -> 0 <= n < 2 ^ 63 ->
  n * amount (quote (sell_price o)) < amount (base (sell_price o)) ->
  amount_to_receive (o <| for_sale := n |>) = Ok (Asset 0 (receive_asset_id o)).
Proof.
  intros Hv Hn Hlt. unfold amount_to_receive. rewrite mul_base by done. cbn.
  rewrite Z.div_small by (unfold valid_price in Hv; nia). by apply bounded_le.
Qed.
End match_amounts.

(** C26. A match is fair and makes progress.  When the order on the book is not
    too small to sell anything and the new order accepts its price, computing a
    match never fails.  If the new order would get nothing, it is also worth
    nothing at its own price, so it will be culled.  Otherwise both sides
    exchange a positive amount of the right assets, neither pays more than it
    has, the side that is sold out pays the least that buys what it gets (so
    the other side gets at least the match price), and what is left of it is
    worth nothing at its own price: one of the two orders leaves the book. *)
Theorem match_amounts_fair {F : FcInt} {FL : FcIntLaws F} (taker maker : limit_order_object) (r : asset) :
  order_ok taker -> order_ok maker ->
  sell_asset_id taker = receive_asset_id maker -> receive_asset_id taker = sell_asset_id maker ->
  price_gtb (inv (sell_price taker)) (sell_price maker) = false ->
  amount_to_receive maker = Ok r -> 0 < amount r ->
  exists m, match_amounts taker maker (sell_price maker) = Ok m /\
  match m with
  | None => amount_to_receive taker = Ok (Asset 0 (receive_asset_id taker))
  | Some (x, y, cull_taker) =>
      asset_id x = receive_asset_id taker /\ asset_id y = receive_asset_id maker /\
      0 < amount x <= for_sale maker /\ 0 < amount y <= for_sale taker /\
      if cull_taker : bool
      then mul y (sell_price maker) = Ok x /\
           amount x * amount (quote (sell_price maker)) <= amount y * amount (base (sell_price maker)) /\
           amount_to_receive (leftover taker y) = Ok (Asset 0 (receive_asset_id taker))
      else mul x (sell_price maker) = Ok y /\
           amount y * amount (base (sell_price maker)) <= amount x * amount (quote (sell_price maker)) /\
           amount_to_receive (leftover maker x) = Ok (Asset 0 (receive_asset_id maker))
  end.
Proof.
  intros [Ht Hu] [Hm Hc] E1 E2 Hcr Hr Hr0.
  pose proof (crossing_ratio _ _ Ht Hm Hcr E1 E2) as Hx. pose proof Hm as (Hb & Hq & Hne).
  pose proof Ht as (Hbt & Hqt & _). unfold amount_to_receive in Hr. pose proof Hr as HL.
  rewrite mul_base in HL by (done || unfold is_amount; cbn; lia).
  apply bounded_ok in HL as [Hmax ->]. cbn [amount asset_id amount_for_sale] in Hmax, Hr0, Hr.
  unfold match_amounts. cbv zeta. rewrite Hr. cbn [mbind result_bind].
  rewrite leb_same by done. cbn [mbind result_bind amount amount_for_sale].
  set (b := amount (base (sell_price maker))) in *. set (q := amount (quote (sell_price maker))) in *.
  set (u := for_sale taker) in *. set (c := for_sale maker) in *.
  assert (c * q / b * b <= c * q) as HLb by (rewrite Z.mul_comm; apply Z.mul_div_le; lia).
  destruct (Z.leb_spec u (c * q / b)) as [Hle|Hgt]; cbv iota.
  - rewrite mul_quote by (done || unfold is_amount; cbn; lia). cbn [amount asset_id amount_for_sale].
    fold u b q. assert (u * b / q <= c) as Hbc by (apply Z.div_le_upper_bound; nia).
    rewrite bounded_le by lia. cbn [mbind result_bind amount].
    destruct (Z.eqb_spec (u * b / q) 0) as [H0|H0].
    + exists None. split; [done|]. apply (receive_zero taker u Ht ltac:(lia)). apply (small_when_crossed u _ _ b q); try lia.
      apply Z.div_small_iff in H0; lia.
    + assert (0 < u * b / q) as Hpos by (assert (0 <= u * b / q) by (apply Z.div_pos; lia); lia).
      destruct (rounded_exchange u b q ltac:(lia) ltac:(lia) ltac:(lia) Hpos) as (Hp & Hf & Hg & Hrem).
      rewrite round_up_base by (done || unfold is_amount; cbn; lia). cbn [amount asset_id]. fold b q.
      rewrite bounded_le by lia. cbn [mbind result_bind]. eexists. split; [reflexivity|].
      cbn [amount asset_id]. split_and!; try done; try lia.
      * rewrite mul_quote by (done || unfold is_amount; cbn; lia). cbn [amount]. fold b q.
        rewrite Hf. by apply bounded_le; lia.
      * apply receive_zero; [done|cbn [amount]; lia|]. cbn [amount].
        apply (small_when_crossed _ _ _ b q); lia.
  - destruct (rounded_exchange c q b ltac:(lia) ltac:(lia) ltac:(lia) Hr0) as (Hp & Hf & Hg & Hrem).
    rewrite round_up_quote by (done || unfold is_amount; cbn; lia). cbn [amount asset_id]. fold b q.
    rewrite bounded_le by lia. cbn [mbind result_bind]. eexists. split; [reflexivity|].
    cbn [amount asset_id]. split_and!; try done; try lia.
    + rewrite mul_base by (done || unfold is_amount; cbn; lia). cbn [amount]. fold b q.
      rewrite Hf. by apply bounded_le; lia.
    + apply receive_zero; [done|cbn [amount]; lia|]. cbn [amount]. done.
Qed.

(** An ask of 100 for 53 on the book meets a bid of 33 for 40. *)
Lemma match_amounts_fair_witness :
  exists m, match_amounts (F := fc_checked)
      {| expiration := 0; seller := 10; for_sale := 33; sell_price := Price (Asset 33 0) (Asset 40 5) |}
      {| expiration := 0; seller := 20; for_sale := 100; sell_price := Price (Asset 100 5) (Asset 53 0) |}
      (Price (Asset 100 5) (Asset 53 0)) = Ok (Some m) /\
    m = (Asset 62 5, Asset 33 0, true).
Proof.
  destruct (@match_amounts_fair fc_checked fc_checked_laws
    {| expiration := 0; seller := 10; for_sale := 33; sell_price := Price (Asset 33 0) (Asset 40 5) |}
    {| expiration := 0; seller := 20; for_sale := 100; sell_price := Price (Asset 100 5) (Asset 53 0) |}
    (Asset 53 0)) as (m & Hm & _); try (vm_compute; reflexivity).
  - unfold order_ok, valid_price; cbn; lia.
  - unfold order_ok, valid_price; cbn; lia.
  - vm_compute in Hm. injection Hm as <-. eexists. split; [|reflexivity]. vm_compute. reflexivity.
Defined.
