(* ===== verification/ScheduleProof.v ===== *)
(** * The schedule is fair

    Slots and times correspond; the witnesses of a round are the ones the
    indices put first; shuffling neither loses nor repeats a witness. *)
From S2P Require Import Prelude FlatMap FcInt Asset Pledge ChainState.
From S2P Require Import AccountStats Voter WitnessSchedule Frame.
Local Open Scope Z_scope.
Import asset pledge chain acc voter schedule.

(** ** Shuffling *)
Lemma swap_at_ok i j l :
  (i < length l)%nat -> (j < length l)%nat -> exists l', swap_at i j l = Ok l' /\ l' ≡ₚ l.
Proof.
  intros [x Hx]%lookup_lt_is_Some [y Hy]%lookup_lt_is_Some. unfold swap_at. rewrite Hx, Hy. cbn.
  eexists. split; [reflexivity|]. by apply Permutation_insert_swap.
Qed.

Lemma shuffle_ok now_hi n i l :
  (i + n = length l)%nat -> exists l', shuffle now_hi n i l = Ok l' /\ l' ≡ₚ l.
Proof.
  revert i l. induction n as [|n IH]; intros i l Hl; cbn [shuffle]; [eauto|].
  set (k := xorshift now_hi (Z.of_nat i) mod Z.of_nat (length l - i)).
  assert (0 <= k < Z.of_nat (length l - i)) as Hk by (apply Z.mod_pos_bound; lia).
  destruct (swap_at_ok i (i + Z.to_nat k) l) as (l1 & Hs & Hp); [lia..|]. rewrite Hs. cbn.
  destruct (IH (S i) l1) as (l2 & Hs2 & Hp2).
  { rewrite (Permutation_length Hp). lia. }
  exists l2. split; [done|]. by rewrite Hp2.
Qed.

(** ** A window of slots *)
Lemma mod_window (a n : Z) : 0 < n -> 0 <= a ->
  (fun k => Z.to_nat ((a + Z.of_nat k) mod n)) <$> seq 0 (Z.to_nat n) ≡ₚ seq 0 (Z.to_nat n).
Proof.
  intros Hn Ha. symmetry. apply submseteq_length_Permutation; [|by rewrite length_fmap].
  apply NoDup_submseteq; [apply NoDup_seq|]. intros i Hi%elem_of_seq. apply list_elem_of_fmap.
  exists (Z.to_nat ((Z.of_nat i - a) mod n)).
  pose proof (Z.mod_pos_bound (Z.of_nat i - a) n Hn) as Hb. split; [|apply elem_of_seq; lia].
  rewrite Z2Nat.id by lia. rewrite Zplus_mod_idemp_r.
  replace (a + (Z.of_nat i - a)) with (Z.of_nat i) by lia. rewrite Z.mod_small by lia. lia.
Qed.

Lemma mapM_window (l : list Z) (idx : list nat) :
  Forall (fun i => (i < length l)%nat) idx ->
  exists r, (fun i => deref (l !! i) undefined_behaviour) <$> idx = Ok <$> r /\
            r = (fun i => default 0 (l !! i)) <$> idx.
Proof.
  intros Hall. eexists. split; [|reflexivity]. rewrite <- list_fmap_compose.
  apply list_fmap_ext. intros k i Hi. rewrite Forall_forall in Hall.
  destruct (lookup_lt_is_Some_2 l i) as [x Hx]; [apply Hall; by eapply list_elem_of_lookup_2|].
  cbn. by rewrite Hx.
Qed.

Lemma lookup_all (l : list Z) : (fun i => default 0 (l !! i)) <$> seq 0 (length l) = l.
Proof.
  apply list_eq. intros i. rewrite list_lookup_fmap. destruct (decide (i < length l)%nat) as [Hi|Hi].
  - rewrite lookup_seq_lt by done. cbn. destruct (lookup_lt_is_Some_2 l i Hi) as [x ->]. done.
  - rewrite lookup_seq_ge by lia. cbn. symmetry. apply lookup_ge_None. lia.
Qed.

(** The witnesses of [length l] slots in a row are the shuffled witnesses. *)
Lemma window_of_slots s d :
  let l := current_shuffled_witnesses (witness_schedule d) in
  l <> [] -> 0 <= s -> 0 <= current_aslot (dgp d) ->
  current_aslot (dgp d) + s + Z.of_nat (length l) <= 2 ^ 64 ->
  exists r, (fun k => get_scheduled_witness (s + Z.of_nat k) d) <$> seq 0 (length l) = Ok <$> r /\ r ≡ₚ l.
Proof.
  intros l Hne Hs Ha Hov. set (a := current_aslot (dgp d) + s).
  assert (0 < Z.of_nat (length l)) as Hpos by (destruct l; cbn; [done|lia]).
  pose proof (mod_window a (Z.of_nat (length l)) Hpos ltac:(lia)) as Hperm. rewrite Nat2Z.id in Hperm.
  set (idx := _ <$> _) in Hperm.
  destruct (mapM_window l idx) as (r & Hr & Hr').
  { apply Forall_forall. intros i Hi. rewrite Hperm in Hi. apply elem_of_seq in Hi. lia. }
  exists r. split.
  - rewrite <- Hr. unfold idx. rewrite <- list_fmap_compose. apply list_fmap_ext.
    intros j k Hj. apply lookup_seq in Hj as [-> Hj]. unfold get_scheduled_witness. fold l. cbn [compose].
    destruct (Nat.eqb_spec (length l) 0); [lia|]. cbn [negb guard_ok mbind result_bind].
    f_equal. f_equal. f_equal. f_equal. unfold a. unfold u64. rewrite wrap_small; [|unfold is_uint; lia]. lia.
  - rewrite Hr', <- (lookup_all l) at 1. by rewrite Hperm.
Qed.

(** ** Choosing *)
Definition signs (x : Z * witness_object) : Prop := signing_key x.2 <> 0.
#[export] Instance signs_dec x : Decision (signs x).
Proof. unfold signs. apply _. Defined.
(** A witness that can still be chosen besides those of [B]. *)
Definition can_add (eligible : witness_object -> bool) (B : list Z) (x : Z * witness_object) : Prop :=
  signs x /\ x.1 ∉ B /\ eligible x.2 = true.
#[export] Instance can_add_dec eligible B x : Decision (can_add eligible B x).
Proof. unfold can_add. apply _. Defined.
Definition chosen_as (kind : scheduled_witness_type) (x : Z * witness_object) := (x.1, kind).

Lemma pick_top_spec max ws acc :
  fm_sorted acc -> NoDup ws.*1 -> (forall x, x ∈ ws -> x.1 ∉ acc.*1) ->
  fm_sorted (pick_top max ws acc) /\
  pick_top max ws acc ≡ₚ
    (chosen_as scheduled_by_vote_top <$> take (max - length acc) (filter signs ws)) ++ acc.
Proof.
  revert acc. induction ws as [|[uid w] ws IH]; intros acc Hs Hnd Hfresh; cbn [pick_top].
  { split; [done|]. by rewrite filter_nil, take_nil. }
  destruct (Nat.ltb_spec (length acc) max) as [Hlt|Hge].
  2: { split; [done|]. replace (max - length acc)%nat with 0%nat by lia. done. }
  cbn in Hnd. apply NoDup_cons in Hnd as [Huid Hnd]. destruct (Z.eqb_spec (signing_key w) 0) as [E|E]; cbn [negb].
  { rewrite filter_cons_False by (intros H; by apply H). apply IH; try done. intros x Hx. apply Hfresh. by right. }
  assert (fm_find uid acc = None) as Hf.
  { apply fm_find_None; [done|]. apply (Hfresh (uid, w)). by left. }
  pose proof (fm_emplace_new uid scheduled_by_vote_top acc Hf) as Hp.
  destruct (IH (fm_emplace uid scheduled_by_vote_top acc)) as [Hs' Hp'].
  - by apply fm_emplace_sorted.
  - done.
  - intros x Hx. rewrite Hp. cbn. rewrite not_elem_of_cons. split; [|by apply Hfresh; right].
    intros Heq. apply Huid. rewrite <- Heq. by apply list_elem_of_fmap_2.
  - split; [done|]. rewrite Hp', (Permutation_length Hp). rewrite filter_cons_True by done.
    replace (max - length acc)%nat with (S (max - length ((uid, scheduled_by_vote_top) :: acc))) by (cbn; lia).
    rewrite firstn_cons, fmap_cons. rewrite Hp. unfold chosen_as at 2. cbn [fst]. symmetry.
    apply Permutation_middle.
Qed.

Lemma pick_spec eligible kind scheduled max ws p B :
  fm_sorted (p_witnesses p) -> NoDup ws.*1 ->
  (forall x, x ∈ ws -> x.1 ∈ (p_witnesses p).*1 <-> x.1 ∈ B) ->
  let p' := pick eligible kind scheduled max ws p in
  let added := take (max - p_added p) (filter (can_add eligible B) ws) in
  fm_sorted (p_witnesses p') /\ p_witnesses p' ≡ₚ (chosen_as kind <$> added) ++ p_witnesses p /\
  p_added p' = (p_added p + length added)%nat.
Proof.
  revert p. induction ws as [|[uid w] ws IH]; intros p Hs Hnd HB; cbn [pick].
  { split; [done|]. rewrite filter_nil, take_nil. split; [done|]. cbn. lia. }
  destruct (Nat.ltb_spec (p_added p) max) as [Hlt|Hge].
  2: { split; [done|]. replace (max - p_added p)%nat with 0%nat by lia. split; [done|].
       cbn zeta. rewrite take_0. cbn. by rewrite Nat.add_0_r. }
  cbn in Hnd. apply NoDup_cons in Hnd as [Huid Hnd].
  assert (uid ∈ (p_witnesses p).*1 <-> uid ∈ B) as Hu by (apply (HB (uid, w)); by left).
  assert (forall x, x ∈ ws -> x.1 ∈ (p_witnesses p).*1 <-> x.1 ∈ B) as HB' by (intros; apply HB; by right).
  set (new := _ && _ && _).
  assert (new = true <-> can_add eligible B (uid, w)) as Hnew.
  { unfold new, can_add, signs. rewrite !andb_true_iff, negb_true_iff, Z.eqb_neq. cbn [fst snd].
    rewrite <- Hu, <- (fm_find_None uid _ Hs). destruct (fm_find uid (p_witnesses p)); naive_solver. }
  cbv zeta. destruct new.
  - assert (fm_find uid (p_witnesses p) = None) as Hf.
    { apply fm_find_None; [done|]. rewrite Hu. by apply Hnew. }
    pose proof (fm_emplace_new uid kind _ Hf) as Hp.
    edestruct IH as (Hs' & Hp' & Ha'); [|exact Hnd| |split; [exact Hs'|]].
    + by apply fm_emplace_sorted.
    + intros x Hx. cbn [p_witnesses]. rewrite Hp. cbn. rewrite elem_of_cons, HB' by done.
      split; [|auto]. intros [Heq|]; [|done]. destruct Huid. rewrite <- Heq. by apply list_elem_of_fmap_2.
    + cbn [p_added p_witnesses] in Hp', Ha'. rewrite filter_cons_True by (by apply Hnew).
      replace (max - p_added p)%nat with (S (max - S (p_added p))) by lia.
      rewrite firstn_cons, fmap_cons, length_cons. split; [|lia]. rewrite Hp', Hp. symmetry.
      apply Permutation_middle.
  - rewrite filter_cons_False by (intros Hc%Hnew; done).
    exact (IH {| p_witnesses := p_witnesses p; p_added := p_added p;
                 p_processed := p_processed p ++ [uid]; p_time := scheduled w |} Hs Hnd HB').
Qed.

Lemma filter_sublist {A} (P : A -> Prop) `{forall x, Decision (P x)} (l : list A) :
  filter P l `sublist_of` l.
Proof.
  induction l as [|x l IH]; [by rewrite filter_nil|]. destruct (decide (P x)).
  - rewrite filter_cons_True by done. by apply sublist_skip.
  - rewrite filter_cons_False by done. by apply sublist_cons.
Qed.

Lemma ranked_nodup key d : NoDup (ranked key d).*1.
Proof.
  unfold ranked. rewrite merge_sort_Permutation.
  eapply (sublist_NoDup _ _ (NoDup_fst_map_to_list (witnesses d))).
  apply fmap_sublist, filter_sublist.
Qed.
Lemma ranked_sorted key d : StronglySorted (rank_le key) (ranked key d).
Proof.
  apply StronglySorted_merge_sort.
  - intros x y z. unfold rank_le. lia.
  - intros x y. unfold rank_le. lia.
Qed.
Lemma ranked_in key d uid w :
  (uid, w) ∈ ranked key d <-> witnesses d !! uid = Some w /\ w_is_valid w = true.
Proof.
  unfold ranked. rewrite merge_sort_Permutation, list_elem_of_filter, elem_of_map_to_list. tauto.
Qed.

(** ** What the parts of a reschedule leave alone *)
Definition without_votes (w : witness_object) : witness_object :=
  w <| by_vote_position := 0 |> <| by_vote_position_last_update := 0 |> <| by_vote_scheduled_time := 0 |>.
(** All that the choice by pledge reads: the witnesses but for their place in
    the schedule by vote, the parameters and the virtual time by pledge. *)
Definition pledge_part (d : database) :=
  (without_votes <$> witnesses d, params d, dgp d,
   current_by_pledge_time (witness_schedule d), next_schedule_block_num (witness_schedule d)).
Definition round_part (d : database) :=
  (params d, dgp d, next_schedule_block_num (witness_schedule d)).

Lemma schedule_mfor {X A} (p : database -> X) (f : A -> M database unit) l :
  (forall x, keeps p (f x)) -> keeps p (mfor f l).
Proof.
  intros Hf. induction l as [|x l IH]; cbn [mfor]; [apply keeps_ret|by apply keeps_bind].
Qed.

Section keeps.
Context {F : FcInt}.

Lemma keeps_vote_change uid f :
  (forall w w', f w = Ok w' -> without_votes w' = without_votes w) ->
  keeps pledge_part (modify_witness uid f).
Proof.
  intros Hf d u d' H. unfold modify_witness in H. inv_ok. unfold pledge_part. cbn.
  f_equal. f_equal. f_equal. f_equal. rewrite fmap_insert. apply insert_id.
  rewrite lookup_fmap. match goal with H : witnesses d !! uid = Some _ |- _ => rewrite H end.
  cbn. f_equal. symmetry. by apply Hf.
Qed.
Lemma keeps_round_modify uid f : keeps round_part (modify_witness uid f).
Proof. intros d u d' H. unfold modify_witness in H. by inv_ok. Qed.
#[local] Hint Resolve keeps_round_modify : keeps.

Lemma keeps_advance_by_vote now uids : keeps pledge_part (advance_by_vote now uids).
Proof.
  induction uids as [|uid uids IH]; cbn [advance_by_vote]; [apply keeps_ret|].
  keep. apply keeps_vote_change. intros w w' [= <-]. by destruct w.
Qed.
Lemma keeps_upd {X} (p : database -> X) g : (forall d, p (g d) = p d) -> keeps p (upd g).
Proof. intros Hg d u d' [= _ <-]. apply Hg. Qed.
Lemma keeps_restart_by_vote p : keeps pledge_part (restart_by_vote p).
Proof.
  unfold restart_by_vote, reset_witness_by_vote_schedule. apply keeps_when, keeps_bind;
    [apply keeps_advance_by_vote|intros overflow].
  destruct overflow; [|by apply keeps_upd].
  apply keeps_bind; [by apply keeps_upd|intros []]. apply keeps_bind; [apply keeps_get|intros d].
  apply schedule_mfor. intros x. apply keeps_vote_change. intros w w' (t & _ & [= <-])%bind_ok. by destruct w.
Qed.
Lemma keeps_advance_by_pledge now uids : keeps round_part (advance_by_pledge now uids).
Proof. induction uids as [|uid uids IH]; cbn [advance_by_pledge]; keep. Qed.
Lemma keeps_restart_by_pledge p : keeps round_part (restart_by_pledge p).
Proof.
  unfold restart_by_pledge, reset_witness_by_pledge_schedule. apply keeps_when, keeps_bind;
    [apply keeps_advance_by_pledge|intros overflow].
  destruct overflow; [|by apply keeps_upd].
  apply keeps_bind; [by apply keeps_upd|intros []]. apply keeps_bind; [apply keeps_get|intros d].
  apply schedule_mfor. intros x. apply keeps_round_modify.
Qed.

Lemma shuffle_witnesses_ok d u d' :
  shuffle_witnesses d = Ok (u, d') ->
  let l := current_shuffled_witnesses (witness_schedule d') in
  l ≡ₚ (active_witnesses d).*1 /\ active_witnesses d' = active_witnesses d /\ dgp d' = dgp d /\
  next_schedule_block_num (witness_schedule d')
    = u32 (next_schedule_block_num (witness_schedule d) + Z.of_nat (length l)).
Proof.
  intros H. unfold shuffle_witnesses in H. peel H as d0 Hg. peel H as l Hl. injection H as _ <-.
  cbn. destruct (shuffle_ok (u64 (Z.shiftl (head_block_time d) 32)) (length (active_witnesses d).*1) 0
    (active_witnesses d).*1 eq_refl) as (l' & Hl' & Hp).
  rewrite Hl in Hl'. by injection Hl' as <-.
Qed.
End keeps.

(** ** Rescheduling *)
Section reschedule.
Context {F : FcInt}.

Definition eligible_by_pledge (d : database) (w : witness_object) : bool :=
  (min_witness_block_produce_pledge (params d) <=? w_pledge w) || (head_block_time d <? HARDFORK_0_4_TIME).

(** The three choices of a round. *)
Definition top_choice (d : database) : list (Z * witness_object) :=
  take (by_vote_top_witness_count (params d)) (filter signs (by_votes d)).
Definition rest_choice (d : database) : list (Z * witness_object) :=
  take (by_vote_rest_witness_count (params d))
    (filter (can_add (fun _ => true) (top_choice d).*1) (by_vote_schedule d)).
Definition pledge_choice (d d1 : database) : list (Z * witness_object) :=
  take (by_pledge_witness_count (params d))
    (filter (can_add (eligible_by_pledge d) ((rest_choice d).*1 ++ (top_choice d).*1))
       (by_pledge_schedule d1)).

Lemma chosen_uids kind l : (chosen_as kind <$> l).*1 = l.*1.
Proof. by rewrite <- list_fmap_compose. Qed.

Lemma choose_top_spec d :
  fm_sorted (choose_top d) /\ choose_top d ≡ₚ chosen_as scheduled_by_vote_top <$> top_choice d.
Proof.
  destruct (pick_top_spec (by_vote_top_witness_count (params d)) (by_votes d) []) as [Hs Hp].
  - done.
  - apply ranked_nodup.
  - intros x _. apply not_elem_of_nil.
  - split; [done|]. unfold choose_top. rewrite Hp, app_nil_r. cbn [length]. by rewrite Nat.sub_0_r.
Qed.

Lemma choose_by_vote_spec d :
  let p := choose_by_vote d (choose_top d) in
  fm_sorted (p_witnesses p) /\
  p_witnesses p ≡ₚ (chosen_as scheduled_by_vote_rest <$> rest_choice d) ++
                   (chosen_as scheduled_by_vote_top <$> top_choice d).
Proof.
  destruct (choose_top_spec d) as [Hs Hp].
  edestruct (pick_spec (fun _ => true) scheduled_by_vote_rest by_vote_scheduled_time
    (by_vote_rest_witness_count (params d)) (by_vote_schedule d)
    {| p_witnesses := choose_top d; p_added := 0; p_processed := [];
       p_time := current_by_vote_time (witness_schedule d) |} (top_choice d).*1) as (Hs' & Hp' & _).
  - done.
  - apply ranked_nodup.
  - intros x _. cbn [p_witnesses]. by rewrite Hp, chosen_uids.
  - cbn [p_added p_witnesses] in Hp'. rewrite Nat.sub_0_r in Hp'.
    split; [exact Hs'|]. unfold choose_by_vote. by rewrite Hp', Hp.
Qed.

Lemma choose_by_pledge_spec d d1 :
  params d1 = params d -> dgp d1 = dgp d ->
  let p := choose_by_pledge d1 (p_witnesses (choose_by_vote d (choose_top d))) in
  fm_sorted (p_witnesses p) /\
  p_witnesses p ≡ₚ (chosen_as scheduled_by_pledge <$> pledge_choice d d1) ++
                   (chosen_as scheduled_by_vote_rest <$> rest_choice d) ++
                   (chosen_as scheduled_by_vote_top <$> top_choice d).
Proof.
  intros Hpar Hdgp. destruct (choose_by_vote_spec d) as [Hs Hp].
  edestruct (pick_spec (eligible_by_pledge d) scheduled_by_pledge by_pledge_scheduled_time
    (by_pledge_witness_count (params d)) (by_pledge_schedule d1)
    {| p_witnesses := p_witnesses (choose_by_vote d (choose_top d)); p_added := 0; p_processed := [];
       p_time := current_by_pledge_time (witness_schedule d1) |}
    ((rest_choice d).*1 ++ (top_choice d).*1)) as (Hs' & Hp' & _).
  - done.
  - apply ranked_nodup.
  - intros x _. cbn [p_witnesses]. by rewrite Hp, fmap_app, !chosen_uids.
  - cbn [p_added p_witnesses] in Hp'. rewrite Nat.sub_0_r in Hp'.
    unfold choose_by_pledge, head_block_time. rewrite Hpar, Hdgp.
    split; [exact Hs'|]. etransitivity; [exact Hp'|]. by rewrite Hp.
Qed.

(** The result of a reschedule, in one lemma. *)
Lemma reschedule d d' u :
  update_witness_schedule d = Ok (u, d') ->
  next_schedule_block_num (witness_schedule d) <= head_block_num d ->
  let l := current_shuffled_witnesses (witness_schedule d') in
  fm_sorted (active_witnesses d') /\ l ≡ₚ (active_witnesses d').*1 /\
  current_aslot (dgp d') = current_aslot (dgp d) /\
  next_schedule_block_num (witness_schedule d')
    = u32 (next_schedule_block_num (witness_schedule d) + Z.of_nat (length l)) /\
  exists d1, pledge_part d1 = pledge_part d /\
    active_witnesses d' ≡ₚ (chosen_as scheduled_by_pledge <$> pledge_choice d d1) ++
                           (chosen_as scheduled_by_vote_rest <$> rest_choice d) ++
                           (chosen_as scheduled_by_vote_top <$> top_choice d).
Proof.
  intros H Hdue. unfold update_witness_schedule in H. peel H as d0 Hg.
  rewrite (proj2 (Z.leb_le _ _) Hdue) in H. cbv zeta in H.
  step H as u1 d1 H1. apply keeps_restart_by_vote in H1. peel H as dd Hg1.
  step H as u2 d2 H2. apply keeps_restart_by_pledge in H2.
  step H as u3 d3 H3. injection H3 as _ <-. peel H as dd2 Hg2. peel H as pay Hpay.
  step H as u4 d4 H4. injection H4 as _ <-.
  apply shuffle_witnesses_ok in H as (Hp & Ha & Hd & Hn). cbn in Hp, Ha, Hd, Hn.
  pose proof H1 as H1'. unfold pledge_part in H1. injection H1 as _ Hpar Hdgp _ Hnext.
  unfold round_part in H2. injection H2 as _ Hdgp2 Hnext2.
  destruct (choose_by_pledge_spec d d1 Hpar Hdgp) as [Hs Hc].
  rewrite Ha, Hd, Hn, Hnext2, Hnext. cbn. rewrite Hdgp2, Hdgp. eauto 10.
Qed.
End reschedule.

(** ** Slots and times *)
Definition slot_base (d : database) : Z :=
  if head_block_num d =? 0 then time (dgp d)
  else head_block_time d / block_interval (params d) * block_interval (params d).
Definition slot_skip (d : database) : Z :=
  if head_block_num d =? 0 then 0
  else (if maintenance_flag (dgp d) then maintenance_skip_slots (params d) else 0) +
       (if content_award_skip_flag (dgp d) then content_award_skip_slots (params d) else 0).
(** The clock works up to slot [n]: nothing overflows 32 bits. *)
Definition clock_ok (n : Z) (d : database) : Prop :=
  0 < block_interval (params d) /\ 0 <= time (dgp d) /\
  0 <= maintenance_skip_slots (params d) /\ 0 <= content_award_skip_slots (params d) /\
  slot_base d + (n + slot_skip d) * block_interval (params d) < 2 ^ 32.

Lemma clock_le m n d : m <= n -> clock_ok n d -> clock_ok m d.
Proof.
  intros Hmn (Hi & Ht & Hm & Hc & Hov). repeat split; try done.
  assert ((m + slot_skip d) * block_interval (params d) <= (n + slot_skip d) * block_interval (params d));
    [apply Z.mul_le_mono_nonneg_r; lia|lia].
Qed.

Lemma slot_time n d :
  clock_ok n d -> 1 <= n ->
  get_slot_time n d = Ok (slot_base d + (n + slot_skip d) * block_interval (params d)).
Proof.
  intros (Hi & Ht & Hm & Hc & Hov) Hn. unfold get_slot_time, slot_base, slot_skip, head_block_time in *.
  set (b := block_interval (params d)) in *.
  rewrite (proj2 (Z.eqb_neq n 0)) by lia. destruct (head_block_num d =? 0).
  - unfold time_add, u32. rewrite (wrap_small 32 (n * b)) by (unfold is_uint; nia).
    rewrite wrap_small by (unfold is_uint; nia). f_equal. lia.
  - rewrite (proj2 (Z.eqb_neq b 0)) by lia. cbn [negb guard_ok mbind result_bind]. cbv zeta.
    assert (0 <= time (dgp d) / b * b <= time (dgp d)) as Hq.
    { pose proof (Z.mul_div_le (time (dgp d)) b Hi). pose proof (Z.div_pos (time (dgp d)) b Ht Hi). nia. }
    set (q := time (dgp d) / b * b) in *. unfold time_add, u32.
    set (m := maintenance_skip_slots (params d)) in *. set (c := content_award_skip_slots (params d)) in *.
    assert (0 <= m * b /\ 0 <= c * b /\ 0 < n * b) as (Hmb & Hcb & Hnb) by nia.
    assert (forall s, (n <= s -> s * b < 2 ^ 32 -> wrap 32 s = s)) as Hw
      by (intros; apply wrap_small; unfold is_uint; nia).
    assert (forall s, q + s * b < 2 ^ 32 -> n <= s -> wrap 32 (wrap 32 q + wrap 32 (s * b)) = q + s * b) as Hf.
    { intros s Hs Hns. rewrite (wrap_small 32 q), (wrap_small 32 (s * b)), wrap_small; unfold is_uint; nia. }
    destruct (maintenance_flag (dgp d)), (content_award_skip_flag (dgp d));
      rewrite ?(Hw (n + m)), ?(Hw (n + m + c)), ?(Hw (n + c)) by lia; rewrite Hf by lia; f_equal; lia.
Qed.

Lemma slot_at n w d :
  clock_ok n d -> 1 <= n -> n < 2 ^ 32 ->
  let t := slot_base d + (n + slot_skip d) * block_interval (params d) in
  t <= w < t + block_interval (params d) -> get_slot_at_time w d = Ok n.
Proof.
  intros Hok Hn Hn32 t Hw. unfold get_slot_at_time. rewrite (slot_time 1) by (try lia; by eapply clock_le).
  destruct Hok as (Hi & _). unfold t in *. clear t. set (b := block_interval (params d)) in *.
  set (s := slot_base d) in *. set (k := slot_skip d) in *. cbn [mbind result_bind].
  rewrite (proj2 (Z.ltb_ge _ _)) by nia. rewrite (proj2 (Z.eqb_neq b 0)) by lia.
  cbn [negb guard_ok mbind result_bind].
  assert ((w - (s + (1 + k) * b)) / b = n - 1) as -> by (symmetry; apply (Z.div_unique _ _ _ (w - (s + (n + k) * b))); nia).
  f_equal. unfold u32. rewrite wrap_small; [lia|]. unfold is_uint. lia.
Qed.

(** C27. Slots and times correspond.  Slot [n] starts at a time after the head
    block, [n] intervals after the head's slot and as many more as slots are skipped when the head
    block was a maintenance block or paid the awards for content (so then it is not the [n]th next
    aligned time, see [slot_after_maintenance]); every
    time within its interval is at slot [n], and times before the first slot
    are at slot 0.  The interval is positive and the times fit 32 bits ([clock_ok]). *)
Theorem slot_time_roundtrip (n : Z) (d : database) :
  clock_ok n d -> 1 <= n < 2 ^ 32 ->
  exists t, get_slot_time n d = Ok t /\
    t = slot_base d + (n + slot_skip d) * block_interval (params d) /\ head_block_time d < t /\
    (forall w, t <= w < t + block_interval (params d) -> get_slot_at_time w d = Ok n) /\
    (forall t1 w, get_slot_time 1 d = Ok t1 -> w < t1 -> get_slot_at_time w d = Ok 0).
Proof.
  intros Hok Hn. eexists. split; [by apply slot_time; [|lia]|]. split; [done|]. split_and!.
  - destruct Hok as (Hi & Ht & Hm & Hc & _). unfold slot_base, slot_skip, head_block_time.
    set (b := block_interval (params d)) in *. destruct (head_block_num d =? 0); [nia|].
    pose proof (Z.mul_succ_div_gt (time (dgp d)) b Hi).
    destruct (maintenance_flag (dgp d)), (content_award_skip_flag (dgp d)); nia.
  - intros w Hw. apply slot_at; try done; lia.
  - intros t1 w Ht1 Hw. unfold get_slot_at_time. rewrite Ht1. cbn [mbind result_bind].
    by rewrite (proj2 (Z.ltb_lt _ _) Hw).
Qed.

(** After a maintenance block the first slot is not the next time aligned to the interval. *)
Example slot_after_maintenance :
  let d := sample_db <| dgp ::= fun g => g <| maintenance_flag := true |> |>
             <| params ::= fun p => p <| maintenance_skip_slots := 3 |> |> in
  get_slot_time 1 sample_db = Ok 1600000002 /\ get_slot_time 1 d = Ok 1600000011.
Proof. vm_compute. split; reflexivity. Qed.

Lemma slot_time_roundtrip_witness :
  get_slot_time 7 sample_db = Ok 1600000020 /\ get_slot_at_time 1600000021 sample_db = Ok 7.
Proof.
  destruct (slot_time_roundtrip 7 sample_db) as (t & Ht & Heq & _ & Hat & _).
  - unfold clock_ok. repeat split; vm_compute; (reflexivity || discriminate).
  - lia.
  - vm_compute in Heq. rewrite Heq in *. split; [exact Ht|]. apply Hat.
    split; vm_compute; (reflexivity || discriminate).
Defined.

(** C28. A reschedule picks the right witnesses.  When a round is over, the new
    witnesses are: the valid witnesses with a signing key that have most votes;
    then, among the others, those first in the schedule by vote; then, among
    the rest with enough pledge, those first in the schedule by pledge, each
    up to its number and labelled with how it was chosen.  (The schedule by
    pledge is read after the schedule by vote advanced, which changes nothing
    it depends on.)  Nobody is chosen twice, the shuffled list is a permutation
    of the chosen, and the next round starts after as many blocks. *)
Theorem update_witness_schedule_chooses {F : FcInt} (d d' : database) (u : unit) :
  update_witness_schedule d = Ok (u, d') ->
  next_schedule_block_num (witness_schedule d) <= head_block_num d ->
  let shuffled := current_shuffled_witnesses (witness_schedule d') in
  (exists d1, pledge_part d1 = pledge_part d /\
     active_witnesses d' ≡ₚ (chosen_as scheduled_by_pledge <$> pledge_choice d d1) ++
                            (chosen_as scheduled_by_vote_rest <$> rest_choice d) ++
                            (chosen_as scheduled_by_vote_top <$> top_choice d)) /\
  StronglySorted (rank_le (fun w => - w_total_votes w)) (by_votes d) /\
  shuffled ≡ₚ (active_witnesses d').*1 /\ NoDup shuffled /\
  next_schedule_block_num (witness_schedule d')
    = u32 (next_schedule_block_num (witness_schedule d) + Z.of_nat (length shuffled)).
Proof.
  intros H Hdue. destruct (reschedule _ _ _ H Hdue) as (Hs & Hp & _ & Hn & Hc).
  split; [exact Hc|]. split; [apply ranked_sorted|]. split; [exact Hp|]. split; [|exact Hn].
  rewrite Hp. by apply fm_sorted_nodup.
Qed.

(** C29. Every witness of a round gets the same number of slots: from any slot
    on, the current slot 0 included (which has a witness too, see
    [slot_zero_has_witness]), as many consecutive slots as there are witnesses are assigned to
    pairwise different witnesses, each of the active ones exactly once. *)
Theorem every_witness_once_per_round {F : FcInt} (d d' : database) (u : unit) (s : Z) :
  update_witness_schedule d = Ok (u, d') ->
  next_schedule_block_num (witness_schedule d) <= head_block_num d ->
  active_witnesses d' <> [] -> 0 <= s -> 0 <= current_aslot (dgp d) ->
  current_aslot (dgp d) + s + Z.of_nat (length (active_witnesses d')) <= 2 ^ 64 ->
  exists r, (fun k => get_scheduled_witness (s + Z.of_nat k) d') <$> seq 0 (length (active_witnesses d'))
              = Ok <$> r /\
            r ≡ₚ (active_witnesses d').*1 /\ NoDup r.
Proof.
  intros H Hdue Hne Hs Ha Hov. destruct (reschedule _ _ _ H Hdue) as (Hsort & Hp & Haslot & _ & _).
  pose proof (Permutation_length Hp) as Hlen. rewrite length_fmap in Hlen. rewrite <- Hlen in *.
  destruct (window_of_slots s d') as (r & Hr & Hrp); [|done|lia|rewrite Haslot; exact Hov|].
  - intros E. rewrite E in Hp. symmetry in Hp. apply Permutation_nil_r in Hp. by apply fmap_nil_inv in Hp.
  - exists r. split; [exact Hr|]. rewrite Hrp, Hp. split; [done|]. by apply fm_sorted_nodup.
Qed.

(** Five witnesses: two by most votes, one by vote, one by pledge; one of the
    five has no signing key. *)
Definition ex_witness (key votes vote_time pledge pledge_time : Z) : witness_object :=
  new_witness <| w_sequence := 1 |> <| signing_key := key |> <| w_pledge := pledge |>
    <| average_pledge := pledge |> <| w_total_votes := votes |>
    <| by_pledge_scheduled_time := pledge_time |> <| by_vote_scheduled_time := vote_time |>.
Definition ex_round : database :=
  sample_db <| witnesses := {[ 11 := ex_witness 1 900 5 1000 9; 12 := ex_witness 0 800 6 1000 1;
                               13 := ex_witness 1 700 7 1000 8; 14 := ex_witness 1 600 3 1000 2;
                               15 := ex_witness 1 500 4 1000 6 ]} |>.

Lemma update_witness_schedule_chooses_witness :
  exists d', @update_witness_schedule fc_checked ex_round = Ok (tt, d') /\
    (active_witnesses d').*1 = [11; 13; 14; 15] /\
    NoDup (current_shuffled_witnesses (witness_schedule d')).
Proof.
  destruct (@update_witness_schedule fc_checked ex_round) as [[[] d']|e] eqn:E;
    [|exfalso; vm_compute in E; discriminate E].
  exists d'. split; [reflexivity|]. split.
  - vm_compute in E. injection E as <-. vm_compute. reflexivity.
  - apply (@update_witness_schedule_chooses fc_checked ex_round d' tt E).
    vm_compute. discriminate.
Defined.

Lemma every_witness_once_per_round_witness :
  exists d' r, @update_witness_schedule fc_checked ex_round = Ok (tt, d') /\
    (fun k => get_scheduled_witness (1 + Z.of_nat k) d') <$> seq 0 4 = Ok <$> r /\
    r ≡ₚ [11; 13; 14; 15].
Proof.
  destruct (@update_witness_schedule fc_checked ex_round) as [[[] d']|e] eqn:E;
    [|exfalso; vm_compute in E; discriminate E].
  assert (active_witnesses d' = [(11, scheduled_by_vote_top); (13, scheduled_by_vote_top);
    (14, scheduled_by_vote_rest); (15, scheduled_by_pledge)]) as Ha
    by (vm_compute in E; injection E as <-; vm_compute; reflexivity).
  destruct (@every_witness_once_per_round fc_checked ex_round d' tt 1 E) as (r & Hr & Hp & _).
  - vm_compute. discriminate.
  - rewrite Ha. discriminate.
  - lia.
  - vm_compute. discriminate.
  - rewrite Ha. vm_compute. discriminate.
  - rewrite Ha in Hr, Hp. exists d', r. split; [reflexivity|]. split; [exact Hr|exact Hp].
Defined.

(** Slot 0 has an active witness as well, that of the current slot. *)
Example slot_zero_has_witness :
  (fun x => get_scheduled_witness 0 x.2) <$> @update_witness_schedule fc_checked ex_round = Ok (Ok 11).
Proof. vm_compute. reflexivity. Qed.
