(* ===== verification/Fee.v ===== *)
(** * Fees (evaluator.cpp, evaluator.hpp, protocol/base.hpp, protocol/operations.cpp,
      fee_schedule.cpp)

    Every operation carries a fee, paid from the balance, the prepaid coins or
    the coin-seconds of its payer.  The evaluator of an operation checks the
    fee before it evaluates the operation and takes it after it applied it:
    coins paid as fee leave the supply. *)
From S2P Require Import Prelude FlatMap FcInt Asset Pledge ChainState.
From S2P Require Import AccountStats Voter Balance Transfer.
Local Open Scope Z_scope.
Import asset pledge chain acc voter balance transfer.

Module fee.
#[local] Notation M := (M database).

(** [fee_extension_type] and [fee_type]. *)
Record fee_extension_type := {
  fee_from_balance : option asset; fee_from_prepaid : option asset; fee_from_csaf : option asset }.
Record fee_type := { fee_total : asset; fee_options : option fee_extension_type }.

(** The members every [fee_parameters_type] has for the real part of a fee. *)
Record fee_parameters := { min_real_fee : Z; min_rf_percent : Z }.

(** What [prepare_fee] stores in members of the evaluator. *)
Record prepared_fee := {
  fee_from_account : asset;
  total_fee_paid : Z;
  paid_from_balance : Z;
  paid_from_prepaid : Z;
  paid_from_csaf : Z;
}.

(** The flags of [transaction_evaluation_state]. *)
Record eval_state := { skip_fee : bool; skip_fee_schedule_check : bool }.

Definition fee_part (p : option asset) : Z := match p with Some a => amount a | None => 0 end.

Section ops.
Context {F : FcInt} {C : ChainConfig}.

(** ** What a fee must be *)
Definition calculate_data_fee (bytes price_per_kbyte : Z) : result Z :=
  r ← u128_div (u128_mul (u128_of bytes) price_per_kbyte) 1024;
  guard_ok (r <=? MAX_SHARE_SUPPLY) assert_exception ;;
  Ok (u128_to_u64 r).

Definition calculate_fee_pair (fee : Z) (params : fee_parameters) : result (Z * Z) :=
  guard_ok (fee <=? MAX_SHARE_SUPPLY) assert_exception ;;
  min_percent_fee ← u128_div (u128_mul (u128_of fee) (min_rf_percent params)) PERCENT_100;
  let real := i64 (Z.max (min_real_fee params) (u128_to_u64 min_percent_fee)) in
  guard_ok (real <=? MAX_SHARE_SUPPLY) assert_exception ;;
  Ok (fee, real).

(** [set_fee_with_csaf_visitor]: pay as much as possible with coin-seconds. *)
Definition set_fee_with_csaf (fee_pair : Z * Z) : result fee_type :=
  max_csaf ← safe_sub (fee_pair.1) (fee_pair.2);
  if 0 <? max_csaf then
    rest ← (if max_csaf <? fee_pair.1 then x ← safe_sub (fee_pair.1) max_csaf; Ok (Some x)
            else Ok None);
    Ok {| fee_total := Asset (fee_pair.1) CORE_ASSET_AID;
          fee_options := Some {| fee_from_balance := (fun x => Asset x CORE_ASSET_AID) <$> rest;
                                 fee_from_prepaid := None;
                                 fee_from_csaf := Some (Asset max_csaf CORE_ASSET_AID) |} |}
  else Ok {| fee_total := Asset (fee_pair.1) CORE_ASSET_AID; fee_options := None |}.

(** ** Validation *)
Definition validate_fee_asset (a : asset) : result unit :=
  guard_ok (asset_id a =? CORE_ASSET_AID) assert_exception ;;
  guard_ok (0 <=? amount a) assert_exception.
Definition add_fee_part (total : asset) (p : option asset) : result asset :=
  match p with
  | Some a => validate_fee_asset a ;; add total a
  | None => Ok total
  end.
Definition validate_op_fee (fee : fee_type) : result unit :=
  validate_fee_asset (fee_total fee) ;;
  match fee_options fee with
  | None => Ok tt
  | Some fov =>
      total ← add_fee_part (Asset 0 CORE_ASSET_AID) (fee_from_balance fov);
      total ← add_fee_part total (fee_from_prepaid fov);
      total ← add_fee_part total (fee_from_csaf fov);
      guard_ok (amount total =? amount (fee_total fee)) assert_exception
  end.

(** The authorities of the payer that may pay the fee, each sufficient: none
    are needed for no fee, and coins of the balance need owner or active. *)
Inductive payer_authority := owner_auth | active_auth | secondary_auth.
Definition fee_authorities (fee : fee_type) : option (list payer_authority) :=
  if amount (fee_total fee) =? 0 then None
  else
    match fee_options fee with
    | None => Some [owner_auth; active_auth]
    | Some fov => match fee_from_balance fov with
                  | Some a => if amount a =? 0 then Some [owner_auth; active_auth; secondary_auth]
                              else Some [owner_auth; active_auth]
                  | None => Some [owner_auth; active_auth; secondary_auth]
                  end
    end.

(** ** Taking the fee *)
Definition prepare_fee (account_uid : Z) (fee : fee_type) (d : database) : result prepared_fee :=
  get_account_by_uid d account_uid ;;
  let from_account :=
    match fee_options fee with
    | None => fee_total fee
    | Some fov => default (Asset 0 CORE_ASSET_AID) (fee_from_balance fov)
    end in
  guard_ok (asset_id from_account =? CORE_ASSET_AID) assert_exception ;;
  get_account_statistics_by_uid d account_uid ;;
  let opt f := match fee_options fee with Some fov => fee_part (f fov) | None => 0 end in
  Ok {| fee_from_account := from_account;
        total_fee_paid := amount (fee_total fee);
        paid_from_balance := amount from_account;
        paid_from_prepaid := opt fee_from_prepaid;
        paid_from_csaf := opt fee_from_csaf |}.

Definition check_fee (st : eval_state) (required : result (Z * Z)) (p : prepared_fee) : result unit :=
  if skip_fee_schedule_check st then Ok tt
  else
    r ← required;
    guard_ok (r.1 <=? total_fee_paid p) insufficient_fee ;;
    real ← safe_add (paid_from_balance p) (paid_from_prepaid p);
    guard_ok (r.2 <=? real) insufficient_fee.

(** [modify(asset.dynamic_data(), f)]. *)
Definition modify_dynamic_data (aid : Z)
    (f : asset_dynamic_data_object -> result asset_dynamic_data_object) : M unit := fun d =>
  get_asset_by_aid d aid ;;
  dd ← deref (asset_dynamic_data d !! aid) assert_exception;
  dd' ← f dd;
  Ok (tt, d <| asset_dynamic_data ::= <[aid := dd']> |>).
Definition adjust_supply (aid delta : Z) : M unit :=
  modify_dynamic_data aid (fun dd =>
    x ← safe_add (current_supply dd) delta; Ok (dd <| current_supply := x |>)).

Definition process_fee_options (st : eval_state) (uid : Z) (p : prepared_fee) : M unit :=
  if skip_fee st then mret tt
  else
    d ← get;
    s ← lift (get_account_statistics_by_uid d uid);
    fc_assert (negb (0 <? paid_from_prepaid p) || (paid_from_prepaid p <=? prepaid s)) ;;
    fc_assert (negb (0 <? paid_from_csaf p) || (paid_from_csaf p <=? csaf s)) ;;
    modify_stats uid (fun s =>
      x ← (if 0 <? paid_from_prepaid p then safe_sub (prepaid s) (paid_from_prepaid p)
           else Ok (prepaid s));
      y ← (if 0 <? paid_from_csaf p then safe_sub (csaf s) (paid_from_csaf p) else Ok (csaf s));
      Ok (s <| prepaid := x |> <| csaf := y |>)) ;;
    burnt ← lift (safe_add (paid_from_prepaid p) (paid_from_balance p));
    modify_dynamic_data CORE_ASSET_AID (fun dd =>
      x ← safe_sub (current_supply dd) burnt; Ok (dd <| current_supply := x |>)).

Definition take_fee (st : eval_state) (uid : Z) (p : prepared_fee) : M unit :=
  when (0 <? amount (fee_from_account p))
    (a ← lift (neg (fee_from_account p)); adjust_balance uid a) ;;
  process_fee_options st uid p.

(** [evaluator::evaluate] and [evaluator::apply] around an operation's own
    [do_evaluate], which changes nothing, and [do_apply]: together [op]. *)
Definition run_evaluator (st : eval_state) (uid : Z) (fee : fee_type) (required : result (Z * Z))
    (op : M unit) : M unit :=
  d ← get;
  p ← lift (prepare_fee uid fee d);
  lift (check_fee st required p) ;;
  op ;;
  take_fee st uid p.
End ops.
End fee.
