(* ===== verification/AssetOps.v ===== *)
(** * User-issued assets (asset_evaluator.cpp, protocol/asset_ops.hpp, protocol/asset_ops.cpp,
      [reserved] of asset_object.hpp)

    An asset has a symbol, a precision and options its issuer sets; its supply
    is what was issued and not reserved.  A bit of [issuer_permissions] that is
    set forbids the issuer to change that flag.  Each evaluator is its
    [do_evaluate], a check that returns what the second step needs, and its
    [do_apply]. *)
From S2P Require Import Prelude FlatMap FcInt Asset Pledge ChainState.
From S2P Require Import AccountStats Voter Balance Transfer Fee.
From Stdlib Require Import Ascii.
Local Open Scope Z_scope.
Import asset pledge chain acc voter balance transfer fee.

(** [HARDFORK_0_3_TIME] *)
Notation HARDFORK_0_3_TIME := 1530522000.

Module asset_ops.
#[local] Notation M := (M database).

(** ** Options *)
Record asset_options := {
  o_max_supply : Z;
  o_market_fee_percent : Z;
  o_max_market_fee : Z;
  o_issuer_permissions : Z;
  o_flags : Z;
  o_whitelist_authorities : gset Z;
  o_blacklist_authorities : gset Z;
  o_whitelist_markets : gset Z;
  o_blacklist_markets : gset Z;
  o_description : string;
  o_reward_percent : option (option Z);
}.
(** [ASSET_ISSUER_PERMISSION_MASK] in 16 bits, and its complement. *)
Definition PERMISSION_MASK : Z := 1 + 2 + 4 + 8 + 512 + 1024.
Definition unknown_bits (x : Z) : Z := Z.land x (Z.lnot PERMISSION_MASK).

(** [asset_options::validate] (the extension, when given, must give the reward). *)
Definition validate_options (o : asset_options) : result unit :=
  guard_ok (0 <? o_max_supply o) assert_exception ;;
  guard_ok (o_max_supply o <=? MAX_SHARE_SUPPLY) assert_exception ;;
  guard_ok (o_market_fee_percent o <=? PERCENT_100) assert_exception ;;
  guard_ok ((0 <=? o_max_market_fee o) && (o_max_market_fee o <=? MAX_SHARE_SUPPLY))
    assert_exception ;;
  guard_ok (unknown_bits (o_issuer_permissions o) =? 0) assert_exception ;;
  guard_ok (unknown_bits (o_flags o) =? 0) assert_exception ;;
  guard_ok (bool_decide (o_whitelist_authorities o = ∅) &&
            bool_decide (o_blacklist_authorities o = ∅)) assert_exception ;;
  guard_ok (bool_decide (o_whitelist_markets o = ∅) &&
            bool_decide (o_blacklist_markets o = ∅)) assert_exception ;;
  guard_ok (bool_decide (o_whitelist_authorities o = ∅) && bool_decide (o_blacklist_authorities o = ∅)
            || negb (Z.land (o_flags o) 2 =? 0)) assert_exception ;;
  guard_ok (bool_decide (o_whitelist_markets o ∩ o_blacklist_markets o = ∅)) assert_exception ;;
  match o_reward_percent o with
  | None => Ok tt
  | Some None => Throw assert_exception
  | Some (Some r) => guard_ok ((0 <=? r) && (r <=? PERCENT_100)) assert_exception
  end.

(** [a.options = o]. *)
Definition with_options (o : asset_options) (a : asset_object) : asset_object :=
  a <| max_supply := o_max_supply o |>
    <| market_fee_percent := o_market_fee_percent o |>
    <| max_market_fee := o_max_market_fee o |>
    <| issuer_permissions := o_issuer_permissions o |>
    <| flags := o_flags o |>
    <| whitelist_authorities := o_whitelist_authorities o |>
    <| blacklist_authorities := o_blacklist_authorities o |>
    <| whitelist_markets := o_whitelist_markets o |>
    <| blacklist_markets := o_blacklist_markets o |>
    <| description := o_description o |>
    <| reward_percent := mjoin (o_reward_percent o) |>.

Definition can_issue_asset (a : asset_object) : bool := has_flag a 512.
Definition can_change_max_supply (a : asset_object) : bool := has_flag a 1024.

(** ** Symbols *)
Definition chars (s : string) : list ascii := String.list_ascii_of_string s.
Definition between (lo hi : ascii) (c : ascii) : bool :=
  (nat_of_ascii lo <=? nat_of_ascii c)%nat && (nat_of_ascii c <=? nat_of_ascii hi)%nat.
Definition is_upper : ascii -> bool := between "A" "Z".
Definition is_digit : ascii -> bool := between "0" "9".
Definition is_dot (c : ascii) : bool := bool_decide (c = "."%char).

Fixpoint symbol_chars_ok (dot_already_present : bool) (l : list ascii) : bool :=
  match l with
  | [] => true
  | c :: l' =>
      if is_dot c then negb dot_already_present && symbol_chars_ok true l'
      else (is_upper c || is_digit c) && symbol_chars_ok dot_already_present l'
  end.
Definition validate_asset_symbol (symbol : string) : result unit :=
  let l := chars symbol in
  guard_ok (3 <=? length l)%nat assert_exception ;;
  guard_ok (length l <=? 16)%nat assert_exception ;;
  guard_ok (match last l with Some c => negb (is_dot c) | None => true end) assert_exception ;;
  guard_ok (match head l with Some c => is_upper c | None => false end) assert_exception ;;
  guard_ok (bool_decide (take 4 l ∉ chars <$> ["YOYO"; "YOY0"; "Y0YO"; "Y0Y0"]%string))
    assert_exception ;;
  guard_ok (symbol_chars_ok false l) assert_exception.

(** [symbol.substr(0, symbol.rfind('.'))], when there is a dot. *)
Fixpoint before_last_dot (l : list ascii) : option (list ascii) :=
  match l with
  | [] => None
  | c :: l' => match before_last_dot l' with
               | Some p => Some (c :: p)
               | None => if is_dot c then Some [] else None
               end
  end.
Definition find_asset_by_symbol (d : database) (sym : list ascii) : option (Z * asset_object) :=
  head (filter (fun x => chars (symbol x.2) = sym) (map_to_list (assets d))).

(** ** Supply left to issue *)
Section ops.
Context {F : FcInt} {C : ChainConfig}.

Definition reserved (d : database) (aid : Z) (a : asset_object) : result Z :=
  dd ← deref (asset_dynamic_data d !! aid) assert_exception;
  x ← safe_sub (max_supply a) (current_supply dd);
  Ok (Z.max 0 x).

(** ** [asset_create] *)
Record asset_create_operation := {
  ac_issuer : Z; ac_symbol : string; ac_precision : Z; ac_options : asset_options;
  ac_initial_supply : option (option Z) }.

Definition validate_create (is_valid_uid : Z -> bool) (op : asset_create_operation) : result unit :=
  guard_ok (is_valid_uid (ac_issuer op)) assert_exception ;;
  validate_asset_symbol (ac_symbol op) ;;
  validate_options (ac_options op) ;;
  guard_ok (ac_precision op <=? 12) assert_exception ;;
  match ac_initial_supply op with
  | None => Ok tt
  | Some None => Throw assert_exception
  | Some (Some x) => guard_ok (0 <? x) assert_exception ;;
                     guard_ok (x <=? o_max_supply (ac_options op)) assert_exception
  end.

(** No market fee before 0.5, and a bounded number of existing authorities. *)
Definition check_options (o : asset_options) (d : database) : result unit :=
  guard_ok (negb (head_block_time d <? HARDFORK_0_5_TIME) ||
            (o_market_fee_percent o =? 0) && (o_max_market_fee o =? 0)) assert_exception.
Definition check_authorities (o : asset_options) (d : database) : result unit :=
  let max := maximum_asset_whitelist_authorities (params d) in
  guard_ok (Z.of_nat (size (o_whitelist_authorities o)) <=? max) assert_exception ;;
  guard_ok (Z.of_nat (size (o_blacklist_authorities o)) <=? max) assert_exception ;;
  guard_ok (bool_decide (o_whitelist_authorities o ∪ o_blacklist_authorities o ⊆ dom (accounts d)))
    assert_exception.

Definition create_evaluate (op : asset_create_operation) (d : database) : result unit :=
  guard_ok (HARDFORK_0_3_TIME <=? head_block_time d) assert_exception ;;
  check_options (ac_options op) d ;;
  check_authorities (ac_options op) d ;;
  let sym := chars (ac_symbol op) in
  guard_ok (match find_asset_by_symbol d sym with Some _ => false | None => true end)
    assert_exception ;;
  match before_last_dot sym with
  | None => Ok tt
  | Some prefix =>
      p ← deref (find_asset_by_symbol d prefix) assert_exception;
      guard_ok (issuer p.2 =? ac_issuer op) assert_exception
  end.
Definition create_apply (op : asset_create_operation) : M unit :=
  d ← get;
  let aid := next_asset_id d in
  let initial := default 0 (mjoin (ac_initial_supply op)) in
  let a := with_options (ac_options op)
             (new_asset <| issuer := ac_issuer op |> <| symbol := ac_symbol op |>
                        <| precision := ac_precision op |>) in
  upd (fun d => d
    <| asset_dynamic_data ::= <[aid := {| current_supply := initial; accumulated_fees := 0 |}]> |>
    <| assets ::= <[aid := a]> |>
    <| next_asset_id := aid + 1 |>) ;;
  when (0 <? initial) (adjust_balance (ac_issuer op) (Asset initial aid)).
Definition asset_create (op : asset_create_operation) : M unit :=
  d ← get; lift (create_evaluate op d) ;; create_apply op.

(** ** [asset_issue], [asset_reserve], [asset_claim_fees] *)
Definition validate_issue (is_valid_uid : Z -> bool) (op_issuer to : Z) (amt : asset) : result unit :=
  guard_ok (is_valid_uid op_issuer) assert_exception ;;
  guard_ok (is_valid_uid to) assert_exception ;;
  guard_ok (amount amt <=? MAX_SHARE_SUPPLY) assert_exception ;;
  guard_ok (0 <? amount amt) assert_exception ;;
  guard_ok (negb (asset_id amt =? CORE_ASSET_AID)) assert_exception.
Definition issue_evaluate (op_issuer to : Z) (amt : asset) (d : database) : result unit :=
  guard_ok (HARDFORK_0_3_TIME <=? head_block_time d) assert_exception ;;
  a ← get_asset_by_aid d (asset_id amt);
  guard_ok (op_issuer =? issuer a) assert_exception ;;
  guard_ok (can_issue_asset a) assert_exception ;;
  to_account ← get_account_by_uid d to;
  validate_authorized_asset to_account (asset_id amt) a ;;
  dd ← deref (asset_dynamic_data d !! asset_id amt) assert_exception;
  x ← safe_add (current_supply dd) (amount amt);
  guard_ok (x <=? max_supply a) assert_exception.
Definition issue_apply (to : Z) (amt : asset) : M unit :=
  adjust_balance to amt ;;
  adjust_supply (asset_id amt) (amount amt).
Definition asset_issue (op_issuer to : Z) (amt : asset) : M unit :=
  d ← get; lift (issue_evaluate op_issuer to amt d) ;; issue_apply to amt.

Definition validate_reserve (is_valid_uid : Z -> bool) (payer : Z) (amt : asset) : result unit :=
  guard_ok (is_valid_uid payer) assert_exception ;;
  guard_ok (amount amt <=? MAX_SHARE_SUPPLY) assert_exception ;;
  guard_ok (0 <? amount amt) assert_exception.
Definition reserve_evaluate (payer : Z) (amt : asset) (d : database) : result unit :=
  guard_ok (HARDFORK_0_3_TIME <=? head_block_time d) assert_exception ;;
  a ← get_asset_by_aid d (asset_id amt);
  from_account ← get_account_by_uid d payer;
  validate_authorized_asset from_account (asset_id amt) a ;;
  dd ← deref (asset_dynamic_data d !! asset_id amt) assert_exception;
  x ← safe_sub (current_supply dd) (amount amt);
  guard_ok (0 <=? x) assert_exception.
Definition reserve_apply (payer : Z) (amt : asset) : M unit :=
  n ← lift (neg amt);
  adjust_balance payer n ;;
  modify_dynamic_data (asset_id amt) (fun dd =>
    x ← safe_sub (current_supply dd) (amount amt); Ok (dd <| current_supply := x |>)).
Definition asset_reserve (payer : Z) (amt : asset) : M unit :=
  d ← get; lift (reserve_evaluate payer amt d) ;; reserve_apply payer amt.

Definition validate_claim (is_valid_uid : Z -> bool) (op_issuer : Z) (amt : asset) : result unit :=
  guard_ok (is_valid_uid op_issuer) assert_exception ;;
  guard_ok (0 <? amount amt) assert_exception.
Definition claim_evaluate (op_issuer : Z) (amt : asset) (d : database) : result unit :=
  guard_ok (HARDFORK_0_3_TIME <=? head_block_time d) assert_exception ;;
  a ← get_asset_by_aid d (asset_id amt);
  guard_ok (issuer a =? op_issuer) assert_exception.
Definition claim_apply (op_issuer : Z) (amt : asset) : M unit :=
  d ← get;
  _ ← lift (get_asset_by_aid d (asset_id amt));
  dd ← lift (deref (asset_dynamic_data d !! asset_id amt) assert_exception);
  fc_assert (amount amt <=? accumulated_fees dd) ;;
  modify_dynamic_data (asset_id amt) (fun dd =>
    x ← safe_sub (accumulated_fees dd) (amount amt); Ok (dd <| accumulated_fees := x |>)) ;;
  adjust_balance op_issuer amt.
Definition asset_claim_fees (op_issuer : Z) (amt : asset) : M unit :=
  d ← get; lift (claim_evaluate op_issuer amt d) ;; claim_apply op_issuer amt.

(** ** [asset_update] *)
Record asset_update_operation := {
  au_issuer : Z; au_asset : Z; au_precision : option Z; au_options : asset_options }.

Definition validate_update (is_valid_uid : Z -> bool) (op : asset_update_operation) : result unit :=
  guard_ok (is_valid_uid (au_issuer op)) assert_exception ;;
  guard_ok (match au_precision op with Some p => p <=? 12 | None => true end) assert_exception ;;
  validate_options (au_options op).
Definition update_evaluate (op : asset_update_operation) (d : database) : result unit :=
  let o := au_options op in
  guard_ok (HARDFORK_0_3_TIME <=? head_block_time d) assert_exception ;;
  check_options o d ;;
  a ← get_asset_by_aid d (au_asset op);
  guard_ok (can_change_max_supply a || can_change_max_supply (with_options o a) ||
            (max_supply a =? o_max_supply o)) assert_exception ;;
  guard_ok (match au_precision op with Some p => negb (p =? precision a) | None => true end)
    assert_exception ;;
  dd ← deref (asset_dynamic_data d !! au_asset op) assert_exception;
  guard_ok ((current_supply dd =? 0) ||
            match au_precision op with Some _ => false | None => true end) assert_exception ;;
  guard_ok ((current_supply dd =? 0) ||
            (Z.land (Z.lnot (o_issuer_permissions o)) (issuer_permissions a) =? 0)) assert_exception ;;
  guard_ok (Z.land (Z.lxor (o_flags o) (flags a)) (issuer_permissions a) =? 0) assert_exception ;;
  guard_ok (au_issuer op =? issuer a) assert_exception ;;
  check_authorities o d.
Definition update_apply (op : asset_update_operation) : M unit := fun d =>
  a ← get_asset_by_aid d (au_asset op);
  let a := match au_precision op with Some p => a <| precision := p |> | None => a end in
  Ok (tt, d <| assets ::= <[au_asset op := with_options (au_options op) a]> |>).
Definition asset_update (op : asset_update_operation) : M unit :=
  d ← get; lift (update_evaluate op d) ;; update_apply op.

(** ** The fees of these operations

    [pack_size] is the size of the serialized value (fc::raw). *)
Section fees.
Variables (pack_size_set : gset Z -> Z) (pack_size_string : string -> Z).
Definition data_size_for_fee (o : asset_options) : Z :=
  let sz s := if bool_decide (s = ∅) then 0 else pack_size_set s in
  u64 (sz (o_whitelist_authorities o) + sz (o_blacklist_authorities o) +
       sz (o_whitelist_markets o) + sz (o_blacklist_markets o) +
       (if bool_decide (o_description o = EmptyString) then 0 else pack_size_string (o_description o))).
Definition create_calculate_fee (symbol3 symbol4 long_symbol price_per_kbyte : Z)
    (op : asset_create_operation) : result Z :=
  let base := match length (chars (ac_symbol op)) with 3%nat => symbol3 | 4%nat => symbol4
              | _ => long_symbol end in
  data ← calculate_data_fee (data_size_for_fee (ac_options op)) price_per_kbyte;
  safe_add (i64 base) (i64 data).
Definition update_calculate_fee (fee price_per_kbyte : Z) (op : asset_update_operation) : result Z :=
  data ← calculate_data_fee (data_size_for_fee (au_options op)) price_per_kbyte;
  safe_add (i64 fee) (i64 data).
Definition issue_calculate_fee (fee price_per_kbyte : Z) (memo_size : option Z) : result Z :=
  match memo_size with
  | None => Ok (i64 fee)
  | Some n => data ← calculate_data_fee n price_per_kbyte; safe_add (i64 fee) (i64 data)
  end.
End fees.
End ops.
End asset_ops.
