(* ===== verification/Payroll.v ===== *)
(** * Budgets and pay (db_update.cpp, witness_evaluator.cpp, pledge_mining_evaluator.cpp,
      content_evaluator.cpp, account_evaluator.cpp, and the hardfork steps of [_apply_block])

    Each block mints a budget from the part of the core supply not yet issued:
    the witness is paid from it and the rest goes to the budget pool.  Pay is
    first recorded as uncollected; collecting moves it to a balance. *)
From S2P Require Import Prelude FlatMap FcInt Asset Pledge ChainState.
From S2P Require Import AccountStats Voter Balance Transfer Fee AssetOps WitnessSchedule.
Local Open Scope Z_scope.
Import asset pledge chain acc voter balance transfer fee asset_ops schedule.

Module payroll.
#[local] Notation M := (M database).

Definition modify_dgp (f : dynamic_global_property_object -> result dynamic_global_property_object)
    : M unit := fun d =>
  g ← f (dgp d);
  Ok (tt, d <| dgp := g |>).

Section ops.
Context {F : FcInt} {C : ChainConfig}.

(** ** The pay of a block *)
Definition witness_pay_of (d : database) (t : scheduled_witness_type) : Z :=
  match t with
  | scheduled_by_vote_top => by_vote_top_witness_pay_per_block (params d)
  | scheduled_by_vote_rest => by_vote_rest_witness_pay_per_block (params d)
  | scheduled_by_pledge => by_pledge_witness_pay_per_block (dgp d)
  end.

(** The budget of the block and the part of it the witness is paid. *)
Definition block_budget (d : database) (t : scheduled_witness_type) : result (Z * Z) :=
  core ← get_asset_by_aid d CORE_ASSET_AID;
  r ← reserved d CORE_ASSET_AID core;
  let budget := Z.min (total_budget_per_block (dgp d)) r in
  Ok (budget, Z.min (witness_pay_of d t) budget).

Definition update_signing_witness (signing_witness : Z) (block_time block_num : Z) : M unit :=
  d ← get;
  slot ← lift (get_slot_at_time block_time d);
  let new_block_aslot := u64 (current_aslot (dgp d) + slot) in
  wit_type ← lift (deref (fm_find signing_witness (active_witnesses d)) assert_exception);
  '(budget_this_block, witness_pay) ← lift (block_budget d wit_type);
  budget_remained ← lift (safe_sub budget_this_block witness_pay);
  fc_assert (0 <=? budget_remained) ;;
  when (0 <? budget_this_block) (adjust_supply CORE_ASSET_AID budget_this_block) ;;
  when (0 <? budget_remained) (modify_dgp (fun g =>
    x ← safe_add (budget_pool g) budget_remained; Ok (g <| budget_pool := x |>))) ;;
  when (0 <? witness_pay) (deposit_witness_pay signing_witness witness_pay wit_type) ;;
  modify_witness signing_witness (fun w =>
    Ok (w <| last_aslot := new_block_aslot |> <| total_produced ::= fun n => u64 (n + 1) |>
          <| last_confirmed_block_num := block_num |>)) ;;
  modify_stats signing_witness (fun s =>
    Ok (s <| witness_last_aslot := new_block_aslot |>
          <| witness_total_produced ::= fun n => u64 (n + 1) |>
          <| witness_last_confirmed_block_num := block_num |>)).

(** [adjust_budgets]: a share of what can still be issued, spread over a year. *)
Definition blocks_per_year (p : chain_parameters) : result Z :=
  guard_ok (negb (block_interval p =? 0)) undefined_behaviour ;;
  guard_ok (86400 * 365 * maintenance_skip_slots p <? 2 ^ 31) undefined_behaviour ;;
  guard_ok (negb (maintenance_interval p =? 0)) undefined_behaviour ;;
  Ok (u32 (86400 * 365 / block_interval p
           - 86400 * 365 * maintenance_skip_slots p / maintenance_interval p)).
Definition adjust_budgets : M unit :=
  d ← get;
  if next_budget_adjust_block (dgp d) <=? head_block_num d then
    core ← lift (get_asset_by_aid d CORE_ASSET_AID);
    core_reserved ← lift (reserved d CORE_ASSET_AID core);
    n ← lift (blocks_per_year (params d));
    x ← lift (u128_div (u128_mul (u128_of core_reserved) (budget_adjust_target (params d))) n);
    y ← lift (u128_div x PERCENT_100);
    modify_dgp (fun g =>
      Ok (g <| total_budget_per_block := i64 (u128_to_u64 y) |>
            <| next_budget_adjust_block ::= fun b => u32 (b + budget_adjust_interval (params d)) |>))
  else mret tt.

(** ** Collecting *)
Definition witness_collect_pay (account : Z) (pay : asset) : M unit :=
  d ← get;
  s ← lift (get_account_statistics_by_uid d account);
  fc_assert (amount pay <=? uncollected_witness_pay s) ;;
  adjust_balance account pay ;;
  modify_stats account (fun s =>
    x ← safe_sub (uncollected_witness_pay s) (amount pay); Ok (s <| uncollected_witness_pay := x |>)).

Definition pledge_bonus_collect (account bonus : Z) : M unit :=
  d ← get;
  fc_assert (HEAD_FORK_05 <=? hardfork d) ;;
  s ← lift (get_account_statistics_by_uid d account);
  fc_assert (bonus <=? uncollected_pledge_bonus s) ;;
  adjust_balance account (Asset bonus CORE_ASSET_AID) ;;
  modify_stats account (fun s =>
    x ← safe_sub (uncollected_pledge_bonus s) bonus; Ok (s <| uncollected_pledge_bonus := x |>)).

Definition score_bonus_collect (account bonus : Z) : M unit :=
  d ← get;
  fc_assert (HEAD_FORK_05 <=? hardfork d) ;;
  s ← lift (get_account_statistics_by_uid d account);
  fc_assert (bonus <=? uncollected_score_bonus s) ;;
  adjust_balance account (Asset bonus CORE_ASSET_AID) ;;
  modify_stats account (fun s =>
    x ← safe_sub (uncollected_score_bonus s) bonus; Ok (s <| uncollected_score_bonus := x |>)).

(** The evaluators leave these to the validation of the operation. *)
Definition validate_collect_pay (is_valid_uid : Z -> bool) (account : Z) (pay : asset) : result unit :=
  guard_ok (is_valid_uid account) assert_exception ;;
  guard_ok (asset_id pay =? CORE_ASSET_AID) assert_exception ;;
  guard_ok (0 <? amount pay) assert_exception.

(** ** Beneficiaries *)
Definition beneficiary_assign (owner new_beneficiary : Z) : M unit :=
  d ← get;
  fc_assert (HEAD_FORK_05 <=? hardfork d) ;;
  s ← lift (get_account_statistics_by_uid d owner);
  fc_assert (match beneficiary s with Some b => negb (b =? new_beneficiary) | None => true end) ;;
  modify_stats owner (fun s => Ok (s <| beneficiary := Some new_beneficiary |>)).

Inductive benefit_type := BENEFIT_TYPE_CSAF | BENEFIT_TYPE_WITNESS.
Record benefit_collect_operation := {
  bc_issuer : Z; bc_from : Z; bc_type : benefit_type; bc_to : option Z; bc_time : option Z;
  bc_amount : asset }.

(** The limit on the coin-seconds an account may hold. *)
Definition csaf_limit (d : database) (ts : account_statistics) : result Z :=
  match pledge_id Lock_balance ts with
  | Some id =>
      p ← get_pledge_balance_object d id;
      q ← u128_div (u128_mul (u128_of (pledge p)) (csaf_limit_lock_balance_modulus (params d)))
            PERCENT_100;
      safe_add (max_csaf_per_account (params d)) (u128_to_i64 q)
  | None => Ok (max_csaf_per_account (params d))
  end.

Definition benefit_collect_csaf (op : benefit_collect_operation) (fs : account_statistics) : M unit :=
  d ← get;
  to ← lift (deref (bc_to op) assert_exception);
  op_time ← lift (deref (bc_time op) assert_exception);
  ts ← lift (get_account_statistics_by_uid d to);
  limit ← lift (csaf_limit d ts);
  want ← lift (safe_add (amount (bc_amount op)) (csaf ts));
  fc_assert (want <=? limit) ;;
  fc_assert (op_time <=? head_block_time d) ;;
  fc_assert (head_block_time d <=? time_add op_time 300) ;;
  '(available, _) ← lift (compute_coin_seconds_earned_fix (csaf_accumulate_window (params d))
                            op_time d (hardfork d) fs);
  let collecting := u128_mul (u128_of (amount (bc_amount op))) (csaf_rate (params d)) in
  fc_assert (collecting <=? available) ;;
  modify_stats (bc_from op) (fun s =>
    Ok (set_coin_seconds_earned (u128_sub available collecting) op_time s)) ;;
  modify_stats to (fun s =>
    x ← safe_add (csaf s) (amount (bc_amount op)); Ok (s <| csaf := x |>)).

Definition benefit_collect_witness (op : benefit_collect_operation) (fs : account_statistics) : M unit :=
  fc_assert (match bc_to op with Some to => to =? bc_issuer op | None => true end) ;;
  fc_assert (match bc_time op with Some _ => false | None => true end) ;;
  fc_assert (asset_id (bc_amount op) =? CORE_ASSET_AID) ;;
  fc_assert (amount (bc_amount op) <=? uncollected_witness_pay fs) ;;
  adjust_balance (bc_issuer op) (bc_amount op) ;;
  modify_stats (bc_from op) (fun s =>
    x ← safe_sub (uncollected_witness_pay s) (amount (bc_amount op));
    Ok (s <| uncollected_witness_pay := x |>)).

Definition benefit_collect (op : benefit_collect_operation) : M unit :=
  d ← get;
  fc_assert (HEAD_FORK_05 <=? hardfork d) ;;
  _ ← lift (get_account_by_uid d (bc_issuer op));
  fs ← lift (get_account_statistics_by_uid d (bc_from op));
  fc_assert (bool_decide (beneficiary fs = Some (bc_issuer op))) ;;
  match bc_type op with
  | BENEFIT_TYPE_CSAF => benefit_collect_csaf op fs
  | BENEFIT_TYPE_WITNESS => benefit_collect_witness op fs
  end.

(** ** Hardforks, as [_apply_block] enables them *)
Definition keys {V} (m : gmap Z V) : list Z := (map_to_list m).*1.
Definition refresh_coin_seconds (hf : Z) (uid : Z) : M unit :=
  d ← get;
  modify_stats uid
    (update_coin_seconds_earned (csaf_accumulate_window (params d)) (head_block_time d) d hf).
Definition update_reduce_witness_csaf : M unit :=
  d ← get;
  mfor (refresh_coin_seconds HEAD_FORK_NONE)
    (keys (witnesses d) ++ (map_to_list (replaced_witnesses d)).*1.*1).
Definition update_account_permission : M unit :=
  upd (fun d => d <| accounts ::= fmap (fun a => a <| can_reply := true |> <| can_rate := true |>) |>).
Definition update_account_feepoint : M unit :=
  d ← get; mfor (refresh_coin_seconds HEAD_FORK_04) (keys (stats d)).
Definition update_account_reg_info : M unit :=
  upd (fun d => d <| accounts ::= fmap (fun a =>
    a <| registrar ::= fun r => if r =? NULL_ACCOUNT_UID then 224373708 else r |>
      <| referrer ::= fun r => if r =? NULL_ACCOUNT_UID then 23080 else r |>
      <| registrar_percent := PERCENT_100 / 2 |> <| referrer_percent := PERCENT_100 / 2 |>) |>).
Definition update_core_asset_flags : M unit := fun d =>
  a ← get_asset_by_aid d CORE_ASSET_AID;
  Ok (tt, d <| assets ::= <[CORE_ASSET_AID := a <| flags ::= Z.lor 1 |>]> |>).

(** [GRAPHENE_HARDFORK_DESTORY_BUDGET_POOL_AMOUNT] *)
Definition DESTROY_AMOUNT : Z := 20000000000000.
Definition destroy_budget_pool : M unit :=
  d ← get;
  when (DESTROY_AMOUNT <=? budget_pool (dgp d))
    (modify_dgp (fun g =>
       x ← safe_sub (budget_pool g) DESTROY_AMOUNT; Ok (g <| budget_pool := x |>)) ;;
     d ← get;
     a ← lift (get_asset_by_aid d CORE_ASSET_AID);
     m ← lift (safe_sub (max_supply a) DESTROY_AMOUNT);
     upd (fun d => d <| assets ::= <[CORE_ASSET_AID := a <| max_supply := m |>]> |>) ;;
     modify_dynamic_data CORE_ASSET_AID (fun dd =>
       x ← safe_sub (current_supply dd) DESTROY_AMOUNT; Ok (dd <| current_supply := x |>))).

Definition enable_hardforks : M unit :=
  d ← get;
  when ((HARDFORK_0_4_TIME <=? head_block_time d) && (hardfork d <? HEAD_FORK_04))
    (update_reduce_witness_csaf ;;
     modify_dgp (fun g => Ok (g <| enabled_hardfork_version := HEAD_FORK_04 |>)) ;;
     update_account_permission) ;;
  d ← get;
  when ((HARDFORK_0_5_TIME <=? head_block_time d) && (hardfork d <? HEAD_FORK_05))
    (update_account_feepoint ;;
     update_account_reg_info ;;
     update_core_asset_flags ;;
     modify_dgp (fun g =>
       x ← safe_add (total_witness_pledge g) (resign_witness_pledge_before_05 g);
       Ok (g <| total_witness_pledge := x |> <| enabled_hardfork_version := HEAD_FORK_05 |>)) ;;
     destroy_budget_pool).
End ops.
End payroll.
