(* ===== verification/Mining.v ===== *)
(** * Pledge mining (pledge_mining_evaluator.cpp, [witness_object] of witness_object.hpp,
      [update_pledge_mining_bonus] and [resign_pledge_mining] of db_update.cpp)

    Accounts pledge coins to a witness and share part of its pay.  The witness
    object records what it owes them ([need_distribute_bonus]), what it paid
    ([already_distribute_bonus]), the part not yet spread over the pledges
    ([unhandled_bonus]) and, per block of a change of pledges, the bonus per
    pledged coin in units of 10^-12.  What rounding leaves over goes back to
    the witness. *)
From S2P Require Import Prelude FlatMap FcInt Asset Pledge ChainState.
From S2P Require Import AccountStats Voter Balance Transfer Payroll.
Local Open Scope Z_scope.
Import asset pledge chain acc voter balance transfer payroll.

Module mining.
#[local] Notation M := (M database).

(** [GRAPHENE_PLEDGE_BONUS_PRECISION] *)
Definition BONUS_PRECISION : Z := 1000000000000.
(** Conversion to [int]. *)
Definition i32 (x : Z) : Z := (x + 2 ^ 31) mod 2 ^ 32 - 2 ^ 31.

(** ** [witness_object] *)
Definition get_bonus_block_num (w : witness_object) : Z :=
  if (0 <? w_total_mining_pledge w) &&
     (negb (length (bonus_per_pledge w) =? 0)%nat || (0 <? unhandled_bonus w))
  then u32 (last_update_bonus_block_num w + 10000) else NEVER.

(** [std::accumulate] with an accumulator of type [int]: the callback adds in
    64 bits, its result is converted back. *)
Fixpoint accumulate (acc : Z) (l : list (Z * Z)) : Z :=
  match l with
  | [] => acc
  | p :: l' => accumulate (i32 (u64 (u64 acc + p.2))) l'
  end.

Section ops.
Context {F : FcInt} {C : ChainConfig}.

(** A bonus spread over the pledged coins. *)
Definition spread_bonus (bonus total : Z) : result Z :=
  u128_div (u128_mul (u128_of bonus) BONUS_PRECISION) total.

Definition accumulate_bonus_per_pledge (start_block_num : Z) (w : witness_object) : result Z :=
  let sum := accumulate 0 (filter (fun p => start_block_num <= p.1) (bonus_per_pledge w)) in
  if (0 <? unhandled_bonus w) && (0 <? w_total_mining_pledge w) then
    x ← spread_bonus (unhandled_bonus w) (w_total_mining_pledge w);
    safe_add sum (i64 (u128_to_u64 x))
  else Ok sum.

(** ** Paying the bonus *)
Definition pledge_of (id : Z) (d : database) : result Z :=
  p ← get_pledge_balance_object d id; Ok (pledge p).

Definition update_pledge_mining_bonus_by_account (k : Z * Z) (bonus_per_pledge : Z) : M Z :=
  d ← get;
  pm ← lift (deref (pledge_minings d !! k) undefined_behaviour);
  pledged ← lift (pledge_of (pm_pledge_id pm) d);
  if pledged =? 0 then mret 0
  else
    q ← lift (u128_div (u128_mul (u128_of bonus_per_pledge) pledged) BONUS_PRECISION);
    let total_bonus := u128_to_i64 q in
    when (0 <? total_bonus) (modify_stats k.2 (fun s =>
      x ← safe_add (uncollected_pledge_bonus s) total_bonus;
      Ok (s <| uncollected_pledge_bonus := x |>))) ;;
    upd (fun d => d <| pledge_minings ::=
      <[k := pm <| last_bonus_block_num := head_block_num d |>]> |>) ;;
    mret total_bonus.

(** The accounts that pledge to a witness, in order. *)
Definition pledgers (witness : Z) (d : database) : list Z :=
  merge_sort Z.le (snd <$> filter (fun k => k.1 = witness) (map_to_list (pledge_minings d)).*1).

(** The loop over them, adding up what was paid. *)
Fixpoint pay_pledgers (witness : Z) (w : witness_object) (accounts : list Z) (send_bonus : Z) : M Z :=
  match accounts with
  | [] => mret send_bonus
  | account :: accounts' =>
      d ← get;
      pm ← lift (deref (pledge_minings d !! (witness, account)) undefined_behaviour);
      per_pledge ← lift (accumulate_bonus_per_pledge (u32 (last_bonus_block_num pm + 1)) w);
      bonus ← update_pledge_mining_bonus_by_account (witness, account) per_pledge;
      send_bonus ← lift (safe_add send_bonus bonus);
      pay_pledgers witness w accounts' send_bonus
  end.
Definition update_pledge_mining_bonus_by_witness (witness : Z) (w : witness_object) : M unit :=
  d ← get;
  send_bonus ← pay_pledgers witness w (pledgers witness d) 0;
  rest ← lift (safe_sub (need_distribute_bonus w) (already_distribute_bonus w));
  rest ← lift (safe_sub rest send_bonus);
  modify_stats witness (fun s =>
    x ← safe_add (uncollected_witness_pay s) rest; Ok (s <| uncollected_witness_pay := x |>)).

Definition reset_bonus (head_num : Z) (w : witness_object) : witness_object :=
  w <| unhandled_bonus := 0 |> <| need_distribute_bonus := 0 |> <| already_distribute_bonus := 0 |>
    <| last_update_bonus_block_num := head_num |> <| bonus_per_pledge := [] |>.

(** [update_pledge_mining_bonus]: every 10000 blocks a witness settles.  Both
    the current and the replaced witness objects are in the index. *)
Definition due_bonus (head_num : Z) (w : witness_object) : Prop := get_bonus_block_num w <= head_num.
#[global] Instance due_bonus_dec n w : Decision (due_bonus n w).
Proof. unfold due_bonus. apply _. Defined.
Definition update_pledge_mining_bonus : M unit :=
  d ← get;
  let now := head_block_num d in
  let due := filter (fun x => due_bonus now x.2) (map_to_list (witnesses d)) in
  let due_replaced := filter (fun x => due_bonus now x.2) (map_to_list (replaced_witnesses d)) in
  mfor (fun x => update_pledge_mining_bonus_by_witness x.1 x.2) due ;;
  mfor (fun x => update_pledge_mining_bonus_by_witness x.1.1 x.2) due_replaced ;;
  mfor (fun x => upd (fun d => d <| witnesses ::= alter (reset_bonus now) x.1 |>)) due ;;
  mfor (fun x => upd (fun d => d <| replaced_witnesses ::= alter (reset_bonus now) x.1 |>)) due_replaced.

(** ** Changing a pledge *)
Definition update_pledge_of (id : Z) (new_pledge : asset) (release_num : Z) : M Z :=
  d ← get;
  p ← lift (get_pledge_balance_object d id);
  '(delta, p') ← lift (update_pledge new_pledge release_num
                         (max_releasing_size (hardfork d) (max_pledge_releasing_size (params d))) p);
  upd (fun d => d <| pledge_balances ::= <[id := p']> |>) ;;
  mret delta.

Definition resign_pledge_mining (witness : Z) : M unit :=
  d ← get;
  mfor (fun account =>
    pm ← lift (deref (pledge_minings d !! (witness, account)) undefined_behaviour);
    _ ← update_pledge_of (pm_pledge_id pm) (Asset 0 CORE_ASSET_AID)
          (u32 (head_block_num d + mining_pledge_release_delay (params d)));
    mret tt) (pledgers witness d).

Definition validate_pledge_mining (is_valid_uid : Z -> bool) (pledge_account witness new_pledge : Z)
    : result unit :=
  guard_ok (is_valid_uid pledge_account) assert_exception ;;
  guard_ok (is_valid_uid witness) assert_exception ;;
  guard_ok (0 <=? new_pledge) assert_exception ;;
  guard_ok (negb (pledge_account =? witness)) assert_exception.

Definition mining_evaluate (pledge_account witness new_pledge : Z) (d : database) : result unit :=
  guard_ok (HEAD_FORK_05 <=? hardfork d) assert_exception ;;
  s ← get_account_statistics_by_uid d pledge_account;
  w ← get_witness_by_uid d witness;
  guard_ok (can_pledge w) assert_exception ;;
  old ← match pledge_minings d !! (witness, pledge_account) with
        | Some pm => p ← get_pledge_balance_object d (pm_pledge_id pm); Ok (Some p)
        | None => Ok None
        end;
  if 0 <? new_pledge then
    guard_ok (min_mining_pledge (params d) <=? new_pledge) assert_exception ;;
    guard_ok (match old with Some p => negb (new_pledge =? pledge p) | None => true end)
      assert_exception ;;
    available ← get_available_core_balance d s;
    mine ← match old with Some p => total_unrelease_pledge p | None => Ok 0 end;
    available ← safe_add available mine;
    guard_ok (new_pledge <=? available) assert_exception
  else if new_pledge =? 0 then
    p ← deref old assert_exception;
    guard_ok (0 <? pledge p) assert_exception
  else Ok tt.

Definition add_mining_pledge (account delta : Z) : M unit :=
  modify_stats account (fun s =>
    x ← safe_add (total_mining_pledge s) delta; Ok (s <| total_mining_pledge := x |>)).

(** The pledge of the account: (what is pledged more, what bonus was paid). *)
Definition change_mining_pledge (pledge_account witness new_pledge : Z) : M (Z * Z) :=
  d ← get;
  let now := head_block_num d in
  let k := (witness, pledge_account) in
  match pledge_minings d !! k with
  | Some pm =>
      w ← lift (deref (witnesses d !! witness) undefined_behaviour);
      per_pledge ← lift (accumulate_bonus_per_pledge (u32 (last_bonus_block_num pm + 1)) w);
      send_bonus ← update_pledge_mining_bonus_by_account k per_pledge;
      old ← lift (pledge_of (pm_pledge_id pm) d);
      delta ← lift (safe_sub new_pledge old);
      available ← update_pledge_of (pm_pledge_id pm) (Asset new_pledge CORE_ASSET_AID)
                    (u32 (now + mining_pledge_release_delay (params d)));
      add_mining_pledge pledge_account available ;;
      mret (delta, send_bonus)
  | None =>
      let pb := next_pledge_balance_id d in
      let id := next_pledge_mining_id d in
      upd (fun d => d
        <| pledge_balances ::= <[pb := {| superior_index := id; type := Mine;
             pb_asset_id := CORE_ASSET_AID; pledge := new_pledge; total_releasing_pledge := 0;
             releasing_pledges := [] |}]> |>
        <| next_pledge_balance_id := pb + 1 |>
        <| pledge_minings ::= <[k := {| pm_id := id; last_bonus_block_num := now;
                                        pm_pledge_id := pb |}]> |>
        <| next_pledge_mining_id := id + 1 |>) ;;
      add_mining_pledge pledge_account new_pledge ;;
      mret (new_pledge, 0)
  end.

(** The witness: the bonus of the old pledges is fixed, then the pledges change;
    with the last pledge gone it keeps the rest. *)
Definition fix_bonus (now : Z) (w : witness_object) : result witness_object :=
  if (0 <? unhandled_bonus w) && (0 <? w_total_mining_pledge w) then
    x ← spread_bonus (unhandled_bonus w) (w_total_mining_pledge w);
    Ok (w <| bonus_per_pledge ::= fm_emplace now (u128_to_i64 x) |> <| unhandled_bonus := 0 |>)
  else Ok w.
Definition settle_witness (witness delta send_bonus : Z) : M unit :=
  d ← get;
  w ← lift (deref (witnesses d !! witness) undefined_behaviour);
  w ← lift (fix_bonus (head_block_num d) w);
  a ← lift (if 0 <? send_bonus then safe_add (already_distribute_bonus w) send_bonus
            else Ok (already_distribute_bonus w));
  let w := w <| already_distribute_bonus := a |>
             <| w_total_mining_pledge ::= fun t => u64 (t + delta) |> in
  w ← (if w_total_mining_pledge w =? 0 then
         when (already_distribute_bonus w <? need_distribute_bonus w) (modify_stats witness (fun s =>
           r ← safe_sub (need_distribute_bonus w) (already_distribute_bonus w);
           x ← safe_add (uncollected_witness_pay s) r; Ok (s <| uncollected_witness_pay := x |>))) ;;
         mret (w <| need_distribute_bonus := 0 |> <| already_distribute_bonus := 0 |>
                 <| bonus_per_pledge := [] |>)
       else mret w);
  upd (fun d => d <| witnesses ::= <[witness := w]> |>).

Definition pledge_mining_update (pledge_account witness new_pledge : Z) : M unit :=
  d ← get;
  lift (mining_evaluate pledge_account witness new_pledge d) ;;
  '(delta, send_bonus) ← change_mining_pledge pledge_account witness new_pledge;
  settle_witness witness delta send_bonus ;;
  modify_dgp (fun g =>
    x ← safe_add (total_witness_pledge g) delta; Ok (g <| total_witness_pledge := x |>)).
End ops.
End mining.
