(* ===== verification/Treasury.v ===== *)
(** * What is issued is what circulates

    Besides the ledger, core coins are in the budget pool, in the bonuses
    witnesses still owe and in the orders for advertisements that wait for an
    answer.  [imbalance aid d] is the difference between the coins
    of an asset that exist and what the asset records as issued: the difference
    [check_invariants] wants to be zero.  [shift d d' f] says that a step keeps
    the invariants of the ledger and changes the imbalance of every asset [a] by
    [f a]; shifts compose by addition, and an operation is in order when its
    shifts add up to nothing. *)
From S2P Require Import Prelude FlatMap FcInt Asset Pledge ChainState.
From S2P Require Import AccountStats Voter Balance Transfer Fee Payroll MapSum Frame.
From S2P Require Import Ledger Market MarketProof TransferProof.
Local Open Scope Z_scope.
Import asset pledge chain acc voter balance transfer fee payroll market.

Definition circulating (aid : Z) (d : database) : Z :=
  supply aid (ledger_of d) + only CORE_ASSET_AID (budget_pool (dgp d) + owed_coins d) aid.
Definition issued_of (aid : Z) (d : database) : Z := default 0 (issued d !! aid).
Definition imbalance (aid : Z) (d : database) : Z := circulating aid d - issued_of aid d.

(** New assets get new ids. *)
Definition asset_ids_fresh (d : database) : Prop :=
  forall aid, next_asset_id d <= aid -> issued d !! aid = None.
Record treasury_inv (d : database) : Prop := {
  ti_market : market_inv d;
  ti_fresh : asset_ids_fresh d;
}.

Definition shift (d d' : database) (f : Z -> Z) : Prop :=
  treasury_inv d -> treasury_inv d' /\ forall a, imbalance a d' = imbalance a d + f a.
Notation neutral d d' := (shift d d' (fun _ => 0)).

Lemma shift_trans d1 d2 d3 f g : shift d1 d2 f -> shift d2 d3 g -> shift d1 d3 (fun a => f a + g a).
Proof.
  intros H1 H2 Hi. destruct (H1 Hi) as [Hi2 E1]. destruct (H2 Hi2) as [Hi3 E2]. split; [done|].
  intros a. rewrite E2, E1. lia.
Qed.
Lemma shift_ext d d' f g : (forall a, f a = g a) -> shift d d' f -> shift d d' g.
Proof. intros Hfg H Hi. destruct (H Hi) as [Hi' E]. split; [done|]. intros a. by rewrite E, Hfg. Qed.
Lemma shift_refl d : neutral d d.
Proof. intros Hi. split; [done|]. intros a. lia. Qed.
Lemma neutral_trans d1 d2 d3 f : neutral d1 d2 -> shift d2 d3 f -> shift d1 d3 f.
Proof. intros H1 H2. eapply shift_ext, shift_trans; [|exact H1|exact H2]. done. Qed.
Lemma neutral_trans_r d1 d2 d3 f : shift d1 d2 f -> neutral d2 d3 -> shift d1 d3 f.
Proof. intros H1 H2. eapply shift_ext, shift_trans; [|exact H1|exact H2]. intros; cbn; lia. Qed.

(** ** Steps on the ledger *)
Lemma statics_books d d' :
  statics d' = statics d ->
  budget_pool (dgp d') + owed_coins d' = budget_pool (dgp d) + owed_coins d /\ issued d' = issued d /\
  next_asset_id d' = next_asset_id d /\ assets d' = assets d.
Proof. unfold statics. intros [= Ha _ _ Hg Hb Hi Hn]. by rewrite Hg, Hb, Hi, Hn, Ha. Qed.

Lemma conserves_neutral d d' : conserves d d' -> neutral d d'.
Proof.
  intros H [Hm Hf]. destruct (H Hm) as (Hm' & Hs & Hsup). apply statics_books in Hs as (Hb & Hi & Hn & _).
  split; [split; [done|unfold asset_ids_fresh; by rewrite Hi, Hn]|].
  intros a. unfold imbalance, circulating, issued_of. rewrite Hb, Hi, Hsup. lia.
Qed.
Lemma flow_shift d d' f : flow d d' f (fun _ => 0) -> shift d d' f.
Proof.
  intros H [[M1 M2 M3 M4] Hf]. pose proof (flow_statics _ _ _ _ H) as Hs.
  pose proof (fees_ok_flow _ _ _ _ H M1) as Hfees.
  apply statics_books in Hs as (Hb & Hi & Hn & _).
  split; [split; [split|unfold asset_ids_fresh; by rewrite Hi, Hn]|].
  - done.
  - intros id. rewrite (flow_next _ _ _ _ H). intros Hid. by apply (flow_no_new _ _ _ _ H), M2.
  - by apply (flow_inv _ _ _ _ H).
  - intros x. by rewrite (flow_gap _ _ _ _ H), M4.
  - intros a. unfold imbalance, circulating, issued_of. rewrite Hb, Hi, (flow_supply _ _ _ _ H). lia.
Qed.

(** A step that touches neither the ledger nor what the invariants speak of. *)
Lemma same_shift d d' x :
  ledger_of d' = ledger_of d -> assets d' = assets d -> issued d' = issued d ->
  next_asset_id d' = next_asset_id d -> next_order_id d' = next_order_id d ->
  budget_pool (dgp d') + owed_coins d' = budget_pool (dgp d) + owed_coins d + x ->
  shift d d' (only CORE_ASSET_AID x).
Proof.
  intros HL Ha Hi Hn Ho Hb [[M1 M2 M3 M4] Hf].
  split; [split; [split|unfold asset_ids_fresh; by rewrite Hi, Hn]|].
  - unfold fees_ok. by rewrite Ha.
  - intros id. rewrite Ho. pose proof (f_equal l_orders HL) as Hor. cbn in Hor. rewrite Hor. apply M2.
  - by rewrite HL.
  - intros acc. by rewrite HL.
  - intros a. unfold imbalance, circulating, issued_of. rewrite HL, Hi, Hb, only_add. lia.
Qed.
Lemma same_neutral d d' :
  ledger_of d' = ledger_of d -> assets d' = assets d -> issued d' = issued d ->
  next_asset_id d' = next_asset_id d -> next_order_id d' = next_order_id d ->
  budget_pool (dgp d') + owed_coins d' = budget_pool (dgp d) + owed_coins d -> neutral d d'.
Proof.
  intros. eapply shift_ext, same_shift; [intros a; apply only_zero|done..|]. by rewrite Z.add_0_r.
Qed.

Section steps.
Context {F : FcInt} {FL : FcIntLaws F} {C : ChainConfig}.

Lemma adjust_balance_shift acc a d u d' :
  adjust_balance acc a d = Ok (u, d') -> shift d d' (only (asset_id a) (amount a)).
Proof. intros H. by eapply flow_shift, flow_adjust. Qed.

(** A change of one account's statistics that leaves its balances: [x] is what
    it gains in prepaid and uncollected coins. *)
Lemma modify_stats_shift acc fn d u d' x :
  modify_stats acc fn d = Ok (u, d') ->
  (forall s s', stats d !! acc = Some s -> fn s = Ok s' ->
     core_balance s' = core_balance s /\ total_core_in_orders s' = total_core_in_orders s /\
     uncollected_market_fees s' = uncollected_market_fees s /\
     m_prepaid (money_of s') + m_uncollected (money_of s')
     = m_prepaid (money_of s) + m_uncollected (money_of s) + x) ->
  shift d d' (only CORE_ASSET_AID x).
Proof.
  intros H Hf. apply flow_shift. eapply flow_ext; [| |eapply (flow_stats _ _ _ _ _ _ 0 H)].
  - done.
  - intros y. apply only_zero.
  - intros s s' Hs Hfs. destruct (Hf s s' Hs Hfs) as (Hc & Ho & Hm & Hp).
    split_and!; [exact Hc|cbn; lia|]. intros a. unfold in_money, only.
    change (m_fees (money_of s')) with (uncollected_market_fees s').
    change (m_fees (money_of s)) with (uncollected_market_fees s).
    rewrite Hm, (Z.eqb_sym CORE_ASSET_AID a). destruct (a =? CORE_ASSET_AID); lia.
Qed.

(** A change of a witness. *)
Lemma set_witness_shift uid w w' d x :
  witnesses d !! uid = Some w -> owed_bonus w' = owed_bonus w + x ->
  shift d (d <| witnesses ::= <[uid := w']> |>) (only CORE_ASSET_AID x).
Proof.
  intros Hw Ho. apply same_shift; try done. rewrite (owed_coins_witness _ _ _ _ Hw). cbn. lia.
Qed.
Lemma modify_witness_ok uid f d u d' :
  modify_witness uid f d = Ok (u, d') ->
  exists w w', witnesses d !! uid = Some w /\ f w = Ok w' /\ d' = d <| witnesses ::= <[uid := w']> |>.
Proof.
  unfold modify_witness. intros H. apply bind_ok in H as (w & Hw & H). apply deref_ok in Hw.
  apply bind_ok in H as (w' & Hw' & H). apply (inj Ok), pair_equal_spec in H as [_ <-]. by exists w, w'.
Qed.
Lemma modify_witness_shift uid fn d u d' x :
  modify_witness uid fn d = Ok (u, d') ->
  (forall w w', witnesses d !! uid = Some w -> fn w = Ok w' -> owed_bonus w' = owed_bonus w + x) ->
  shift d d' (only CORE_ASSET_AID x).
Proof.
  intros H Hf. apply modify_witness_ok in H as (w & w' & Hw & Hw' & ->).
  eapply set_witness_shift; [exact Hw|by eapply Hf].
Qed.

(** A change of the global properties. *)
Lemma modify_dgp_shift fn d u d' x :
  modify_dgp fn d = Ok (u, d') ->
  (forall g, fn (dgp d) = Ok g -> budget_pool g = budget_pool (dgp d) + x) ->
  shift d d' (only CORE_ASSET_AID x).
Proof.
  unfold modify_dgp. intros H Hf. apply bind_ok in H as (g & Hg & [= _ <-]).
  apply same_shift; try done. cbn. rewrite (Hf g Hg). change (owed_coins (d <| dgp := g |>)) with (owed_coins d).
  lia.
Qed.

(** A change of the supply recorded or the fees accumulated for an asset. *)
Lemma dynamic_data_shift aid dd dd' d :
  asset_dynamic_data d !! aid = Some dd ->
  shift d (d <| asset_dynamic_data ::= <[aid := dd']> |>)
    (only aid (accumulated_fees dd' - accumulated_fees dd - (current_supply dd' - current_supply dd))).
Proof.
  intros Hd [[M1 M2 M3 M4] Hf]. split; [split; [by split|]|].
  - intros a Ha. specialize (Hf a Ha). unfold issued in *. cbn in *. rewrite fmap_insert.
    rewrite lookup_fmap in Hf. rewrite lookup_insert_ne, lookup_fmap; [done|]. intros ->.
    by rewrite Hd in Hf.
  - intros a. unfold imbalance, circulating, issued_of, supply, in_fees, issued, only. cbn.
    change (owed_coins (d <| asset_dynamic_data ::= ?g |>)) with (owed_coins d).
    rewrite fmap_insert. destruct (Z.eqb_spec aid a) as [<-|Hne].
    + rewrite !lookup_insert_eq, lookup_fmap, Hd. cbn. lia.
    + rewrite !lookup_insert_ne by done. lia.
Qed.
Lemma modify_dynamic_data_shift aid fn d u d' x :
  modify_dynamic_data aid fn d = Ok (u, d') ->
  (forall dd dd', fn dd = Ok dd' ->
     accumulated_fees dd' - accumulated_fees dd - (current_supply dd' - current_supply dd) = x) ->
  shift d d' (only aid x).
Proof.
  unfold modify_dynamic_data. intros H Hf. apply bind_ok in H as (a & _ & H).
  apply bind_ok in H as (dd & Hd & H). apply deref_ok in Hd. apply bind_ok in H as (dd' & Hd' & [= _ <-]).
  rewrite <- (Hf dd dd' Hd'). by apply dynamic_data_shift.
Qed.
Lemma adjust_supply_shift aid delta d u d' :
  adjust_supply aid delta d = Ok (u, d') -> shift d d' (only aid (- delta)).
Proof.
  intros H. eapply modify_dynamic_data_shift; [exact H|]. intros dd dd' Hd.
  apply bind_ok in Hd as (x & Hx & [= <-]). apply safe_add_ok in Hx as [-> _]. cbn. lia.
Qed.
End steps.

(** Close the equations between changes that [shift_ext] leaves. *)
Ltac shift_lia := intros; cbv beta; unfold only in *; repeat case_match; lia.
(** Chain two shifts whose sum is the one wanted. *)
Ltac shift_seq H1 H2 := eapply shift_ext, shift_trans; [|exact H1|exact H2]; shift_lia.
