(* ===== verification/TreasuryProof.v ===== *)
(** * The operations that create, destroy and pay coins keep the books

    Each lemma shows that one operation is neutral: what it adds to or takes
    from balances, pools and bonuses is what it adds to or takes from the
    recorded supply. *)
From S2P Require Import Prelude FcInt FlatMap Asset Pledge ChainState AccountStats.
From S2P Require Import Voter WitnessSchedule MapSum Balance Transfer Frame Ledger.
From S2P Require Import TransferProof Market MarketProof Fee AssetOps Payroll Mining Treasury.
Local Open Scope Z_scope.
Import asset pledge chain acc voter balance transfer fee asset_ops payroll mining market schedule.

Section fees.
Context {F : FcInt} {FL : FcIntLaws F} {C : ChainConfig}.

(** A validated fee has no negative part. *)
Lemma add_fee_part_ok total p r :
  add_fee_part total p = Ok r -> 0 <= fee_part p /\ amount r = amount total + fee_part p /\
  match p with Some a => asset_id a = CORE_ASSET_AID | None => True end.
Proof.
  unfold add_fee_part, validate_fee_asset, add. destruct p as [a|]; cbn [fee_part].
  - intros H. inv_ok. bool_to_prop. inv_safe. cbn. auto.
  - intros [= <-]. split_and!; [lia|lia|done].
Qed.
Lemma validate_op_fee_ok fee :
  validate_op_fee fee = Ok tt ->
  0 <= amount (fee_total fee) /\ asset_id (fee_total fee) = CORE_ASSET_AID /\
  match fee_options fee with
  | None => True
  | Some fov => 0 <= fee_part (fee_from_balance fov) /\ 0 <= fee_part (fee_from_prepaid fov) /\
      0 <= fee_part (fee_from_csaf fov) /\
      fee_part (fee_from_balance fov) + fee_part (fee_from_prepaid fov) + fee_part (fee_from_csaf fov)
      = amount (fee_total fee)
  end.
Proof.
  unfold validate_op_fee, validate_fee_asset. intros H. apply bind_ok in H as (u & Hv & H).
  apply bind_ok in Hv as (u' & Hv1 & Hv2). inv_ok. bool_to_prop. split_and!; [done..|].
  destruct (fee_options fee) as [fov|]; [|done].
  apply bind_ok in H as (t1 & H1 & H). apply bind_ok in H as (t2 & H2 & H).
  apply bind_ok in H as (t3 & H3 & H). apply guard_ok_inv, Z.eqb_eq in H.
  apply add_fee_part_ok in H1 as (P1 & E1 & _). apply add_fee_part_ok in H2 as (P2 & E2 & _).
  apply add_fee_part_ok in H3 as (P3 & E3 & _). cbn in E1. split_and!; lia.
Qed.

(** What [prepare_fee] makes of a validated fee: three parts that are not
    negative and add up to the total, the first in core coins. *)
Lemma prepare_fee_ok uid fee d p :
  validate_op_fee fee = Ok tt -> prepare_fee uid fee d = Ok p ->
  0 <= paid_from_balance p /\ 0 <= paid_from_prepaid p /\ 0 <= paid_from_csaf p /\
  paid_from_balance p + paid_from_prepaid p + paid_from_csaf p = total_fee_paid p /\
  total_fee_paid p = amount (fee_total fee) /\
  fee_from_account p = Asset (paid_from_balance p) CORE_ASSET_AID.
Proof.
  intros Hv H. apply validate_op_fee_ok in Hv as (Ht & _ & Hv). unfold prepare_fee in H.
  apply bind_ok in H as (a & _ & H). apply bind_ok in H as (u & Hid & H).
  apply guard_ok_inv, Z.eqb_eq in Hid. apply bind_ok in H as (s & _ & [= <-]).
  cbn [paid_from_balance paid_from_prepaid paid_from_csaf total_fee_paid fee_from_account].
  destruct (fee_options fee) as [fov|].
  - destruct Hv as (P1 & P2 & P3 & Hsum). unfold fee_part in P1, Hsum.
    destruct (fee_from_balance fov) as [[x i]|]; cbn in *; subst; split_and!; done || lia.
  - destruct (fee_total fee) as [x i]. cbn in *. subst. split_and!; done || lia.
Qed.

Lemma take_fee_neutral st uid p d u d' :
  skip_fee st = false -> 0 <= paid_from_balance p -> 0 <= paid_from_prepaid p ->
  fee_from_account p = Asset (paid_from_balance p) CORE_ASSET_AID ->
  take_fee st uid p d = Ok (u, d') -> neutral d d'.
Proof.
  intros Hsk Hb Hp Ha H. unfold take_fee in H. step H as u1 d1 H1. rewrite Ha in H1. cbn [amount] in H1.
  assert (shift d d1 (only CORE_ASSET_AID (- paid_from_balance p))) as S1.
  { destruct (Z.ltb_spec 0 (paid_from_balance p)).
    - unfold when in H1. peel H1 as a Hn. apply bind_ok in Hn as (x & Hx & [= <-]).
      apply safe_neg_ok in Hx as [-> _]. exact (adjust_balance_shift _ _ _ _ _ H1).
    - injection H1 as _ <-. replace (paid_from_balance p) with 0 by lia.
      eapply shift_ext, shift_refl. intros a. symmetry. apply only_zero. }
  unfold process_fee_options in H. rewrite Hsk in H. peel H as dg Hg. peel H as sx Hs.
  peel H as u2 E2. peel H as u3 E3. step H as u4 d2 H2. peel H as burnt Hbu.
  apply safe_add_ok in Hbu as [-> _].
  eapply modify_stats_shift with (x := - paid_from_prepaid p) in H2.
  2: { intros s0 s' _ Hf. apply bind_ok in Hf as (x & Hx & Hf). apply bind_ok in Hf as (y & _ & [= <-]).
       split_and!; [done..|]. cbn. destruct (Z.ltb_spec 0 (paid_from_prepaid p)).
       - apply safe_sub_ok in Hx as [-> _]. lia.
       - injection Hx as <-. lia. }
  eapply modify_dynamic_data_shift with (x := paid_from_prepaid p + paid_from_balance p) in H.
  2: { intros dd dd' Hf. apply bind_ok in Hf as (x & Hx & [= <-]). apply safe_sub_ok in Hx as [-> _].
       cbn. lia. }
  pose proof (shift_trans _ _ _ _ _ S1 H2) as S2. shift_seq S2 H.
Qed.

(** An evaluated operation is neutral when its own part is. *)
Lemma run_evaluator_shift st uid fee required (op : M database unit) d u d' f :
  skip_fee st = false -> validate_op_fee fee = Ok tt ->
  (forall u' d1, op d = Ok (u', d1) -> shift d d1 f) ->
  run_evaluator st uid fee required op d = Ok (u, d') -> shift d d' f.
Proof.
  intros Hsk Hv Hop H. unfold run_evaluator in H. peel H as dg Hg. peel H as p Hp. peel H as u1 E1.
  step H as u2 d1 H1. destruct (prepare_fee_ok _ _ _ _ Hv Hp) as (P1 & P2 & _ & _ & _ & Ha).
  eapply neutral_trans_r; [by eapply Hop|]. by eapply take_fee_neutral.
Qed.
End fees.

Section asset_operations.
Context {F : FcInt} {FL : FcIntLaws F} {C : ChainConfig}.

Lemma asset_issue_neutral issuer to amt d u d' :
  asset_issue issuer to amt d = Ok (u, d') -> neutral d d'.
Proof.
  intros H. unfold asset_issue, issue_apply in H. peel H as dg Hg. peel H as u1 E1. step H as u2 d1 H1.
  apply adjust_balance_shift in H1. apply adjust_supply_shift in H. shift_seq H1 H.
Qed.
Lemma asset_reserve_neutral payer amt d u d' :
  asset_reserve payer amt d = Ok (u, d') -> neutral d d'.
Proof.
  intros H. unfold asset_reserve, reserve_apply in H. peel H as dg Hg. peel H as u1 E1.
  peel H as n Hn. apply bind_ok in Hn as (x & Hx & [= <-]). apply safe_neg_ok in Hx as [-> _].
  step H as u2 d1 H1. apply adjust_balance_shift in H1. cbn [asset_id amount] in H1.
  eapply modify_dynamic_data_shift with (x := amount amt) in H.
  2: { intros dd dd' Hf. apply bind_ok in Hf as (x & Hx & [= <-]). apply safe_sub_ok in Hx as [-> _].
       cbn. lia. }
  shift_seq H1 H.
Qed.
Lemma asset_claim_fees_neutral issuer amt d u d' :
  asset_claim_fees issuer amt d = Ok (u, d') -> neutral d d'.
Proof.
  intros H. unfold asset_claim_fees, claim_apply in H. peel H as dg Hg. peel H as u1 E1. peel H as d0 Hg0.
  peel H as a E2. peel H as dd E3. peel H as u2 E4. step H as u3 d1 H1.
  eapply modify_dynamic_data_shift with (x := - amount amt) in H1.
  2: { intros dd0 dd' Hf. apply bind_ok in Hf as (x & Hx & [= <-]). apply safe_sub_ok in Hx as [-> _].
       cbn. lia. }
  apply adjust_balance_shift in H. shift_seq H1 H.
Qed.

(** Options that passed [validate] have fees the market can charge. *)
Definition options_typed (o : asset_options) : Prop := is_uint 16 (o_market_fee_percent o).
Lemma validate_options_ok o a :
  options_typed o -> validate_options o = Ok tt ->
  fee_ok (with_options o a) /\ 0 < o_max_supply o <= MAX_SHARE_SUPPLY.
Proof.
  intros Ht H. unfold validate_options in H. inv_ok. bool_to_prop.
  split; [|lia]. unfold fee_ok, options_typed, is_uint in *. cbn. lia.
Qed.
Lemma fees_ok_insert aid a d :
  fee_ok a -> fees_ok d -> fees_ok (d <| assets ::= <[aid := a]> |>).
Proof.
  intros Ha Hd i b Hb. cbn in Hb. apply lookup_insert_Some in Hb as [[_ <-]|[_ Hb]]; [done|by eapply Hd].
Qed.
Lemma set_asset_neutral aid a d : fee_ok a -> neutral d (d <| assets ::= <[aid := a]> |>).
Proof.
  intros Ha [[M1 M2 M3 M4] Hf]. split; [|intros x; unfold imbalance, circulating, issued_of; cbn].
  - split; [split; try done; by apply fees_ok_insert|done].
  - symmetry. apply Z.add_0_r.
Qed.
Lemma asset_update_neutral valid_uid op d u d' :
  options_typed (au_options op) -> validate_update valid_uid op = Ok tt ->
  asset_update op d = Ok (u, d') -> neutral d d'.
Proof.
  intros Ht Hv H. unfold asset_update, update_apply in H. peel H as dg Hg. peel H as u1 E1.
  apply bind_ok in H as (a & _ & [= _ <-]). apply set_asset_neutral.
  unfold validate_update in Hv. apply bind_ok in Hv as (u2 & _ & Hv). apply bind_ok in Hv as (u3 & _ & Hv).
  by apply validate_options_ok.
Qed.

(** A new asset starts with its initial supply, held by the issuer. *)
Lemma new_asset_shift aid a x d :
  fee_ok a -> aid = next_asset_id d ->
  shift d (d <| asset_dynamic_data ::= <[aid := {| current_supply := x; accumulated_fees := 0 |}]> |>
             <| assets ::= <[aid := a]> |> <| next_asset_id := aid + 1 |>) (only aid (- x)).
Proof.
  intros Ha -> [[M1 M2 M3 M4] Hf]. pose proof (Hf _ (Z.le_refl _)) as Hn.
  unfold issued in Hn. rewrite lookup_fmap in Hn. apply fmap_None in Hn.
  split; [split; [split; try done; by apply fees_ok_insert|]|].
  - intros i Hi. cbn in Hi. unfold issued. cbn. rewrite fmap_insert, lookup_insert_ne by lia.
    apply Hf. lia.
  - intros b. unfold imbalance, circulating, issued_of, supply, in_fees, issued, only. cbn.
    change (owed_coins _) with (owed_coins d) at 1. rewrite fmap_insert.
    destruct (Z.eqb_spec (next_asset_id d) b) as [<-|Hne].
    + rewrite !lookup_insert_eq, lookup_fmap, Hn. cbn. lia.
    + rewrite !lookup_insert_ne by done. lia.
Qed.
Lemma asset_create_neutral valid_uid op d u d' :
  options_typed (ac_options op) -> validate_create valid_uid op = Ok tt ->
  asset_create op d = Ok (u, d') -> neutral d d'.
Proof.
  intros Ht Hv H. unfold asset_create, create_apply in H. peel H as dg Hg. peel H as u1 E1.
  peel H as d0 Hg0. step H as u2 d1 H1. injection H1 as _ <-.
  set (a := with_options _ _) in H. set (x := default 0 _) in H.
  assert (fee_ok a) as Ha.
  { unfold validate_create in Hv. apply bind_ok in Hv as (v1 & _ & Hv). apply bind_ok in Hv as (v2 & _ & Hv).
    apply bind_ok in Hv as (v3 & Hv & _). destruct v3. by apply validate_options_ok. }
  assert (0 <= x) as Hx.
  { unfold validate_create in Hv. do 4 (apply bind_ok in Hv as (? & _ & Hv)).
    subst x. destruct (ac_initial_supply op) as [[y|]|]; cbn; [|done..].
    apply bind_ok in Hv as (u3 & Hy & _). apply guard_ok_inv, Z.ltb_lt in Hy. lia. }
  pose proof (new_asset_shift (next_asset_id d) a x d Ha eq_refl) as S1.
  destruct (Z.ltb_spec 0 x).
  - apply adjust_balance_shift in H. cbn [asset_id amount] in H. shift_seq S1 H.
  - injection H as _ <-. eapply shift_ext, S1. assert (x = 0) as -> by lia. intros b. apply only_zero.
Qed.
End asset_operations.

(** * Paying the witness of a block keeps the books

    The budget of the block is minted; the witness, those who pledged to it
    and the budget pool receive exactly that. *)
(** What the types and the evaluators of witnesses guarantee of the members
    that decide how pay is shared. *)
Record shares_ok (w : witness_object) : Prop := {
  so_rate : 0 <= bonus_rate w <= PERCENT_100;
  so_pledge : 0 <= w_pledge w;
  so_mining : 0 <= w_total_mining_pledge w;
  so_total : w_pledge w + w_total_mining_pledge w <= MAX_SHARE_SUPPLY;
}.
(** Budgets and pay rates are not negative. *)
Definition budget_ok (d : database) : Prop :=
  0 <= total_budget_per_block (dgp d) /\ forall t, 0 <= witness_pay_of d t.

Section pay.
Context {F : FcInt} {FL : FcIntLaws F} {C : ChainConfig}.

(** The pledgers' part of a pay is a part of it. *)
Definition bonus_share (pay : Z) (w : witness_object) : Z :=
  pay * bonus_rate w * w_total_mining_pledge w
  / ((w_pledge w + w_total_mining_pledge w) * PERCENT_100).
Lemma bonus_share_range pay w :
  shares_ok w -> 0 <= pay -> w_total_mining_pledge w <> 0 -> 0 <= bonus_share pay w <= pay.
Proof.
  intros [R P T S] Hp H0. unfold bonus_share. split.
  - apply Z.div_pos; nia.
  - apply Z.div_le_upper_bound; [nia|].
    transitivity (pay * PERCENT_100 * w_total_mining_pledge w); [|nia].
    apply Z.mul_le_mono_nonneg_r; nia.
Qed.
Lemma bonus_share_code pay w x :
  shares_ok w -> 0 <= pay < 2 ^ 63 -> w_total_mining_pledge w <> 0 ->
  (q ← bigint_div (pay * bonus_rate w * w_total_mining_pledge w)
         (u64 (u64 (w_pledge w + w_total_mining_pledge w) * PERCENT_100)); bigint_to_int64 q) = Ok x ->
  x = bonus_share pay w.
Proof.
  intros Hw Hp H0. pose proof (bonus_share_range pay w Hw ltac:(lia) H0) as Hr. destruct Hw as [R P T S].
  unfold u64. rewrite (wrap_small 64 (w_pledge w + _)) by (unfold is_uint; lia).
  rewrite wrap_small by (unfold is_uint; lia). rewrite bigint_div_law by nia. cbn.
  fold (bonus_share pay w). rewrite bigint_to_int64_law by (apply int64_ok_iff; lia). by intros [= <-].
Qed.

Lemma pay_stats_shift acc x d u d' :
  modify_stats acc (fun s => y ← safe_add (uncollected_witness_pay s) x;
                             Ok (s <| uncollected_witness_pay := y |>)) d = Ok (u, d') ->
  shift d d' (only CORE_ASSET_AID x).
Proof.
  intros H. eapply modify_stats_shift; [exact H|]. intros s s' _ Hf.
  apply bind_ok in Hf as (y & Hy & [= <-]). apply safe_add_ok in Hy as [-> _]. split_and!; [done..|].
  cbn. lia.
Qed.

Lemma deposit_witness_pay_shift wit pay t d u d' :
  (forall w, witnesses d !! wit = Some w -> shares_ok w) -> pay < 2 ^ 63 ->
  deposit_witness_pay wit pay t d = Ok (u, d') -> shift d d' (only CORE_ASSET_AID pay).
Proof.
  intros Hok Hmax H. unfold deposit_witness_pay in H. peel H as u1 E1. apply Z.leb_le in E1.
  destruct (Z.eqb_spec pay 0) as [->|Hne].
  { injection H as _ <-. eapply shift_ext, shift_refl. intros a. symmetry. apply only_zero. }
  peel H as dg Hg. peel H as w Hw. apply deref_ok in Hw. peel H as sx E2.
  destruct (_ || _ || _ || _) eqn:Eb; [by eapply pay_stats_shift|].
  apply orb_false_elim in Eb as [Eb _]. apply orb_false_elim in Eb as [_ Hmine%Z.eqb_neq].
  peel H as q Hq. peel H as b Hb. step H as u2 d1 H1. peel H as rest Hr.
  apply safe_sub_ok in Hr as [-> _].
  assert (b = bonus_share pay w) as -> by (eapply bonus_share_code; [by apply Hok|lia|done|by rewrite Hq]).
  pose proof (bonus_share_range pay w (Hok _ Hw) ltac:(lia) Hmine) as Hrange.
  apply pay_stats_shift in H.
  assert (shift d d1 (only CORE_ASSET_AID (bonus_share pay w))) as S1.
  { destruct (Z.ltb_spec 0 (bonus_share pay w)).
    - eapply modify_witness_shift; [exact H1|]. intros w0 w' _ Hf.
      apply bind_ok in Hf as (x & _ & Hf). apply bind_ok in Hf as (n & Hn & [= <-]).
      apply safe_add_ok in Hn as [-> _]. unfold owed_bonus. case_match; cbn; lia.
    - injection H1 as _ <-. replace (bonus_share pay w) with 0 by lia.
      eapply shift_ext, shift_refl. intros a. symmetry. apply only_zero. }
  shift_seq S1 H.
Qed.

Lemma shift_when (b : bool) m d u d' f :
  when b m d = Ok (u, d') -> (b = true -> m d = Ok (u, d') -> shift d d' f) ->
  (b = false -> forall a, f a = 0) -> shift d d' f.
Proof.
  destruct b; intros H Hm Hz; [by apply Hm|]. injection H as _ <-.
  eapply shift_ext, shift_refl. intros a. symmetry. by apply Hz.
Qed.

(** The witnesses and parameters while the budget of a block is booked. *)
Lemma keeps_adjust_supply {X} (p : database -> X) aid delta :
  (forall d f, p (d <| asset_dynamic_data ::= f |>) = p d) -> keeps p (adjust_supply aid delta).
Proof.
  intros Hp d u d' H. unfold adjust_supply, modify_dynamic_data in H. inv_ok. apply Hp.
Qed.
Lemma keeps_modify_dgp {X} (p : database -> X) f :
  (forall d g, p (d <| dgp := g |>) = p d) -> keeps p (modify_dgp f).
Proof. intros Hp d u d' H. unfold modify_dgp in H. inv_ok. apply Hp. Qed.

Lemma block_budget_range d t budget pay :
  budget_ok d -> block_budget d t = Ok (budget, pay) -> 0 <= pay <= budget /\ budget < 2 ^ 63.
Proof.
  intros [Hb Hpay] H. specialize (Hpay t). unfold block_budget in H. apply bind_ok in H as (core & _ & H).
  apply bind_ok in H as (r & Hr & [= <- <-]). unfold reserved in Hr. apply bind_ok in Hr as (dd & _ & Hr).
  apply bind_ok in Hr as (rx & Hrx & [= <-]). apply safe_sub_ok in Hrx as [-> Hrx]. lia.
Qed.
Lemma update_signing_witness_neutral wit time num d u d' :
  budget_ok d -> (forall w, witnesses d !! wit = Some w -> shares_ok w) ->
  update_signing_witness wit time num d = Ok (u, d') -> neutral d d'.
Proof.
  intros Hb Hok H. unfold update_signing_witness in H. peel H as dg Hg. peel H as slot E1.
  peel H as t Ht. peel H as bp Hbp. destruct bp as [budget pay]. peel H as rem Hrem.
  apply safe_sub_ok in Hrem as [-> _]. peel H as u1 E2. step H as u2 d1 H1. step H as u3 d2 H2.
  step H as u4 d3 H3. step H as u5 d4 H4.
  pose proof (block_budget_range _ _ _ _ Hb Hbp) as Hrange.
  assert (shift d d1 (only CORE_ASSET_AID (- budget))) as S1.
  { eapply shift_when; [exact H1|intros _ Hm; exact (adjust_supply_shift _ _ _ _ _ Hm)|].
    intros Hz%Z.ltb_ge a. replace (- budget) with 0 by lia. apply only_zero. }
  assert (shift d1 d2 (only CORE_ASSET_AID (budget - pay))) as S2.
  { eapply shift_when; [exact H2|intros _ Hm; eapply modify_dgp_shift; [exact Hm|]|].
    - intros g Hgf. apply bind_ok in Hgf as (x & Hx & [= <-]). by apply safe_add_ok in Hx as [-> _].
    - intros Hz%Z.ltb_ge a. replace (budget - pay) with 0 by lia. apply only_zero. }
  assert (witnesses d2 = witnesses d) as Hw2.
  { assert (keeps witnesses (when (0 <? budget) (adjust_supply CORE_ASSET_AID budget))) as K1
      by (apply keeps_when, keeps_adjust_supply; done).
    rewrite <- (K1 _ _ _ H1). eapply keeps_when, H2. by apply keeps_modify_dgp. }
  assert (shift d2 d3 (only CORE_ASSET_AID pay)) as S3.
  { eapply shift_when; [exact H3|intros _ Hm; eapply deposit_witness_pay_shift; [|lia|exact Hm]|].
    - rewrite Hw2. exact Hok.
    - intros Hz%Z.ltb_ge a. replace pay with 0 by lia. apply only_zero. }
  assert (shift d3 d4 (only CORE_ASSET_AID 0)) as S4.
  { eapply modify_witness_shift; [exact H4|]. intros w w' _ [= <-]. unfold owed_bonus. cbn. lia. }
  eapply modify_stats_shift with (x := 0) in H.
  2: { intros s s' _ [= <-]. split_and!; [done..|cbn; lia]. }
  pose proof (shift_trans _ _ _ _ _ S1 (shift_trans _ _ _ _ _ S2 (shift_trans _ _ _ _ _ S3 S4))) as S5.
  shift_seq S5 H.
Qed.
End pay.
