(* ===== verification/MiningProof.v ===== *)
(** * Pledge mining keeps the books

    Settling a witness pays the accounts that pledged to it and gives what
    rounding left over to the witness: together exactly what it owed. *)
From S2P Require Import Prelude FlatMap FcInt Asset Pledge ChainState.
From S2P Require Import AccountStats Voter Balance Transfer Payroll Mining MapSum Frame.
From S2P Require Import Ledger MarketProof Treasury TreasuryProof.
Local Open Scope Z_scope.
Import asset pledge chain acc voter balance transfer payroll mining.

Section mining.
Context {F : FcInt} {FL : FcIntLaws F} {C : ChainConfig}.

(** What settling a witness leaves alone: it only notes that accounts were paid
    up to the head block. *)
Record same_mining (d d' : database) : Prop := {
  sm_witnesses : witnesses d' = witnesses d;
  sm_replaced : replaced_witnesses d' = replaced_witnesses d;
  sm_pledges : pledge_balances d' = pledge_balances d;
  sm_head : head_block_num d' = head_block_num d;
  sm_minings k pm' : pledge_minings d' !! k = Some pm' ->
    exists pm, pledge_minings d !! k = Some pm /\ pm_pledge_id pm' = pm_pledge_id pm /\
      (last_bonus_block_num pm' = last_bonus_block_num pm \/ last_bonus_block_num pm' = head_block_num d);
}.
Lemma same_mining_refl d : same_mining d d.
Proof. split; try done. intros k pm Hk. exists pm. auto. Qed.
Lemma same_mining_trans d1 d2 d3 : same_mining d1 d2 -> same_mining d2 d3 -> same_mining d1 d3.
Proof.
  intros [A1 A2 A3 A4 A5] [B1 B2 B3 B4 B5]. split; try congruence.
  intros k pm3 (pm2 & (pm1 & H1 & I1 & L1)%A5 & I2 & L2)%B5. exists pm1. split_and!; [done|congruence|].
  destruct L2 as [->| ->]; [done|]. right. congruence.
Qed.

(** The bonus of an account is an amount: neither the bonus per pledge since the
    account was last paid (or since now) is negative, nor does its product with the pledge overflow. *)
Definition witness_payable (d : database) (witness : Z) (w : witness_object) : Prop :=
  forall account pm n per p, pledge_minings d !! (witness, account) = Some pm ->
    (n = last_bonus_block_num pm \/ n = head_block_num d) ->
    accumulate_bonus_per_pledge (u32 (n + 1)) w = Ok per -> pledge_of (pm_pledge_id pm) d = Ok p ->
    0 <= per /\ 0 <= p /\ per * p < 2 ^ 63 * BONUS_PRECISION.
Lemma payable_same d d' witness w :
  same_mining d d' -> witness_payable d witness w -> witness_payable d' witness w.
Proof.
  intros [_ _ Hb Hh Hm] H account pm' n per p (pm & Hpm & Hid & HL)%Hm Hn. rewrite Hid, Hh in *.
  unfold pledge_of, get_pledge_balance_object. rewrite Hb. apply (H account pm); [done|].
  destruct Hn as [->| ->]; [|by right]. destruct HL as [->| ->]; auto.
Qed.

Lemma bonus_quotient per p :
  0 <= per -> 0 <= p -> per * p < 2 ^ 63 * BONUS_PRECISION -> per < 2 ^ 128 ->
  u128_div (u128_mul (u128_of per) p) BONUS_PRECISION = Ok (per * p / BONUS_PRECISION) /\
  u128_to_i64 (per * p / BONUS_PRECISION) = per * p / BONUS_PRECISION /\
  0 <= per * p / BONUS_PRECISION.
Proof.
  unfold BONUS_PRECISION. intros H1 H2 H3 H4.
  assert (0 <= per * p / 1000000000000 < 2 ^ 63) as Hq.
  { split; [apply Z.div_pos; lia|apply Z.div_lt_upper_bound; lia]. }
  rewrite u128_of_small, u128_mul_small, u128_div_law by lia.
  rewrite u128_to_i64_law by exact Hq. split_and!; [done..|lia].
Qed.

Lemma accumulate_range acc l : - 2 ^ 31 <= acc < 2 ^ 31 -> - 2 ^ 31 <= accumulate acc l < 2 ^ 31.
Proof.
  revert acc. induction l as [|p l IH]; intros acc Ha; [done|]. cbn [accumulate]. apply IH.
  unfold i32. pose proof (Z.mod_pos_bound (u64 (u64 acc + p.2) + 2 ^ 31) (2 ^ 32) eq_refl). lia.
Qed.
Lemma accumulate_bonus_range n w per : accumulate_bonus_per_pledge n w = Ok per -> per < 2 ^ 63.
Proof.
  unfold accumulate_bonus_per_pledge. destruct (_ && _).
  - intros H. apply bind_ok in H as (x & _ & H). apply safe_add_ok in H as [-> ?]. lia.
  - intros [= <-]. pose proof (accumulate_range 0 (filter (fun p => n <= p.1) (bonus_per_pledge w))). lia.
Qed.

(** What paying one account does. *)
Lemma bonus_by_account_ok witness w account pm per d x d' :
  witness_payable d witness w -> pledge_minings d !! (witness, account) = Some pm ->
  accumulate_bonus_per_pledge (u32 (last_bonus_block_num pm + 1)) w = Ok per ->
  update_pledge_mining_bonus_by_account (witness, account) per d = Ok (x, d') ->
  shift d d' (only CORE_ASSET_AID x) /\ same_mining d d' /\ 0 <= x.
Proof.
  intros Hpay Hpm Hper H. unfold update_pledge_mining_bonus_by_account in H. peel H as dg Hg.
  peel H as pm' Hpm'. apply deref_ok in Hpm'. rewrite Hpm in Hpm'. injection Hpm' as <-. peel H as p Hp.
  destruct (Hpay account pm _ per p Hpm (or_introl eq_refl) Hper Hp) as (P1 & P2 & P3).
  destruct (Z.eqb_spec p 0) as [->|Hne].
  { injection H as <- <-. split_and!; [|apply same_mining_refl|done]. eapply shift_ext, shift_refl.
    intros a. symmetry. apply only_zero. }
  destruct (bonus_quotient per p P1 P2 P3) as (Q1 & Q2 & Q3).
  { apply accumulate_bonus_range in Hper. lia. }
  peel H as q Hq. rewrite Q1 in Hq. injection Hq as <-. rewrite Q2 in H.
  step H as u1 d1 H1. step H as u2 d2 H2. injection H2 as _ <-. injection H as <- <-.
  assert (keeps (fun d => (witnesses d, replaced_witnesses d, pledge_balances d, pledge_minings d, head_block_num d))
    (when (0 <? per * p / BONUS_PRECISION) (modify_stats account (fun s =>
       x ← safe_add (uncollected_pledge_bonus s) (per * p / BONUS_PRECISION);
       Ok (s <| uncollected_pledge_bonus := x |>))))) as K.
  { apply keeps_when. intros e v e' He. apply modify_stats_ok in He as (s & s' & _ & _ & ->). done. }
  specialize (K _ _ _ H1). cbv beta in K. injection K as K1 K2 K3 K4 K5. split_and!; [| |done].
  - eapply neutral_trans_r; [eapply shift_when; [exact H1|..]|by apply same_neutral].
    + intros _ Hm. eapply modify_stats_shift; [exact Hm|]. intros s s' _ Hf.
      apply bind_ok in Hf as (y & Hy & [= <-]). apply safe_add_ok in Hy as [-> _].
      split_and!; [done..|cbn; lia].
    + intros Hz%Z.ltb_ge a. replace (_ / _) with 0 by lia. apply only_zero.
  - split; try done. intros k pm'. cbn. rewrite K4. rewrite lookup_insert_Some. intros [[<- <-]|[_ Hk]].
    + exists pm. cbn. split_and!; [done..|]. right. exact K5.
    + exists pm'. auto.
Qed.

(** Paying a list of accounts. *)
Lemma pay_pledgers_ok witness w accounts send d x d' :
  witness_payable d witness w -> pay_pledgers witness w accounts send d = Ok (x, d') ->
  shift d d' (only CORE_ASSET_AID (x - send)) /\ same_mining d d'.
Proof.
  revert send d. induction accounts as [|a accounts IH]; intros send d Hpay H; cbn [pay_pledgers] in H.
  { injection H as <- <-. split; [|apply same_mining_refl]. eapply shift_ext, shift_refl.
    intros b. rewrite Z.sub_diag. symmetry. apply only_zero. }
  peel H as dg Hg. peel H as pm Hpm. apply deref_ok in Hpm. peel H as per Hper. step H as b d1 H1. peel H as sum Hs.
  apply safe_add_ok in Hs as [-> _].
  destruct (bonus_by_account_ok _ w _ _ _ _ _ _ Hpay Hpm Hper H1) as (S1 & M1 & _).
  apply IH in H as (S2 & M2); [|by eapply payable_same]. split; [shift_seq S1 S2|by eapply same_mining_trans].
Qed.

Lemma bonus_by_witness_ok witness w d u d' :
  witness_payable d witness w -> update_pledge_mining_bonus_by_witness witness w d = Ok (u, d') ->
  shift d d' (only CORE_ASSET_AID (owed_bonus w)) /\ same_mining d d'.
Proof.
  intros Hpay H. unfold update_pledge_mining_bonus_by_witness in H. peel H as dg Hg.
  step H as send d1 H1. peel H as r Hr. apply safe_sub_ok in Hr as [-> _]. peel H as r' Hr'.
  apply safe_sub_ok in Hr' as [-> _]. apply pay_pledgers_ok in H1 as (S1 & M1); [|done].
  pose proof (modify_stats_ok _ _ _ _ _ H) as (s & s' & _ & _ & Ed).
  apply pay_stats_shift in H. split; [unfold owed_bonus; shift_seq S1 H|]. rewrite Ed. by destruct M1; split.
Qed.

(** A round of settlements. *)
Lemma bonus_round {K} `{Countable K} (uid : K -> Z) (l : list (K * witness_object)) d u d' :
  (forall x, x ∈ l -> witness_payable d (uid x.1) x.2) ->
  mfor (fun x => update_pledge_mining_bonus_by_witness (uid x.1) x.2) l d = Ok (u, d') ->
  shift d d' (only CORE_ASSET_AID (zsum (owed_bonus <$> l.*2))) /\ same_mining d d'.
Proof.
  revert d. induction l as [|x l IH]; intros d Hp Hm; cbn [mfor] in Hm.
  { injection Hm as _ <-. split; [|apply same_mining_refl]. eapply shift_ext, shift_refl. intros a. symmetry. apply only_zero. }
  step Hm as u1 d1 H1. apply bonus_by_witness_ok in H1 as (S1 & M1); [|apply Hp; by left].
  apply IH in Hm as (S2 & M2).
  - split; [|by eapply same_mining_trans]. cbn [fmap list_fmap zsum]. shift_seq S1 S2.
  - intros y Hy. eapply payable_same; [exact M1|]. apply Hp. by right.
Qed.

(** Resetting witnesses writes off what they owed. *)
Lemma msum_alter_list {K} `{Countable K} now (l : list (K * witness_object)) (m : gmap K witness_object) :
  NoDup l.*1 -> (forall x, x ∈ l -> m !! x.1 = Some x.2) ->
  msum (fun _ => owed_bonus) (fold_left (fun m x => alter (reset_bonus now) x.1 m) l m)
  = msum (fun _ => owed_bonus) m - zsum (owed_bonus <$> l.*2).
Proof.
  revert m. induction l as [|[k w] l IH]; intros m Hnd Hl; cbn [fold_left fmap list_fmap zsum fst snd].
  { lia. }
  inversion Hnd as [|? ? Hn Hnd']; subst. pose proof (Hl (k, w) ltac:(left)) as Hk. cbn in Hk.
  rewrite IH; [|done|].
  - assert (alter (reset_bonus now) k m = <[k := reset_bonus now w]> m) as ->.
    { apply map_eq. intros i. destruct (decide (k = i)) as [<-|Hne].
      - by rewrite lookup_alter_eq, lookup_insert_eq, Hk.
      - by rewrite lookup_alter_ne, lookup_insert_ne. }
    rewrite (msum_update _ _ _ w) by done. change (owed_bonus (reset_bonus now w)) with 0. lia.
  - intros [k' w'] Hx. cbn. rewrite lookup_alter_ne; [apply (Hl (k', w')); by right|].
    intros ->. apply Hn. apply list_elem_of_fmap. by exists (k', w').
Qed.
Lemma mfor_upd {A} (f : A -> database -> database) l d u d' :
  mfor (fun x => upd (f x)) l d = Ok (u, d') -> d' = fold_left (fun d x => f x d) l d.
Proof.
  revert d. induction l as [|x l IH]; intros d Hm; cbn [mfor fold_left] in *; [by injection Hm as _ <-|].
  step Hm as u1 d1 H1. injection H1 as _ <-. by apply IH.
Qed.

Lemma fold_witnesses now l d :
  fold_left (fun d (x : Z * witness_object) => d <| witnesses ::= alter (reset_bonus now) x.1 |>) l d
  = d <| witnesses ::= fun m => fold_left (fun m x => alter (reset_bonus now) x.1 m) l m |>.
Proof. revert d. induction l as [|x l IH]; intros d; cbn [fold_left]; [by destruct d|]. by rewrite IH. Qed.
Lemma fold_replaced now l d :
  fold_left (fun d (x : Z * Z * witness_object) =>
    d <| replaced_witnesses ::= alter (reset_bonus now) x.1 |>) l d
  = d <| replaced_witnesses ::= fun m => fold_left (fun m x => alter (reset_bonus now) x.1 m) l m |>.
Proof. revert d. induction l as [|x l IH]; intros d; cbn [fold_left]; [by destruct d|]. by rewrite IH. Qed.

Lemma filtered_entries {K} `{Countable K} (P : K * witness_object -> Prop) `{forall x, Decision (P x)}
    (m : gmap K witness_object) :
  NoDup (filter P (map_to_list m)).*1 /\ forall x, x ∈ filter P (map_to_list m) -> m !! x.1 = Some x.2.
Proof.
  split.
  - apply (sublist_NoDup _ _ (NoDup_fst_map_to_list m)). apply fmap_sublist, sublist_filter.
  - intros [k w] Hx. apply list_elem_of_filter in Hx as [_ Hx]. by apply elem_of_map_to_list in Hx.
Qed.

(** Everyone due a settlement can be paid. *)
Definition due_payable (d : database) : Prop :=
  (forall uid w, witnesses d !! uid = Some w -> due_bonus (head_block_num d) w -> witness_payable d uid w) /\
  (forall k w, replaced_witnesses d !! k = Some w -> due_bonus (head_block_num d) w ->
     witness_payable d k.1 w).

Lemma update_pledge_mining_bonus_neutral d u d' :
  due_payable d -> update_pledge_mining_bonus d = Ok (u, d') -> neutral d d'.
Proof.
  intros [P1 P2] H. unfold update_pledge_mining_bonus in H. peel H as dg Hg. cbv zeta in H.
  set (now := head_block_num d) in *.
  set (due := filter (fun x => due_bonus now x.2) (map_to_list (witnesses d))) in H.
  set (old := filter (fun x => due_bonus now x.2) (map_to_list (replaced_witnesses d))) in H.
  step H as u1 d1 H1. step H as u2 d2 H2. step H as u3 d3 H3.
  destruct (filtered_entries (fun x => due_bonus now x.2) (witnesses d)) as [N1 L1]. fold due in N1, L1.
  destruct (filtered_entries (fun x => due_bonus now x.2) (replaced_witnesses d)) as [N2 L2].
  fold old in N2, L2.
  apply (bonus_round id) in H1 as (S1 & M1).
  2: { intros x Hx. apply P1; [by apply L1|]. by apply list_elem_of_filter in Hx as [? _]. }
  apply (bonus_round fst) in H2 as (S2 & M2).
  2: { intros x Hx. eapply payable_same; [exact M1|]. apply P2; [by apply L2|].
       by apply list_elem_of_filter in Hx as [? _]. }
  destruct (same_mining_trans _ _ _ M1 M2) as [W2 R2 _ _ _].
  apply mfor_upd in H3. apply mfor_upd in H. rewrite fold_witnesses in H3. rewrite fold_replaced in H.
  assert (shift d2 d' (only CORE_ASSET_AID (- zsum (owed_bonus <$> due.*2) - zsum (owed_bonus <$> old.*2)))) as S3.
  { apply same_shift; try (by rewrite H, H3). rewrite H, H3. unfold owed_coins. cbn. rewrite W2, R2.
    rewrite !msum_alter_list by done. lia. }
  pose proof (shift_trans _ _ _ _ _ S1 S2) as S4. shift_seq S4 S3.
Qed.

(** ** Changing a pledge *)
Lemma update_pledge_of_neutral id x n d r d' :
  update_pledge_of id x n d = Ok (r, d') ->
  neutral d d' /\ witnesses d' = witnesses d /\ replaced_witnesses d' = replaced_witnesses d.
Proof.
  intros H. unfold update_pledge_of in H. peel H as dg Hg. peel H as p Hp. peel H as y Hy. destruct y as [delta p'].
  step H as u1 d1 H1. injection H1 as _ <-. injection H as _ <-. split_and!; [|done..]. by apply same_neutral.
Qed.
Lemma add_mining_pledge_neutral acc x d u d' :
  add_mining_pledge acc x d = Ok (u, d') -> neutral d d' /\ witnesses d' = witnesses d.
Proof.
  intros H. split.
  - eapply shift_ext; [intros a; apply only_zero|]. eapply modify_stats_shift; [exact H|].
    intros s s' _ Hf. apply bind_ok in Hf as (y & _ & [= <-]). split_and!; [done..|cbn; lia].
  - by apply modify_stats_ok in H as (s & s' & _ & _ & ->).
Qed.

Lemma change_mining_pledge_ok account witness x d delta send d' :
  (forall w, witnesses d !! witness = Some w -> witness_payable d witness w) ->
  change_mining_pledge account witness x d = Ok ((delta, send), d') ->
  shift d d' (only CORE_ASSET_AID send) /\ witnesses d' = witnesses d /\ 0 <= send.
Proof.
  intros Hpay H. unfold change_mining_pledge in H. peel H as dg Hg. cbv zeta in H.
  destruct (pledge_minings d !! (witness, account)) as [pm|] eqn:Hpm.
  - peel H as w Hw. apply deref_ok in Hw. peel H as per Hper. step H as b d1 H1.
    apply (bonus_by_account_ok _ w _ _ _ _ _ _ (Hpay w Hw) Hpm Hper) in H1 as (S1 & M1 & Hb).
    peel H as old Hold. peel H as dl Hdl. step H as av d2 H2. step H as u1 d3 H3. injection H as <- <- <-.
    apply update_pledge_of_neutral in H2 as (S2 & W2 & _). apply add_mining_pledge_neutral in H3 as [S3 W3].
    pose proof (sm_witnesses _ _ M1) as W1. split_and!; [|congruence|done].
    eapply neutral_trans_r; [eapply neutral_trans_r; [exact S1|exact S2]|exact S3].
  - step H as u1 d1 H1. injection H1 as _ <-. step H as u2 d2 H2. injection H as <- <- <-.
    apply add_mining_pledge_neutral in H2 as [S2 W2]. split_and!; [|by rewrite W2|done].
    eapply shift_ext; [intros a; symmetry; apply only_zero|]. eapply neutral_trans; [|exact S2].
    by apply same_neutral.
Qed.

Lemma fix_bonus_owed now w w' :
  fix_bonus now w = Ok w' -> need_distribute_bonus w' = need_distribute_bonus w /\
  already_distribute_bonus w' = already_distribute_bonus w.
Proof.
  unfold fix_bonus. destruct (_ && _); [|by intros [= <-]].
  intros H. by apply bind_ok in H as (x & _ & [= <-]).
Qed.

(** With the last pledge gone, what the witness still owes becomes its pay; what
    it paid beyond what it owed has no cover. *)
Definition uncovered (w : witness_object) (delta send : Z) : Z :=
  if u64 (w_total_mining_pledge w + delta) =? 0
  then Z.max 0 (already_distribute_bonus w + send - need_distribute_bonus w) else 0.
Lemma fix_bonus_total now w w' : fix_bonus now w = Ok w' -> w_total_mining_pledge w' = w_total_mining_pledge w.
Proof.
  unfold fix_bonus. destruct (_ && _); [|by intros [= <-]].
  intros H. by apply bind_ok in H as (x & _ & [= <-]).
Qed.
Lemma settle_witness_ok witness delta send d u d' w :
  witnesses d !! witness = Some w -> 0 <= send ->
  settle_witness witness delta send d = Ok (u, d') ->
  shift d d' (only CORE_ASSET_AID (uncovered w delta send - send)).
Proof.
  intros Hw Hs H. unfold settle_witness in H. peel H as dg Hg. peel H as w0 E0. apply deref_ok in E0.
  rewrite Hw in E0. injection E0 as <-. peel H as w1 E1. pose proof (fix_bonus_total _ _ _ E1) as Et.
  apply fix_bonus_owed in E1 as [En Ea].
  peel H as a Ha. assert (a = already_distribute_bonus w + send) as ->.
  { destruct (Z.ltb_spec 0 send); [apply safe_add_ok in Ha as [-> _]|injection Ha as <-]; lia. }
  cbv zeta in H. step H as w2 d1 H1. injection H as _ <-.
  set (w1' := w1 <| already_distribute_bonus := _ |> <| w_total_mining_pledge ::= _ |>) in H1. unfold uncovered.
  change (w_total_mining_pledge w1') with (u64 (w_total_mining_pledge w1 + delta)) in H1. rewrite Et in H1.
  destruct (u64 (w_total_mining_pledge w + delta) =? 0).
  - step H1 as u2 d2 H2. injection H1 as <- <-.
    assert (shift d d2 (only CORE_ASSET_AID (Z.max 0 (owed_bonus w - send))) /\ witnesses d2 = witnesses d) as [S1 W1].
    { unfold owed_bonus. change (already_distribute_bonus w1') with (already_distribute_bonus w + send) in H2.
      change (need_distribute_bonus w1') with (need_distribute_bonus w1) in H2. rewrite En in H2. split.
      - eapply shift_when; [exact H2|..].
        + intros Hlt%Z.ltb_lt Hm. eapply modify_stats_shift; [exact Hm|]. intros s s' _ Hf.
          apply bind_ok in Hf as (r & Hr & Hf). apply bind_ok in Hf as (y & Hy & [= <-]).
          apply safe_sub_ok in Hr as [-> _]. apply safe_add_ok in Hy as [-> _]. split_and!; [done..|cbn; lia].
        + intros Hz%Z.ltb_ge b. replace (Z.max 0 _) with 0 by lia. apply only_zero.
      - eapply keeps_when, H2. intros e v e' He. by apply modify_stats_ok in He as (s & s' & _ & _ & ->). }
    eapply shift_ext, shift_trans; [|exact S1|eapply set_witness_shift; [by rewrite W1|]].
    + instantiate (1 := - owed_bonus w). unfold owed_bonus. shift_lia.
    + unfold owed_bonus. cbn. lia.
  - injection H1 as <- <-. eapply set_witness_shift; [exact Hw|]. unfold owed_bonus. cbn. lia.
Qed.

(** What a change of a pledge pays without cover: nothing, unless the last pledge
    leaves a witness that has paid more than it owed. *)
Definition overpayment (account witness new_pledge : Z) (d : database) : Z :=
  match witnesses d !! witness, change_mining_pledge account witness new_pledge d with
  | Some w, Ok ((delta, send), _) => uncovered w delta send
  | _, _ => 0
  end.
Lemma overpayment_nonneg account witness x d : 0 <= overpayment account witness x d.
Proof. unfold overpayment, uncovered. repeat case_match; lia. Qed.

Lemma pledge_mining_update_shift account witness x d u d' :
  (forall w, witnesses d !! witness = Some w -> witness_payable d witness w) ->
  pledge_mining_update account witness x d = Ok (u, d') ->
  shift d d' (only CORE_ASSET_AID (overpayment account witness x d)).
Proof.
  intros Hok H. unfold pledge_mining_update in H. peel H as dg Hg. peel H as u1 E1.
  assert (exists w, witnesses d !! witness = Some w) as [w Hw].
  { unfold mining_evaluate, get_witness_by_uid, find_witness_by_uid in E1. apply bind_ok in E1 as (v1 & _ & E1).
    apply bind_ok in E1 as (v2 & _ & E1). apply bind_ok in E1 as (w & Hw & _). apply deref_ok in Hw.
    apply bind_Some in Hw as (w0 & Hw & _). by exists w0. }
  step H as r d1 H1. destruct r as [delta send]. step H as u2 d2 H2.
  unfold overpayment. rewrite Hw, H1. apply change_mining_pledge_ok in H1 as (S1 & W1 & Hs); [|done].
  eapply settle_witness_ok in H2; [|by rewrite W1|done].
  eapply modify_dgp_shift with (x := 0) in H.
  2: { intros g Hgf. apply bind_ok in Hgf as (y & _ & [= <-]). cbn. lia. }
  pose proof (shift_trans _ _ _ _ _ S1 H2) as S2. shift_seq S2 H.
Qed.
End mining.
