(* ===== verification/WitnessOps.v ===== *)
(** * Witnesses and votes for them (witness_evaluator.cpp, protocol/witness.cpp,
      [clear_resigned_witness_votes] of db_update.cpp)

    A witness registers with a pledge, changes it, resigns, and can be reported
    for signing two blocks in one slot.  Accounts with enough coins vote for
    witnesses. *)
From S2P Require Import Prelude FlatMap FcInt Asset Pledge ChainState.
From S2P Require Import AccountStats Voter Balance Transfer Fee Payroll Mining.
From S2P Require Import WitnessSchedule Voting.
Local Open Scope Z_scope.
Import asset pledge chain acc voter balance transfer fee payroll mining schedule voting.

(** [GRAPHENE_MAX_URL_LENGTH], [GRAPHENE_MAX_RESIGNED_WITNESS_VOTES_PER_BLOCK]. *)
Notation MAX_URL_LENGTH := 127%nat.
Notation MAX_RESIGNED_WITNESS_VOTES := 10000.

Module witness_ops.
#[local] Notation M := (M database).

(** The extension of [witness_create] and [witness_update]. *)
Record witness_ext := { ext_can_pledge : option bool; ext_bonus_rate : option Z }.

Section ops.
Context {F : FcInt} {C : ChainConfig}.
Variable is_valid_uid : Z -> bool.

(** ** [witness_create] *)
Record witness_create_operation := {
  wc_account : Z; wc_signing_key : Z; wc_pledge : asset; wc_url : string;
  wc_extensions : option witness_ext }.
Definition validate_witness_create (op : witness_create_operation) : result unit :=
  guard_ok (is_valid_uid (wc_account op)) assert_exception ;;
  guard_ok (asset_id (wc_pledge op) =? CORE_ASSET_AID) assert_exception ;;
  guard_ok (0 <=? amount (wc_pledge op)) assert_exception ;;
  guard_ok (String.length (wc_url op) <? MAX_URL_LENGTH)%nat assert_exception.

Definition rate_ok (d : database) (rate : Z) : bool :=
  (0 <=? rate) && (rate <=? max_pledge_mining_bonus_rate (params d)).
Definition witness_create_evaluate (op : witness_create_operation) (d : database) : result unit :=
  s ← get_account_statistics_by_uid d (wc_account op);
  get_account_by_uid d (wc_account op) ;;
  guard_ok ((head_block_num d =? 0) || (min_witness_pledge (params d) <=? amount (wc_pledge op)))
    assert_exception ;;
  available ← get_available_core_balance_excluding Witness d s;
  guard_ok (amount (wc_pledge op) <=? available) assert_exception ;;
  guard_ok (match find_witness_by_uid d (wc_account op) with Some _ => false | None => true end)
    assert_exception ;;
  guard_ok (negb (HEAD_FORK_05 <=? hardfork d) ||
            match wc_extensions op with
            | Some e => match ext_bonus_rate e with Some r => rate_ok d r | None => true end
            | None => true
            end) assert_exception.

Definition apply_ext (d : database) (e : option witness_ext) (w : witness_object) : witness_object :=
  match e with
  | Some e =>
      if HEAD_FORK_05 <=? hardfork d then
        let w := match ext_can_pledge e with Some b => w <| can_pledge := b |> | None => w end in
        match ext_bonus_rate e with Some r => w <| bonus_rate := r |> | None => w end
      else w
  | None => w
  end.
(** [create<witness_object>]: the account's previous, invalid object stays in
    the index until [clear_resigned_witness_votes] removes it. *)
Definition create_witness (uid : Z) (w : witness_object) : M unit := fun d =>
  Ok (tt, match witnesses d !! uid with
          | Some old => d <| replaced_witnesses ::= <[(uid, w_sequence old) := old]> |>
          | None => d
          end <| witnesses ::= <[uid := w]> |>).
(** Refresh the coin-seconds of an account that pledges more, between the
    hardforks 0.4 and 0.5. *)
Definition pledge_more (delta : Z) (d : database) (s : account_statistics)
    : result account_statistics :=
  releasing ← get_releasing_pledge CORE_ASSET_AID Witness d s;
  if (releasing <=? delta) && (hardfork d =? HEAD_FORK_04)
  then update_coin_seconds_earned (csaf_accumulate_window (params d)) (head_block_time d) d
         HEAD_FORK_04 s
  else Ok s.
Definition add_total_witness_pledge (delta : Z) : M unit :=
  modify_dgp (fun g =>
    x ← safe_add (total_witness_pledge g) delta; Ok (g <| total_witness_pledge := x |>)).

Definition witness_create_apply (op : witness_create_operation) : M unit :=
  d ← get;
  let uid := wc_account op in
  s ← lift (get_account_statistics_by_uid d uid);
  let w := new_witness
    <| w_sequence := u32 (last_witness_sequence s + 1) |>
    <| signing_key := wc_signing_key op |>
    <| w_pledge := u64 (amount (wc_pledge op)) |>
    <| pledge_last_update := head_block_time d |>
    <| average_pledge_last_update := head_block_time d |>
    <| average_pledge_next_update_block :=
         if 0 <? u64 (amount (wc_pledge op))
         then u32 (head_block_num d + witness_avg_pledge_update_interval (params d)) else NEVER |>
    <| w_url := wc_url op |> in
  create_witness uid (apply_ext d (wc_extensions op) w) ;;
  modify_stats uid (fun s =>
    pledge_more (amount (wc_pledge op)) d
      (s <| last_witness_sequence ::= fun n => u32 (n + 1) |>)) ;;
  d ← get;
  s ← lift (get_account_statistics_by_uid d uid);
  match pledge_id Witness s with
  | Some id => _ ← update_pledge_of id (wc_pledge op) NEVER; mret tt
  | None =>
      let id := next_pledge_balance_id d in
      let p := {| superior_index := uid; type := Witness; pb_asset_id := CORE_ASSET_AID;
                  pledge := amount (wc_pledge op); total_releasing_pledge := 0;
                  releasing_pledges := [] |} in
      upd (fun d => d <| pledge_balances ::= <[id := p]> |> <| next_pledge_balance_id := id + 1 |>) ;;
      modify_stats uid (fun s => Ok (s <| pledge_balance_ids ::= fm_emplace Witness id |>))
  end ;;
  add_total_witness_pledge (amount (wc_pledge op)).
Definition witness_create (op : witness_create_operation) : M unit :=
  d ← get; lift (witness_create_evaluate op d) ;; witness_create_apply op.

(** ** [witness_update] *)
Record witness_update_operation := {
  wu_account : Z; wu_signing_key : option Z; wu_pledge : option asset; wu_url : option string;
  wu_extensions : option witness_ext }.
Definition validate_witness_update (op : witness_update_operation) : result unit :=
  guard_ok (is_valid_uid (wu_account op)) assert_exception ;;
  guard_ok (match wu_extensions op with
            | None => some (wu_pledge op) || some (wu_signing_key op) || some (wu_url op)
            | Some e => some (ext_can_pledge e) || some (ext_bonus_rate e)
            end) assert_exception ;;
  guard_ok (match wu_pledge op with
            | Some a => (asset_id a =? CORE_ASSET_AID) && (0 <=? amount a) | None => true end)
    assert_exception ;;
  guard_ok (match wu_url op with
            | Some u => (String.length u <? MAX_URL_LENGTH)%nat | None => true end) assert_exception.

Definition witness_update_evaluate (op : witness_update_operation) (d : database) : result unit :=
  s ← get_account_statistics_by_uid d (wu_account op);
  w ← get_witness_by_uid d (wu_account op);
  guard_ok (match wu_signing_key op with Some k => negb (k =? signing_key w) | None => true end)
    assert_exception ;;
  match wu_pledge op with
  | Some a =>
      if 0 <? amount a then
        guard_ok (min_witness_pledge (params d) <=? amount a) assert_exception ;;
        guard_ok (negb (amount a =? w_pledge w)) assert_exception ;;
        available ← get_available_core_balance_excluding Witness d s;
        guard_ok (amount a <=? available) assert_exception
      else if amount a =? 0 then
        guard_ok (negb (some (fm_find (wu_account op) (active_witnesses d)))) assert_exception
      else Ok tt
  | None => guard_ok (min_witness_pledge (params d) <=? w_pledge w) assert_exception
  end ;;
  guard_ok (match wu_url op with Some u => negb (bool_decide (u = w_url w)) | None => true end)
    assert_exception ;;
  match wu_extensions op with
  | Some e =>
      if HEAD_FORK_05 <=? hardfork d then
        guard_ok (match ext_can_pledge e with Some b => negb (Bool.eqb b (can_pledge w)) | None => true end)
          assert_exception ;;
        guard_ok (match ext_bonus_rate e with
                  | Some r => negb (r =? bonus_rate w) && rate_ok d r | None => true end)
          assert_exception
      else Ok tt
  | None => Ok tt
  end ;;
  guard_ok (some (pledge_id Witness s)) assert_exception.

Definition change_witness_key_url (op : witness_update_operation) (w : witness_object)
    : witness_object :=
  let w := match wu_signing_key op with Some k => w <| signing_key := k |> | None => w end in
  match wu_url op with Some u => w <| w_url := u |> | None => w end.
Definition pledge_object_of (uid : Z) (d : database) : result Z :=
  s ← get_account_statistics_by_uid d uid; deref (pledge_id Witness s) out_of_range.
Definition release_witness_pledge (uid : Z) (a : asset) : M unit :=
  d ← get;
  id ← lift (pledge_object_of uid d);
  _ ← update_pledge_of id a (u32 (head_block_num d + witness_pledge_release_delay (params d)));
  mret tt.

Definition resign_witness (uid : Z) (a : asset) : M unit :=
  release_witness_pledge uid a ;;
  modify_witness uid (fun w =>
    Ok (w <| w_is_valid := false |> <| average_pledge_next_update_block := NEVER |>
          <| by_pledge_scheduled_time := UINT128_MAX |> <| by_vote_scheduled_time := UINT128_MAX |>)) ;;
  d ← get;
  w ← lift (deref (witnesses d !! uid) undefined_behaviour);
  delta ← lift (safe_sub (amount a) (i64 (w_pledge w)));
  if HEAD_FORK_05 <=? hardfork d then
    x ← lift (safe_sub delta (i64 (w_total_mining_pledge w)));
    add_total_witness_pledge x
  else
    modify_dgp (fun g =>
      x ← safe_add (resign_witness_pledge_before_05 g) delta;
      Ok (g <| resign_witness_pledge_before_05 := x |>)).

Definition change_witness_pledge (op : witness_update_operation) (a : asset) : M unit :=
  d ← get;
  let uid := wu_account op in
  w ← lift (deref (witnesses d !! uid) undefined_behaviour);
  delta ← lift (safe_sub (amount a) (i64 (w_pledge w)));
  when (0 <? delta) (modify_stats uid (pledge_more delta d)) ;;
  release_witness_pledge uid a ;;
  update_witness_avg_pledge uid ;;
  modify_witness uid (fun w =>
    Ok (change_witness_key_url op
          (w <| w_pledge := u64 (amount a) |> <| pledge_last_update := head_block_time d |>))) ;;
  add_total_witness_pledge delta ;;
  update_witness_avg_pledge uid.

(** The witness stops taking pledges: it settles, the pledges are released. *)
Definition stop_mining (uid : Z) : M unit :=
  d ← get;
  w ← lift (deref (witnesses d !! uid) undefined_behaviour);
  update_pledge_mining_bonus_by_witness uid w ;;
  resign_pledge_mining uid ;;
  modify_dgp (fun g =>
    x ← safe_sub (total_witness_pledge g) (i64 (w_total_mining_pledge w));
    Ok (g <| total_witness_pledge := x |>)) ;;
  modify_witness uid (fun w =>
    Ok (reset_bonus (head_block_num d) (w <| w_total_mining_pledge := 0 |>))).

Definition change_witness (op : witness_update_operation) : M unit :=
  match wu_pledge op with
  | None => modify_witness (wu_account op) (fun w => Ok (change_witness_key_url op w))
  | Some a => if amount a =? 0 then resign_witness (wu_account op) a else change_witness_pledge op a
  end.
Definition change_witness_ext (uid : Z) (ext : option witness_ext) : M unit :=
  d ← get;
  match ext with
  | Some e =>
      when (HEAD_FORK_05 <=? hardfork d)
        (modify_witness uid (fun w => Ok (apply_ext d (Some e) w)) ;;
         when (match ext_can_pledge e with Some b => negb b | None => false end) (stop_mining uid))
  | None => mret tt
  end.
Definition witness_update_apply (op : witness_update_operation) : M unit :=
  change_witness op ;;
  change_witness_ext (wu_account op) (wu_extensions op).
Definition witness_update (op : witness_update_operation) : M unit :=
  d ← get; lift (witness_update_evaluate op d) ;; witness_update_apply op.

(** ** [witness_vote_update] *)
Definition witness_vote_update : vote_update_operation -> M unit := vote_update witness_ballot.

(** ** [witness_report] *)
Record block_header := { bh_num : Z; bh_id : Z; bh_timestamp : Z; bh_witness : Z; bh_signee : Z }.
Definition validate_report (reporter : Z) (b1 b2 : block_header) : result unit :=
  guard_ok (is_valid_uid reporter) assert_exception ;;
  guard_ok (is_valid_uid (bh_witness b1)) assert_exception ;;
  guard_ok (bh_timestamp b1 =? bh_timestamp b2) assert_exception ;;
  guard_ok (bh_witness b1 =? bh_witness b2) assert_exception ;;
  guard_ok (negb (bh_id b1 =? bh_id b2)) assert_exception ;;
  guard_ok (0 <? bh_num b1) assert_exception ;;
  guard_ok (bh_num b1 =? bh_num b2) assert_exception ;;
  guard_ok (bh_signee b1 =? bh_signee b2) assert_exception.

(** The ids of the blocks of the current chain come from the block database. *)
Definition report_evaluate (fetch_block_id_for_num : Z -> result Z) (reporter : Z)
    (b1 b2 : block_header) (d : database) : result unit :=
  get_account_by_uid d reporter ;;
  s ← get_account_statistics_by_uid d (bh_witness b1);
  guard_ok (bh_timestamp b1 <=? head_block_time d) assert_exception ;;
  guard_ok (bh_num b1 <=? head_block_num d) assert_exception ;;
  guard_ok (head_block_num d <=? u32 (bh_num b1 + witness_report_prosecution_period (params d)))
    assert_exception ;;
  guard_ok (witness_report_allow_pre_last_block (params d) ||
            (witness_last_confirmed_block_num s <=? bh_num b1)) assert_exception ;;
  guard_ok (witness_last_reported_block_num s <? bh_num b1) assert_exception ;;
  on_chain ← fetch_block_id_for_num (bh_num b1);
  guard_ok ((on_chain =? bh_id b1) || (on_chain =? bh_id b2)) assert_exception ;;
  guard_ok (some (pledge_id Witness s)) assert_exception.

Definition note_report (num : Z) (s : account_statistics) : account_statistics :=
  s <| witness_last_reported_block_num := num |>
    <| witness_total_reported ::= fun n => u64 (n + 1) |>.
(** Take [total] from the pledge: first from what is being released. *)
Definition deduct_pledge (uid id num total from_releasing from_pledge : Z) : M unit :=
  d ← get;
  modify_stats uid (fun s =>
    s ← (if hardfork d =? HEAD_FORK_04
         then update_coin_seconds_earned (csaf_accumulate_window (params d)) (head_block_time d) d
                HEAD_FORK_04 s
         else Ok s);
    Ok (note_report num s)) ;;
  p ← lift (get_pledge_balance_object d id);
  p ← lift (if 0 <? from_releasing then reduce_releasing from_releasing p else Ok p);
  x ← lift (safe_sub (pledge p) from_pledge);
  upd (fun d => d <| pledge_balances ::= <[id := set_pledge x p]> |>) ;;
  modify_dgp (fun g =>
    x ← safe_sub (total_witness_pledge g) total; Ok (g <| total_witness_pledge := x |>)).
Definition shrink_witness_pledge (uid from_pledge : Z) : M unit :=
  d ← get;
  when ((0 <? from_pledge) && some (find_witness_by_uid d uid))
    (update_witness_avg_pledge uid ;;
     modify_witness uid (fun w =>
       Ok (w <| w_pledge ::= fun p => u64 (p - from_pledge) |>
             <| pledge_last_update := head_block_time d |>)) ;;
     update_witness_avg_pledge uid).
Definition report_apply (b : block_header) : M unit :=
  d ← get;
  let uid := bh_witness b in
  when (some (find_witness_by_uid d uid))
    (modify_witness uid (fun w => Ok (w <| signing_key := 0 |>))) ;;
  id ← lift (pledge_object_of uid d);
  p ← lift (get_pledge_balance_object d id);
  unreleased ← lift (total_unrelease_pledge p);
  let total := Z.min (witness_report_pledge_deduction_amount (params d)) unreleased in
  if 0 <? total then
    let from_releasing := Z.min (total_releasing_pledge p) total in
    from_pledge ← lift (safe_sub total from_releasing);
    deduct_pledge uid id (bh_num b) total from_releasing from_pledge ;;
    shrink_witness_pledge uid from_pledge ;;
    n ← lift (safe_neg total);
    adjust_balance uid (Asset n CORE_ASSET_AID) ;;
    modify_dynamic_data CORE_ASSET_AID (fun dd =>
      x ← safe_sub (current_supply dd) total; Ok (dd <| current_supply := x |>))
  else modify_stats uid (fun s => Ok (note_report (bh_num b) s)).
Definition witness_report (fetch_block_id_for_num : Z -> result Z) (reporter : Z)
    (b1 b2 : block_header) : M unit :=
  d ← get;
  lift (report_evaluate fetch_block_id_for_num reporter b1 b2 d) ;;
  report_apply b1.
End ops.
End witness_ops.
