(* ===== verification/Books.v ===== *)
(** * Steps that leave the books alone

    [books d] is all that [imbalance] and the invariants of the treasury look
    at.  Voting, pledges, coin-seconds, schedules and statistics do not change
    it; the lemmas here let [keep] show that by walking a computation. *)
From S2P Require Import Prelude FlatMap FcInt Asset Pledge ChainState.
From S2P Require Import AccountStats Voter Balance Transfer Fee Payroll Mining WitnessOps.
From S2P Require Import WitnessSchedule MapSum Frame Ledger MarketProof Treasury.
From S2P Require Import MiningProof.
Local Open Scope Z_scope.
Import asset pledge chain acc voter balance transfer fee payroll mining witness_ops schedule.

Definition books (d : database) :=
  (ledger_of d, assets d, issued d, next_asset_id d, next_order_id d, budget_pool (dgp d) + owed_coins d).

Lemma books_neutral {A} (m : M database A) d a d' : keeps books m -> m d = Ok (a, d') -> neutral d d'.
Proof.
  intros Hk H. specialize (Hk _ _ _ H). unfold books in Hk.
  repeat (apply pair_equal_spec in Hk; destruct Hk as [Hk ?]). by apply same_neutral.
Qed.

#[export] Instance books_voting : VotingFrame books.
Proof.
  split; try done.
  - intros d uid w w' Hw Hc. unfold books. rewrite (owed_coins_witness _ _ _ _ Hw), Hc.
    change (owed_bonus _) with (owed_bonus w) at 2. by rewrite Z.sub_add.
  - intros d uid s Hs. unfold books. by rewrite (vf_is_voter (p := ledger_of) d uid s Hs).
Qed.

Section books.
Context {F : FcInt} {C : ChainConfig}.

Lemma books_upd f : (forall d, books (f d) = books d) -> keeps books (upd f).
Proof. intros Hf d u d' [= _ <-]. apply Hf. Qed.
Lemma books_stats uid f :
  (forall s s', f s = Ok s' -> money_of s' = money_of s) -> keeps books (modify_stats uid f).
Proof.
  intros Hf d u d' H. apply modify_stats_ok in H as (s & s' & Hs & Hfs & ->). unfold books.
  rewrite ledger_stats, (Hf s s' Hfs). do 5 f_equal. unfold with_money. cbn.
  rewrite insert_id by (by rewrite lookup_fmap, Hs). done.
Qed.
Lemma books_witness uid f :
  (forall w w', f w = Ok w' -> owed_bonus w' = owed_bonus w) -> keeps books (modify_witness uid f).
Proof.
  intros Hf d u d' H. unfold modify_witness in H. apply bind_ok in H as (w & Hw & H). apply deref_ok in Hw.
  apply bind_ok in H as (w' & Hw' & [= _ <-]). unfold books. rewrite (owed_coins_witness _ _ _ _ Hw).
  rewrite (Hf w w' Hw'). by rewrite Z.sub_add.
Qed.
Lemma books_dgp f :
  (forall g g', f g = Ok g' -> budget_pool g' = budget_pool g) -> keeps books (modify_dgp f).
Proof.
  intros Hf d u d' H. unfold modify_dgp in H. apply bind_ok in H as (g & Hg & [= _ <-]).
  unfold books. cbn. by rewrite (Hf _ _ Hg).
Qed.
End books.
#[export] Hint Resolve books_stats books_witness books_dgp books_upd : books.

(** Close the side conditions of the lemmas above: the update is explicit. *)
Ltac books_side :=
  intros;
  repeat match goal with
  | H : @mbind result _ _ _ _ _ = Ok _ |- _ => apply bind_ok in H; destruct H as (? & ? & H)
  | H : Ok _ = Ok _ |- _ => injection H as <-
  | H : context [match ?x with _ => _ end] |- _ => destruct x
  end; try done.
Ltac books_step :=
  match goal with
  | |- keeps books (_ ≫= _) => apply keeps_bind; [|intros ?]
  | |- keeps books (match ?x with _ => _ end) => destruct x
  | |- keeps books (when _ _) => apply keeps_when
  | |- keeps books (mfor _ _) => apply keeps_mfor; intros ?
  | |- keeps books (modify_stats _ _) => apply books_stats; books_side
  | |- keeps books (modify_witness _ _) => apply books_witness; books_side
  | |- keeps books (modify_dgp _) => apply books_dgp; books_side
  | |- keeps books (upd _) => apply books_upd; by intros
  | |- keeps books (let _ := _ in _) => cbv zeta
  | |- keeps books _ => solve [auto with keeps typeclass_instances]
  end.
Ltac keep_books := repeat books_step.

Section operations.
Context {F : FcInt} {C : ChainConfig}.

Lemma coin_seconds_money w now d hf s s' : update_coin_seconds_earned w now d hf s = Ok s' -> money_of s' = money_of s.
Proof. apply update_coin_seconds_money. Qed.

Lemma books_csaf_collect a b x t : keeps books (csaf_collect a b x t).
Proof. unfold csaf_collect. keep_books. unfold set_coin_seconds_earned. by case_match. Qed.
Lemma books_lease_core acc f :
  (forall s s', f s = Ok s' -> money_of s' = money_of s) -> keeps books (lease_core acc f).
Proof.
  intros Hf. unfold lease_core. apply keeps_bind; [apply keeps_get|intros d]. apply books_stats.
  intros s s' H. apply bind_ok in H as (s1 & H1 & H). rewrite (Hf _ _ H). destruct (_ <? _).
  - by eapply update_coin_seconds_money.
  - by injection H1 as ->.
Qed.
Lemma books_csaf_lease a b x t : keeps books (csaf_lease a b x t).
Proof.
  unfold csaf_lease. keep_books; try (apply books_lease_core; books_side).
  apply books_upd. intros d. by case_match.
Qed.
Lemma books_balance_lock acc x : keeps books (balance_lock_update acc x).
Proof.
  unfold balance_lock_update. keep_books. all: by eapply update_coin_seconds_money.
Qed.
Lemma books_avg_pledge uid : keeps books (update_witness_avg_pledge uid).
Proof. unfold update_witness_avg_pledge. keep_books. Qed.
Lemma books_adjust_witness_votes uid x : keeps books (adjust_witness_votes uid x).
Proof. apply keeps_adjust_witness_votes. apply _. Qed.
End operations.
#[export] Hint Resolve books_avg_pledge books_adjust_witness_votes : keeps.
