(* ===== verification/SupplySteps.v ===== *)
(** * The remaining operations on coins keep the books

    Transfers, collecting pay, and the operations of witnesses. *)
From S2P Require Import Prelude FlatMap FcInt Asset Pledge ChainState.
From S2P Require Import AccountStats Voter Balance Transfer Fee AssetOps Payroll Mining.
From S2P Require Import WitnessOps Voting WitnessSchedule MapSum Frame Ledger Market.
From S2P Require Import MarketProof TransferProof Treasury TreasuryProof.
From S2P Require Import MiningProof Books.
Local Open Scope Z_scope.
Import asset pledge chain acc voter balance transfer fee asset_ops payroll mining.
Import witness_ops market schedule voting.

Section coins.
Context {F : FcInt} {FL : FcIntLaws F} {C : ChainConfig}.

Lemma transfer_neutral valid_uid sign op d u d' :
  validate valid_uid op = Ok tt -> transfer sign op d = Ok (u, d') -> neutral d d'.
Proof.
  intros Hv H. destruct (transfer_moves _ _ _ _ _ _ Hv H)
    as (plan & _ & (_ & _ & _ & F4 & _) & (_ & _ & _ & T4 & _) & [Hf _ _]).
  apply flow_shift in Hf. eapply shift_ext, Hf. intros a. unfold total. cbn.
  replace (_ + _) with 0 by lia. apply only_zero.
Qed.
(** A debit and a credit of one amount. *)
Lemma move_neutral a b amt n d1 u1 d2 u2 d3 :
  neg amt = Ok n -> adjust_balance a n d1 = Ok (u1, d2) -> adjust_balance b amt d2 = Ok (u2, d3) ->
  neutral d1 d3.
Proof.
  intros Hn H1 H2. apply bind_ok in Hn as (x & Hx & [= <-]). apply safe_neg_ok in Hx as [-> _].
  apply adjust_balance_shift in H1, H2. cbn [asset_id amount] in H1. shift_seq H1 H2.
Qed.
Lemma override_transfer_neutral i a b amt d u d' :
  override_transfer i a b amt d = Ok (u, d') -> neutral d d'.
Proof.
  intros H. unfold override_transfer in H. peel H as dg Hg. peel H as x1 E1. peel H as x2 E2.
  peel H as x3 E3. peel H as x4 E4. peel H as x5 E5. peel H as x6 E6. peel H as x7 E7.
  peel H as n Hn.
  step H as u1 d1 H1. exact (move_neutral _ _ _ _ _ _ _ _ _ Hn H1 H).
Qed.
Lemma inline_transfer_neutral a b amt d u d' : inline_transfer a b amt d = Ok (u, d') -> neutral d d'.
Proof.
  intros H. unfold inline_transfer in H. peel H as dg Hg. peel H as x1 E1. peel H as x2 E2.
  peel H as x3 E3. peel H as x4 E4. peel H as n Hn. step H as u1 d1 H1.
  exact (move_neutral _ _ _ _ _ _ _ _ _ Hn H1 H).
Qed.

(** ** Collecting: the balance grows by what is no longer uncollected *)
Lemma collect_neutral a b x fn d u1 d1 u d' :
  adjust_balance a (Asset x CORE_ASSET_AID) d = Ok (u1, d1) ->
  modify_stats b fn d1 = Ok (u, d') ->
  (forall s s', fn s = Ok s' ->
     core_balance s' = core_balance s /\ total_core_in_orders s' = total_core_in_orders s /\
     uncollected_market_fees s' = uncollected_market_fees s /\
     m_prepaid (money_of s') + m_uncollected (money_of s')
     = m_prepaid (money_of s) + m_uncollected (money_of s) - x) -> neutral d d'.
Proof.
  intros H1 H2 Hf. apply adjust_balance_shift in H1. cbn [asset_id amount] in H1.
  eapply modify_stats_shift with (x := - x) in H2; [|intros s s' _ Hs; by apply Hf]. shift_seq H1 H2.
Qed.
Lemma witness_collect_pay_neutral valid_uid acc pay d u d' :
  validate_collect_pay valid_uid acc pay = Ok tt ->
  witness_collect_pay acc pay d = Ok (u, d') -> neutral d d'.
Proof.
  intros Hv H. unfold validate_collect_pay in Hv. inv_ok. bool_to_prop. destruct pay as [x i]. cbn in *. subst i.
  unfold witness_collect_pay in H. peel H as dg Hg. peel H as sx Hs. peel H as u1 E1. step H as u2 d1 H1.
  eapply collect_neutral; [exact H1|exact H|]. intros s s' Hf. apply bind_ok in Hf as (y & Hy & [= <-]).
  apply safe_sub_ok in Hy as [-> _]. split_and!; [done..|cbn; lia].
Qed.
Lemma pledge_bonus_collect_neutral acc x d u d' :
  pledge_bonus_collect acc x d = Ok (u, d') -> neutral d d'.
Proof.
  intros H. unfold pledge_bonus_collect in H. peel H as dg Hg. peel H as u0 E0. peel H as sx Hs.
  peel H as u1 E1. step H as u2 d1 H1. eapply collect_neutral; [exact H1|exact H|].
  intros s s' Hf. apply bind_ok in Hf as (y & Hy & [= <-]).
  apply safe_sub_ok in Hy as [-> _]. split_and!; [done..|cbn; lia].
Qed.
Lemma score_bonus_collect_neutral acc x d u d' :
  score_bonus_collect acc x d = Ok (u, d') -> neutral d d'.
Proof.
  intros H. unfold score_bonus_collect in H. peel H as dg Hg. peel H as u0 E0. peel H as sx Hs.
  peel H as u1 E1. step H as u2 d1 H1. eapply collect_neutral; [exact H1|exact H|].
  intros s s' Hf. apply bind_ok in Hf as (y & Hy & [= <-]).
  apply safe_sub_ok in Hy as [-> _]. split_and!; [done..|cbn; lia].
Qed.
Lemma beneficiary_assign_neutral a b d u d' : beneficiary_assign a b d = Ok (u, d') -> neutral d d'.
Proof. intros H. eapply books_neutral, H. unfold beneficiary_assign. keep_books. Qed.
Lemma benefit_collect_neutral op d u d' : benefit_collect op d = Ok (u, d') -> neutral d d'.
Proof.
  intros H. unfold benefit_collect in H. peel H as dg Hg. peel H as u0 E0. peel H as ax Ha. peel H as fs Hfs.
  peel H as u1 E1. destruct (bc_type op).
  - eapply books_neutral, H. unfold benefit_collect_csaf. keep_books. unfold set_coin_seconds_earned. by case_match.
  - unfold benefit_collect_witness in H. peel H as u2 E2. peel H as u3 E3. peel H as u4 E4.
    peel H as u5 E5. step H as u6 d1 H1. destruct (bc_amount op) as [x i]. apply Z.eqb_eq in E4. cbn in E4.
    subst i. eapply collect_neutral; [exact H1|exact H|].
    intros s s' Hf. apply bind_ok in Hf as (y & Hy & [= <-]).
    apply safe_sub_ok in Hy as [-> _]. split_and!; [done..|cbn; lia].
Qed.
Lemma adjust_budgets_neutral d u d' : adjust_budgets d = Ok (u, d') -> neutral d d'.
Proof. intros H. eapply books_neutral, H. unfold adjust_budgets. keep_books. Qed.

(** ** Witnesses *)
Lemma books_pledge_more delta d s s' : pledge_more delta d s = Ok s' -> money_of s' = money_of s.
Proof.
  unfold pledge_more. intros H. apply bind_ok in H as (r & _ & H). destruct (_ && _).
  - by eapply update_coin_seconds_money.
  - by injection H as ->.
Qed.
Lemma books_update_pledge_of id a n : keeps books (update_pledge_of id a n).
Proof. unfold update_pledge_of. keep_books. Qed.
#[local] Hint Resolve books_update_pledge_of : keeps.
Lemma books_release uid a : keeps books (release_witness_pledge uid a).
Proof. unfold release_witness_pledge. keep_books. Qed.
#[local] Hint Resolve books_release : keeps.
Lemma books_resign_mining uid : keeps books (resign_pledge_mining uid).
Proof. unfold resign_pledge_mining. keep_books. Qed.
#[local] Hint Resolve books_resign_mining : keeps.

Lemma create_witness_neutral uid w d u d' :
  (forall old, witnesses d !! uid = Some old -> replaced_witnesses d !! (uid, w_sequence old) = None) ->
  owed_bonus w = 0 -> create_witness uid w d = Ok (u, d') -> neutral d d'.
Proof.
  intros Hfresh Hw [= _ <-]. destruct (witnesses d !! uid) as [old|] eqn:E; apply same_neutral; try done;
    unfold owed_coins; cbn; rewrite msum_set; unfold at_key; rewrite E, Hw.
  - rewrite msum_insert by by apply Hfresh. lia.
  - lia.
Qed.
Lemma apply_ext_owed d e w : owed_bonus (apply_ext d e w) = owed_bonus w.
Proof. unfold apply_ext. destruct e as [e|]; [|done]. repeat case_match; done. Qed.
Lemma witness_create_neutral op d u d' :
  (forall old, witnesses d !! wc_account op = Some old ->
     replaced_witnesses d !! (wc_account op, w_sequence old) = None) ->
  witness_create op d = Ok (u, d') -> neutral d d'.
Proof.
  intros Hf H. unfold witness_create, witness_create_apply in H. peel H as dg Hg. peel H as u0 E0.
  peel H as d0 Hg0. peel H as sx Hs. cbv zeta in H. step H as u1 d1 H1.
  eapply neutral_trans; [eapply create_witness_neutral; [exact Hf| |exact H1]|].
  - by rewrite apply_ext_owed.
  - eapply books_neutral, H. unfold add_total_witness_pledge. keep_books.
    all: erewrite books_pledge_more; [|eassumption]; done.
Qed.

Lemma stop_mining_neutral uid d u d' :
  (forall w, witnesses d !! uid = Some w -> witness_payable d uid w) ->
  stop_mining uid d = Ok (u, d') -> neutral d d'.
Proof.
  intros Hp H. unfold stop_mining in H. peel H as dg Hg. peel H as w Hw. apply deref_ok in Hw.
  step H as u1 d1 H1. apply bonus_by_witness_ok in H1 as (S1 & M1); [|by apply Hp].
  step H as u2 d2 H2. step H as u3 d3 H3.
  assert (keeps witnesses (resign_pledge_mining uid)) as K2.
  { unfold resign_pledge_mining. apply keeps_bind; [apply keeps_get|intros dx].
    intros e v e' He. revert He. generalize (pledgers uid dx) as l. induction l as [|a l IH] in e |- *; cbn [mfor].
    - by intros [= _ <-].
    - intros He. step He as v1 e1 He1. apply IH in He. rewrite He. peel He1 as pm Hpm. step He1 as r e2 He2.
      injection He1 as _ <-. by apply update_pledge_of_neutral in He2 as (_ & ? & _). }
  pose proof (K2 _ _ _ H2) as W2. assert (witnesses d3 = witnesses d2) as W3.
  { eapply (keeps_modify_dgp witnesses); [done|exact H3]. }
  pose proof (sm_witnesses _ _ M1) as W1.
  pose proof (books_neutral _ _ _ _ (books_resign_mining uid) H2) as S2.
  eapply (books_neutral _ d2 u3 d3) in H3 as S3; [|by keep_books].
  eapply modify_witness_shift with (x := - owed_bonus w) in H.
  2: { intros w0 w' Hw0 [= <-]. rewrite W3, W2, W1, Hw in Hw0. injection Hw0 as <-.
       change (owed_bonus (reset_bonus _ _)) with 0. lia. }
  pose proof (shift_trans _ _ _ _ _ S1 (neutral_trans _ _ _ _ S2 (neutral_trans _ _ _ _ S3 H))) as S4.
  eapply shift_ext, S4. shift_lia.
Qed.

Lemma books_change_witness op : keeps books (change_witness op).
Proof.
  unfold change_witness, resign_witness, change_witness_pledge, change_witness_key_url,
    add_total_witness_pledge.
  keep_books. all: first [by eapply books_pledge_more|by repeat case_match].
Qed.
Lemma apply_ext_bonus d e n w :
  accumulate_bonus_per_pledge n (apply_ext d e w) = accumulate_bonus_per_pledge n w.
Proof. unfold apply_ext. destruct e as [e|]; [|done]. repeat case_match; by destruct w. Qed.
(** Should the witness stop taking pledges, those it has can be settled. *)
Definition can_settle (op : witness_update_operation) (d : database) : Prop :=
  forall u d1 w, change_witness op d = Ok (u, d1) -> witnesses d1 !! wu_account op = Some w ->
    witness_payable d1 (wu_account op) w.
Lemma witness_update_neutral op d u d' :
  can_settle op d -> witness_update op d = Ok (u, d') -> neutral d d'.
Proof.
  intros Hs H. unfold witness_update, witness_update_apply in H. peel H as dg Hg. peel H as u0 E0.
  step H as u1 d1 H1. eapply neutral_trans; [exact (books_neutral _ _ _ _ (books_change_witness op) H1)|].
  unfold change_witness_ext in H. peel H as dg Hg. destruct (wu_extensions op) as [e|]; [|by injection H as _ <-; apply shift_refl].
  destruct (HEAD_FORK_05 <=? hardfork d1); cbn [when] in H; [|by injection H as _ <-; apply shift_refl].
  step H as u2 d2 H2. pose proof (modify_witness_ok _ _ _ _ _ H2) as (w & w' & Hw & Hw'%(inj Ok) & Ed).
  eapply neutral_trans.
  { eapply books_neutral, H2. apply books_witness. intros w0 w1 <-%(inj Ok). apply apply_ext_owed. }
  eapply shift_when; [exact H| |done]. intros _ Hm. eapply stop_mining_neutral; [|exact Hm].
  rewrite Ed. cbn. intros w1 Hw1. rewrite lookup_insert_eq in Hw1. injection Hw1 as <-. subst w'.
  intros acc pm n per p Hpm Hn Hper Hp. rewrite apply_ext_bonus in Hper.
  exact (Hs _ _ _ H1 Hw acc pm n per p Hpm Hn Hper Hp).
Qed.

(** ** Votes *)
Section votes.
Context {X} (p : database -> X) (b : ballot) {VF : VotingFrame p} {BK : BallotKeeps p b}.
Hypothesis p_start_voting : forall uid x, keeps p (start_voting b uid x).
Lemma keeps_remove_vote o : keeps p (remove_vote b o).
Proof using BK. intros d u d' [= _ <-]. apply bk_set_votes, _. Qed.
Lemma keeps_b_adjust uid x : keeps p (b_adjust b uid x).
Proof using BK. apply bk_adjust, _. Qed.
Lemma keeps_cast_vote f : keeps p (upd (fun d => b_set_votes b (f d) d)).
Proof using BK. intros d u d' [= _ <-]. apply bk_set_votes, _. Qed.
#[local] Hint Resolve p_start_voting keeps_remove_vote keeps_b_adjust keeps_cast_vote : keeps.
Lemma keeps_update_voter op k pl : keeps p (update_voter b op k pl).
Proof using VF BK. unfold update_voter, withdraw_votes. keep. Qed.
#[local] Hint Resolve keeps_update_voter : keeps.
Lemma keeps_cast_votes k n l : keeps p (cast_votes b k n l).
Proof using BK. unfold cast_votes. keep. Qed.
#[local] Hint Resolve keeps_cast_votes : keeps.
Lemma keeps_vote_update op : keeps p (vote_update b op).
Proof using VF BK p_start_voting. unfold vote_update, vote_update_apply. keep. Qed.
End votes.
Lemma books_start_voting b uid x : keeps books (start_voting b uid x).
Proof. unfold start_voting. keep_books. Qed.
Lemma vote_update_neutral b `{!BallotKeeps books b} op d u d' : vote_update b op d = Ok (u, d') -> neutral d d'.
Proof. apply books_neutral, keeps_vote_update; [apply _..|apply books_start_voting]. Qed.

(** ** Reports: the pledge that is taken is destroyed *)
Lemma deduct_pledge_neutral uid id n t a b d u d' : deduct_pledge uid id n t a b d = Ok (u, d') -> neutral d d'.
Proof.
  intros H. eapply books_neutral, H. unfold deduct_pledge. keep_books.
  change (money_of (note_report n x)) with (money_of x). by eapply update_coin_seconds_money.
Qed.
Lemma shrink_neutral uid x d u d' : shrink_witness_pledge uid x d = Ok (u, d') -> neutral d d'.
Proof. intros H. eapply books_neutral, H. unfold shrink_witness_pledge. keep_books. Qed.
Lemma witness_report_neutral fetch r b1 b2 d u d' :
  witness_report fetch r b1 b2 d = Ok (u, d') -> neutral d d'.
Proof.
  intros H. unfold witness_report, report_apply in H. peel H as dg Hg. peel H as u0 E0. peel H as d0 Hg0.
  cbv zeta in H. step H as u1 d1 H1.
  assert (neutral d d1) as S1 by (eapply books_neutral, H1; keep_books).
  eapply neutral_trans; [exact S1|]. peel H as i Hi. peel H as p Hp. peel H as un Hun.
  set (t := Z.min _ un) in H. destruct (0 <? t); [|eapply books_neutral, H; keep_books].
  peel H as fp Hfp. step H as u2 d2 H2. step H as u3 d3 H3. peel H as n Hn. apply safe_neg_ok in Hn as [-> _].
  step H as u4 d4 H4. apply deduct_pledge_neutral in H2. apply shrink_neutral in H3.
  apply adjust_balance_shift in H4. cbn [asset_id amount] in H4.
  eapply modify_dynamic_data_shift with (x := t) in H.
  2: { intros dd dd' Hf. apply bind_ok in Hf as (x & Hx & [= <-]). apply safe_sub_ok in Hx as [-> _]. cbn. lia. }
  pose proof (neutral_trans _ _ _ _ H2 (neutral_trans _ _ _ _ H3 (shift_trans _ _ _ _ _ H4 H))) as S2.
  eapply shift_ext, S2. shift_lia.
Qed.
End coins.
