(* ===== verification/BlockUpdate.v ===== *)
(** * What every block brings up to date (db_update.cpp; [process_invalid_proxied_voters] of
      db_voter.cpp)

    After its transactions, a block records itself in the global properties,
    moves the irreversible block, and works off what is due: expired orders and
    leases, average pledges, released pledges, resigned witnesses, expired
    voters, effective votes, the committee and the budget.  Most of these are
    loops that take the first object of an index as long as it is due and
    change or remove it ([drain]). *)
From S2P Require Import Prelude FlatMap FcInt Asset Pledge ChainState.
From S2P Require Import AccountStats Voter WitnessSchedule Balance Transfer Market.
From S2P Require Import Payroll Mining WitnessOps.
Local Open Scope Z_scope.
Import asset pledge chain acc voter schedule balance transfer market payroll mining witness_ops.

(** ** Ordered indices

    An index with a composite key is the list of its objects in the
    lexicographic order of the keys. *)
Fixpoint lex_leb (a b : list Z) : bool :=
  match a, b with
  | x :: a', y :: b' => (x <? y) || ((x =? y) && lex_leb a' b')
  | _, _ => true
  end.
Definition key_le {A} (key : A -> list Z) (x y : A) : Prop := lex_leb (key x) (key y) = true.
#[global] Instance key_le_dec {A} (key : A -> list Z) x y : Decision (key_le key x y).
Proof. unfold key_le. apply _. Defined.
Definition ordered {A} (key : A -> list Z) (l : list A) : list A := merge_sort (key_le key) l.
(** [idx.begin()], if there is one and it is due. *)
Definition front {A} (key : A -> list Z) (due : A -> bool) (l : list A) : option A :=
  match ordered key l with x :: _ => if due x then Some x else None | [] => None end.
Fixpoint take_while {A} (p : A -> bool) (l : list A) : list A :=
  match l with [] => [] | x :: l' => if p x then x :: take_while p l' else [] end.
Definition bool_key (b : bool) : Z := if b then 1 else 0.

(** [while( there is a next one ) body]. *)
Fixpoint drain {S A} (fuel : nat) (next : S -> option A) (body : A -> M S unit) : M S unit := fun s =>
  match next s with
  | None => Ok (tt, s)
  | Some x => match fuel with
              | O => Throw out_of_fuel
              | Datatypes.S n => (body x ;; drain n next body) s
              end
  end.

Module updates.
#[local] Notation M := (M database).

Section ops.
Context {F : FcInt} {C : ChainConfig}.

(** ** Global properties *)
Record node_flags := {
  skip_uint_test : bool; skip_undo_history_check : bool; last_checkpoint : option Z }.
Definition MAX_UNDO_HISTORY : Z := 10000.

(** A witness that let its slot pass. *)
Definition note_missed (b : block_header) (slot : Z) : M unit :=
  d ← get;
  uid ← lift (get_scheduled_witness slot d);
  _ ← lift (get_witness_by_uid d uid);
  when (negb (uid =? bh_witness b))
    (modify_witness uid (fun w =>
       let w := w <| total_missed ::= fun n => u64 (n + 1) |> in
       Ok (if u32 (last_confirmed_block_num w + max_witness_inactive_blocks (params d)) <? bh_num b
           then w <| signing_key := 0 |> else w)) ;;
     modify_stats uid (fun s => Ok (s <| witness_total_missed ::= fun n => u64 (n + 1) |>))).

Definition new_missed_count (flags : node_flags) (b : block_header) (missed count : Z) : Z :=
  if bh_num b =? 1 then 0
  else if match last_checkpoint flags with Some n => bh_num b <=? n | None => false end then 0
  else if negb (missed =? 0) then u32 (count + 4 * missed)
  else if 4 <? count then u32 (count - 3)
  else if 0 <? count then u32 (count - 1)
  else count.

Definition update_global_dynamic_data (flags : node_flags) (b : block_header) : M unit :=
  d ← get;
  slot ← lift (get_slot_at_time (bh_timestamp b) d);
  let missed := u32 (slot - 1) in
  when (negb (skip_uint_test flags))
    (mfor (fun i => note_missed b (Z.of_nat i + 1)) (seq 0 (Z.to_nat missed))) ;;
  modify_dgp (fun g => Ok (g
    <| recently_missed_count ::= new_missed_count flags b missed |>
    <| head_block_number := bh_num b |> <| head_block_id := bh_id b |> <| time := bh_timestamp b |>
    <| current_witness := bh_witness b |>
    <| recent_slots_filled ::= fun r => u128_shl (u128_add (u128_shl r 1) 1) missed |>
    <| current_aslot ::= fun a => u64 (a + u32 (missed + 1)) |>)) ;;
  d ← get;
  if skip_undo_history_check flags then mret tt
  else if u32 (head_block_number (dgp d) - last_irreversible_block_num (dgp d)) <? MAX_UNDO_HISTORY
  then mret tt else throw undo_database_exception.

(** The depth both the undo history and the fork database keep ([update_undo_db_size]). *)
Definition undo_db_size (d : database) : Z :=
  u32 (head_block_number (dgp d) - last_irreversible_block_num (dgp d) + 1).

(** [std::nth_element] leaves at [offset] what sorting would. *)
Definition IRREVERSIBLE_THRESHOLD : Z := 7500.
Definition irreversible_offset (n : nat) : nat :=
  Z.to_nat ((PERCENT_100 - IRREVERSIBLE_THRESHOLD) * Z.of_nat n / PERCENT_100).
Definition update_last_irreversible_block : M unit :=
  d ← get;
  wit_objs ← lift (mapM (fun x => get_witness_by_uid d x.1) (active_witnesses d));
  let confirmed := merge_sort Z.le (last_confirmed_block_num <$> wit_objs) in
  new_num ← lift (deref (confirmed !! irreversible_offset (length wit_objs)) undefined_behaviour);
  when (last_irreversible_block_num (dgp d) <? new_num)
    (modify_dgp (fun g => Ok (g <| last_irreversible_block_num := new_num |>))).

(** ** Orders and leases *)
Definition next_expired_order (d : database) : option (Z * limit_order_object) :=
  front (fun x => [expiration x.2; x.1]) (fun x => expiration x.2 <=? head_block_time d)
    (map_to_list (limit_orders d)).
Definition clear_expired_limit_orders : M unit :=
  n ← gets (fun d => size (limit_orders d));
  drain n next_expired_order (fun x => cancel_limit_order x.1).

Definition next_expired_lease (d : database) : option (Z * Z * csaf_lease_object) :=
  front (fun x => [l_expiration x.2; l_id x.2]) (fun x => l_expiration x.2 <=? head_block_time d)
    (map_to_list (csaf_leases d)).
Definition end_lease (x : Z * Z * csaf_lease_object) : M unit :=
  lease_core x.1.1 (fun s =>
    y ← safe_sub (core_leased_out s) (l_amount x.2); Ok (s <| core_leased_out := y |>)) ;;
  lease_core x.1.2 (fun s =>
    y ← safe_sub (core_leased_in s) (l_amount x.2); Ok (s <| core_leased_in := y |>)) ;;
  upd (fun d => d <| csaf_leases ::= delete x.1 |>).
Definition clear_expired_csaf_leases : M unit :=
  n ← gets (fun d => size (csaf_leases d));
  drain n next_expired_lease end_lease.

(** ** Indices with objects that were replaced *)
Section index.
Context {A : Type} (sequence : A -> Z) (is_valid : A -> bool).
Variables (current : database -> gmap Z A) (replaced : database -> gmap (Z * Z) A).

(** All objects of the index: the current ones and those replaced. *)
Definition all_objects (d : database) : list (Z * Z * A) :=
  ((fun x => (x.1, sequence x.2, x.2)) <$> map_to_list (current d)) ++ map_to_list (replaced d).
Definition is_current_object (k : Z * Z) (d : database) : bool :=
  match current d !! k.1 with Some c => sequence c =? k.2 | None => false end.
(** The first invalid object of the index that starts with [is_valid]. *)
Definition next_resigned (d : database) : option (Z * Z) :=
  fst <$> front (fun x => [bool_key (is_valid x.2); x.1.1; x.1.2]) (fun x => negb (is_valid x.2)) (all_objects d).
End index.
Definition member_index : database -> list (Z * Z * committee_member_object) :=
  all_objects c_sequence committee_members replaced_members.
Definition platform_index : database -> list (Z * Z * platform_object) :=
  all_objects p_sequence platforms replaced_platforms.

(** ** Average pledges *)
(** The index of witnesses: the current objects and those replaced. *)
Definition witness_index (d : database) : list (Z * witness_object) :=
  map_to_list (witnesses d) ++ ((fun x => (x.1.1, x.2)) <$> map_to_list (replaced_witnesses d)).
Definition next_average_pledge (d : database) : option (Z * witness_object) :=
  front (fun x => [average_pledge_next_update_block x.2; x.1; w_sequence x.2])
    (fun x => (average_pledge_next_update_block x.2 <=? head_block_num d) && w_is_valid x.2)
    (witness_index d).
Definition update_average_witness_pledges : M unit :=
  n ← gets (fun d => length (witness_index d));
  drain n next_average_pledge (fun x => update_witness_avg_pledge x.1).

Definition next_platform (d : database) (p : platform_object) : result platform_object :=
  let window := platform_max_pledge_seconds (params d) in
  let now := head_block_time d in
  let next := u32 (head_block_num d + platform_avg_pledge_update_interval (params d)) in
  if p_average_pledge p =? p_pledge p then
    Ok (p <| p_average_pledge_last_update := now |> <| p_average_pledge_next_update_block := NEVER |>)
  else if (p_pledge p <? p_average_pledge p) || (time_add (p_pledge_last_update p) window <=? now) then
    Ok (p <| p_average_pledge := p_pledge p |> <| p_average_pledge_last_update := now |>
          <| p_average_pledge_next_update_block := NEVER |>)
  else if p_average_pledge_last_update p <? now then
    avg ← window_average (hardfork d) window now (p_pledge p) (p_pledge_last_update p)
            (p_average_pledge p) (p_average_pledge_last_update p);
    Ok (p <| p_average_pledge := avg |> <| p_average_pledge_last_update := now |>
          <| p_average_pledge_next_update_block := next |>)
  else Ok (p <| p_average_pledge_next_update_block := next |>).
Definition update_platform_avg_pledge (owner : Z) : M unit :=
  d ← get;
  p ← lift (deref (platforms d !! owner) undefined_behaviour);
  if negb (p_is_valid p) then mret tt
  else
    p' ← lift (next_platform d p);
    upd (fun d => d <| platforms ::= <[owner := p']> |>).
Definition next_average_platform (d : database) : option (Z * Z * platform_object) :=
  front (fun x => [p_average_pledge_next_update_block x.2; x.1.1; x.1.2])
    (fun x => (p_average_pledge_next_update_block x.2 <=? head_block_num d) && p_is_valid x.2)
    (platform_index d).
Definition update_average_platform_pledges : M unit :=
  n ← gets (fun d => length (platform_index d));
  drain n next_average_platform (fun x => update_platform_avg_pledge x.1.1).

(** ** Released pledges *)
Definition next_release (d : database) : option (Z * pledge_balance_object) :=
  front (fun x => [earliest_release_block_number x.2; x.1])
    (fun x => earliest_release_block_number x.2 <=? head_block_num d)
    (map_to_list (pledge_balances d)).
(** [get(pledge_mining_id_type(id))]: its key. *)
Definition mining_of (id : Z) (d : database) : result (Z * Z) :=
  match filter (fun x => pm_id x.2 = id) (map_to_list (pledge_minings d)) with
  | x :: _ => Ok x.1
  | [] => Throw assert_exception
  end.
Definition is_type (t : pledge_balance_type) (p : pledge_balance_object) : bool :=
  bool_decide (type p = t).
Definition release_coin_seconds (p : pledge_balance_object) : M unit :=
  d ← get;
  when ((hardfork d =? HEAD_FORK_04) && is_type Witness p)
    (modify_stats (superior_index p)
       (update_coin_seconds_earned (csaf_accumulate_window (params d)) (head_block_time d) d HEAD_FORK_04)).
Definition remove_pledge_balance (id : Z) (p : pledge_balance_object) : M unit :=
  (if is_type Mine p then
     d ← get;
     k ← lift (mining_of (superior_index p) d);
     upd (fun d => d <| pledge_minings ::= delete k |>)
   else modify_stats (superior_index p) (fun s => Ok (s <| pledge_balance_ids ::= fm_erase (type p) |>))) ;;
  upd (fun d => d <| pledge_balances ::= delete id |>).
Definition release_pledge_balance (x : Z * pledge_balance_object) : M unit :=
  let p := x.2 in
  release_coin_seconds p ;;
  d ← get;
  '(delta, p') ← lift (release_due (head_block_num d) p);
  when (is_type Mine p)
    (k ← lift (mining_of (superior_index p) d);
     modify_stats k.2 (fun s =>
       y ← safe_sub (total_mining_pledge s) delta; Ok (s <| total_mining_pledge := y |>))) ;;
  upd (fun d => d <| pledge_balances ::= <[x.1 := p']> |>) ;;
  when ((pledge p' =? 0) && (length (releasing_pledges p') =? 0)%nat) (remove_pledge_balance x.1 p').
Definition process_pledge_balance_release : M unit :=
  n ← gets (fun d => size (pledge_balances d));
  drain n next_release release_pledge_balance.

(** ** Resigned witnesses, committee members and platforms *)
Definition MAX_RESIGNED_VOTES_PER_BLOCK : Z := 10000.
(** The votes for an object, in the order of the index. *)
Definition votes_for (b : ballot) (k : Z * Z) (d : database) : list vote_object :=
  ordered (fun o => [voter_uid o; voter_sequence o])
    (filter (fun o => target_uid o = k.1 /\ target_sequence o = k.2) (b_votes b d)).
(** Remove them; [true] when the limit of the block is reached. *)
Fixpoint clear_votes_for (b : ballot) (os : list vote_object) (processed : Z) : M (Z * bool) :=
  match os with
  | [] => mret (processed, false)
  | o :: os' =>
      modify_voter (voter_uid o, voter_sequence o)
        (fun v => Ok (b_set_number b (fun n => u16 (n - 1)) v)) ;;
      upd (fun d => b_set_votes b (filter (fun o' => o' <> o) (b_votes b d)) d) ;;
      if MAX_RESIGNED_VOTES_PER_BLOCK <=? processed + 1 then mret (processed + 1, true)
      else clear_votes_for b os' (processed + 1)
  end.
Fixpoint clear_resigned (fuel : nat) (b : ballot) (resigned : database -> option (Z * Z))
    (discard : Z * Z -> M unit) (processed : Z) : M unit :=
  d ← get;
  match resigned d with
  | None => mret tt
  | Some k =>
      match fuel with
      | O => throw out_of_fuel
      | S n =>
          '(processed, full) ← clear_votes_for b (votes_for b k d) processed;
          if full : bool then mret tt
          else discard k ;; clear_resigned n b resigned discard processed
      end
  end.
(** The first invalid object of an index that starts with [is_valid]. *)
Definition first_resigned {A} (is_valid : A -> bool) (sequence : A -> Z) (l : list (Z * A)) : option (Z * Z) :=
  (fun x => (x.1, sequence x.2)) <$>
    front (fun x => [bool_key (is_valid x.2); x.1; sequence x.2]) (fun x => negb (is_valid x.2)) l.

(** The witness object of that account and sequence. *)
Definition is_current (k : Z * Z) (d : database) : bool :=
  match witnesses d !! k.1 with Some w => w_sequence w =? k.2 | None => false end.
Definition witness_at (k : Z * Z) (d : database) : option witness_object :=
  if is_current k d then witnesses d !! k.1 else replaced_witnesses d !! k.
Definition remove_witness (k : Z * Z) : M unit :=
  upd (fun d => if is_current k d then d <| witnesses ::= delete k.1 |>
                else d <| replaced_witnesses ::= delete k |>).
Definition discard_witness (k : Z * Z) : M unit :=
  d ← get;
  w ← lift (deref (witness_at k d) undefined_behaviour);
  update_pledge_mining_bonus_by_witness k.1 w ;;
  resign_pledge_mining k.1 ;;
  remove_witness k.
Definition next_resigned_witness (d : database) : option (Z * Z) :=
  first_resigned w_is_valid w_sequence (witness_index d).
Definition clear_resigned_witness_votes : M unit :=
  n ← gets (fun d => length (witness_index d));
  clear_resigned n witness_ballot next_resigned_witness discard_witness 0.
Definition next_resigned_member : database -> option (Z * Z) :=
  next_resigned c_sequence c_is_valid committee_members replaced_members.
Definition remove_member (k : Z * Z) : M unit :=
  upd (fun d => if is_current_object c_sequence committee_members k d then d <| committee_members ::= delete k.1 |>
                else d <| replaced_members ::= delete k |>).
Definition clear_resigned_committee_member_votes : M unit :=
  n ← gets (fun d => length (member_index d));
  clear_resigned n committee_ballot next_resigned_member remove_member 0.
Definition next_resigned_platform : database -> option (Z * Z) :=
  next_resigned p_sequence p_is_valid platforms replaced_platforms.
Definition remove_platform (k : Z * Z) : M unit :=
  upd (fun d => if is_current_object p_sequence platforms k d then d <| platforms ::= delete k.1 |>
                else d <| replaced_platforms ::= delete k |>).
Definition clear_resigned_platform_votes : M unit :=
  n ← gets (fun d => length (platform_index d));
  clear_resigned n platform_ballot next_resigned_platform remove_platform 0.

(** ** Voters *)
(** The index of voters that starts with [is_valid]. *)
Definition voters_by_valid (d : database) : list (Z * Z * voter_object) :=
  ordered (fun x => [bool_key (v_is_valid x.2); proxy_uid x.2; proxy_sequence x.2;
                     effective_last_vote_block x.2; x.1.1; x.1.2]) (map_to_list (voters d)).

(** Invalidating a voter that votes by itself changes no other voter, so the
    voters to take are known when the loop starts. *)
Definition invalidate_expired_governance_voters : M unit :=
  d ← get;
  let expire_blocks := governance_voting_expiration_blocks (params d) in
  if head_block_num d <? expire_blocks then mret tt
  else
    let max_last_vote_block := head_block_num d - expire_blocks in
    let from_lower_bound := filter (fun x => v_is_valid x.2 = true /\ PROXY_TO_SELF_ACCOUNT_UID <= proxy_uid x.2)
                              (voters_by_valid d) in
    mfor (fun x => invalidate_voter x.1)
      (take_while (fun x => votes_by_self x.2 && (effective_last_vote_block x.2 <=? max_last_vote_block))
         from_lower_bound).

(** The index of voters by proxy; [next_by_proxy key] is what follows the place
    of [key] in it, which is how an iterator to a voter moves on after the voter
    was changed. *)
Definition proxy_index_key (x : Z * Z * voter_object) : list Z :=
  [proxy_uid x.2; proxy_sequence x.2; x.1.1; x.1.2].
Definition next_by_proxy (at_least : list Z) (d : database) : option (Z * Z) :=
  fst <$> head (filter (fun x => lex_leb (proxy_index_key x) at_least = false)
                  (ordered proxy_index_key (map_to_list (voters d)))).

(** A voter whose proxy became invalid votes by itself again, if it is still valid. *)
Definition drop_proxy (d : database) (proxy v : voter_object) : result voter_object :=
  v ← copy_last_vote (max_governance_voting_proxy_level (params d)) proxy v;
  let expired := v_is_valid v &&
    (u32 (effective_last_vote_block v + governance_voting_expiration_blocks (params d)) <=? head_block_num d) in
  let v := if expired then
             v <| v_is_valid := false |> <| votes := 0 |> <| votes_last_update := head_block_time d |>
               <| effective_votes := 0 |> <| effective_votes_last_update := head_block_time d |>
               <| effective_votes_next_update_block := NEVER |>
           else v in
  Ok (v <| proxy_uid := PROXY_TO_SELF_ACCOUNT_UID |> <| proxy_sequence := 0 |>).
Fixpoint drop_proxies (n : nat) (k : Z * Z) (cur : option (Z * Z)) (processed : Z) : M Z :=
  match n, cur with
  | S n', Some c =>
      d ← get;
      v ← get_voter c;
      if bool_decide (proxy_key v = k) then
        proxy ← get_voter k;
        v' ← lift (drop_proxy d proxy v);
        modify_voter c (fun _ => Ok v') ;;
        when (v_is_valid v && negb (v_is_valid v')) (modify_stats c.1 (fun s => Ok (s <| is_voter := false |>))) ;;
        next ← gets (next_by_proxy (proxy_index_key (c, v')));
        drop_proxies n' k next (processed + 1)
      else mret processed
  | _, _ => mret processed
  end.
Definition process_invalid_proxied_voters (k : Z * Z) (max_voters_to_process : Z) : M Z :=
  if max_voters_to_process =? 0 then mret 0
  else
    proxy ← get_voter k;
    fc_assert (negb (v_is_valid proxy)) ;;
    first ← gets (fun d => fst <$> head (filter (fun x => lex_leb [k.1; k.2] (proxy_index_key x) = true)
                                           (ordered proxy_index_key (map_to_list (voters d)))));
    processed ← drop_proxies (Z.to_nat max_voters_to_process) k first 0;
    when (0 <? processed)
      (modify_voter k (fun v => Ok (v <| proxied_voters ::= fun n => u64 (n - processed) |>))) ;;
    proxy ← get_voter k;
    when (proxied_voters proxy =? 0) (upd (fun d => d <| voters ::= delete k |>)) ;;
    mret processed.

Definition MAX_EXPIRED_VOTERS_TO_PROCESS_PER_BLOCK : Z := 10000.
Fixpoint process_invalid_loop (fuel : nat) (processed : Z) : M unit :=
  d ← get;
  match voters_by_valid d with
  | (k, v) :: _ =>
      if (processed <? MAX_EXPIRED_VOTERS_TO_PROCESS_PER_BLOCK) && negb (v_is_valid v) then
        match fuel with
        | O => throw out_of_fuel
        | S n =>
            p ← process_invalid_proxied_voters k (MAX_EXPIRED_VOTERS_TO_PROCESS_PER_BLOCK - processed);
            process_invalid_loop n (processed + p)
        end
      else mret tt
  | [] => mret tt
  end.
Definition process_invalid_governance_voters : M unit :=
  n ← gets (fun d => size (voters d));
  process_invalid_loop (n + Z.to_nat MAX_EXPIRED_VOTERS_TO_PROCESS_PER_BLOCK) 0.

Definition next_effective_vote (d : database) : option (Z * Z * voter_object) :=
  front (fun x => [effective_votes_next_update_block x.2; x.1.1; x.1.2])
    (fun x => effective_votes_next_update_block x.2 <=? head_block_num d) (map_to_list (voters d)).
Definition update_all_effective_votes : M unit :=
  n ← gets (fun d => size (voters d));
  drain n next_effective_vote (fun x => update_voter_effective_votes x.1).

(** ** The committee *)
Fixpoint pick_committee (size : Z) (ms : list (Z * committee_member_object)) (new_committee : list Z)
    : list Z :=
  match ms with
  | [] => new_committee
  | (uid, _) :: ms' =>
      if Z.of_nat (length new_committee) <? size
      then pick_committee size ms' (fs_insert uid new_committee) else new_committee
  end.
Definition committee_by_votes (d : database) : list (Z * committee_member_object) :=
  ordered (fun x => [- c_total_votes x.2; x.1; c_sequence x.2])
    (filter (fun x => c_is_valid x.2 = true) (map_to_list (committee_members d))).
Definition update_committee : M unit :=
  d ← get;
  if next_committee_update_block (dgp d) <=? head_block_num d then
    upd (fun d => d <| committee_proposals := ∅ |>) ;;
    upd (fun d => d <| active_committee_members :=
                        pick_committee (committee_size (params d)) (committee_by_votes d) [] |>) ;;
    modify_dgp (fun g => Ok (g <| next_committee_update_block ::= fun b =>
                                   u32 (b + committee_update_interval (params d)) |>))
  else mret tt.

Definition next_unapproved (d : database) : option (Z * committee_proposal_object) :=
  front (fun x => [bool_key (is_approved x.2); voting_closing_block_num x.2; x.1])
    (fun x => negb (is_approved x.2) && (voting_closing_block_num x.2 <=? head_block_num d))
    (map_to_list (committee_proposals d)).
(** Defined, but called by nothing. *)
Definition clear_unapproved_committee_proposals : M unit :=
  n ← gets (fun d => size (committee_proposals d));
  drain n next_unapproved (fun x => upd (fun d => d <| committee_proposals ::= delete x.1 |>)).
End ops.
End updates.
