(* ===== verification/Committee.v ===== *)
(** * The committee (committee_member_evaluator.cpp, execute_committee_proposal of
      db_update.cpp, protocol/committee_member.cpp)

    Accounts pledge coins to stand for the committee.  The members in office
    propose changes of parameters, fees and priviledges and of pledges of
    platforms; a proposal is executed when enough of them approve, at once or
    when a later block is reached.

    Executing a proposal catches its exceptions when it is not part of an
    operation, and what was changed before one stays changed: execution is in
    the monad [N].  The calls it makes ([call]) throw only before they change
    something, except on an arithmetic overflow. *)
From S2P Require Import Prelude Keep FlatMap FcInt Asset Pledge ChainState.
From S2P Require Import AccountStats Voter Voting Balance Payroll Mining BlockUpdate.
From S2P Require Import WitnessOps.
Local Open Scope Z_scope.
Import asset pledge chain acc voter voting balance payroll mining updates.

Module committee.
#[local] Notation M := (M database).

Definition get_committee_member_by_uid (d : database) (uid : Z) : result committee_member_object :=
  deref (find_committee_member_by_uid d uid) assert_exception.
Definition modify_member (uid : Z) (f : committee_member_object -> committee_member_object) : M unit := fun d =>
  c ← deref (committee_members d !! uid) undefined_behaviour;
  Ok (tt, d <| committee_members ::= <[uid := f c]> |>).

Section ops.
Context {F : FcInt} {C : ChainConfig}.
Variable is_valid_uid : Z -> bool.

(** ** [committee_member_create] *)
Record committee_member_create_operation := { cc_account : Z; cc_pledge : asset; cc_url : string }.
Definition core_amount_ok (a : asset) : bool := (asset_id a =? CORE_ASSET_AID) && (0 <=? amount a).
Definition validate_member_create (op : committee_member_create_operation) : result unit :=
  guard_ok (is_valid_uid (cc_account op)) assert_exception ;;
  guard_ok (core_amount_ok (cc_pledge op)) assert_exception ;;
  guard_ok (String.length (cc_url op) <? MAX_URL_LENGTH)%nat assert_exception.

Definition member_create_evaluate (op : committee_member_create_operation) (d : database) : result unit :=
  s ← get_account_statistics_by_uid d (cc_account op);
  get_account_by_uid d (cc_account op) ;;
  guard_ok ((head_block_num d =? 0) || (i64 (min_committee_member_pledge (params d)) <=? amount (cc_pledge op)))
    assert_exception ;;
  available ← get_available_core_balance_excluding Commitment d s;
  guard_ok (amount (cc_pledge op) <=? available) assert_exception ;;
  guard_ok (negb (some (find_committee_member_by_uid d (cc_account op)))) assert_exception ;;
  match pledge_id Commitment s with
  | Some id => p ← get_pledge_balance_object d id; guard_ok (pledge p =? 0) assert_exception
  | None => Ok tt
  end.

(** [create<committee_member_object>]: the account's previous, invalid object
    stays in the index. *)
Definition create_member (uid : Z) (c : committee_member_object) : M unit :=
  upd (fun d => match committee_members d !! uid with
                | Some old => d <| replaced_members ::= <[(uid, c_sequence old) := old]> |>
                | None => d
                end <| committee_members ::= <[uid := c]> |>).
Definition create_pledge (uid : Z) (t : pledge_balance_type) (a : asset) : M unit :=
  id ← gets next_pledge_balance_id;
  let p := {| superior_index := uid; type := t; pb_asset_id := asset_id a; pledge := amount a;
              total_releasing_pledge := 0; releasing_pledges := [] |} in
  upd (fun d => d <| pledge_balances ::= <[id := p]> |> <| next_pledge_balance_id := id + 1 |>) ;;
  modify_stats uid (fun s => Ok (s <| pledge_balance_ids ::= fm_emplace t id |>)).
Definition member_create_apply (op : committee_member_create_operation) : M unit :=
  let uid := cc_account op in
  d ← get;
  s ← lift (get_account_statistics_by_uid d uid);
  create_member uid {| c_sequence := u32 (last_committee_member_sequence s + 1); c_is_valid := true;
                       c_total_votes := 0; c_pledge := u64 (amount (cc_pledge op)); c_url := cc_url op |} ;;
  modify_stats uid (fun s => Ok (s <| last_committee_member_sequence ::= fun n => u32 (n + 1) |>)) ;;
  match pledge_id Commitment s with
  | Some id => _ ← update_pledge_of id (cc_pledge op) NEVER; mret tt
  | None => create_pledge uid Commitment (cc_pledge op)
  end.
Definition committee_member_create (op : committee_member_create_operation) : M unit :=
  d ← get; lift (member_create_evaluate op d) ;; member_create_apply op.

(** ** [committee_member_update] *)
Record committee_member_update_operation := {
  cu_account : Z; cu_pledge : option asset; cu_url : option string }.
Definition validate_member_update (op : committee_member_update_operation) : result unit :=
  guard_ok (is_valid_uid (cu_account op)) assert_exception ;;
  guard_ok (some (cu_pledge op) || some (cu_url op)) assert_exception ;;
  guard_ok (if_present core_amount_ok (cu_pledge op)) assert_exception ;;
  guard_ok (if_present (fun u => String.length u <? MAX_URL_LENGTH)%nat (cu_url op)) assert_exception.

(** [idx.count(true)]. *)
Definition valid_members (d : database) : Z :=
  size_of (filter (fun x => c_is_valid x.2 = true) (member_index d)).
Definition member_update_evaluate (op : committee_member_update_operation) (d : database) : result unit :=
  s ← get_account_statistics_by_uid d (cu_account op);
  c ← get_committee_member_by_uid d (cu_account op);
  match cu_pledge op with
  | Some a =>
      if 0 <? amount a then
        guard_ok (i64 (min_committee_member_pledge (params d)) <=? amount a) assert_exception ;;
        guard_ok (negb (amount a =? i64 (c_pledge c))) assert_exception ;;
        available ← get_available_core_balance_excluding Commitment d s;
        guard_ok (amount a <=? available) assert_exception
      else if amount a =? 0 then
        guard_ok (committee_size (params d) <? valid_members d) assert_exception
      else Ok tt
  | None => Ok tt
  end ;;
  guard_ok (if_present (fun u => negb (bool_decide (u = c_url c))) (cu_url op)) assert_exception.

Definition set_url (u : option string) (c : committee_member_object) : committee_member_object :=
  match u with Some u => c <| c_url := u |> | None => c end.
Definition change_member_pledge (uid : Z) (a : asset) (release_num : Z) : M unit :=
  d ← get;
  s ← lift (get_account_statistics_by_uid d uid);
  id ← lift (deref (pledge_id Commitment s) out_of_range);
  _ ← update_pledge_of id a release_num; mret tt.
Definition member_update_apply (op : committee_member_update_operation) : M unit :=
  d ← get;
  let uid := cu_account op in
  let delay := committee_member_pledge_release_delay (params d) in
  match cu_pledge op with
  | None => modify_member uid (set_url (cu_url op))
  | Some a =>
      if amount a =? 0 then
        let from := if bool_decide (uid ∈ active_committee_members d)
                    then next_committee_update_block (dgp d) else head_block_num d in
        change_member_pledge uid a (u32 (from + delay)) ;;
        modify_member uid (fun c => c <| c_is_valid := false |>)
      else
        change_member_pledge uid a (u32 (head_block_num d + delay)) ;;
        modify_member uid (fun c => set_url (cu_url op) (c <| c_pledge := u64 (amount a) |>))
  end.
Definition committee_member_update (op : committee_member_update_operation) : M unit :=
  d ← get; lift (member_update_evaluate op d) ;; member_update_apply op.

(** ** [committee_member_vote_update] *)
Definition committee_member_vote_update : vote_update_operation -> M unit := vote_update committee_ballot.

(** ** Executing a proposal *)
(** What the items ask for: the accounts seen and whether they are registrars
    then, who takes over from whom, the priviledges to set, the fees and
    parameters. *)
Record plan := {
  pl_registrars : flat_map Z bool;
  pl_takeovers : flat_map Z Z;
  pl_accounts : flat_map Z account_priviledge_update_options;
  pl_fees : option (list fee_parameters);
  pl_parameters : option committee_updatable_parameters;
  pl_extension : option committee_updatable_extension_parameters;
}.
#[global] Instance plan_fields : Fields plan :=
  of_ctor Build_plan <*> pl_registrars <*> pl_takeovers <*> pl_accounts <*> pl_fees
  <*> pl_parameters <*> pl_extension.
Definition no_plan : plan :=
  {| pl_registrars := []; pl_takeovers := []; pl_accounts := []; pl_fees := None;
     pl_parameters := None; pl_extension := None |}.

Definition later {A} (new old : option A) : option A := match new with Some _ => new | None => old end.
(** Merge the item into those of the account; the registrar that takes over
    when the account stops being one for the first time. *)
Definition note_priviledges (account : Z) (pv : account_priviledge_update_options) (pl : plan)
    : result (plan * option Z) :=
  let resigns := match pv_is_registrar pv with Some false => true | _ => false end in
  let '(mv, first) :=
    match fm_find account (pl_accounts pl) with
    | None => (pv, resigns)
    | Some mv => (mv <| pv_can_vote ::= later (pv_can_vote pv) |> <| pv_is_admin ::= later (pv_is_admin pv) |>
                     <| pv_is_registrar ::= later (pv_is_registrar pv) |>,
                  resigns && negb (some (pv_is_registrar mv)))
    end in
  let pl := pl <| pl_accounts ::= fm_set account mv |> in
  if first : bool then t ← deref (pv_takeover_registrar pv) assert_exception; Ok (pl, Some t)
  else Ok (pl, None).
Definition cache_takeovers (account t : Z) (d : database) (pl : plan) : plan :=
  pl <| pl_takeovers ::= fun m =>
    foldl (fun m x => fm_set x.1 t m) m (filter (fun x => x.2 = account) (map_to_list (registrar_takeovers d))) |>.
Definition know_account (d : database) (account : Z) (pl : plan) : result plan :=
  match fm_find account (pl_registrars pl) with
  | Some _ => Ok pl
  | None => a ← get_account_by_uid d account; Ok (pl <| pl_registrars ::= fm_set account (is_registrar a) |>)
  end.
Definition set_registrar (account : Z) (pv : account_priviledge_update_options) (pl : plan) : plan :=
  match pv_is_registrar pv with
  | Some true => pl <| pl_registrars ::= fm_set account true |> <| pl_takeovers ::= fm_erase account |>
  | Some false => pl <| pl_registrars ::= fm_set account false |>
  | None => pl
  end.
Definition take_over (d : database) (account t : Z) (pl : plan) : result plan :=
  guard_ok (match fm_find account (pl_registrars pl) with Some true => false | _ => true end) assert_exception ;;
  pl ← (match fm_find t (pl_registrars pl) with
        | Some b => guard_ok b assert_exception ;; Ok pl
        | None =>
            a ← get_account_by_uid d t;
            guard_ok (is_registrar a) assert_exception ;;
            Ok (pl <| pl_registrars ::= fm_set t (is_registrar a) |>)
        end);
  Ok (pl <| pl_takeovers ::= fun m =>
        fm_set account t ((fun x => (x.1, if x.2 =? account then t else x.2)) <$> m) |>).
Definition plan_priviledges (d : database) (account : Z) (pv : account_priviledge_update_options) (pl : plan)
    : result plan :=
  '(pl, first) ← note_priviledges account pv pl;
  let pl := match first with Some t => cache_takeovers account t d pl | None => pl end in
  pl ← know_account d account pl;
  let pl := set_registrar account pv pl in
  match pv_takeover_registrar pv with Some t => take_over d account t pl | None => Ok pl end.

(** The pledge of a platform is reduced; below the minimum the rest is released
    and the platform closed. *)
Definition close_platform (owner id : Z) (p : pledge_balance_object) : N database unit :=
  d ← nget;
  nwhen (0 <? pledge p)
    (call (_ ← update_pledge_of id (Asset 0 CORE_ASSET_AID)
                 (u32 (head_block_num d + platform_pledge_release_delay (params d))); mret tt)) ;;
  (match find_platform_by_owner d owner with
   | Some pf => nupd (fun d => d <| platforms ::= <[owner := pf <| p_is_valid := false |>
                                     <| p_average_pledge_next_update_block := NEVER |>]> |>)
   | None => mret tt
   end) ;;
  a ← nlift (get_account_by_uid d owner);
  nupd (fun d => d <| accounts ::= <[owner := a <| is_full_member := false |>]> |>).
Definition lower_platform (owner : Z) (p : pledge_balance_object) : N database unit :=
  d ← nget;
  _ ← nlift (deref (find_platform_by_owner d owner) assert_exception);
  call (update_platform_avg_pledge owner) ;;
  d ← nget;
  pf ← nlift (deref (platforms d !! owner) undefined_behaviour);
  nupd (fun d => d <| platforms ::= <[owner := pf <| p_pledge := u64 (pledge p) |>
                       <| p_last_update_time := head_block_time d |>
                       <| p_pledge_last_update := head_block_time d |>]> |>).
Definition reduce_platform_pledge (owner id total : Z) (p : pledge_balance_object) : N database unit :=
  let from_releasing := Z.min (total_releasing_pledge p) total in
  from_pledge ← nlift (safe_sub total from_releasing);
  p ← nlift (if 0 <? from_releasing then reduce_releasing from_releasing p else Ok p);
  p ← nlift (if 0 <? from_pledge then x ← safe_sub (pledge p) from_pledge; Ok (set_pledge x p) else Ok p);
  nupd (fun d => d <| pledge_balances ::= <[id := p]> |>) ;;
  d ← nget;
  if pledge p <? i64 (platform_min_pledge (params d)) then close_platform owner id p
  else nwhen (0 <? from_pledge) (lower_platform owner p).
Definition withdraw_platform_pledge (owner receiver amt : Z) : N database unit :=
  d ← nget;
  s ← nlift (get_account_statistics_by_uid d owner);
  match pledge_id Platform s with
  | None => mret tt
  | Some id =>
      p ← nlift (get_pledge_balance_object d id);
      total ← nlift (total_unrelease_pledge p);
      let actual := Z.min total amt in
      nwhen (actual <=? total)
        (reduce_platform_pledge owner id actual p ;;
         call (adjust_balance receiver (Asset actual CORE_ASSET_AID)))
  end.

Definition plan_item (pl : plan) (item : committee_proposal_item_type) : N database plan :=
  match item with
  | committee_update_account_priviledge_item account pv => d ← nget; nlift (plan_priviledges d account pv pl)
  | committee_update_fee_schedule_item fees => mret (pl <| pl_fees := Some fees |>)
  | committee_update_global_parameter_item pv => mret (pl <| pl_parameters := Some pv |>)
  | committee_update_global_extension_parameter_item pv => mret (pl <| pl_extension := Some pv |>)
  | committee_withdraw_platform_pledge_item owner receiver amt =>
      withdraw_platform_pledge owner receiver amt ;; mret pl
  end.

Definition set_priviledges (x : Z * account_priviledge_update_options) : N database unit :=
  let '(uid, pv) := x in
  nwhen (some (pv_is_admin pv) || some (pv_is_registrar pv))
    (d ← nget;
     a ← nlift (get_account_by_uid d uid);
     nupd (fun d => d <| accounts ::= <[uid := a <| is_admin ::= assign (pv_is_admin pv) |>
                          <| is_registrar ::= assign (pv_is_registrar pv) |>
                          <| last_update_time := head_block_time d |>]> |>) ;;
     nwhen (match pv_is_registrar pv with Some true => true | _ => false end)
       (nupd (fun d => d <| registrar_takeovers ::= delete uid |>))) ;;
  match pv_can_vote pv with
  | None => mret tt
  | Some b =>
      d ← nget;
      s ← nlift (get_account_statistics_by_uid d uid);
      nwhen (negb b && is_voter s) (call (invalidate_voter (uid, last_voter_sequence s))) ;;
      call (modify_stats uid (fun s => Ok (s <| can_vote := b |>)))
  end.
Definition update_fees (fees : list fee_parameters) (m : flat_map Z (list Z)) : flat_map Z (list Z) :=
  foldl (fun m f => fm_set (fee_which f) (fee_values f) m) m fees.
Definition carry_out (pl : plan) : N database unit :=
  nfor (fun x => nupd (fun d => d <| registrar_takeovers ::= <[x.1 := x.2]> |>)) (pl_takeovers pl) ;;
  nfor set_priviledges (pl_accounts pl) ;;
  nupd (fun d =>
    let d := match pl_fees pl with Some fees => d <| fee_schedule ::= update_fees fees |> | None => d end in
    let d := match pl_parameters pl with Some pv => d <| params ::= update_parameters pv |> | None => d end in
    match pl_extension pl with Some pv => d <| params ::= update_extension_parameters pv |> | None => d end).

Definition execute_items (num : Z) (p : committee_proposal_object) : N database unit :=
  d ← nget;
  nlift (guard_ok (is_approved p) assert_exception) ;;
  nlift (guard_ok (execution_block_num p <=? head_block_num d) assert_exception) ;;
  pl ← nfold plan_item no_plan (items p);
  carry_out pl ;;
  nupd (fun d => d <| committee_proposals ::= delete num |>).
(** A proposal that failed is tried again at its last block, then dropped. *)
Definition postpone (num : Z) (p : committee_proposal_object) : N database unit :=
  d ← nget;
  if (expiration_block_num p <=? execution_block_num p) || (expiration_block_num p <=? head_block_num d)
  then nupd (fun d => d <| committee_proposals ::= delete num |>)
  else nupd (fun d => d <| committee_proposals ::=
               <[num := p <| execution_block_num := expiration_block_num p |>]> |>).
Definition execute_committee_proposal (num : Z) (silent_fail : bool) : N database unit :=
  d ← nget;
  p ← nlift (deref (committee_proposals d !! num) undefined_behaviour);
  ntry (execute_items num p) (fun e => if silent_fail then postpone num p else nlift (Throw e)).

(** The index by approval and execution block.  An executed proposal leaves it
    or moves behind the block, so those to execute are known at the start. *)
Definition due_proposals (d : database) : list (Z * committee_proposal_object) :=
  ordered (fun x => [execution_block_num x.2; x.1])
    (filter (fun x => is_approved x.2 = true /\ execution_block_num x.2 <= head_block_num d)
       (map_to_list (committee_proposals d))).
Definition execute_committee_proposals : N database unit :=
  d ← nget; nfor (fun x => execute_committee_proposal x.1 true) (due_proposals d).

(** ** [committee_proposal_create] *)
Record committee_proposal_create_operation := {
  cp_proposer : Z; cp_items : list committee_proposal_item_type; cp_voting_closing_block_num : Z;
  cp_execution_block_num : Z; cp_expiration_block_num : Z;
  cp_proposer_opinion : option voting_opinion_type }.
Definition validate_proposal_create (op : committee_proposal_create_operation) : result unit :=
  guard_ok (is_valid_uid (cp_proposer op)) assert_exception ;;
  guard_ok (cp_execution_block_num op <=? cp_expiration_block_num op) assert_exception ;;
  validate_items is_valid_uid (cp_items op).

Definition proposal_calculate_fee (basic_fee price_per_item : Z) (op : committee_proposal_create_operation) : result Z :=
  n ← safe_mul (i64 price_per_item) (size_of (cp_items op));
  safe_add (i64 basic_fee) n.

Definition check_item (d : database) (item : committee_proposal_item_type) : result unit :=
  match item with
  | committee_update_account_priviledge_item account pv =>
      get_account_by_uid d account ;;
      match pv_takeover_registrar pv with Some t => get_account_by_uid d t ;; Ok tt | None => Ok tt end
  | committee_update_global_parameter_item pv =>
      guard_ok (if_present (fun t => block_interval (params d) <? t) (up_maximum_time_until_expiration pv))
        assert_exception
  | committee_withdraw_platform_pledge_item owner receiver amt =>
      get_account_by_uid d receiver ;;
      get_account_by_uid d owner ;;
      s ← get_account_statistics_by_uid d owner;
      id ← deref (pledge_id Platform s) assert_exception;
      p ← get_pledge_balance_object d id;
      total ← total_unrelease_pledge p;
      guard_ok (amt <=? total) assert_exception
  | _ => Ok tt
  end.
Definition proposal_create_evaluate (op : committee_proposal_create_operation) (d : database) : result unit :=
  guard_ok (bool_decide (cp_proposer op ∈ active_committee_members d)) assert_exception ;;
  guard_ok (head_block_num d <=? cp_voting_closing_block_num op) assert_exception ;;
  guard_ok (cp_voting_closing_block_num op <=? next_committee_update_block (dgp d)) assert_exception ;;
  guard_ok (cp_execution_block_num op <=? next_committee_update_block (dgp d)) assert_exception ;;
  guard_ok (cp_expiration_block_num op <=? next_committee_update_block (dgp d)) assert_exception ;;
  _ ← mapM (check_item d) (cp_items op);
  Ok tt.

Definition new_proposal (op : committee_proposal_create_operation) (d : database) : committee_proposal_object :=
  let threshold := get_approve_threshold (HEAD_FORK_05 <=? hardfork d) (cp_items op) in
  let new_for := match cp_proposer_opinion op with
                 | Some opinion_for => u16 (PERCENT_100 / size_of (active_committee_members d))
                 | _ => 0
                 end in
  {| proposer := cp_proposer op; items := cp_items op;
     voting_closing_block_num := cp_voting_closing_block_num op;
     execution_block_num := cp_execution_block_num op;
     expiration_block_num := cp_expiration_block_num op;
     opinions := match cp_proposer_opinion op with Some o => [(cp_proposer op, o)] | None => [] end;
     approve_threshold := threshold; is_approved := threshold <=? new_for |}.
Definition execute_if_due (num : Z) : M unit :=
  d ← get;
  p ← lift (deref (committee_proposals d !! num) undefined_behaviour);
  when (is_approved p && (execution_block_num p <=? head_block_num d))
    (in_operation (execute_committee_proposal num false)).
Definition proposal_create_apply (op : committee_proposal_create_operation) : M unit :=
  d ← get;
  let num := next_committee_proposal_number (dgp d) in
  upd (fun d => d <| committee_proposals ::= <[num := new_proposal op d]> |>) ;;
  modify_dgp (fun g => Ok (g <| next_committee_proposal_number ::= fun n => u64 (n + 1) |>)) ;;
  execute_if_due num.
Definition committee_proposal_create (op : committee_proposal_create_operation) : M unit :=
  d ← get; lift (proposal_create_evaluate op d) ;; proposal_create_apply op.

(** ** [committee_proposal_update] *)
Record committee_proposal_update_operation := {
  cq_account : Z; cq_proposal_number : Z; cq_opinion : voting_opinion_type }.
Definition validate_proposal_update (op : committee_proposal_update_operation) : result unit :=
  guard_ok (is_valid_uid (cq_account op)) assert_exception.
Definition proposal_update_evaluate (op : committee_proposal_update_operation) (d : database) : result unit :=
  guard_ok (bool_decide (cq_account op ∈ active_committee_members d)) assert_exception ;;
  p ← deref (committee_proposals d !! cq_proposal_number op) assert_exception;
  guard_ok (head_block_num d <=? voting_closing_block_num p) assert_exception ;;
  guard_ok (if_present (fun o => negb (bool_decide (o = cq_opinion op))) (fm_find (cq_account op) (opinions p)))
    assert_exception.
(** The members for the proposal, counted in 8 bits. *)
Definition yeses (m : flat_map Z voting_opinion_type) : Z :=
  foldl (fun n x => if bool_decide (x.2 = opinion_for) then (n + 1) mod 2 ^ 8 else n) 0 m.
Definition give_opinion (op : committee_proposal_update_operation) (size : Z) (p : committee_proposal_object)
    : committee_proposal_object :=
  let p := p <| opinions ::= fm_set (cq_account op) (cq_opinion op) |> in
  p <| is_approved := approve_threshold p <=? yeses (opinions p) * PERCENT_100 / size |>.
Definition proposal_update_apply (op : committee_proposal_update_operation) : M unit :=
  d ← get;
  let num := cq_proposal_number op in
  p ← lift (deref (committee_proposals d !! num) undefined_behaviour);
  upd (fun d => d <| committee_proposals ::=
         <[num := give_opinion op (size_of (active_committee_members d)) p]> |>) ;;
  execute_if_due num.
Definition committee_proposal_update (op : committee_proposal_update_operation) : M unit :=
  d ← get; lift (proposal_update_evaluate op d) ;; proposal_update_apply op.
End ops.
End committee.
