(* ===== verification/Platform.v ===== *)
(** * Platforms (the platform evaluators of content_evaluator.cpp,
      protocol/content.cpp)

    An account pledges coins to run a platform; accounts vote for platforms. *)
From S2P Require Import Prelude FlatMap FcInt Asset Pledge ChainState Utf8 Names.
From S2P Require Import AccountStats Voter Voting Balance Fee Payroll Mining BlockUpdate Committee.
Local Open Scope Z_scope.
Import asset pledge chain acc voter voting balance fee mining updates utf8 names committee.

Module platform.
#[local] Notation M := (M database).
(** [GRAPHENE_MAX_PLATFORM_NAME_LENGTH], [GRAPHENE_MAX_PLATFORM_EXTRA_DATA_LENGTH]. *)
Definition MAX_PLATFORM_NAME_LENGTH : Z := 100.
Definition MAX_PLATFORM_URL_LENGTH : Z := 127.
Definition MAX_PLATFORM_EXTRA_DATA_LENGTH : Z := 1000.

Definition get_platform_by_owner (d : database) (owner : Z) : result platform_object :=
  deref (find_platform_by_owner d owner) assert_exception.
Definition modify_platform (owner : Z) (f : platform_object -> platform_object) : M unit := fun d =>
  p ← deref (platforms d !! owner) undefined_behaviour;
  Ok (tt, d <| platforms ::= <[owner := f p]> |>).

Section ops.
Context {F : FcInt} {C : ChainConfig}.
Variable is_valid_uid : Z -> bool.

(** ** [platform_create] *)
Record platform_create_operation := {
  pc_account : Z; pc_pledge : asset; pc_name : string; pc_url : string; pc_extra_data : string }.
Definition validate_platform_create (op : platform_create_operation) : result unit :=
  guard_ok (is_valid_uid (pc_account op)) assert_exception ;;
  guard_ok (core_amount_ok (pc_pledge op)) assert_exception ;;
  validate_platform_string (bytes_of (pc_name op)) MAX_PLATFORM_NAME_LENGTH ;;
  validate_platform_string (bytes_of (pc_url op)) MAX_PLATFORM_URL_LENGTH ;;
  validate_platform_string (bytes_of (pc_extra_data op)) MAX_PLATFORM_EXTRA_DATA_LENGTH.
(** [fc::raw::pack_size] of the texts is an argument. *)
Definition platform_create_fee (fee price_per_kbyte extra_data_size name_size url_size : Z) : result Z :=
  x ← calculate_data_fee extra_data_size price_per_kbyte;
  y ← calculate_data_fee name_size price_per_kbyte;
  z ← calculate_data_fee url_size price_per_kbyte;
  total ← safe_add (i64 fee) (i64 x);
  total ← safe_add total (i64 y);
  safe_add total (i64 z).

Definition platforms_enabled (d : database) : bool :=
  (HARDFORK_0_2_TIME <=? head_block_time d) || (head_block_num d <=? 4570000).
Definition platform_create_evaluate (op : platform_create_operation) (d : database) : result unit :=
  guard_ok (platforms_enabled d) assert_exception ;;
  s ← get_account_statistics_by_uid d (pc_account op);
  get_account_by_uid d (pc_account op) ;;
  guard_ok ((head_block_num d =? 0) || (i64 (platform_min_pledge (params d)) <=? amount (pc_pledge op)))
    assert_exception ;;
  available ← get_available_core_balance_excluding Platform d s;
  guard_ok (amount (pc_pledge op) <=? available) assert_exception ;;
  guard_ok (negb (some (find_platform_by_owner d (pc_account op)))) assert_exception.

(** [create<platform_object>]: the owner's previous, invalid platform stays in
    the index. *)
Definition create_platform (owner : Z) (p : platform_object) : M unit :=
  upd (fun d => match platforms d !! owner with
                | Some old => d <| replaced_platforms ::= <[(owner, p_sequence old) := old]> |>
                | None => d
                end <| platforms ::= <[owner := p]> |>).
Definition modify_account (uid : Z) (f : account_object -> account_object) : M unit := fun d =>
  a ← get_account_by_uid d uid;
  Ok (tt, d <| accounts ::= <[uid := f a]> |>).
Definition platform_create_apply (op : platform_create_operation) : M unit :=
  let owner := pc_account op in
  d ← get;
  s ← lift (get_account_statistics_by_uid d owner);
  let pledged := u64 (amount (pc_pledge op)) in
  create_platform owner (new_platform
    <| p_name := pc_name op |> <| p_sequence := u32 (last_platform_sequence s + 1) |>
    <| p_pledge := pledged |> <| p_url := pc_url op |> <| p_extra_data := pc_extra_data op |>
    <| p_create_time := head_block_time d |> <| p_pledge_last_update := head_block_time d |>
    <| p_average_pledge_last_update := head_block_time d |>
    <| p_average_pledge_next_update_block :=
         if 0 <? pledged then u32 (head_block_num d + platform_avg_pledge_update_interval (params d)) else NEVER |>) ;;
  modify_account owner (fun a => a <| is_full_member := true |>) ;;
  modify_stats owner (fun s => Ok (s <| last_platform_sequence ::= fun n => u32 (n + 1) |>)) ;;
  match pledge_id Platform s with
  | Some id => _ ← update_pledge_of id (Asset (amount (pc_pledge op)) CORE_ASSET_AID) NEVER; mret tt
  | None => create_pledge owner Platform (pc_pledge op)
  end.
Definition platform_create (op : platform_create_operation) : M unit :=
  d ← get; lift (platform_create_evaluate op d) ;; platform_create_apply op.

(** ** [platform_update] *)
Record platform_update_operation := {
  pu_account : Z; pu_pledge : option asset; pu_name : option string; pu_url : option string;
  pu_extra_data : option string }.
Definition text_ok (maxlen : Z) (s : option string) : result unit :=
  match s with Some s => validate_platform_string (bytes_of s) maxlen | None => Ok tt end.
Definition validate_platform_update (op : platform_update_operation) : result unit :=
  guard_ok (is_valid_uid (pu_account op)) assert_exception ;;
  guard_ok (some (pu_pledge op) || some (pu_name op) || some (pu_url op) || some (pu_extra_data op)) assert_exception ;;
  guard_ok (if_present core_amount_ok (pu_pledge op)) assert_exception ;;
  text_ok MAX_PLATFORM_URL_LENGTH (pu_url op) ;;
  text_ok MAX_PLATFORM_NAME_LENGTH (pu_name op) ;;
  text_ok MAX_PLATFORM_EXTRA_DATA_LENGTH (pu_extra_data op).

(** The sizes of the optional texts that are present. *)
Definition platform_update_fee (fee price_per_kbyte : Z) (extra_data_size name_size url_size : option Z) : result Z :=
  let add acc size := match size with
                      | Some n => total ← acc; x ← calculate_data_fee n price_per_kbyte; safe_add total (i64 x)
                      | None => acc
                      end in
  add (add (add (Ok (i64 fee)) extra_data_size) name_size) url_size.

Definition changed (new : option string) (old : string) : bool :=
  if_present (fun n => negb (bool_decide (n = old))) new.
Definition platform_update_evaluate (op : platform_update_operation) (d : database) : result unit :=
  guard_ok (platforms_enabled d) assert_exception ;;
  s ← get_account_statistics_by_uid d (pu_account op);
  p ← get_platform_by_owner d (pu_account op);
  match pu_pledge op with
  | Some a =>
      if 0 <? amount a then
        guard_ok (i64 (platform_min_pledge (params d)) <=? amount a) assert_exception ;;
        available ← get_available_core_balance_excluding Platform d s;
        guard_ok (amount a <=? available) assert_exception
      else Ok tt
  | None => guard_ok (platform_min_pledge (params d) <=? p_pledge p) assert_exception
  end ;;
  guard_ok (changed (pu_url op) (p_url p)) assert_exception ;;
  guard_ok (changed (pu_name op) (p_name p)) assert_exception ;;
  guard_ok (changed (pu_extra_data op) (p_extra_data p)) assert_exception.

Definition set_texts (op : platform_update_operation) (p : platform_object) : platform_object :=
  p <| p_name ::= assign (pu_name op) |> <| p_url ::= assign (pu_url op) |>
    <| p_extra_data ::= assign (pu_extra_data op) |>.
Definition release_platform_pledge (owner : Z) (a : asset) : M unit :=
  d ← get;
  s ← lift (get_account_statistics_by_uid d owner);
  id ← lift (deref (pledge_id Platform s) out_of_range);
  _ ← update_pledge_of id a (u32 (head_block_num d + platform_pledge_release_delay (params d))); mret tt.
Definition platform_update_apply (op : platform_update_operation) : M unit :=
  let owner := pu_account op in
  d ← get;
  lift (get_account_by_uid d owner) ;;
  match pu_pledge op with
  | None => modify_platform owner (set_texts op)
  | Some a =>
      release_platform_pledge owner a ;;
      let hf05 := HEAD_FORK_05 <=? hardfork d in
      if amount a =? 0 then
        modify_platform owner (fun p => let p := p <| p_is_valid := false |> in
          if hf05 then p <| p_average_pledge_next_update_block := NEVER |> else p) ;;
        modify_account owner (fun a => a <| is_full_member := false |>)
      else
        when hf05 (update_platform_avg_pledge owner) ;;
        modify_platform owner (fun p =>
          let p := set_texts op p <| p_pledge := u64 (amount a) |> <| p_last_update_time := head_block_time d |> in
          if hf05 then p <| p_pledge_last_update := head_block_time d |> else p) ;;
        when (negb hf05) (update_platform_avg_pledge owner)
  end.
Definition platform_update (op : platform_update_operation) : M unit :=
  d ← get; lift (platform_update_evaluate op d) ;; platform_update_apply op.

(** ** [platform_vote_update] *)
Definition platform_vote_update : vote_update_operation -> M unit := vote_update platform_ballot.
Definition platform_vote_fee (basic_fee price_per_platform : Z) (op : vote_update_operation) : result Z :=
  n ← safe_mul (i64 price_per_platform) (size_of (wv_add op));
  safe_add (i64 basic_fee) n.
End ops.
End platform.
