(* ===== verification/Account.v ===== *)
(** * Accounts (account_evaluator.cpp, protocol/account.cpp)

    Registration, permissions, authorities, authorized platforms, the assets an
    account accepts, and white and black lists.  (The voting proxy is in [Proxy];
    beneficiaries are in [Payroll].) *)
From S2P Require Import Prelude FlatMap FcInt Authority Asset Pledge ChainState Utf8 Names.
From S2P Require Import Voting Platform.
Local Open Scope Z_scope.
Import auth asset chain voting utf8 names platform.

#[global] Instance authority_fields : Fields authority :=
  of_ctor Authority <*> weight_threshold <*> account_uid_auths <*> key_auths.

Module account.
#[local] Notation M := (M database).

Section ops.
Context {F : FcInt} {C : ChainConfig}.
Variables (is_valid_uid : Z -> bool) (special_account : Z -> bool).

(** [validate_new_authority]; [special_account] holds of the uids of
    [validate_non_special_account]. *)
Definition validate_new_authority (au : authority) : result unit :=
  guard_ok (negb (num_auths au =? 0)) assert_exception ;;
  guard_ok (forallb (fun x => is_valid_uid x.1.1) (account_uid_auths au)) assert_exception ;;
  guard_ok (negb (is_impossible au)) assert_exception.
Definition validate_optional_authority (au : option authority) : result unit :=
  match au with Some au => validate_new_authority au | None => Ok tt end.
Definition verify_authority_accounts (d : database) (a : authority) : result unit :=
  guard_ok (num_auths a <=? maximum_authority_membership (params d)) assert_exception ;;
  guard_ok (forallb (fun x => some (accounts d !! x.1.1)) (account_uid_auths a)) assert_exception.

(** ** [account_create] *)
Record account_reg_info := {
  ri_registrar : Z; ri_referrer : Z; ri_registrar_percent : Z; ri_referrer_percent : Z;
  ri_allowance_per_article : asset; ri_max_share_per_article : asset; ri_max_share_total : asset;
  ri_buyout_percent : Z }.
Definition validate_percentage (p : Z) : bool := p <=? PERCENT_100.
Definition validate_reg_info (r : account_reg_info) : result unit :=
  guard_ok (is_valid_uid (ri_registrar r)) assert_exception ;;
  guard_ok (is_valid_uid (ri_referrer r)) assert_exception ;;
  guard_ok (validate_percentage (ri_registrar_percent r)) assert_exception ;;
  guard_ok (validate_percentage (ri_referrer_percent r)) assert_exception ;;
  guard_ok (validate_percentage (u16 (ri_registrar_percent r + ri_referrer_percent r))) assert_exception ;;
  guard_ok (validate_percentage (ri_buyout_percent r)) assert_exception ;;
  guard_ok (asset_id (ri_allowance_per_article r) =? CORE_ASSET_AID) assert_exception ;;
  guard_ok (asset_id (ri_max_share_per_article r) =? CORE_ASSET_AID) assert_exception ;;
  guard_ok (asset_id (ri_max_share_total r) =? CORE_ASSET_AID) assert_exception.
Record account_create_operation := {
  an_uid : Z; an_name : string; an_owner : authority; an_active : authority; an_secondary : authority;
  an_memo_key : Z; an_reg_info : account_reg_info }.
Definition validate_account_create (op : account_create_operation) : result unit :=
  guard_ok (is_valid_uid (an_uid op)) assert_exception ;;
  validate_account_name (bytes_of (an_name op)) ;;
  validate_new_authority (an_owner op) ;;
  validate_new_authority (an_active op) ;;
  validate_new_authority (an_secondary op) ;;
  validate_reg_info (an_reg_info op).

(** [fee + price * n] in the checked integers. *)
Definition add_priced (price n : Z) (fee : result Z) : result Z :=
  f ← fee; x ← safe_mul (i64 price) n; safe_add f x.
Definition account_create_fee (basic_fee price_per_auth : Z) (op : account_create_operation) : result Z :=
  add_priced price_per_auth (num_auths (an_secondary op))
    (add_priced price_per_auth (num_auths (an_active op))
      (add_priced price_per_auth (num_auths (an_owner op)) (Ok (i64 basic_fee)))).

(** The fee is paid by the registrar. *)
Definition account_create_evaluate (op : account_create_operation) (d : database) : result unit :=
  let r := an_reg_info op in
  payer ← get_account_by_uid d (ri_registrar r);
  guard_ok (is_registrar payer) assert_exception ;;
  get_account_by_uid d (ri_referrer r) ;;
  guard_ok ((hardfork d <? HEAD_FORK_05) ||
            ((99999999 <? an_uid op) && negb (ri_registrar r =? NULL_ACCOUNT_UID) &&
             negb (ri_referrer r =? NULL_ACCOUNT_UID) &&
             (ri_referrer_percent r + ri_registrar_percent r =? PERCENT_100))) assert_exception ;;
  verify_authority_accounts d (an_owner op) ;;
  verify_authority_accounts d (an_active op) ;;
  verify_authority_accounts d (an_secondary op) ;;
  guard_ok (negb (some (accounts d !! an_uid op))) assert_exception ;;
  guard_ok (forallb (fun x => negb (bool_decide (a_name x.2 = an_name op))) (map_to_list (accounts d)))
    assert_exception.
Definition created_account (op : account_create_operation) (d : database) : account_object :=
  let r := an_reg_info op in
  let a := new_account
    <| a_name := an_name op |> <| a_owner := an_owner op |> <| a_active := an_active op |>
    <| a_secondary := an_secondary op |> <| a_memo_key := an_memo_key op |>
    <| registrar := ri_registrar r |> <| referrer := ri_referrer r |>
    <| registrar_percent := ri_registrar_percent r |> <| referrer_percent := ri_referrer_percent r |>
    <| allowance_per_article := ri_allowance_per_article r |>
    <| max_share_per_article := ri_max_share_per_article r |>
    <| max_share_total := ri_max_share_total r |> <| buyout_percent := ri_buyout_percent r |>
    <| referrer_by_platform :=
         match find_platform_by_owner d (ri_referrer r) with None => 0 | Some p => p_sequence p end |>
    <| a_create_time := head_block_time d |> <| last_update_time := head_block_time d |> in
  if HEAD_FORK_04 <=? hardfork d then a <| can_rate := true |> <| can_reply := true |> else a.
Definition account_create (op : account_create_operation) : M unit :=
  d ← get;
  lift (account_create_evaluate op d) ;;
  upd (fun d => d <| stats ::= <[an_uid op := new_account_statistics]> |>
                  <| accounts ::= <[an_uid op := created_account op d]> |>).

(** ** [account_manage] *)
Record account_manage_operation := {
  am_executor : Z; am_account : Z; am_can_post : option bool; am_can_reply : option bool; am_can_rate : option bool }.
Definition validate_account_manage (op : account_manage_operation) : result unit :=
  guard_ok (is_valid_uid (am_executor op)) assert_exception ;;
  guard_ok (is_valid_uid (am_account op)) assert_exception ;;
  guard_ok (some (am_can_post op) || some (am_can_reply op) || some (am_can_rate op)) assert_exception.
Definition flag_changes (new : option bool) (old : bool) : bool :=
  if_present (fun b => negb (Bool.eqb old b)) new.
Definition account_manage_evaluate (op : account_manage_operation) (d : database) : result unit :=
  a ← get_account_by_uid d (am_account op);
  r ← get_account_by_uid d (registrar a);
  (if is_registrar r then guard_ok (registrar a =? am_executor op) assert_exception
   else t ← deref (registrar_takeovers d !! registrar a) assert_exception;
        guard_ok (t =? am_executor op) assert_exception) ;;
  guard_ok (flag_changes (am_can_post op) (can_post a)) assert_exception ;;
  guard_ok (flag_changes (am_can_reply op) (can_reply a)) assert_exception ;;
  guard_ok (flag_changes (am_can_rate op) (can_rate a)) assert_exception.
Definition account_manage (op : account_manage_operation) : M unit :=
  d ← get;
  lift (account_manage_evaluate op d) ;;
  modify_account (am_account op) (fun a =>
    a <| can_post ::= assign (am_can_post op) |> <| can_reply ::= assign (am_can_reply op) |>
      <| can_rate ::= assign (am_can_rate op) |> <| last_update_time := head_block_time d |>).

(** ** [account_update_key] *)
Record account_update_key_operation := {
  uk_fee_paying_account : Z; uk_uid : Z; uk_old_key : Z; uk_new_key : Z; uk_update_active : bool;
  uk_update_secondary : bool }.
Definition validate_update_key (op : account_update_key_operation) : result unit :=
  guard_ok (is_valid_uid (uk_fee_paying_account op)) assert_exception ;;
  guard_ok (is_valid_uid (uk_uid op)) assert_exception ;;
  guard_ok (negb (uk_old_key op =? uk_new_key op)) assert_exception ;;
  guard_ok (uk_update_active op || uk_update_secondary op) assert_exception.
(** The weight of the old key, if it is there and the new one is not. *)
Definition key_weight_of (op : account_update_key_operation) (au : authority) : result Z :=
  guard_ok (negb (some (fm_find (uk_new_key op) (key_auths au)))) assert_exception ;;
  deref (fm_find (uk_old_key op) (key_auths au)) assert_exception.
Definition replace_key (op : account_update_key_operation) (weight : Z) (au : authority) : authority :=
  au <| key_auths ::= fun m => fm_set (uk_new_key op) weight (fm_erase (uk_old_key op) m) |>.
Definition account_update_key (op : account_update_key_operation) : M unit :=
  d ← get;
  a ← lift (get_account_by_uid d (uk_uid op));
  active_weight ← lift (if uk_update_active op then key_weight_of op (a_active a) else Ok 0);
  secondary_weight ← lift (if uk_update_secondary op then key_weight_of op (a_secondary a) else Ok 0);
  modify_account (uk_uid op) (fun a =>
    let a := if uk_update_active op then a <| a_active ::= replace_key op active_weight |> else a in
    let a := if uk_update_secondary op then a <| a_secondary ::= replace_key op secondary_weight |> else a in
    a <| last_update_time := head_block_time d |>).

(** ** [account_update_auth] *)
Record account_update_auth_operation := {
  ua_uid : Z; ua_owner : option authority; ua_active : option authority; ua_secondary : option authority;
  ua_memo_key : option Z }.
Definition validate_update_auth (op : account_update_auth_operation) : result unit :=
  guard_ok (is_valid_uid (ua_uid op)) assert_exception ;;
  guard_ok (negb (special_account (ua_uid op))) assert_exception ;;
  guard_ok (some (ua_owner op) || some (ua_active op) || some (ua_secondary op) || some (ua_memo_key op))
    assert_exception ;;
  validate_optional_authority (ua_owner op) ;;
  validate_optional_authority (ua_active op) ;;
  validate_optional_authority (ua_secondary op).
Definition price_authority (price_per_auth : Z) (au : option authority) (fee : result Z) : result Z :=
  match au with Some au => add_priced price_per_auth (num_auths au) fee | None => fee end.
Definition update_auth_fee (fee price_per_auth : Z) (op : account_update_auth_operation) : result Z :=
  price_authority price_per_auth (ua_secondary op)
    (price_authority price_per_auth (ua_active op)
      (price_authority price_per_auth (ua_owner op) (Ok (i64 fee)))).
Definition verify_optional (d : database) (au : option authority) : result unit :=
  match au with Some au => verify_authority_accounts d au | None => Ok tt end.
(** Authorities in [au] that [other] has not: the platforms among them. *)
Definition set_platforms_active (uid : Z) (au other : authority) (active : bool) : M unit :=
  mfor (fun x : account_uid_auth_type * Z =>
    d ← get;
    when (negb (some (fm_find x.1 (account_uid_auths other))) && some (find_platform_by_owner d x.1.1))
      (upd (fun d => d <| auth_platforms ::= alter (fun o => o <| is_active := active |>) (uid, x.1.1) |>)))
    (account_uid_auths au).
Definition account_update_auth (op : account_update_auth_operation) : M unit :=
  d ← get;
  lift (verify_optional d (ua_owner op)) ;;
  lift (verify_optional d (ua_active op)) ;;
  lift (verify_optional d (ua_secondary op)) ;;
  a ← lift (get_account_by_uid d (ua_uid op));
  match ua_secondary op with
  | Some s => set_platforms_active (ua_uid op) s (a_secondary a) true ;;
              set_platforms_active (ua_uid op) (a_secondary a) s false
  | None => mret tt
  end ;;
  modify_account (ua_uid op) (fun a =>
    a <| a_owner ::= assign (ua_owner op) |> <| a_active ::= assign (ua_active op) |>
      <| a_secondary ::= assign (ua_secondary op) |> <| a_memo_key ::= assign (ua_memo_key op) |>
      <| last_update_time := head_block_time d |>).

(** ** [account_auth_platform] and [account_cancel_auth_platform] *)
Record auth_platform_ext := {
  px_limit_for_platform : option Z; px_permission_flags : option Z; px_memo : option string }.
Record account_auth_platform_operation := { ap_uid : Z; ap_platform : Z; ap_extensions : option auth_platform_ext }.
Definition validate_auth_platform (uid platform : Z) : result unit :=
  guard_ok (is_valid_uid uid) assert_exception ;;
  guard_ok (negb (special_account uid)) assert_exception ;;
  guard_ok (is_valid_uid platform) assert_exception.

Definition ALL_PERMISSIONS : Z := 255.
Definition MAX_PLATFORM_LIMIT_PREPAID : Z := 2 ^ 63 - 1.
Definition platform_auth (platform : Z) : account_uid_auth_type := (platform, secondary_auth).
Definition has_platform (a : account_object) (platform : Z) : bool :=
  some (fm_find (platform_auth platform) (account_uid_auths (a_secondary a))).
(** The threshold (32 bits) becomes a weight (16 bits). *)
Definition add_platform (platform : Z) (au : authority) : authority :=
  add_uid_authority (platform_auth platform) (u16 (weight_threshold au)) au.
Definition auth_platform_evaluate (op : account_auth_platform_operation) (d : database) : result account_object :=
  guard_ok (HARDFORK_0_2_1_TIME <=? head_block_time d) assert_exception ;;
  guard_ok (if_present (fun e => (HARDFORK_0_4_TIME <=? head_block_time d) &&
              (some (px_limit_for_platform e) || some (px_permission_flags e) || some (px_memo e)))
            (ap_extensions op)) assert_exception ;;
  a ← get_account_by_uid d (ap_uid op);
  guard_ok (if head_block_time d <? HARDFORK_0_4_TIME then negb (has_platform a (ap_platform op))
            else some (ap_extensions op)) assert_exception ;;
  verify_authority_accounts d (add_platform (ap_platform op) (a_secondary a)) ;;
  Ok a.
(** The record of the authorization, as the operation leaves it. *)
Definition new_auth_platform : account_auth_platform_object :=
  {| permission_flags := ALL_PERMISSIONS; max_limit := 0; cur_used := 0; is_active := true; ap_memo := None |}.
Definition authorize (e : option auth_platform_ext) (found : bool) (o : option account_auth_platform_object)
    : account_auth_platform_object :=
  match o, e with
  | Some o, Some e =>
      let o := o <| max_limit ::= assign (px_limit_for_platform e) |>
                 <| permission_flags ::= assign (px_permission_flags e) |>
                 <| ap_memo ::= fun m => match px_memo e with Some x => Some x | None => m end |> in
      if found then o else o <| is_active := true |>
  | Some o, None => if found then o else o <| is_active := true |>
  | None, Some e =>
      new_auth_platform <| max_limit := default MAX_PLATFORM_LIMIT_PREPAID (px_limit_for_platform e) |>
        <| permission_flags := default ALL_PERMISSIONS (px_permission_flags e) |> <| ap_memo := px_memo e |>
  | None, None => new_auth_platform <| max_limit := MAX_PLATFORM_LIMIT_PREPAID |>
  end.
Definition account_auth_platform (op : account_auth_platform_operation) : M unit :=
  d ← get;
  a ← lift (auth_platform_evaluate op d);
  let found := has_platform a (ap_platform op) in
  when (negb found)
    (modify_account (ap_uid op) (fun a =>
       a <| a_secondary ::= add_platform (ap_platform op) |> <| last_update_time := head_block_time d |>)) ;;
  upd (fun d => d <| auth_platforms ::= partial_alter (fun o => Some (authorize (ap_extensions op) found o))
                                          (ap_uid op, ap_platform op) |>).

Definition drop_platform (platform : Z) (au : authority) : authority :=
  au <| account_uid_auths ::= fm_erase (platform_auth platform) |>.
Definition account_cancel_auth_platform (uid platform : Z) : M unit :=
  d ← get;
  fc_assert (HARDFORK_0_2_1_TIME <=? head_block_time d) ;;
  a ← lift (get_account_by_uid d uid);
  let found := has_platform a platform in
  fc_assert (if head_block_time d <? HARDFORK_0_4_TIME then found else some (auth_platforms d !! (uid, platform))) ;;
  when found
    (modify_account uid (fun a =>
       a <| a_secondary ::= drop_platform platform |> <| last_update_time := head_block_time d |>)) ;;
  upd (fun d => d <| auth_platforms ::= delete (uid, platform) |>).

(** ** [account_enable_allowed_assets] and [account_update_allowed_assets] *)
Definition validate_enable_allowed_assets (account : Z) : result unit :=
  guard_ok (is_valid_uid account) assert_exception ;;
  guard_ok (negb (special_account account)) assert_exception.
Definition account_enable_allowed_assets (account : Z) (enable : bool) : M unit :=
  d ← get;
  fc_assert (HARDFORK_0_3_TIME <=? head_block_time d) ;;
  a ← lift (get_account_by_uid d account);
  fc_assert (negb (Bool.eqb enable (some (allowed_assets a)))) ;;
  modify_account account (fun a =>
    a <| allowed_assets := match allowed_assets a with Some _ => None | None => Some {[ CORE_ASSET_AID ]} end |>
      <| last_update_time := head_block_time d |>).

Record account_update_allowed_assets_operation := {
  al_account : Z; al_add : list Z; al_remove : list Z }.
Definition validate_update_allowed_assets (op : account_update_allowed_assets_operation) : result unit :=
  guard_ok (is_valid_uid (al_account op)) assert_exception ;;
  guard_ok (negb (special_account (al_account op))) assert_exception ;;
  guard_ok (negb (bool_decide (CORE_ASSET_AID ∈ al_remove op))) assert_exception ;;
  guard_ok (negb (empty (al_add op)) || negb (empty (al_remove op))) assert_exception ;;
  guard_ok (negb (common_uid (length (al_add op) + length (al_remove op)) (al_add op) (al_remove op))) assert_exception.
Definition update_allowed_assets_fee (fee price_per_asset : Z) (op : account_update_allowed_assets_operation) : result Z :=
  add_priced price_per_asset (size_of (al_remove op))
    (add_priced price_per_asset (size_of (al_add op)) (Ok (i64 fee))).
Definition account_update_allowed_assets (op : account_update_allowed_assets_operation) : M unit :=
  d ← get;
  fc_assert (HARDFORK_0_3_TIME <=? head_block_time d) ;;
  a ← lift (get_account_by_uid d (al_account op));
  allowed ← lift (deref (allowed_assets a) assert_exception);
  fc_assert (forallb (fun aid => bool_decide (aid ∈ allowed)) (al_remove op)) ;;
  fc_assert (forallb (fun aid => negb (bool_decide (aid ∈ allowed)) && some (assets d !! aid)) (al_add op)) ;;
  modify_account (al_account op) (fun a =>
    a <| allowed_assets := Some ((allowed ∖ list_to_set (al_remove op)) ∪ list_to_set (al_add op)) |>
      <| last_update_time := head_block_time d |>).

(** ** [account_whitelist] *)
Record account_whitelist_operation := { aw_fee : asset; aw_authorizing_account : Z; aw_account_to_list : Z; aw_new_listing : Z }.
Definition validate_whitelist (op : account_whitelist_operation) : result unit :=
  guard_ok (0 <=? amount (aw_fee op)) assert_exception ;;
  guard_ok (aw_new_listing op <? 4) assert_exception.
Definition list_if (listed : bool) (u : Z) (l : list Z) : list Z :=
  if listed then fs_insert u l else filter (fun x => x <> u) l.
(** The account to list is looked up, but not whether it was found. *)
Definition account_whitelist (op : account_whitelist_operation) : M unit :=
  d ← get;
  let author := aw_authorizing_account op in
  let white := Z.testbit (aw_new_listing op) 0 in
  let black := Z.testbit (aw_new_listing op) 1 in
  when (negb (allow_non_member_whitelists (params d))) (lift (get_account_by_uid d author) ;; mret tt) ;;
  lift (deref (accounts d !! aw_account_to_list op) undefined_behaviour) ;;
  modify_account (aw_account_to_list op) (fun a =>
    a <| whitelisting_accounts ::= list_if white author |> <| blacklisting_accounts ::= list_if black author |>) ;;
  modify_account author (fun a =>
    a <| whitelisted_accounts ::= list_if white (aw_account_to_list op) |>
      <| blacklisted_accounts ::= list_if black (aw_account_to_list op) |>).
End ops.
End account.
