(* ===== verification/Proxy.v ===== *)
(** * The voting proxy (account_evaluator.cpp, [account_update_proxy])

    A voter names another voter to vote for it, or takes its votes back.  The
    votes the voter carries are moved from the old chain of proxies to the new
    one. *)
From S2P Require Import Prelude FlatMap FcInt Asset Pledge ChainState.
From S2P Require Import AccountStats Voter Voting.
Local Open Scope Z_scope.
Import asset pledge chain acc voter voting.

Module proxy.
#[local] Notation M := (M database).

Record account_update_proxy_operation := { up_voter : Z; up_proxy : Z }.
(** The voters that [do_evaluate] leaves in the evaluator: [proxy_voter_obj],
    [voter_obj], [invalid_voter_obj], [current_proxy_voter_obj] and
    [invalid_current_proxy_voter_obj]. *)
Record proxy_plan := {
  pp_proxy : option (Z * Z); pp_voter : option (Z * Z); pp_invalid_voter : option (Z * Z);
  pp_current : option (Z * Z); pp_invalid_current : option (Z * Z) }.

Section ops.
Context {F : FcInt} {C : ChainConfig}.
Variable is_valid_uid : Z -> bool.

Definition validate_update_proxy (op : account_update_proxy_operation) : result unit :=
  guard_ok (is_valid_uid (up_voter op)) assert_exception ;;
  guard_ok (is_valid_uid (up_proxy op)) assert_exception ;;
  guard_ok (negb (up_voter op =? up_proxy op)) assert_exception.

(** The new proxy: a valid voter, unless the voter is to vote for itself. *)
Definition find_proxy (uid : Z) (d : database) : result (option (Z * Z)) :=
  if uid =? PROXY_TO_SELF_ACCOUNT_UID then Ok None
  else
    s ← get_account_statistics_by_uid d uid;
    guard_ok (is_voter s) assert_exception ;;
    p ← deref (voters d !! (uid, last_voter_sequence s)) assert_exception;
    still_valid ← check_voter_valid d p true;
    guard_ok still_valid assert_exception ;;
    Ok (Some (uid, last_voter_sequence s)).
(** The voter of the account, if it has one, and whether it is still valid. *)
Definition find_own_voter (uid : Z) (s : account_statistics) (d : database)
    : result (option (voter_object * bool)) :=
  if is_voter s then
    v ← deref (voters d !! (uid, last_voter_sequence s)) assert_exception;
    still_valid ← check_voter_valid d v true;
    Ok (Some (v, still_valid))
  else Ok None.
(** The loop over the chain of the new proxy, for [n] levels more. *)
Fixpoint check_loop (n : nat) (k : Z * Z) (p : voter_object) (d : database) : result unit :=
  match n with
  | O => Ok tt
  | S n' =>
      if votes_by_self p then Ok tt
      else
        guard_ok (negb (bool_decide (proxy_key p = k))) assert_exception ;;
        match n' with
        | O => Ok tt
        | S _ => q ← deref (voters d !! proxy_key p) assert_exception; check_loop n' k q d
        end
  end.
(** Whether the voter's current proxy is still valid. *)
Definition check_current (op : account_update_proxy_operation) (v : voter_object) (d : database) : result bool :=
  p ← deref (voters d !! proxy_key v) assert_exception;
  still_valid ← check_voter_valid d p true;
  guard_ok (negb (up_proxy op =? (if still_valid : bool then proxy_uid v else PROXY_TO_SELF_ACCOUNT_UID)))
    assert_exception ;;
  Ok still_valid.

Definition update_proxy_evaluate (op : account_update_proxy_operation) (d : database) : result proxy_plan :=
  s ← get_account_statistics_by_uid d (up_voter op);
  guard_ok (can_vote s) assert_exception ;;
  guard_ok (i64 (min_governance_voting_balance (params d)) <=? core_balance s) assert_exception ;;
  np ← find_proxy (up_proxy op) d;
  own ← find_own_voter (up_voter op) s d;
  let k := (up_voter op, last_voter_sequence s) in
  let by_self := up_proxy op =? PROXY_TO_SELF_ACCOUNT_UID in
  match own with
  | Some (v, true) =>
      current ← (if votes_by_self v then guard_ok (negb by_self) assert_exception ;; Ok None
                 else valid ← check_current op v d; Ok (Some valid));
      match np with
      | Some pk => p ← deref (voters d !! pk) undefined_behaviour;
                   check_loop (max_governance_voting_proxy_level (params d)) k p d
      | None => Ok tt
      end ;;
      Ok {| pp_proxy := np; pp_voter := Some k; pp_invalid_voter := None;
            pp_current := match current with Some true => Some (proxy_key v) | _ => None end;
            pp_invalid_current := match current with Some false => Some (proxy_key v) | _ => None end |}
  | Some (_, false) =>
      guard_ok (negb by_self) assert_exception ;;
      Ok {| pp_proxy := np; pp_voter := None; pp_invalid_voter := Some k; pp_current := None;
            pp_invalid_current := None |}
  | None =>
      guard_ok (negb by_self) assert_exception ;;
      Ok {| pp_proxy := np; pp_voter := None; pp_invalid_voter := None; pp_current := None;
            pp_invalid_current := None |}
  end.

(** The new proxy of a voter that votes, [None] for itself. *)
Definition set_proxy (np : option (Z * Z)) (block : Z) (v : voter_object) : result voter_object :=
  l ← vec_modify 0 (fun _ => block) (proxy_last_vote_block v);
  let '(u, s) := default (PROXY_TO_SELF_ACCOUNT_UID, 0) np in
  Ok (v <| proxy_uid := u |> <| proxy_sequence := s |> <| proxy_last_vote_block := l |>
        <| effective_last_vote_block := block |>).
(** What the voter brings to its proxy, per level. *)
Definition carried_votes (max_level : nat) (v : voter_object) : result (list Z) :=
  match max_level with
  | O => Throw undefined_behaviour
  | S n => rest ← mapM (fun i => x ← deref (proxied_votes v !! i) undefined_behaviour; Ok (i64 x)) (seq 0 n);
           Ok (i64 (effective_votes v) :: rest)
  end.
Definition count_proxied (delta : Z) (k : Z * Z) : M unit :=
  modify_voter k (fun v => Ok (v <| proxied_voters ::= fun n => u64 (n + delta) |>)).

Definition change_proxy (k : Z * Z) (pl : proxy_plan) : M unit :=
  clear_voter_votes k ;;
  match pp_current pl with Some c => count_proxied (-1) c | None => mret tt end ;;
  d ← get;
  modify_voter k (set_proxy (pp_proxy pl) (head_block_num d)) ;;
  when (some (pp_proxy pl))
    (v ← get_voter k;
     delta ← lift (carried_votes (max_governance_voting_proxy_level (params d)) v);
     adjust_voter_proxy_votes k delta false).
(** [create<voter_object>]; the other members are those of a voter that votes. *)
Definition start_proxied (uid : Z) (np : option (Z * Z)) : M (Z * Z) :=
  modify_stats uid (fun s =>
    Ok (s <| is_voter := true |> <| last_voter_sequence ::= fun n => u32 (n + 1) |>)) ;;
  d ← get;
  s ← lift (get_account_statistics_by_uid d uid);
  let k := (uid, last_voter_sequence s) in
  let '(pu, ps) := default (PROXY_TO_SELF_ACCOUNT_UID, 0) np in
  upd (fun d => d <| voters ::=
    <[k := new_voter witness_ballot d s 0 <| proxy_uid := pu |> <| proxy_sequence := ps |>]> |>) ;;
  mret k.

Definition invalidate_if (k : option (Z * Z)) : M unit :=
  match k with Some k => invalidate_voter k | None => mret tt end.
Definition update_proxy_apply (op : account_update_proxy_operation) (pl : proxy_plan) : M unit :=
  invalidate_if (pp_invalid_current pl) ;;
  invalidate_if (pp_invalid_voter pl) ;;
  match pp_voter pl with
  | Some k => change_proxy k pl
  | None => _ ← start_proxied (up_voter op) (pp_proxy pl); mret tt
  end ;;
  match pp_proxy pl with Some p => count_proxied 1 p | None => mret tt end.
Definition account_update_proxy (op : account_update_proxy_operation) : M unit :=
  d ← get; pl ← lift (update_proxy_evaluate op d); update_proxy_apply op pl.
End ops.
End proxy.
