(* ===== verification/Advertising.v ===== *)
(** * Advertisements (advertising_evaluator.cpp, protocol/advertising.cpp)

    A platform offers a place for advertisements at a price per unit of time.  A
    user pays for a period; the coins are held until the platform accepts or
    refuses the order, or the user takes them back after a week.  Accepting an
    order refuses the orders for overlapping periods. *)
From S2P Require Import Prelude FlatMap FcInt Asset Pledge ChainState.
From S2P Require Import AccountStats Voter Balance Fee BlockUpdate Platform.
Local Open Scope Z_scope.
Import asset pledge chain acc voter balance fee updates platform.

Module advertising.
#[local] Notation M := (M database).

(** [10 * 365 * 86400] and [GRAPHENE_ADVERTISING_CONFIRM_TIME]. *)
Definition TEN_YEARS : Z := 315360000.
Definition ADVERTISING_CONFIRM_TIME : Z := 604800.

Record advertising_create_operation := {
  vc_platform : Z; vc_advertising_aid : Z; vc_unit_time : Z; vc_unit_price : Z; vc_description : string }.
Record advertising_update_operation := {
  vu_platform : Z; vu_advertising_aid : Z; vu_description : option string; vu_unit_price : option Z;
  vu_unit_time : option Z; vu_on_sell : option bool }.
Record advertising_buy_operation := {
  vb_order_oid : Z; vb_from_account : Z; vb_platform : Z; vb_advertising_aid : Z; vb_start_time : Z;
  vb_buy_number : Z; vb_extra_data : string; vb_memo : option string }.
Record advertising_confirm_operation := {
  vf_platform : Z; vf_advertising_aid : Z; vf_order_oid : Z; vf_isconfirm : bool }.
Record advertising_ransom_operation := {
  vr_platform : Z; vr_from_account : Z; vr_advertising_aid : Z; vr_order_oid : Z }.

Section ops.
Context {F : FcInt} {C : ChainConfig}.
Variable is_valid_uid : Z -> bool.

(** ** Validation *)
Definition validate_advertising_create (op : advertising_create_operation) : result unit :=
  guard_ok (is_valid_uid (vc_platform op)) assert_exception ;;
  guard_ok (0 <? vc_unit_time op) assert_exception ;;
  guard_ok (0 <? vc_unit_price op) assert_exception.
Definition validate_advertising_update (op : advertising_update_operation) : result unit :=
  guard_ok (is_valid_uid (vu_platform op)) assert_exception ;;
  guard_ok (some (vu_description op) || some (vu_unit_price op) || some (vu_unit_time op) || some (vu_on_sell op))
    assert_exception ;;
  guard_ok (0 <? vu_advertising_aid op) assert_exception ;;
  guard_ok (if_present (fun x => 0 <? x) (vu_unit_price op)) assert_exception ;;
  guard_ok (if_present (fun x => 0 <? x) (vu_unit_time op)) assert_exception.
Definition validate_advertising_buy (op : advertising_buy_operation) : result unit :=
  guard_ok (is_valid_uid (vb_platform op)) assert_exception ;;
  guard_ok (is_valid_uid (vb_from_account op)) assert_exception ;;
  guard_ok (negb (vb_platform op =? vb_from_account op)) assert_exception ;;
  guard_ok (0 <? vb_buy_number op) assert_exception ;;
  guard_ok (0 <? vb_advertising_aid op) assert_exception.
Definition validate_advertising_confirm (op : advertising_confirm_operation) : result unit :=
  guard_ok (is_valid_uid (vf_platform op)) assert_exception ;;
  guard_ok (0 <? vf_advertising_aid op) assert_exception.
Definition validate_advertising_ransom (op : advertising_ransom_operation) : result unit :=
  guard_ok (is_valid_uid (vr_platform op)) assert_exception ;;
  guard_ok (is_valid_uid (vr_from_account op)) assert_exception ;;
  guard_ok (0 <? vr_advertising_aid op) assert_exception.
(** The fees grow with the packed size of the texts. *)
Definition add_data_fee (price_per_kbyte : Z) (size : option Z) (fee : result Z) : result Z :=
  match size with
  | Some n => f ← fee; x ← calculate_data_fee n price_per_kbyte; safe_add f (i64 x)
  | None => fee
  end.
Definition advertising_create_fee (fee price_per_kbyte description_size : Z) : result Z :=
  add_data_fee price_per_kbyte (Some description_size) (Ok (i64 fee)).
Definition advertising_update_fee (fee price_per_kbyte : Z) (description_size : option Z) : result Z :=
  add_data_fee price_per_kbyte description_size (Ok (i64 fee)).
Definition advertising_buy_fee (fee price_per_kbyte : Z) (memo_size : option Z) (extra_data_size : Z) : result Z :=
  add_data_fee price_per_kbyte (Some extra_data_size) (add_data_fee price_per_kbyte memo_size (Ok (i64 fee))).

(** ** Accessors *)
Definition find_advertising (d : database) (platform aid : Z) : option advertising_object :=
  advertisings (contents d) !! (platform, aid).
Definition find_advertising_order (d : database) (platform aid oid : Z) : option advertising_order_object :=
  advertising_orders (contents d) !! (platform, aid, oid).
(** The orders of a place in some state, in the order of the index. *)
Definition orders_of (d : database) (platform aid : Z) (st : advertising_state)
    : list (Z * Z * Z * advertising_order_object) :=
  ordered (fun x => [x.1.2])
    (filter (fun x => x.1.1 = (platform, aid) /\ status x.2 = st) (map_to_list (advertising_orders (contents d)))).
Definition set_advertising (k : Z * Z) (a : advertising_object) : M unit :=
  upd (fun d => d <| contents ::= fun c => c <| advertisings ::= <[k := a]> |> |>).
Definition set_order (k : Z * Z * Z) (o : advertising_order_object) : M unit :=
  upd (fun d => d <| contents ::= fun c => c <| advertising_orders ::= <[k := o]> |> |>).
(** [create], which refuses a second object of the same key. *)
Definition create_order (k : Z * Z * Z) (o : advertising_order_object) : M unit :=
  d ← get; fc_assert (negb (some (advertising_orders (contents d) !! k))) ;; set_order k o.
Definition modify_order (k : Z * Z * Z) (f : advertising_order_object -> advertising_order_object) : M unit :=
  d ← get;
  o ← lift (deref (advertising_orders (contents d) !! k) undefined_behaviour);
  set_order k (f o).
Definition handled (st : advertising_state) (now : Z) (o : advertising_order_object) : advertising_order_object :=
  o <| status := st |> <| handle_time := now |>.

(** ** Places *)
Definition advertising_create (op : advertising_create_operation) : M unit :=
  d ← get;
  fc_assert (HARDFORK_0_4_TIME <=? head_block_time d) ;;
  lift (get_platform_by_owner d (vc_platform op)) ;;
  s ← lift (get_account_statistics_by_uid d (vc_platform op));
  fc_assert (u64 (last_advertising_sequence s + 1) =? vc_advertising_aid op) ;;
  modify_stats (vc_platform op) (fun s => Ok (s <| last_advertising_sequence ::= fun n => u64 (n + 1) |>)) ;;
  fc_assert (negb (some (find_advertising d (vc_platform op) (vc_advertising_aid op)))) ;;
  set_advertising (vc_platform op, vc_advertising_aid op)
    {| on_sell := true; unit_time := vc_unit_time op; unit_price := vc_unit_price op;
       ad_description := vc_description op; last_order_sequence := 0; publish_time := head_block_time d;
       ad_last_update_time := head_block_time d |}.
Definition advertising_update (op : advertising_update_operation) : M unit :=
  d ← get;
  fc_assert (HARDFORK_0_4_TIME <=? head_block_time d) ;;
  lift (get_platform_by_owner d (vu_platform op)) ;;
  a ← lift (deref (find_advertising d (vu_platform op) (vu_advertising_aid op)) assert_exception);
  fc_assert (if_present (fun b => negb (Bool.eqb b (on_sell a))) (vu_on_sell op)) ;;
  set_advertising (vu_platform op, vu_advertising_aid op)
    (a <| ad_description ::= assign (vu_description op) |> <| unit_price ::= assign (vu_unit_price op) |>
       <| unit_time ::= assign (vu_unit_time op) |> <| on_sell ::= assign (vu_on_sell op) |>
       <| ad_last_update_time := head_block_time d |>).

(** ** Orders *)
(** Two periods have no moment in common. *)
Definition disjoint_periods (start1 end1 start2 end2 : Z) : bool := (end2 <=? start1) || (end1 <=? start2).
Definition order_end (a : advertising_object) (op : advertising_buy_operation) : Z :=
  time_add (vb_start_time op) (u32 (unit_time a * vb_buy_number op)).
Definition buy_evaluate (op : advertising_buy_operation) (d : database) : result (advertising_object * Z) :=
  let now := head_block_time d in
  guard_ok (HARDFORK_0_4_TIME <=? now) assert_exception ;;
  a ← deref (find_advertising d (vb_platform op) (vb_advertising_aid op)) assert_exception;
  guard_ok (on_sell a) assert_exception ;;
  guard_ok ((now <=? vb_start_time op) && (vb_start_time op <=? time_add now TEN_YEARS)) assert_exception ;;
  guard_ok (u64 (last_order_sequence a + 1) =? vb_order_oid op) assert_exception ;;
  guard_ok (negb (vb_buy_number op =? 0)) undefined_behaviour ;;
  guard_ok (unit_time a <=? TEN_YEARS / vb_buy_number op) assert_exception ;;
  guard_ok (forallb (fun x => disjoint_periods (vb_start_time op) (order_end a op) (start_time x.2) (end_time x.2))
              (orders_of d (vb_platform op) (vb_advertising_aid op) advertising_accepted)) assert_exception ;;
  necessary_balance ← safe_mul (unit_price a) (vb_buy_number op);
  guard_ok (advertising_confirmed_min_fee (extension_parameters (params d)) <? necessary_balance) assert_exception ;;
  Ok (a, necessary_balance).
Definition advertising_buy (op : advertising_buy_operation) : M unit :=
  d ← get;
  '(a, necessary_balance) ← lift (buy_evaluate op d);
  set_advertising (vb_platform op, vb_advertising_aid op) (a <| last_order_sequence ::= fun n => u64 (n + 1) |>) ;;
  create_order (vb_platform op, vb_advertising_aid op, vb_order_oid op)
    {| ad_user := vb_from_account op; released_balance := necessary_balance; start_time := vb_start_time op;
       end_time := order_end a op; buy_request_time := head_block_time d; status := advertising_undetermined;
       handle_time := 0; ad_memo := vb_memo op; ad_extra_data := vb_extra_data op |} ;;
  n ← lift (safe_neg necessary_balance);
  adjust_balance (vb_from_account op) (Asset n CORE_ASSET_AID).

Definition confirm_fee (p : extension_parameter_type) (released : Z) : result Z :=
  x ← u128_div (u128_mul (u128_of released) (advertising_confirmed_fee_rate p)) PERCENT_100;
  Ok (Z.max (u128_to_i64 x) (advertising_confirmed_min_fee p)).
Definition confirm_evaluate (op : advertising_confirm_operation) (d : database) : result advertising_order_object :=
  guard_ok (HARDFORK_0_4_TIME <=? head_block_time d) assert_exception ;;
  deref (find_advertising d (vf_platform op) (vf_advertising_aid op)) assert_exception ;;
  o ← deref (find_advertising_order d (vf_platform op) (vf_advertising_aid op) (vf_order_oid op)) assert_exception;
  guard_ok (bool_decide (status o = advertising_undetermined)) assert_exception ;;
  guard_ok (negb (vf_isconfirm op) ||
            (advertising_confirmed_min_fee (extension_parameters (params d)) <? released_balance o)) assert_exception ;;
  Ok o.
(** Pay the platform what the fee leaves, and burn the fee. *)
Definition pay_platform (platform released : Z) : M unit :=
  d ← get;
  fee ← lift (confirm_fee (extension_parameters (params d)) released);
  x ← lift (safe_sub released fee);
  adjust_balance platform (Asset x CORE_ASSET_AID) ;;
  modify_dynamic_data CORE_ASSET_AID (fun dd =>
    x ← safe_sub (current_supply dd) fee; Ok (dd <| current_supply := x |>)).
(** The orders for periods that overlap with the accepted one are paid back and
    refused; [confirmed] is what each user gets back. *)
Definition refuse_orders (op : advertising_confirm_operation) (o : advertising_order_object)
    (confirmed : flat_map Z Z) : M (flat_map Z Z) :=
  d ← get;
  let refs := filter (fun x => disjoint_periods (start_time x.2) (end_time x.2) (start_time o) (end_time o) = false)
                (orders_of d (vf_platform op) (vf_advertising_aid op) advertising_undetermined) in
  mfor (fun x => adjust_balance (ad_user x.2) (Asset (released_balance x.2) CORE_ASSET_AID)) refs ;;
  mfor (fun x => modify_order x.1 (handled advertising_refused (head_block_time d))) refs ;;
  mret (fold_left (fun m x => fm_emplace (ad_user x.2) (released_balance x.2) m) refs confirmed).
Definition advertising_confirm (op : advertising_confirm_operation) : M (flat_map Z Z) :=
  d ← get;
  o ← lift (confirm_evaluate op d);
  let k := (vf_platform op, vf_advertising_aid op, vf_order_oid op) in
  if vf_isconfirm op then
    modify_order k (handled advertising_accepted (head_block_time d)) ;;
    pay_platform (vf_platform op) (released_balance o) ;;
    refuse_orders op o [(ad_user o, 0)]
  else
    adjust_balance (ad_user o) (Asset (released_balance o) CORE_ASSET_AID) ;;
    modify_order k (handled advertising_refused (head_block_time d)) ;;
    mret [(ad_user o, released_balance o)].

Definition ransom_evaluate (op : advertising_ransom_operation) (d : database) : result advertising_order_object :=
  guard_ok (HARDFORK_0_4_TIME <=? head_block_time d) assert_exception ;;
  get_platform_by_owner d (vr_platform op) ;;
  get_account_by_uid d (vr_from_account op) ;;
  deref (find_advertising d (vr_platform op) (vr_advertising_aid op)) assert_exception ;;
  o ← deref (find_advertising_order d (vr_platform op) (vr_advertising_aid op) (vr_order_oid op)) assert_exception;
  guard_ok (ad_user o =? vr_from_account op) assert_exception ;;
  guard_ok (time_add (buy_request_time o) ADVERTISING_CONFIRM_TIME <? head_block_time d) assert_exception ;;
  guard_ok (bool_decide (status o = advertising_undetermined)) assert_exception ;;
  Ok o.
Definition ransom_advertising (op : advertising_ransom_operation) : M unit :=
  d ← get;
  o ← lift (ransom_evaluate op d);
  adjust_balance (vr_from_account op) (Asset (released_balance o) CORE_ASSET_AID) ;;
  modify_order (vr_platform op, vr_advertising_aid op, vr_order_oid op)
    (handled advertising_ransom (head_block_time d)).

(** ** Old orders are removed (db_update.cpp, [clear_unnecessary_objects]) *)
Definition get_clear_time (o : advertising_order_object) : Z :=
  match status o with
  | advertising_accepted => end_time o
  | advertising_undetermined => NEVER
  | _ => handle_time o
  end.
(** [remaining_time] is [_advertising_order_remaining_time] of the node. *)
Definition clear_advertising_orders (remaining_time : Z) : M unit :=
  d ← get;
  when ((head_block_num d mod 10 =? 0) && (remaining_time <=? head_block_time d))
    (upd (fun d => d <| contents ::= fun c => c <| advertising_orders ::=
       filter (fun x => u32 (head_block_time d - remaining_time) <= get_clear_time x.2) |> |>)).
End ops.
End advertising.
