(* ===== verification/Content.v ===== *)
(** * Posts, scores and rewards (content_evaluator.cpp, protocol/content.cpp)

    A post is shared by up to five receiptors, whose ratios add up to 100 %.  Who
    forwards or rewards a post pays its receiptors; who buys a share of a post
    pays its receiptor.  While awards are enabled, the rewards and scores of
    a period are recorded in the active posts. *)
From S2P Require Import Prelude FlatMap FcInt Asset Pledge ChainState.
From S2P Require Import AccountStats Voter Balance Transfer Fee Platform Account Advertising.
Local Open Scope Z_scope.
Import asset pledge chain acc voter balance transfer fee platform account advertising.

Module posting.
#[local] Notation M := (M database).

Definition DEFAULT_PLATFORM_RECEIPTS_RATIO : Z := 2500.
Definition DEFAULT_POSTER_MIN_RECEIPTS_RATIO : Z := 2500.
(** [Post_Type]. *)
Definition Post_Type_Post : Z := 0.
Definition Post_Type_Comment : Z := 1.
Definition Post_Type_forward : Z := 2.
Definition Post_Type_forward_And_Modify : Z := 3.
Definition Post_Type_Default : Z := 4.
(** [Post_Permission] and [Platform_Auth_Permission] share their first values. *)
Definition Permission_Forward : Z := 1.
Definition Permission_Liked : Z := 2.
Definition Permission_Buyout : Z := 4.
Definition Permission_Comment : Z := 8.
Definition Permission_Reward : Z := 16.
Definition Platform_Permission_Post : Z := 64.
Definition Platform_Permission_Content_Update : Z := 128.

Record post_ext := {
  px_post_type : option Z; px_forward_price : option Z; px_license_lid : option Z;
  px_permission_flags : option Z; px_receiptors : option (flat_map Z receiptor_parameter);
  px_sign_platform : option Z }.
Record post_operation := {
  po_post_pid : Z; po_platform : Z; po_poster : Z; po_origin_poster : option Z; po_origin_post_pid : option Z;
  po_origin_platform : option Z; po_hash_value : string; po_extra_data : string; po_title : string;
  po_body : string; po_extensions : option post_ext }.
Record post_update_ext := {
  ux_forward_price : option Z; ux_receiptor : option Z; ux_to_buyout : option bool; ux_buyout_ratio : option Z;
  ux_buyout_price : option Z; ux_buyout_expiration : option Z; ux_license_lid : option Z;
  ux_permission_flags : option Z; ux_content_sign_platform : option Z; ux_receiptor_sign_platform : option Z }.
Record post_update_operation := {
  pu_platform : Z; pu_poster : Z; pu_post_pid : Z; pu_hash_value : option string; pu_extra_data : option string;
  pu_title : option string; pu_body : option string; pu_extensions : option post_update_ext }.
Record score_create_operation := {
  sc_from_account_uid : Z; sc_platform : Z; sc_poster : Z; sc_post_pid : Z; sc_score : Z; sc_csaf : Z;
  sc_sign_platform : option Z }.
Record reward_operation := {
  rw_from_account_uid : Z; rw_platform : Z; rw_poster : Z; rw_post_pid : Z; rw_amount : asset }.
Record reward_proxy_operation := {
  rp_from_account_uid : Z; rp_platform : Z; rp_poster : Z; rp_post_pid : Z; rp_amount : Z;
  rp_sign_platform : option Z }.
Record buyout_operation := {
  bo_from_account_uid : Z; bo_platform : Z; bo_poster : Z; bo_post_pid : Z; bo_receiptor_account_uid : Z;
  bo_sign_platform : option Z }.
Record license_create_operation := {
  lc_license_lid : Z; lc_platform : Z; lc_type : Z; lc_hash_value : string; lc_extra_data : string;
  lc_title : string; lc_body : string }.

Section ops.
Context {F : FcInt} {C : ChainConfig}.
Variable is_valid_uid : Z -> bool.

(** ** Validation *)
(** [Receiptor_Parameter::validate]. *)
Definition validate_receiptor (p : receiptor_parameter) : result unit :=
  if to_buyout p then
    guard_ok (0 <? buyout_price p) assert_exception ;;
    guard_ok (0 <? buyout_ratio p) assert_exception ;;
    guard_ok (buyout_ratio p <=? cur_ratio p) assert_exception
  else
    guard_ok (buyout_price p =? 0) assert_exception ;;
    guard_ok (buyout_ratio p =? 0) assert_exception.
Definition total_ratio (m : flat_map Z receiptor_parameter) : Z :=
  fold_left (fun t x => u32 (t + cur_ratio x.2)) m 0.
Fixpoint validate_receiptors (m : flat_map Z receiptor_parameter) (total : Z) : result Z :=
  match m with
  | [] => Ok total
  | (uid, p) :: m' =>
      guard_ok (is_valid_uid uid) assert_exception ;;
      validate_receiptor p ;;
      validate_receiptors m' (u32 (total + cur_ratio p))
  end.
Definition validate_shares (platform poster : Z) (m : flat_map Z receiptor_parameter) : result unit :=
  guard_ok ((1 <=? Z.of_nat (length m)) && (Z.of_nat (length m) <=? 5)) assert_exception ;;
  p ← deref (fm_find platform m) assert_exception;
  (if platform =? poster then
     guard_ok (DEFAULT_PLATFORM_RECEIPTS_RATIO + DEFAULT_POSTER_MIN_RECEIPTS_RATIO <=? cur_ratio p) assert_exception
   else
     guard_ok (cur_ratio p =? DEFAULT_PLATFORM_RECEIPTS_RATIO) assert_exception ;;
     q ← deref (fm_find poster m) assert_exception;
     guard_ok (DEFAULT_POSTER_MIN_RECEIPTS_RATIO <=? cur_ratio q) assert_exception) ;;
  total ← validate_receiptors m 0;
  guard_ok (total =? PERCENT_100) assert_exception.
Definition validate_post (op : post_operation) : result unit :=
  guard_ok (is_valid_uid (po_poster op)) assert_exception ;;
  guard_ok (is_valid_uid (po_platform op)) assert_exception ;;
  guard_ok (0 <? po_post_pid op) assert_exception ;;
  guard_ok (Bool.eqb (some (po_origin_poster op)) (some (po_origin_post_pid op)) &&
            Bool.eqb (some (po_origin_poster op)) (some (po_origin_platform op))) assert_exception ;;
  guard_ok (if_present is_valid_uid (po_origin_poster op)) assert_exception ;;
  guard_ok (if_present is_valid_uid (po_origin_platform op)) assert_exception ;;
  guard_ok (if_present (fun n => 0 <? n) (po_origin_post_pid op)) assert_exception ;;
  match po_extensions op with
  | None => Ok tt
  | Some e =>
      ty ← deref (px_post_type e) assert_exception;
      guard_ok ((Post_Type_Post <=? ty) && (ty <? Post_Type_Default)) assert_exception ;;
      guard_ok (negb ((ty =? Post_Type_Comment) || (ty =? Post_Type_forward) || (ty =? Post_Type_forward_And_Modify)) ||
                (some (po_origin_post_pid op) && some (po_origin_poster op) && some (po_origin_platform op)))
        assert_exception ;;
      (if ty =? Post_Type_Comment then
         p ← deref (po_origin_platform op) undefined_behaviour; guard_ok (p =? po_platform op) assert_exception
       else Ok tt) ;;
      match px_receiptors e with
      | Some m => validate_shares (po_platform op) (po_poster op) m
      | None => Ok tt
      end ;;
      guard_ok (some (px_license_lid e)) assert_exception ;;
      guard_ok (if_present (fun x => 0 <? x) (px_forward_price e)) assert_exception
  end.
Definition validate_post_update (op : post_update_operation) : result unit :=
  guard_ok (is_valid_uid (pu_poster op)) assert_exception ;;
  guard_ok (is_valid_uid (pu_platform op)) assert_exception ;;
  guard_ok (0 <? pu_post_pid op) assert_exception ;;
  match pu_extensions op with
  | None => Ok tt
  | Some e =>
      guard_ok (some (ux_forward_price e) || some (ux_license_lid e) || some (ux_permission_flags e) ||
                (some (ux_receiptor e) && (some (ux_to_buyout e) || some (ux_buyout_ratio e) ||
                 some (ux_buyout_price e) || some (ux_buyout_expiration e)))) assert_exception ;;
      match ux_receiptor e with
      | None => Ok tt
      | Some r =>
          guard_ok (is_valid_uid r) assert_exception ;;
          guard_ok (negb (r =? pu_platform op) || (pu_poster op =? pu_platform op)) assert_exception ;;
          let max_ratio := PERCENT_100 - DEFAULT_PLATFORM_RECEIPTS_RATIO -
            (if (pu_poster op =? pu_platform op) && (r =? pu_poster op)
             then DEFAULT_POSTER_MIN_RECEIPTS_RATIO else 0) in
          guard_ok (if_present (fun x => x <=? max_ratio) (ux_buyout_ratio e)) assert_exception ;;
          guard_ok (if_present (fun x => 0 <? x) (ux_buyout_price e)) assert_exception
      end ;;
      guard_ok (if_present (fun x => 0 <? x) (ux_forward_price e)) assert_exception
  end.
Definition validate_on_post (from platform poster post_pid : Z) : result unit :=
  guard_ok (is_valid_uid poster) assert_exception ;;
  guard_ok (is_valid_uid platform) assert_exception ;;
  guard_ok (is_valid_uid from) assert_exception ;;
  guard_ok (0 <? post_pid) assert_exception.
Definition validate_score_create (op : score_create_operation) : result unit :=
  validate_on_post (sc_from_account_uid op) (sc_platform op) (sc_poster op) (sc_post_pid op) ;;
  guard_ok ((-5 <=? sc_score op) && (sc_score op <=? 5)) assert_exception ;;
  guard_ok (0 <? sc_csaf op) assert_exception.
Definition validate_reward (op : reward_operation) : result unit :=
  validate_on_post (rw_from_account_uid op) (rw_platform op) (rw_poster op) (rw_post_pid op) ;;
  guard_ok (0 <? amount (rw_amount op)) assert_exception.
Definition validate_reward_proxy (op : reward_proxy_operation) : result unit :=
  validate_on_post (rp_from_account_uid op) (rp_platform op) (rp_poster op) (rp_post_pid op) ;;
  guard_ok (0 <? rp_amount op) assert_exception.
Definition validate_buyout (op : buyout_operation) : result unit :=
  validate_on_post (bo_from_account_uid op) (bo_platform op) (bo_poster op) (bo_post_pid op) ;;
  guard_ok (negb (bo_from_account_uid op =? bo_receiptor_account_uid op)) assert_exception ;;
  (if negb (bo_platform op =? bo_poster op) then
     guard_ok (negb (bo_from_account_uid op =? bo_platform op)) assert_exception ;;
     guard_ok (negb (bo_receiptor_account_uid op =? bo_platform op)) assert_exception
   else Ok tt) ;;
  guard_ok (is_valid_uid (bo_receiptor_account_uid op)) assert_exception.
Definition validate_license_create (op : license_create_operation) : result unit :=
  guard_ok (is_valid_uid (lc_platform op)) assert_exception ;;
  guard_ok (0 <? lc_license_lid op) assert_exception.

(** ** Fees, with the packed sizes of the texts *)
Definition hash_size_charged (n : Z) : option Z := if 65 <? n then Some n else None.
Definition post_fee (fee price hash extra title body : Z) (ext : option Z) : result Z :=
  add_data_fee price ext (add_data_fee price (Some body) (add_data_fee price (Some title)
    (add_data_fee price (Some extra) (add_data_fee price (hash_size_charged hash) (Ok (i64 fee)))))).
Definition post_update_fee (fee price : Z) (hash extra title body ext : option Z) : result Z :=
  add_data_fee price ext (add_data_fee price body (add_data_fee price title
    (add_data_fee price extra (add_data_fee price (hash ≫= hash_size_charged) (Ok (i64 fee)))))).
Definition license_create_fee (fee price hash extra title body : Z) : result Z :=
  add_data_fee price (Some body) (add_data_fee price (Some title)
    (add_data_fee price (Some extra) (add_data_fee price (Some hash) (Ok (i64 fee))))).
(** [score_create], [reward], [reward_proxy] and [buyout]. *)
Definition flat_fee (fee : Z) : Z := i64 fee.

(** ** Accessors *)
Definition find_post_by_platform (d : database) (platform poster post_pid : Z) : option post_object :=
  posts (contents d) !! (platform, poster, post_pid).
Definition get_post_by_platform (d : database) (platform poster post_pid : Z) : result post_object :=
  deref (find_post_by_platform d platform poster post_pid) assert_exception.
Definition get_license_by_platform (d : database) (platform lid : Z) : result license_object :=
  deref (licenses (contents d) !! (platform, lid)) assert_exception.
Definition find_score (d : database) (platform poster post_pid from : Z) : option score_object :=
  scores (contents d) !! (platform, poster, post_pid, from).
Definition set_post (k : Z * Z * Z) (p : post_object) : M unit :=
  upd (fun d => d <| contents ::= fun c => c <| posts ::= <[k := p]> |> |>).
(** [modify] of a post through a pointer that was found. *)
Definition modify_post (k : Z * Z * Z) (f : post_object -> result post_object) : M unit :=
  d ← get;
  p ← lift (deref (posts (contents d) !! k) undefined_behaviour);
  p' ← lift (f p);
  set_post k p'.
Definition allows (flags flag : Z) : bool := 0 <? Z.land flags flag.

(** ** Platforms that sign for an account *)
(** [sign_account] is [sigs.real_secondary_uid(uid, 1)]; the platform it names, if
    the account has authorized it. *)
Definition signing_platform (d : database) (uid sign_account : Z) : option account_auth_platform_object :=
  if sign_account =? uid then None else auth_platforms d !! (uid, sign_account).
Definition check_auth (auth : option account_auth_platform_object) (flag : Z) : result unit :=
  match auth with Some o => guard_ok (allows (permission_flags o) flag) assert_exception | None => Ok tt end.
Definition check_sign_platform (auth : option account_auth_platform_object) (sign_account : Z)
    (sign_platform : option Z) : result unit :=
  match auth with
  | Some _ => p ← deref sign_platform assert_exception; guard_ok (p =? sign_account) assert_exception
  | None => guard_ok (negb (some sign_platform)) assert_exception
  end.
(** What the platform may still spend of the prepaid of the account. *)
Definition check_limit (auth : option account_auth_platform_object) (account_prepaid price : Z) : result unit :=
  match auth with
  | Some o => if max_limit o <? MAX_PLATFORM_LIMIT_PREPAID
              then u ← usable_prepaid o account_prepaid; guard_ok (price <=? u) assert_exception
              else Ok tt
  | None => Ok tt
  end.
Definition use_signing (auth : option account_auth_platform_object) (uid sign_account x : Z) : M unit :=
  match auth with Some _ => use_auth (uid, sign_account) x | None => mret tt end.
Definition spend_prepaid (account x : Z) : M unit :=
  modify_stats account (fun s => y ← safe_sub (prepaid s) x; Ok (s <| prepaid := y |>)).

(** ** Paying the receiptors of a post *)
(** Each receiptor gets its share, rounded down; the platform gets what is left. *)
Fixpoint pay_receiptors (pay : Z -> Z -> M unit) (platform total : Z) (rs : flat_map Z receiptor_parameter)
    (surplus : Z) (paid : flat_map Z Z) : M (Z * flat_map Z Z) :=
  match rs with
  | [] => mret (surplus, paid)
  | (uid, p) :: rs' =>
      if uid =? platform then pay_receiptors pay platform total rs' surplus paid
      else
        temp ← lift (u128_div (u128_mul total (cur_ratio p)) PERCENT_100);
        pay uid (u128_to_i64 temp) ;;
        pay_receiptors pay platform total rs' (u128_sub surplus temp) (fm_emplace uid (u128_to_i64 temp) paid)
  end.
Definition pay_post (pay : Z -> Z -> M unit) (platform x : Z) (rs : flat_map Z receiptor_parameter)
    : M (Z * flat_map Z Z) :=
  '(surplus, paid) ← pay_receiptors pay platform (u128_of x) rs (u128_of x) [];
  pay platform (u128_to_i64 surplus) ;;
  mret (u128_to_i64 surplus, fm_emplace platform (u128_to_i64 surplus) paid).

(** ** Active posts *)
Definition new_active_post : active_post_object :=
  {| active_id := 0; total_csaf := 0; total_rewards := []; positive_win := true; post_award := 0;
     forward_award := 0; receiptor_details := [] |}.
Definition no_detail : receiptor_detail := {| detail_forward := 0; detail_post_award := 0; detail_rewards := [] |}.
Definition insert_receiptor (uid award forward : Z) (a : active_post_object) : result active_post_object :=
  dt ← match fm_find uid (receiptor_details a) with
       | Some dt => f ← safe_add (detail_forward dt) forward;
                    w ← safe_add (detail_post_award dt) award;
                    Ok (dt <| detail_forward := f |> <| detail_post_award := w |>)
       | None => Ok (no_detail <| detail_forward := forward |> <| detail_post_award := award |>)
       end;
  Ok (a <| receiptor_details ::= fm_set uid dt |>).
(** [m[k] += x], or a new entry. *)
Definition add_to (k x : Z) (m : flat_map Z Z) : result (flat_map Z Z) :=
  match fm_find k m with
  | Some y => z ← safe_add y x; Ok (fm_set k z m)
  | None => Ok (fm_set k x m)
  end.
Definition insert_reward_receiptor (uid aid x : Z) (a : active_post_object) : result active_post_object :=
  let dt := default no_detail (fm_find uid (receiptor_details a)) in
  rewards ← add_to aid x (detail_rewards dt);
  Ok (a <| receiptor_details ::= fm_set uid (dt <| detail_rewards := rewards |>) |>).
Fixpoint insert_all (f : Z -> Z -> active_post_object -> result active_post_object) (paid : flat_map Z Z)
    (a : active_post_object) : result active_post_object :=
  match paid with
  | [] => Ok a
  | (uid, x) :: paid' => a' ← f uid x a; insert_all f paid' a'
  end.
(** The active post of this period is changed by [f], or made by [g] when the post is
    young enough to be awarded. *)
Definition touch_active_post (k : Z * Z * Z) (created : Z)
    (f g : active_post_object -> result active_post_object) : M unit :=
  d ← get;
  let ak := (k.1, current_active_post_sequence (dgp d), k.2) in
  when (content_award_enable (dgp d))
    (match active_posts (contents d) !! ak with
     | Some a =>
         a' ← lift (f a);
         upd (fun d => d <| contents ::= fun c => c <| active_posts ::= <[ak := a']> |> |>)
     | None =>
         when (head_block_time d <=? time_add created (post_award_expiration (extension_parameters (params d))))
           (a ← lift (g new_active_post);
            upd (fun d => d <| contents ::= fun c => c
              <| active_posts ::= <[ak := a <| active_id := next_active_id c |>]> |>
              <| next_active_id ::= Z.succ |> |>))
     end).

(** ** Profits of a platform *)
Definition no_profits : period_profits_type :=
  {| rewards_profits := []; foward_profits := 0; post_profits := 0; post_profits_by_platform := 0;
     platform_profits := 0 |}.
Definition add_reward_profit (reward : asset) (m : flat_map Z Z) : result (flat_map Z Z) :=
  if eqb reward (Asset 0 CORE_ASSET_AID) then Ok m else add_to (asset_id reward) (amount reward) m.
Definition add_period_profits (period latest_periods : Z) (reward : asset)
    (forward_profit post_profit platform_profit post_profit_by_platform : Z) (p : platform_object)
    : result platform_object :=
  match fm_find period (period_profits p) with
  | Some q =>
      r ← add_reward_profit reward (rewards_profits q);
      f ← safe_add (foward_profits q) forward_profit;
      o ← safe_add (post_profits q) post_profit;
      l ← safe_add (platform_profits q) platform_profit;
      b ← safe_add (post_profits_by_platform q) post_profit_by_platform;
      Ok (p <| period_profits ::= fm_set period {| rewards_profits := r; foward_profits := f; post_profits := o;
                post_profits_by_platform := b; platform_profits := l |} |>)
  | None =>
      r ← add_reward_profit reward [];
      m ← (if latest_periods <=? Z.of_nat (length (period_profits p))
           then match period_profits p with _ :: m => Ok m | [] => Throw undefined_behaviour end
           else Ok (period_profits p));
      Ok (p <| period_profits := fm_emplace period {| rewards_profits := r; foward_profits := forward_profit;
                post_profits := post_profit; post_profits_by_platform := post_profit_by_platform;
                platform_profits := platform_profit |} m |>)
  end.
(** [latest_periods] is [_latest_active_post_periods] of the node. *)
Definition credit_platform (latest_periods platform : Z) (reward : asset) (forward_profit : Z) : M unit :=
  d ← get;
  match find_platform_by_owner d platform with
  | None => mret tt
  | Some p =>
      p' ← lift (add_period_profits (u32 (current_active_post_sequence (dgp d))) latest_periods reward
                   forward_profit 0 0 0 p);
      modify_platform platform (fun _ => p')
  end.

(** ** [post] *)
Record post_plan := {
  pp_ext : option post_ext; pp_auth : option account_auth_platform_object; pp_origin : option (Z * Z * Z) }.
Definition origin_post (op : post_operation) (d : database) : result (Z * Z * Z * post_object) :=
  pl ← deref (po_origin_platform op) undefined_behaviour;
  po ← deref (po_origin_poster op) undefined_behaviour;
  pid ← deref (po_origin_post_pid op) undefined_behaviour;
  get_platform_by_owner d pl ;;
  get_account_by_uid d po ;;
  p ← get_post_by_platform d pl po pid;
  Ok ((pl, po, pid), p).
Definition is_forward (ty : option Z) : bool :=
  bool_decide (ty = Some Post_Type_forward) || bool_decide (ty = Some Post_Type_forward_And_Modify).
Definition comment_evaluate (op : post_operation) (poster : account_object)
    (auth : option account_auth_platform_object) (d : database) : result (Z * Z * Z) :=
  x ← origin_post op d;
  guard_ok (allows (post_permission_flags x.2) Permission_Comment) assert_exception ;;
  guard_ok (can_reply poster) assert_exception ;;
  check_auth auth Permission_Comment ;;
  Ok x.1.
Definition forward_evaluate (op : post_operation) (s : account_statistics)
    (auth : option account_auth_platform_object) (d : database) : result (Z * Z * Z) :=
  x ← origin_post op d;
  guard_ok (allows (post_permission_flags x.2) Permission_Forward) assert_exception ;;
  price ← deref (forward_price x.2) assert_exception;
  guard_ok (0 <? price) assert_exception ;;
  check_auth auth Permission_Forward ;;
  guard_ok (price <=? prepaid s) assert_exception ;;
  check_limit auth (prepaid s) price ;;
  Ok x.1.
(** The checks since [HARDFORK_0_4_TIME]. *)
Definition post_ext_evaluate (sign_account : Z) (op : post_operation) (e : post_ext) (s : account_statistics)
    (poster : account_object) (d : database) : result post_plan :=
  let auth := signing_platform d (po_poster op) sign_account in
  (if bool_decide (px_post_type e = Some Post_Type_Post) then check_auth auth Platform_Permission_Post else Ok tt) ;;
  origin ← (if bool_decide (px_post_type e = Some Post_Type_Comment)
            then k ← comment_evaluate op poster auth d; Ok (Some k)
            else if is_forward (px_post_type e) then k ← forward_evaluate op s auth d; Ok (Some k)
            else Ok None);
  check_sign_platform auth sign_account (px_sign_platform e) ;;
  lid ← deref (px_license_lid e) undefined_behaviour;
  get_license_by_platform d (po_platform op) lid ;;
  guard_ok (forallb (fun x => is_ok (get_account_by_uid d x.1)) (default [] (px_receiptors e))) assert_exception ;;
  Ok {| pp_ext := Some e; pp_auth := auth; pp_origin := origin |}.
Definition post_evaluate (sign_account : Z) (op : post_operation) (d : database) : result post_plan :=
  s ← get_account_statistics_by_uid d (po_poster op);
  get_platform_by_owner d (po_platform op) ;;
  a ← get_account_by_uid d (po_poster op);
  guard_ok (can_post a) assert_exception ;;
  guard_ok (u64 (last_post_sequence s + 1) =? po_post_pid op) assert_exception ;;
  match po_origin_post_pid op with
  | Some pid =>
      uid ← deref (po_origin_poster op) undefined_behaviour;
      t ← get_account_statistics_by_uid d uid;
      guard_ok (pid <=? last_post_sequence t) assert_exception
  | None => Ok tt
  end ;;
  guard_ok (negb (some (po_extensions op)) || (HARDFORK_0_4_TIME <=? head_block_time d)) assert_exception ;;
  if HARDFORK_0_4_TIME <=? head_block_time d then
    e ← deref (po_extensions op) assert_exception;
    post_ext_evaluate sign_account op e s a d
  else Ok {| pp_ext := None; pp_auth := None; pp_origin := None |}.

Definition record_forward (price : Z) (paid : flat_map Z Z) (a : active_post_object) : result active_post_object :=
  x ← safe_add (forward_award a) price;
  insert_all (fun uid y => insert_receiptor uid 0 y) paid (a <| forward_award := x |>).
(** The price of forwarding goes to the receiptors of the forwarded post. *)
Definition pay_forward (latest_periods sign_account : Z) (op : post_operation) (plan : post_plan) : M unit :=
  d ← get;
  k ← lift (deref (pp_origin plan) undefined_behaviour);
  p ← lift (deref (posts (contents d) !! k) undefined_behaviour);
  price ← lift (deref (forward_price p) undefined_behaviour);
  use_signing (pp_auth plan) (po_poster op) sign_account price ;;
  spend_prepaid (po_poster op) price ;;
  '(surplus, paid) ← pay_post adjust_prepaid k.1.1 price (receiptors p);
  touch_active_post k (post_create_time p) (record_forward price paid) (record_forward price paid) ;;
  credit_platform latest_periods k.1.1 (Asset 0 CORE_ASSET_AID) surplus.

Definition owner_of_all : receiptor_parameter := Receiptor PERCENT_100 false 0 0 NEVER.
Definition default_receiptors (platform poster : Z) : flat_map Z receiptor_parameter :=
  if platform =? poster then fm_set poster owner_of_all []
  else fm_set poster (Receiptor (PERCENT_100 - DEFAULT_PLATFORM_RECEIPTS_RATIO) false 0 0 NEVER)
         (fm_set platform (Receiptor DEFAULT_PLATFORM_RECEIPTS_RATIO false 0 0 NEVER) []).
Definition new_post (op : post_operation) (e : option post_ext) (now : Z) : post_object :=
  {| post_type := default Post_Type_Post (e ≫= px_post_type);
     origin_poster := po_origin_poster op; origin_post_pid := po_origin_post_pid op;
     origin_platform := po_origin_platform op; hash_value := po_hash_value op; post_extra_data := po_extra_data op;
     title := po_title op; body := po_body op; post_create_time := now; post_last_update_time := now;
     receiptors := default (default_receiptors (po_platform op) (po_poster op)) (e ≫= px_receiptors);
     forward_price := e ≫= px_forward_price; license_lid := e ≫= px_license_lid;
     post_permission_flags := default 255 (e ≫= px_permission_flags); score_settlement := false |}.
Definition post (latest_periods sign_account : Z) (op : post_operation) : M unit :=
  d ← get;
  plan ← lift (post_evaluate sign_account op d);
  modify_stats (po_poster op) (fun s => Ok (s <| last_post_sequence ::= fun n => u64 (n + 1) |>)) ;;
  when (is_forward (pp_ext plan ≫= px_post_type)) (pay_forward latest_periods sign_account op plan) ;;
  let k := (po_platform op, po_poster op, po_post_pid op) in
  d1 ← get;
  fc_assert (negb (some (posts (contents d1) !! k))) ;;
  set_post k (new_post op (pp_ext plan) (head_block_time d)).

(** ** [post_update] *)
Definition updates_content (op : post_update_operation) : bool :=
  some (pu_hash_value op) || some (pu_extra_data op) || some (pu_title op) || some (pu_body op).
Definition sale_evaluate (sign : Z -> Z) (op : post_update_operation) (e : post_update_ext) (p : post_object)
    (d : database) (r : Z) : result unit :=
  get_account_by_uid d r ;;
  (if sign r =? r then Ok tt
   else let auth := auth_platforms d !! (r, sign r) in
        check_auth auth Permission_Buyout ;;
        check_sign_platform auth (sign r) (ux_receiptor_sign_platform e)) ;;
  q ← deref (fm_find r (receiptors p)) assert_exception;
  match ux_buyout_ratio e with
  | None => Ok tt
  | Some x =>
      guard_ok (x <=? cur_ratio q) assert_exception ;;
      if r =? pu_poster op then
        guard_ok (negb (pu_poster op =? pu_platform op) ||
                  (x + DEFAULT_POSTER_MIN_RECEIPTS_RATIO + DEFAULT_PLATFORM_RECEIPTS_RATIO <=? cur_ratio q))
          assert_exception ;;
        guard_ok (x + DEFAULT_POSTER_MIN_RECEIPTS_RATIO <=? cur_ratio q) assert_exception
      else Ok tt
  end.
Definition update_ext_evaluate (sign : Z -> Z) (op : post_update_operation) (e : post_update_ext)
    (poster_auth : option account_auth_platform_object) (p : post_object) (d : database) : result unit :=
  guard_ok (HARDFORK_0_4_TIME <=? head_block_time d) assert_exception ;;
  match ux_receiptor e with
  | Some r => sale_evaluate sign op e p d r
  | None => guard_ok (negb (some (ux_receiptor_sign_platform e))) assert_exception
  end ;;
  (if some (ux_forward_price e) then check_auth poster_auth Permission_Forward else Ok tt) ;;
  (if some (ux_permission_flags e) || some (ux_license_lid e)
   then check_auth poster_auth Platform_Permission_Content_Update else Ok tt) ;;
  match ux_license_lid e with
  | Some lid => _ ← get_license_by_platform d (pu_platform op) lid; Ok tt
  | None => Ok tt
  end ;;
  check_sign_platform poster_auth (sign (pu_poster op)) (ux_content_sign_platform e).
Definition post_update_evaluate (sign : Z -> Z) (op : post_update_operation) (d : database) : result unit :=
  get_platform_by_owner d (pu_platform op) ;;
  a ← get_account_by_uid d (pu_poster op);
  s ← get_account_statistics_by_uid d (pu_poster op);
  let may_post := guard_ok (can_post a) assert_exception ;;
                  guard_ok (pu_post_pid op <=? last_post_sequence s) assert_exception in
  poster_auth ←
    (if HARDFORK_0_4_TIME <=? head_block_time d then
       guard_ok (updates_content op || some (pu_extensions op)) assert_exception ;;
       (if updates_content op then may_post else Ok tt) ;;
       let auth := signing_platform d (pu_poster op) (sign (pu_poster op)) in
       (if updates_content op then check_auth auth Platform_Permission_Content_Update else Ok tt) ;;
       Ok auth
     else may_post ;; Ok None);
  p ← deref (find_post_by_platform d (pu_platform op) (pu_poster op) (pu_post_pid op)) assert_exception;
  match pu_extensions op with
  | Some e => update_ext_evaluate sign op e poster_auth p d
  | None => Ok tt
  end.
Definition offer (e : post_update_ext) (q : receiptor_parameter) : receiptor_parameter :=
  q <| to_buyout ::= assign (ux_to_buyout e) |> <| buyout_ratio ::= assign (ux_buyout_ratio e) |>
    <| buyout_price ::= assign (ux_buyout_price e) |> <| buyout_expiration ::= assign (ux_buyout_expiration e) |>.
Definition update_ext (e : post_update_ext) (p : post_object) : result post_object :=
  let p := p <| forward_price ::= fun x => match ux_forward_price e with Some y => Some y | None => x end |> in
  p ← match ux_receiptor e with
      | Some r => q ← deref (fm_find r (receiptors p)) undefined_behaviour;
                  Ok (p <| receiptors ::= fm_set r (offer e q) |>)
      | None => Ok p
      end;
  Ok (p <| license_lid ::= fun x => match ux_license_lid e with Some y => Some y | None => x end |>
        <| post_permission_flags ::= assign (ux_permission_flags e) |>).
Definition post_update (sign : Z -> Z) (op : post_update_operation) : M unit :=
  d ← get;
  lift (post_update_evaluate sign op d) ;;
  modify_post (pu_platform op, pu_poster op, pu_post_pid op) (fun p =>
    let p := p <| hash_value ::= assign (pu_hash_value op) |> <| post_extra_data ::= assign (pu_extra_data op) |>
               <| title ::= assign (pu_title op) |> <| body ::= assign (pu_body op) |> in
    p ← match pu_extensions op with
        | Some e => if HARDFORK_0_4_TIME <=? head_block_time d then update_ext e p else Ok p
        | None => Ok p
        end;
    Ok (p <| post_last_update_time := head_block_time d |>)).

(** ** [score_create] *)
Definition existing_platform (d : database) (platform : Z) : result unit :=
  if HARDFORK_0_5_TIME <=? head_block_time d then get_platform_by_owner d platform ;; Ok tt else Ok tt.
Definition score_evaluate (sign_account : Z) (op : score_create_operation) (d : database) : result unit :=
  guard_ok (HARDFORK_0_4_TIME <=? head_block_time d) assert_exception ;;
  existing_platform d (sc_platform op) ;;
  a ← get_account_by_uid d (sc_from_account_uid op);
  p ← get_post_by_platform d (sc_platform op) (sc_poster op) (sc_post_pid op);
  guard_ok (allows (post_permission_flags p) Permission_Liked) assert_exception ;;
  guard_ok (can_rate a) assert_exception ;;
  guard_ok (sc_csaf op <=? max_csaf_per_approval (extension_parameters (params d))) assert_exception ;;
  s ← get_account_statistics_by_uid d (sc_from_account_uid op);
  let auth := if sign_account =? 0 then None else signing_platform d (sc_from_account_uid op) sign_account in
  check_auth auth Permission_Liked ;;
  check_sign_platform auth sign_account (sc_sign_platform op) ;;
  guard_ok (sc_csaf op <=? csaf s) assert_exception ;;
  guard_ok (negb (some (find_score d (sc_platform op) (sc_poster op) (sc_post_pid op) (sc_from_account_uid op))))
    assert_exception.
Definition score_create (sign_account : Z) (op : score_create_operation) : M unit :=
  d ← get;
  lift (score_evaluate sign_account op d) ;;
  modify_stats (sc_from_account_uid op) (fun s => x ← safe_sub (csaf s) (sc_csaf op); Ok (s <| csaf := x |>)) ;;
  let k := (sc_platform op, sc_poster op, sc_post_pid op) in
  upd (fun d => d <| contents ::= fun c => c
    <| scores ::= <[(k, sc_from_account_uid op) :=
         {| score_id := next_score_id c; score := sc_score op; score_csaf := sc_csaf op;
            score_period := current_active_post_sequence (dgp d); score_profits := 0;
            score_create_time := head_block_time d |}]> |>
    <| next_score_id ::= Z.succ |> |>) ;;
  p ← lift (get_post_by_platform d (sc_platform op) (sc_poster op) (sc_post_pid op));
  touch_active_post k (post_create_time p)
    (fun a => x ← safe_add (total_csaf a) (sc_csaf op); Ok (a <| total_csaf := x |>))
    (fun a => Ok (a <| total_csaf := sc_csaf op |>)).

(** ** [reward] and [reward_proxy] *)
Definition record_reward (aid x : Z) (paid : flat_map Z Z) (a : active_post_object) : result active_post_object :=
  r ← add_to aid x (total_rewards a);
  insert_all (fun uid y => insert_reward_receiptor uid aid y) paid (a <| total_rewards := r |>).
Definition reward_evaluate (op : reward_operation) (d : database) : result unit :=
  guard_ok (HARDFORK_0_4_TIME <=? head_block_time d) assert_exception ;;
  existing_platform d (rw_platform op) ;;
  from_account ← get_account_by_uid d (rw_from_account_uid op);
  p ← get_post_by_platform d (rw_platform op) (rw_poster op) (rw_post_pid op);
  guard_ok (allows (post_permission_flags p) Permission_Reward) assert_exception ;;
  get_account_statistics_by_uid d (rw_from_account_uid op) ;;
  let aid := asset_id (rw_amount op) in
  a ← get_asset_by_aid d aid;
  validate_authorized_asset from_account aid a ;;
  guard_ok (negb (is_transfer_restricted a) || (rw_from_account_uid op =? issuer a)) assert_exception ;;
  guard_ok (negb (0 <? amount (rw_amount op)) ||
            (amount (rw_amount op) <=? balance_of d (rw_from_account_uid op) aid)) assert_exception.
Definition reward (latest_periods : Z) (op : reward_operation) : M unit :=
  d ← get;
  lift (reward_evaluate op d) ;;
  n ← lift (neg (rw_amount op));
  adjust_balance (rw_from_account_uid op) n ;;
  p ← lift (get_post_by_platform d (rw_platform op) (rw_poster op) (rw_post_pid op));
  let aid := asset_id (rw_amount op) in
  let x := amount (rw_amount op) in
  '(surplus, paid) ← pay_post (fun uid y => adjust_balance uid (Asset y aid)) (rw_platform op) x (receiptors p);
  credit_platform latest_periods (rw_platform op) (Asset surplus aid) 0 ;;
  touch_active_post (rw_platform op, rw_poster op, rw_post_pid op) (post_create_time p)
    (record_reward aid x paid) (record_reward aid x paid).

Definition reward_proxy_evaluate (sign_account : Z) (op : reward_proxy_operation) (d : database)
    : result account_auth_platform_object :=
  guard_ok (HARDFORK_0_4_TIME <=? head_block_time d) assert_exception ;;
  existing_platform d (rp_platform op) ;;
  get_account_by_uid d (rp_from_account_uid op) ;;
  p ← get_post_by_platform d (rp_platform op) (rp_poster op) (rp_post_pid op);
  guard_ok (allows (post_permission_flags p) Permission_Reward) assert_exception ;;
  s ← get_account_statistics_by_uid d (rp_from_account_uid op);
  guard_ok (rp_platform op =? sign_account) assert_exception ;;
  auth ← deref (auth_platforms d !! (rp_from_account_uid op, rp_platform op)) assert_exception;
  check_auth (Some auth) Permission_Reward ;;
  check_sign_platform (Some auth) (rp_platform op) (rp_sign_platform op) ;;
  guard_ok (rp_amount op <=? prepaid s) assert_exception ;;
  check_limit (Some auth) (prepaid s) (rp_amount op) ;;
  Ok auth.
Definition reward_proxy (latest_periods sign_account : Z) (op : reward_proxy_operation) : M unit :=
  d ← get;
  auth ← lift (reward_proxy_evaluate sign_account op d);
  use_auth (rp_from_account_uid op, rp_platform op) (rp_amount op) ;;
  spend_prepaid (rp_from_account_uid op) (rp_amount op) ;;
  p ← lift (get_post_by_platform d (rp_platform op) (rp_poster op) (rp_post_pid op));
  '(surplus, paid) ← pay_post adjust_prepaid (rp_platform op) (rp_amount op) (receiptors p);
  credit_platform latest_periods (rp_platform op) (Asset surplus CORE_ASSET_AID) 0 ;;
  touch_active_post (rp_platform op, rp_poster op, rp_post_pid op) (post_create_time p)
    (record_reward CORE_ASSET_AID (rp_amount op) paid) (record_reward CORE_ASSET_AID (rp_amount op) paid).

(** ** [buyout] *)
(** [post_object::receiptors_validate]. *)
Definition receiptors_validate (platform poster : Z) (m : flat_map Z receiptor_parameter) : result unit :=
  p ← deref (fm_find platform m) assert_exception;
  guard_ok (if poster =? platform
            then DEFAULT_PLATFORM_RECEIPTS_RATIO + DEFAULT_POSTER_MIN_RECEIPTS_RATIO <=? cur_ratio p
            else cur_ratio p =? DEFAULT_PLATFORM_RECEIPTS_RATIO) assert_exception ;;
  guard_ok (forallb (fun x => (cur_ratio x.2 <=? PERCENT_100) &&
                              (negb (to_buyout x.2) || (buyout_ratio x.2 <=? cur_ratio x.2))) m) assert_exception ;;
  guard_ok (total_ratio m =? PERCENT_100) assert_exception.
Definition for_sale_at (q : receiptor_parameter) (now : Z) : bool :=
  to_buyout q && (0 <? buyout_price q) && (0 <? buyout_ratio q) && (buyout_ratio q <=? cur_ratio q) &&
  (now <=? buyout_expiration q).
(** The receiptor that sells, as the post has it. *)
Definition buyout_evaluate (sign_account : Z) (op : buyout_operation) (d : database)
    : result (option account_auth_platform_object) :=
  guard_ok (HARDFORK_0_4_TIME <=? head_block_time d) assert_exception ;;
  get_account_by_uid d (bo_from_account_uid op) ;;
  existing_platform d (bo_platform op) ;;
  p ← get_post_by_platform d (bo_platform op) (bo_poster op) (bo_post_pid op);
  guard_ok (allows (post_permission_flags p) Permission_Buyout) assert_exception ;;
  receiptors_validate (bo_platform op) (bo_poster op) (receiptors p) ;;
  q ← deref (fm_find (bo_receiptor_account_uid op) (receiptors p)) assert_exception;
  guard_ok (for_sale_at q (head_block_time d)) assert_exception ;;
  (if bo_receiptor_account_uid op =? bo_poster op then
     guard_ok (buyout_ratio q + DEFAULT_POSTER_MIN_RECEIPTS_RATIO +
                 (if bo_poster op =? bo_platform op then DEFAULT_PLATFORM_RECEIPTS_RATIO else 0) <=? cur_ratio q)
       assert_exception
   else Ok tt) ;;
  guard_ok (negb (buyout_ratio q <? cur_ratio q) || some (fm_find (bo_from_account_uid op) (receiptors p)) ||
            (Z.of_nat (length (receiptors p)) <? 5)) assert_exception ;;
  s ← get_account_statistics_by_uid d (bo_from_account_uid op);
  let auth := signing_platform d (bo_from_account_uid op) sign_account in
  check_auth auth Permission_Buyout ;;
  check_limit auth (prepaid s) (buyout_price q) ;;
  check_sign_platform auth sign_account (bo_sign_platform op) ;;
  guard_ok (buyout_price q <=? prepaid s) assert_exception ;;
  Ok auth.
(** The share that is sold moves from the seller to the buyer. *)
Definition give_share (seller : Z) (para : receiptor_parameter) (m : flat_map Z receiptor_parameter)
    : result (flat_map Z receiptor_parameter) :=
  if buyout_ratio para <? cur_ratio para then
    q ← deref (fm_find seller m) undefined_behaviour;
    Ok (fm_set seller (q <| cur_ratio := u16 (cur_ratio para - buyout_ratio para) |> <| to_buyout := false |>
                         <| buyout_price := 0 |> <| buyout_ratio := 0 |>) m)
  else if buyout_ratio para =? cur_ratio para then Ok (fm_erase seller m) else Ok m.
Definition receive_share (buyer ratio : Z) (m : flat_map Z receiptor_parameter) : flat_map Z receiptor_parameter :=
  match fm_find buyer m with
  | Some q => fm_set buyer (q <| cur_ratio ::= fun x => u16 (x + ratio) |>) m
  | None => fm_set buyer (Receiptor ratio false 0 0 NEVER) m
  end.
Definition sell_share (seller buyer : Z) (para : receiptor_parameter) (m : flat_map Z receiptor_parameter)
    : result (flat_map Z receiptor_parameter) :=
  m ← give_share seller para m; Ok (receive_share buyer (buyout_ratio para) m).
Definition buyout (sign_account : Z) (op : buyout_operation) : M unit :=
  d ← get;
  auth ← lift (buyout_evaluate sign_account op d);
  p ← lift (get_post_by_platform d (bo_platform op) (bo_poster op) (bo_post_pid op));
  para ← lift (deref (fm_find (bo_receiptor_account_uid op) (receiptors p)) undefined_behaviour);
  use_signing auth (bo_from_account_uid op) sign_account (buyout_price para) ;;
  spend_prepaid (bo_from_account_uid op) (buyout_price para) ;;
  adjust_prepaid (bo_receiptor_account_uid op) (buyout_price para) ;;
  modify_post (bo_platform op, bo_poster op, bo_post_pid op) (fun p =>
    m ← sell_share (bo_receiptor_account_uid op) (bo_from_account_uid op) para (receiptors p);
    Ok (p <| receiptors := m |>)).

(** ** [license_create] *)
Definition license_create (op : license_create_operation) : M unit :=
  d ← get;
  fc_assert (HARDFORK_0_4_TIME <=? head_block_time d) ;;
  lift (get_platform_by_owner d (lc_platform op)) ;;
  s ← lift (get_account_statistics_by_uid d (lc_platform op));
  fc_assert (u64 (last_license_sequence s + 1) =? lc_license_lid op) ;;
  fc_assert (negb (some (licenses (contents d) !! (lc_platform op, lc_license_lid op)))) ;;
  modify_stats (lc_platform op) (fun s => Ok (s <| last_license_sequence ::= fun n => u64 (n + 1) |>)) ;;
  upd (fun d => d <| contents ::= fun c => c <| licenses ::= <[(lc_platform op, lc_license_lid op) :=
    {| license_type := lc_type op; license_hash_value := lc_hash_value op; license_extra_data := lc_extra_data op;
       license_title := lc_title op; license_body := lc_body op; license_create_time := head_block_time d |}]> |> |>).
End ops.
End posting.
