(* ===== verification/Awards.v ===== *)
(** * Awards for posts and platforms (db_update.cpp)

    At the end of a period the posts with enough score are paid from the budget
    pool: part of an award goes to the receiptors of the post, part to those who
    scored it, and a part of that to their registrars and referrers.  Platforms
    are paid for the scores of their posts, and in another rhythm for their votes. *)
From S2P Require Import Prelude FlatMap FcInt Asset Pledge ChainState.
From S2P Require Import AccountStats Voter Balance Payroll BlockUpdate Platform Content.
Local Open Scope Z_scope.
Import asset pledge chain acc voter balance payroll updates platform posting.

Module awards.
#[local] Notation M := (M database).

(** [86400 * 365]. *)
Definition YEAR : Z := 31536000.
Definition DEFAULT_SCORE_RECEIPTS_RATIO : Z := 2500.

Section ops.
Context {F : FcInt} {C : ChainConfig}.
(** [_latest_active_post_periods] of the node. *)
Variable latest_periods : Z.

(** ** Clearing *)
Definition clear_active_post : M unit :=
  upd (fun d =>
    let now := current_active_post_sequence (dgp d) in
    if now <=? latest_periods then d
    else d <| contents ::= fun c => c <| active_posts ::=
           filter (fun x => u64 (now - latest_periods + 1) <= x.1.1.2) |> |>).
Definition clear_expired_scores : M unit :=
  upd (fun d =>
    let bound := u32 (head_block_time d - approval_expiration (extension_parameters (params d))) in
    d <| contents ::= fun c => c <| scores ::= filter (fun x => bound < score_create_time x.2) |> |>).

(** ** The scores of a post *)
(** The scores of an active post in the order of the index by period. *)
Definition scores_of (d : database) (k : Z * Z * Z * Z) : list (Z * Z * Z * Z * score_object) :=
  let '(platform, poster, period, pid) := k in
  ordered (fun x => [score_id x.2])
    (filter (fun x => x.1.1 = (platform, poster, pid) /\ score_period x.2 = period) (map_to_list (scores (contents d)))).
(** Scores count in full up to the first turning point, less and less between
    the two, and with the least weight beyond the second. *)
Section curve.
Variables (p : extension_parameter_type) (first second : Z).
Definition get_part_effective_csaf (b e : Z) : result Z :=
  average ← u128_div (u128_add b e) 2;
  x ← u128_div (u128_mul (u128_sub second average) (u32 (PERCENT_100 - approval_casf_min_weight p)))
        (u128_sub second first);
  let slope := u128_to_i64 (u128_add x (approval_casf_min_weight p)) in
  y ← u128_div (u128_mul (u128_sub e b) slope) PERCENT_100;
  Ok (u128_to_i64 y).
Definition beyond (total : Z) : result Z :=
  x ← u128_div (u128_mul (u128_sub total second) (approval_casf_min_weight p)) PERCENT_100;
  Ok (u128_to_i64 x).
(** [csaf] brings the total from [last] to [total]. *)
Definition effective_csaf (csaf last total : Z) : result Z :=
  if total <=? first then Ok csaf
  else if total <=? second then
    if last <? first then
      x ← get_part_effective_csaf first total; safe_add (u128_to_i64 (u128_sub first last)) x
    else get_part_effective_csaf last total
  else if last <? first then
    a ← safe_add 0 (u128_to_i64 (u128_sub first last));
    x ← get_part_effective_csaf first second; b ← safe_add a x;
    y ← beyond total; safe_add b y
  else if last <? second then
    x ← get_part_effective_csaf last second; a ← safe_add 0 x;
    y ← beyond total; safe_add a y
  else x ← safe_mul csaf (approval_casf_min_weight p); safe_div x PERCENT_100.
(** The scores with what they count and whether they approve, and the sum. *)
Fixpoint effective_scores (l : list (Z * Z * Z * Z * score_object)) (last sum : Z)
    : result (list (Z * Z * Z * Z * Z * bool) * Z) :=
  match l with
  | [] => Ok ([], sum)
  | (k, s) :: l' =>
      let total := u128_add last (score_csaf s) in
      x ← effective_csaf (score_csaf s) last total;
      sum' ← safe_add sum x;
      '(r, t) ← effective_scores l' total sum';
      Ok ((k, x, 0 <=? score s) :: r, t)
  end.
End curve.
Definition get_effective_csaf (d : database) (k : Z * Z * Z * Z) (a : active_post_object)
    : result (list (Z * Z * Z * Z * Z * bool) * Z) :=
  let p := extension_parameters (params d) in
  let x := u128_of (total_csaf a) in
  first ← u128_div (u128_mul x (approval_casf_first_rate p)) PERCENT_100;
  second ← u128_div (u128_mul x (approval_casf_second_rate p)) PERCENT_100;
  effective_scores p first second (scores_of d k) 0 0.

(** ** The posts that are awarded *)
Record candidates := {
  total_csaf_amount : Z;
  total_effective_csaf_amount : Z;
  platform_csaf_amount : flat_map Z Z;
  post_effective_casf : list (Z * Z * Z * Z * Z * Z) }.
(** [m[k] += x]. *)
Definition bump (k x : Z) (m : flat_map Z Z) : result (flat_map Z Z) :=
  y ← safe_add (default 0 (fm_find k m)) x; Ok (fm_set k y m).
(** Approval weighted by the scores, from -5 to 5. *)
Definition approval_amount (d : database) (k : Z * Z * Z * Z) : Z :=
  fold_left (fun t x => t + Z.quot (score_csaf x.2 * score x.2 * casf_modulus (extension_parameters (params d)))
                             (5 * PERCENT_100)) (scores_of d k) 0.
Definition platform_awarded (d : database) (platform : Z) : bool :=
  (hardfork d <? HEAD_FORK_05) ||
  match find_platform_by_owner d platform with
  | None => false
  | Some pl => p_is_valid pl &&
      negb (i64 (p_total_votes pl) <? platform_content_award_min_votes (extension_parameters (params d)))
  end.
Definition consider (d : database) (acc : candidates) (x : Z * Z * Z * Z * active_post_object) : result candidates :=
  let '((platform, poster, period, pid) as k, a) := x in
  if negb (platform_awarded d platform) then Ok acc
  else
    acc ← (if min_effective_csaf (extension_parameters (params d)) <=? total_csaf a then
             let approval := i128_to_i64 (approval_amount d k) in
             csaf ← safe_add (total_csaf a) approval;
             if 0 <? csaf then
               t ← safe_add (total_effective_csaf_amount acc) csaf;
               Ok {| total_csaf_amount := total_csaf_amount acc; total_effective_csaf_amount := t;
                     platform_csaf_amount := platform_csaf_amount acc;
                     post_effective_casf := post_effective_casf acc ++ [(k, csaf, approval)] |}
             else Ok acc
           else Ok acc);
    m ← match fm_find platform (platform_csaf_amount acc) with
        | Some y => z ← safe_add y (total_csaf a); Ok (fm_set platform z (platform_csaf_amount acc))
        | None => Ok (fm_set platform (total_csaf a) (platform_csaf_amount acc))
        end;
    t ← safe_add (total_csaf_amount acc) (total_csaf a);
    Ok {| total_csaf_amount := t; total_effective_csaf_amount := total_effective_csaf_amount acc;
          platform_csaf_amount := m; post_effective_casf := post_effective_casf acc |}.
Definition active_posts_now (d : database) : list (Z * Z * Z * Z * active_post_object) :=
  ordered (fun x => [active_id x.2])
    (filter (fun x => x.1.1.2 = current_active_post_sequence (dgp d)) (map_to_list (active_posts (contents d)))).
Fixpoint consider_all (d : database) (l : list (Z * Z * Z * Z * active_post_object)) (acc : candidates)
    : result candidates :=
  match l with
  | [] => Ok acc
  | x :: l' => acc' ← consider d acc x; consider_all d l' acc'
  end.
Definition get_candidates (d : database) : result candidates :=
  consider_all d (active_posts_now d)
    {| total_csaf_amount := 0; total_effective_csaf_amount := 0; platform_csaf_amount := []; post_effective_casf := [] |}.
(** What a yearly amount is for the period that ends. *)
Definition per_period (yearly last next : Z) : result Z :=
  u128_div (u128_mul (u128_of yearly) (next - last)) YEAR.

(** ** Awards of a post *)
(** What is to be paid: balances, the part platforms got as receiptors and the part
    of it that is theirs as platforms, and what registrars and referrers share. *)
Record payouts := {
  adjust_balance_map : flat_map Z Z;
  platform_receiptor_award : flat_map Z (Z * Z);
  registrar_and_referrer_award : flat_map Z Z }.
Definition modify_active (k : Z * Z * Z * Z) (f : active_post_object -> result active_post_object) : M unit :=
  d ← get;
  a ← lift (deref (active_posts (contents d) !! k) undefined_behaviour);
  a' ← lift (f a);
  upd (fun d => d <| contents ::= fun c => c <| active_posts ::= <[k := a']> |> |>).
Definition set_profits (k : Z * Z * Z * Z) (x : Z) : M unit :=
  d ← get;
  s ← lift (deref (scores (contents d) !! k) assert_exception);
  upd (fun d => d <| contents ::= fun c => c <| scores ::= <[k := s <| score_profits := x |>]> |> |>).
(** The part [rate] of [x]. *)
Definition fraction (x rate : Z) : result Z :=
  y ← u128_div (u128_mul (u128_of x) rate) PERCENT_100; Ok (u128_to_i64 y).
(** The receiptors get their share of [earned]; [temp] is left for the platform. *)
Fixpoint award_receiptors (platform earned : Z) (rs : flat_map Z receiptor_parameter) (temp : Z)
    (balances receiptor : flat_map Z Z) : result (flat_map Z Z * flat_map Z Z * Z) :=
  match rs with
  | [] => Ok (balances, receiptor, temp)
  | (uid, q) :: rs' =>
      if uid =? platform then award_receiptors platform earned rs' temp balances receiptor
      else
        to_add ← fraction earned (cur_ratio q);
        balances ← bump uid to_add balances;
        temp ← safe_sub temp to_add;
        award_receiptors platform earned rs' temp balances (fm_emplace uid to_add receiptor)
  end.
Definition add_platform_award (platform temp only_platform : Z) (m : flat_map Z (Z * Z)) : result (flat_map Z (Z * Z)) :=
  match fm_find platform m with
  | Some (x, y) => x' ← safe_add x temp; y' ← safe_add y only_platform; Ok (fm_set platform (x', y') m)
  | None => Ok (fm_set platform (temp, only_platform) m)
  end.
(** Those who scored the post share [score_earned]; registrars and referrers get a
    part of it since the 0.5 hardfork. *)
Fixpoint award_scores (approval score_earned total : Z) (l : list (Z * Z * Z * Z * Z * bool)) (earned : Z)
    (acc : payouts) : M (Z * payouts) :=
  match l with
  | [] => mret (earned, acc)
  | (k, eff, approve) :: l' =>
      d ← get;
      let p := extension_parameters (params d) in
      let x := u128_mul (u128_of eff) score_earned in
      y ← lift (if (approval <? 0) && negb approve
                then u128_div (u128_mul x (disapprove_award_modulus p)) (u128_mul total PERCENT_100)
                else u128_div x total);
      let to_add := u128_to_i64 y in
      set_profits k to_add ;;
      acc' ← lift (if HEAD_FORK_05 <=? hardfork d then
                     z ← fraction to_add (registrar_referrer_rate_from_score p);
                     r ← bump k.2 z (registrar_and_referrer_award acc);
                     w ← safe_sub to_add z;
                     b ← bump k.2 w (adjust_balance_map acc);
                     Ok {| adjust_balance_map := b; platform_receiptor_award := platform_receiptor_award acc;
                           registrar_and_referrer_award := r |}
                   else
                     b ← bump k.2 to_add (adjust_balance_map acc);
                     Ok {| adjust_balance_map := b; platform_receiptor_award := platform_receiptor_award acc;
                           registrar_and_referrer_award := registrar_and_referrer_award acc |});
      earned' ← lift (safe_add earned to_add);
      award_scores approval score_earned total l' earned' acc'
  end.
(** [earned_of]: what the post earned, the part of the scores, and of the receiptors. *)
Definition earned_of (d : database) (per total csaf approval : Z) : result (Z * Z) :=
  let p := extension_parameters (params d) in
  x ← u128_div (u128_mul per csaf) total;
  let post_earned := u128_to_i64 x in
  score_earned ← fraction post_earned
    (if hardfork d <? HEAD_FORK_05 then DEFAULT_SCORE_RECEIPTS_RATIO else scorer_earnings_rate p);
  rest ← safe_sub post_earned score_earned;
  receiptor_earned ← (if 0 <=? approval then Ok rest else fraction rest (receiptor_award_modulus p));
  Ok (score_earned, receiptor_earned).
Definition award_post (per total : Z) (acc : payouts) (x : Z * Z * Z * Z * Z * Z) : M payouts :=
  let '((platform, poster, period, pid) as k, csaf, approval) := x in
  d ← get;
  '(score_earned, receiptor_earned) ← lift (earned_of d per total csaf approval);
  p ← lift (get_post_by_platform d platform poster pid);
  '(b, receiptor, temp) ← lift (award_receiptors platform receiptor_earned (receiptors p) receiptor_earned
                                  (adjust_balance_map acc) []);
  b ← lift (bump platform temp b);
  let receiptor := fm_emplace platform temp receiptor in
  only_platform ← lift (if poster =? platform then fraction receiptor_earned DEFAULT_PLATFORM_RECEIPTS_RATIO else Ok temp);
  pa ← lift (add_platform_award platform temp only_platform (platform_receiptor_award acc));
  let acc := {| adjust_balance_map := b; platform_receiptor_award := pa;
                registrar_and_referrer_award := registrar_and_referrer_award acc |} in
  modify_active k (fun a => insert_all (fun uid y => insert_receiptor uid y 0) receiptor
    (a <| positive_win := 0 <=? approval |> <| post_award := receiptor_earned |>)) ;;
  if score_settlement p then mret acc
  else
    d1 ← get;
    a ← lift (deref (active_posts (contents d1) !! k) undefined_behaviour);
    '(l, total_award) ← lift (get_effective_csaf d1 k a);
    '(earned, acc) ← award_scores approval score_earned (u128_of total_award) l 0 acc;
    modify_active k (fun a => z ← safe_add earned receiptor_earned; Ok (a <| post_award := z |>)) ;;
    modify_post (platform, poster, pid) (fun p => Ok (p <| score_settlement := true |>)) ;;
    mret acc.
Fixpoint award_posts (per total : Z) (l : list (Z * Z * Z * Z * Z * Z)) (acc : payouts) : M payouts :=
  match l with
  | [] => mret acc
  | x :: l' => acc' ← award_post per total acc x; award_posts per total l' acc'
  end.

(** ** The awards of a period *)
Definition award_profits (platform post_profit platform_profit post_profit_by_platform : Z) : M unit :=
  d ← get;
  match find_platform_by_owner d platform with
  | None => mret tt
  | Some p =>
      p' ← lift (add_period_profits (u32 (current_active_post_sequence (dgp d))) latest_periods (Asset 0 CORE_ASSET_AID)
                   0 post_profit platform_profit post_profit_by_platform p);
      modify_platform platform (fun _ => p')
  end.
(** The registrar and the referrer of an account share what it owes them. *)
Fixpoint bonus_map (d : database) (l : flat_map Z Z) (m : flat_map Z Z) : result (flat_map Z Z) :=
  match l with
  | [] => Ok m
  | (uid, x) :: l' =>
      a ← get_account_by_uid d uid;
      to_registrar ← fraction x (registrar_percent a);
      m ← bump (registrar a) to_registrar m;
      y ← safe_sub x to_registrar;
      m ← bump (referrer a) y m;
      bonus_map d l' m
  end.
(** Pay every entry of a map and add it to what was paid before. *)
Fixpoint pay_all (pay : Z -> Z -> M unit) (l : flat_map Z Z) (actual : Z) : M Z :=
  match l with
  | [] => mret actual
  | (uid, x) :: l' => pay uid x ;; a ← lift (safe_add actual x); pay_all pay l' a
  end.
Definition pay_score_bonus (uid x : Z) : M unit :=
  modify_stats uid (fun s => y ← safe_add (uncollected_score_bonus s) x; Ok (s <| uncollected_score_bonus := y |>)).
Definition award_contents (c : candidates) : M (flat_map Z Z * Z) :=
  d ← get;
  let p := extension_parameters (params d) in
  if (0 <? total_content_award_amount p) && (0 <? total_effective_csaf_amount c) then
    per ← lift (per_period (total_content_award_amount p) (last_content_award_time (dgp d))
                  (next_content_award_time (dgp d)));
    acc ← award_posts per (total_effective_csaf_amount c) (post_effective_casf c)
            {| adjust_balance_map := []; platform_receiptor_award := []; registrar_and_referrer_award := [] |};
    mfor (fun x => award_profits x.1 x.2.1 0 x.2.2) (platform_receiptor_award acc) ;;
    d1 ← get;
    m ← lift (bonus_map d1 (registrar_and_referrer_award acc) []);
    actual ← pay_all pay_score_bonus m 0;
    mret (adjust_balance_map acc, actual)
  else mret ([], 0).
Fixpoint award_platforms (per total : Z) (l : flat_map Z Z) (m : flat_map Z Z) : M (flat_map Z Z) :=
  match l with
  | [] => mret m
  | (platform, csaf) :: l' =>
      x ← lift (u128_div (u128_mul per csaf) total);
      let to_add := u128_to_i64 x in
      m' ← lift (bump platform to_add m);
      award_profits platform 0 to_add 0 ;;
      award_platforms per total l' m'
  end.
(** The amount of a period is computed from [total_content_award_amount], as for the
    posts. *)
Definition award_content_platforms (c : candidates) (m : flat_map Z Z) : M (flat_map Z Z) :=
  d ← get;
  let p := extension_parameters (params d) in
  if (0 <? total_platform_content_award_amount p) && (0 <? total_csaf_amount c) then
    per ← lift (per_period (total_content_award_amount p) (last_content_award_time (dgp d))
                  (next_content_award_time (dgp d)));
    award_platforms per (total_csaf_amount c) (platform_csaf_amount c) m
  else mret m.
Definition pay_content_awards : M Z :=
  modify_dgp (fun g => Ok (g <| content_award_skip_flag := true |>)) ;;
  d ← get;
  c ← lift (get_candidates d);
  '(m, actual) ← award_contents c;
  m ← award_content_platforms c m;
  pay_all (fun uid x => adjust_balance uid (Asset x CORE_ASSET_AID)) m actual.
(** The pool must hold two periods' awards since the 0.5 hardfork, a year's before. *)
Definition can_award_contents (d : database) : result bool :=
  let p := extension_parameters (params d) in
  sum ← safe_add (total_content_award_amount p) (total_platform_content_award_amount p);
  if HEAD_FORK_05 <=? hardfork d then
    x ← u128_div (u128_mul (u128_mul (u128_of sum) 2)
                    (next_content_award_time (dgp d) - last_content_award_time (dgp d))) YEAR;
    Ok (i64 (u128_to_u64 x) <=? budget_pool (dgp d))
  else Ok (sum <=? budget_pool (dgp d)).
Definition take_awards (actual : Z) (g : dynamic_global_property_object) : result dynamic_global_property_object :=
  if 0 <? actual then x ← safe_sub (budget_pool g) actual; Ok (g <| budget_pool := x |>) else Ok g.
Definition process_content_platform_awards : M unit :=
  d ← get;
  let p := extension_parameters (params d) in
  let now := head_block_time d in
  let next := next_content_award_time (dgp d) in
  if next <=? now then
    if (total_content_award_amount p =? 0) && (total_platform_content_award_amount p =? 0) ||
       (content_award_interval p =? 0) then
      when (negb (next =? 0))
        (clear_active_post ;;
         modify_dgp (fun g => Ok (g <| last_content_award_time := 0 |> <| next_content_award_time := 0 |>
                                    <| content_award_enable := false |>)))
    else if next =? 0 then
      clear_active_post ;;
      modify_dgp (fun g => Ok (g <| last_content_award_time := now |>
        <| next_content_award_time := time_add now (content_award_interval p) |>
        <| current_active_post_sequence ::= fun n => u64 (n + 1) |> <| content_award_enable := true |>))
    else
      can ← lift (can_award_contents d);
      actual ← (if (can : bool) then pay_content_awards else mret 0);
      modify_dgp (fun g => take_awards actual (g <| last_content_award_time := now |>
        <| next_content_award_time := time_add now (content_award_interval p) |>
        <| current_active_post_sequence ::= fun n => u64 (n + 1) |>)) ;;
      clear_active_post
  else when (content_award_skip_flag (dgp d)) (modify_dgp (fun g => Ok (g <| content_award_skip_flag := false |>))).

(** ** Awards for votes *)
Definition platforms_by_votes (d : database) : list (Z * platform_object) :=
  ordered (fun x => [- p_total_votes x.2; x.1; p_sequence x.2])
    (filter (fun x => p_is_valid x.2 = true) (map_to_list (platforms d))).
Definition awarded_platforms (d : database) : list (Z * platform_object) :=
  let p := extension_parameters (params d) in
  take_while (fun x => negb (i64 (p_total_votes x.2) <? platform_award_min_votes p))
    (take (Z.to_nat (platform_award_requested_rank p)) (platforms_by_votes d)).
Definition can_award_votes (d : database) : result bool :=
  let yearly := total_platform_voted_award_amount (extension_parameters (params d)) in
  if HEAD_FORK_05 <=? hardfork d then
    x ← u128_div (u128_mul (u128_mul (u128_of yearly) 2)
                    (next_platform_voted_award_time (dgp d) - last_platform_voted_award_time (dgp d))) YEAR;
    Ok (u128_to_i64 x <=? budget_pool (dgp d))
  else Ok (yearly <=? budget_pool (dgp d)).
Fixpoint awards_by_votes (by_votes total : Z) (l : flat_map Z Z) (actual : Z) (m : flat_map Z Z)
    : result (flat_map Z Z * Z) :=
  match l with
  | [] => Ok (m, actual)
  | (uid, votes) :: l' =>
      x ← u128_div (u128_mul (u128_of by_votes) votes) total;
      actual ← safe_add actual (u128_to_i64 x);
      y ← deref (fm_find uid m) out_of_range;
      z ← safe_add y (u128_to_i64 x);
      awards_by_votes by_votes total l' actual (fm_set uid z m)
  end.
(** Everybody gets the same part of the basic award and a part of the rest by votes. *)
Definition voted_awards (d : database) : result (flat_map Z Z * Z) :=
  let p := extension_parameters (params d) in
  let platforms := fold_left (fun m x => fm_emplace x.1 (p_total_votes x.2) m) (awarded_platforms d) [] in
  let total := fold_left (fun t x => u128_add t (p_total_votes x.2)) (awarded_platforms d) 0 in
  let n := Z.of_nat (length platforms) in
  if 0 <? n then
    value ← per_period (total_platform_voted_award_amount p) (last_platform_voted_award_time (dgp d))
              (next_platform_voted_award_time (dgp d));
    x ← u128_div (u128_mul value (platform_award_basic_rate p)) PERCENT_100;
    let basic := u128_to_i64 x in
    average ← safe_div basic n;
    let m := fold_left (fun m x => fm_emplace x.1 average m) platforms [] in
    actual ← safe_mul average n;
    if 0 <? total then
      by_votes ← safe_sub (u128_to_i64 value) basic;
      awards_by_votes by_votes total platforms actual m
    else Ok (m, actual)
  else Ok ([], 0).
Definition record_vote_profit (now x : Z) (p : platform_object) : result platform_object :=
  m ← (if latest_periods <=? Z.of_nat (length (vote_profits p))
       then match vote_profits p with _ :: m => Ok m | [] => Throw undefined_behaviour end
       else Ok (vote_profits p));
  Ok (p <| vote_profits := fm_emplace now x m |>).
Definition pay_platform_award (uid x : Z) : M unit :=
  adjust_balance uid (Asset x CORE_ASSET_AID) ;;
  d ← get;
  p ← lift (get_platform_by_owner d uid);
  p' ← lift (record_vote_profit (head_block_time d) x p);
  modify_platform uid (fun _ => p').
Definition process_platform_voted_awards : M unit :=
  d ← get;
  let p := extension_parameters (params d) in
  let now := head_block_time d in
  let next := next_platform_voted_award_time (dgp d) in
  when (next <=? now)
    (if (0 <? total_platform_voted_award_amount p) && (0 <? platform_award_interval p) then
       can ← lift (can_award_votes d);
       actual ← (if (0 <? next) && (can : bool) then
                   '(m, actual) ← lift (voted_awards d);
                   mfor (fun x => pay_platform_award x.1 x.2) m ;;
                   mret actual
                 else mret 0);
       modify_dgp (fun g => take_awards actual (g <| last_platform_voted_award_time := now |>
         <| next_platform_voted_award_time := time_add now (platform_award_interval p) |>))
     else when (negb (next =? 0))
       (modify_dgp (fun g => Ok (g <| last_platform_voted_award_time := 0 |> <| next_platform_voted_award_time := 0 |>)))).
End ops.
End awards.
