(* ===== verification/Proposal.v ===== *)
(** * Proposals (proposal_evaluator.cpp, proposal_object.cpp, protocol/proposal.cpp)

    Somebody proposes a transaction; those whose authority it needs approve it one by
    one.  Once the approvals suffice the operations are executed as if signed; at
    the latest when the proposal expires, after which it is gone.  A proposal may
    hold any operation, also those on proposals, so executing one can make, approve
    and execute others: [apply_operation] is recursive, and [n] bounds how deep.

    The operations of the other components and the fee schedule are the interface
    [Evaluators]. *)
From S2P Require Import Prelude FlatMap FcInt Authority Asset Pledge ChainState.
From S2P Require Import Voter Balance Fee BlockUpdate.
Local Open Scope Z_scope.
Import auth asset pledge chain voter balance fee.

Module proposals.

Notation HARDFORK_0_3_1_TIME := 2100000000.
(** [maximum_proposal_lifetime], which is not among the members of the parameters
    that are stored or can be updated, and keeps its default. *)
Definition MAX_PROPOSAL_LIFETIME : Z := 2419200.

Record proposal_update_operation := {
  pq_fee_paying_account : Z;
  pq_fee : fee_type;
  pq_proposal : Z;
  secondary_approvals_to_add : flat_set Z;
  secondary_approvals_to_remove : flat_set Z;
  active_approvals_to_add : flat_set Z;
  active_approvals_to_remove : flat_set Z;
  owner_approvals_to_add : flat_set Z;
  owner_approvals_to_remove : flat_set Z;
  key_approvals_to_add : flat_set Z;
  key_approvals_to_remove : flat_set Z;
}.
Record proposal_delete_operation := { pd_fee_paying_account : Z; pd_fee : fee_type; pd_proposal : Z }.

(** The operations: those of the other components, and those on proposals. *)
Inductive operation (B : Type) : Type :=
| basic (o : B)
| proposal_create (fee_paying_account : Z) (fee : fee_type) (expiration_time : Z)
    (proposed_ops : list (operation B)) (review_period_seconds : option Z)
| proposal_update (op : proposal_update_operation)
| proposal_delete (op : proposal_delete_operation).
Arguments basic {_}.
Arguments proposal_create {_}.
Arguments proposal_update {_}.
Arguments proposal_delete {_}.

(** What the other components promise about their operations: who pays, with which
    fee, what [validate] checks, which authorities are required, and what the
    evaluator does with the signatures that were verified. *)
Class Evaluators (B : Type) := {
  basic_payer : B -> Z;
  basic_fee : B -> fee_type;
  basic_validate : B -> result unit;
  basic_required : bool -> B -> required -> required;
  basic_apply : signed_information -> B -> M database unit;
}.

Section objects.
Context {B : Type}.
Record proposal_object := {
  expiration_time : Z;
  review_period_time : option Z;
  proposed_transaction : list (operation B);
  required_secondary_approvals : gset Z;
  available_secondary_approvals : gset Z;
  required_active_approvals : gset Z;
  available_active_approvals : gset Z;
  required_owner_approvals : gset Z;
  available_owner_approvals : gset Z;
  available_key_approvals : gset Z;
}.
(** The database together with the index of proposals, by their ids. *)
Record chain_state := { base : database; pending : gmap Z proposal_object; next_proposal_id : Z }.
#[global] Instance chain_state_fields : Fields chain_state :=
  of_ctor Build_chain_state <*> base <*> pending <*> next_proposal_id.
End objects.
Arguments proposal_object : clear implicits.
Arguments chain_state : clear implicits.

Section ops.
Context {F : FcInt} {C : ChainConfig} {B : Type} {E : Evaluators B}.
Variable is_valid_uid : Z -> bool.
(** [GRAPHENE_TEMP_ACCOUNT_UID] and [GRAPHENE_COMMITTEE_ACCOUNT_UID]. *)
Variables TEMP_ACCOUNT_UID COMMITTEE_ACCOUNT_UID : Z.
(** The fee the schedule asks for an operation, and the part of it due in coins. *)
Variable fee_required : operation B -> database -> result (Z * Z).
#[local] Notation M := (M (chain_state B)).
#[local] Notation operation := (operation B).
#[local] Notation proposal_object := (proposal_object B).

(** ** Validation and fees *)
Definition disjoint_sets (l l' : flat_set Z) : bool := forallb (fun a => bool_decide (a ∉ l')) l.
Definition validate_proposal_update (op : proposal_update_operation) : result unit :=
  validate_op_fee (pq_fee op) ;;
  guard_ok (is_valid_uid (pq_fee_paying_account op)) assert_exception ;;
  guard_ok (existsb (fun l => negb (length l =? 0)%nat)
    [secondary_approvals_to_add op; secondary_approvals_to_remove op; active_approvals_to_add op;
     active_approvals_to_remove op; owner_approvals_to_add op; owner_approvals_to_remove op;
     key_approvals_to_add op; key_approvals_to_remove op]) assert_exception ;;
  guard_ok (disjoint_sets (secondary_approvals_to_add op) (secondary_approvals_to_remove op)) assert_exception ;;
  guard_ok (disjoint_sets (active_approvals_to_add op) (active_approvals_to_remove op)) assert_exception ;;
  guard_ok (disjoint_sets (owner_approvals_to_add op) (owner_approvals_to_remove op)) assert_exception ;;
  guard_ok (disjoint_sets (key_approvals_to_add op) (key_approvals_to_remove op)) assert_exception.
Definition validate_proposal_delete (op : proposal_delete_operation) : result unit :=
  validate_op_fee (pd_fee op) ;;
  guard_ok (is_valid_uid (pd_fee_paying_account op)) assert_exception.
(** [operation_validate]. *)
Fixpoint operation_validate (o : operation) : result unit :=
  match o with
  | basic b => basic_validate b
  | proposal_create payer fee _ l _ =>
      validate_op_fee fee ;;
      guard_ok (is_valid_uid payer) assert_exception ;;
      guard_ok (negb (length l =? 0)%nat) assert_exception ;;
      (fix go (l : list operation) : result unit :=
         match l with [] => Ok tt | o :: l' => operation_validate o ;; go l' end) l
  | proposal_update op => validate_proposal_update op
  | proposal_delete op => validate_proposal_delete op
  end.
(** [calculate_fee] of [proposal_create] and [proposal_update], by the packed size. *)
Definition proposal_fee (fee price_per_kbyte size : Z) : result Z :=
  x ← calculate_data_fee size price_per_kbyte; safe_add (i64 fee) (i64 x).

(** ** Required authorities *)
Definition insert_all (l : list Z) (s : flat_set Z) : flat_set Z := fold_left (fun s x => fs_insert x s) l s.
(** The fee can be paid with any of these authorities of the payer. *)
Definition require_fee (payer : Z) (fee : fee_type) (r : required) : required :=
  match fee_authorities fee with
  | None => r
  | Some l =>
      {| req_owner := req_owner r; req_active := req_active r; req_secondary := req_secondary r;
         req_other := req_other r ++
           [Authority 1 ((fun t => (payer, match t with
                                           | fee.owner_auth => auth.owner_auth
                                           | fee.active_auth => auth.active_auth
                                           | fee.secondary_auth => auth.secondary_auth
                                           end, 1)) <$> l) []] |}
  end.
Definition require_payer (enabled_hardfork : bool) (payer : Z) (s : flat_set Z) : flat_set Z :=
  if enabled_hardfork then fs_insert payer s else s.
(** [proposal_update_operation::get_required_authorities]. *)
Definition key_authority (op : proposal_update_operation) : list authority :=
  let m := fold_left (fun m k => fm_set k 1 m) (key_approvals_to_add op ++ key_approvals_to_remove op) [] in
  if (length m =? 0)%nat then [] else [Authority (u32 (Z.of_nat (length m))) [] m].
(** [operation_get_required_uid_authorities]. *)
Definition op_required (enabled_hardfork : bool) (o : operation) (r : required) : required :=
  match o with
  | basic b => basic_required enabled_hardfork b r
  | proposal_create payer fee _ _ _ =>
      require_fee payer fee
        {| req_owner := req_owner r; req_active := require_payer enabled_hardfork payer (req_active r);
           req_secondary := req_secondary r; req_other := req_other r |}
  | proposal_update op =>
      require_fee (pq_fee_paying_account op) (pq_fee op)
        {| req_owner := insert_all (owner_approvals_to_remove op) (insert_all (owner_approvals_to_add op) (req_owner r));
           req_active := require_payer enabled_hardfork (pq_fee_paying_account op)
             (insert_all (active_approvals_to_remove op) (insert_all (active_approvals_to_add op) (req_active r)));
           req_secondary := insert_all (secondary_approvals_to_remove op)
             (insert_all (secondary_approvals_to_add op) (req_secondary r));
           req_other := req_other r ++ key_authority op |}
  | proposal_delete op =>
      require_fee (pd_fee_paying_account op) (pd_fee op)
        {| req_owner := req_owner r;
           req_active := require_payer enabled_hardfork (pd_fee_paying_account op) (req_active r);
           req_secondary := req_secondary r; req_other := req_other r |}
  end.
Definition hardfork_04 (d : database) : bool := HEAD_FORK_04 <=? hardfork d.

(** ** [proposal_create] *)
Definition auths_of (d : database) (uid : Z) : option account_auths :=
  (fun a => {| acc_uid := uid; acc_owner := a_owner a; acc_active := a_active a; acc_secondary := a_secondary a |})
    <$> accounts d !! uid.
(** Whether every account that [get_authority_uid] visits exists: it throws
    otherwise. *)
Fixpoint all_known (d : database) (n : nat) (a : authority) : bool :=
  forallb (fun x =>
    match n with
    | O => true
    | S n' => match auths_of d x.1.1 with
              | None => false
              | Some acc => all_known d n' (match x.1.2 with
                                            | auth.secondary_auth => acc_secondary acc
                                            | auth.active_auth => acc_active acc
                                            | auth.owner_auth => acc_owner acc
                                            end)
              end
    end) (account_uid_auths a).
Fixpoint collect (d : database) (uids : list Z) (out : auth_uids) : result auth_uids :=
  match uids with
  | [] => Ok out
  | uid :: uids' =>
      acc ← deref (auths_of d uid) assert_exception;
      guard_ok (all_known d 2 (acc_owner acc) && all_known d 2 (acc_active acc) && all_known d 2 (acc_secondary acc))
        assert_exception ;;
      collect d uids' (get_authority_uid (auths_of d) uid out)
  end.
Fixpoint validate_all (l : list operation) : result unit :=
  match l with [] => Ok tt | o :: l' => operation_validate o ;; validate_all l' end.
Definition create_evaluate (exp : Z) (l : list operation) (review : option Z) (d : database) : result auth_uids :=
  let now := head_block_time d in
  guard_ok (HARDFORK_0_3_1_TIME <=? now) assert_exception ;;
  guard_ok (now <? exp) assert_exception ;;
  guard_ok (exp <=? time_add now MAX_PROPOSAL_LIFETIME) assert_exception ;;
  guard_ok (if_present (fun r => r <? exp - now) review) assert_exception ;;
  guard_ok (negb (length l =? 0)%nat) assert_exception ;;
  validate_all l ;;
  let r := get_required_uid_authorities op_required (hardfork_04 d) l in
  let owner : gset Z := list_to_set (req_owner r) in
  let active : gset Z := list_to_set (req_active r) ∖ owner in
  let secondary : gset Z := list_to_set (req_secondary r) ∖ active in
  out ← collect d (elements owner)
          {| owner_auth_uid := owner; active_auth_uid := active; secondary_auth_uid := secondary |};
  out ← collect d (elements (active_auth_uid out)) out;
  collect d (elements (secondary_auth_uid out)) out.
Definition new_proposal (exp : Z) (l : list operation) (review : option Z) (out : auth_uids) : proposal_object :=
  {| expiration_time := exp; review_period_time := (fun r => u32 (exp - r)) <$> review; proposed_transaction := l;
     required_secondary_approvals := secondary_auth_uid out; available_secondary_approvals := ∅;
     required_active_approvals := active_auth_uid out; available_active_approvals := ∅;
     required_owner_approvals := owner_auth_uid out; available_owner_approvals := ∅;
     available_key_approvals := ∅ |}.
Definition create (exp : Z) (l : list operation) (review : option Z) : M unit :=
  s ← get;
  out ← lift (create_evaluate exp l review (base s));
  upd (fun s => s <| pending ::= <[next_proposal_id s := new_proposal exp l review out]> |>
                  <| next_proposal_id ::= Z.succ |>).

(** ** [proposal_update] *)
Definition get_proposal (s : chain_state B) (id : Z) : result proposal_object :=
  deref (pending s !! id) assert_exception.
Definition all_in (l : flat_set Z) (g : gset Z) : bool := forallb (fun uid => bool_decide (uid ∈ g)) l.
Definition update_evaluate (op : proposal_update_operation) (s : chain_state B) : result proposal_object :=
  guard_ok (HARDFORK_0_3_1_TIME <=? head_block_time (base s)) assert_exception ;;
  p ← get_proposal s (pq_proposal op);
  guard_ok (negb (if_present (fun t => t <=? head_block_time (base s)) (review_period_time p) && some (review_period_time p)) ||
            ((length (active_approvals_to_add op) =? 0)%nat && (length (owner_approvals_to_add op) =? 0)%nat &&
             (length (secondary_approvals_to_add op) =? 0)%nat)) assert_exception ;;
  guard_ok (all_in (secondary_approvals_to_remove op) (available_secondary_approvals p)) assert_exception ;;
  guard_ok (all_in (active_approvals_to_remove op) (available_active_approvals p)) assert_exception ;;
  guard_ok (all_in (owner_approvals_to_remove op) (available_owner_approvals p)) assert_exception ;;
  Ok p.
Definition approvals (old : gset Z) (to_add to_remove : flat_set Z) : gset Z :=
  (old ∪ list_to_set to_add) ∖ list_to_set to_remove.
Definition updated (op : proposal_update_operation) (p : proposal_object) : proposal_object :=
  {| expiration_time := expiration_time p; review_period_time := review_period_time p;
     proposed_transaction := proposed_transaction p;
     required_secondary_approvals := required_secondary_approvals p;
     available_secondary_approvals := approvals (available_secondary_approvals p)
       (secondary_approvals_to_add op) (secondary_approvals_to_remove op);
     required_active_approvals := required_active_approvals p;
     available_active_approvals := approvals (available_active_approvals p)
       (active_approvals_to_add op) (active_approvals_to_remove op);
     required_owner_approvals := required_owner_approvals p;
     available_owner_approvals := approvals (available_owner_approvals p)
       (owner_approvals_to_add op) (owner_approvals_to_remove op);
     available_key_approvals := approvals (available_key_approvals p)
       (key_approvals_to_add op) (key_approvals_to_remove op) |}.

(** [proposal_object::is_authorized_to_execute]: the signatures, if the approvals
    suffice.  The accessors throw for an account that does not exist; the
    authorities of accounts name accounts that do. *)
Definition is_authorized_to_execute (d : database) (p : proposal_object) : option signed_information :=
  match verify_authority TEMP_ACCOUNT_UID COMMITTEE_ACCOUNT_UID op_required
          (fun uid => a_owner <$> accounts d !! uid) (fun uid => a_active <$> accounts d !! uid)
          (fun uid => a_secondary <$> accounts d !! uid)
          (proposed_transaction p) (gset_to_gmap tt (available_key_approvals p)) (hardfork_04 d)
          (Z.to_nat (max_authority_depth (params d))) true
          (elements (available_owner_approvals p)) (elements (available_active_approvals p))
          (elements (available_secondary_approvals p)) with
  | Ok sigs => Some sigs
  | Throw _ => None
  end.

(** What no handler catches. *)
Definition fatal (e : exn) : bool :=
  bool_decide (e = undefined_behaviour) || bool_decide (e = stack_overflow) || bool_decide (e = out_of_fuel).
(** [try { m } catch( const fc::exception& )] around an undo session: whether [m]
    returned. *)
Definition attempt (m : M unit) : M bool := fun s =>
  match m s with
  | Ok (_, s') => Ok (true, s')
  | Throw e => if fatal e then Throw e else Ok (false, s)
  end.
Definition update (push : Z -> signed_information -> M unit) (op : proposal_update_operation) : M unit :=
  s ← get;
  p ← lift (update_evaluate op s);
  upd (fun s => s <| pending ::= <[pq_proposal op := updated op p]> |>) ;;
  if some (review_period_time p) then mret tt
  else
    s ← get;
    match is_authorized_to_execute (base s) (updated op p) with
    | None => mret tt
    | Some sigs => _ ← attempt (push (pq_proposal op) sigs); mret tt
    end.

(** ** [proposal_delete] *)
Definition remove (id : Z) : M unit := upd (fun s => s <| pending ::= delete id |>).
Definition delete_proposal (op : proposal_delete_operation) : M unit :=
  s ← get;
  fc_assert (HARDFORK_0_3_1_TIME <=? head_block_time (base s)) ;;
  p ← lift (get_proposal s (pd_proposal op));
  fc_assert (bool_decide (pd_fee_paying_account op ∈ required_owner_approvals p) ||
             bool_decide (pd_fee_paying_account op ∈ required_active_approvals p) ||
             bool_decide (pd_fee_paying_account op ∈ required_secondary_approvals p)) ;;
  remove (pd_proposal op).

(** ** Execution *)
Definition on_base {A} (m : Prelude.M database A) : M A := fun s =>
  match m (base s) with Ok (a, d) => Ok (a, s <| base := d |>) | Throw e => Throw e end.
(** [run_evaluator], for an operation on the database with its proposals. *)
Definition with_fee (st : eval_state) (o : operation) (payer : Z) (fee : fee_type) (op : M unit) : M unit :=
  s ← get;
  p ← lift (prepare_fee payer fee (base s));
  lift (check_fee st (fee_required o (base s)) p) ;;
  op ;;
  on_base (take_fee st payer p).
Definition payer_of (o : operation) : Z :=
  match o with
  | basic b => basic_payer b
  | proposal_create payer _ _ _ _ => payer
  | proposal_update op => pq_fee_paying_account op
  | proposal_delete op => pd_fee_paying_account op
  end.
Definition fee_of (o : operation) : fee_type :=
  match o with
  | basic b => basic_fee b
  | proposal_create _ fee _ _ _ => fee
  | proposal_update op => pq_fee op
  | proposal_delete op => pd_fee op
  end.
(** The loop over the operations of the proposal [id], which lie in the proposal
    object itself: once it is removed they are gone. *)
Fixpoint run_proposed (apply : signed_information -> operation -> M unit) (sigs : signed_information) (id : Z)
    (l : list operation) : M unit :=
  match l with
  | [] => mret tt
  | o :: l' =>
      apply sigs o ;;
      s ← get;
      lift (deref (pending s !! id) undefined_behaviour) ;;
      run_proposed apply sigs id l'
  end.
Definition push_with (apply : signed_information -> operation -> M unit) (id : Z) (sigs : signed_information) : M unit :=
  s ← get;
  p ← lift (deref (pending s !! id) undefined_behaviour);
  run_proposed apply sigs id (proposed_transaction p) ;;
  remove id.
Definition proposed_state : eval_state := {| skip_fee := false; skip_fee_schedule_check := false |}.
(** [database::apply_operation], nested at most [n] deep in proposals. *)
Fixpoint apply_operation (n : nat) (st : eval_state) (sigs : signed_information) (o : operation) : M unit :=
  with_fee st o (payer_of o) (fee_of o)
    match o with
    | basic b => on_base (basic_apply sigs b)
    | proposal_create _ _ exp l review => create exp l review
    | proposal_update op =>
        update (fun id sigs => match n with
                               | O => throw stack_overflow
                               | S n' => push_with (apply_operation n' proposed_state) id sigs
                               end) op
    | proposal_delete op => delete_proposal op
    end.
(** [database::push_proposal]. *)
Definition push_proposal (n : nat) (id : Z) (sigs : signed_information) : M unit :=
  push_with (apply_operation n proposed_state) id sigs.

(** ** Expiry (db_update.cpp, [clear_expired_proposals]) *)
Definition next_expired (s : chain_state B) : option (Z * proposal_object) :=
  front (fun x => [expiration_time x.2; x.1]) (fun x => expiration_time x.2 <=? head_block_time (base s))
    (map_to_list (pending s)).
Definition expire (n : nat) (x : Z * proposal_object) : M unit :=
  s ← get;
  executed ← match is_authorized_to_execute (base s) x.2 with
             | Some sigs => attempt (push_proposal n x.1 sigs)
             | None => mret false
             end;
  when (negb executed) (remove x.1).
Definition clear_expired_proposals (n : nat) : M unit :=
  s ← get;
  drain (size (pending s)) next_expired (expire n).

(** ** The index by required approvals *)
Notation approval_index := (gmap Z (gset Z)).
Definition index_add (id a : Z) (m : approval_index) : approval_index := <[a := {[ id ]} ∪ default ∅ (m !! a)]> m.
Definition index_remove (id a : Z) (m : approval_index) : approval_index :=
  match m !! a with
  | Some ids => if bool_decide (ids ∖ {[ id ]} = ∅) then delete a m else <[a := ids ∖ {[ id ]}]> m
  | None => m
  end.
Definition approvers (p : proposal_object) : list Z :=
  elements (required_secondary_approvals p) ++ elements (required_active_approvals p) ++
  elements (required_owner_approvals p) ++ elements (available_secondary_approvals p) ++
  elements (available_active_approvals p) ++ elements (available_owner_approvals p).
Definition object_inserted (id : Z) (p : proposal_object) (m : approval_index) : approval_index :=
  fold_left (fun m a => index_add id a m) (approvers p) m.
Definition object_removed (id : Z) (p : proposal_object) (m : approval_index) : approval_index :=
  fold_left (fun m a => index_remove id a m) (approvers p) m.
End ops.
End proposals.
