(* ===== verification/BlockProof.v ===== *)
(** * Working off what is due

    The loops of a block come to an end with nothing due left, the irreversible
    block only moves to where three quarters of the active witnesses are, and
    the books stay balanced. *)
From S2P Require Import Prelude FlatMap FcInt Asset Pledge ChainState.
From S2P Require Import AccountStats Voter WitnessSchedule Balance Transfer Market.
From S2P Require Import Payroll Mining WitnessOps BlockUpdate Frame.
From S2P Require Import MapSum Ledger Treasury VoterProof.
Local Open Scope Z_scope.
Import asset pledge chain acc voter schedule balance transfer market payroll mining witness_ops.
Import updates.

(** ** Loops over an index *)
Section drain.
Context {S A : Type} (next : S -> option A) (body : A -> M S unit).

(** [rounds n s s']: [n] times there was a next one and the body returned. *)
Inductive rounds : nat -> S -> S -> Prop :=
| rounds_done s : rounds 0 s s
| rounds_next n s x u s1 s2 :
    next s = Some x -> body x s = Ok (u, s1) -> rounds n s1 s2 -> rounds (Datatypes.S n) s s2.

Lemma drain_rel (R : S -> S -> Prop) (P : S -> Prop) n s u s' :
  (forall s, R s s) -> (forall s1 s2 s3, R s1 s2 -> R s2 s3 -> R s1 s3) ->
  (forall x s u s', P s -> next s = Some x -> body x s = Ok (u, s') -> R s s' /\ P s') ->
  P s -> drain n next body s = Ok (u, s') -> R s s'.
Proof.
  intros Hrefl Htrans Hb. revert s. induction n as [|n IH]; intros s HP; cbn [drain];
    destruct (next s) as [x|] eqn:E; try done; try by intros [= _ <-].
  intros H. step H as u1 s1 H1. destruct (Hb _ _ _ _ HP E H1) as [HR HP1].
  eapply Htrans; [exact HR|]. by apply IH.
Qed.
(** A loop whose body lowers a measure does not run out of fuel: after some
    rounds, no more than the measure, there is no next one, or the body throws. *)
Lemma drain_rounds (P : S -> Prop) (mu : S -> nat) n s :
  (forall x s, P s -> next s = Some x -> (0 < mu s)%nat) ->
  (forall x s u s', P s -> next s = Some x -> body x s = Ok (u, s') -> P s' /\ (mu s' < mu s)%nat) ->
  P s -> (mu s <= n)%nat ->
  exists k s1, (k <= mu s)%nat /\ rounds k s s1 /\
    match drain n next body s with
    | Ok (_, s') => s' = s1 /\ next s' = None
    | Throw e => exists x, next s1 = Some x /\ body x s1 = Throw e
    end.
Proof.
  intros Hpos Hb. revert s. induction n as [|n IH]; intros s HP Hn; cbn [drain];
    destruct (next s) as [x|] eqn:E; try by (exists 0%nat, s; split_and!; [lia|constructor|done|done]).
  - specialize (Hpos _ _ HP E). lia.
  - unfold mbind, M_bind. destruct (body x s) as [[u s1]|e1] eqn:Eb; cbn.
    + destruct (Hb _ _ _ _ HP E Eb) as [HP1 Hlt]. destruct (IH s1 HP1 ltac:(lia)) as (k & s2 & Hk & Hr & Hd).
      exists (Datatypes.S k), s2. split_and!; [lia|by econstructor|done].
    + exists 0%nat, s. split_and!; [lia|constructor|by exists x].
Qed.
End drain.

(** ** The front of an index *)
Lemma front_elem {A} (key : A -> list Z) due l x : front key due l = Some x -> x ∈ l /\ due x = true.
Proof.
  unfold front. destruct (ordered key l) as [|y l'] eqn:E; [done|]. destruct (due y) eqn:Ed; [|done].
  intros [= ->]. split; [|done]. unfold ordered in E. rewrite <- (merge_sort_Permutation (key_le key) l), E. left.
Qed.

(** When the first one is not due, whoever is due by the first component of the
    key comes after one that is as early but not wanted. *)
Lemma ordered_first {A} (key : A -> list Z) (first : A -> Z) l y l' :
  (forall x, exists rest, key x = first x :: rest) -> ordered key l = y :: l' ->
  y ∈ l /\ forall x, x ∈ l -> first y <= first x.
Proof.
  intros Hkey E. unfold ordered in E. pose proof (merge_sort_Permutation (key_le key) l) as Hp. rewrite E in Hp.
  assert (Total (key_le key)) as HT.
  { intros a b. unfold key_le. generalize (key a) (key b). clear. intros l. induction l as [|x l IH]; intros [|y m]; cbn; auto.
    destruct (IH m) as [-> | ->]; destruct (Z.ltb_spec x y), (Z.ltb_spec y x), (Z.eqb_spec x y), (Z.eqb_spec y x); cbn; auto; lia. }
  pose proof (Sorted_merge_sort (key_le key) l) as Hs. rewrite E in Hs.
  assert (StronglySorted (fun a b => first a <= first b) (y :: l')) as Hss.
  { apply Sorted_StronglySorted; [intros a b c ? ?; lia|]. revert Hs. generalize (y :: l'). clear -Hkey. intros m.
    induction 1 as [|a m Hm IH Hd]; constructor; [done|]. destruct Hd as [|b m Hab]; constructor.
    unfold key_le in Hab. destruct (Hkey a) as [ra Ea], (Hkey b) as [rb Eb]. rewrite Ea, Eb in Hab. cbn in Hab.
    destruct (Z.ltb_spec (first a) (first b)); [lia|]. destruct (Z.eqb_spec (first a) (first b)); [lia|done]. }
  split; [rewrite <- Hp; left|]. intros x Hx. rewrite <- Hp in Hx. apply StronglySorted_inv in Hss as [_ Hall].
  rewrite Forall_forall in Hall. apply elem_of_cons in Hx as [->|Hx]; [lia|by apply Hall].
Qed.
Lemma front_waits {A} (key : A -> list Z) (first : A -> Z) (wanted : A -> bool) due bound l :
  (forall x, exists rest, key x = first x :: rest) -> (forall x, due x = (first x <=? bound) && wanted x) ->
  front key due l = None ->
  forall x, x ∈ l -> first x <= bound -> exists y, y ∈ l /\ first y <= first x /\ wanted y = false.
Proof.
  intros Hkey Hdue Hf x Hx Hb. unfold front in Hf. destruct (ordered key l) as [|y l'] eqn:E.
  - unfold ordered in E. pose proof (merge_sort_Permutation (key_le key) l) as Hp. rewrite E in Hp.
    apply Permutation_nil in Hp. subst l. by apply elem_of_nil in Hx.
  - destruct (ordered_first key first l y l' Hkey E) as [Hy Hle]. specialize (Hle x Hx).
    destruct (due y) eqn:Ed; [done|]. rewrite Hdue in Ed. exists y. split_and!; [done..|].
    rewrite (proj2 (Z.leb_le (first y) bound)) in Ed by lia. done.
Qed.
(** An index without unwanted objects. *)
Lemma front_all_later {A} (key : A -> list Z) (first : A -> Z) bound l :
  (forall x, exists rest, key x = first x :: rest) ->
  front key (fun x => first x <=? bound) l = None -> forall x, x ∈ l -> bound < first x.
Proof.
  intros Hkey Hf x Hx. destruct (Z.le_gt_cases (first x) bound) as [Hle|]; [|done].
  destruct (front_waits key first (fun _ => true) _ bound l Hkey (fun x => eq_sym (andb_true_r _)) Hf x Hx Hle)
    as (_ & _ & _ & [=]).
Qed.

(** How many objects of a map are due. *)
Definition due_count {K A} `{Countable K} (due : A -> bool) (m : gmap K A) : nat :=
  size (filter (fun x => due x.2 = true) m).
Section due_count.
Context {K A : Type} `{Countable K} (due : A -> bool).
Lemma due_count_pos (m : gmap K A) k a : m !! k = Some a -> due a = true -> (0 < due_count due m)%nat.
Proof.
  intros Hm Hd. unfold due_count. assert (filter (fun x => due x.2 = true) m !! k = Some a) as E
    by by apply map_lookup_filter_Some.
  assert (size (filter (fun x => due x.2 = true) m) <> 0%nat); [|lia].
  intros E0%map_size_empty_inv. by rewrite E0 in E.
Qed.
Lemma due_count_le (m : gmap K A) : (due_count due m <= size m)%nat.
Proof. apply map_subseteq_size, map_filter_subseteq. Qed.
Lemma due_count_delete (m : gmap K A) k a :
  m !! k = Some a -> due a = true -> (due_count due (delete k m) < due_count due m)%nat.
Proof.
  intros Hm Hd. pose proof (due_count_pos m k a Hm Hd). unfold due_count in *.
  rewrite map_filter_delete, map_size_delete_Some; [lia|by exists a; apply map_lookup_filter_Some].
Qed.
Lemma due_count_insert (m : gmap K A) k a a' :
  m !! k = Some a -> due a = true -> due a' = false -> (due_count due (<[k := a']> m) < due_count due m)%nat.
Proof.
  intros Hm Hd Hd'. pose proof (due_count_delete m k a Hm Hd). unfold due_count in *.
  rewrite map_filter_insert_False by (cbn; congruence). by rewrite map_filter_delete in *.
Qed.
(** Only the attribute [f] decides. *)
Lemma due_count_fmap {B} (f : A -> B) (due' : B -> bool) (m m' : gmap K A) :
  (forall a, due a = due' (f a)) -> f <$> m' = f <$> m -> due_count due m' = due_count due m.
Proof.
  intros Hf Hm. assert (forall m : gmap K A, due_count due m = due_count due' (f <$> m)) as E.
  { intros m0. unfold due_count. rewrite map_filter_fmap, map_size_fmap. f_equal.
    apply map_filter_ext. intros i x _. cbn. by rewrite Hf. }
  by rewrite !E, Hm.
Qed.
End due_count.

(** ** What no loop changes

    Parts that neither voting nor statistics and balances touch. *)
Class QuietFrame {X} (p : database -> X) : Prop := {
  qf_voting :: VotingFrame p;
  qf_stats d f : p (d <| stats ::= f |>) = p d;
  qf_balances d f : p (d <| balances ::= f |>) = p d;
}.
Section quiet.
Context {F : FcInt} {C : ChainConfig} {X : Type} (p : database -> X) {Q : QuietFrame p}.
Lemma keeps_stats uid f : keeps p (modify_stats uid f).
Proof. intros d u d' H. apply modify_stats_ok in H as (s & s' & _ & _ & ->). apply qf_stats. Qed.
Lemma quiet_adjust_balance acc a : keeps p (adjust_balance acc a).
Proof.
  unfold adjust_balance, adjust_core. keep; try apply keeps_stats.
  - intros d u d' H. unfold adjust_balance_object in H.
    destruct (balances d !! _); inv_ok; apply qf_balances.
  - apply keeps_check_core_debit, _.
  - apply keeps_refresh_votes, _.
Qed.
Lemma keeps_lease acc f : keeps p (lease_core acc f).
Proof. unfold lease_core. keep. apply keeps_stats. Qed.
End quiet.

(** The parameters, the clock and the replaced witnesses. *)
Definition clock (d : database) := (params d, dgp d, replaced_witnesses d, replaced_platforms d).
#[export] Instance clock_limit_orders : QuietFrame (fun d => (clock d, limit_orders d)).
Proof. by repeat split. Qed.
#[export] Instance clock_leases : QuietFrame (fun d => (clock d, csaf_leases d)).
Proof. by repeat split. Qed.
#[export] Instance clock_pledges : QuietFrame (fun d => (clock d, pledge_balances d)).
Proof. by repeat split. Qed.
#[export] Instance clock_voting : VotingFrame clock.
Proof. by repeat split. Qed.

(** The block numbers of updates do not run past 32 bits, updates are in the
    future, a witness that was replaced is invalid and under its sequence, and so is a
    platform that was replaced. *)
Record clock_ok (d : database) : Prop := {
  co_votes : 0 < governance_votes_update_interval (params d);
  co_pledge : 0 < witness_avg_pledge_update_interval (params d);
  co_platform : 0 < platform_avg_pledge_update_interval (params d);
  co_head : 0 <= head_block_num d /\ head_block_num d + Z.max (governance_votes_update_interval (params d))
              (Z.max (witness_avg_pledge_update_interval (params d))
                     (platform_avg_pledge_update_interval (params d))) < NEVER;
  co_replaced : forall k w, replaced_witnesses d !! k = Some w ->
    w_is_valid w = false /\ k.2 = w_sequence w;
  co_platforms : forall k p, replaced_platforms d !! k = Some p -> p_is_valid p = false;
}.
Lemma clock_ok_same d d' : clock d' = clock d -> clock_ok d -> clock_ok d'.
Proof.
  unfold clock. intros [= Hp Hg Hr Hf] [C1 C2 C3 C4 C5 C6]. unfold head_block_num in *.
  split; unfold head_block_num; rewrite ?Hp, ?Hg, ?Hr, ?Hf; done.
Qed.

(** A loop ends after at most [bound] rounds, in a state in which nothing is due,
    or with the exception its body threw in the state those rounds led to. *)
Definition ends {A} (loop : M database unit) (next : database -> option A) (body : A -> M database unit)
    (bound : database -> nat) (nothing_due : database -> Prop) (d : database) : Prop :=
  exists n d1, (n <= bound d)%nat /\ rounds next body n d d1 /\
    match loop d with
    | Ok (_, d') => d' = d1 /\ nothing_due d'
    | Throw e => exists x, next d1 = Some x /\ body x d1 = Throw e
    end.
Definition finishes {A} (loop : M database unit) (next : database -> option A) (body : A -> M database unit)
    (bound : database -> nat) : Prop :=
  forall d, clock_ok d -> ends loop next body bound (fun d' => next d' = None) d.
Lemma ends_when {A} loop (next : database -> option A) body bound (P Q : database -> Prop) d :
  (forall d', P d' -> Q d') -> ends loop next body bound P d -> ends loop next body bound Q d.
Proof.
  intros HPQ (n & d1 & Hn & Hr & H). exists n, d1. split_and!; [done..|].
  destruct (loop d) as [[u d']|e]; [|done]. destruct H. auto.
Qed.
(** It does so if every call leaves the clock alone and lowers the number of due objects. *)
Lemma drain_finishes {A} (next : database -> option A) body (mu size : database -> nat) :
  (forall d, (mu d <= size d)%nat) ->
  (forall x d, clock_ok d -> next d = Some x -> (0 < mu d)%nat) ->
  (forall x d u d', clock_ok d -> next d = Some x -> body x d = Ok (u, d') ->
     clock d' = clock d /\ (mu d' < mu d)%nat) ->
  finishes (n ← gets size; drain n next body) next body size.
Proof.
  intros Hsize Hpos Hb d Hd. unfold ends. unfold mbind at 1, M_bind at 1, gets at 1. cbn [fst snd].
  destruct (drain_rounds next body clock_ok mu (size d) d) as (k & d1 & Hk & Hr & H); [eauto| |done|apply Hsize|].
  - intros x d2 u d3 Hd2 Hx H. destruct (Hb _ _ _ _ Hd2 Hx H) as [Hc Hlt]. split; [|done]. by eapply clock_ok_same.
  - exists k, d1. specialize (Hsize d). split_and!; [lia|done|done].
Qed.

Section loops.
Context {F : FcInt} {FL : FcIntLaws F} {C : ChainConfig}.

(** The object at the front of a map's index is in the map and due. *)
Lemma front_map {K A} `{Countable K} (key : K * A -> list Z) (due : A -> bool) (m : gmap K A) x :
  front key (fun x => due x.2) (map_to_list m) = Some x -> m !! x.1 = Some x.2 /\ due x.2 = true.
Proof.
  intros [Hx Hd]%front_elem. split; [|done]. destruct x. by apply elem_of_map_to_list in Hx.
Qed.
(** A loop over the index of one map. *)
Lemma index_finishes {K A} `{Countable K} (m : database -> gmap K A) (key : K * A -> list Z)
    (due : database -> A -> bool) (body : K * A -> M database unit) :
  (forall d d', clock d' = clock d -> due d' = due d) ->
  (forall x d u d', clock_ok d -> m d !! x.1 = Some x.2 -> due d x.2 = true -> body x d = Ok (u, d') ->
     clock d' = clock d /\ (due_count (due d) (m d') < due_count (due d) (m d))%nat) ->
  finishes (n ← gets (fun d => size (m d));
            drain n (fun d => front key (fun x => due d x.2) (map_to_list (m d))) body)
    (fun d => front key (fun x => due d x.2) (map_to_list (m d))) body (fun d => size (m d)).
Proof.
  intros Hdue Hb. apply drain_finishes with (mu := fun d => due_count (due d) (m d)).
  - intros d. apply due_count_le.
  - intros x d _ [Hx Hd]%front_map. by eapply due_count_pos.
  - intros x d u d' Hok [Hx Hd]%front_map H1. destruct (Hb _ _ _ _ Hok Hx Hd H1) as [Hc Hlt].
    by rewrite (Hdue _ _ Hc).
Qed.
Lemma clock_time d d' : clock d' = clock d -> head_block_time d' = head_block_time d /\ head_block_num d' = head_block_num d.
Proof. unfold clock, head_block_time, head_block_num. by intros [= _ -> _]. Qed.

Lemma cancel_keeps id d u d' :
  cancel_limit_order id d = Ok (u, d') -> clock d' = clock d /\ limit_orders d' = delete id (limit_orders d).
Proof.
  intros H. unfold cancel_limit_order in H. step H as o d1 H1. step H as u2 d2 H2. step H as u3 d3 H3.
  injection H as _ <-.
  assert (clock d3 = clock d /\ limit_orders d3 = limit_orders d) as [E1 E2]; [|cbn; by rewrite E2].
  apply pair_equal_spec. transitivity (clock d2, limit_orders d2).
  { exact (quiet_adjust_balance (fun d => (clock d, limit_orders d)) _ _ _ _ _ H3). }
  transitivity (clock d1, limit_orders d1).
  - revert H2. apply (keeps_when (fun d => (clock d, limit_orders d))), keeps_stats. apply _.
  - unfold get_order in H1. apply bind_ok in H1 as (o' & _ & [= _ <-]). done.
Qed.
Lemma orders_finish :
  finishes clear_expired_limit_orders next_expired_order (fun x => cancel_limit_order x.1)
    (fun d => size (limit_orders d)).
Proof.
  refine (index_finishes limit_orders _ (fun d o => expiration o <=? head_block_time d) _ _ _).
  - intros d d' Hc. by rewrite (proj1 (clock_time _ _ Hc)).
  - intros x d u d' _ Hx Hd [Hc ->]%cancel_keeps. split; [done|]. by eapply due_count_delete.
Qed.

Lemma end_lease_keeps x d u d' :
  end_lease x d = Ok (u, d') -> clock d' = clock d /\ csaf_leases d' = delete x.1 (csaf_leases d).
Proof.
  intros H. unfold end_lease in H. step H as u1 d1 H1. step H as u2 d2 H2. injection H as _ <-.
  pose proof (keeps_lease (fun d => (clock d, csaf_leases d)) _ _ _ _ _ H1) as E1.
  pose proof (keeps_lease (fun d => (clock d, csaf_leases d)) _ _ _ _ _ H2) as E2.
  cbv beta in E1, E2. rewrite E1 in E2. apply pair_equal_spec in E2 as [E2 E3]. cbn. by rewrite E3.
Qed.
Lemma leases_finish : finishes clear_expired_csaf_leases next_expired_lease end_lease
    (fun d => size (csaf_leases d)).
Proof.
  refine (index_finishes csaf_leases _ (fun d l => l_expiration l <=? head_block_time d) _ _ _).
  - intros d d' Hc. by rewrite (proj1 (clock_time _ _ Hc)).
  - intros x d u d' _ Hx Hd [Hc ->]%end_lease_keeps. split; [done|]. by eapply due_count_delete.
Qed.
(** Nothing scheduled for later is due now. *)
Lemma later_not_due d n :
  clock_ok d -> n = NEVER \/ (exists i, n = u32 (head_block_num d + i) /\ 0 < i /\ head_block_num d + i < NEVER) ->
  (n <=? head_block_num d) = false.
Proof.
  intros [H0 _ _ [H1 H2] _ _] [->|(i & -> & Hi & Hlt)]; apply Z.leb_gt; [lia|].
  unfold u32. rewrite wrap_small by (unfold is_uint; lia). lia.
Qed.
Lemma platforms_finish :
  finishes update_average_platform_pledges next_average_platform (fun x => update_platform_avg_pledge x.1.1)
    (fun d => length (platform_index d)).
Proof.
  set (due d p := (p_average_pledge_next_update_block p <=? head_block_num d) && p_is_valid p).
  assert (forall x d, clock_ok d -> next_average_platform d = Some x ->
            platforms d !! x.1.1 = Some x.2 /\ due d x.2 = true) as Hfront.
  { intros [k p] d Hok [Hx Hd]%front_elem. split; [|done]. apply elem_of_app in Hx as [Hx|Hx%elem_of_map_to_list].
    - by apply list_elem_of_fmap in Hx as ([uid p'] & [= -> ->] & Hx%elem_of_map_to_list).
    - apply (co_platforms d Hok) in Hx. cbn in Hd. by rewrite Hx, andb_false_r in Hd. }
  apply drain_finishes with (mu := fun d => due_count (due d) (platforms d)).
  - intros d. rewrite (due_count_le (due d)). unfold platform_index, all_objects.
    rewrite length_app, length_fmap, length_map_to_list. lia.
  - intros x d Hok Hx. destruct (Hfront x d Hok Hx). by eapply due_count_pos.
  - intros x d u d' Hok Hx H. destruct (Hfront x d Hok Hx) as [Hp Hd]. unfold update_platform_avg_pledge in H.
    peel H as d0 Hg. peel H as p Hp0. apply deref_ok in Hp0. rewrite Hp in Hp0. injection Hp0 as <-.
    unfold due in Hd. apply andb_true_iff in Hd as [Hd Hv]. rewrite Hv in H. cbn [negb] in H. peel H as p' Hp'.
    injection H as _ <-. split; [done|]. eapply due_count_insert; [exact Hp|unfold due; by rewrite Hd, Hv|]. unfold due.
    rewrite (later_not_due d); [done..|]. unfold next_platform in Hp'.
    pose proof (co_platform d Hok) as Hi. pose proof (co_head d Hok) as Hh.
    repeat case_match; inv_ok; cbn; [by left..|right|right]; eexists; split; try done; lia.
Qed.

(** *** Released pledges *)
Lemma release_loop_rest m n t x m' t' x' :
  release_loop m n t x = Ok (m', t', x') -> match m' with [] => True | (k, _) :: _ => n < k end.
Proof.
  revert t x. induction m as [|[k v] m IH]; intros t x H; cbn [release_loop] in H; [by injection H as <- _ _|].
  destruct (Z.leb_spec k n).
  - apply bind_ok in H as (? & _ & H). apply bind_ok in H as (? & _ & H). apply bind_ok in H as (? & _ & H).
    by eapply IH.
  - by injection H as <- _ _.
Qed.
Lemma release_due_not_due n p delta p' :
  n < NEVER -> release_due n p = Ok (delta, p') -> (earliest_release_block_number p' <=? n) = false.
Proof.
  intros Hn H. unfold release_due in H. apply bind_ok in H as (? & _ & H).
  apply bind_ok in H as ([[m t] y] & Hl & [= _ <-]). apply release_loop_rest in Hl.
  apply Z.leb_gt. unfold earliest_release_block_number. cbn. by destruct m as [|[k v] m].
Qed.
(** What releasing does to the pledge balances and the clock. *)
Lemma remove_pledge_keeps id p d u d' :
  remove_pledge_balance id p d = Ok (u, d') ->
  clock d' = clock d /\ pledge_balances d' = delete id (pledge_balances d).
Proof.
  intros H. unfold remove_pledge_balance in H. step H as u1 d1 H1. injection H as _ <-.
  assert ((clock d1, pledge_balances d1) = (clock d, pledge_balances d)) as E.
  { destruct (is_type Mine p).
    - peel H1 as d0 Hg. peel H1 as k Hk. by injection H1 as _ <-.
    - exact (keeps_stats (fun d => (clock d, pledge_balances d)) _ _ _ _ _ H1). }
  apply pair_equal_spec in E as [E1 E2]. cbn. by rewrite E2.
Qed.
Lemma release_keeps x d u d' :
  release_pledge_balance x d = Ok (u, d') ->
  clock d' = clock d /\ exists delta p', release_due (head_block_num d) x.2 = Ok (delta, p') /\
    (pledge_balances d' = <[x.1 := p']> (pledge_balances d) \/
     pledge_balances d' = delete x.1 (<[x.1 := p']> (pledge_balances d))).
Proof.
  intros H. unfold release_pledge_balance in H. step H as u1 d1 H1.
  assert (keeps (fun d => (clock d, pledge_balances d)) (release_coin_seconds x.2)) as K1.
  { unfold release_coin_seconds. keep. apply keeps_stats. apply _. }
  apply K1 in H1. cbv beta in H1. apply pair_equal_spec in H1 as [C1 P1]. peel H as d0 Hg. peel H as r Hr.
  destruct r as [delta p']. step H as u2 d2 H2. step H as u3 d3 H3. apply (inj Ok), pair_equal_spec in H3 as [_ <-].
  assert ((clock d2, pledge_balances d2) = (clock d1, pledge_balances d1)) as E2.
  { revert H2. apply (keeps_when (fun d => (clock d, pledge_balances d))).
    keep. apply keeps_stats. apply _. }
  apply pair_equal_spec in E2 as [C2 P2]. rewrite (proj2 (clock_time _ _ C1)) in Hr.
  destruct (_ && _); cbn [when] in H.
  - apply remove_pledge_keeps in H as [C3 P3]. split; [rewrite C3; by rewrite <- C1, <- C2|].
    exists delta, p'. split; [done|]. right. rewrite P3. cbn. by rewrite P2, P1.
  - injection H as _ <-. split; [by rewrite <- C1, <- C2|]. exists delta, p'. split; [done|]. left. cbn. by rewrite P2, P1.
Qed.
Lemma releases_finish : finishes process_pledge_balance_release next_release release_pledge_balance
    (fun d => size (pledge_balances d)).
Proof.
  refine (index_finishes pledge_balances _ (fun d p => earliest_release_block_number p <=? head_block_num d) _ _ _).
  - intros d d' Hc. by rewrite (proj2 (clock_time _ _ Hc)).
  - intros x d u d' Hok Hx Hd (Hc & delta & p' & Hr & Hp)%release_keeps. split; [done|].
    apply release_due_not_due in Hr; [|pose proof (co_votes d Hok); pose proof (co_head d Hok); lia].
    destruct Hp as [->| ->].
    + by eapply due_count_insert.
    + rewrite delete_insert_eq. by eapply due_count_delete.
Qed.

(** *** Average pledges *)
(** The next update is never, or after the interval. *)
Definition later (d : database) (interval n : Z) : Prop := n = NEVER \/ n = u32 (head_block_num d + interval).
Lemma later_due d i n :
  clock_ok d -> 0 < i -> head_block_num d + i < NEVER -> later d i n -> (n <=? head_block_num d) = false.
Proof. intros Hok Hi Hlt [Hn|Hn]; apply later_not_due; eauto. Qed.

(** A change of a witness that was found. *)
Lemma set_witness_twice uid d d1 d' w1 :
  d1 = d <| witnesses ::= <[uid := w1]> |> -> forall w', d' = d1 <| witnesses ::= <[uid := w']> |> ->
  d' = d <| witnesses ::= <[uid := w']> |>.
Proof. intros -> w' ->. destruct d. unfold set_field. cbn. by rewrite insert_insert_eq. Qed.
Lemma avg_pledge_next uid d u d' w :
  witnesses d !! uid = Some w -> w_is_valid w = true -> update_witness_avg_pledge uid d = Ok (u, d') ->
  exists w', d' = d <| witnesses ::= <[uid := w']> |> /\
    later d (witness_avg_pledge_update_interval (params d)) (average_pledge_next_update_block w').
Proof.
  intros Hw Hv H. unfold update_witness_avg_pledge in H. peel H as d0 Hg. peel H as wx Hwx.
  unfold get_witness_by_uid, find_witness_by_uid in Hwx. rewrite Hw in Hwx. cbn in Hwx. rewrite Hv in Hwx.
  injection Hwx as <-. rewrite Hv in H. cbn [negb] in H. cbv zeta in H. step H as u1 d1 H1. step H as u2 d2 H2.
  assert (exists w1, d1 = d <| witnesses ::= <[uid := w1]> |>) as [w1 E1].
  { destruct (_ <? _); cbn [when] in H1.
    - apply modify_witness_ok in H1 as (? & w1 & _ & _ & ->). by exists w1.
    - injection H1 as _ <-. exists w. destruct d. unfold set_field. cbn. by rewrite insert_id. }
  assert (exists w2, d2 = d <| witnesses ::= <[uid := w2]> |> /\
    later d (witness_avg_pledge_update_interval (params d)) (average_pledge_next_update_block w2)) as (w2 & E2 & L2).
  { destruct (average_pledge w =? w_pledge w); [|destruct (_ || _); [|destruct (average_pledge_last_update w <? _)]].
    3: peel H2 as avg Havg.
    all: apply modify_witness_ok in H2 as (? & w2 & _ & Hf%(inj Ok) & ->); exists w2;
      (split; [by eapply set_witness_twice|subst w2; cbn; first [by left|by right]]). }
  peel H as d3 Hg3. peel H as w3 Hw3. destruct (negb _); cbn [when] in H.
  - apply modify_witness_ok in H as (w4 & w5 & Hw4 & Hf & ->). exists w5.
    split; [by eapply set_witness_twice|]. rewrite E2 in Hw4. cbn in Hw4. rewrite lookup_insert_eq in Hw4.
    injection Hw4 as <-. by apply bind_ok in Hf as (t & _ & [= <-]).
  - injection H as _ <-. eauto.
Qed.
Lemma witness_pledges_finish :
  finishes update_average_witness_pledges next_average_pledge (fun x => update_witness_avg_pledge x.1)
    (fun d => length (witness_index d)).
Proof.
  set (due d w := (average_pledge_next_update_block w <=? head_block_num d) && w_is_valid w).
  assert (forall x d, clock_ok d -> next_average_pledge d = Some x ->
            witnesses d !! x.1 = Some x.2 /\ due d x.2 = true) as Hfront.
  { intros [uid w] d Hok [Hx Hd]%front_elem. split; [|done]. apply elem_of_app in Hx as [Hx|Hx].
    - by apply elem_of_map_to_list in Hx.
    - apply list_elem_of_fmap in Hx as ([k w'] & [= -> ->] & Hx%elem_of_map_to_list).
      apply (co_replaced d Hok) in Hx as [Hx _]. cbn in Hd. rewrite Hx, andb_false_r in Hd. done. }
  apply drain_finishes with (mu := fun d => due_count (due d) (witnesses d)).
  - intros d. rewrite (due_count_le (due d)). unfold witness_index. rewrite length_app, length_map_to_list. lia.
  - intros x d Hok Hx. destruct (Hfront x d Hok Hx). by eapply due_count_pos.
  - intros x d u d' Hok Hx H. destruct (Hfront x d Hok Hx) as [Hw Hd].
    apply (avg_pledge_next _ _ _ _ x.2) in H as (w' & -> & HL); [|done|by apply andb_true_iff in Hd as []].
    split; [done|]. cbn. eapply due_count_insert; [exact Hw|done|]. unfold due.
    pose proof (co_pledge d Hok). pose proof (co_head d Hok).
    by rewrite (later_due d (witness_avg_pledge_update_interval (params d)) _ Hok) by (exact HL || lia).
Qed.

(** *** Effective votes *)
(** When the voters are next updated. *)
Definition vote_clock (d : database) := (clock d, effective_votes_next_update_block <$> voters d).
Lemma vote_clock_modify k f :
  (forall v v', f v = Ok v' -> effective_votes_next_update_block v' = effective_votes_next_update_block v) ->
  keeps vote_clock (modify_voter k f).
Proof.
  intros Hf d u d' H. apply modify_voter_ok in H as (v & v' & Hv & Hfv & ->). unfold vote_clock. cbn.
  rewrite fmap_insert, (Hf _ _ Hfv), insert_id; [done|]. by rewrite lookup_fmap, Hv.
Qed.
(** A ballot whose tallies are no part of it. *)
Class BallotClock (b : ballot) : Prop := {
  bc_adjust uid x : keeps vote_clock (b_adjust b uid x);
  bc_set_votes l d : vote_clock (b_set_votes b l d) = vote_clock d;
  bc_number f v : effective_votes_next_update_block (b_set_number b f v) = effective_votes_next_update_block v;
}.
Lemma vote_clock_platform uid x : keeps vote_clock (adjust_platform_votes uid x).
Proof. intros d u d' H. by apply adjust_platform_votes_ok in H as [f ->]. Qed.
#[local] Instance witness_clock : BallotClock witness_ballot.
Proof.
  split; [|done|done]. intros uid x d u d' H. cbn in H. unfold adjust_witness_votes in H.
  apply bind_ok in H as (w & _ & H). destruct (_ || _); [by injection H as _ <-|].
  by apply modify_witness_ok in H as (? & ? & _ & _ & ->).
Qed.
#[local] Instance committee_clock : BallotClock committee_ballot.
Proof.
  split; [|done|done]. intros uid x d u d' H. cbn in H. unfold adjust_committee_member_votes in H.
  apply bind_ok in H as (w & _ & H). by destruct (_ || _); injection H as _ <-.
Qed.
#[local] Instance platform_clock : BallotClock platform_ballot.
Proof. split; [apply vote_clock_platform|done|done]. Qed.
Lemma vote_clock_self b {BC : BallotClock b} k x : keeps vote_clock (adjust_voter_self b k x).
Proof.
  assert (forall os r, keeps vote_clock (adjust_loop b os x r)) as Hl.
  { induction os as [|o os IH]; intros r d a d' H; cbn [adjust_loop] in H; [by injection H as _ <-|].
    destruct (target_current b d o); [|by eapply IH].
    revert H. apply keeps_bind; [apply bc_adjust|intros; apply IH]. }
  intros d u d' H. unfold adjust_voter_self in H. apply bind_ok in H as ([r d1] & H1 & H).
  apply Hl in H1. rewrite <- H1. destruct (0 <? r).
  - apply vote_clock_modify in H; [by rewrite H, bc_set_votes|]. intros v v' [= <-]. apply bc_number.
  - injection H as _ <-. by rewrite bc_set_votes.
Qed.
Lemma vote_clock_walk n l cur x : keeps vote_clock (proxy_walk n l cur x).
Proof.
  revert l cur. induction n as [|n IH]; intros l cur; cbn [proxy_walk]; keep.
  - apply vote_clock_modify. intros v v' H. by apply bind_ok in H as (l' & _ & [= <-]).
Qed.
Lemma vote_clock_adjust k x : keeps vote_clock (adjust_voter_votes k x).
Proof.
  unfold adjust_voter_votes, adjust_voter_self_votes. keep; try apply vote_clock_walk;
    try apply vote_clock_platform; by apply vote_clock_self; apply _.
Qed.
(** After an update a voter is next updated later, and the others as before. *)
Lemma effective_votes_next k d u d' v :
  voters d !! k = Some v -> update_voter_effective_votes k d = Ok (u, d') ->
  clock d' = clock d /\ exists v', effective_votes_next_update_block <$> voters d' =
    effective_votes_next_update_block <$> <[k := v']> (voters d) /\
    later d (governance_votes_update_interval (params d)) (effective_votes_next_update_block v').
Proof.
  intros Hv H. unfold update_voter_effective_votes in H. peel H as d0 Hg. step H as v0 d1 H1.
  apply get_voter_ok in H1 as [Hv0 ->]. rewrite Hv in Hv0. injection Hv0 as <-. peel H as v' Hv'.
  step H as u2 d2 H2. apply modify_voter_ok in H2 as (v1 & v2 & _ & <-%(inj Ok) & ->).
  assert (later d (governance_votes_update_interval (params d)) (effective_votes_next_update_block v')) as HL.
  { unfold next_effective_votes in Hv'. repeat case_match; inv_ok; cbn; first [by left|by right]. }
  destruct (_ =? _).
  - injection H as _ <-. split; [done|]. exists v'. done.
  - peel H as x Hx. apply vote_clock_adjust in H. apply pair_equal_spec in H as [Hc Hn].
    split; [done|]. exists v'. done.
Qed.
Lemma votes_finish :
  finishes update_all_effective_votes next_effective_vote (fun x => update_voter_effective_votes x.1)
    (fun d => size (voters d)).
Proof.
  refine (index_finishes voters _ (fun d v => effective_votes_next_update_block v <=? head_block_num d) _ _ _).
  - intros d d' Hc. by rewrite (proj2 (clock_time _ _ Hc)).
  - intros x d u d' Hok Hx Hd H. destruct (effective_votes_next _ _ _ _ _ Hx H) as (Hc & v' & Hn & HL).
    split; [done|]. erewrite due_count_fmap with (due' := fun n => n <=? head_block_num d); [|done|exact Hn].
    eapply due_count_insert; [exact Hx|done|]. pose proof (co_votes d Hok). pose proof (co_head d Hok).
    by rewrite (later_due d (governance_votes_update_interval (params d)) _ Hok) by (exact HL || lia).
Qed.

(** *** Resigned witnesses, committee members and platforms *)
(** [clearing n (c, d) (c', d')]: [n] resigned ones were removed with all votes for
    them; [c] counts the votes removed by the block. *)
Inductive clearing (b : ballot) (resigned : database -> option (Z * Z)) (discard : Z * Z -> M database unit)
    : nat -> Z -> database -> Z -> database -> Prop :=
| clearing_done c d : clearing b resigned discard 0 c d c d
| clearing_next n c d k c1 d1 u d2 c3 d3 :
    resigned d = Some k -> clear_votes_for b (votes_for b k d) c d = Ok ((c1, false), d1) ->
    discard k d1 = Ok (u, d2) -> clearing b resigned discard n c1 d2 c3 d3 ->
    clearing b resigned discard (S n) c d c3 d3.
(** After at most [bound] of them nobody resigned is left, or the limit of votes of
    a block is reached while clearing the next, or that one could not be cleared. *)
Definition resigned_ends (loop : M database unit) (b : ballot) (resigned : database -> option (Z * Z))
    (discard : Z * Z -> M database unit) (bound : database -> nat) (nobody_resigned : database -> Prop)
    (d : database) : Prop :=
  exists n c d1, (n <= bound d)%nat /\ clearing b resigned discard n 0 d c d1 /\
    match loop d with
    | Ok (_, d') =>
        d' = d1 /\ nobody_resigned d' \/
        exists k c', resigned d1 = Some k /\ MAX_RESIGNED_VOTES_PER_BLOCK <= c' /\
          clear_votes_for b (votes_for b k d1) c d1 = Ok ((c', true), d')
    | Throw e =>
        exists k, resigned d1 = Some k /\
          (clear_votes_for b (votes_for b k d1) c d1 = Throw e \/
           exists c' d2, clear_votes_for b (votes_for b k d1) c d1 = Ok ((c', false), d2) /\ discard k d2 = Throw e)
    end.
Lemma resigned_ends_when loop b resigned discard bound (P Q : database -> Prop) d :
  (forall d', P d' -> Q d') -> resigned_ends loop b resigned discard bound P d ->
  resigned_ends loop b resigned discard bound Q d.
Proof.
  intros HPQ (n & c & d1 & Hn & Hr & H). exists n, c, d1. split_and!; [done..|].
  destruct (loop d) as [[u d']|e]; [|done]. destruct H as [[? ?]|?]; auto.
Qed.
Lemma clear_votes_full b os n d n' d' :
  clear_votes_for b os n d = Ok ((n', true), d') -> MAX_RESIGNED_VOTES_PER_BLOCK <= n'.
Proof.
  revert n d. induction os as [|o os IH]; intros n d H; cbn [clear_votes_for] in H; [done|].
  step H as u1 d1 H1. step H as u2 d2 H2. destruct (Z.leb_spec MAX_RESIGNED_VOTES_PER_BLOCK (n + 1)); [|by eapply IH].
  apply mret_ok in H. injection H as -> _. lia.
Qed.
Lemma clear_votes_keeps {X} (p : database -> X) b os n :
  (forall d f, p (d <| voters ::= f |>) = p d) -> (forall l d, p (b_set_votes b l d) = p d) ->
  keeps p (clear_votes_for b os n).
Proof.
  intros Hv Hs. revert n. induction os as [|o os IH]; intros n; cbn [clear_votes_for]; keep; [|].
  - intros d u d' H. apply modify_voter_ok in H as (? & ? & _ & _ & ->). apply Hv.
  - intros d u d' [= _ <-]. apply Hs.
Qed.
Lemma clear_resigned_rounds (P : database -> Prop) (mu : database -> nat) b resigned discard fuel c d :
  (forall k d, P d -> resigned d = Some k -> (0 < mu d)%nat) ->
  (forall os n d x d', P d -> clear_votes_for b os n d = Ok (x, d') -> P d' /\ mu d' = mu d) ->
  (forall k d u d', P d -> resigned d = Some k -> discard k d = Ok (u, d') -> P d' /\ (mu d' < mu d)%nat) ->
  (forall os n d x d', resigned d <> None -> clear_votes_for b os n d = Ok (x, d') -> resigned d' = resigned d) ->
  P d -> (mu d <= fuel)%nat ->
  exists n c1 d1, (n <= mu d)%nat /\ clearing b resigned discard n c d c1 d1 /\
    match clear_resigned fuel b resigned discard c d with
    | Ok (_, d') => d' = d1 /\ resigned d' = None \/
        exists k c', resigned d1 = Some k /\ MAX_RESIGNED_VOTES_PER_BLOCK <= c' /\
          clear_votes_for b (votes_for b k d1) c1 d1 = Ok ((c', true), d')
    | Throw e => exists k, resigned d1 = Some k /\
        (clear_votes_for b (votes_for b k d1) c1 d1 = Throw e \/
         exists c' d2, clear_votes_for b (votes_for b k d1) c1 d1 = Ok ((c', false), d2) /\ discard k d2 = Throw e)
    end.
Proof.
  intros Hpos Hclear Hdisc Hsame. revert c d. induction fuel as [|fuel IH]; intros c d HP Hmu.
  all: cbn [clear_resigned]; unfold mbind at 1, M_bind at 1, get; destruct (resigned d) as [k|] eqn:E;
    try by (exists 0%nat, c, d; split_and!; [lia|constructor|left]).
  { specialize (Hpos k d HP E). lia. }
  unfold mbind at 1, M_bind at 1.
  destruct (clear_votes_for b (votes_for b k d) c d) as [[[c1 full] d1]|e1] eqn:E1; cbn [fst snd].
  2: { exists 0%nat, c, d. split_and!; [lia|constructor|]. exists k. auto. }
  destruct full.
  { exists 0%nat, c, d. split_and!; [lia|constructor|]. right. exists k, c1. split_and!; [done|by eapply clear_votes_full|done]. }
  pose proof (Hclear _ _ _ _ _ HP E1) as [HP1 Hm1].
  assert (resigned d1 = Some k) as Hr by (rewrite <- E; eapply Hsame; [congruence|exact E1]).
  unfold mbind at 1, M_bind at 1. destruct (discard k d1) as [[u2 d2]|e2] eqn:E2; cbn [fst snd].
  - destruct (Hdisc _ _ _ _ HP1 Hr E2) as [HP2 Hlt]. destruct (IH c1 d2 HP2 ltac:(lia)) as (n & c3 & d3 & Hn & Hcl & H).
    exists (S n), c3, d3. split_and!; [lia|by econstructor|done].
  - exists 0%nat, c, d. split_and!; [lia|constructor|]. exists k. split; [done|]. right. eauto.
Qed.

Section index.
Context {A : Type} (sequence : A -> Z) (is_valid : A -> bool).
Variables (current : database -> gmap Z A) (replaced : database -> gmap (Z * Z) A).
#[local] Notation index := (all_objects sequence current replaced).
#[local] Notation is_current k := (is_current_object sequence current k).
#[local] Notation resigned := (next_resigned sequence is_valid current replaced).

Lemma length_all_objects d : length (index d) = (size (current d) + size (replaced d))%nat.
Proof. unfold all_objects. by rewrite length_app, length_fmap, !length_map_to_list. Qed.
Lemma size_delete_lt {K} `{Countable K} {B} (m : gmap K B) k : is_Some (m !! k) -> (size (delete k m) < size m)%nat.
Proof.
  intros Hm. rewrite map_size_delete_Some by done. assert (size m <> 0%nat); [|lia].
  intros E%map_size_empty_inv. rewrite E in Hm. by destruct Hm.
Qed.
(** Removing the object the loop took. *)
Lemma remove_lowers k d d' :
  resigned d = Some k ->
  (is_current k d = true -> current d' = delete k.1 (current d) /\ replaced d' = replaced d) ->
  (is_current k d = false -> current d' = current d /\ replaced d' = delete k (replaced d)) ->
  (length (index d') < length (index d))%nat.
Proof.
  unfold next_resigned. intros ([k' c] & [Hx _]%front_elem & [= ->])%fmap_Some Hc Hr.
  rewrite !length_all_objects. destruct (is_current_object sequence current k' d) eqn:E.
  - destruct (Hc eq_refl) as [-> ->]. unfold is_current_object in E. destruct (current d !! k'.1) eqn:Ec; [|done].
    pose proof (size_delete_lt (current d) k'.1 ltac:(by rewrite Ec)). lia.
  - destruct (Hr eq_refl) as [-> ->]. apply elem_of_app in Hx as [Hx|Hx%elem_of_map_to_list].
    + apply list_elem_of_fmap in Hx as ([uid c'] & [= -> ->] & Hx%elem_of_map_to_list).
      unfold is_current_object in E. cbn in E. rewrite Hx, Z.eqb_refl in E. done.
    + pose proof (size_delete_lt (replaced d) k' ltac:(eauto)). lia.
Qed.
Lemma nobody_left d : resigned d = None -> forall x, x ∈ index d -> is_valid x.2 = true.
Proof.
  unfold next_resigned. intros Hf%fmap_None x Hx. destruct (is_valid x.2) eqn:E; [done|].
  assert (bool_key (is_valid x.2) <= 0) as H0 by by rewrite E.
  destruct (fun Hk Hd => front_waits _ (fun x : Z * Z * A => bool_key (is_valid x.2)) (fun _ => true) _ 0 _ Hk Hd Hf x Hx H0)
    as (_ & _ & _ & [=]).
  - intros y. by eexists.
  - intros y. by destruct (is_valid y.2).
Qed.
Lemma index_resigned_ends b discard d :
  (forall d f, index (d <| voters ::= f |>) = index d) -> (forall l d, index (b_set_votes b l d) = index d) ->
  (forall k d u d', discard k d = Ok (u, d') -> resigned d = Some k -> (length (index d') < length (index d))%nat) ->
  resigned_ends (n ← gets (fun d => length (index d)); clear_resigned n b resigned discard 0) b resigned discard
    (fun d => length (index d)) (fun d => forall x, x ∈ index d -> is_valid x.2 = true) d.
Proof.
  intros Hv Hs Hd. eapply resigned_ends_when; [exact nobody_left|].
  unfold resigned_ends. unfold mbind at 1, M_bind at 1, gets at 1. cbn [fst snd].
  assert (forall os n d x d', clear_votes_for b os n d = Ok (x, d') -> index d' = index d) as K
    by (intros os n; by apply clear_votes_keeps).
  apply (clear_resigned_rounds (fun _ => True) (fun d => length (index d))); try done.
  - intros k d1 _ Hk. apply fmap_Some in Hk as (x & [Hx _]%front_elem & _).
    destruct (all_objects sequence current replaced d1); [by apply elem_of_nil in Hx|]. cbn. lia.
  - intros os n d1 x d2 _ H1. split; [done|]. cbv beta. by rewrite (K _ _ _ _ _ H1).
  - intros k d1 u d2 _ Hk H1. split; [done|]. by eapply Hd.
  - intros os n d1 x d2 _ H1. unfold next_resigned. by rewrite (K _ _ _ _ _ H1).
Qed.
End index.
Lemma committee_resigned_ends d :
  resigned_ends clear_resigned_committee_member_votes committee_ballot next_resigned_member remove_member
    (fun d => length (member_index d)) (fun d => forall x, x ∈ member_index d -> c_is_valid x.2 = true) d.
Proof.
  apply index_resigned_ends; [done..|]. intros k d1 u d2 [= _ <-] Hk.
  eapply remove_lowers; [exact Hk|intros ->; done|intros ->; done].
Qed.
Lemma platform_resigned_ends d :
  resigned_ends clear_resigned_platform_votes platform_ballot next_resigned_platform remove_platform
    (fun d => length (platform_index d)) (fun d => forall x, x ∈ platform_index d -> p_is_valid x.2 = true) d.
Proof.
  apply index_resigned_ends; [done..|]. intros k d1 u d2 [= _ <-] Hk.
  eapply remove_lowers; [exact Hk|intros ->; done|intros ->; done].
Qed.

(** Settling a witness and giving back the pledges to it leaves the witnesses. *)
Definition roster (d : database) := (clock d, witnesses d).
Lemma roster_stats uid f : keeps roster (modify_stats uid f).
Proof. intros d u d' H. by apply modify_stats_ok in H as (s & s' & _ & _ & ->). Qed.
Lemma roster_settle uid w : keeps roster (update_pledge_mining_bonus_by_witness uid w).
Proof.
  assert (forall l n, keeps roster (pay_pledgers uid w l n)) as Hp.
  { induction l as [|a l IH]; intros n; cbn [pay_pledgers]; keep.
    unfold update_pledge_mining_bonus_by_account. keep; first [apply roster_stats|by intros d u d' [= _ <-]]. }
  unfold update_pledge_mining_bonus_by_witness. keep. apply roster_stats.
Qed.
Lemma roster_resign uid : keeps roster (resign_pledge_mining uid).
Proof.
  unfold resign_pledge_mining. apply keeps_bind; [apply keeps_get|intros d0].
  generalize (pledgers uid d0) as l. induction l as [|a l IH]; cbn [mfor]; [apply keeps_ret|].
  apply keeps_bind; [|intros _; exact IH]. keep. unfold update_pledge_of. keep. by intros d u d' [= _ <-].
Qed.
(** Removing the witness the loop took. *)
Lemma next_resigned_at k d :
  clock_ok d -> next_resigned_witness d = Some k ->
  (exists w, is_current k d = true /\ witnesses d !! k.1 = Some w) \/
  (exists w, is_current k d = false /\ replaced_witnesses d !! k = Some w).
Proof.
  intros Hok H. unfold next_resigned_witness, first_resigned in H. apply fmap_Some in H as ([uid w] & Hx & ->).
  apply front_elem in Hx as [Hx _]. cbn. unfold is_current. cbn.
  apply elem_of_app in Hx as [Hx|Hx].
  - apply elem_of_map_to_list in Hx. left. exists w. rewrite Hx. by rewrite Z.eqb_refl.
  - apply list_elem_of_fmap in Hx as ([[a n] w'] & [= -> ->] & Hx%elem_of_map_to_list).
    pose proof (co_replaced d Hok _ _ Hx) as [_ Hn]. cbn in Hn. subst n.
    destruct (witnesses d !! a) as [w|] eqn:Ew; [|by eauto].
    destruct (w_sequence w =? w_sequence w'); [left|right]; eauto.
Qed.
Lemma discard_lowers k d u d' :
  clock_ok d -> next_resigned_witness d = Some k -> discard_witness k d = Ok (u, d') ->
  clock_ok d' /\ (length (witness_index d') < length (witness_index d))%nat.
Proof.
  intros Hok Hk H. unfold discard_witness in H. peel H as d0 Hg. peel H as w Hw. step H as u1 d1 H1.
  step H as u2 d2 H2. apply roster_settle in H1. apply roster_resign in H2. rewrite H1 in H2.
  unfold roster, clock in H2. injection H2 as E1 E2 E3 E5 E4. injection H as _ <-.
  assert (forall d, length (witness_index d) = (size (witnesses d) + size (replaced_witnesses d))%nat) as Hlen.
  { intros e. unfold witness_index. by rewrite length_app, length_fmap, !length_map_to_list. }
  rewrite !Hlen. assert (is_current k d2 = is_current k d) as Ec by (unfold is_current; by rewrite E4).
  assert (forall m, m ⊆ replaced_witnesses d -> clock_ok (d2 <| replaced_witnesses := m |>)) as Hsub.
  { intros m Hm. destruct Hok as [C1 C2 C3 C4 C5 C6]. unfold head_block_num in *.
    split; unfold head_block_num; cbn; rewrite ?E1, ?E2, ?E5; try done.
    intros i x Hi. eapply C5, lookup_weaken; done. }
  rewrite Ec. destruct (next_resigned_at _ _ Hok Hk) as [(x & -> & Hx)|(x & -> & Hx)]; cbn; rewrite E3, E4.
  - split; [|rewrite map_size_delete_Some by eauto; assert (size (witnesses d) <> 0%nat); [|lia]].
    + eapply clock_ok_same, (Hsub (replaced_witnesses d)); [|done]. unfold clock. cbn. by rewrite E3.
    + intros E0%map_size_empty_inv. by rewrite E0 in Hx.
  - split; [|rewrite map_size_delete_Some by eauto; assert (size (replaced_witnesses d) <> 0%nat); [|lia]].
    + eapply clock_ok_same, (Hsub (delete k (replaced_witnesses d))); [|apply delete_subseteq].
      unfold clock. cbn. by rewrite E3.
    + intros E0%map_size_empty_inv. by rewrite E0 in Hx.
Qed.
Lemma no_resigned_witness d :
  next_resigned_witness d = None -> forall x, x ∈ witness_index d -> w_is_valid x.2 = true.
Proof.
  unfold next_resigned_witness, first_resigned. intros Hf%fmap_None x Hx. destruct (w_is_valid x.2) eqn:E; [done|].
  assert (bool_key (w_is_valid x.2) <= 0) as H0 by by rewrite E.
  destruct (fun Hk Hd => front_waits _ (fun x : Z * witness_object => bool_key (w_is_valid x.2)) (fun _ => true) _ 0 _ Hk Hd
    Hf x Hx H0) as (_ & _ & _ & [=]).
  - intros y. by eexists.
  - intros y. by destruct (w_is_valid y.2).
Qed.
Lemma witness_resigned_ends d :
  clock_ok d -> resigned_ends clear_resigned_witness_votes witness_ballot next_resigned_witness discard_witness
    (fun d => length (witness_index d)) (fun d => forall x, x ∈ witness_index d -> w_is_valid x.2 = true) d.
Proof.
  intros Hok. eapply resigned_ends_when; [exact no_resigned_witness|].
  unfold resigned_ends, clear_resigned_witness_votes. unfold mbind at 1, M_bind at 1, gets at 1. cbn [fst snd].
  assert (forall os n d x d', clear_votes_for witness_ballot os n d = Ok (x, d') -> roster d' = roster d) as K
    by (intros os n; by apply clear_votes_keeps).
  assert (forall os n d x d', clear_votes_for witness_ballot os n d = Ok (x, d') ->
            clock d' = clock d /\ witness_index d' = witness_index d) as K'.
  { intros os n d1 x d2 H1. apply K in H1. unfold roster in H1. apply pair_equal_spec in H1 as [Hc Hw].
    split; [done|]. unfold witness_index. unfold clock in Hc. by injection Hc as _ _ -> _; rewrite Hw. }
  apply (clear_resigned_rounds clock_ok (fun d => length (witness_index d))); try done.
  - intros k d1 _ Hk. unfold next_resigned_witness, first_resigned in Hk.
    apply fmap_Some in Hk as (x & [Hx _]%front_elem & _). destruct (witness_index d1); [by apply elem_of_nil in Hx|].
    cbn. lia.
  - intros os n d1 x d2 Hok1 [Hc Hi]%K'. split; [by eapply clock_ok_same|by rewrite Hi].
  - intros k d1 u d2 Hok1 Hk H1. by eapply discard_lowers.
  - intros os n d1 x d2 _ [_ Hi]%K'. unfold next_resigned_witness. by rewrite Hi.
Qed.
End loops.
