(* ===== verification/SupplyBlock.v ===== *)
(** * The updates of a block keep the books *)
From S2P Require Import Prelude FlatMap FcInt Asset Pledge ChainState.
From S2P Require Import AccountStats Voter Balance Transfer Fee AssetOps Payroll Mining.
From S2P Require Import WitnessOps WitnessSchedule MapSum Frame Ledger Market.
From S2P Require Import MarketProof TransferProof Treasury TreasuryProof.
From S2P Require Import MiningProof Books SupplySteps BlockUpdate VoterProof BlockProof.
Local Open Scope Z_scope.
Import asset pledge chain acc voter balance transfer fee asset_ops payroll mining.
Import witness_ops market schedule updates.

Lemma keeps_drain {A X} (p : database -> X) n (next : database -> option A) body :
  (forall x, keeps p (body x)) -> keeps p (drain n next body).
Proof.
  intros Hb. induction n as [|n IH]; intros d u d' H; cbn [drain] in H; destruct (next d) as [x|]; try done;
    try by injection H as _ <-.
  revert H. apply keeps_bind; [apply Hb|done].
Qed.
Lemma keeps_clear_resigned {X} (p : database -> X) fuel b resigned discard n :
  (forall os n, keeps p (clear_votes_for b os n)) -> (forall k, keeps p (discard k)) ->
  keeps p (clear_resigned fuel b resigned discard n).
Proof.
  intros Hc Hd. revert n. induction fuel as [|fuel IH]; intros n; cbn [clear_resigned]; keep.
Qed.

Section block.
Context {F : FcInt} {FL : FcIntLaws F} {C : ChainConfig}.

Lemma books_clear_votes b os n :
  (forall l d, books (b_set_votes b l d) = books d) -> keeps books (clear_votes_for b os n).
Proof. intros Hs. apply clear_votes_keeps; [|done]. intros. apply vf_voters. Qed.
Lemma books_update_global f b : keeps books (update_global_dynamic_data f b).
Proof. unfold update_global_dynamic_data, note_missed. keep_books. by case_match. Qed.
Lemma books_irreversible : keeps books update_last_irreversible_block.
Proof. unfold update_last_irreversible_block. keep_books. Qed.
Lemma books_leases : keeps books clear_expired_csaf_leases.
Proof.
  unfold clear_expired_csaf_leases. keep_books. apply keeps_drain. intros x. unfold end_lease. keep_books.
  all: apply books_lease_core; books_side.
Qed.
Lemma books_avg_pledges : keeps books update_average_witness_pledges.
Proof. unfold update_average_witness_pledges. keep_books. apply keeps_drain. auto with keeps. Qed.
Lemma books_platform_pledges : keeps books update_average_platform_pledges.
Proof.
  unfold update_average_platform_pledges. keep_books. apply keeps_drain. intros x.
  unfold update_platform_avg_pledge. keep_books.
Qed.
Lemma books_release_pledges : keeps books process_pledge_balance_release.
Proof.
  unfold process_pledge_balance_release. keep_books. apply keeps_drain. intros x.
  unfold release_pledge_balance, release_coin_seconds, remove_pledge_balance. keep_books.
  by eapply update_coin_seconds_money.
Qed.
Lemma books_committee_votes : keeps books clear_resigned_committee_member_votes.
Proof.
  unfold clear_resigned_committee_member_votes. keep_books. apply keeps_clear_resigned.
  - intros. by apply books_clear_votes.
  - intros k d u d' [= _ <-]. by destruct (is_current_object _ _ k d).
Qed.
Lemma books_platform_votes : keeps books clear_resigned_platform_votes.
Proof.
  unfold clear_resigned_platform_votes. keep_books. apply keeps_clear_resigned.
  - intros. by apply books_clear_votes.
  - intros k d u d' [= _ <-]. by destruct (is_current_object _ _ k d).
Qed.
Lemma books_expired_voters : keeps books invalidate_expired_governance_voters.
Proof. unfold invalidate_expired_governance_voters. keep_books. Qed.
Lemma books_drop_proxies n k cur x : keeps books (drop_proxies n k cur x).
Proof. revert cur x. induction n as [|n IH]; intros cur x; cbn [drop_proxies]; keep_books. Qed.
Lemma books_invalid_loop n x : keeps books (process_invalid_loop n x).
Proof.
  revert x. induction n as [|n IH]; intros x; cbn [process_invalid_loop]; keep_books.
  unfold process_invalid_proxied_voters. keep_books. apply books_drop_proxies.
Qed.
Lemma books_invalid_voters : keeps books process_invalid_governance_voters.
Proof. unfold process_invalid_governance_voters. keep_books. apply books_invalid_loop. Qed.
Lemma books_effective_votes : keeps books update_all_effective_votes.
Proof. unfold update_all_effective_votes. keep_books. apply keeps_drain. auto with keeps typeclass_instances. Qed.
Lemma books_committee : keeps books update_committee.
Proof. unfold update_committee. keep_books. Qed.
Lemma books_advance_by_vote now uids : keeps books (advance_by_vote now uids).
Proof. induction uids as [|uid uids IH]; cbn [advance_by_vote]; keep_books. Qed.
Lemma books_advance_by_pledge now uids : keeps books (advance_by_pledge now uids).
Proof. induction uids as [|uid uids IH]; cbn [advance_by_pledge]; keep_books. Qed.
#[local] Hint Resolve books_advance_by_vote books_advance_by_pledge : keeps.
Lemma books_schedule : keeps books update_witness_schedule.
Proof.
  unfold update_witness_schedule, restart_by_vote, restart_by_pledge, shuffle_witnesses,
    reset_witness_by_vote_schedule, reset_witness_by_pledge_schedule. keep_books.
Qed.

(** Expired orders go back to their sellers. *)
Lemma expired_orders_neutral d u d' : clear_expired_limit_orders d = Ok (u, d') -> neutral d d'.
Proof.
  intros H. unfold clear_expired_limit_orders in H. peel H as n Hn.
  eapply (drain_rel _ _ (fun d d' => neutral d d') (fun _ => True)) in H; try done.
  - intros e. apply shift_refl.
  - intros e1 e2 e3 H1 H2. by eapply neutral_trans.
  - intros x e v e' _ _ He. split; [|done]. apply conserves_neutral.
    eapply conserves_flow; [done|]. by eapply cancel_limit_order_flow.
Qed.

(** ** Resigned witnesses settle what they owe before they are removed *)
Lemma update_pledge_amount a n max p delta p' : update_pledge a n max p = Ok (delta, p') -> pledge p' = amount a.
Proof.
  unfold update_pledge. intros H. do 4 (apply bind_ok in H as (? & _ & H)). cbv zeta in H.
  destruct (0 <=? _); [by injection H as _ <-|]. apply bind_ok in H as (q & Hq & [= _ <-]). destruct (0 <? _).
  - unfold new_releasing in Hq. apply bind_ok in Hq as (? & _ & Hq). apply bind_ok in Hq as (? & _ & Hq).
    by apply bind_ok in Hq as (? & _ & [= <-]).
  - apply bind_ok in Hq as (? & _ & Hq). unfold reduce_releasing in Hq. apply bind_ok in Hq as (? & _ & Hq).
    apply bind_ok in Hq as (? & _ & Hq). by apply bind_ok in Hq as ([e m] & _ & [= <-]).
Qed.
Lemma payable_update_pledge id n d r d' uid w :
  witness_payable d uid w -> update_pledge_of id (Asset 0 CORE_ASSET_AID) n d = Ok (r, d') ->
  witness_payable d' uid w.
Proof.
  intros Hp H. unfold update_pledge_of in H. peel H as dg Hg. peel H as p0 Hp0. peel H as q Hq.
  destruct q as [delta p']. step H as u1 d1 H1. injection H1 as _ <-. injection H as _ <-.
  intros account pm m per p Hi Hm Hper Hpl. cbn in Hi. unfold pledge_of, get_pledge_balance_object in Hpl. cbn in Hpl.
  apply bind_ok in Hpl as (po & Hpo & [= <-]). apply deref_ok in Hpo.
  apply lookup_insert_Some in Hpo as [[Hk <-]|[Hne Hpo]].
  - assert (pledge p' = 0) as E0 by (by eapply update_pledge_amount in Hq).
    destruct (Hp account pm m per (pledge p0) Hi Hm Hper) as (P1 & _ & _).
    { unfold pledge_of. by rewrite <- Hk, Hp0. }
    rewrite E0. unfold BONUS_PRECISION. lia.
  - apply (Hp account pm m per (pledge po) Hi Hm Hper). unfold pledge_of, get_pledge_balance_object. by rewrite Hpo.
Qed.
Lemma payable_resign uid d u d' :
  resign_pledge_mining uid d = Ok (u, d') ->
  forall uid' w, witness_payable d uid' w -> witness_payable d' uid' w.
Proof.
  intros H uid' w Hp. unfold resign_pledge_mining in H. peel H as d0 Hg. revert H.
  generalize (pledgers uid d) as l. intros l H.
  refine (mfor_inv (fun d => witness_payable d uid' w) _ l d (u, d') _ Hp H).
  intros account e [v e'] _ He Hr. peel Hr as pm Hpm. step Hr as x e1 H1. injection Hr as _ <-.
  by eapply payable_update_pledge.
Qed.

(** Every invalid witness can be settled. *)
Record resigned_payable (d : database) : Prop := {
  rp_clock : clock_ok d;
  rp_current : forall uid w, witnesses d !! uid = Some w -> w_is_valid w = false -> witness_payable d uid w;
  rp_replaced : forall k w, replaced_witnesses d !! k = Some w -> witness_payable d k.1 w;
  rp_sequence : forall k w w', replaced_witnesses d !! k = Some w -> witnesses d !! k.1 = Some w' ->
    w_sequence w' <> k.2;
}.
Lemma resigned_payable_sub d d' :
  resigned_payable d -> clock_ok d' -> witnesses d' ⊆ witnesses d ->
  replaced_witnesses d' ⊆ replaced_witnesses d ->
  (forall uid w, witness_payable d uid w -> witness_payable d' uid w) -> resigned_payable d'.
Proof.
  intros [R1 R2 R3 R4] Hc Hw Hr Hp. split; [done|..].
  - intros uid w Hu Hv. apply Hp, R2; [|done]. by eapply lookup_weaken.
  - intros k w Hk. apply Hp, R3. by eapply lookup_weaken.
  - intros k w w' Hk Hu. eapply R4; by eapply lookup_weaken.
Qed.
Lemma remove_witness_shift k w d u d' :
  witness_at k d = Some w -> remove_witness k d = Ok (u, d') ->
  shift d d' (only CORE_ASSET_AID (- owed_bonus w)).
Proof.
  unfold witness_at, remove_witness. intros Hw [= _ <-].
  destruct (is_current k d); apply same_shift; try done; unfold owed_coins; cbn; rewrite msum_delete_key;
    unfold at_key; rewrite Hw; lia.
Qed.
Lemma discard_witness_neutral k d u d' :
  resigned_payable d -> next_resigned_witness d = Some k -> discard_witness k d = Ok (u, d') ->
  neutral d d' /\ resigned_payable d'.
Proof.
  intros Hrp Hk H. pose proof (discard_lowers _ _ _ _ (rp_clock _ Hrp) Hk H) as [Hok' _].
  unfold discard_witness in H. peel H as d0 Hg. peel H as w Hw. apply deref_ok in Hw.
  assert (witness_payable d k.1 w) as Hpay.
  { unfold next_resigned_witness, first_resigned in Hk. apply fmap_Some in Hk as ([a x] & Hf & Ek).
    apply front_elem in Hf as [Hx Hv%negb_true_iff]. cbn in Ek, Hv. subst k. unfold witness_at, is_current in Hw.
    cbn in Hw. apply elem_of_app in Hx as [Hx|Hx].
    - apply elem_of_map_to_list in Hx. rewrite Hx, Z.eqb_refl in Hw. injection Hw as <-. by apply (rp_current _ Hrp).
    - apply list_elem_of_fmap in Hx as ([[b n] y] & [= -> ->] & Hx%elem_of_map_to_list).
      destruct (witnesses d !! b) as [v|] eqn:Ev; [destruct (_ =? _) eqn:Es|].
      + apply Z.eqb_eq in Es. pose proof (co_replaced d (rp_clock _ Hrp) _ _ Hx) as [_ Hn]. cbn in Hn. subst n.
        by destruct (rp_sequence _ Hrp _ _ _ Hx Ev).
      + by apply (rp_replaced _ Hrp) in Hw.
      + by apply (rp_replaced _ Hrp) in Hw. }
  step H as u1 d1 H1. step H as u2 d2 H2.
  pose proof (bonus_by_witness_ok _ _ _ _ _ Hpay H1) as [S1 M1].
  pose proof (books_neutral _ _ _ _ (books_resign_mining k.1) H2) as S2.
  pose proof (roster_resign _ _ _ _ H2) as R2.
  unfold roster, clock in R2. injection R2 as _ _ Er _ Ew. pose proof M1 as [Mw Mr _ _ _].
  assert (witness_at k d2 = Some w) as Hw2.
  { unfold witness_at, is_current in *. by rewrite Er, Ew, Mw, Mr. }
  pose proof (remove_witness_shift _ _ _ _ _ Hw2 H) as S3. split.
  - eapply shift_ext, (shift_trans _ _ _ _ _ S1 (neutral_trans _ _ _ _ S2 S3)). shift_lia.
  - injection H as _ <-. eapply resigned_payable_sub; [exact Hrp|done|..].
    + destruct (is_current k d2); cbn; rewrite Ew, Mw; [apply delete_subseteq|done].
    + destruct (is_current k d2); cbn; rewrite Er, Mr; [done|apply delete_subseteq].
    + intros uid x Hx. assert (witness_payable d2 uid x) as Hx2.
      { eapply payable_resign; [exact H2|]. eapply payable_same; [exact M1|exact Hx]. }
      by destruct (is_current k d2).
Qed.
Lemma clear_resigned_neutral n x d u d' :
  resigned_payable d ->
  clear_resigned n witness_ballot next_resigned_witness discard_witness x d = Ok (u, d') -> neutral d d'.
Proof.
  revert x d. induction n as [|n IH]; intros x d Hrp H; cbn [clear_resigned] in H; peel H as d0 Hg;
    destruct (next_resigned_witness d) as [k|] eqn:Ek; try done;
    try by (apply mret_ok in H; injection H as _ ->; apply shift_refl).
  step H as r d1 H1. destruct r as [p full].
  assert (keeps (fun d => (roster d, pledge_balances d, pledge_minings d))
            (clear_votes_for witness_ballot (updates.votes_for witness_ballot k d) x)) as K by by apply clear_votes_keeps.
  apply K in H1 as E1. injection E1 as Eq Eg Er Ef Ew Ep Em.
  assert (neutral d d1) as S1 by (eapply books_neutral, H1; by apply books_clear_votes).
  eapply neutral_trans; [exact S1|]. clear H1. destruct full; [by injection H as _ <-; apply shift_refl|].
  step H as u2 d2 H2.
  assert (resigned_payable d1) as Hrp1.
  { eapply resigned_payable_sub; [exact Hrp|..].
    - eapply clock_ok_same; [|exact (rp_clock _ Hrp)]. unfold clock. congruence.
    - by rewrite Ew.
    - by rewrite Er.
    - intros uid w. unfold witness_payable, pledge_of, get_pledge_balance_object, head_block_num. by rewrite Ep, Em, Eg. }
  apply discard_witness_neutral in H2 as [S2 Hrp2]; [|done|].
  - eapply neutral_trans; [exact S2|]. by eapply IH.
  - rewrite <- Ek. unfold next_resigned_witness, witness_index. congruence.
Qed.

Lemma resigned_witnesses_neutral d u d' :
  resigned_payable d -> clear_resigned_witness_votes d = Ok (u, d') -> neutral d d'.
Proof.
  intros Hrp H. unfold clear_resigned_witness_votes in H. peel H as fuel Hf. by eapply clear_resigned_neutral.
Qed.

(** ** Hardforks *)
Lemma books_refresh hf uid : keeps books (refresh_coin_seconds hf uid).
Proof. unfold refresh_coin_seconds. keep_books. by eapply update_coin_seconds_money. Qed.
#[local] Hint Resolve books_refresh : keeps.
Lemma destroy_budget_pool_neutral d u d' :
  fees_ok d -> destroy_budget_pool d = Ok (u, d') -> neutral d d'.
Proof.
  intros Hfees H. unfold destroy_budget_pool in H. peel H as d0 Hg. destruct (_ <=? _); cbn [when] in H;
    [|by injection H as _ <-; apply shift_refl].
  step H as u1 d1 H1. pose proof (keeps_modify_dgp assets _ (fun _ _ => eq_refl) _ _ _ H1) as Ha.
  eapply modify_dgp_shift with (x := - DESTROY_AMOUNT) in H1.
  2: { intros g Hgf. apply bind_ok in Hgf as (y & Hy & [= <-]). apply safe_sub_ok in Hy as [-> _]. cbn. lia. }
  peel H as d2 Hg2. peel H as a Hasset. peel H as m Hm. step H as u2 d3 H3. injection H3 as _ <-.
  assert (neutral d1 (d1 <| assets ::= <[CORE_ASSET_AID := a <| max_supply := m |>]> |>)) as S2.
  { apply set_asset_neutral. unfold get_asset_by_aid in Hasset. apply deref_ok in Hasset. rewrite Ha in Hasset.
    by apply Hfees in Hasset. }
  eapply modify_dynamic_data_shift with (x := DESTROY_AMOUNT) in H.
  2: { intros dd dd' Hf. apply bind_ok in Hf as (y & Hy & [= <-]). apply safe_sub_ok in Hy as [-> _]. cbn. lia. }
  eapply shift_ext, (shift_trans _ _ _ _ _ H1 (neutral_trans _ _ _ _ S2 H)). shift_lia.
Qed.
Lemma enable_hardforks_neutral d u d' : enable_hardforks d = Ok (u, d') -> neutral d d'.
Proof.
  intros H. unfold enable_hardforks in H. peel H as d0 Hg. step H as u1 d1 H1.
  assert (neutral d d1) as S1.
  { eapply books_neutral, H1. apply keeps_when. unfold update_reduce_witness_csaf, update_account_permission. keep_books. }
  eapply neutral_trans; [exact S1|]. peel H as d2 Hg2. eapply shift_when; [exact H| |done]. clear H. intros _ H.
  step H as u2 d3 H2. step H as u3 d4 H3. step H as u4 d5 H4. step H as u5 d6 H5.
  assert (neutral d1 d3) as S2 by (eapply books_neutral, H2; unfold update_account_feepoint; keep_books).
  assert (neutral d3 d4) as S3 by (eapply books_neutral, H3; unfold update_account_reg_info; keep_books).
  eapply neutral_trans; [exact S2|]. eapply neutral_trans; [exact S3|]. intros Hi.
  unfold update_core_asset_flags in H4. apply bind_ok in H4 as (a & Ha & [= _ <-]). apply deref_ok in Ha.
  assert (fee_ok (a <| flags ::= Z.lor 1 |>)) as Hf by by apply (mi_fees _ (ti_market _ Hi)) in Ha.
  pose proof (set_asset_neutral CORE_ASSET_AID _ d4 Hf) as S4. destruct (S4 Hi) as [Hi5 _].
  assert (neutral (d4 <| assets ::= <[CORE_ASSET_AID := a <| flags ::= Z.lor 1 |>]> |>) d6) as S5
    by (eapply books_neutral, H5; keep_books).
  destruct (S5 Hi5) as [Hi6 _]. apply destroy_budget_pool_neutral in H; [|exact (mi_fees _ (ti_market _ Hi6))].
  exact (neutral_trans _ _ _ _ S4 (neutral_trans _ _ _ _ S5 H) Hi).
Qed.
End block.
