(* ===== verification/AccountProof.v ===== *)
(** * Accounts and platforms: the books, and the registry of accounts *)
From S2P Require Import Prelude FlatMap FcInt Authority Asset Pledge ChainState.
From S2P Require Import AccountStats Voter MapSum Frame Ledger MarketProof Treasury Books.
From S2P Require Import Mining WitnessOps SupplySteps BlockUpdate Committee SupplyBlock Voting Platform Account Proxy.
Local Open Scope Z_scope.
Import auth asset pledge chain acc voter mining witness_ops updates committee voting platform account proxy.

(** ** They leave the books alone *)
Section books.
Context {F : FcInt} {C : ChainConfig}.

Lemma keeps_modify_account {X} (p : database -> X) uid f :
  (forall d a, p (d <| accounts ::= <[uid := f a]> |>) = p d) -> keeps p (modify_account uid f).
Proof. intros Hf d u d' H. apply bind_ok in H as (a & _ & [= _ <-]). apply Hf. Qed.
Lemma books_modify_account uid f : keeps books (modify_account uid f).
Proof. by apply keeps_modify_account. Qed.
Lemma books_modify_platform uid f : keeps books (modify_platform uid f).
Proof. intros d u d' H. apply bind_ok in H as (p & _ & [= _ <-]). done. Qed.
Lemma books_platform_pledge uid : keeps books (update_platform_avg_pledge uid).
Proof. unfold update_platform_avg_pledge. keep_books. Qed.
#[local] Hint Resolve books_modify_account books_modify_platform books_platform_pledge books_update_pledge_of : keeps.

Lemma books_platform_create op : keeps books (platform_create op).
Proof.
  unfold platform_create, platform_create_apply, create_platform, create_pledge. keep_books.
  apply books_upd. intros d. by destruct (platforms d !! _).
Qed.
Lemma books_platform_update op : keeps books (platform_update op).
Proof. unfold platform_update, platform_update_apply, release_platform_pledge. keep_books. Qed.

Lemma books_account_manage op : keeps books (account_manage op).
Proof. unfold account_manage. keep_books. Qed.
Lemma books_update_key op : keeps books (account_update_key op).
Proof. unfold account_update_key. keep_books. Qed.
Lemma books_update_auth op : keeps books (account_update_auth op).
Proof. unfold account_update_auth, set_platforms_active. keep_books. Qed.
Lemma books_auth_platform op : keeps books (account_auth_platform op).
Proof. unfold account_auth_platform. keep_books. Qed.
Lemma books_cancel_auth u p : keeps books (account_cancel_auth_platform u p).
Proof. unfold account_cancel_auth_platform. keep_books. Qed.
Lemma books_enable_assets u b : keeps books (account_enable_allowed_assets u b).
Proof. unfold account_enable_allowed_assets. keep_books. Qed.
Lemma books_update_assets op : keeps books (account_update_allowed_assets op).
Proof. unfold account_update_allowed_assets. keep_books. Qed.
Lemma books_whitelist op : keeps books (account_whitelist op).
Proof. unfold account_whitelist. keep_books. Qed.
Lemma books_update_proxy op : keeps books (account_update_proxy op).
Proof.
  unfold account_update_proxy, update_proxy_apply, change_proxy, start_proxied, count_proxied, invalidate_if. keep_books.
Qed.
(** A new account has nothing. *)
Lemma account_create_neutral op d u d' :
  stats d !! an_uid op = None -> default 0 (balances d !! (an_uid op, CORE_ASSET_AID)) = 0 ->
  account_create op d = Ok (u, d') -> neutral d d'.
Proof.
  intros Hs Hb H. unfold account_create in H. peel H as d0 Hg. peel H as u0 E0. injection H as _ <-.
  assert (l_money (ledger_of d) !! an_uid op = None) as Hm by (cbn; by rewrite lookup_fmap, Hs).
  intros [[I1 I2 [I3 I3'] I4] I5]. split.
  - split; [|done]. split; [done|done| |].
    + split; [|done]. intros acc m. cbn. rewrite fmap_insert. destruct (decide (acc = an_uid op)) as [->|Hne].
      * rewrite lookup_insert_eq. intros [= <-]. by rewrite Hb.
      * rewrite lookup_insert_ne by done. apply I3.
    + intros acc. specialize (I4 acc). unfold gap in *. cbn in *. rewrite fmap_insert.
      destruct (decide (acc = an_uid op)) as [->|Hne]; [|by rewrite lookup_insert_ne].
      rewrite lookup_insert_eq. rewrite lookup_fmap, Hs in I4. exact I4.
  - intros a. unfold imbalance, circulating, supply, issued_of. cbn. rewrite fmap_insert, msum_insert by exact Hm.
    assert (in_money a (an_uid op) (money_of new_account_statistics) = 0) as ->; [|unfold issued, owed_coins; cbn; lia].
    unfold in_money. cbn. rewrite lookup_empty. by destruct (a =? _).
Qed.
End books.
