(* ===== verification/AdvertisingClaims.v ===== *)
(** * Advertisements: the coins held for orders, and who is shown when *)
From S2P Require Import Prelude FcInt FlatMap Asset Pledge ChainState AccountStats.
From S2P Require Import Voter MapSum Balance Frame Ledger MarketProof Fee Treasury Books.
From S2P Require Import BlockUpdate Platform Advertising.
Local Open Scope Z_scope.
Import asset pledge chain acc voter balance fee updates platform advertising.

Definition ad_orders (d : database) : gmap (Z * Z * Z) advertising_order_object := advertising_orders (contents d).
#[export] Instance contents_money : MoneyFrame contents.
Proof. split; [by split|done..]. Qed.
#[export] Instance ad_orders_money : MoneyFrame ad_orders.
Proof. split; [by split|done..]. Qed.

Section orders.
Context {F : FcInt} {FL : FcIntLaws F} {C : ChainConfig}.
Implicit Types (k : Z * Z * Z) (o : advertising_order_object) (d : database).

(** ** Changing orders *)
Lemma set_order_ok k o d u d' :
  set_order k o d = Ok (u, d') -> d' = d <| contents ::= fun c => c <| advertising_orders ::= <[k := o]> |> |>.
Proof. by intros [= _ <-]. Qed.
Lemma set_order_shift k o d u d' :
  set_order k o d = Ok (u, d') ->
  shift d d' (only CORE_ASSET_AID (in_escrow o - at_key (fun _ => in_escrow) (ad_orders d) k)).
Proof.
  intros ->%set_order_ok. apply same_shift; try done. unfold owed_coins. cbn. rewrite msum_set.
  unfold ad_orders. lia.
Qed.
Lemma modify_order_ok k f d u d' :
  modify_order k f d = Ok (u, d') ->
  exists o, ad_orders d !! k = Some o /\ ad_orders d' = <[k := f o]> (ad_orders d) /\
            shift d d' (only CORE_ASSET_AID (in_escrow (f o) - in_escrow o)).
Proof.
  intros H. unfold modify_order in H. peel H as dg Hg. peel H as o Ho. apply deref_ok in Ho. exists o.
  split; [exact Ho|]. pose proof (set_order_ok _ _ _ _ _ H) as Hd. split; [by rewrite Hd|].
  apply set_order_shift in H. unfold at_key, ad_orders in H. by rewrite Ho in H.
Qed.
Lemma books_set_advertising id a : keeps books (set_advertising id a).
Proof. by apply books_upd. Qed.

(** ** Paying users back *)
Definition refund_total (l : list (Z * Z * Z * advertising_order_object)) : Z :=
  zsum (map (fun x => released_balance x.2) l).
Lemma refunds_shift l d u d' :
  mfor (fun x : Z * Z * Z * advertising_order_object =>
          adjust_balance (ad_user x.2) (Asset (released_balance x.2) CORE_ASSET_AID)) l d = Ok (u, d') ->
  shift d d' (only CORE_ASSET_AID (refund_total l)).
Proof.
  revert d. induction l as [|x l IH]; intros d H.
  - injection H as _ <-. eapply shift_ext, shift_refl. intros a. by rewrite only_zero.
  - cbn in H. step H as u1 d1 H1. apply adjust_balance_shift in H1. apply IH in H. cbn in H1.
    change (refund_total (x :: l)) with (released_balance x.2 + refund_total l). shift_seq H1 H.
Qed.
Lemma handled_escrow st now o : st <> advertising_undetermined -> in_escrow (handled st now o) = 0.
Proof. intros. unfold in_escrow, handled. cbn. by rewrite decide_False. Qed.
Lemma pending_escrow o : status o = advertising_undetermined -> in_escrow o = released_balance o.
Proof. intros. unfold in_escrow. by rewrite decide_True. Qed.

(** Each order of [l] once is refused. *)
Lemma refusals_ok st now l d u d' :
  st <> advertising_undetermined ->
  (forall x, x ∈ l -> ad_orders d !! x.1 = Some x.2 /\ status x.2 = advertising_undetermined) ->
  NoDup l.*1 ->
  mfor (fun x : Z * Z * Z * advertising_order_object => modify_order x.1 (handled st now)) l d = Ok (u, d') ->
  shift d d' (only CORE_ASSET_AID (- refund_total l)) /\
  forall k, ad_orders d' !! k = if decide (k ∈ l.*1) then handled st now <$> ad_orders d !! k else ad_orders d !! k.
Proof.
  intros Hst. revert d. induction l as [|x l IH]; intros d Hl Hnd H.
  - injection H as _ <-. split; [|by intros k].
    eapply shift_ext, shift_refl. intros a. by rewrite only_zero.
  - cbn in H. step H as u1 d1 H1. apply modify_order_ok in H1 as (o & Ho & Hd1 & S1).
    destruct (Hl x) as [Hx Hp]; [by left|]. rewrite Hx in Ho. injection Ho as <-.
    cbn in Hnd. apply NoDup_cons in Hnd as [Hx1 Hnd].
    apply IH in H as [S2 H2]; [| |exact Hnd].
    + split.
      * rewrite handled_escrow, pending_escrow in S1 by done.
        change (refund_total (x :: l)) with (released_balance x.2 + refund_total l). shift_seq S1 S2.
      * intros k. rewrite H2, Hd1. destruct (decide (k = x.1)) as [->|Hk].
        -- rewrite decide_False, decide_True by (done || (cbn; left)). by rewrite lookup_insert_eq, Hx.
        -- rewrite lookup_insert_ne by done. cbn. destruct (decide (k ∈ l.*1)) as [Hin|Hin].
           ++ by rewrite decide_True by by right.
           ++ rewrite decide_False; [done|]. by intros [?|?]%elem_of_cons.
    + intros y Hy. destruct (Hl y) as [Hy1 Hy2]; [by right|]. split; [|done].
      rewrite Hd1, lookup_insert_ne; [done|]. intros E. apply Hx1. rewrite E. by apply list_elem_of_fmap_2.
Qed.
End orders.

Section handlers.
Context {F : FcInt} {FL : FcIntLaws F} {C : ChainConfig}.
Implicit Types (o : advertising_order_object) (d : database).

Lemma orders_of_elem d p a st x :
  x ∈ orders_of d p a st <-> x.1.1 = (p, a) /\ status x.2 = st /\ ad_orders d !! x.1 = Some x.2.
Proof.
  unfold orders_of, ordered. rewrite (merge_sort_Permutation _ _), list_elem_of_filter.
  destruct x as [k o]. rewrite elem_of_map_to_list. unfold ad_orders. cbn. tauto.
Qed.
Lemma orders_of_nodup d p a st (P : Z * Z * Z * advertising_order_object -> Prop) `{!forall x, Decision (P x)} :
  NoDup (filter P (orders_of d p a st)).*1.
Proof.
  unfold orders_of, ordered. rewrite (merge_sort_Permutation _ _).
  eapply sublist_NoDup; [apply (NoDup_fst_map_to_list (ad_orders d))|].
  apply fmap_sublist. etrans; apply sublist_filter.
Qed.

(** ** What the handlers do to the orders, and to the coins *)
Lemma advertising_create_ok op d u d' :
  advertising_create op d = Ok (u, d') -> ad_orders d' = ad_orders d /\ neutral d d'.
Proof.
  intros H. split.
  - assert (keeps ad_orders (advertising_create op)) as K; [|exact (K _ _ _ H)].
    unfold advertising_create, set_advertising. keep; auto with keeps typeclass_instances. by intros ? ? ? [= _ <-].
  - eapply books_neutral, H. unfold advertising_create, set_advertising. keep_books.
Qed.
Lemma advertising_update_ok op d u d' :
  advertising_update op d = Ok (u, d') -> ad_orders d' = ad_orders d /\ neutral d d'.
Proof.
  intros H. split.
  - assert (keeps ad_orders (advertising_update op)) as K; [|exact (K _ _ _ H)].
    unfold advertising_update, set_advertising. keep. by intros ? ? ? [= _ <-].
  - eapply books_neutral, H. unfold advertising_update, set_advertising. keep_books.
Qed.
Lemma balance_keeps_orders acc a d u d' : adjust_balance acc a d = Ok (u, d') -> ad_orders d' = ad_orders d.
Proof. intros H. unfold ad_orders. by rewrite (keeps_adjust_balance contents _ _ _ _ _ H). Qed.

Lemma advertising_buy_ok op d u d' :
  advertising_buy op d = Ok (u, d') ->
  neutral d d' /\
  exists o, let k := (vb_platform op, vb_advertising_aid op, vb_order_oid op) in
    ad_orders d !! k = None /\ ad_orders d' = <[k := o]> (ad_orders d) /\ status o = advertising_undetermined /\
    forall x, x ∈ orders_of d (vb_platform op) (vb_advertising_aid op) advertising_accepted ->
      disjoint_periods (start_time o) (end_time o) (start_time x.2) (end_time x.2) = true.
Proof.
  intros H. unfold advertising_buy in H. peel H as dg Hg. peel H as e He. destruct e as [a n].
  step H as u1 d1 H1. pose proof (books_neutral _ _ _ _ (books_set_advertising _ _) H1) as S1.
  injection H1 as _ Hd1. step H as u2 d2 H2. unfold create_order in H2. peel H2 as dg2 Hg2. peel H2 as u3 E3.
  pose proof (set_order_ok _ _ _ _ _ H2) as Hd2. apply set_order_shift in H2.
  peel H as m Hm. apply safe_neg_ok in Hm as [-> _]. pose proof (balance_keeps_orders _ _ _ _ _ H) as Hd3.
  apply adjust_balance_shift in H. cbn [asset_id amount] in H.
  apply negb_true_iff in E3. destruct (advertising_orders _ !! _) eqn:E; [done|].
  assert (ad_orders d !! (vb_platform op, vb_advertising_aid op, vb_order_oid op) = None) as Hk by (by rewrite <- Hd1 in E).
  split.
  - unfold at_key, ad_orders in H2. rewrite E in H2. rewrite pending_escrow in H2 by done. cbn in H2.
    eapply neutral_trans; [exact S1|]. shift_seq H2 H.
  - eexists. cbv zeta. split; [exact Hk|]. split; [by rewrite Hd3, Hd2, <- Hd1|]. split; [done|].
    unfold buy_evaluate in He. cbv zeta in He. clear -He. inv_ok. cbn. intros x Hx.
    rewrite forallb_forall in *. match goal with Hf : forall x, In x _ -> _ |- _ => apply Hf end.
    by apply list_elem_of_In.
Qed.

Lemma pay_platform_ok platform x d u d' :
  pay_platform platform x d = Ok (u, d') -> ad_orders d' = ad_orders d /\ shift d d' (only CORE_ASSET_AID x).
Proof.
  intros H. unfold pay_platform in H. peel H as dg Hg. peel H as fee Hf. peel H as y Hy.
  apply safe_sub_ok in Hy as [-> _]. step H as u1 d1 H1. split.
  - rewrite <- (balance_keeps_orders _ _ _ _ _ H1). unfold modify_dynamic_data in H.
    apply bind_ok in H as (a & _ & H). apply bind_ok in H as (dd & _ & H).
    by apply bind_ok in H as (dd' & _ & [= _ <-]).
  - apply adjust_balance_shift in H1. cbn in H1. eapply modify_dynamic_data_shift with (x := fee) in H.
    + shift_seq H1 H.
    + intros dd dd' Hd. apply bind_ok in Hd as (z & Hz & [= <-]). apply safe_sub_ok in Hz as [-> _]. cbn. lia.
Qed.
(** What a pending or decided order may become in one step. *)
Inductive evolves o : advertising_order_object -> Prop :=
| evolves_same : evolves o o
| evolves_decided st now :
    status o = advertising_undetermined -> st <> advertising_undetermined -> evolves o (handled st now o).
Definition overlap o o' : bool := negb (disjoint_periods (start_time o) (end_time o) (start_time o') (end_time o')).

(** Accepting [o] refuses exactly the pending orders of the place that overlap it. *)
Definition refused_by (op : advertising_confirm_operation) o d k x : Prop :=
  k.1 = (vf_platform op, vf_advertising_aid op) /\ ad_orders d !! k = Some x /\
  status x = advertising_undetermined /\ overlap x o = true.
Lemma refuse_orders_ok op o l d r d' :
  refuse_orders op o l d = Ok (r, d') ->
  neutral d d' /\
  forall k, (exists x, refused_by op o d k x /\
                ad_orders d' !! k = Some (handled advertising_refused (head_block_time d) x)) \/
            ((forall x, ~ refused_by op o d k x) /\ ad_orders d' !! k = ad_orders d !! k).
Proof.
  intros H. unfold refuse_orders in H. peel H as dg Hg. cbv zeta in H.
  set (refs := filter _ (orders_of _ _ _ _)) in *.
  assert (forall x, x ∈ refs <-> refused_by op o d x.1 x.2) as Hrefs.
  { intros x. unfold refs, refused_by, overlap. rewrite list_elem_of_filter, orders_of_elem, negb_true_iff. tauto. }
  step H as u1 d1 H1. step H as u2 d2 H2. injection H as _ <-.
  assert (ad_orders d1 = ad_orders d) as Hd1.
  { revert H1. apply (keeps_mfor ad_orders). intros x. apply keeps_adjust_balance. apply _. }
  apply refunds_shift in H1. apply refusals_ok in H2 as [S2 H2]; [|done| |by apply orders_of_nodup].
  - split; [shift_seq H1 S2|]. intros k. rewrite H2, Hd1.
    destruct (decide (k ∈ refs.*1)) as [Hin|Hin].
    + left. apply list_elem_of_fmap in Hin as (x & -> & Hx). apply Hrefs in Hx. exists x.2. split; [done|].
      destruct Hx as (_ & -> & _). done.
    + right. split; [|done]. intros x Hx. apply Hin. apply list_elem_of_fmap. exists (k, x). split; [done|].
      by apply Hrefs.
  - intros x (_ & Hx & Hst & _)%Hrefs. by rewrite Hd1.
Qed.

(** The order [op] names is decided; others are refused when it is accepted. *)
Lemma advertising_confirm_ok op d r d' :
  advertising_confirm op d = Ok (r, d') ->
  let k := (vf_platform op, vf_advertising_aid op, vf_order_oid op) in
  let now := head_block_time d in
  neutral d d' /\
  exists o, ad_orders d !! k = Some o /\ status o = advertising_undetermined /\
    ad_orders d' !! k = Some (handled (if vf_isconfirm op then advertising_accepted else advertising_refused) now o) /\
    forall k', k' <> k ->
      (exists x, vf_isconfirm op = true /\ refused_by op o d k' x /\
         ad_orders d' !! k' = Some (handled advertising_refused now x)) \/
      ((vf_isconfirm op = true -> forall x, ~ refused_by op o d k' x) /\ ad_orders d' !! k' = ad_orders d !! k').
Proof.
  intros H. cbv zeta. unfold advertising_confirm in H. peel H as dg Hg. peel H as o Ho. cbv zeta in H.
  assert (ad_orders d !! (vf_platform op, vf_advertising_aid op, vf_order_oid op) = Some o /\
          status o = advertising_undetermined) as [Hk Hst].
  { unfold confirm_evaluate in Ho. clear -Ho. inv_ok. by bool_to_prop. }
  destruct (vf_isconfirm op).
  - step H as u1 d1 H1. pose proof (modify_order_ok _ _ _ _ _ H1) as (o' & Ho' & Hd1 & S1).
    rewrite Hk in Ho'. injection Ho' as <-. rewrite handled_escrow, pending_escrow in S1 by done.
    assert (head_block_time d1 = head_block_time d) as Ht.
    { unfold modify_order in H1. peel H1 as dg1 Hg1. peel H1 as o1 E1. apply set_order_ok in H1. by rewrite H1. }
    step H as u2 d2 H2. assert (head_block_time d2 = head_block_time d1) as Ht2.
    { unfold pay_platform, modify_dynamic_data in H2. clear -H2. inv_ok.
      match goal with H : adjust_balance _ _ _ = _ |- _ => apply (keeps_adjust_balance statics) in H;
        injection H as _ _ _ Hg _ _ _ end. unfold head_block_time. cbn. by rewrite Hg. }
    apply pay_platform_ok in H2 as [Hd2 S2]. apply refuse_orders_ok in H as [S3 H3].
    split; [eapply neutral_trans_r; [|exact S3]; shift_seq S1 S2|].
    exists o. split; [done|]. split; [done|]. rewrite Ht2, Ht in H3. split.
    + destruct (H3 (vf_platform op, vf_advertising_aid op, vf_order_oid op)) as [(x & Hx & _)|[_ ->]].
      * destruct Hx as (_ & Hx & Hx2 & _). rewrite Hd2, Hd1, lookup_insert_eq in Hx. by injection Hx as <-.
      * by rewrite Hd2, Hd1, lookup_insert_eq.
    + intros k' Hne. assert (forall x, refused_by op o d2 k' x <-> refused_by op o d k' x) as E.
      { intros x. unfold refused_by. by rewrite Hd2, Hd1, lookup_insert_ne. }
      destruct (H3 k') as [(x & Hx & ->)|[Hx ->]].
      * left. exists x. split; [done|]. split; [by apply E|done].
      * right. split; [intros _ x ?; by eapply Hx, E|]. by rewrite Hd2, Hd1, lookup_insert_ne.
  - step H as u1 d1 H1. pose proof (balance_keeps_orders _ _ _ _ _ H1) as Hd1. apply adjust_balance_shift in H1.
    step H as u2 d2 H2. injection H as _ <-. apply modify_order_ok in H2 as (o' & Ho' & Hd2 & S2).
    rewrite Hd1, Hk in Ho'. injection Ho' as <-. rewrite handled_escrow, pending_escrow in S2 by done.
    cbn in H1. split; [shift_seq H1 S2|]. exists o. rewrite Hd2, Hd1. split; [done|]. split; [done|].
    split; [by rewrite lookup_insert_eq|]. intros k' Hne. right. by rewrite lookup_insert_ne.
Qed.
Lemma ransom_advertising_ok op d u d' :
  ransom_advertising op d = Ok (u, d') ->
  let k := (vr_platform op, vr_advertising_aid op, vr_order_oid op) in
  neutral d d' /\
  exists o, ad_orders d !! k = Some o /\ status o = advertising_undetermined /\
    ad_orders d' = <[k := handled advertising_ransom (head_block_time d) o]> (ad_orders d).
Proof.
  intros H. cbv zeta. unfold ransom_advertising in H. peel H as dg Hg. peel H as o Ho.
  assert (ad_orders d !! (vr_platform op, vr_advertising_aid op, vr_order_oid op) = Some o /\
          status o = advertising_undetermined) as [Hk Hst].
  { unfold ransom_evaluate in Ho. clear -Ho. inv_ok. by bool_to_prop. }
  step H as u1 d1 H1. pose proof (balance_keeps_orders _ _ _ _ _ H1) as Hd1. apply adjust_balance_shift in H1.
  apply modify_order_ok in H as (o' & Ho' & Hd2 & S2). rewrite Hd1, Hk in Ho'. injection Ho' as <-.
  rewrite handled_escrow, pending_escrow in S2 by done. cbn in H1. split; [shift_seq H1 S2|].
  exists o. by rewrite Hd2, Hd1.
Qed.

(** Only decided orders are removed. *)
Lemma clear_orders_ok remaining d u d' :
  clear_advertising_orders remaining d = Ok (u, d') ->
  neutral d d' /\
  forall k, ad_orders d' !! k = ad_orders d !! k \/
            ad_orders d' !! k = None /\ forall o, ad_orders d !! k = Some o -> status o <> advertising_undetermined.
Proof.
  intros H. unfold clear_advertising_orders in H. peel H as dg Hg. unfold when in H.
  destruct (_ && _); [|injection H as _ <-; split; [apply shift_refl|by left]]. injection H as _ <-.
  assert (forall o, status o = advertising_undetermined -> u32 (head_block_time d - remaining) <= get_clear_time o) as Hp.
  { intros o Ho. unfold get_clear_time. rewrite Ho. pose proof (wrap_bound 32 (head_block_time d - remaining)).
    unfold is_uint, NEVER, u32 in *. lia. }
  split.
  - apply same_neutral; try done. unfold owed_coins. cbn. rewrite msum_filter_zero; [done|].
    intros k o Ho Hf. unfold in_escrow. rewrite decide_False; [done|]. intros Hst. by apply Hf, Hp.
  - intros k. unfold ad_orders. cbn. destruct (advertising_orders (contents d) !! k) as [o|] eqn:E.
    + destruct (decide (u32 (head_block_time d - remaining) <= get_clear_time o)) as [Hle|Hle].
      * left. by apply map_lookup_filter_Some_2.
      * right. split; [apply map_lookup_filter_None_2; right; intros x; rewrite E; intros [= <-]; exact Hle|].
        intros o' [= <-] Hst. by apply Hle, Hp.
    + left. apply map_lookup_filter_None_2. by left.
Qed.
End handlers.

(** * A place is shown to one advertiser at a time *)
(** An accepted order shares no moment with another order of its place that is
    accepted or may still be. *)
Definition contending (o : advertising_order_object) : Prop :=
  status o = advertising_accepted \/ status o = advertising_undetermined.
Definition exclusive (d : database) : Prop :=
  forall place i j x y, i <> j -> ad_orders d !! (place, i) = Some x -> ad_orders d !! (place, j) = Some y ->
    status x = advertising_accepted -> contending y -> overlap x y = false.

(** What one step may do to an order: decide it while it is pending, or remove
    it once it is decided. *)
Definition order_step (before after : option advertising_order_object) : Prop :=
  match before, after with
  | Some o, Some o' => evolves o o'
  | Some o, None => status o <> advertising_undetermined
  | None, Some o' => status o' = advertising_undetermined
  | None, None => True
  end.

Section steps.
Context {F : FcInt} {C : ChainConfig}.

Inductive ad_step (d d' : database) : Prop :=
| step_ad_create op : advertising_create op d = Ok (tt, d') -> ad_step d d'
| step_ad_update op : advertising_update op d = Ok (tt, d') -> ad_step d d'
| step_ad_buy op : advertising_buy op d = Ok (tt, d') -> ad_step d d'
| step_ad_confirm op r : advertising_confirm op d = Ok (r, d') -> ad_step d d'
| step_ad_ransom op : ransom_advertising op d = Ok (tt, d') -> ad_step d d'
| step_ad_clear remaining : clear_advertising_orders remaining d = Ok (tt, d') -> ad_step d d'
(* Every other operation and update leaves the orders alone. *)
| step_elsewhere : ad_orders d' = ad_orders d -> ad_step d d'.
End steps.

Section proofs.
Context {F : FcInt} {FL : FcIntLaws F} {C : ChainConfig}.
Implicit Types d : database.

Lemma overlap_sym x y : overlap x y = overlap y x.
Proof. unfold overlap, disjoint_periods. by rewrite orb_comm. Qed.
Lemma exclusive_same d d' : ad_orders d' = ad_orders d -> exclusive d -> exclusive d'.
Proof. unfold exclusive. by intros ->. Qed.
Lemma order_step_refl m : order_step m m.
Proof. destruct m; [constructor|done]. Qed.

(** Orders that are neither new nor newly accepted contend as before. *)
Lemma buy_exclusive op d d' : advertising_buy op d = Ok (tt, d') -> exclusive d -> exclusive d'.
Proof.
  intros H Hx. apply advertising_buy_ok in H as [_ (o & Hk & Hd & Hst & Ho)].
  set (pl := (vb_platform op, vb_advertising_aid op)) in *.
  intros place i j x y Hij Hi Hj Hax Hcy. rewrite Hd in Hi, Hj.
  apply lookup_insert_Some in Hi as [[_ <-]|[Hne Hi]]; [congruence|].
  apply lookup_insert_Some in Hj as [[[= <- <-] <-]|[Hne' Hj]]; [|by eapply Hx].
  rewrite overlap_sym. apply negb_false_iff, (Ho (pl, i, x)). by apply orders_of_elem.
Qed.
Lemma confirm_exclusive op d r d' : advertising_confirm op d = Ok (r, d') -> exclusive d -> exclusive d'.
Proof.
  intros H Hx. apply advertising_confirm_ok in H as [_ (o & Hk & Hst & Hk' & Hothers)].
  set (pl := (vf_platform op, vf_advertising_aid op)) in *. set (n := vf_order_oid op) in *.
  assert (forall place i x, ad_orders d' !! (place, i) = Some x -> (place, i) <> (pl, n) -> contending x ->
            ad_orders d !! (place, i) = Some x /\ (vf_isconfirm op = true -> place = pl -> overlap x o = false)) as Hold.
  { intros place i x Hi Hne Hc. destruct (Hothers _ Hne) as [(x0 & _ & _ & E)|[Hr E]]; rewrite E in Hi.
    - injection Hi as <-. by destruct Hc.
    - split; [exact Hi|]. intros Hyes ->. destruct Hc as [Hc|Hc].
      + eapply (Hx pl i n); [by intros ->| |exact Hk|exact Hc|by right]. exact Hi.
      + apply not_true_is_false. intros Ho. by apply (Hr Hyes x). }
  intros place i j x y Hij Hi Hj Hax Hcy. destruct (decide ((place, i) = (pl, n))) as [[= -> ->]|Hni].
  - rewrite Hk' in Hi. injection Hi as <-. destruct (vf_isconfirm op) eqn:Hyes; [|done].
    destruct (Hold pl j y Hj) as [_ Hov]; [congruence|exact Hcy|]. rewrite overlap_sym. by apply Hov.
  - destruct (Hold _ _ _ Hi Hni (or_introl Hax)) as [Hi0 Hov].
    destruct (decide ((place, j) = (pl, n))) as [[= -> ->]|Hnj].
    + rewrite Hk' in Hj. injection Hj as <-. destruct (vf_isconfirm op) eqn:Hyes; [by apply Hov|].
      by destruct Hcy.
    + destruct (Hold _ _ _ Hj Hnj Hcy) as [Hj0 _]. by eapply Hx.
Qed.
Lemma ransom_exclusive op d d' : ransom_advertising op d = Ok (tt, d') -> exclusive d -> exclusive d'.
Proof.
  intros H Hx. apply ransom_advertising_ok in H as [_ (o & Hk & Hst & Hd)].
  intros place i j x y Hij Hi Hj Hax Hcy. rewrite Hd in Hi, Hj.
  apply lookup_insert_Some in Hi as [[_ <-]|[_ Hi]]; [done|].
  apply lookup_insert_Some in Hj as [[_ <-]|[_ Hj]]; [by destruct Hcy|by eapply Hx].
Qed.
Lemma clear_exclusive remaining d d' :
  clear_advertising_orders remaining d = Ok (tt, d') -> exclusive d -> exclusive d'.
Proof.
  intros [_ H]%clear_orders_ok Hx place i j x y Hij Hi Hj.
  destruct (H (place, i)) as [E|[E _]]; rewrite E in Hi; [|done].
  destruct (H (place, j)) as [E'|[E' _]]; rewrite E' in Hj; [|done]. by eapply Hx.
Qed.
Lemma ad_step_exclusive d d' : ad_step d d' -> exclusive d -> exclusive d'.
Proof.
  intros [op H|op H|op H|op r H|op H|t H|H].
  - apply advertising_create_ok in H as [H _]. by apply exclusive_same.
  - apply advertising_update_ok in H as [H _]. by apply exclusive_same.
  - by eapply buy_exclusive.
  - by eapply confirm_exclusive.
  - by eapply ransom_exclusive.
  - by eapply clear_exclusive.
  - by apply exclusive_same.
Qed.
Lemma ad_step_orders d d' k : ad_step d d' -> order_step (ad_orders d !! k) (ad_orders d' !! k).
Proof.
  intros [op H|op H|op H|op r H|op H|t H|H].
  - apply advertising_create_ok in H as [-> _]. apply order_step_refl.
  - apply advertising_update_ok in H as [-> _]. apply order_step_refl.
  - apply advertising_buy_ok in H as [_ (o & Hk & -> & Hst & _)].
    destruct (decide (k = (vb_platform op, vb_advertising_aid op, vb_order_oid op))) as [->|Hne].
    + by rewrite Hk, lookup_insert_eq.
    + rewrite lookup_insert_ne by done. apply order_step_refl.
  - apply advertising_confirm_ok in H as [_ (o & Hk & Hst & Hk' & Ho)].
    destruct (decide (k = (vf_platform op, vf_advertising_aid op, vf_order_oid op))) as [->|Hne].
    + rewrite Hk, Hk'. constructor; [done|by destruct (vf_isconfirm op)].
    + destruct (Ho k Hne) as [(x & _ & (_ & -> & Hx & _) & ->)|[_ ->]]; [by constructor|apply order_step_refl].
  - apply ransom_advertising_ok in H as [_ (o & Hk & Hst & ->)].
    destruct (decide (k = (vr_platform op, vr_advertising_aid op, vr_order_oid op))) as [->|Hne].
    + rewrite Hk, lookup_insert_eq. by constructor.
    + rewrite lookup_insert_ne by done. apply order_step_refl.
  - apply clear_orders_ok in H as [_ H]. destruct (H k) as [->|[-> Hd]]; [apply order_step_refl|].
    destruct (ad_orders d !! k) eqn:E; [by apply Hd|done].
  - rewrite H. apply order_step_refl.
Qed.
End proofs.

(** C3. A place is sold once for every moment.  Whatever is offered, bought,
    confirmed, refused, ransomed or cleared, and in whatever order: an accepted
    advertisement shares no moment with another order of its place that is
    accepted or still may be, because buying checks the accepted orders and
    accepting refuses the pending ones that overlap.  A step changes an order
    only by deciding it while it is pending, and removes it only once it is
    decided; its period, its buyer and its price never change. *)
Theorem one_advertiser_at_a_time {F : FcInt} {FL : FcIntLaws F} {C : ChainConfig} (d0 d d' : database) :
  exclusive d0 -> rtc ad_step d0 d -> ad_step d d' ->
  exclusive d' /\ forall k, order_step (ad_orders d !! k) (ad_orders d' !! k).
Proof.
  intros H0 Hr Hs. split; [|intros k; by apply ad_step_orders]. eapply ad_step_exclusive; [exact Hs|].
  induction Hr as [|d1 d2 d3 H12 _ IH]; [done|]. apply IH; [|done]. by eapply ad_step_exclusive.
Qed.

(** Platform 20 offers a place for 50 coins per 100 seconds. *)
Definition fair : database :=
  bank <| contents ::= fun c => c <| advertisings := {[ (20, 1) :=
    {| on_sell := true; unit_time := 100; unit_price := 50; ad_description := EmptyString; last_order_sequence := 0;
       publish_time := 0; ad_last_update_time := 0 |} ]} |> |>.
Definition fair_order (n start number : Z) : advertising_buy_operation :=
  {| vb_order_oid := n; vb_from_account := 10; vb_platform := 20; vb_advertising_aid := 1;
     vb_start_time := head_block_time fair + start; vb_buy_number := number; vb_extra_data := EmptyString; vb_memo := None |}.
Definition fair_run : database -> result (unit * database) :=
  @advertising_buy fc_checked no_proxy (fair_order 1 1000 2) ;; @advertising_buy fc_checked no_proxy (fair_order 2 1100 1).
Definition fair_accept : advertising_confirm_operation :=
  {| vf_platform := 20; vf_advertising_aid := 1; vf_order_oid := 1; vf_isconfirm := true |}.
Lemma one_advertiser_at_a_time_witness :
  exists d1 d2 d3 r,
    @advertising_buy fc_checked no_proxy (fair_order 1 1000 2) fair = Ok (tt, d1) /\
    @advertising_buy fc_checked no_proxy (fair_order 2 1100 1) d1 = Ok (tt, d2) /\
    @advertising_confirm fc_checked no_proxy fair_accept d2 = Ok (r, d3) /\
    exclusive d3 /\ forall k, order_step (ad_orders d2 !! k) (ad_orders d3 !! k).
Proof.
  destruct (@advertising_buy fc_checked no_proxy (fair_order 1 1000 2) fair) as [[[] d1]|e] eqn:E1;
    [|exfalso; vm_compute in E1; discriminate E1].
  destruct (@advertising_buy fc_checked no_proxy (fair_order 2 1100 1) d1) as [[[] d2]|e] eqn:E2.
  2: { exfalso. assert (fair_run fair = Throw e) as E by (unfold fair_run, mbind, M_bind; by rewrite E1, E2).
       vm_compute in E. discriminate E. }
  assert (fair_run fair = Ok (tt, d2)) as E12 by (unfold fair_run, mbind, M_bind; by rewrite E1, E2).
  destruct (@advertising_confirm fc_checked no_proxy fair_accept d2) as [[r d3]|e] eqn:E3.
  2: { exfalso. assert (match fair_run fair with Ok (_, d) => @advertising_confirm fc_checked no_proxy fair_accept d
                        | Throw e => Throw e end = Throw e) as E by (by rewrite E12).
       vm_compute in E. discriminate E. }
  exists d1, d2, d3, r. split; [reflexivity|]. split; [exact E2|]. split; [exact E3|].
  apply (@one_advertiser_at_a_time fc_checked fc_checked_laws no_proxy fair d2 d3).
  - intros place i j x y _ Hi _. vm_compute in Hi. discriminate Hi.
  - apply rtc_l with d1; [|apply rtc_once]; by eapply step_ad_buy.
  - by eapply step_ad_confirm.
Defined.

(** The result of the operation names each user once: a user whose accepted
    order refuses another order of its own is paid back, but the result says
    that it gets nothing. *)
Example refund_unreported :
  exists d2 d3, fair_run fair = Ok (tt, d2) /\
    @advertising_confirm fc_checked no_proxy fair_accept d2 = Ok ([(10, 0)], d3) /\
    balances d2 !! (10, 0) = Some 850 /\ balances d3 !! (10, 0) = Some 900.
Proof. eexists _, _. split; [vm_compute; reflexivity|]. split; [vm_compute; reflexivity|]. split; vm_compute; reflexivity. Qed.
