(* ===== verification/ContentProof.v ===== *)
(** * Posts: the shares of a post stay whole, and payments are divided among them *)
From S2P Require Import Prelude FlatMap FcInt Asset Pledge ChainState.
From S2P Require Import AccountStats Voter Balance Transfer MapSum Frame Ledger MarketProof.
From S2P Require Import Treasury Books Mining WitnessOps SupplySteps Committee SupplyBlock Fee Platform Account AccountProof.
From S2P Require Import Advertising Content.
Local Open Scope Z_scope.
Import asset pledge chain acc voter balance transfer fee platform account advertising posting.

Notation shares := (flat_map Z receiptor_parameter).

(** ** Sums over the receiptors *)
Definition ratios (m : shares) : Z := zsum (map (fun x => cur_ratio x.2) m).
Lemma ratios_perm m m' : m ≡ₚ m' -> ratios m = ratios m'.
Proof. intros H. apply zsum_perm. by rewrite H. Qed.
Lemma ratios_cons k p m : ratios ((k, p) :: m) = cur_ratio p + ratios m.
Proof. done. Qed.
Lemma ratios_nonneg m : Forall (fun x => 0 <= cur_ratio x.2) m -> 0 <= ratios m.
Proof. induction 1 as [|[k p] m Hp _ IH]; [done|]. rewrite ratios_cons. cbn in Hp. lia. Qed.
Lemma find_set_Z {V} k k' (v : V) m :
  fm_sorted m -> fm_find k' (fm_set k v m) = if k' =? k then Some v else fm_find k' m.
Proof.
  intros Hs. rewrite fm_find_set by done. unfold key_ltb, Z_key_order.
  destruct (Z.eqb_spec k' k), (Z.ltb_spec k k'), (Z.ltb_spec k' k); cbn; try lia; done.
Qed.

(** ** What a share of a post looks like *)
Definition share_ok (p : receiptor_parameter) : Prop :=
  0 <= buyout_ratio p <= cur_ratio p /\ 0 <= buyout_price p < 2 ^ 63.
Record shares_sound (platform poster : Z) (m : shares) : Prop := {
  ss_sorted : fm_sorted m;
  ss_size : (length m <= 5)%nat;
  ss_each : Forall (fun x => share_ok x.2) m;
  ss_total : ratios m = PERCENT_100;
  ss_platform : exists p, fm_find platform m = Some p /\
    if platform =? poster then 5000 <= cur_ratio p else cur_ratio p = 2500;
  ss_poster : exists p, fm_find poster m = Some p /\ 2500 <= cur_ratio p;
}.
Definition price_ok (x : option Z) : Prop := forall y, x = Some y -> 0 < y < 2 ^ 63.
Definition posts_sound (d : database) : Prop :=
  forall platform poster pid p, posts (contents d) !! (platform, poster, pid) = Some p ->
    shares_sound platform poster (receiptors p) /\ price_ok (forward_price p).

Lemma share_nonneg (m : shares) :
  Forall (fun x => share_ok x.2) m -> Forall (fun x : Z * receiptor_parameter => 0 <= cur_ratio x.2) m.
Proof. intros H. eapply Forall_impl; [exact H|]. intros x [? _]. lia. Qed.
(** One share among others: it is at most the rest of the whole. *)
Lemma share_split platform poster m k p :
  shares_sound platform poster m -> fm_find k m = Some p ->
  share_ok p /\ Forall (fun x => share_ok x.2) (fm_erase k m) /\ 0 <= ratios (fm_erase k m) /\
  cur_ratio p + ratios (fm_erase k m) = PERCENT_100 /\ length m = S (length (fm_erase k m)).
Proof.
  intros Hs Hf. pose proof (fm_erase_found _ _ _ Hf) as Hp. destruct Hs as [H1 H2 H3 H4 _ _].
  rewrite Hp in H3. apply Forall_cons in H3 as [H3 H3']. split; [exact H3|]. split; [exact H3'|].
  split; [by apply ratios_nonneg, share_nonneg|]. rewrite (ratios_perm _ _ Hp), ratios_cons in H4.
  split; [exact H4|]. by rewrite Hp at 1.
Qed.

(** ** New shares are sound *)
Definition receiptor_typed (p : receiptor_parameter) : Prop :=
  is_uint 16 (cur_ratio p) /\ is_uint 16 (buyout_ratio p) /\ buyout_price p < 2 ^ 63.
Section validate.
Variable is_valid_uid : Z -> bool.
Lemma validate_receiptors_ok m total r :
  Forall (fun x => receiptor_typed x.2) m -> (length m <= 5)%nat -> 0 <= total <= 5 * 2 ^ 16 ->
  validate_receiptors is_valid_uid m total = Ok r ->
  r = total + ratios m /\ Forall (fun x => share_ok x.2) m.
Proof.
  intros Ht Hn Hb. assert (forall n t, (length m <= n)%nat -> 0 <= t -> t + Z.of_nat n * 2 ^ 16 < 2 ^ 32 ->
    validate_receiptors is_valid_uid m t = Ok r -> r = t + ratios m /\ Forall (fun x => share_ok x.2) m) as G.
  { clear Hn Hb total. induction Ht as [|[k p] m Hp _ IH]; intros n t Hn H0 H1 H.
    - injection H as <-. split; [cbn; lia|constructor].
    - cbn in H, Hn, Hp. destruct n as [|n]; [lia|]. apply bind_ok in H as (u1 & _ & H). apply bind_ok in H as (u2 & Hv & H).
      destruct Hp as (Hc & Hr & Hx). unfold is_uint in Hc, Hr.
      rewrite (wrap_small 32) in H by (unfold is_uint; lia).
      apply (IH n) in H as [-> Hall]; [|lia..]. split; [rewrite ratios_cons; lia|]. constructor; [|exact Hall].
      unfold validate_receiptor in Hv. cbn. unfold share_ok.
      destruct (to_buyout p); inv_ok; bool_to_prop; split; lia. }
  intros H. apply (G 5%nat); lia || done.
Qed.
Lemma validate_shares_sound platform poster m u :
  fm_sorted m -> Forall (fun x => receiptor_typed x.2) m ->
  validate_shares is_valid_uid platform poster m = Ok u -> shares_sound platform poster m.
Proof.
  intros Hs Ht H. unfold validate_shares in H. apply bind_ok in H as (u1 & H1 & H). apply bind_ok in H as (p & Hp & H).
  apply guard_ok_inv in H1. apply deref_ok in Hp. bool_to_prop. apply bind_ok in H as (u2 & H2 & H).
  apply bind_ok in H as (total & Hv & H). apply guard_ok_inv, Z.eqb_eq in H.
  apply validate_receiptors_ok in Hv as [Hr Hall]; [|done|lia|lia]. rewrite H in Hr.
  unfold DEFAULT_PLATFORM_RECEIPTS_RATIO, DEFAULT_POSTER_MIN_RECEIPTS_RATIO in H2.
  split; [exact Hs|lia|exact Hall|lia| |].
  - exists p. split; [exact Hp|]. destruct (platform =? poster); inv_ok; bool_to_prop; lia.
  - destruct (Z.eqb_spec platform poster) as [<-|Hne]; inv_ok; bool_to_prop.
    + exists p. split; [done|lia].
    + eexists. split; [eassumption|lia].
Qed.
End validate.
Lemma default_receiptors_sound platform poster : shares_sound platform poster (default_receiptors platform poster).
Proof.
  unfold default_receiptors. destruct (Z.eqb_spec platform poster) as [<-|Hne].
  - split; try done; cbn; [lia| |..].
    + repeat constructor; cbn; lia || done.
    + exists owner_of_all. rewrite Z.eqb_refl. unfold key_ltb, Z_key_order. by rewrite Z.ltb_irrefl.
    + exists owner_of_all. unfold key_ltb, Z_key_order. by rewrite Z.ltb_irrefl.
  - assert (forall (x y : receiptor_parameter), fm_sorted (fm_set poster x (fm_set platform y []))) as Hs.
    { intros x y. apply fm_set_sorted. by split. }
    pose proof (fm_set_new poster (Receiptor (PERCENT_100 - DEFAULT_PLATFORM_RECEIPTS_RATIO) false 0 0 NEVER)
      (fm_set platform (Receiptor DEFAULT_PLATFORM_RECEIPTS_RATIO false 0 0 NEVER) [])) as Hp.
    rewrite find_set_Z in Hp by done. destruct (Z.eqb_spec poster platform); [congruence|]. specialize (Hp eq_refl).
    split.
    + apply Hs.
    + rewrite Hp. cbn. lia.
    + rewrite Hp. repeat constructor; cbn; lia || done.
    + by rewrite (ratios_perm _ _ Hp).
    + eexists. rewrite !find_set_Z by (done || by split). destruct (Z.eqb_spec platform poster); [done|].
      rewrite Z.eqb_refl. split; [reflexivity|done].
    + eexists. rewrite !find_set_Z by (done || by split). rewrite Z.eqb_refl. split; [reflexivity|by compute].
Qed.

(** ** Offering and selling a share *)
Lemma fm_find_elem {V} k (p : V) (m : flat_map Z V) (P : Z * V -> Prop) :
  fm_find k m = Some p -> Forall P m -> P (k, p).
Proof. intros Hf Hall. rewrite (fm_erase_found _ _ _ Hf) in Hall. by apply Forall_cons in Hall as [? _]. Qed.
Lemma set_share (m : shares) k p p' :
  fm_sorted m -> fm_find k m = Some p -> Forall (fun x => share_ok x.2) m -> share_ok p' ->
  fm_sorted (fm_set k p' m) /\ length (fm_set k p' m) = length m /\ Forall (fun x => share_ok x.2) (fm_set k p' m) /\
  ratios (fm_set k p' m) = ratios m - cur_ratio p + cur_ratio p'.
Proof.
  intros Hs Hf Hall Hp. pose proof (fm_set_found _ _ p' _ Hf) as H1. pose proof (fm_erase_found _ _ _ Hf) as H2.
  split; [by apply fm_set_sorted|]. split; [by rewrite (Permutation_length H1), (Permutation_length H2)|]. split.
  - rewrite H1. constructor; [exact Hp|]. rewrite H2 in Hall. by apply Forall_cons in Hall as [_ ?].
  - rewrite (ratios_perm _ _ H1), (ratios_perm _ _ H2), !ratios_cons. lia.
Qed.
Lemma offer_sound platform poster m k p p' :
  shares_sound platform poster m -> fm_find k m = Some p -> share_ok p' -> cur_ratio p' = cur_ratio p ->
  shares_sound platform poster (fm_set k p' m).
Proof.
  intros [S1 S2 S3 S4 S5 S6] Hf Hp Hc. destruct (set_share m k p p' S1 Hf S3 Hp) as (H1 & H2 & H3 & H4).
  split; [done|lia|done|lia| |].
  - destruct S5 as (x & Hx & Hr). rewrite find_set_Z by done. destruct (Z.eqb_spec platform k) as [->|_]; [|by exists x].
    exists p'. split; [done|]. rewrite Hf in Hx. injection Hx as ->. by rewrite Hc.
  - destruct S6 as (x & Hx & Hr). rewrite find_set_Z by done. destruct (Z.eqb_spec poster k) as [->|_]; [|by exists x].
    exists p'. split; [done|]. rewrite Hf in Hx. injection Hx as ->. by rewrite Hc.
Qed.

Lemma receive_share_ok buyer r m :
  fm_sorted m -> Forall (fun x => share_ok x.2) m -> 0 <= r -> ratios m + r = PERCENT_100 ->
  ((length m <= 4)%nat \/ fm_find buyer m <> None /\ (length m <= 5)%nat) ->
  let m' := receive_share buyer r m in
  fm_sorted m' /\ (length m' <= 5)%nat /\ Forall (fun x => share_ok x.2) m' /\ ratios m' = PERCENT_100 /\
  (forall k, fm_find k m' = if k =? buyer then fm_find buyer m' else fm_find k m) /\
  (forall c, fm_find buyer m = Some c -> exists c', fm_find buyer m' = Some c' /\ cur_ratio c <= cur_ratio c').
Proof.
  intros Hs Hall Hr Ht Hn. cbv zeta. unfold receive_share. destruct (fm_find buyer m) as [q|] eqn:E.
  - pose proof (fm_find_elem _ _ _ _ E Hall) as Hq. cbn in Hq. unfold share_ok in Hq.
    assert (0 <= cur_ratio q + r <= PERCENT_100) as Hb.
    { pose proof (fm_erase_found _ _ _ E) as Hp. rewrite Hp in Hall. apply Forall_cons in Hall as [_ Hall].
      apply share_nonneg, ratios_nonneg in Hall. rewrite (ratios_perm _ _ Hp), ratios_cons in Ht. lia. }
    destruct (set_share m buyer q (q <| cur_ratio ::= fun x => u16 (x + r) |>) Hs E Hall) as (H1 & H2 & H3 & H4).
    { unfold share_ok. cbn. unfold u16. rewrite wrap_small by (unfold is_uint in *; lia). lia. }
    split; [done|]. split; [lia|]. split; [done|]. split.
    + rewrite H4. cbn. unfold u16. rewrite wrap_small by (unfold is_uint in *; lia). lia.
    + split; [intros k; rewrite !find_set_Z by done; rewrite Z.eqb_refl; by destruct (k =? buyer)|].
      intros c [= <-]. eexists. rewrite find_set_Z, Z.eqb_refl by done. split; [done|]. cbn. unfold u16.
      rewrite wrap_small by (unfold is_uint in *; lia). lia.
  - pose proof (fm_set_new buyer (Receiptor r false 0 0 NEVER) m E) as Hp.
    split; [by apply fm_set_sorted|]. split.
    { rewrite Hp. cbn. destruct Hn as [Hn|[Hn _]]; [lia|done]. }
    split; [rewrite Hp; constructor; [|exact Hall]; unfold share_ok; cbn; lia|].
    split; [rewrite (ratios_perm _ _ Hp), ratios_cons; cbn; lia|].
    split; [|done]. intros k. rewrite !find_set_Z by done. rewrite Z.eqb_refl. by destruct (k =? buyer).
Qed.
Lemma give_share_ok platform poster seller buyer q m m1 :
  shares_sound platform poster m -> fm_find seller m = Some q -> seller <> buyer -> 0 < buyout_ratio q ->
  (buyout_ratio q < cur_ratio q -> fm_find buyer m <> None \/ (length m < 5)%nat) ->
  give_share seller q m = Ok m1 ->
  fm_sorted m1 /\ Forall (fun x => share_ok x.2) m1 /\ ratios m1 + buyout_ratio q = PERCENT_100 /\
  ((length m1 <= 4)%nat \/ fm_find buyer m1 <> None /\ (length m1 <= 5)%nat) /\
  (forall k, k <> seller -> fm_find k m1 = fm_find k m) /\
  (buyout_ratio q < cur_ratio q -> exists p, fm_find seller m1 = Some p /\ cur_ratio p = cur_ratio q - buyout_ratio q).
Proof.
  intros Hs Hf Hne H0 Hroom H1. destruct (share_split _ _ _ _ _ Hs Hf) as (Hq & Hrest & Hr0 & Hsum & Hlen).
  pose proof Hs as [S1 S2 S3 S4 _ _]. unfold share_ok in Hq. unfold give_share in H1.
  destruct (Z.ltb_spec (buyout_ratio q) (cur_ratio q)) as [Hlt|Hge].
  - rewrite Hf in H1. cbn in H1. injection H1 as <-.
    set (q' := q <| cur_ratio := _ |> <| to_buyout := _ |> <| buyout_price := _ |> <| buyout_ratio := _ |>).
    assert (cur_ratio q' = cur_ratio q - buyout_ratio q) as Hc.
    { unfold q'. cbn. unfold u16. apply wrap_small. unfold is_uint in *. lia. }
    destruct (set_share m seller q q' S1 Hf S3) as (B1 & B2 & B3 & B4).
    { unfold share_ok. rewrite Hc. cbn. lia. }
    split; [done|]. split; [done|]. split; [lia|]. split.
    + rewrite B2, find_set_Z by done. destruct (Z.eqb_spec buyer seller); [congruence|].
      destruct (Hroom Hlt); [right|left]; [done|lia].
    + split.
      * intros k Hk. rewrite find_set_Z by done. by destruct (Z.eqb_spec k seller).
      * intros _. exists q'. rewrite find_set_Z, Z.eqb_refl by done. done.
  - destruct (Z.eqb_spec (buyout_ratio q) (cur_ratio q)) as [He|]; [|lia]. injection H1 as <-.
    split; [by apply fm_erase_sorted|]. split; [done|]. split; [lia|]. split; [left; lia|].
    split; [intros k Hk; by apply fm_find_erase_ne|lia].
Qed.
Lemma sell_share_sound platform poster seller buyer q m m' :
  shares_sound platform poster m -> fm_find seller m = Some q -> seller <> buyer -> 0 < buyout_ratio q ->
  (platform <> poster -> seller <> platform /\ buyer <> platform) ->
  (seller = poster -> buyout_ratio q + 2500 + (if poster =? platform then 2500 else 0) <= cur_ratio q) ->
  (buyout_ratio q < cur_ratio q -> fm_find buyer m <> None \/ (length m < 5)%nat) ->
  sell_share seller buyer q m = Ok m' -> shares_sound platform poster m'.
Proof.
  intros Hs Hf Hne H0 Hplat Hpost Hroom H. apply bind_ok in H as (m1 & H1 & [= <-]).
  destruct (give_share_ok _ _ _ buyer _ _ _ Hs Hf Hne H0 Hroom H1) as (A1 & A2 & A3 & A4 & A5 & A6).
  destruct (receive_share_ok buyer (buyout_ratio q) m1 A1 A2 ltac:(lia) A3 A4) as (B1 & B2 & B3 & B4 & B5 & B6).
  destruct Hs as [_ _ _ _ S5 S6].
  assert (forall x c, fm_find x m = Some c -> (x = seller -> seller = poster) ->
    exists c', fm_find x (receive_share buyer (buyout_ratio q) m1) = Some c' /\
      cur_ratio c - (if x =? seller then buyout_ratio q else 0) <= cur_ratio c' /\
      (x <> seller -> x <> buyer -> c' = c)) as Hkeep.
  { intros x c Hx Hxs. destruct (Z.eqb_spec x seller) as [->|Hxs'].
    - rewrite Hf in Hx. injection Hx as <-. specialize (Hpost (Hxs eq_refl)).
      destruct A6 as (p & Hp & Hc); [destruct (poster =? platform); lia|]. exists p.
      rewrite B5. destruct (Z.eqb_spec seller buyer); [congruence|]. split; [done|]. split; [lia|done].
    - rewrite <- A5 in Hx by done. destruct (Z.eqb_spec x buyer) as [->|Hxb].
      + destruct (B6 c Hx) as (c' & Hc' & Hr). exists c'. split; [done|]. split; [lia|done].
      + exists c. rewrite B5. destruct (Z.eqb_spec x buyer); [done|]. split; [done|]. split; [lia|done]. }
  split; [done|done|done|done| |].
  - destruct S5 as (p & Hp & Hr). destruct (Z.eqb_spec platform poster) as [->|Hpp].
    + destruct (Hkeep _ _ Hp) as (c' & Hc' & Hle & _); [done|]. exists c'. split; [done|].
      destruct (Z.eqb_spec poster seller) as [->|]; [|lia]. rewrite Hf in Hp. injection Hp as <-.
      specialize (Hpost eq_refl). rewrite Z.eqb_refl in Hpost. lia.
    + destruct (Hplat Hpp) as [N1 N2]. destruct (Hkeep _ _ Hp) as (c' & Hc' & _ & Hsame); [congruence|].
      exists c'. split; [done|]. by rewrite Hsame by congruence.
  - destruct S6 as (p & Hp & Hr). destruct (Hkeep _ _ Hp) as (c' & Hc' & Hle & _); [done|]. exists c'. split; [done|].
    destruct (Z.eqb_spec poster seller) as [->|]; [|lia]. rewrite Hf in Hp. injection Hp as <-.
    specialize (Hpost eq_refl). destruct (seller =? platform); lia.
Qed.

(** ** The handlers and the posts *)
Definition posts_of (d : database) : gmap (Z * Z * Z) post_object := posts (contents d).
#[export] Instance posts_money : MoneyFrame posts_of.
Proof. split; [by split|done..]. Qed.

(** What recording rewards and profits leaves alone. *)
Class ContentFrame {X} (v : database -> X) : Prop := {
  cf_auth d f : v (d <| auth_platforms ::= f |>) = v d;
  cf_platforms d f : v (d <| platforms ::= f |>) = v d;
  cf_contents d f : advertising_orders (f (contents d)) = advertising_orders (contents d) ->
    posts (f (contents d)) = posts (contents d) -> v (d <| contents ::= f |>) = v d;
}.
#[export] Instance posts_content : ContentFrame posts_of.
Proof. by split. Qed.
#[export] Instance books_content : ContentFrame books.
Proof. split; [done..|]. intros d f H _. unfold books, owed_coins. cbn. by rewrite H. Qed.

Section frame.
Context {F : FcInt} {C : ChainConfig} {X : Type} (v : database -> X) {CF : ContentFrame v}.
Lemma keeps_use_auth k x : keeps v (use_auth k x).
Proof.
  intros d u d' H. unfold use_auth in H. apply bind_ok in H as (o & _ & (y & _ & [= _ <-])%bind_ok). apply cf_auth.
Qed.
Lemma keeps_use_signing a u s x : keeps v (use_signing a u s x).
Proof. destruct a; cbn; [apply keeps_use_auth|apply keeps_ret]. Qed.
Lemma keeps_modify_platform uid f : keeps v (modify_platform uid f).
Proof. intros d u d' H. apply bind_ok in H as (p & _ & [= _ <-]). apply cf_platforms. Qed.
Lemma keeps_touch k t f g : keeps v (touch_active_post k t f g).
Proof.
  unfold touch_active_post. apply keeps_bind; [apply keeps_get|intros d]. cbv zeta. apply keeps_when.
  destruct (_ !! _); [|apply keeps_when].
  all: apply keeps_bind; [apply keeps_lift|intros ?]; intros d0 u d1 [= _ <-]; by apply cf_contents.
Qed.
Lemma keeps_credit n p a x : keeps v (credit_platform n p a x).
Proof.
  unfold credit_platform. apply keeps_bind; [apply keeps_get|intros d].
  destruct (find_platform_by_owner d p); [|apply keeps_ret].
  apply keeps_bind; [apply keeps_lift|intros q]. apply keeps_modify_platform.
Qed.
End frame.
#[export] Hint Resolve keeps_use_auth keeps_use_signing keeps_modify_platform keeps_touch keeps_credit : keeps.

Section posts.
Context {F : FcInt} {C : ChainConfig}.

Lemma posts_upd f : (forall d, posts_of (f d) = posts_of d) -> keeps posts_of (upd f).
Proof. intros Hf d u d' [= _ <-]. apply Hf. Qed.
Lemma keeps_pay_post {X} (v : database -> X) pay platform x rs :
  (forall uid y, keeps v (pay uid y)) -> keeps v (pay_post pay platform x rs).
Proof.
  intros Hp. unfold pay_post. apply keeps_bind; [|intros [s m]; apply keeps_bind; [apply Hp|intros _; apply keeps_ret]].
  generalize (u128_of x) at 2. generalize (@nil (Z * Z)). induction rs as [|[uid p] rs IH]; intros paid s; [apply keeps_ret|].
  cbn. destruct (uid =? platform); [apply IH|]. apply keeps_bind; [apply keeps_lift|intros y].
  apply keeps_bind; [apply Hp|intros _]. apply IH.
Qed.
Lemma posts_adjust_prepaid uid x : keeps posts_of (adjust_prepaid uid x).
Proof. apply keeps_modify_stats. apply _. Qed.
Lemma posts_spend uid x : keeps posts_of (spend_prepaid uid x).
Proof. apply keeps_modify_stats. apply _. Qed.
Lemma posts_forward n s op plan : keeps posts_of (pay_forward n s op plan).
Proof.
  unfold pay_forward. do 4 (apply keeps_bind; [apply keeps_get || apply keeps_lift|intros ?]).
  apply keeps_bind; [apply keeps_use_signing, _|intros _]. apply keeps_bind; [apply posts_spend|intros _].
  apply keeps_bind; [apply keeps_pay_post, posts_adjust_prepaid|intros [sp paid]].
  apply keeps_bind; [apply keeps_touch, _|intros _]. apply keeps_credit, _.
Qed.

Lemma modify_post_ok k f d u d' :
  modify_post k f d = Ok (u, d') ->
  exists p p', posts_of d !! k = Some p /\ f p = Ok p' /\ posts_of d' = <[k := p']> (posts_of d).
Proof.
  intros H. unfold modify_post in H. peel H as dg Hg. peel H as p Hp. apply deref_ok in Hp. peel H as p' Hp'.
  injection H as _ <-. by exists p, p'.
Qed.
Lemma posts_sound_set platform poster pid p d d' :
  posts_of d' = <[(platform, poster, pid) := p]> (posts_of d) -> posts_sound d ->
  shares_sound platform poster (receiptors p) -> price_ok (forward_price p) -> posts_sound d'.
Proof.
  intros Hd Hs Hp1 Hp2 pl po n q Hq. change (posts (contents d')) with (posts_of d') in Hq. rewrite Hd in Hq.
  apply lookup_insert_Some in Hq as [[[= <- <- <-] <-]|[_ Hq]]; [done|]. by eapply Hs.
Qed.
Lemma posts_sound_same d d' : posts_of d' = posts_of d -> posts_sound d -> posts_sound d'.
Proof. unfold posts_sound, posts_of. by intros ->. Qed.
End posts.

(** ** Operations on posts keep the shares whole *)
Definition post_typed (op : post_operation) : Prop :=
  forall e, po_extensions op = Some e ->
    (forall x, px_forward_price e = Some x -> x < 2 ^ 63) /\
    (forall m, px_receiptors e = Some m -> fm_sorted m /\ Forall (fun x => receiptor_typed x.2) m).
Definition post_update_typed (op : post_update_operation) : Prop :=
  forall e, pu_extensions op = Some e ->
    (forall x, ux_forward_price e = Some x -> x < 2 ^ 63) /\ (forall x, ux_buyout_ratio e = Some x -> is_uint 16 x) /\
    (forall x, ux_buyout_price e = Some x -> x < 2 ^ 63).

Section operations.
Context {F : FcInt} {C : ChainConfig}.
Variable is_valid_uid : Z -> bool.

Lemma post_evaluate_ext s op d plan : post_evaluate s op d = Ok plan -> pp_ext plan = None \/ pp_ext plan = po_extensions op.
Proof.
  unfold post_evaluate. intros H. do 7 (apply bind_ok in H as (? & _ & H)). destruct (_ <=? _); [|injection H as <-; by left].
  apply bind_ok in H as (e & He & H). apply deref_ok in He. right. unfold post_ext_evaluate in H. cbv zeta in H.
  do 6 (apply bind_ok in H as (? & _ & H)). by injection H as <-.
Qed.
Lemma new_post_sound op e now :
  validate_post is_valid_uid op = Ok tt -> post_typed op -> e = None \/ e = po_extensions op ->
  shares_sound (po_platform op) (po_poster op) (receiptors (new_post op e now)) /\
  price_ok (forward_price (new_post op e now)).
Proof.
  intros Hv Ht He. destruct e as [e|]; [destruct He as [|He]; [done|]|].
  - symmetry in He. unfold validate_post in Hv. rewrite He in Hv. do 7 (apply bind_ok in Hv as (? & _ & Hv)).
    do 4 (apply bind_ok in Hv as (? & _ & Hv)). apply bind_ok in Hv as (? & Hm & Hv). apply bind_ok in Hv as (? & _ & Hv).
    apply guard_ok_inv in Hv. destruct (Ht e He) as [Hx Hr]. cbn. split.
    + destruct (px_receiptors e) as [m|]; cbn; [|apply default_receiptors_sound].
      destruct (Hr m eq_refl). by eapply validate_shares_sound.
    + intros y E. rewrite E in Hv. cbn in Hv. bool_to_prop. specialize (Hx y E). lia.
  - cbn. split; [apply default_receiptors_sound|done].
Qed.
Lemma post_keeps_sound n s op d u d' :
  validate_post is_valid_uid op = Ok tt -> post_typed op -> post n s op d = Ok (u, d') ->
  posts_sound d -> posts_sound d'.
Proof.
  intros Hv Ht H Hs. unfold post in H. peel H as dg Hg. peel H as plan Hplan. apply post_evaluate_ext in Hplan.
  step H as u1 d1 H1. apply (keeps_modify_stats posts_of) in H1. step H as u2 d2 H2.
  apply (keeps_when posts_of _ _ (posts_forward _ _ _ _)) in H2. cbv zeta in H. peel H as dg1 Hg1. peel H as u3 E3.
  injection H as _ <-. destruct (new_post_sound op (pp_ext plan) (head_block_time d) Hv Ht Hplan) as [N1 N2].
  eapply (posts_sound_set _ _ _ _ d2); [reflexivity| |exact N1|exact N2].
  eapply posts_sound_same; [|exact Hs]. congruence.
Qed.
Lemma update_ext_ok e p p' platform poster :
  (forall r x q, ux_receiptor e = Some r -> fm_find r (receiptors p) = Some q -> ux_buyout_ratio e = Some x ->
     0 <= x <= cur_ratio q) ->
  (forall r x, ux_receiptor e = Some r -> ux_buyout_price e = Some x -> 0 < x < 2 ^ 63) -> price_ok (ux_forward_price e) ->
  update_ext e p = Ok p' -> shares_sound platform poster (receiptors p) -> price_ok (forward_price p) ->
  shares_sound platform poster (receiptors p') /\ price_ok (forward_price p').
Proof.
  intros Hr Hp Hf H Hs Hfp. unfold update_ext in H. apply bind_ok in H as (p1 & H1 & [= <-]). cbn.
  destruct (ux_receiptor e) as [r|].
  - apply bind_ok in H1 as (q & Hq & [= <-]). apply deref_ok in Hq. cbn in *. split.
    + eapply offer_sound; [exact Hs|exact Hq| |done].
      pose proof (fm_find_elem _ _ _ _ Hq (ss_each _ _ _ Hs)) as Hk. unfold share_ok, offer in *. cbn in *. split.
      * destruct (ux_buyout_ratio e) as [x|] eqn:E; cbn; [|lia]. specialize (Hr r x q eq_refl Hq eq_refl). lia.
      * destruct (ux_buyout_price e) as [x|]; cbn; [|lia]. specialize (Hp r x eq_refl eq_refl). lia.
    + by destruct (ux_forward_price e).
  - injection H1 as <-. cbn. split; [done|]. by destruct (ux_forward_price e).
Qed.
Lemma post_update_keeps_sound sign op d u d' :
  validate_post_update is_valid_uid op = Ok tt -> post_update_typed op -> post_update sign op d = Ok (u, d') ->
  posts_sound d -> posts_sound d'.
Proof.
  intros Hv Ht H Hs. unfold post_update in H. peel H as dg Hg. peel H as u1 He.
  apply modify_post_ok in H as (p & p' & Hp & Hf & Hd). destruct (Hs _ _ _ _ Hp) as [S1 S2].
  assert (shares_sound (pu_platform op) (pu_poster op) (receiptors p') /\ price_ok (forward_price p')) as [S3 S4];
    [|by eapply posts_sound_set].
  apply bind_ok in Hf as (p2 & Hf & [= <-]). cbn.
  unfold post_update_evaluate in He. do 4 (apply bind_ok in He as (? & _ & He)). apply bind_ok in He as (p0 & Hp0 & He).
  apply deref_ok in Hp0. unfold find_post_by_platform in Hp0. change (posts (contents d)) with (posts_of d) in Hp0. rewrite Hp in Hp0. injection Hp0 as <-.
  destruct (pu_extensions op) as [e|] eqn:Ee; [|by injection Hf as <-].
  destruct (HARDFORK_0_4_TIME <=? head_block_time d); [|by injection Hf as <-].
  destruct (Ht e Ee) as (T1 & T2 & T3). unfold validate_post_update in Hv. rewrite Ee in Hv.
  do 4 (apply bind_ok in Hv as (? & _ & Hv)). apply bind_ok in Hv as (? & Hvr & Hv). apply guard_ok_inv in Hv.
  unfold update_ext_evaluate in He. apply bind_ok in He as (? & _ & He). apply bind_ok in He as (? & Hsale & _).
  eapply update_ext_ok; [| | |exact Hf|exact S1|exact S2].
  - intros r y q Er Hq Ex. rewrite Er in Hsale. unfold sale_evaluate in Hsale. rewrite Ex in Hsale.
    do 2 (apply bind_ok in Hsale as (? & _ & Hsale)). apply bind_ok in Hsale as (q0 & Hq0 & Hsale). apply deref_ok in Hq0.
    cbn in Hq. rewrite Hq in Hq0. injection Hq0 as <-. apply bind_ok in Hsale as (? & Hle & _).
    apply guard_ok_inv, Z.leb_le in Hle. specialize (T2 y Ex). unfold is_uint in T2. lia.
  - intros r y Er Ex. rewrite Er in Hvr. do 3 (apply bind_ok in Hvr as (? & _ & Hvr)). apply guard_ok_inv in Hvr.
    rewrite Ex in Hvr. cbn in Hvr. bool_to_prop. specialize (T3 y Ex). lia.
  - intros y Ex. rewrite Ex in Hv. cbn in Hv. bool_to_prop. specialize (T1 y Ex). lia.
Qed.
Lemma buyout_keeps_sound s op d u d' :
  validate_buyout is_valid_uid op = Ok tt -> buyout s op d = Ok (u, d') -> posts_sound d -> posts_sound d'.
Proof.
  intros Hv H Hs. unfold buyout in H. peel H as dg Hg. peel H as auth He. peel H as p Hp. apply deref_ok in Hp.
  peel H as q Hq. apply deref_ok in Hq.
  step H as u1 d1 H1. apply (keeps_use_signing posts_of) in H1. step H as u2 d2 H2. apply posts_spend in H2.
  step H as u3 d3 H3. apply posts_adjust_prepaid in H3. apply modify_post_ok in H as (p0 & p' & Hp0 & Hf & Hd).
  rewrite H3, H2, H1 in Hp0, Hd. unfold find_post_by_platform in Hp. unfold posts_of in Hp0. rewrite Hp in Hp0.
  injection Hp0 as <-. apply bind_ok in Hf as (m & Hm & [= <-]). destruct (Hs _ _ _ _ Hp) as [S1 S2].
  eapply posts_sound_set; [exact Hd|exact Hs| |exact S2]. cbn.
  assert (bo_from_account_uid op <> bo_receiptor_account_uid op /\ (bo_platform op <> bo_poster op ->
    bo_from_account_uid op <> bo_platform op /\ bo_receiptor_account_uid op <> bo_platform op)) as [V1 V2].
  { unfold validate_buyout in Hv. apply bind_ok in Hv as (? & _ & Hv). apply bind_ok in Hv as (? & H4 & Hv).
    apply bind_ok in Hv as (? & H5 & _). apply guard_ok_inv, negb_true_iff, Z.eqb_neq in H4. split; [done|]. intros Hne.
    destruct (Z.eqb_spec (bo_platform op) (bo_poster op)); [done|]. cbn in H5. inv_ok. by bool_to_prop. }
  unfold buyout_evaluate in He. do 3 (apply bind_ok in He as (? & _ & He)). apply bind_ok in He as (p1 & Hp1 & He).
  apply deref_ok in Hp1. unfold find_post_by_platform in Hp1. rewrite Hp in Hp1. injection Hp1 as <-.
  do 2 (apply bind_ok in He as (? & _ & He)). apply bind_ok in He as (q1 & Hq1 & He). apply deref_ok in Hq1.
  rewrite Hq in Hq1. injection Hq1 as <-. apply bind_ok in He as (? & Hsale & He). apply guard_ok_inv in Hsale.
  apply bind_ok in He as (? & Hmin & He). apply bind_ok in He as (? & Hroom & _). apply guard_ok_inv in Hroom.
  unfold for_sale_at in Hsale. bool_to_prop.
  refine (sell_share_sound _ _ _ _ _ _ _ S1 Hq _ _ _ _ _ Hm); [congruence|lia|tauto|..].
  - intros E. rewrite E, Z.eqb_refl in Hmin. apply guard_ok_inv, Z.leb_le in Hmin.
    unfold DEFAULT_PLATFORM_RECEIPTS_RATIO, DEFAULT_POSTER_MIN_RECEIPTS_RATIO in Hmin. lia.
  - intros Hlt. destruct (Z.ltb_spec (buyout_ratio q) (cur_ratio q)); [|lia]. cbn in Hroom.
    destruct (fm_find (bo_from_account_uid op) (receiptors p)); [by left|]. cbn in Hroom. right. bool_to_prop. lia.
Qed.
End operations.

(** ** Payments *)
Definition part_of (x : Z) (p : receiptor_parameter) : Z := x * cur_ratio p / PERCENT_100.
Definition others (platform : Z) (m : shares) : shares := filter (fun y => y.1 <> platform) m.
(** Who gets what of [x]: every receiptor its share rounded down, the platform the rest. *)
Definition division (platform x : Z) (m : shares) : list (Z * Z) :=
  let parts := map (fun y => (y.1, part_of x y.2)) (others platform m) in
  parts ++ [(platform, x - zsum parts.*2)].

Lemma parts_bound x (m : shares) :
  0 <= x -> Forall (fun y => 0 <= cur_ratio y.2) m ->
  0 <= zsum (map (fun y => (y.1, part_of x y.2)) m).*2 /\
  PERCENT_100 * zsum (map (fun y => (y.1, part_of x y.2)) m).*2 <= x * ratios m.
Proof.
  intros Hx. induction 1 as [|[k p] m Hp _ [IH1 IH2]]; [cbn; lia|]. rewrite ratios_cons. cbn in *. unfold part_of at 1 3.
  assert (0 <= x * cur_ratio p) by nia. pose proof (Z.mul_div_le (x * cur_ratio p) 10000 ltac:(lia)).
  assert (0 <= x * cur_ratio p / 10000) by (apply Z.div_pos; lia). lia.
Qed.
Lemma others_ratios platform poster m p :
  shares_sound platform poster m -> fm_find platform m = Some p ->
  ratios (others platform m) = PERCENT_100 - cur_ratio p /\ Forall (fun y => 0 <= cur_ratio y.2 <= PERCENT_100) (others platform m).
Proof.
  intros Hs Hp. destruct (share_split _ _ _ _ _ Hs Hp) as (Hok & Hall & Hr & Hsum & _). pose proof (ss_sorted _ _ _ Hs) as Hso.
  pose proof (fm_erase_found _ _ _ Hp) as Hperm. set (rest := fm_erase platform m) in *. clearbody rest.
  assert (others platform m ≡ₚ rest) as Ho.
  { unfold others. rewrite Hperm. rewrite filter_cons_False by tauto.
    apply fm_sorted_nodup in Hso. rewrite Hperm in Hso. cbn in Hso. apply NoDup_cons in Hso as [Hn _].
    assert (Forall (fun y => y.1 <> platform) rest) as Hf.
    { rewrite Forall_forall. intros y Hy E. apply Hn. rewrite <- E. by apply list_elem_of_fmap_2. }
    clear -Hf. induction Hf as [|y l Hy _ IH]; [done|]. rewrite filter_cons_True by done. by rewrite IH. }
  split; [rewrite (ratios_perm _ _ Ho); lia|]. rewrite Ho. clear -Hall Hr Hsum Hok. unfold share_ok in Hok.
  assert (forall l, Forall (fun x : Z * receiptor_parameter => share_ok x.2) l -> ratios l <= PERCENT_100 ->
    Forall (fun y : Z * receiptor_parameter => 0 <= cur_ratio y.2 <= PERCENT_100) l) as G; [|apply G; [done|lia]].
  induction 1 as [|[k q] l Hq Hl IH]; intros Hle; [constructor|]. rewrite ratios_cons in Hle. cbn in Hq. unfold share_ok in Hq.
  pose proof (ratios_nonneg _ (share_nonneg _ Hl)). constructor; [cbn; lia|]. apply IH. lia.
Qed.

Section payments.
Context {F : FcInt} {FL : FcIntLaws F} {C : ChainConfig}.
Notation parts x l := (map (fun y : Z * receiptor_parameter => (y.1, part_of x y.2)) l).
Definition record_paid (l : list (Z * Z)) (paid : flat_map Z Z) : flat_map Z Z :=
  fold_left (fun m y => fm_emplace y.1 y.2 m) l paid.

Lemma part_bounds x p : 0 <= x < 2 ^ 63 -> 0 <= cur_ratio p <= PERCENT_100 -> 0 <= part_of x p <= x.
Proof.
  intros Hx Hp. unfold part_of. split; [apply Z.div_pos; nia|]. apply Z.div_le_upper_bound; nia.
Qed.
Lemma part_u128 x p : 0 <= x < 2 ^ 63 -> 0 <= cur_ratio p <= PERCENT_100 ->
  u128_div (u128_mul x (cur_ratio p)) PERCENT_100 = Ok (part_of x p) /\ u128_to_i64 (part_of x p) = part_of x p.
Proof.
  intros Hx Hp. pose proof (part_bounds x p Hx Hp). rewrite u128_mul_small, u128_div_law by nia. split; [done|].
  apply u128_to_i64_law. lia.
Qed.
Lemma pay_receiptors_parts pay platform x rs :
  0 <= x < 2 ^ 63 -> Forall (fun y => 0 <= cur_ratio y.2 <= PERCENT_100) (others platform rs) ->
  forall sp paid d, zsum (parts x (others platform rs)).*2 <= sp < 2 ^ 63 ->
  pay_receiptors pay platform x rs sp paid d =
  (mfor (fun y => pay y.1 y.2) (parts x (others platform rs)) ;;
   mret (sp - zsum (parts x (others platform rs)).*2, record_paid (parts x (others platform rs)) paid)) d.
Proof.
  intros Hx. induction rs as [|[uid p] rs IH]; intros Hall sp paid d Hsp.
  - cbn. by rewrite Z.sub_0_r.
  - cbn [pay_receiptors]. destruct (Z.eqb_spec uid platform) as [->|Hne].
    + unfold others in *. rewrite filter_cons_False in * by tauto. by apply IH.
    + unfold others in *. rewrite filter_cons_True in * by done. apply Forall_cons in Hall as [Hp Hall]. cbn in Hp.
      destruct (part_u128 x p Hx Hp) as [E1 E2]. rewrite E1. unfold mbind at 1, M_bind, lift. rewrite E2.
      cbn [map fmap list_fmap fst snd zsum mfor] in *. unfold mbind, M_bind.
      destruct (pay uid (part_of x p) d) as [[[] d1]|e]; [|done].
      pose proof (part_bounds x p Hx Hp). pose proof (parts_bound x (filter (fun y => y.1 <> platform) rs)) as [Hb _];
        [lia|eapply Forall_impl; [exact Hall|cbn; lia]|].
      rewrite u128_sub_small by lia. rewrite IH by (done || lia). unfold mbind, M_bind.
      destruct (mfor _ _ d1) as [[[] d2]|e]; [|done]. unfold mret, M_ret. do 3 f_equal. lia.
Qed.
(** Paying a post is paying everybody its part. *)
Lemma pay_post_division pay platform poster x m d :
  shares_sound platform poster m -> 0 <= x < 2 ^ 63 ->
  exists r, pay_post pay platform x m d =
    (mfor (fun y => pay y.1 y.2) (division platform x m) ;; mret (r, record_paid (division platform x m) [])) d /\
    (platform, r) ∈ division platform x m.
Proof.
  intros Hs Hx. destruct (ss_platform _ _ _ Hs) as (p & Hp & _).
  destruct (others_ratios _ _ _ _ Hs Hp) as [Hr Hall]. destruct (share_split _ _ _ _ _ Hs Hp) as ([Hok _] & _).
  destruct (parts_bound x (others platform m)) as [B1 B2]; [lia|eapply Forall_impl; [exact Hall|cbn; lia]|].
  set (l := parts x (others platform m)) in *. rewrite Hr in B2.
  assert (zsum l.*2 <= x) by (assert (0 <= x * cur_ratio p) by nia; lia). exists (x - zsum l.*2). split.
  - unfold pay_post. unfold mbind at 1, M_bind at 1. rewrite u128_of_law, wrap_small by (unfold is_uint; lia).
    rewrite pay_receiptors_parts by (done || (fold l; lia)). fold l. unfold division. cbv zeta. fold l.
    unfold mbind, M_bind, mret, M_ret.
    assert (forall l1 l2 d0, mfor (fun y : Z * Z => pay y.1 y.2) (l1 ++ l2) d0 =
      match mfor (fun y : Z * Z => pay y.1 y.2) l1 d0 with Ok (_, d1) => mfor (fun y : Z * Z => pay y.1 y.2) l2 d1
      | Throw e => Throw e end) as Happ.
    { induction l1 as [|y l1 IH]; intros l2 d0; [done|]. cbn. unfold mbind, M_bind.
      destruct (pay y.1 y.2 d0) as [[[] d1]|]; [apply IH|done]. }
    rewrite Happ. destruct (mfor _ l d) as [[[] d1]|e]; [|done]. cbn. unfold mbind, M_bind, mret, M_ret.
    rewrite u128_to_i64_law by lia. destruct (pay platform _ d1) as [[[] d2]|e]; [|done].
    do 3 f_equal. unfold record_paid. by rewrite fold_left_app.
  - unfold division. cbv zeta. fold l. apply elem_of_app. right. by left.
Qed.

Lemma division_exact platform poster x m :
  shares_sound platform poster m -> 0 <= x < 2 ^ 63 ->
  zsum (division platform x m).*2 = x /\ Forall (fun y => 0 <= y.2) (division platform x m) /\
  (forall uid p, fm_find uid m = Some p -> uid <> platform -> (uid, part_of x p) ∈ division platform x m) /\
  (forall p r, fm_find platform m = Some p -> (platform, r) ∈ division platform x m -> part_of x p <= r).
Proof.
  intros Hs Hx. destruct (ss_platform _ _ _ Hs) as (p & Hp & _). destruct (others_ratios _ _ _ _ Hs Hp) as [Hr Hall].
  destruct (share_split _ _ _ _ _ Hs Hp) as ([Hok _] & _).
  destruct (parts_bound x (others platform m)) as [B1 B2]; [lia|eapply Forall_impl; [exact Hall|cbn; lia]|].
  rewrite Hr in B2. unfold division. cbv zeta. set (l := parts x (others platform m)) in *.
  assert (0 <= x * cur_ratio p) by nia. split_and!.
  - rewrite fmap_app, zsum_app. cbn. lia.
  - apply Forall_app. split; [|repeat constructor; cbn; lia]. unfold l. apply Forall_fmap.
    eapply Forall_impl; [exact Hall|]. intros [k q] Hq. cbn in *. by apply part_bounds.
  - intros uid q Hq Hne. apply elem_of_app. left. unfold l.
    change (uid, part_of x q) with ((fun y : Z * receiptor_parameter => (y.1, part_of x y.2)) (uid, q)).
    apply list_elem_of_fmap_2. apply list_elem_of_filter. split; [done|].
    apply fm_find_Some; [by apply (ss_sorted _ _ _ Hs)|done].
  - intros q r Hq Hin. rewrite Hp in Hq. injection Hq as <-. apply elem_of_app in Hin as [Hin|Hin].
    + exfalso. apply list_elem_of_fmap in Hin as ([k q] & [= Hk _] & Hq). cbn in Hk. subst k.
      by apply list_elem_of_filter in Hq as [Hq _].
    + apply list_elem_of_singleton in Hin as [= ->]. unfold part_of. apply Z.div_le_upper_bound; lia.
Qed.

Lemma mfor_pay_shift aid pay l d u d' :
  (forall uid y d u d', pay uid y d = Ok (u, d') -> shift d d' (only aid y)) ->
  mfor (fun y : Z * Z => pay y.1 y.2) l d = Ok (u, d') -> shift d d' (only aid (zsum l.*2)).
Proof.
  intros Hpay. revert d. induction l as [|[k y] l IH]; intros d H.
  - injection H as _ <-. eapply shift_ext, shift_refl. intros a. by rewrite only_zero.
  - cbn in H. step H as u1 d1 H1. apply Hpay in H1. apply IH in H. cbn. shift_seq H1 H.
Qed.
Lemma pay_post_shift aid pay platform poster x m d r d' :
  (forall uid y d u d', pay uid y d = Ok (u, d') -> shift d d' (only aid y)) ->
  shares_sound platform poster m -> 0 <= x < 2 ^ 63 ->
  pay_post pay platform x m d = Ok (r, d') -> shift d d' (only aid x).
Proof.
  intros Hpay Hs Hx H. destruct (pay_post_division pay _ _ _ _ d Hs Hx) as (y & E & _). rewrite E in H.
  step H as u1 d1 H1. injection H as _ <-. apply (mfor_pay_shift aid) in H1; [|exact Hpay].
  destruct (division_exact _ _ _ _ Hs Hx) as [Hz _]. by rewrite Hz in H1.
Qed.
Lemma prepaid_shift uid y d u d' : adjust_prepaid uid y d = Ok (u, d') -> shift d d' (only CORE_ASSET_AID y).
Proof.
  intros H. eapply modify_stats_shift; [exact H|]. intros s s' _ Hs. apply bind_ok in Hs as (z & Hz & [= <-]).
  apply safe_add_ok in Hz as [-> _]. split_and!; [done..|]. cbn. lia.
Qed.
Lemma spend_shift uid y d u d' : spend_prepaid uid y d = Ok (u, d') -> shift d d' (only CORE_ASSET_AID (- y)).
Proof.
  intros H. eapply modify_stats_shift; [exact H|]. intros s s' _ Hs. apply bind_ok in Hs as (z & Hz & [= <-]).
  apply safe_sub_ok in Hz as [-> _]. split_and!; [done..|]. cbn. lia.
Qed.
End payments.

(** ** No coin is made or lost *)
Section coins.
Context {F : FcInt} {FL : FcIntLaws F} {C : ChainConfig}.

(** The post that is paid for. *)
Definition payable_post (k : Z * Z * Z) (d : database) : Prop :=
  forall p, posts_of d !! k = Some p -> shares_sound k.1.1 k.1.2 (receiptors p) /\ price_ok (forward_price p).
Lemma books_use_signing a u s x d v d' : use_signing a u s x d = Ok (v, d') -> neutral d d'.
Proof. apply books_neutral, keeps_use_signing, _. Qed.
Lemma books_touch k t f g d v d' : touch_active_post k t f g d = Ok (v, d') -> neutral d d'.
Proof. apply books_neutral, keeps_touch, _. Qed.
Lemma books_credit n p a x d v d' : credit_platform n p a x d = Ok (v, d') -> neutral d d'.
Proof. apply books_neutral, keeps_credit, _. Qed.
Lemma books_set_post k p d v d' : set_post k p d = Ok (v, d') -> neutral d d'.
Proof. apply books_neutral. by apply books_upd. Qed.
Lemma modify_post_neutral k f d u d' : modify_post k f d = Ok (u, d') -> neutral d d'.
Proof.
  intros H. unfold modify_post in H. peel H as dg Hg. peel H as p Hp. peel H as p' Hp'. by eapply books_set_post.
Qed.

Lemma pay_forward_neutral n s op plan k d u d' :
  pp_origin plan = Some k -> payable_post k d -> pay_forward n s op plan d = Ok (u, d') -> neutral d d'.
Proof.
  intros Hk Hp H. unfold pay_forward in H. peel H as dg Hg. peel H as k0 Hk0. rewrite Hk in Hk0. injection Hk0 as <-.
  peel H as p Hpost. apply deref_ok in Hpost. peel H as x Hx. apply deref_ok in Hx.
  destruct (Hp p Hpost) as [Hs Hpr]. specialize (Hpr x Hx).
  step H as u1 d1 H1. apply books_use_signing in H1. step H as u2 d2 H2. apply spend_shift in H2.
  step H as r d3 H3. destruct r as [sp paid]. apply (pay_post_shift CORE_ASSET_AID _ _ k.1.2) in H3; [|exact prepaid_shift|exact Hs|lia].
  step H as u4 d4 H4. apply books_touch in H4. apply books_credit in H.
  eapply neutral_trans; [exact H1|]. eapply neutral_trans_r; [|eapply neutral_trans; [exact H4|exact H]]. shift_seq H2 H3.
Qed.
Lemma post_plan_origin s op d plan : post_evaluate s op d = Ok plan ->
  is_forward (pp_ext plan ≫= px_post_type) = true ->
  exists pl po pid, pp_origin plan = Some (pl, po, pid) /\ po_origin_platform op = Some pl /\
    po_origin_poster op = Some po /\ po_origin_post_pid op = Some pid.
Proof.
  unfold post_evaluate. intros H. do 7 (apply bind_ok in H as (? & _ & H)). destruct (_ <=? _); [|by injection H as <-].
  apply bind_ok in H as (e & _ & H). unfold post_ext_evaluate in H. cbv zeta in H. apply bind_ok in H as (? & _ & H).
  apply bind_ok in H as (origin & Ho & H). do 4 (apply bind_ok in H as (? & _ & H)). injection H as <-. cbn. intros Hf.
  rewrite Hf in Ho. destruct (bool_decide_reflect (px_post_type e = Some Post_Type_Comment)) as [E|_].
  { rewrite E in Hf. by compute in Hf. }
  apply bind_ok in Ho as (k & Hk & [= <-]). unfold forward_evaluate in Hk. apply bind_ok in Hk as (y & Hy & Hk).
  do 6 (apply bind_ok in Hk as (? & _ & Hk)). injection Hk as <-. unfold origin_post in Hy.
  apply bind_ok in Hy as (pl & H1 & Hy). apply bind_ok in Hy as (po & H2 & Hy). apply bind_ok in Hy as (pid & H3 & Hy).
  do 3 (apply bind_ok in Hy as (? & _ & Hy)). injection Hy as <-. apply deref_ok in H1, H2, H3. by exists pl, po, pid.
Qed.
Lemma post_neutral n s op d u d' : posts_sound d -> post n s op d = Ok (u, d') -> neutral d d'.
Proof.
  intros Hs H. unfold post in H. peel H as dg Hg. peel H as plan Hplan. step H as u1 d1 H1.
  assert (keeps books (modify_stats (po_poster op) (fun s => Ok (s <| last_post_sequence ::= fun n => u64 (n + 1) |>)))) as K1
    by (apply books_stats; books_side).
  pose proof (books_neutral _ _ _ _ K1 H1) as N1. apply (keeps_modify_stats posts_of) in H1. step H as u2 d2 H2.
  cbv zeta in H. peel H as dg1 Hg1. peel H as u3 E3. apply books_set_post in H.
  eapply neutral_trans; [exact N1|]. eapply neutral_trans_r; [|exact H]. unfold when in H2.
  destruct (is_forward _) eqn:Ef; [|injection H2 as _ <-; apply shift_refl].
  destruct (post_plan_origin _ _ _ _ Hplan Ef) as (pl & po & pid & Ho & _).
  eapply pay_forward_neutral; [exact Ho| |exact H2]. intros p Hp. rewrite H1 in Hp. by eapply Hs.
Qed.
Lemma post_update_neutral sign op d u d' : post_update sign op d = Ok (u, d') -> neutral d d'.
Proof. intros H. unfold post_update in H. peel H as dg Hg. peel H as u1 He. by eapply modify_post_neutral. Qed.
Lemma score_create_neutral s op d u d' : score_create s op d = Ok (u, d') -> neutral d d'.
Proof.
  intros H. unfold score_create in H. peel H as dg Hg. peel H as u1 He. step H as u2 d2 H2.
  assert (keeps books (modify_stats (sc_from_account_uid op) (fun s => x ← safe_sub (csaf s) (sc_csaf op); Ok (s <| csaf := x |>)))) as K2
    by (apply books_stats; books_side).
  apply (books_neutral _ _ _ _ K2) in H2. cbv zeta in H. step H as u3 d3 H3. peel H as p Hp. apply books_touch in H.
  eapply neutral_trans; [exact H2|]. eapply neutral_trans; [|exact H]. eapply books_neutral, H3. by apply books_upd.
Qed.
Lemma license_create_neutral op d u d' : license_create op d = Ok (u, d') -> neutral d d'.
Proof. apply books_neutral. unfold license_create. keep_books. Qed.
Lemma reward_neutral n op d u d' :
  posts_sound d -> 0 <= amount (rw_amount op) < 2 ^ 63 -> reward n op d = Ok (u, d') -> neutral d d'.
Proof.
  intros Hs Hx H. unfold reward in H. peel H as dg Hg. peel H as u0 He. peel H as a Ha.
  apply bind_ok in Ha as (x & Hn & [= <-]). apply safe_neg_ok in Hn as [-> _].
  step H as u1 d1 H1. apply adjust_balance_shift in H1. cbn [asset_id amount] in H1. peel H as p Hp. apply deref_ok in Hp.
  destruct (Hs _ _ _ _ Hp) as [Hsh _]. cbv zeta in H. step H as r d2 H2. destruct r as [sp paid].
  apply (pay_post_shift (asset_id (rw_amount op)) _ _ (rw_poster op)) in H2; [| |exact Hsh|done].
  2: { intros uid y d0 v d0' Hp0. by apply adjust_balance_shift in Hp0. }
  step H as u3 d3 H3. apply books_credit in H3. apply books_touch in H.
  eapply neutral_trans_r; [|eapply neutral_trans; [exact H3|exact H]]. shift_seq H1 H2.
Qed.
Lemma reward_proxy_neutral n s op d u d' :
  posts_sound d -> 0 <= rp_amount op < 2 ^ 63 -> reward_proxy n s op d = Ok (u, d') -> neutral d d'.
Proof.
  intros Hs Hx H. unfold reward_proxy in H. peel H as dg Hg. peel H as auth He. step H as u1 d1 H1.
  apply (books_neutral _ _ _ _ (keeps_use_auth books _ _)) in H1. step H as u2 d2 H2. apply spend_shift in H2.
  peel H as p Hp. apply deref_ok in Hp. destruct (Hs _ _ _ _ Hp) as [Hsh _]. step H as r d3 H3. destruct r as [sp paid].
  apply (pay_post_shift CORE_ASSET_AID _ _ (rp_poster op)) in H3; [|exact prepaid_shift|exact Hsh|done].
  step H as u4 d4 H4. apply books_credit in H4. apply books_touch in H.
  eapply neutral_trans; [exact H1|]. eapply neutral_trans_r; [|eapply neutral_trans; [exact H4|exact H]]. shift_seq H2 H3.
Qed.
Lemma buyout_neutral s op d u d' : buyout s op d = Ok (u, d') -> neutral d d'.
Proof.
  intros H. unfold buyout in H. peel H as dg Hg. peel H as auth He. peel H as p Hp. peel H as q Hq.
  step H as u1 d1 H1. apply books_use_signing in H1. step H as u2 d2 H2. apply spend_shift in H2.
  step H as u3 d3 H3. apply prepaid_shift in H3. apply modify_post_neutral in H.
  eapply neutral_trans; [exact H1|]. eapply neutral_trans_r; [|exact H]. shift_seq H2 H3.
Qed.
End coins.
