(* ===== verification/ContentClaims.v ===== *)
(** * The shares of a post stay whole *)
From S2P Require Import Prelude FlatMap FcInt Asset Pledge ChainState.
From S2P Require Import AccountStats Voter Balance Transfer MapSum Frame Ledger MarketProof.
From S2P Require Import Treasury Books Fee Platform Account AccountProof Advertising Content ContentProof.
Local Open Scope Z_scope.
Import asset pledge chain acc voter balance transfer fee platform account advertising posting.

Section steps.
Context {F : FcInt} {C : ChainConfig}.
Variable is_valid_uid : Z -> bool.

Inductive post_step (d d' : database) : Prop :=
| step_post n s op : validate_post is_valid_uid op = Ok tt -> post_typed op ->
    post n s op d = Ok (tt, d') -> post_step d d'
| step_post_update sign op : validate_post_update is_valid_uid op = Ok tt -> post_update_typed op ->
    post_update sign op d = Ok (tt, d') -> post_step d d'
| step_buyout s op : validate_buyout is_valid_uid op = Ok tt -> buyout s op d = Ok (tt, d') -> post_step d d'
| step_score s op : score_create s op d = Ok (tt, d') -> post_step d d'
| step_reward n op : reward n op d = Ok (tt, d') -> post_step d d'
| step_reward_proxy n s op : reward_proxy n s op d = Ok (tt, d') -> post_step d d'
| step_license op : license_create op d = Ok (tt, d') -> post_step d d'
(* Every other operation and update leaves the posts alone. *)
| step_other : posts_of d' = posts_of d -> post_step d d'.
End steps.

Section proofs.
Context {F : FcInt} {C : ChainConfig}.

Lemma posts_modify_stats uid f : keeps posts_of (modify_stats uid f).
Proof. apply keeps_modify_stats, _. Qed.
#[local] Hint Resolve posts_modify_stats : keeps.
Lemma posts_score s op : keeps posts_of (score_create s op).
Proof.
  unfold score_create. do 3 (apply keeps_bind; [auto with keeps|intros ?]). cbv zeta.
  apply keeps_bind; [by apply posts_upd|intros ?]. apply keeps_bind; [auto with keeps|intros ?].
  apply keeps_touch, _.
Qed.
Lemma posts_reward n op : keeps posts_of (reward n op).
Proof.
  unfold reward. do 3 (apply keeps_bind; [auto with keeps|intros ?]).
  apply keeps_bind; [apply keeps_adjust_balance, _|intros ?]. apply keeps_bind; [auto with keeps|intros ?]. cbv zeta.
  apply keeps_bind; [apply keeps_pay_post; intros; apply keeps_adjust_balance, _|intros [? ?]].
  apply keeps_bind; [apply keeps_credit, _|intros ?]. apply keeps_touch, _.
Qed.
Lemma posts_reward_proxy n s op : keeps posts_of (reward_proxy n s op).
Proof.
  unfold reward_proxy. do 2 (apply keeps_bind; [auto with keeps|intros ?]).
  apply keeps_bind; [apply keeps_use_auth, _|intros ?]. apply keeps_bind; [apply posts_spend|intros ?].
  apply keeps_bind; [auto with keeps|intros ?].
  apply keeps_bind; [apply keeps_pay_post, posts_adjust_prepaid|intros [? ?]].
  apply keeps_bind; [apply keeps_credit, _|intros ?]. apply keeps_touch, _.
Qed.
Lemma posts_license op : keeps posts_of (license_create op).
Proof.
  unfold license_create. do 7 (apply keeps_bind; [auto with keeps|intros ?]). by apply posts_upd.
Qed.
Lemma post_step_sound is_valid_uid d d' : post_step is_valid_uid d d' -> posts_sound d -> posts_sound d'.
Proof.
  intros [n s op Hv Ht H|sign op Hv Ht H|s op Hv H|s op H|n op H|n s op H|op H|H].
  - by eapply post_keeps_sound.
  - by eapply post_update_keeps_sound.
  - by eapply buyout_keeps_sound.
  - by apply posts_sound_same, (posts_score _ _ _ _ _ H).
  - by apply posts_sound_same, (posts_reward _ _ _ _ _ H).
  - by apply posts_sound_same, (posts_reward_proxy _ _ _ _ _ _ H).
  - by apply posts_sound_same, (posts_license _ _ _ _ H).
  - by apply posts_sound_same.
Qed.

(** The check of [buyout] on the shares never fails on a sound post. *)
Lemma total_ratio_exact (m : shares) :
  Forall (fun x => share_ok x.2) m -> ratios m < 2 ^ 32 -> total_ratio m = ratios m.
Proof.
  intros Hall. unfold total_ratio. assert (forall t, 0 <= t -> t + ratios m < 2 ^ 32 ->
    fold_left (fun t x => u32 (t + cur_ratio x.2)) m t = t + ratios m) as G; [|intros; by apply G].
  induction Hall as [|[k p] m Hp Hall IH]; intros t Ht Hb; [cbn; lia|]. rewrite ratios_cons in *. cbn in Hp |- *.
  unfold share_ok in Hp. pose proof (ratios_nonneg _ (share_nonneg _ Hall)).
  unfold u32 at 2. rewrite (wrap_small 32) by (unfold is_uint; lia). rewrite IH; lia.
Qed.
Lemma receiptors_validate_sound platform poster m :
  shares_sound platform poster m -> receiptors_validate platform poster m = Ok tt.
Proof.
  intros Hs. destruct (ss_platform _ _ _ Hs) as (p & Hp & Hr). pose proof (ss_each _ _ _ Hs) as Hall.
  pose proof (ss_total _ _ _ Hs) as Ht. unfold receiptors_validate. rewrite Hp. cbn.
  assert ((if poster =? platform then DEFAULT_PLATFORM_RECEIPTS_RATIO + DEFAULT_POSTER_MIN_RECEIPTS_RATIO <=? cur_ratio p
           else cur_ratio p =? DEFAULT_PLATFORM_RECEIPTS_RATIO) = true) as ->.
  { rewrite Z.eqb_sym. destruct (platform =? poster); unfold DEFAULT_PLATFORM_RECEIPTS_RATIO, DEFAULT_POSTER_MIN_RECEIPTS_RATIO; lia. }
  rewrite total_ratio_exact, Ht by (done || lia).
  assert (forallb (fun x => (cur_ratio x.2 <=? PERCENT_100) && (negb (to_buyout x.2) || (buyout_ratio x.2 <=? cur_ratio x.2))) m = true) as ->;
    [|done].
  apply forallb_forall. intros [k q] Hin%list_elem_of_In. rewrite Forall_forall in Hall. specialize (Hall _ Hin). cbn in *.
  unfold share_ok in Hall. apply fm_find_Some in Hin; [|apply (ss_sorted _ _ _ Hs)].
  destruct (share_split _ _ _ _ _ Hs Hin) as (_ & _ & Hr0 & Hsum & _).
  rewrite andb_true_iff, orb_true_iff, !Z.leb_le. split; [lia|right; lia].
Qed.
End proofs.

(** C4. The shares of a post stay whole.  Whatever is posted, updated, offered,
    sold, scored or rewarded: every post has at most five receiptors whose ratios
    add up to 100 %, among them its platform with exactly 25 % and its poster
    with at least 25 % (together at least 50 % when they are one account), and nobody
    offers more than it has, so the check a buyer runs into never fails.  Whatever
    is paid for a post is divided without loss: every receiptor gets its share
    rounded down, the platform gets the rest, at least its own share. *)
Theorem shares_stay_whole {F : FcInt} {FL : FcIntLaws F} {C : ChainConfig} (is_valid_uid : Z -> bool) (d d' : database) :
  posts_sound d -> rtc (post_step is_valid_uid) d d' ->
  posts_sound d' /\
  forall platform poster pid p, posts (contents d') !! (platform, poster, pid) = Some p ->
    receiptors_validate platform poster (receiptors p) = Ok tt /\
    forall x, 0 <= x < 2 ^ 63 ->
      let parts := division platform x (receiptors p) in
      (forall pay d1, exists r, (platform, r) ∈ parts /\ x * 2500 / PERCENT_100 <= r /\
         pay_post pay platform x (receiptors p) d1
         = (mfor (fun y => pay y.1 y.2) parts ;; mret (r, record_paid parts [])) d1) /\
      zsum parts.*2 = x /\ Forall (fun y => 0 <= y.2) parts /\
      forall uid q, fm_find uid (receiptors p) = Some q -> uid <> platform ->
        (uid, x * cur_ratio q / PERCENT_100) ∈ parts.
Proof.
  intros Hs Hr. assert (posts_sound d') as Hs'.
  { induction Hr as [|d1 d2 d3 H12 _ IH]; [done|]. apply IH. by eapply post_step_sound. }
  split; [done|]. intros platform poster pid p Hp. destruct (Hs' _ _ _ _ Hp) as [Hsh _].
  split; [by apply receiptors_validate_sound|]. intros x Hx. cbv zeta.
  destruct (division_exact _ _ _ _ Hsh Hx) as (D1 & D2 & D3 & D4). split_and!; [|done..].
  intros pay d1. destruct (pay_post_division pay _ _ _ _ d1 Hsh Hx) as (r & E & Hin). exists r. split_and!; [done| |done].
  destruct (ss_platform _ _ _ Hsh) as (q & Hq & Hc). specialize (D4 q r Hq Hin).
  etrans; [|exact D4]. unfold part_of. apply Z.div_le_mono; [lia|]. destruct (platform =? poster); nia.
Qed.

(** Account 10 posts on platform 20 and sells a part of its share to account 30. *)
Definition blog : database :=
  bank <| accounts ::= <[30 := bank_account]> |> <| stats ::= <[30 := bank_stats 0]> |>
    <| platforms := {[ 20 := new_platform <| p_sequence := 1 |> ]} |>
    <| contents ::= fun c => c <| licenses := {[ (20, 1) :=
      {| license_type := 1; license_hash_value := EmptyString; license_extra_data := EmptyString;
         license_title := EmptyString; license_body := EmptyString; license_create_time := 0 |} ]} |> |>.
Definition blog_post : post_operation :=
  {| po_post_pid := 1; po_platform := 20; po_poster := 10; po_origin_poster := None; po_origin_post_pid := None;
     po_origin_platform := None; po_hash_value := EmptyString; po_extra_data := EmptyString;
     po_title := EmptyString; po_body := EmptyString;
     po_extensions := Some {| px_post_type := Some Post_Type_Post; px_forward_price := Some 30;
       px_license_lid := Some 1; px_permission_flags := Some 255; px_receiptors := None; px_sign_platform := None |} |}.
Definition blog_offer : post_update_operation :=
  {| pu_platform := 20; pu_poster := 10; pu_post_pid := 1; pu_hash_value := None; pu_extra_data := None;
     pu_title := None; pu_body := None;
     pu_extensions := Some {| ux_forward_price := None; ux_receiptor := Some 10; ux_to_buyout := Some true;
       ux_buyout_ratio := Some 3000; ux_buyout_price := Some 40; ux_buyout_expiration := None; ux_license_lid := None;
       ux_permission_flags := None; ux_content_sign_platform := None; ux_receiptor_sign_platform := None |} |}.
Definition blog_buyout : buyout_operation :=
  {| bo_from_account_uid := 30; bo_platform := 20; bo_poster := 10; bo_post_pid := 1;
     bo_receiptor_account_uid := 10; bo_sign_platform := None |}.
Definition blog_run : database -> result (unit * database) :=
  @post fc_checked 7 10 blog_post ;; @post_update (fun x => x) blog_offer ;; @buyout fc_checked 30 blog_buyout.
Lemma blog_runs d1 d2 d3 :
  @post fc_checked 7 10 blog_post blog = Ok (tt, d1) -> @post_update (fun x => x) blog_offer d1 = Ok (tt, d2) ->
  @buyout fc_checked 30 blog_buyout d2 = Ok (tt, d3) -> blog_run blog = Ok (tt, d3).
Proof. intros E1 E2 E3. unfold blog_run, mbind, M_bind. by rewrite E1, E2. Qed.
Lemma shares_stay_whole_witness :
  exists d3 p, blog_run blog = Ok (tt, d3) /\ posts (contents d3) !! (20, 10, 1) = Some p /\
    map (fun x => (x.1, cur_ratio x.2)) (receiptors p) = [(10, 4500); (20, 2500); (30, 3000)] /\
    division 20 1001 (receiptors p) = [(10, 450); (30, 300); (20, 251)] /\
    receiptors_validate 20 10 (receiptors p) = Ok tt /\ zsum (division 20 1001 (receiptors p)).*2 = 1001.
Proof.
  destruct (@post fc_checked 7 10 blog_post blog) as [[[] d1]|e] eqn:E1; [|exfalso; vm_compute in E1; discriminate E1].
  destruct (@post_update (fun x => x) blog_offer d1) as [[[] d2]|e] eqn:E2.
  2: { exfalso. assert ((@post fc_checked 7 10 blog_post ;; @post_update (fun x => x) blog_offer) blog = Throw e) as E
         by (unfold mbind, M_bind; by rewrite E1). vm_compute in E. discriminate E. }
  destruct (@buyout fc_checked 30 blog_buyout d2) as [[[] d3]|e] eqn:E3.
  2: { exfalso. assert (blog_run blog = Throw e) as E by (unfold blog_run, mbind, M_bind; by rewrite E1, E2).
       vm_compute in E. discriminate E. }
  pose proof (blog_runs d1 d2 d3 E1 E2 E3) as E.
  destruct (posts (contents d3) !! (20, 10, 1)) as [p|] eqn:Ep.
  2: { exfalso. assert (match blog_run blog with Ok (_, d) => posts (contents d) !! (20, 10, 1) | Throw _ => None end = None) as E0
         by (by rewrite E). vm_compute in E0. discriminate E0. }
  assert (match blog_run blog with Ok (_, d) => receiptors <$> posts (contents d) !! (20, 10, 1) | Throw _ => None end
          = Some (receiptors p)) as Er by (rewrite E, Ep; reflexivity).
  remember (receiptors p) as m eqn:Hm in Er. vm_compute in Er. injection Er as Er. exists d3, p. split; [exact E|]. split; [exact Ep|]. split; [by rewrite <- Hm, <- Er|].
  split; [rewrite <- Hm, <- Er; vm_compute; reflexivity|].
  destruct (@shares_stay_whole fc_checked fc_checked_laws no_proxy (fun _ => true) blog d3) as [_ H].
  - intros pl po pid q Hq. vm_compute in Hq. discriminate Hq.
  - apply rtc_l with d1; [|apply rtc_l with d2; [|apply rtc_once]].
    + apply (step_post _ _ _ 7 10 blog_post); [reflexivity| |exact E1]. intros e [= <-]. split; [intros x [= <-]; lia|done].
    + apply (step_post_update _ _ _ (fun x => x) blog_offer); [reflexivity| |exact E2]. intros e [= <-].
      split_and!; [done|intros x [= <-]; split; [lia|reflexivity]|intros x [= <-]; lia].
    + by apply (step_buyout _ _ _ 30 blog_buyout).
  - destruct (H _ _ _ _ Ep) as [Hv Hx]. split; [exact Hv|]. by destruct (Hx 1001 ltac:(lia)) as (_ & Hz & _).
Defined.
