(* ===== verification/AwardsProof.v ===== *)
(** * Awards are paid from the budget pool *)
From S2P Require Import Prelude FcInt FlatMap Asset Pledge ChainState AccountStats.
From S2P Require Import Voter MapSum Balance Transfer Frame Ledger MarketProof Payroll Treasury.
From S2P Require Import Books BlockUpdate Platform Account Advertising Content Awards AccountProof.
From S2P Require Import ContentProof.
Local Open Scope Z_scope.
Import asset pledge chain acc voter balance transfer payroll updates platform account advertising.
Import posting awards.

Section awards.
Context {F : FcInt} {FL : FcIntLaws F} {C : ChainConfig}.
Variable latest_periods : Z.

Lemma books_clear_active : keeps books (clear_active_post latest_periods).
Proof. apply books_upd. intros d. cbv zeta. by destruct (_ <=? _). Qed.
Lemma books_clear_scores : keeps books clear_expired_scores.
Proof. by apply books_upd. Qed.
Lemma books_modify_active k f : keeps books (modify_active k f).
Proof. unfold modify_active. keep_books. Qed.
Lemma books_set_profits k x : keeps books (set_profits k x).
Proof. unfold set_profits. keep_books. Qed.
Lemma books_modify_post k f : keeps books (modify_post k f).
Proof. unfold modify_post, set_post. keep_books. Qed.
#[local] Hint Resolve books_clear_active books_modify_active books_set_profits books_modify_post : keeps.
Lemma books_award_scores a s t l e acc : keeps books (award_scores a s t l e acc).
Proof.
  revert e acc. induction l as [|[[k eff] approve] l IH]; intros e acc; cbn [award_scores]; [auto with keeps|].
  do 5 (apply keeps_bind; [auto with keeps|intros ?]). apply IH.
Qed.
#[local] Hint Resolve books_award_scores : keeps.
Lemma books_award_post per total acc x : keeps books (award_post per total acc x).
Proof.
  destruct x as [[[[[platform poster] period] pid] csaf] approval]. unfold award_post. keep_books.
Qed.
Lemma books_award_posts per total l acc : keeps books (award_posts per total l acc).
Proof.
  revert acc. induction l as [|x l IH]; intros acc; [apply keeps_ret|]. cbn.
  apply keeps_bind; [apply books_award_post|intros ?]. apply IH.
Qed.
Lemma books_award_profits a b c e : keeps books (award_profits latest_periods a b c e).
Proof.
  unfold award_profits. apply keeps_bind; [apply keeps_get|intros d].
  destruct (find_platform_by_owner d a); [|apply keeps_ret].
  apply keeps_bind; [apply keeps_lift|intros q]. apply keeps_modify_platform, _.
Qed.
Lemma books_award_platforms per total l m : keeps books (award_platforms latest_periods per total l m).
Proof.
  revert m. induction l as [|[platform csaf] l IH]; intros m; [apply keeps_ret|]. cbn.
  do 2 (apply keeps_bind; [apply keeps_lift|intros ?]). apply keeps_bind; [apply books_award_profits|intros ?]. apply IH.
Qed.

(** ** What is paid *)
Lemma pay_all_shift pay l a d r d' :
  (forall uid y d u d', pay uid y d = Ok (u, d') -> shift d d' (only CORE_ASSET_AID y)) ->
  pay_all pay l a d = Ok (r, d') -> shift d d' (only CORE_ASSET_AID (r - a)).
Proof.
  intros Hp. revert a d. induction l as [|[uid x] l IH]; intros a d H.
  - injection H as <- <-. eapply shift_ext, shift_refl. intros y. rewrite Z.sub_diag. by rewrite only_zero.
  - cbn in H. step H as u1 d1 H1. apply Hp in H1. peel H as a' Ha. apply safe_add_ok in Ha as [-> _].
    apply IH in H. shift_seq H1 H.
Qed.
Lemma score_bonus_shift uid x d u d' : pay_score_bonus uid x d = Ok (u, d') -> shift d d' (only CORE_ASSET_AID x).
Proof.
  intros H. eapply modify_stats_shift; [exact H|]. intros s s' _ Hs. apply bind_ok in Hs as (z & Hz & [= <-]).
  apply safe_add_ok in Hz as [-> _]. split_and!; [done..|]. cbn. lia.
Qed.
Lemma award_contents_shift c d r d' :
  award_contents latest_periods c d = Ok (r, d') -> shift d d' (only CORE_ASSET_AID r.2).
Proof.
  intros H. unfold award_contents in H. peel H as dg Hg. destruct (_ && _).
  - peel H as per Hper. step H as acc d1 H1. apply (books_neutral _ _ _ _ (books_award_posts _ _ _ _)) in H1.
    step H as u2 d2 H2. apply (books_neutral _ _ _ _ (keeps_mfor books _ _ (fun x => books_award_profits _ _ _ _))) in H2.
    peel H as dg2 Hg2. peel H as m Hm. step H as actual d3 H3. injection H as <- <-.
    apply pay_all_shift in H3; [|exact score_bonus_shift]. rewrite Z.sub_0_r in H3.
    eapply neutral_trans; [exact H1|]. eapply neutral_trans; [exact H2|exact H3].
  - injection H as <- <-. eapply shift_ext, shift_refl. intros y. by rewrite only_zero.
Qed.
Lemma content_platforms_neutral c m d r d' :
  award_content_platforms latest_periods c m d = Ok (r, d') -> neutral d d'.
Proof.
  apply books_neutral. unfold award_content_platforms. apply keeps_bind; [apply keeps_get|intros dg].
  destruct (_ && _); [|apply keeps_ret]. apply keeps_bind; [apply keeps_lift|intros per]. apply books_award_platforms.
Qed.
Lemma core_shift uid x d u d' :
  adjust_balance uid (Asset x CORE_ASSET_AID) d = Ok (u, d') -> shift d d' (only CORE_ASSET_AID x).
Proof. apply adjust_balance_shift. Qed.
Lemma pay_content_awards_shift d actual d' :
  pay_content_awards latest_periods d = Ok (actual, d') -> shift d d' (only CORE_ASSET_AID actual).
Proof.
  intros H. unfold pay_content_awards in H. step H as u1 d1 H1.
  assert (keeps books (modify_dgp (fun g => Ok (g <| content_award_skip_flag := true |>)))) as K by (apply books_dgp; books_side).
  apply (books_neutral _ _ _ _ K) in H1. peel H as dg Hg. peel H as c Hc. step H as r d2 H2. apply award_contents_shift in H2.
  destruct r as [m a]. step H as m' d3 H3. apply content_platforms_neutral in H3.
  apply pay_all_shift in H; [|exact core_shift]. eapply neutral_trans; [exact H1|]. cbn in H2.
  pose proof (neutral_trans_r _ _ _ _ H2 H3) as H4. shift_seq H4 H.
Qed.
Lemma take_awards_shift actual f d u d' :
  0 <= actual -> (forall g, budget_pool (f g) = budget_pool g) ->
  modify_dgp (fun g => take_awards actual (f g)) d = Ok (u, d') -> shift d d' (only CORE_ASSET_AID (- actual)).
Proof.
  intros Ha Hf H. eapply modify_dgp_shift; [exact H|]. intros g Hg. unfold take_awards in Hg.
  destruct (Z.ltb_spec 0 actual).
  - apply bind_ok in Hg as (x & Hx & [= <-]). apply safe_sub_ok in Hx as [-> _]. cbn. rewrite Hf. lia.
  - injection Hg as <-. rewrite Hf. lia.
Qed.
End awards.

(** * Awards are never negative

    The curve that weighs scores, and the division of an award, with the bounds under
    which every conversion between 128 and 64 bits is exact. *)
Section curve.
Context {F : FcInt} {FL : FcIntLaws F}.
Variables (p : extension_parameter_type) (first second : Z).
Hypothesis Hw : 0 <= approval_casf_min_weight p <= PERCENT_100.
Hypothesis Hturn : 0 <= first < second.
Hypothesis Hsecond : second < 2 ^ 63.

(** A stretch between the turning points counts for at most its length. *)
Lemma part_effective_bounds b e x :
  first <= b <= e -> e <= second -> get_part_effective_csaf p first second b e = Ok x -> 0 <= x <= e - b.
Proof.
  intros Hb He H. unfold get_part_effective_csaf in H. rewrite u128_add_small in H by lia.
  rewrite u128_div_law in H by lia. cbn [mbind result_bind] in H.
  assert (b <= (b + e) / 2 <= e) as Hav by (split; [apply Z.div_le_lower_bound|apply Z.div_le_upper_bound]; lia).
  set (av := (b + e) / 2) in *. set (w := approval_casf_min_weight p) in *.
  unfold u32 in H. rewrite (wrap_small 32) in H by (unfold is_uint; lia).
  rewrite !u128_sub_small in H by lia. rewrite u128_mul_small in H by nia. rewrite u128_div_law in H by lia. cbn in H.
  set (y := (second - av) * (10000 - w) / (second - first)) in *.
  assert (0 <= y <= 10000 - w) as Hy.
  { unfold y. split; [apply Z.div_pos; nia|]. apply Z.div_le_upper_bound; nia. }
  rewrite u128_add_small in H by lia. rewrite u128_to_i64_law in H by lia.
  rewrite u128_mul_small in H by nia. rewrite u128_div_law in H by lia. cbn in H.
  assert (0 <= (e - b) * (y + w) / 10000 <= e - b) as Hz.
  { split; [apply Z.div_pos; nia|]. apply Z.div_le_upper_bound; nia. }
  rewrite u128_to_i64_law in H by lia. injection H as <-. exact Hz.
Qed.
Lemma beyond_bounds total x :
  second <= total < 2 ^ 63 -> beyond p second total = Ok x -> 0 <= x <= total - second.
Proof.
  intros Ht H. unfold beyond in H. rewrite u128_sub_small in H by lia. rewrite u128_mul_small in H by nia.
  rewrite u128_div_law in H by lia. cbn in H.
  assert (0 <= (total - second) * approval_casf_min_weight p / 10000 <= total - second).
  { split; [apply Z.div_pos; nia|]. apply Z.div_le_upper_bound; nia. }
  rewrite u128_to_i64_law in H by lia. injection H as <-. lia.
Qed.
(** A score counts for something between nothing and itself. *)
Lemma effective_csaf_bounds csaf last total x :
  0 <= csaf -> 0 <= last -> total = last + csaf -> total < 2 ^ 63 ->
  effective_csaf p first second csaf last total = Ok x -> 0 <= x <= csaf.
Proof.
  intros Hc Hl -> Hb H. unfold effective_csaf in H. destruct (Z.leb_spec (last + csaf) first) as [L1|L1].
  { injection H as <-. lia. }
  destruct (Z.leb_spec (last + csaf) second) as [L2|L2]; [|destruct (Z.ltb_spec last first) as [L3|L3]].
  - destruct (Z.ltb_spec last first) as [L3|L3].
    + apply bind_ok in H as (y & Hy & H). apply part_effective_bounds in Hy; [|lia..].
      rewrite u128_sub_small, u128_to_i64_law in H by (rewrite ?u128_sub_small; lia). apply safe_add_ok in H as [-> _]. lia.
    + apply part_effective_bounds in H; lia.
  - apply bind_ok in H as (a & Ha & H). rewrite u128_sub_small, u128_to_i64_law in Ha by (rewrite ?u128_sub_small; lia).
    apply safe_add_ok in Ha as [-> _]. apply bind_ok in H as (y & Hy & H). apply part_effective_bounds in Hy; [|lia..].
    apply bind_ok in H as (b & Hb' & H). apply safe_add_ok in Hb' as [-> _]. apply bind_ok in H as (z & Hz & H).
    apply beyond_bounds in Hz; [|lia]. apply safe_add_ok in H as [-> _]. lia.
  - destruct (Z.ltb_spec last second) as [L4|L4].
    + apply bind_ok in H as (y & Hy & H). apply part_effective_bounds in Hy; [|lia..]. apply bind_ok in H as (a & Ha & H).
      apply safe_add_ok in Ha as [-> _]. apply bind_ok in H as (z & Hz & H). apply beyond_bounds in Hz; [|lia].
      apply safe_add_ok in H as [-> _]. lia.
    + apply bind_ok in H as (y & Hy & H). apply safe_mul_ok in Hy as [-> _]. apply safe_div_ok in H as [-> _]; [|lia].
      rewrite Z.quot_div_nonneg by nia. split; [apply Z.div_pos; nia|]. apply Z.div_le_upper_bound; nia.
Qed.
Lemma effective_scores_bounds l : forall last sum r t,
  Forall (fun x => 0 <= score_csaf x.2) l -> 0 <= last -> last + zsum (map (fun x => score_csaf x.2) l) < 2 ^ 63 ->
  effective_scores p first second l last sum = Ok (r, t) ->
  Forall (fun x => 0 <= x.1.2) r /\ t = sum + zsum (map (fun x => x.1.2) r) /\ r.*1.*1 = l.*1.
Proof.
  induction l as [|[k s] l IH]; intros last sum r t Hall Hl Hb H.
  - injection H as <- <-. split; [constructor|]. split; [cbn; lia|done].
  - cbn in H. apply Forall_cons in Hall as [Hs Hall]. cbn in Hs, Hb.
    assert (0 <= zsum (map (fun x : Z * Z * Z * Z * score_object => score_csaf x.2) l)) as Hz.
    { clear -Hall. induction Hall; cbn; lia. }
    rewrite u128_add_small in H by lia. apply bind_ok in H as (x & Hx & H). apply effective_csaf_bounds in Hx; [|lia..].
    apply bind_ok in H as (sum' & Hsum & H). apply safe_add_ok in Hsum as [-> _]. apply bind_ok in H as ([r' t'] & Hr & [= <- <-]).
    apply IH in Hr as (R1 & R2 & R3); [|done|lia|lia]. split; [constructor; [cbn; lia|done]|]. cbn. split; [lia|by rewrite R3].
Qed.
End curve.

(** When the first point is passed with little to score, the points coincide and
    the slope between them is a division by zero. *)
Example turning_points_coincide :
  let p := extension_parameters (params sample_db) <| approval_casf_first_rate := 4000 |>
             <| approval_casf_second_rate := 6000 |> in
  3 * approval_casf_first_rate p / PERCENT_100 = 1 /\ 3 * approval_casf_second_rate p / PERCENT_100 = 1 /\
  @effective_csaf fc_checked p 1 1 3 0 3 = Throw assert_exception.
Proof. vm_compute. repeat split. Qed.

(** ** Dividing an award *)
(** The entries are 64-bit numbers that are not negative. *)
Notation nonneg m := (Forall (fun x : Z * Z => 0 <= x.2 < 2 ^ 63) m).
Section division.
Context {F : FcInt} {FL : FcIntLaws F}.

Lemma fraction_bounds x rate y :
  0 <= x < 2 ^ 63 -> 0 <= rate <= PERCENT_100 -> fraction x rate = Ok y -> 0 <= y <= x.
Proof.
  intros Hx Hr H. unfold fraction in H. rewrite u128_of_small, u128_mul_small, u128_div_law in H by nia. cbn in H.
  assert (0 <= x * rate / 10000 <= x) by (split; [apply Z.div_pos; nia|]; apply Z.div_le_upper_bound; nia).
  rewrite u128_to_i64_law in H by lia. injection H as <-. lia.
Qed.
Lemma nonneg_set k x (m : flat_map Z Z) : nonneg m -> 0 <= x < 2 ^ 63 -> nonneg (fm_set k x m).
Proof.
  intros Hm Hx. rewrite Forall_forall in *. intros y [->|Hy]%fm_set_in; [done|by apply Hm].
Qed.
Lemma nonneg_find k (m : flat_map Z Z) : nonneg m -> 0 <= default 0 (fm_find k m).
Proof. intros Hm. destruct (fm_find k m) eqn:E; cbn; [by apply (fm_find_elem _ _ _ _ E Hm)|lia]. Qed.
Lemma bump_nonneg k x m m' : nonneg m -> 0 <= x -> bump k x m = Ok m' -> nonneg m'.
Proof.
  intros Hm Hx H. unfold bump in H. apply bind_ok in H as (y & Hy & [= <-]). apply safe_add_ok in Hy as [-> Hb].
  apply nonneg_set; [done|]. pose proof (nonneg_find k m Hm). lia.
Qed.
Lemma award_receiptors_bounds platform earned rs : forall temp b rc b' rc' temp',
  0 <= earned < 2 ^ 63 -> Forall (fun y => 0 <= cur_ratio y.2 <= PERCENT_100) (others platform rs) ->
  zsum (map (fun y => (y.1, part_of earned y.2)) (others platform rs)).*2 <= temp -> nonneg b ->
  award_receiptors platform earned rs temp b rc = Ok (b', rc', temp') ->
  nonneg b' /\ temp' = temp - zsum (map (fun y => (y.1, part_of earned y.2)) (others platform rs)).*2.
Proof.
  induction rs as [|[uid q] rs IH]; intros temp b rc b' rc' temp' He Hall Ht Hb H.
  - injection H as <- <- <-. split; [done|cbn; lia].
  - cbn [award_receiptors] in H. destruct (Z.eqb_spec uid platform) as [->|Hne].
    + unfold others in *. rewrite filter_cons_False in * by tauto. by eapply IH.
    + unfold others in *. rewrite filter_cons_True in * by done. apply Forall_cons in Hall as [Hq Hall]. cbn in Hq, Ht |- *.
      apply bind_ok in H as (x & Hx & H). assert (x = part_of earned q) as ->.
      { unfold fraction in Hx. destruct (part_u128 earned q He Hq) as [E1 E2].
        rewrite u128_of_small in Hx by lia. rewrite E1 in Hx. cbn in Hx. rewrite E2 in Hx. by injection Hx. }
      pose proof (part_bounds earned q He Hq). apply bind_ok in H as (b1 & Hb1 & H). apply bump_nonneg in Hb1; [|done|lia].
      apply bind_ok in H as (t1 & Ht1 & H). apply safe_sub_ok in Ht1 as [-> _].
      apply IH in H as [H1 ->]; [|done|done|lia|done]. split; [done|lia].
Qed.
(** What the platform gets is not negative either. *)
Lemma award_receiptors_sound platform poster earned m b b' rc' temp' :
  shares_sound platform poster m -> 0 <= earned < 2 ^ 63 -> nonneg b ->
  award_receiptors platform earned m earned b [] = Ok (b', rc', temp') -> nonneg b' /\ 0 <= temp' <= earned.
Proof.
  intros Hs He Hb H. destruct (ss_platform _ _ _ Hs) as (p & Hp & _). destruct (others_ratios _ _ _ _ Hs Hp) as [Hr Hall].
  destruct (share_split _ _ _ _ _ Hs Hp) as ([Hok _] & _).
  destruct (parts_bound earned (others platform m)) as [B1 B2]; [lia|eapply Forall_impl; [exact Hall|cbn; lia]|].
  rewrite Hr in B2. assert (0 <= earned * cur_ratio p) by nia.
  apply award_receiptors_bounds in H as [H1 ->]; [|done|done|lia|done]. split; [done|lia].
Qed.
End division.

(** ** The hypotheses on parameters and state under which awards are not negative *)
(** The scores of an active post, as a sum over all scores. *)
Definition in_period (k : Z * Z * Z * Z) (ks : Z * Z * Z * Z) (s : score_object) : Z :=
  let '(platform, poster, period, pid) := k in
  if decide (ks.1 = (platform, poster, pid) /\ score_period s = period) then score_csaf s else 0.
Lemma scores_sum d k :
  zsum (map (fun x => score_csaf x.2) (scores_of d k)) = msum (in_period k) (scores (contents d)).
Proof.
  destruct k as [[[platform poster] period] pid]. unfold scores_of, ordered.
  rewrite (zsum_perm _ _ (Permutation_map _ (merge_sort_Permutation _ _))). unfold msum. rewrite map_fold_foldr.
  induction (map_to_list _) as [|[ks s] l IH]; [done|]. cbn [foldr uncurry]. rewrite <- IH. unfold in_period.
  destruct (decide (ks.1 = (platform, poster, pid) /\ score_period s = period)) as [H|H].
  - by rewrite filter_cons_True.
  - by rewrite filter_cons_False.
Qed.
Record award_params_ok (p : extension_parameter_type) : Prop := {
  ap_weight : 0 <= approval_casf_min_weight p <= PERCENT_100;
  ap_rates : 0 <= approval_casf_first_rate p /\ approval_casf_second_rate p <= PERCENT_100;
  (* the turning points of an awarded post are positive and differ *)
  ap_first : PERCENT_100 <= min_effective_csaf p * approval_casf_first_rate p;
  ap_turn : PERCENT_100 <= min_effective_csaf p * (approval_casf_second_rate p - approval_casf_first_rate p);
  ap_min : 0 <= min_effective_csaf p;
  ap_scorer : 0 <= scorer_earnings_rate p <= PERCENT_100;
  ap_receiptor : 0 <= receiptor_award_modulus p <= PERCENT_100;
  ap_referrer : 0 <= registrar_referrer_rate_from_score p <= PERCENT_100;
  ap_disapprove : 0 <= disapprove_award_modulus p;
}.
Record award_state_ok (p : extension_parameter_type) (g : dynamic_global_property_object) (d : database) : Prop := {
  as_dgp : dgp d = g;
  as_params : extension_parameters (params d) = p;
  as_posts : posts_sound d;
  as_scores k s : scores (contents d) !! k = Some s -> 0 < score_csaf s;
  as_sums k : msum (in_period k) (scores (contents d)) < 2 ^ 63;
  as_actives k a : active_posts (contents d) !! k = Some a -> 0 <= total_csaf a < 2 ^ 63;
  as_accounts uid a : accounts d !! uid = Some a -> 0 <= registrar_percent a <= PERCENT_100;
}.
(** An active post with enough score. *)
Definition worthy (p : extension_parameter_type) (d : database) (k : Z * Z * Z * Z) : Prop :=
  exists a, active_posts (contents d) !! k = Some a /\ min_effective_csaf p <= total_csaf a.

Section settle.
Context {F : FcInt} {FL : FcIntLaws F} {C : ChainConfig}.
Variables (p : extension_parameter_type) (g : dynamic_global_property_object).
Hypothesis Hp : award_params_ok p.
(** A step keeps what the bounds rely on, and every worthy post worthy. *)
Definition settles (d d' : database) : Prop :=
  award_state_ok p g d -> award_state_ok p g d' /\ forall k, worthy p d k -> worthy p d' k.
Lemma settles_refl d : settles d d.
Proof. by intros H. Qed.
Lemma settles_trans d1 d2 d3 : settles d1 d2 -> settles d2 d3 -> settles d1 d3.
Proof. intros H1 H2 H. destruct (H1 H) as [Hs Hk]. destruct (H2 Hs) as [Hs' Hk']. auto. Qed.

Lemma modify_active_settles k f d u d' :
  (forall a a', f a = Ok a' -> total_csaf a' = total_csaf a) -> modify_active k f d = Ok (u, d') -> settles d d'.
Proof.
  intros Hf H [S0 S1 S2 S3 S4 S5 S6]. unfold modify_active in H. peel H as dg Hg. peel H as a Ha. apply deref_ok in Ha.
  peel H as a' Ha'. injection H as _ <-. specialize (Hf _ _ Ha'). split; [split; try done|].
  - intros k0 a0 H0. cbn in H0. apply lookup_insert_Some in H0 as [[<- <-]|[_ H0]]; [rewrite Hf; by eapply S5|by eapply S5].
  - intros k0 (a0 & H0 & Hm). unfold worthy. cbn. destruct (decide (k = k0)) as [->|Hne].
    + exists a'. rewrite lookup_insert_eq. rewrite Ha in H0. injection H0 as <-. by rewrite Hf.
    + exists a0. by rewrite lookup_insert_ne.
Qed.
Lemma set_profits_settles k x d u d' : set_profits k x d = Ok (u, d') -> settles d d'.
Proof.
  intros H [S0 S1 S2 S3 S4 S5 S6]. unfold set_profits in H. peel H as dg Hg. peel H as sc Hs. apply deref_ok in Hs.
  injection H as _ <-. split; [split; try done|done].
  - intros k0 s0 H0. cbn in H0. apply lookup_insert_Some in H0 as [[<- <-]|[_ H0]]; [cbn; by eapply S3|by eapply S3].
  - intros k0. cbn. rewrite (msum_update _ _ _ _ _ Hs).
    replace (in_period k0 k (sc <| score_profits := x |>)) with (in_period k0 k sc) by (by destruct k0 as [[[]]]).
    specialize (S4 k0). lia.
Qed.
Lemma settle_post_settles k d u d' :
  modify_post k (fun q => Ok (q <| score_settlement := true |>)) d = Ok (u, d') -> settles d d'.
Proof.
  intros H [S0 S1 S2 S3 S4 S5 S6]. pose proof H as H'. apply modify_post_ok in H as (q & q' & Hq & [= <-] & Hd).
  assert (posts_sound d') as Hs.
  { destruct k as [[pl po] pid]. destruct (S2 _ _ _ _ Hq). by eapply posts_sound_set. }
  unfold modify_post in H'. peel H' as dg Hg. peel H' as q1 Hq1. peel H' as q2 Hq2. injection H' as _ <-.
  split; [by split|done].
Qed.
Lemma insert_all_csaf f l : (forall uid y a a', f uid y a = Ok a' -> total_csaf a' = total_csaf a) ->
  forall a a', insert_all f l a = Ok a' -> total_csaf a' = total_csaf a.
Proof.
  intros Hf. induction l as [|[uid y] l IH]; intros a a' H; [by injection H as <-|]. cbn in H.
  apply bind_ok in H as (a1 & H1 & H). rewrite (IH _ _ H). by eapply Hf.
Qed.
Lemma insert_receiptor_csaf uid y z a a' : insert_receiptor uid y z a = Ok a' -> total_csaf a' = total_csaf a.
Proof. unfold insert_receiptor. intros H. by apply bind_ok in H as (dt & _ & [= <-]). Qed.

(** ** The scores of a worthy post *)
Lemma turning_points x :
  min_effective_csaf p <= x < 2 ^ 63 ->
  0 < x * approval_casf_first_rate p / PERCENT_100 < x * approval_casf_second_rate p / PERCENT_100 /\
  x * approval_casf_second_rate p / PERCENT_100 < 2 ^ 63.
Proof.
  intros Hx. destruct Hp as [_ [R1 R2] P3 P4 P5 _ _ _ _].
  assert (approval_casf_first_rate p < approval_casf_second_rate p) by nia.
  assert (PERCENT_100 <= x * approval_casf_first_rate p) by nia.
  assert (x * approval_casf_first_rate p + PERCENT_100 <= x * approval_casf_second_rate p) by nia.
  assert (x * approval_casf_second_rate p <= x * PERCENT_100) by nia.
  assert (1 <= x * approval_casf_first_rate p / PERCENT_100) by (apply Z.div_le_lower_bound; lia).
  assert (x * approval_casf_second_rate p / PERCENT_100 <= x) by (apply Z.div_le_upper_bound; lia).
  assert ((x * approval_casf_first_rate p + 1 * PERCENT_100) / PERCENT_100 <= x * approval_casf_second_rate p / PERCENT_100) as Hd
    by (apply Z.div_le_mono; lia).
  rewrite Z.div_add in Hd by lia. lia.
Qed.
Lemma first_score_counts first second csaf x :
  0 < first < second -> second < 2 ^ 63 -> 0 < csaf < 2 ^ 63 -> effective_csaf p first second csaf 0 csaf = Ok x -> 0 < x.
Proof.
  intros Hf H2 Hc H. unfold effective_csaf in H. destruct (Z.leb_spec csaf first) as [L1|L1]; [injection H as <-; lia|].
  destruct (Z.ltb_spec 0 first); [|lia]. pose proof (ap_weight _ Hp). destruct (Z.leb_spec csaf second) as [L2|L2].
  - apply bind_ok in H as (y & Hy & H). apply part_effective_bounds in Hy; [|lia..].
    rewrite u128_sub_small, u128_to_i64_law in H by (rewrite ?u128_sub_small; lia). apply safe_add_ok in H as [-> _]. lia.
  - apply bind_ok in H as (a & Ha & H). rewrite u128_sub_small, u128_to_i64_law in Ha by (rewrite ?u128_sub_small; lia).
    apply safe_add_ok in Ha as [-> _]. apply bind_ok in H as (y & Hy & H). apply part_effective_bounds in Hy; [|lia..].
    apply bind_ok in H as (b & Hb' & H). apply safe_add_ok in Hb' as [-> _]. apply bind_ok in H as (z & Hz & H).
    apply (beyond_bounds p first) in Hz; [|lia..]. apply safe_add_ok in H as [-> _]. lia.
Qed.

Lemma sum_bounds (l : list (Z * Z * Z * Z * Z * bool)) : Forall (fun x => 0 <= x.1.2) l ->
  0 <= zsum (map (fun x => x.1.2) l) /\ Forall (fun x => 0 <= x.1.2 <= zsum (map (fun x => x.1.2) l)) l.
Proof.
  induction 1 as [|y l Hy _ [IH0 IH]]; [done|]. cbn. split; [lia|]. constructor; [lia|].
  eapply Forall_impl; [exact IH|]. cbn. intros; lia.
Qed.
(** The sum is computed by checked additions. *)
Lemma effective_scores_fit first second l : forall last sum r t,
  effective_scores p first second l last sum = Ok (r, t) -> - 2 ^ 63 <= sum < 2 ^ 63 -> t < 2 ^ 63.
Proof.
  induction l as [|[ks s] l IH]; intros last sum r t H Hsum; [injection H as _ <-; lia|]. cbn in H.
  apply bind_ok in H as (x & _ & H). apply bind_ok in H as (sum' & Hs & H). apply safe_add_ok in Hs as [-> Hs].
  apply bind_ok in H as ([r' t'] & Hr & [= _ <-]). by eapply IH.
Qed.
Lemma get_effective_csaf_bounds d k a r t :
  award_state_ok p g d -> active_posts (contents d) !! k = Some a -> min_effective_csaf p <= total_csaf a ->
  get_effective_csaf d k a = Ok (r, t) ->
  Forall (fun x => 0 <= x.1.2 <= t) r /\ t < 2 ^ 63 /\ (r <> [] -> 0 < t).
Proof.
  intros Hs Ha Hm H. pose proof (as_actives _ _ _ Hs _ _ Ha) as Hx. unfold get_effective_csaf in H.
  rewrite (as_params _ _ _ Hs), u128_of_small in H by lia. destruct (turning_points (total_csaf a)) as [T1 T2]; [lia|].
  destruct (ap_rates _ Hp) as [R1 R2]. assert (approval_casf_first_rate p < approval_casf_second_rate p) by (pose proof (ap_turn _ Hp); pose proof (ap_min _ Hp); nia).
  rewrite !u128_mul_small, !u128_div_law in H by nia. cbn [mbind result_bind] in H.
  set (first := total_csaf a * _ / _) in *. set (second := total_csaf a * _ / _) in *.
  pose proof (scores_sum d k) as Hsum. pose proof (as_sums _ _ _ Hs k) as Hfit. rewrite <- Hsum in Hfit. clear Hsum.
  assert (Forall (fun x => 0 < score_csaf x.2) (scores_of d k)) as Hpos.
  { rewrite Forall_forall. destruct k as [[[platform poster] period] pid]. unfold scores_of, ordered. intros [ks s].
    rewrite (merge_sort_Permutation _ _), list_elem_of_filter, elem_of_map_to_list. intros [_ Hks]. by eapply (as_scores _ _ _ Hs). }
  assert (Forall (fun x => 0 <= score_csaf x.2) (scores_of d k)) as Hnn by (eapply Forall_impl; [exact Hpos|cbn; lia]).
  pose proof H as H'. apply (effective_scores_bounds _ _ _ (ap_weight _ Hp)) in H as (E1 & -> & _); [|lia..|done|lia|lia].
  destruct (sum_bounds r E1) as [L1 L2]. split; [exact L2|].
  split; [by eapply effective_scores_fit; [exact H'|lia]|]. intros Hne. destruct (scores_of d k) as [|[ks s] l]; [injection H' as <- _; done|].
  cbn in H'. apply Forall_cons in Hpos as [Hc Hpos]. cbn in Hc, Hfit. apply Forall_cons in Hnn as [_ Hnn].
  assert (0 <= zsum (map (fun x : Z * Z * Z * Z * score_object => score_csaf x.2) l)) by (clear -Hnn; induction Hnn; cbn; lia).
  rewrite u128_add_small in H' by lia. apply bind_ok in H' as (x & Hx1 & H'). apply first_score_counts in Hx1; [|lia..].
  apply bind_ok in H' as (sum' & _ & H'). apply bind_ok in H' as ([r' t'] & _ & [= <- _]). cbn in *.
  apply Forall_cons in E1 as [_ E1]. destruct (sum_bounds r' E1). lia.
Qed.

(** ** One post *)
Definition payouts_ok (acc : payouts) : Prop :=
  nonneg (adjust_balance_map acc) /\ nonneg (registrar_and_referrer_award acc).
Lemma award_scores_bounds approval score_earned total l : forall earned acc d r d',
  0 <= score_earned < 2 ^ 63 -> score_earned * disapprove_award_modulus p < 2 ^ 64 ->
  Forall (fun x => 0 <= x.1.2 <= total) l -> total < 2 ^ 63 -> (l <> [] -> 0 < total) -> payouts_ok acc ->
  award_state_ok p g d -> award_scores approval score_earned total l earned acc d = Ok (r, d') ->
  payouts_ok r.2 /\ settles d d'.
Proof.
  induction l as [|[[k eff] approve] l IH]; intros earned acc d r d' Hs Hm Hall Ht Hpos Ha Hd H.
  { injection H as <- <-. split; [done|apply settles_refl]. }
  cbn [award_scores] in H. apply Forall_cons in Hall as [He Hall]. cbn in He. specialize (Hpos ltac:(done)).
  peel H as dg Hg. rewrite (as_params _ _ _ Hd) in H. pose proof (ap_disapprove _ Hp) as Hdis.
  assert (0 <= eff * score_earned <= total * score_earned) as Q1 by nia.
  assert (total * score_earned * disapprove_award_modulus p < 2 ^ 127) as Q2 by nia.
  peel H as y Hy. rewrite u128_of_small in Hy by lia. rewrite (u128_mul_small eff) in Hy by nia.
  assert (0 <= y < 2 ^ 63) as Hyb.
  { destruct (_ && _).
    - rewrite u128_mul_small, u128_mul_small, u128_div_law in Hy by nia. injection Hy as <-.
      split; [apply Z.div_pos; nia|]. apply Z.div_lt_upper_bound; nia.
    - rewrite u128_div_law in Hy by lia. injection Hy as <-. split; [apply Z.div_pos; lia|]. apply Z.div_lt_upper_bound; nia. }
  rewrite u128_to_i64_law in H by lia. step H as u1 d1 H1. apply set_profits_settles in H1.
  peel H as acc' Hacc. assert (payouts_ok acc') as Ha'.
  { destruct Ha as [A1 A2]. destruct (_ <=? _).
    - apply bind_ok in Hacc as (z & Hz & Hacc). apply fraction_bounds in Hz; [|lia|apply (ap_referrer _ Hp)].
      apply bind_ok in Hacc as (m1 & Hm1 & Hacc). apply bind_ok in Hacc as (w & Hw & Hacc). apply safe_sub_ok in Hw as [-> _].
      apply bind_ok in Hacc as (m2 & Hm2 & [= <-]). split; [refine (bump_nonneg _ _ _ _ A1 _ Hm2); lia|refine (bump_nonneg _ _ _ _ A2 _ Hm1); lia].
    - apply bind_ok in Hacc as (m2 & Hm2 & [= <-]). split; [refine (bump_nonneg _ _ _ _ A1 _ Hm2); lia|exact A2]. }
  peel H as e' He'. destruct (H1 Hd) as [Hd1 _]. apply IH in H as [H2 H3]; [|done..]. split; [exact H2|].
  by eapply settles_trans.
Qed.
Lemma earned_of_bounds d per total csaf approval s r :
  award_state_ok p g d -> 0 <= per < 2 ^ 63 -> 0 <= csaf <= total -> 0 < total < 2 ^ 63 ->
  earned_of d per total csaf approval = Ok (s, r) -> 0 <= s <= per /\ 0 <= r < 2 ^ 63.
Proof.
  intros Hd Hper Hc Ht H. unfold earned_of in H. rewrite (as_params _ _ _ Hd) in H.
  rewrite u128_mul_small, u128_div_law in H by nia. cbn [mbind result_bind] in H.
  assert (0 <= per * csaf / total <= per) as Hx by (split; [apply Z.div_pos; nia|]; apply Z.div_le_upper_bound; nia).
  rewrite u128_to_i64_law in H by lia. apply bind_ok in H as (s' & Hs & H). apply fraction_bounds in Hs; [|lia|].
  2: { destruct (_ <? _); [unfold DEFAULT_SCORE_RECEIPTS_RATIO; lia|apply (ap_scorer _ Hp)]. }
  apply bind_ok in H as (rest & Hrest & H). apply safe_sub_ok in Hrest as [-> _]. apply bind_ok in H as (r' & Hr & [= <- <-]).
  split; [lia|]. destruct (0 <=? approval); [injection Hr as <-; lia|].
  apply fraction_bounds in Hr; [lia|lia|apply (ap_receiptor _ Hp)].
Qed.
Lemma award_post_bounds per total acc x d r d' :
  0 <= per < 2 ^ 63 -> per * disapprove_award_modulus p < 2 ^ 64 -> 0 < total < 2 ^ 63 -> 0 <= x.1.2 <= total ->
  worthy p d x.1.1 -> payouts_ok acc -> award_state_ok p g d -> award_post per total acc x d = Ok (r, d') ->
  payouts_ok r /\ settles d d'.
Proof.
  destruct x as [[[[[platform poster] period] pid] csaf] approval]. cbn [fst snd]. intros Hper Hm Ht Hc Hw Ha Hd H.
  unfold award_post in H. peel H as dg Hg. peel H as e He. destruct e as [s re].
  apply earned_of_bounds in He as [Hs Hre]; [|done..]. peel H as q Hq. apply deref_ok in Hq.
  destruct (as_posts _ _ _ Hd _ _ _ _ Hq) as [Hsh _]. peel H as br Hbr. destruct br as [[b rc] temp]. destruct Ha as [A1 A2].
  eapply award_receiptors_sound in Hbr as [B1 B2]; [|exact Hsh|done|done]. peel H as b2 Hb2.
  apply bump_nonneg in Hb2; [|done|lia]. peel H as op Hop. peel H as pa Hpa. cbv zeta in H. step H as u1 d1 H1.
  apply modify_active_settles in H1; [|intros a a' Hf; by rewrite (insert_all_csaf _ _ (fun uid y => insert_receiptor_csaf uid y 0) _ _ Hf)].
  destruct (H1 Hd) as [Hd1 Hw1]. destruct (score_settlement q).
  { injection H as <- <-. by split. }
  peel H as dg1 Hg1. peel H as a Hact. apply deref_ok in Hact. peel H as lt Hlt. destruct lt as [l tot].
  destruct (Hw1 _ Hw) as (a0 & Ha0 & Hmin). rewrite Hact in Ha0. injection Ha0 as <-.
  destruct (get_effective_csaf_bounds _ _ _ _ _ Hd1 Hact Hmin Hlt) as (L1 & L2 & L3).
  assert (l <> [] -> 0 <= tot) as Htot by (intros Hne; specialize (L3 Hne); lia).
  step H as ea d2 H2. destruct ea as [earned acc2].
  assert (payouts_ok acc2 /\ settles d1 d2) as [Hacc2 S2].
  { destruct l as [|y l']; [injection H2 as _ <- <-; split; [by split|apply settles_refl]|].
    rewrite u128_of_small in H2 by (specialize (Htot ltac:(done)); lia).
    pose proof (ap_disapprove _ Hp). eapply award_scores_bounds in H2 as [X1 X2]; [split; [exact X1|exact X2]|lia|nia|done|done|done| |done].
    by split. }
  step H as u3 d3 H3. apply modify_active_settles in H3; [|intros a1 a' Hf; by apply bind_ok in Hf as (z & _ & [= <-])].
  step H as u4 d4 H4. apply settle_post_settles in H4. injection H as <- <-. split; [exact Hacc2|].
  eapply settles_trans; [exact H1|]. eapply settles_trans; [exact S2|]. by eapply settles_trans.
Qed.
Lemma award_posts_bounds per total l : forall acc d r d',
  0 <= per < 2 ^ 63 -> per * disapprove_award_modulus p < 2 ^ 64 -> 0 < total < 2 ^ 63 ->
  Forall (fun x => 0 <= x.1.2 <= total /\ worthy p d x.1.1) l -> payouts_ok acc -> award_state_ok p g d ->
  award_posts per total l acc d = Ok (r, d') -> payouts_ok r /\ settles d d'.
Proof.
  induction l as [|x l IH]; intros acc d r d' Hper Hm Ht Hall Ha Hd H.
  { injection H as <- <-. split; [done|apply settles_refl]. }
  cbn in H. apply Forall_cons in Hall as [[Hc Hw] Hall]. step H as acc1 d1 H1. apply award_post_bounds in H1 as [A1 S1]; [|done..].
  destruct (S1 Hd) as [Hd1 Hw1]. apply IH in H as [A2 S2]; [|done|done|done| |done|done].
  - split; [exact A2|]. by eapply settles_trans.
  - eapply Forall_impl; [exact Hall|]. intros y [Y1 Y2]. auto.
Qed.

(** ** The candidates of a period *)
Record candidates_ok (d : database) (c : candidates) : Prop := {
  ck_total : 0 <= total_csaf_amount c < 2 ^ 63;
  ck_effective : 0 <= total_effective_csaf_amount c < 2 ^ 63;
  ck_posts : Forall (fun x => 0 <= x.1.2 <= total_effective_csaf_amount c /\ worthy p d x.1.1) (post_effective_casf c);
  ck_platforms : Forall (fun x => 0 <= x.2 <= total_csaf_amount c) (platform_csaf_amount c);
}.
Lemma consider_ok d acc k a acc' :
  award_state_ok p g d -> active_posts (contents d) !! k = Some a -> candidates_ok d acc ->
  consider d acc (k, a) = Ok acc' -> candidates_ok d acc'.
Proof.
  intros Hd Ha Hc H. destruct k as [[[platform poster] period] pid]. pose proof (as_actives _ _ _ Hd _ _ Ha) as Hx.
  unfold consider in H. destruct (negb _); [by injection H as <-|]. rewrite (as_params _ _ _ Hd) in H.
  apply bind_ok in H as (acc1 & H1 & H).
  assert (candidates_ok d acc1 /\ total_csaf_amount acc1 = total_csaf_amount acc) as [C1 T1].
  { destruct (Z.leb_spec (min_effective_csaf p) (total_csaf a)); [|by injection H1 as <-].
    apply bind_ok in H1 as (csaf & Hcs & H1). destruct (Z.ltb_spec 0 csaf); [|by injection H1 as <-].
    apply bind_ok in H1 as (t & Ht & [= <-]). apply safe_add_ok in Ht as [-> Ht]. destruct Hc as [C1 C2 C3 C4].
    split; [|done]. split; cbn; [done|lia| |done]. apply Forall_app. split.
    - eapply Forall_impl; [exact C3|]. cbn. intros y [Y1 Y2]. split; [lia|done].
    - repeat constructor; cbn; [lia..|]. by exists a. }
  apply bind_ok in H as (m & Hm & H). apply bind_ok in H as (t & Ht & [= <-]). apply safe_add_ok in Ht as [-> Ht].
  destruct C1 as [C1 C2 C3 C4]. split; cbn; [lia|done|done|].
  assert (Forall (fun x : Z * Z => 0 <= x.2 <= total_csaf_amount acc1 + total_csaf a) (platform_csaf_amount acc1)) as C4'
    by (eapply Forall_impl; [exact C4|]; cbn; intros; lia).
  destruct (fm_find platform (platform_csaf_amount acc1)) as [y|] eqn:E.
  - pose proof (fm_find_elem _ _ _ _ E C4) as Hy. cbn in Hy. apply bind_ok in Hm as (z & Hz & [= <-]).
    apply safe_add_ok in Hz as [-> _]. rewrite Forall_forall in *. intros w [->|Hw]%fm_set_in; [cbn; lia|by apply C4'].
  - injection Hm as <-. rewrite Forall_forall in *. intros w [->|Hw]%fm_set_in; [cbn; lia|by apply C4'].
Qed.
Lemma get_candidates_ok d c : award_state_ok p g d -> get_candidates d = Ok c -> candidates_ok d c.
Proof.
  intros Hd H. unfold get_candidates in H.
  assert (Forall (fun x => active_posts (contents d) !! x.1 = Some x.2) (active_posts_now d)) as Hall.
  { rewrite Forall_forall. intros [k a]. unfold active_posts_now, ordered.
    rewrite (merge_sort_Permutation _ _), list_elem_of_filter, elem_of_map_to_list. by intros [_ ?]. }
  assert (forall acc, candidates_ok d acc -> consider_all d (active_posts_now d) acc = Ok c -> candidates_ok d c) as G.
  { clear H. induction Hall as [|[k a] l Hx _ IH]; intros acc Hacc H; [by injection H as <-|]. cbn [consider_all] in H.
    apply bind_ok in H as (acc' & H1 & H). eapply IH; [|exact H]. by eapply consider_ok. }
  eapply G, H. by split.
Qed.

(** ** The period *)
Record period_ok (d : database) : Prop := {
  po_yearly : 0 <= total_content_award_amount p < 2 ^ 63;
  po_order : last_content_award_time (dgp d) <= next_content_award_time (dgp d) < 2 ^ 32;
  po_since : 0 <= last_content_award_time (dgp d);
  po_fits : total_content_award_amount p * (next_content_award_time (dgp d) - last_content_award_time (dgp d)) / YEAR
              * Z.max 1 (disapprove_award_modulus p) < 2 ^ 63;
}.
Lemma per_period_ok d per :
  period_ok d ->
  per_period (total_content_award_amount p) (last_content_award_time (dgp d)) (next_content_award_time (dgp d)) = Ok per ->
  0 <= per < 2 ^ 63 /\ per * disapprove_award_modulus p < 2 ^ 64.
Proof.
  intros [P1 P2 P3 P4] H. unfold per_period in H. rewrite u128_of_small in H by lia. rewrite u128_mul_small in H by nia.
  rewrite u128_div_law in H by (unfold YEAR; lia). injection H as <-. pose proof (ap_disapprove _ Hp).
  assert (0 <= total_content_award_amount p * (next_content_award_time (dgp d) - last_content_award_time (dgp d)) / YEAR)
    by (apply Z.div_pos; unfold YEAR; nia).
  set (x := _ / YEAR) in *. clearbody x. nia.
Qed.
Lemma bonus_map_nonneg d l : award_state_ok p g d -> forall m m',
  nonneg l -> nonneg m -> bonus_map d l m = Ok m' -> nonneg m'.
Proof.
  intros Hd. induction l as [|[uid x] l IH]; intros m m' Hl Hm H; [by injection H as <-|]. cbn in H.
  apply Forall_cons in Hl as [Hx Hl]. cbn in Hx.
  apply bind_ok in H as (a & Ha & H). apply deref_ok in Ha. pose proof (as_accounts _ _ _ Hd _ _ Ha) as Hr.
  apply bind_ok in H as (y & Hy & H). apply fraction_bounds in Hy; [|lia|done]. apply bind_ok in H as (m1 & H1 & H).
  apply bump_nonneg in H1; [|done|lia]. apply bind_ok in H as (z & Hz & H). apply safe_sub_ok in Hz as [-> _].
  apply bind_ok in H as (m2 & H2 & H). apply bump_nonneg in H2; [|done|lia]. by eapply IH.
Qed.
Lemma pay_all_sum pay l a d r d' : nonneg l -> pay_all pay l a d = Ok (r, d') -> a <= r.
Proof.
  revert a d. induction l as [|[uid x] l IH]; intros a d Hl H; [injection H as <- _; lia|]. cbn in H.
  apply Forall_cons in Hl as [Hx Hl]. cbn in Hx. step H as u1 d1 H1. peel H as a' Ha. apply safe_add_ok in Ha as [-> _].
  apply IH in H; [lia|done].
Qed.

Lemma award_profits_settles n a b c e d u d' : award_profits n a b c e d = Ok (u, d') -> settles d d'.
Proof.
  intros H Hd. unfold award_profits in H. peel H as dg Hg. destruct (find_platform_by_owner d a); [|by injection H as _ <-].
  peel H as q Hq. apply bind_ok in H as (z & _ & [= _ <-]). destruct Hd. split; [by split|done].
Qed.
Lemma award_platforms_nonneg n per total l : forall m d r d',
  0 <= per < 2 ^ 63 -> 0 < total < 2 ^ 63 -> Forall (fun x => 0 <= x.2 <= total) l -> nonneg m ->
  award_platforms n per total l m d = Ok (r, d') -> nonneg r.
Proof.
  induction l as [|[k x] l IH]; intros m d r d' Hper Ht Hall Hm H; [by injection H as <- _|]. cbn in H.
  apply Forall_cons in Hall as [Hx Hall]. cbn in Hx. peel H as y Hy. rewrite u128_mul_small, u128_div_law in Hy by nia.
  injection Hy as <-. assert (0 <= per * x / total <= per) by (split; [apply Z.div_pos; nia|]; apply Z.div_le_upper_bound; nia).
  peel H as m' Hm'. rewrite u128_to_i64_law in Hm' by lia. apply bump_nonneg in Hm'; [|done|lia]. step H as u1 d1 H1.
  by eapply IH.
Qed.
Lemma score_bonus_settles uid x d u d' : pay_score_bonus uid x d = Ok (u, d') -> settles d d'.
Proof.
  intros H Hd. unfold pay_score_bonus in H. apply modify_stats_ok in H as (st & st' & _ & _ & ->).
  destruct Hd. split; [by split|done].
Qed.
Lemma pay_all_settles pay l a d r d' :
  (forall uid x d u d', pay uid x d = Ok (u, d') -> settles d d') -> pay_all pay l a d = Ok (r, d') -> settles d d'.
Proof.
  intros Hpay. revert a d. induction l as [|[uid x] l IH]; intros a d H; [injection H as _ <-; apply settles_refl|].
  cbn in H. step H as u1 d1 H1. apply Hpay in H1. peel H as a' Ha. apply IH in H. by eapply settles_trans.
Qed.
Lemma award_contents_nonneg n c d r d' :
  award_state_ok p g d -> period_ok d -> candidates_ok d c -> award_contents n c d = Ok (r, d') ->
  nonneg r.1 /\ 0 <= r.2 /\ award_state_ok p g d'.
Proof.
  intros Hd Hper Hc H. unfold award_contents in H. peel H as dg Hg. rewrite (as_params _ _ _ Hd) in H.
  destruct (_ && _) eqn:E; [|injection H as <- <-; split; [constructor|split; [cbn; lia|exact Hd]]].
  apply andb_prop in E as [E1 E2]. apply Z.ltb_lt in E1, E2.
  peel H as per Hpp. apply per_period_ok in Hpp as [P1 P2]; [|done]. step H as acc d1 Hs1.
  pose proof (ck_effective _ _ Hc) as Q1. pose proof (ap_disapprove _ Hp) as Q2.
  apply award_posts_bounds in Hs1 as [A1 S1]; [|done|lia|lia|by apply (ck_posts _ _ Hc)|by split|done].
  step H as u2 d2 Hs2. assert (award_state_ok p g d2) as Hd2.
  { destruct (S1 Hd) as [Hd1 _]. change d2 with (u2, d2).2.
    refine (mfor_inv (award_state_ok p g) _ _ _ _ _ Hd1 Hs2). intros x s1 [u s2] _ Hs1 Hx.
    by destruct (award_profits_settles _ _ _ _ _ _ _ _ Hx Hs1). }
  peel H as dg2 Hg2. peel H as m Hm. apply bonus_map_nonneg in Hm; [|done|apply A1|constructor].
  step H as actual d3 Hs3. injection H as <- <-. cbn. pose proof (pay_all_sum _ _ _ _ _ _ Hm Hs3).
  apply pay_all_settles in Hs3; [|exact score_bonus_settles]. split; [apply A1|]. split; [done|]. by destruct (Hs3 Hd2).
Qed.
Lemma pay_candidates_nonneg n c d d1 d2 r m' actual d' :
  award_state_ok p g d -> period_ok d -> get_candidates d = Ok c -> award_contents n c d = Ok (r, d1) ->
  award_content_platforms n c r.1 d1 = Ok (m', d2) ->
  pay_all (fun uid x => adjust_balance uid (Asset x CORE_ASSET_AID)) m' r.2 d2 = Ok (actual, d') -> 0 <= actual.
Proof.
  intros Hd Hper Hc Hs1 Hs2 H. apply get_candidates_ok in Hc; [|done].
  apply award_contents_nonneg in Hs1 as (N1 & N2 & Hd1); [|done..]. apply pay_all_sum in H; [lia|].
  unfold award_content_platforms in Hs2. peel Hs2 as dg2 Hg2.
  rewrite (as_params _ _ _ Hd1), (as_dgp _ _ _ Hd1), <- (as_dgp _ _ _ Hd) in Hs2.
  destruct (_ && _) eqn:E; [|by injection Hs2 as <- _]. apply andb_prop in E as [E1 E2]. apply Z.ltb_lt in E1, E2.
  peel Hs2 as per Hpp. apply per_period_ok in Hpp as [P1 P2]; [|done]. pose proof (ck_total _ _ Hc).
  eapply award_platforms_nonneg in Hs2; [exact Hs2|done|lia|by apply (ck_platforms _ _ Hc)|done].
Qed.
End settle.

(** ** Awards leave the books in order *)
Section awards.
Context {F : FcInt} {FL : FcIntLaws F} {C : ChainConfig}.
Variable latest_periods : Z.

(** What the awards of a period rely on. *)
Definition awards_ok (d : database) : Prop :=
  let p := extension_parameters (params d) in
  award_params_ok p /\ award_state_ok p (dgp d) d /\ period_ok p d.
Lemma pay_content_awards_nonneg d actual d' :
  awards_ok d -> pay_content_awards latest_periods d = Ok (actual, d') -> 0 <= actual.
Proof.
  intros (Hp & Hd & Hper) H. unfold pay_content_awards in H. step H as u1 d1 H1. unfold modify_dgp in H1.
  apply bind_ok in H1 as (g & [= <-] & [= _ <-]).
  set (d1 := d <| dgp := _ |>) in *. assert (award_state_ok (extension_parameters (params d)) (dgp d1) d1) as Hd1
    by (destruct Hd; by split).
  assert (period_ok (extension_parameters (params d)) d1) as Hper1 by (destruct Hper; by split).
  peel H as dg Hg. peel H as c Hc. step H as r d2 H2. destruct r as [m a]. step H as m' d3 H3.
  by eapply (pay_candidates_nonneg _ _ Hp latest_periods c d1 d2 d3 (m, a)).
Qed.
Lemma content_awards_neutral d u d' :
  awards_ok d -> process_content_platform_awards latest_periods d = Ok (u, d') -> neutral d d'.
Proof.
  intros Hok H. unfold process_content_platform_awards in H. peel H as dg Hg. cbv zeta in H. destruct (_ <=? _).
  2: { eapply books_neutral, H. apply keeps_when, books_dgp. books_side. }
  destruct (_ || _).
  { eapply books_neutral, H. apply keeps_when, keeps_bind; [apply books_clear_active|intros ?]. apply books_dgp. books_side. }
  destruct (_ =? 0).
  { eapply books_neutral, H. apply keeps_bind; [apply books_clear_active|intros ?]. apply books_dgp. books_side. }
  peel H as can Hcan. step H as actual d1 H1. step H as u2 d2 H2.
  apply (books_neutral _ _ _ _ (books_clear_active _)) in H.
  assert (0 <= actual /\ shift d d1 (only CORE_ASSET_AID actual)) as [Ha S1].
  { destruct can; [split; [by eapply pay_content_awards_nonneg|by eapply pay_content_awards_shift]|].
    injection H1 as <- <-. split; [lia|]. eapply shift_ext, shift_refl. intros y. by rewrite only_zero. }
  eapply take_awards_shift in H2; [|done|done]. eapply neutral_trans_r; [|exact H]. shift_seq S1 H2.
Qed.
End awards.

(** * Awards for votes *)
Section voted.
Context {F : FcInt} {FL : FcIntLaws F} {C : ChainConfig}.
Variable latest_periods : Z.

Lemma sum_set (m : flat_map Z Z) k y z : fm_find k m = Some y -> zsum (fm_set k z m).*2 = zsum m.*2 - y + z.
Proof.
  intros Hf. assert (forall l l' : list (Z * Z), l ≡ₚ l' -> zsum l.*2 = zsum l'.*2) as Hs by (intros l l' Hp; apply zsum_perm; by rewrite Hp).
  rewrite (Hs _ _ (fm_set_found _ _ z _ Hf)), (Hs _ _ (fm_erase_found _ _ _ Hf)). cbn. lia.
Qed.
(** Everybody new gets [a]. *)
Lemma emplace_all_sum a (l : list (Z * Z)) : forall m,
  fm_sorted m -> NoDup l.*1 -> (forall k, k ∈ l.*1 -> fm_find k m = None) ->
  let m' := fold_left (fun m x => fm_emplace x.1 a m) l m in
  fm_sorted m' /\ zsum m'.*2 = zsum m.*2 + a * Z.of_nat (length l) /\
  Forall (fun x => x.2 = a \/ x ∈ m) m'.
Proof.
  induction l as [|[k v] l IH]; intros m Hs Hn Hf; cbv zeta.
  { split; [done|]. split; [cbn; lia|]. rewrite Forall_forall. intros x Hx. by right. }
  cbn in Hn. apply NoDup_cons in Hn as [Hk Hn]. cbn [fold_left fst]. pose proof (Hf k ltac:(left)) as Hk0.
  destruct (IH (fm_emplace k a m)) as (I1 & I2 & I3).
  - by apply fm_emplace_sorted.
  - done.
  - intros k' Hk'. unfold fm_emplace. rewrite Hk0, find_set_Z by done. destruct (Z.eqb_spec k' k) as [->|]; [done|].
    apply Hf. by right.
  - split; [done|]. pose proof (fm_emplace_new k a m Hk0) as Hp. split.
    + rewrite I2, (zsum_perm _ _ (fmap_Permutation snd _ _ Hp)). cbn. lia.
    + eapply Forall_impl; [exact I3|]. intros x [?|Hx]; [by left|]. rewrite Hp in Hx. apply elem_of_cons in Hx as [->|Hx]; [by left|by right].
Qed.
Lemma awards_by_votes_sum by_votes total l : forall actual m m' actual',
  awards_by_votes by_votes total l actual m = Ok (m', actual') ->
  zsum m'.*2 - actual' = zsum m.*2 - actual.
Proof.
  induction l as [|[uid v] l IH]; intros actual m m' actual' H; [injection H as <- <-; done|]. cbn in H.
  apply bind_ok in H as (x & _ & H). apply bind_ok in H as (a & Ha & H). apply safe_add_ok in Ha as [-> _].
  apply bind_ok in H as (y & Hy & H). apply deref_ok in Hy. apply bind_ok in H as (z & Hz & H). apply safe_add_ok in Hz as [-> _].
  apply IH in H. rewrite (sum_set _ _ _ _ Hy) in H. lia.
Qed.
Lemma awards_by_votes_grow by_votes total l : forall actual m m' actual',
  0 <= by_votes < 2 ^ 63 -> 0 < total < 2 ^ 65 -> Forall (fun x => 0 <= x.2 <= total) l ->
  awards_by_votes by_votes total l actual m = Ok (m', actual') -> actual <= actual'.
Proof.
  induction l as [|[uid v] l IH]; intros actual m m' actual' Hb Ht Hall H; [injection H as _ <-; lia|]. cbn in H.
  apply Forall_cons in Hall as [Hv Hall]. cbn in Hv. apply bind_ok in H as (x & Hx & H).
  rewrite u128_of_small, u128_mul_small, u128_div_law in Hx by nia. injection Hx as <-.
  assert (0 <= by_votes * v / total < 2 ^ 63) by (split; [apply Z.div_pos; nia|]; apply Z.div_lt_upper_bound; nia).
  rewrite u128_to_i64_law in H by lia. apply bind_ok in H as (a & Ha & H). apply safe_add_ok in Ha as [-> _].
  apply bind_ok in H as (y & _ & H). apply bind_ok in H as (z & _ & H). apply IH in H; [lia|done..].
Qed.

(** The platforms that are awarded, each once. *)
Definition vote_map (l : list (Z * platform_object)) (m : flat_map Z Z) : flat_map Z Z :=
  fold_left (fun m x => fm_emplace x.1 (p_total_votes x.2) m) l m.
Lemma vote_map_ok l : forall m, fm_sorted m ->
  fm_sorted (vote_map l m) /\
  forall x, x ∈ vote_map l m -> x ∈ m \/ exists q, (x.1, q) ∈ l /\ x.2 = p_total_votes q.
Proof.
  induction l as [|[k q] l IH]; intros m Hs; [split; [done|by left]|]. unfold vote_map. cbn [fold_left fst snd].
  destruct (IH (fm_emplace k (p_total_votes q) m)) as [I1 I2]; [by apply fm_emplace_sorted|]. split; [exact I1|].
  intros x Hx. apply I2 in Hx as [Hx|(q' & Hq' & E)].
  - unfold fm_emplace in Hx. destruct (fm_find k m); [by left|]. apply fm_set_in in Hx as [->|Hx]; [|by left].
    right. exists q. split; [by left|done].
  - right. exists q'. split; [by right|done].
Qed.
(** What the votes add up to. *)
Lemma votes_total l : forall t,
  0 <= t -> Forall (fun x => 0 <= p_total_votes x.2) l ->
  t + zsum ((fun x : Z * platform_object => p_total_votes x.2) <$> l) < 2 ^ 64 ->
  fold_left (fun t x => u128_add t (p_total_votes x.2)) l t = t + zsum ((fun x => p_total_votes x.2) <$> l) /\
  Forall (fun x => p_total_votes x.2 <= zsum ((fun x => p_total_votes x.2) <$> l)) l /\
  0 <= zsum ((fun x => p_total_votes x.2) <$> l).
Proof.
  induction l as [|[k q] l IH]; intros t Ht Hall Hs; [cbn; split_and!; [lia|constructor|lia]|].
  apply Forall_cons in Hall as [Hq Hall]. cbn [fst snd fmap list_fmap zsum fold_left] in *.
  destruct (IH 0) as (_ & _ & Hz); [lia|done|lia|].
  rewrite u128_add_small by lia. destruct (IH (t + p_total_votes q)) as (I1 & I2 & _); [lia|done|lia|].
  split_and!; [rewrite I1; lia| |lia]. constructor; [cbn; lia|]. eapply Forall_impl; [exact I2|]. cbn. lia.
Qed.
(** What the awards for votes rely on: parameters and times within their types, and
    votes that fit 64 bits. *)
Record voted_ok (d : database) : Prop := {
  vo_yearly : 0 <= total_platform_voted_award_amount (extension_parameters (params d)) < 2 ^ 63;
  vo_rate : 0 <= platform_award_basic_rate (extension_parameters (params d)) <= PERCENT_100;
  vo_since : 0 <= last_platform_voted_award_time (dgp d);
  vo_order : last_platform_voted_award_time (dgp d) <= next_platform_voted_award_time (dgp d) < 2 ^ 32;
  vo_fits : total_platform_voted_award_amount (extension_parameters (params d)) *
              (next_platform_voted_award_time (dgp d) - last_platform_voted_award_time (dgp d)) / YEAR < 2 ^ 63;
  vo_votes : Forall (fun x => 0 <= p_total_votes x.2) (awarded_platforms d);
  vo_total : zsum ((fun x => p_total_votes x.2) <$> awarded_platforms d) < 2 ^ 64;
}.
Lemma voted_period d value x :
  voted_ok d -> let p := extension_parameters (params d) in
  per_period (total_platform_voted_award_amount p) (last_platform_voted_award_time (dgp d))
    (next_platform_voted_award_time (dgp d)) = Ok value ->
  u128_div (u128_mul value (platform_award_basic_rate p)) PERCENT_100 = Ok x ->
  0 <= x <= value /\ value < 2 ^ 63.
Proof.
  intros [V1 V2 V3 V4 V5 _ _] p H Hx. subst p. unfold per_period in H. rewrite u128_of_small in H by lia.
  rewrite u128_mul_small in H by nia. rewrite u128_div_law in H by (unfold YEAR; lia). injection H as <-.
  set (y := _ / YEAR) in *. assert (0 <= y) by (apply Z.div_pos; unfold YEAR; nia). clearbody y.
  rewrite u128_mul_small, u128_div_law in Hx by nia. injection Hx as <-.
  split; [|done]. split; [apply Z.div_pos; nia|apply Z.div_le_upper_bound; nia].
Qed.
Lemma awarded_votes d :
  voted_ok d ->
  let total := fold_left (fun t x => u128_add t (p_total_votes x.2)) (awarded_platforms d) 0 in
  0 <= total < 2 ^ 64 /\ fm_sorted (vote_map (awarded_platforms d) []) /\
  Forall (fun x => 0 <= x.2 <= total) (vote_map (awarded_platforms d) []).
Proof.
  intros Hv total. pose proof (vo_votes _ Hv) as H1. pose proof (vo_total _ Hv) as H2.
  destruct (votes_total (awarded_platforms d) 0) as (E & A & Hz); [lia|done|lia|]. subst total. rewrite E.
  split; [lia|]. destruct (vote_map_ok (awarded_platforms d) [] I) as [S1 S2]. split; [exact S1|].
  apply Forall_forall. intros x Hx. apply S2 in Hx as [Hx|(q & Hq & ->)]; [by apply not_elem_of_nil in Hx|].
  pose proof (proj1 (Forall_forall _ _) H1 _ Hq). pose proof (proj1 (Forall_forall _ _) A _ Hq). cbn in *. lia.
Qed.
(** What is paid is what the platforms get. *)
Lemma voted_awards_sum d m actual :
  voted_ok d -> voted_awards d = Ok (m, actual) -> zsum m.*2 = actual /\ 0 <= actual.
Proof.
  intros Hv H. unfold voted_awards in H. cbv zeta in H. fold (vote_map (awarded_platforms d) []) in H.
  destruct (awarded_votes d Hv) as (T & S1 & S2). set (total := fold_left _ _ 0) in *. set (ps := vote_map _ _) in *.
  destruct (Z.ltb_spec 0 (Z.of_nat (length ps))); [|injection H as <- <-; split; [done|lia]].
  apply bind_ok in H as (value & Hval & H). apply bind_ok in H as (x & Hx & H).
  destruct (voted_period d value x Hv Hval Hx) as [B1 B2]. rewrite !u128_to_i64_law in H by lia.
  apply bind_ok in H as (av & Hav & H). apply bind_ok in H as (act & Hact & H). apply safe_mul_ok in Hact as [-> _].
  destruct (emplace_all_sum av ps [] I) as (_ & E2 & _); [by apply fm_sorted_nodup|done|]. cbn in E2.
  assert (0 <= av) as Hav0.
  { apply safe_div_ok in Hav as [-> _]; [apply Z.quot_pos; lia|lia]. }
  destruct (Z.ltb_spec 0 total).
  - apply bind_ok in H as (bv & Hbv & H). apply safe_sub_ok in Hbv as [-> _].
    pose proof (awards_by_votes_sum _ _ _ _ _ _ _ H) as A1. apply awards_by_votes_grow in H; [|lia|lia|done].
    split; [lia|nia].
  - injection H as <- <-. split; [lia|nia].
Qed.
Lemma platform_award_shift uid x d u d' :
  pay_platform_award latest_periods uid x d = Ok (u, d') -> shift d d' (only CORE_ASSET_AID x).
Proof.
  intros H. unfold pay_platform_award in H. step H as u1 d1 H1. apply adjust_balance_shift in H1.
  peel H as dg Hg. peel H as q Hq. peel H as q' Hq'.
  eapply neutral_trans_r; [exact H1|]. eapply books_neutral, H. apply keeps_modify_platform, _.
Qed.
Lemma platform_awards_shift m : forall d u d',
  mfor (fun x => pay_platform_award latest_periods x.1 x.2) m d = Ok (u, d') -> shift d d' (only CORE_ASSET_AID (zsum m.*2)).
Proof.
  induction m as [|[uid x] m IH]; intros d u d' H.
  - injection H as _ <-. eapply shift_ext, shift_refl. intros y. cbn. by rewrite only_zero.
  - cbn in H. step H as u1 d1 H1. apply platform_award_shift in H1. apply IH in H. cbn in *. shift_seq H1 H.
Qed.
Lemma voted_awards_neutral d u d' :
  voted_ok d -> process_platform_voted_awards latest_periods d = Ok (u, d') -> neutral d d'.
Proof.
  intros Hv H. unfold process_platform_voted_awards in H. peel H as dg Hg. cbv zeta in H.
  destruct (_ <=? _); [|injection H as _ <-; apply shift_refl]. cbn [when] in H. destruct (_ && _).
  2: { eapply books_neutral, H. apply keeps_when, books_dgp. books_side. }
  peel H as can Hcan. step H as actual d1 H1.
  assert (0 <= actual /\ shift d d1 (only CORE_ASSET_AID actual)) as [Ha S1].
  { destruct (_ && _) in H1.
    - peel H1 as r Hr. destruct r as [m a]. step H1 as u1 d2 Hp. injection H1 as <- <-.
      apply voted_awards_sum in Hr as [<- Ha]; [|done]. split; [done|]. by eapply platform_awards_shift.
    - injection H1 as <- <-. split; [lia|]. eapply shift_ext, shift_refl. intros y. by rewrite only_zero. }
  eapply take_awards_shift in H; [|done|done]. shift_seq S1 H.
Qed.
End voted.
