(* ===== verification/ProposalClaims.v ===== *)
(** * Proposals end

    Executing a proposal may make, approve, delete and execute others.  The loop over
    the expired ones ends all the same: nothing an operation does makes another
    proposal expire.  What was proposed is executed only with the approvals it
    needs. *)
From S2P Require Import Prelude FlatMap FcInt Authority AuthorityProof Asset Pledge ChainState.
From S2P Require Import AccountStats Voter Balance Transfer Frame Ledger Fee BlockUpdate Proposal BlockProof.
Local Open Scope Z_scope.
Import auth asset pledge chain acc voter balance transfer fee updates proposals.

(** The other components leave the time and the number of the head block alone. *)
Definition block_clock (d : database) : Z * Z := (head_block_time d, head_block_num d).
Class EvaluatorLaws {B} (E : Evaluators B) : Prop := {
  basic_keeps_clock sigs o : keeps block_clock (basic_apply sigs o);
}.

#[export] Instance clock_quiet : QuietFrame block_clock.
Proof. by repeat split. Qed.
#[export] Instance time_quiet : QuietFrame head_block_time.
Proof. by repeat split. Qed.

Section time.
Context {F : FcInt} {C : ChainConfig}.
Lemma clock_take_fee st uid p : keeps block_clock (take_fee st uid p).
Proof.
  unfold take_fee, process_fee_options. keep.
  - by apply quiet_adjust_balance, _.
  - by apply keeps_stats, _.
  - intros d u d' H. unfold modify_dynamic_data in H. inv_ok. done.
Qed.
Lemma clock_transfer sign op : keeps block_clock (transfer sign op).
Proof.
  unfold transfer, transfer_do_apply, adjust_prepaid. keep; try (by apply quiet_adjust_balance, _); try (by apply keeps_stats, _).
  intros d u d' H. unfold use_auth in H. inv_ok. done.
Qed.
End time.

(** ** The front of an index by time *)
Section front.
Context {A : Type} (f g : A -> Z).
#[local] Notation le := (key_le (fun x => [f x; g x])).
Lemma key_le_2 x y : le x y <-> f x < f y \/ f x = f y /\ g x <= g y.
Proof.
  unfold key_le. cbn. rewrite orb_true_iff, andb_true_iff, orb_true_iff, andb_true_iff.
  rewrite !Z.ltb_lt, !Z.eqb_eq. intuition lia.
Qed.
#[local] Instance key_le_2_trans : Transitive le.
Proof. intros x y z. rewrite !key_le_2. lia. Qed.
#[local] Instance key_le_2_total : Total le.
Proof. intros x y. rewrite !key_le_2. lia. Qed.
(** When the first object is not due, none is. *)
Lemma front_none t l x : front (fun x => [f x; g x]) (fun x => f x <=? t) l = None -> x ∈ l -> t < f x.
Proof.
  unfold front, ordered. intros H Hx. rewrite <- (merge_sort_Permutation le l) in Hx.
  pose proof (StronglySorted_merge_sort le l) as Hs. destruct (merge_sort _ l) as [|y l']; [by apply not_elem_of_nil in Hx|].
  destruct (Z.leb_spec (f y) t); [done|]. apply StronglySorted_inv in Hs as [_ Hs].
  apply elem_of_cons in Hx as [->|Hx]; [done|]. rewrite Forall_forall in Hs. specialize (Hs x Hx).
  apply key_le_2 in Hs. lia.
Qed.
End front.

Section claims.
Context {F : FcInt} {C : ChainConfig} {B : Type} {E : Evaluators B} {EL : EvaluatorLaws E}.
Variables (is_valid_uid : Z -> bool) (TEMP COMMITTEE : Z) (fee_required : operation B -> database -> result (Z * Z)).
#[local] Notation state := (chain_state B).
#[local] Notation proposal := (proposal_object B).
#[local] Notation now s := (head_block_time (base s)).
#[local] Notation apply := (apply_operation is_valid_uid TEMP COMMITTEE fee_required).
#[local] Notation push := (push_proposal is_valid_uid TEMP COMMITTEE fee_required).
#[local] Notation authorized := (is_authorized_to_execute TEMP COMMITTEE).

(** ** Nothing an operation does makes a proposal expire *)
Definition calm (s s' : state) : Prop :=
  block_clock (base s') = block_clock (base s) /\
  forall id p', pending s' !! id = Some p' -> expiration_time p' <= now s ->
    exists p, pending s !! id = Some p /\ expiration_time p = expiration_time p'.
Lemma calm_now s s' : calm s s' -> now s' = now s.
Proof. by intros [[= Ht _] _]. Qed.
Lemma calm_refl s : calm s s.
Proof. split; eauto. Qed.
Lemma calm_trans s1 s2 s3 : calm s1 s2 -> calm s2 s3 -> calm s1 s3.
Proof.
  intros [T1 H1] [T2 H2]. pose proof (calm_now _ _ (conj T1 H1)) as N1. split; [congruence|]. intros id p3 Hp Hx.
  destruct (H2 _ _ Hp) as (p2 & Hp2 & E2); [congruence|].
  destruct (H1 _ _ Hp2) as (p1 & Hp1 & E1); [congruence|]. exists p1. split; [done|congruence].
Qed.
Lemma calm_base s d : block_clock d = block_clock (base s) -> calm s (s <| base := d |>).
Proof. intros Ht. split; [done|]. cbn. eauto. Qed.
Lemma calm_remove id s : calm s (s <| pending ::= delete id |>).
Proof. split; [done|]. cbn. intros i p' Hp _. apply lookup_delete_Some in Hp as [_ Hp]. eauto. Qed.
Lemma on_base_calm {A} (m : M database A) s a s' :
  keeps block_clock m -> on_base m s = Ok (a, s') -> calm s s'.
Proof.
  intros Hk H. unfold on_base in H. destruct (m (base s)) as [[x d]|e] eqn:Em; [|done]. injection H as _ <-.
  apply calm_base. by eapply Hk.
Qed.
Lemma create_calm exp l review s u s' : create is_valid_uid exp l review s = Ok (u, s') -> calm s s'.
Proof.
  intros H. unfold create in H. peel H as sg Hg. peel H as out Hout. injection H as _ <-.
  unfold create_evaluate in Hout. apply bind_ok in Hout as ([] & _ & Hout).
  apply bind_ok in Hout as ([] & Hlt%guard_ok_inv%Z.ltb_lt & _). split; [done|]. cbn. intros id p' Hp Hx.
  apply lookup_insert_Some in Hp as [[_ <-]|[_ Hp]]; [cbn in Hx; lia|eauto].
Qed.
Lemma update_calm ps op s u s' :
  (forall id sigs s u s', ps id sigs s = Ok (u, s') -> calm s s') ->
  update TEMP COMMITTEE ps op s = Ok (u, s') -> calm s s'.
Proof.
  intros Hps H. unfold update in H. peel H as sg Hg. peel H as p Hp. step H as u1 s1 H1. injection H1 as _ <-.
  assert (calm s (s <| pending ::= <[pq_proposal op := updated op p]> |>)) as C1.
  { split; [done|]. cbn. intros id p' Hp' Hx. apply lookup_insert_Some in Hp' as [[<- <-]|[_ Hp']]; [|eauto].
    unfold update_evaluate in Hp. apply bind_ok in Hp as ([] & _ & Hp). apply bind_ok in Hp as (p0 & H0 & Hp).
    apply deref_ok in H0. repeat (apply bind_ok in Hp as ([] & _ & Hp)). injection Hp as <-. eauto. }
  destruct (some _); [injection H as _ <-; exact C1|]. peel H as sg2 Hg2.
  destruct (is_authorized_to_execute _ _ _ _) as [sigs|]; [|injection H as _ <-; exact C1].
  step H as b s2 H2. injection H as _ <-. unfold attempt in H2. eapply calm_trans; [exact C1|].
  destruct (ps _ _ _) as [[u2 s3]|e] eqn:Ep; [injection H2 as _ <-; by eapply Hps|].
  destruct (fatal e); [done|]. injection H2 as _ <-. apply calm_refl.
Qed.
Lemma delete_calm op s u s' : delete_proposal op s = Ok (u, s') -> calm s s'.
Proof.
  intros H. unfold delete_proposal in H. peel H as sg Hg. peel H as a1 Ha. peel H as p Hp. peel H as a2 Ha2.
  injection H as _ <-. apply calm_remove.
Qed.
Lemma with_fee_calm st o payer fee op s u s' :
  (forall s u s', op s = Ok (u, s') -> calm s s') ->
  with_fee fee_required st o payer fee op s = Ok (u, s') -> calm s s'.
Proof.
  intros Hop H. unfold with_fee in H. peel H as sg Hg. peel H as p Hp. peel H as c Hc. step H as u1 s1 H1.
  eapply calm_trans; [by eapply Hop|]. eapply on_base_calm; [|exact H]. apply clock_take_fee.
Qed.
Lemma run_proposed_calm ap sigs id l : forall s u s',
  (forall sigs o s u s', ap sigs o s = Ok (u, s') -> calm s s') ->
  run_proposed ap sigs id l s = Ok (u, s') -> calm s s'.
Proof.
  induction l as [|o l IH]; intros s u s' Ha H; [injection H as _ <-; apply calm_refl|]. cbn in H.
  step H as u1 s1 H1. peel H as sg Hg. peel H as p Hp. eapply calm_trans; [by eapply Ha|by eapply IH].
Qed.
Lemma push_with_calm ap id sigs s u s' :
  (forall sigs o s u s', ap sigs o s = Ok (u, s') -> calm s s') ->
  push_with ap id sigs s = Ok (u, s') -> calm s s' /\ pending s' !! id = None.
Proof.
  intros Ha H. unfold push_with in H. peel H as sg Hg. peel H as p Hp. step H as u1 s1 H1. injection H as _ <-.
  split; [|apply lookup_delete_eq]. eapply calm_trans; [by eapply run_proposed_calm|apply calm_remove].
Qed.
Lemma apply_calm n : forall st sigs o s u s', apply n st sigs o s = Ok (u, s') -> calm s s'.
Proof.
  induction n as [|n IH]; intros st sigs o s u s' H; cbn [apply_operation] in H.
  all: apply with_fee_calm in H; [exact H|]; clear H; intros s1 u1 s2 H; destruct o.
  all: try (by eapply create_calm); try (by eapply delete_calm);
    try (by eapply on_base_calm; [apply basic_keeps_clock|exact H]).
  - apply update_calm in H; [done|]. by intros id sg s3 u3 s4 H3.
  - apply update_calm in H; [done|]. intros id sg s3 u3 s4 H3. eapply push_with_calm; [|exact H3]. apply IH.
Qed.
Lemma push_calm n id sigs s u s' : push n id sigs s = Ok (u, s') -> calm s s' /\ pending s' !! id = None.
Proof. apply push_with_calm, apply_calm. Qed.

(** ** The loop over expired proposals *)
(** The approvals grant every authority the operations require, provided that the
    weights of no authority overflow. *)
Definition approvals_suffice (d : database) (p : proposal) : Prop :=
  let go uid := a_owner <$> accounts d !! uid in
  let ga uid := a_active <$> accounts d !! uid in
  let gs uid := a_secondary <$> accounts d !! uid in
  let r := get_required_uid_authorities op_required (hardfork_04 d) (proposed_transaction p) in
  (forall x au, get_by_uid_auth go ga gs x = Some au -> wf_authority au) ->
  (forall au, au ∈ req_other r -> wf_authority au) ->
  all_granted go ga gs r (available_key_approvals p)
    (granted TEMP (elements (available_owner_approvals p)) (elements (available_active_approvals p))
       (elements (available_secondary_approvals p))).
Lemma authorized_suffice d p sigs : authorized d p = Some sigs -> approvals_suffice d p.
Proof.
  unfold is_authorized_to_execute. destruct (verify_authority _ _ _ _ _ _ _ _ _ _ _ _ _ _) as [si|] eqn:Ev; [|done].
  intros _ Hwf Hother. apply verify_grants in Ev as [_ Hg]; [|done..]. by rewrite dom_gset_to_gmap in Hg.
Qed.

(** The first expired proposal is executed, if it is approved, or it is dropped. *)
Inductive expiry_step (n : nat) (s : state) : state -> Prop :=
| expiry_executed id p sigs s' :
    next_expired s = Some (id, p) -> approvals_suffice (base s) p -> push n id sigs s = Ok (tt, s') ->
    expiry_step n s s'
| expiry_dropped id p :
    next_expired s = Some (id, p) -> expiry_step n s (s <| pending ::= delete id |>).
Lemma next_expired_due (s : state) x : next_expired s = Some x -> pending s !! x.1 = Some x.2 /\ expiration_time x.2 <= now s.
Proof.
  intros H. apply front_elem in H as [Hx Hd]. destruct x. apply elem_of_map_to_list in Hx. split; [done|]. by apply Z.leb_le.
Qed.
Lemma expire_step n x s u s' :
  next_expired s = Some x -> expire is_valid_uid TEMP COMMITTEE fee_required n x s = Ok (u, s') ->
  expiry_step n s s' /\ calm s s' /\ pending s' !! x.1 = None.
Proof.
  intros Hx H. unfold expire in H. peel H as sg Hg. destruct x as [id p]. cbn [fst snd] in *.
  assert (remove id s = Ok (u, s') -> expiry_step n s s' /\ calm s s' /\ pending s' !! id = None) as Hdrop.
  { intros [= _ <-]. split_and!; [by eapply expiry_dropped|apply calm_remove|apply lookup_delete_eq]. }
  destruct (is_authorized_to_execute _ _ _ _) as [sigs|] eqn:Ea; [|exact (Hdrop H)].
  step H as b s1 H1. unfold attempt in H1. destruct (push _ _ _ _) as [[[] s2]|e] eqn:Ep.
  - injection H1 as <- <-. injection H as _ <-. destruct (push_calm _ _ _ _ _ _ Ep).
    split; [|done]. eapply expiry_executed; [done|by eapply authorized_suffice|exact Ep].
  - destruct (fatal e); [done|]. injection H1 as <- <-. exact (Hdrop H).
Qed.
Lemma expire_throws n x s e :
  expire is_valid_uid TEMP COMMITTEE fee_required n x s = Throw e ->
  exists sigs, approvals_suffice (base s) x.2 /\ push n x.1 sigs s = Throw e /\ fatal e = true.
Proof.
  intros H. unfold expire, mbind, M_bind, get in H. destruct (is_authorized_to_execute _ _ _ _) as [sigs|] eqn:Ea; [|done].
  exists sigs. unfold attempt in H. destruct (push _ _ _ _) as [[[] s2]|e2] eqn:Ep; [done|].
  destruct (fatal e2) eqn:Ef; [|done]. injection H as ->. split; [by eapply authorized_suffice|done].
Qed.
(** The number of proposals that expired by [t]. *)
Definition expired_count (t : Z) (m : gmap Z proposal) : nat := due_count (fun p => expiration_time p <=? t) m.
Lemma calm_count s s' id p :
  calm s s' -> pending s !! id = Some p -> expiration_time p <= now s -> pending s' !! id = None ->
  (expired_count (now s) (pending s') < expired_count (now s) (pending s))%nat.
Proof.
  intros [_ Hc] Hp Hx Hn. unfold expired_count, due_count. rewrite <- !size_dom. apply subset_size.
  set (due := fun x : Z * proposal => (expiration_time x.2 <=? now s) = true).
  assert (forall (m : gmap Z proposal) i, i ∈ dom (filter due m) <-> exists q, m !! i = Some q /\ expiration_time q <= now s) as Hd.
  { intros m i. rewrite elem_of_dom. unfold is_Some. setoid_rewrite map_lookup_filter_Some. unfold due. cbn.
    setoid_rewrite Z.leb_le. naive_solver. }
  split.
  - intros i [q [Hq Hqx]]%Hd. apply Hd. destruct (Hc _ _ Hq Hqx) as (q0 & Hq0 & Eq). exists q0. split; [done|lia].
  - intros Hsub. assert (id ∈ dom (filter due (pending s))) as Hid by (apply Hd; eauto).
    apply Hsub, Hd in Hid as (q & Hq & _). congruence.
Qed.
Lemma drain_expired n k : forall s, (expired_count (now s) (pending s) <= k)%nat ->
  match drain k next_expired (expire is_valid_uid TEMP COMMITTEE fee_required n) s with
  | Ok (_, s') => rtc (expiry_step n) s s' /\ calm s s' /\ next_expired s' = None
  | Throw e => exists s1 x sigs, rtc (expiry_step n) s s1 /\ next_expired s1 = Some x /\
                 approvals_suffice (base s1) x.2 /\ push n x.1 sigs s1 = Throw e /\ fatal e = true
  end.
Proof.
  induction k as [|k IH]; intros s Hk; cbn [drain]; destruct (next_expired s) as [x|] eqn:Ex.
  - destruct (next_expired_due _ _ Ex) as [Hp Hx].
    pose proof (due_count_pos (fun p => expiration_time p <=? now s) _ _ _ Hp (proj2 (Z.leb_le _ _) Hx)).
    unfold expired_count in Hk. lia.
  - split_and!; [apply rtc_refl|apply calm_refl|done].
  - unfold mbind at 1, M_bind. destruct (expire _ _ _ _ n x s) as [[u s1]|e] eqn:Ee.
    + destruct (next_expired_due _ _ Ex) as [Hp Hx]. destruct (expire_step _ _ _ _ _ Ex Ee) as (St & Ca & Hn).
      pose proof (calm_count _ _ _ _ Ca Hp Hx Hn). pose proof (calm_now _ _ Ca) as Ht.
      specialize (IH s1). rewrite Ht in IH. specialize (IH ltac:(lia)).
      destruct (drain k _ _ s1) as [[u2 s2]|e].
      * destruct IH as (R & C2 & N). split_and!; [by eapply rtc_l|by eapply calm_trans|done].
      * destruct IH as (s2 & y & sigs & R & Hrest). exists s2, y, sigs. split; [by eapply rtc_l|done].
    + destruct (expire_throws _ _ _ _ Ee) as (sigs & Hrest). exists s, x, sigs. split; [apply rtc_refl|done].
  - split_and!; [apply rtc_refl|apply calm_refl|done].
Qed.
End claims.

(** C2. Expired proposals end.  Whatever the proposed operations do (they may create,
    approve, delete and execute other proposals, nested [n] deep): the loop over
    the expired proposals takes them one by one in the order of their expiration,
    executes one only if its approvals grant every authority its operations
    require, drops it otherwise, changing nothing else, and comes to an end with
    no expired proposal left and the time unchanged.  It fails only if
    the execution of an approved proposal has no defined behaviour or exhausts the
    stack; any other exception is caught and what was done undone. *)
Theorem expired_proposals_end {F : FcInt} {C : ChainConfig} {B : Type} {E : Evaluators B} {EL : EvaluatorLaws E}
    (is_valid_uid : Z -> bool) (TEMP COMMITTEE : Z) (fee_required : operation B -> database -> result (Z * Z))
    (n : nat) (s : chain_state B) :
  let steps := rtc (expiry_step is_valid_uid TEMP COMMITTEE fee_required n) in
  match clear_expired_proposals is_valid_uid TEMP COMMITTEE fee_required n s with
  | Ok (_, s') =>
      steps s s' /\ head_block_time (base s') = head_block_time (base s) /\
      forall id p, pending s' !! id = Some p -> head_block_time (base s') < expiration_time p
  | Throw e =>
      exists s1 id p sigs, steps s s1 /\ next_expired s1 = Some (id, p) /\ approvals_suffice TEMP (base s1) p /\
        push_proposal is_valid_uid TEMP COMMITTEE fee_required n id sigs s1 = Throw e /\ fatal e = true
  end.
Proof.
  cbv zeta. unfold clear_expired_proposals, mbind at 1, M_bind, get.
  pose proof (drain_expired is_valid_uid TEMP COMMITTEE fee_required n (size (pending s)) s (due_count_le _ _)) as H.
  destruct (drain _ _ _ s) as [[u s']|e].
  - destruct H as (R & Ht%calm_now & Hn). split_and!; [done|done|]. intros id p Hp.
    apply (front_none (fun x : Z * proposal_object B => expiration_time x.2) fst _ _ (id, p) Hn). by apply elem_of_map_to_list.
  - destruct H as (s1 & [id p] & sigs & H). by exists s1, id, p, sigs.
Qed.

(** ** Transfers as the other operations *)
Record paid_transfer := { pt_op : transfer_operation; pt_fee : fee_type }.
Definition transfer_required (enabled_hardfork : bool) (t : paid_transfer) (r : required) : required :=
  require_fee (from (pt_op t)) (pt_fee t)
    {| req_owner := req_owner r; req_active := insert_all (required_active (pt_op t)) (req_active r);
       req_secondary := insert_all (required_secondary (pt_op t)) (req_secondary r); req_other := req_other r |}.
#[export] Instance transfers {F : FcInt} {C : ChainConfig} : Evaluators paid_transfer := {|
  basic_payer t := from (pt_op t);
  basic_fee := pt_fee;
  basic_validate t := validate_op_fee (pt_fee t) ;; transfer.validate (fun _ => true) (pt_op t);
  basic_required := transfer_required;
  basic_apply sigs t := transfer (real_secondary_uid sigs (from (pt_op t)) 1) (pt_op t) |}.
#[export] Instance transfer_laws {F : FcInt} {C : ChainConfig} : EvaluatorLaws (@transfers F C).
Proof. split. intros sigs t. exact (clock_transfer (real_secondary_uid sigs (from (pt_op t)) 1) (pt_op t)). Qed.

(** Accounts 10 and 20 with the keys 110 and 120, and no fees. *)
Definition signer (k : Z) : account_object :=
  let a := Authority 1 [] [(k, 1)] in bank_account <| a_owner := a |> <| a_active := a |> <| a_secondary := a |>.
Definition at_time (t : Z) (d : database) : database := d <| dgp ::= fun g => g <| time := t |> |>.
Definition forum (t : Z) : database :=
  at_time t (bank <| accounts := {[ 10 := signer 110; 20 := signer 120 ]} |>).
Definition free : fee_type := {| fee_total := Asset 0 0; fee_options := None |}.
Definition no_sigs : signed_information := {| si_owner := ∅; si_active := ∅; si_secondary := ∅ |}.
Definition plain_transfer (x : Z) : operation paid_transfer :=
  basic {| pt_op := {| from := 10; to := 20; t_amount := Asset x 0; extensions := None |}; pt_fee := free |}.
Definition approve_by (payer id : Z) (active keys : flat_set Z) : proposal_update_operation :=
  {| pq_fee_paying_account := payer; pq_fee := free; pq_proposal := id; secondary_approvals_to_add := [];
     secondary_approvals_to_remove := []; active_approvals_to_add := active; active_approvals_to_remove := [];
     owner_approvals_to_add := []; owner_approvals_to_remove := []; key_approvals_to_add := keys;
     key_approvals_to_remove := [] |}.
Definition motion_on (exp : Z) (review : option Z) (l : list (operation paid_transfer)) (active : gset Z)
    : proposal_object paid_transfer :=
  {| expiration_time := exp; review_period_time := review; proposed_transaction := l;
     required_secondary_approvals := ∅; available_secondary_approvals := ∅; required_active_approvals := {[ 10 ]};
     available_active_approvals := active; required_owner_approvals := ∅; available_owner_approvals := ∅;
     available_key_approvals := ∅ |}.
#[local] Notation ex_ops := (@transfers fc_checked no_proxy).
#[local] Notation ex_laws := (@transfer_laws fc_checked no_proxy).
Definition run_clear (s : chain_state paid_transfer) : result (unit * chain_state paid_transfer) :=
  @clear_expired_proposals fc_checked no_proxy paid_transfer ex_ops (fun _ => true) 5 1 (fun _ _ => Ok (0, 0)) 1 s.
Definition run_op (n : nat) (o : operation paid_transfer) (s : chain_state paid_transfer)
    : result (unit * chain_state paid_transfer) :=
  @apply_operation fc_checked no_proxy paid_transfer ex_ops (fun _ => true) 5 1 (fun _ _ => Ok (0, 0)) n
    proposed_state no_sigs o s.

(** A transfer that 10 approved and one that nobody did, both expired. *)
Definition two_motions : chain_state paid_transfer :=
  {| base := forum 2100000100; next_proposal_id := 9;
     pending := {[ 7 := motion_on 2100000090 None [plain_transfer 100] {[ 10 ]};
                   8 := motion_on 2100000080 None [plain_transfer 500] ∅ ]} |}.
Lemma expired_proposals_end_witness :
  exists s', run_clear two_motions = Ok (tt, s') /\ balance_of (base s') 10 0 = 900 /\
    forall id p, pending s' !! id = Some p -> head_block_time (base s') < expiration_time p.
Proof.
  pose proof (@expired_proposals_end fc_checked no_proxy paid_transfer ex_ops ex_laws (fun _ => true) 5 1
    (fun _ _ => Ok (0, 0)) 1 two_motions) as H. cbv zeta in H. fold (run_clear two_motions) in H.
  destruct (run_clear two_motions) as [[[] s']|e] eqn:Er; [|exfalso; vm_compute in Er; discriminate Er].
  exists s'. split; [reflexivity|]. split; [|apply H].
  change s' with (match Ok (tt, s') with Ok (_, s) => s | Throw _ => s' end). rewrite <- Er. vm_compute. reflexivity.
Defined.

(** ** What approvals do not prevent *)
(** A key that no required authority leads to, once among the approvals, keeps the
    proposal from being executed: the check of signatures refuses irrelevant ones. *)
Theorem irrelevant_key_blocks {F : FcInt} {C : ChainConfig} {B : Type} {E : Evaluators B}
    (TEMP COMMITTEE : Z) (d : database) (p : proposal_object B) (k : Z) :
  let go uid := a_owner <$> accounts d !! uid in
  let ga uid := a_active <$> accounts d !! uid in
  let gs uid := a_secondary <$> accounts d !! uid in
  let r := get_required_uid_authorities op_required (hardfork_04 d) (proposed_transaction p) in
  (forall x au, get_by_uid_auth go ga gs x = Some au -> wf_authority au) ->
  (forall au, au ∈ req_other r -> wf_authority au) ->
  k ∈ available_key_approvals p ->
  (forall au b, required_authority go ga gs r au -> reach go ga gs au b -> k ∉ get_keys b) ->
  is_authorized_to_execute TEMP COMMITTEE d p = None.
Proof.
  cbv zeta. intros Hwf Hother Hk Hno. destruct (is_authorized_to_execute TEMP COMMITTEE d p) as [sigs|] eqn:Ea; [|done].
  destruct (authorized_suffice TEMP COMMITTEE d p sigs Ea Hwf Hother) as (_ & _ & Hkeys).
  destruct (Hkeys k Hk) as (au & b & Hr & Hb & Hin). by destruct (Hno au b Hr Hb).
Qed.
(** So a stranger can stop a proposal that is approved and under review: account 20
    adds its own key 120 to a proposal it has nothing to do with, and the proposal is
    dropped when it expires.  Left alone it is executed. *)
Definition under_review : chain_state paid_transfer :=
  {| base := forum 2100000100; next_proposal_id := 8;
     pending := {[ 7 := motion_on 2100000200 (Some 2100000050) [plain_transfer 100] {[ 10 ]} ]} |}.
Definition balance_after_expiry (r : result (unit * chain_state paid_transfer)) : result Z :=
  '(_, s) ← r;
  '(_, s') ← run_clear (s <| base ::= at_time 2100000200 |>);
  Ok (balance_of (base s') 10 0).
Example stranger_stops_proposal :
  balance_after_expiry (Ok (tt, under_review)) = Ok 900 /\
  balance_after_expiry (run_op 1 (proposal_update (approve_by 20 7 [] [120])) under_review) = Ok 1000.
Proof. split; vm_compute; reflexivity. Qed.

(** A proposal that approves itself executes itself without end: however deep the
    calls may nest, they nest deeper. *)
Definition self_approval : operation paid_transfer := proposal_update (approve_by 10 7 [10] []).
Definition self_approving : chain_state paid_transfer :=
  {| base := forum 2100000100; next_proposal_id := 8;
     pending := {[ 7 := motion_on 2100000200 None [self_approval] {[ 10 ]} ]} |}.
Definition self_motion : proposal_object paid_transfer := motion_on 2100000200 None [self_approval] {[ 10 ]}.
Lemma self_approval_step (push : Z -> signed_information -> M (chain_state paid_transfer) unit) e :
  (forall sigs, push 7 sigs self_approving = Throw e) -> fatal e = true ->
  update (E := ex_ops) 5 1 push (approve_by 10 7 [10] []) self_approving = Throw e.
Proof.
  intros Hp Hf. unfold update, mbind, M_bind, get, lift, upd.
  replace (update_evaluate (approve_by 10 7 [10] []) self_approving) with (Ok self_motion) by (vm_compute; reflexivity).
  cbv beta iota. replace (updated (approve_by 10 7 [10] []) self_motion) with self_motion by (vm_compute; reflexivity).
  replace (self_approving <| pending ::= <[pq_proposal (approve_by 10 7 [10] []) := self_motion]> |>)
    with self_approving by (vm_compute; reflexivity).
  cbn [some review_period_time self_motion motion_on].
  destruct (is_authorized_to_execute (E := ex_ops) 5 1 (base self_approving) self_motion) as [sg|] eqn:Eg;
    [|exfalso; vm_compute in Eg; discriminate Eg].
  unfold attempt. cbn [pq_proposal approve_by]. by rewrite Hp, Hf.
Qed.
Lemma self_approval_fee (op : M (chain_state paid_transfer) unit) e :
  op self_approving = Throw e ->
  with_fee (F := fc_checked) (C := no_proxy) (fun _ _ => Ok (0, 0)) proposed_state self_approval 10 free op self_approving = Throw e.
Proof.
  intros Ho. unfold with_fee, mbind, M_bind, get, lift.
  destruct (prepare_fee 10 free (base self_approving)) as [p|e'] eqn:Ep; [|exfalso; vm_compute in Ep; discriminate Ep].
  vm_compute in Ep. injection Ep as <-.
  match goal with |- context [check_fee ?a ?b ?c] => replace (check_fee a b c) with (Ok tt) by (vm_compute; reflexivity) end.
  by rewrite Ho.
Qed.
Theorem self_approval_never_ends n sigs :
  apply_operation (F := fc_checked) (C := no_proxy) (E := ex_ops) (fun _ => true) 5 1 (fun _ _ => Ok (0, 0)) n
    proposed_state sigs self_approval self_approving = Throw stack_overflow.
Proof.
  revert sigs. induction n as [|n IH]; intros sigs; cbn [apply_operation self_approval payer_of fee_of];
    apply self_approval_fee, self_approval_step; [by intros|done| |done]. intros sg.
  unfold push_with, mbind at 1, M_bind at 1, get at 1. unfold mbind at 1, M_bind at 1, lift at 1.
  replace (deref (pending self_approving !! 7) undefined_behaviour) with (Ok self_motion) by (vm_compute; reflexivity).
  cbn [proposed_transaction self_motion motion_on run_proposed]. unfold mbind at 1 2, M_bind at 1 2. by rewrite IH.
Qed.
(** A proposal that deletes itself: its operations are read from an object that is
    gone. *)
Definition self_deleting : chain_state paid_transfer :=
  {| base := forum 2100000100; next_proposal_id := 8;
     pending := {[ 7 := motion_on 2100000090 None
                          [proposal_delete {| pd_fee_paying_account := 10; pd_fee := free; pd_proposal := 7 |}] {[ 10 ]} ]} |}.
Example self_deletion_undefined : run_clear self_deleting = Throw undefined_behaviour.
Proof. vm_compute. reflexivity. Qed.
(** While a proposal is reviewed no account may add its approval, but keys may. *)
Example keys_approve_under_review :
  is_ok (run_op 1 (proposal_update (approve_by 20 7 [20] [])) under_review) = false /\
  is_ok (run_op 1 (proposal_update (approve_by 20 7 [] [110])) under_review) = true.
Proof. split; vm_compute; reflexivity. Qed.
(** An owner approval is accepted although the proposal requires active authority
    only. *)
Example needless_owner_approval :
  is_ok (run_op 1 (proposal_update
    {| pq_fee_paying_account := 20; pq_fee := free; pq_proposal := 7; secondary_approvals_to_add := [];
       secondary_approvals_to_remove := []; active_approvals_to_add := []; active_approvals_to_remove := [];
       owner_approvals_to_add := [10]; owner_approvals_to_remove := []; key_approvals_to_add := [];
       key_approvals_to_remove := [] |})
    {| base := forum 2100000100; next_proposal_id := 8;
       pending := {[ 7 := motion_on 2100000200 None [plain_transfer 100] ∅ ]} |}) = true.
Proof. vm_compute. reflexivity. Qed.

(** ** The index by required approvals *)
Section index.
Context {B : Type}.
Implicit Types (m : gmap Z (gset Z)) (l : list Z) (p : proposal_object B).
Definition without (id : Z) (o : option (gset Z)) : option (gset Z) :=
  ids ← o; if bool_decide (ids ∖ {[ id ]} = ∅) then None else Some (ids ∖ {[ id ]}).
Lemma added_lookup id l : forall m a,
  fold_left (fun m a => index_add id a m) l m !! a
  = if bool_decide (a ∈ l) then Some ({[ id ]} ∪ default ∅ (m !! a)) else m !! a.
Proof.
  induction l as [|b l IH]; intros m a; cbn [fold_left]; [by rewrite bool_decide_false by apply not_elem_of_nil|].
  rewrite IH. unfold index_add. destruct (decide (a = b)) as [->|Hne].
  - rewrite lookup_insert_eq, (bool_decide_true (b ∈ b :: l)) by left. cbn. case_bool_decide; f_equal; set_solver.
  - rewrite lookup_insert_ne by done. assert (a ∈ b :: l <-> a ∈ l) as Ha by set_solver. by rewrite (bool_decide_ext _ _ Ha).
Qed.
Lemma index_remove_lookup id b m a : index_remove id b m !! a = if decide (a = b) then without id (m !! a) else m !! a.
Proof.
  unfold index_remove, without. destruct (m !! b) as [ids|] eqn:Eb; (destruct (decide (a = b)) as [->|Hne]; [rewrite Eb; cbn|]); try done.
  - case_bool_decide; [apply lookup_delete_eq|apply lookup_insert_eq].
  - case_bool_decide; [by apply lookup_delete_ne|by apply lookup_insert_ne].
Qed.
Lemma without_idem id o : without id (without id o) = without id o.
Proof.
  destruct o as [ids|]; [|done]. unfold without at 2 3. cbn. case_bool_decide as E; [done|]. cbn.
  rewrite difference_twice_L, bool_decide_false by done. done.
Qed.
Lemma removed_lookup id l : forall m a,
  fold_left (fun m a => index_remove id a m) l m !! a = if bool_decide (a ∈ l) then without id (m !! a) else m !! a.
Proof.
  induction l as [|b l IH]; intros m a; cbn [fold_left]; [by rewrite bool_decide_false by apply not_elem_of_nil|].
  rewrite IH, index_remove_lookup. destruct (decide (a = b)) as [->|Hne].
  - rewrite (bool_decide_true (b ∈ b :: l)) by left. case_bool_decide; [apply without_idem|done].
  - assert (a ∈ b :: l <-> a ∈ l) as Ha by set_solver. by rewrite (bool_decide_ext _ _ Ha).
Qed.
(** Removing a proposal takes back what its creation put into the index, although
    approvals were added meanwhile without telling the index. *)
Theorem approval_index_round_trip id p p' m :
  (forall a ids, m !! a = Some ids -> id ∉ ids /\ ids <> ∅) -> approvers p ⊆ approvers p' ->
  object_removed id p' (object_inserted id p m) = m.
Proof.
  intros Hm Hsub. apply map_eq. intros a. unfold object_removed, object_inserted. rewrite removed_lookup, added_lookup.
  specialize (Hm a). case_bool_decide as H'; case_bool_decide as H; try done; [| |by destruct H'; apply Hsub].
  - unfold without. cbn. destruct (m !! a) as [ids|]; cbn.
    + destruct (Hm ids eq_refl) as [Hi Hne]. replace (({[ id ]} ∪ ids) ∖ {[ id ]}) with ids by set_solver.
      by rewrite bool_decide_false.
    + rewrite bool_decide_true by set_solver. done.
  - destruct (m !! a) as [ids|]; [|done]. destruct (Hm ids eq_refl) as [Hi Hne]. unfold without. cbn.
    replace (ids ∖ {[ id ]}) with ids by set_solver. by rewrite bool_decide_false.
Qed.
End index.
