(* ===== verification/CustomVote.v ===== *)
(** * Custom votes (custom_vote_evaluator.cpp, protocol/custom_vote.cpp,
      non_consensus_plugin.cpp)

    Anybody may ask a question with up to 255 options.  An account that has enough
    coins selects some of them; its votes are the coins it has.  The evaluators only
    check; the votes are counted by a plugin that is told of every vote cast and
    of every change of a balance. *)
From S2P Require Import Prelude FlatMap FcInt Asset Pledge ChainState AccountStats Voter MapSum.
From S2P Require Import Balance Transfer Frame Ledger Market Fee BlockUpdate Advertising BlockProof.
Local Open Scope Z_scope.
Import asset pledge chain acc voter balance market fee updates.

Module polls.

Record custom_vote_create_operation := {
  cvc_custom_vote_creator : Z; cvc_vote_vid : Z; cvc_title : string; cvc_description : string;
  cvc_vote_expired_time : Z; cvc_vote_asset_id : Z; cvc_required_asset_amount : Z;
  cvc_minimum_selected_items : Z; cvc_maximum_selected_items : Z; cvc_options : list string }.
(** [vote_result] is a [std::set<uint8_t>], in order. *)
Record custom_vote_cast_operation := {
  cvk_voter : Z; cvk_custom_vote_creator : Z; cvk_custom_vote_vid : Z; cvk_vote_result : flat_set Z }.
Record cast_custom_vote_object := {
  cast_vote_asset_id : Z; cast_vote_result : flat_set Z; cast_vote_expired_time : Z }.
(** The database with the votes cast, by (voter, creator, vote_vid). *)
Record vote_state := { vbase : database; casts : gmap (Z * Z * Z) cast_custom_vote_object }.
#[global] Instance vote_state_fields : Fields vote_state := of_ctor Build_vote_state <*> vbase <*> casts.

Section ops.
Context {F : FcInt} {C : ChainConfig}.
Variable is_valid_uid : Z -> bool.
#[local] Notation M := (M vote_state).

(** ** Validation and fees *)
(** The fee itself is validated with the payment of fees; extensions, which must be
    absent, have no field. *)
Definition validate_vote_create (op : custom_vote_create_operation) : result unit :=
  let n := Z.of_nat (length (cvc_options op)) in
  guard_ok (is_valid_uid (cvc_custom_vote_creator op)) assert_exception ;;
  guard_ok ((1 <? n) && (n <? 256)) assert_exception ;;
  guard_ok (cvc_minimum_selected_items op <=? cvc_maximum_selected_items op) assert_exception ;;
  guard_ok (0 <? cvc_minimum_selected_items op) assert_exception ;;
  guard_ok (cvc_maximum_selected_items op <? n) assert_exception ;;
  guard_ok (0 <? cvc_required_asset_amount op) assert_exception.
Definition vote_create_fee (fee price_per_kbyte description title options : Z) : result Z :=
  advertising.add_data_fee price_per_kbyte (Some (description + title + options)) (Ok (i64 fee)).
Definition validate_vote_cast (op : custom_vote_cast_operation) : result unit :=
  guard_ok (negb (length (cvk_vote_result op) =? 0)%nat) assert_exception ;;
  guard_ok (is_valid_uid (cvk_voter op)) assert_exception.

(** ** [custom_vote_create] *)
Definition find_custom_vote_by_vid (d : database) (creator vid : Z) : option custom_vote_object :=
  custom_votes (contents d) !! (creator, vid).
Definition set_vote (k : Z * Z) (v : custom_vote_object) (d : database) : database :=
  d <| contents ::= fun c => c <| custom_votes ::= <[k := v]> |> |>.
(** The index of votes is unique by creator and number. *)
Definition custom_vote_create (op : custom_vote_create_operation) : Prelude.M database unit :=
  d ← get;
  let creator := cvc_custom_vote_creator op in
  fc_assert (HARDFORK_0_4_TIME <=? head_block_time d) ;;
  lift (get_account_by_uid d creator) ;;
  s ← lift (get_account_statistics_by_uid d creator);
  fc_assert (u64 (last_custom_vote_sequence s + 1) =? cvc_vote_vid op) ;;
  lift (get_asset_by_aid d (cvc_vote_asset_id op)) ;;
  fc_assert ((head_block_time d <? cvc_vote_expired_time op) &&
             (cvc_vote_expired_time op <?
                time_add (head_block_time d) (custom_vote_effective_time (extension_parameters (params d))))) ;;
  fc_assert (negb (some (find_custom_vote_by_vid d creator (cvc_vote_vid op)))) ;;
  upd (set_vote (creator, cvc_vote_vid op)
    {| cv_title := cvc_title op; cv_description := cvc_description op; vote_expired_time := cvc_vote_expired_time op;
       vote_asset_id := cvc_vote_asset_id op; required_asset_amount := cvc_required_asset_amount op;
       minimum_selected_items := cvc_minimum_selected_items op; maximum_selected_items := cvc_maximum_selected_items op;
       options := cvc_options op; vote_result := replicate (length (cvc_options op)) 0 |}) ;;
  modify_stats creator (fun s => Ok (s <| last_custom_vote_sequence ::= fun n => u64 (n + 1) |>)).

(** ** [custom_vote_cast] *)
Definition cast_evaluate (op : custom_vote_cast_operation) (d : database) : result custom_vote_object :=
  guard_ok (HARDFORK_0_4_TIME <=? head_block_time d) assert_exception ;;
  get_account_by_uid d (cvk_voter op) ;;
  v ← deref (find_custom_vote_by_vid d (cvk_custom_vote_creator op) (cvk_custom_vote_vid op)) assert_exception;
  guard_ok (head_block_time d <=? vote_expired_time v) assert_exception ;;
  let n := Z.of_nat (length (cvk_vote_result op)) in
  guard_ok ((minimum_selected_items v <=? n) && (n <=? maximum_selected_items v)) assert_exception ;;
  s ← get_account_statistics_by_uid d (cvk_voter op);
  guard_ok (required_asset_amount v <=? i64 (get_votes_from_core_balance s)) assert_exception ;;
  i ← deref (last (cvk_vote_result op)) undefined_behaviour;
  guard_ok (i <? Z.of_nat (length (options v))) assert_exception ;;
  Ok v.

(** ** Counting *)
(** [for( v : selected ) counts.at(v) += x]. *)
Fixpoint add_to_all (x : Z) (selected : list Z) (counts : list Z) : result (list Z) :=
  match selected with
  | [] => Ok counts
  | i :: l =>
      y ← deref (counts !! Z.to_nat i) out_of_range;
      add_to_all x l (<[Z.to_nat i := u64 (y + x)]> counts)
  end.
Definition modify_vote (k : Z * Z) (f : list Z -> result (list Z)) (e : exn) : M unit :=
  s ← get;
  v ← lift (deref (custom_votes (contents (vbase s)) !! k) e);
  r ← lift (f (vote_result v));
  upd (fun s => s <| vbase ::= set_vote k (v <| vote_result := r |>) |>).
(** [non_consensus_plugin_impl::create_custom_vote_index]. *)
Definition create_custom_vote_index (op : custom_vote_cast_operation) : M unit :=
  s ← get;
  let d := vbase s in
  let k := (cvk_custom_vote_creator op, cvk_custom_vote_vid op) in
  st ← lift (get_account_statistics_by_uid d (cvk_voter op));
  let votes := get_votes_from_core_balance st in
  let ck := (cvk_voter op, cvk_custom_vote_creator op, cvk_custom_vote_vid op) in
  match casts s !! ck with
  | None =>
      v ← lift (deref (custom_votes (contents d) !! k) undefined_behaviour);
      upd (fun s => s <| casts ::= <[ck := {| cast_vote_asset_id := vote_asset_id v; cast_vote_result := cvk_vote_result op;
                                              cast_vote_expired_time := vote_expired_time v |}]> |>) ;;
      modify_vote k (add_to_all votes (cvk_vote_result op)) undefined_behaviour
  | Some c =>
      modify_vote k (fun r => r ← add_to_all (- votes) (cast_vote_result c) r; add_to_all votes (cvk_vote_result op) r)
        undefined_behaviour ;;
      upd (fun s => s <| casts ::= <[ck := {| cast_vote_asset_id := cast_vote_asset_id c;
                                              cast_vote_result := cvk_vote_result op;
                                              cast_vote_expired_time := cast_vote_expired_time c |}]> |>)
  end.
(** The casts of an account on an asset that are still counted, by expiration. *)
Definition counted_casts (s : vote_state) (account aid : Z) : list (Z * Z * Z * cast_custom_vote_object) :=
  ordered (fun x => [cast_vote_expired_time x.2])
    (filter (fun x => x.1.1.1 = account /\ cast_vote_asset_id x.2 = aid /\
                      head_block_time (vbase s) <= cast_vote_expired_time x.2) (map_to_list (casts s))).
(** [non_consensus_plugin_impl::update_custom_vote]. *)
Definition update_custom_vote (account : Z) (delta : asset) : M unit :=
  s ← get;
  mfor (fun x => modify_vote (x.1.1.2, x.1.2) (add_to_all (amount delta) (cast_vote_result x.2)) assert_exception)
    (counted_casts s account (asset_id delta)).

(** ** The operations with the plugin *)
Definition on_vbase {A} (m : Prelude.M database A) : M A := fun s =>
  match m (vbase s) with Ok (a, d) => Ok (a, s <| vbase := d |>) | Throw e => Throw e end.
Definition custom_vote_cast (op : custom_vote_cast_operation) : M unit :=
  s ← get;
  lift (cast_evaluate op (vbase s)) ;;
  create_custom_vote_index op.
(** [adjust_balance] with the signal it ends with. *)
Definition adjust_and_tell (account : Z) (delta : asset) : M unit :=
  on_vbase (adjust_balance account delta) ;;
  when (negb (amount delta =? 0)) (update_custom_vote account delta).
(** Old votes are removed with what was cast (db_update.cpp,
    [clear_unnecessary_objects]); [remaining_time] is [_custom_vote_remaining_time]. *)
Definition clear_custom_votes (remaining_time : Z) : M unit :=
  s ← get;
  let d := vbase s in
  when ((head_block_num d mod 10 =? 3) && (remaining_time <=? head_block_time d))
    (let bound := u32 (head_block_time d - remaining_time) in
     upd (fun s => s
       <| casts ::= filter (fun x => match custom_votes (contents d) !! (x.1.1.2, x.1.2) with
                                     | Some v => bound <=? vote_expired_time v
                                     | None => true
                                     end = true) |>
       <| vbase ::= fun d => d <| contents ::= fun c => c <| custom_votes ::=
            filter (fun x => bound <= vote_expired_time x.2) |> |> |>)).
End ops.
End polls.
Import polls.

(** * The votes are counted *)
Section count.
Context {F : FcInt} {FL : FcIntLaws F} {C : ChainConfig}.

(** The votes of an account, and what the options of a vote should have. *)
Definition vote_weight (d : database) (uid : Z) : Z :=
  match stats d !! uid with Some s => core_balance s + total_core_in_orders s | None => 0 end.
Definition selects (k : Z * Z) (i : Z) (key : Z * Z * Z) (c : cast_custom_vote_object) : bool :=
  bool_decide ((key.1.2, key.2) = k) && bool_decide (i ∈ cast_vote_result c).
Definition chosen (d : database) (k : Z * Z) (i : Z) (key : Z * Z * Z) (c : cast_custom_vote_object) : Z :=
  if selects k i key c then vote_weight d key.1.1 else 0.
Definition poll_tally (s : vote_state) (k : Z * Z) (i : Z) : Z := msum (chosen (vbase s) k i) (casts s).
Definition selection_ok (l : list Z) : Prop := NoDup l /\ Forall (fun i => 0 <= i) l.
Definition in64 (x : Z) : Prop := 0 <= x < 2 ^ 64.
#[local] Notation vote_time s := (head_block_time (vbase s)).
#[local] Notation votes_in s := (custom_votes (contents (vbase s))).

(** Until it ends, a vote on the core asset has for every option the votes of
    those who selected it. *)
Record counts_ok (s : vote_state) : Prop := {
  co_cast key c : casts s !! key = Some c ->
    exists v, votes_in s !! (key.1.2, key.2) = Some v /\ cast_vote_asset_id c = vote_asset_id v /\
      cast_vote_expired_time c = vote_expired_time v;
  co_selection key c : casts s !! key = Some c -> selection_ok (cast_vote_result c);
  co_voter key c : casts s !! key = Some c -> is_Some (stats (vbase s) !! key.1.1);
  co_tally k v i x : votes_in s !! k = Some v -> vote_asset_id v = CORE_ASSET_AID ->
    vote_time s <= vote_expired_time v -> vote_result v !! i = Some x ->
    in64 x /\ eq64 x (poll_tally s k (Z.of_nat i));
}.

(** ** Adding to counters *)
Lemma add_to_all_ok x l : forall c c' i y',
  selection_ok l -> add_to_all x l c = Ok c' -> c' !! i = Some y' ->
  exists y, c !! i = Some y /\ eq64 y' (y + if bool_decide (Z.of_nat i ∈ l) then x else 0) /\ (in64 y -> in64 y').
Proof.
  induction l as [|j l IH]; intros c c' i y' [Hn Hp] H Hi.
  { injection H as <-. exists y'. rewrite bool_decide_false by apply not_elem_of_nil. by rewrite Z.add_0_r. }
  cbn in H. apply bind_ok in H as (y & Hy & H). apply deref_ok in Hy. apply NoDup_cons in Hn as [Hj Hn].
  apply Forall_cons in Hp as [Hj0 Hp]. destruct (IH _ _ _ _ (conj Hn Hp) H Hi) as (z & Hz & Hq & Hr).
  apply list_lookup_insert_Some in Hz as [(<- & <- & Hlt)|[Hne Hz]].
  - exists y. rewrite Z2Nat.id in * by done. split; [done|]. rewrite bool_decide_true by left.
    rewrite bool_decide_false in Hq by done. rewrite Z.add_0_r in Hq. split; [by rewrite Hq, u64_eq64|].
    intros _. apply Hr. unfold in64, u64, wrap. apply Z.mod_pos_bound. lia.
  - exists z. split; [done|]. split; [|done]. rewrite Hq.
    assert (Z.of_nat i ∈ j :: l <-> Z.of_nat i ∈ l) as E by (rewrite elem_of_cons; split; [intros [E|]; [lia|done]|auto]).
    by rewrite (bool_decide_ext _ _ E).
Qed.
(** Only counters change, and by [g]. *)
Record recount (g : Z * Z -> Z -> Z) (s s' : vote_state) : Prop := {
  re_casts : casts s' = casts s;
  re_stats : stats (vbase s') = stats (vbase s);
  re_dgp : dgp (vbase s') = dgp (vbase s);
  re_found k v : votes_in s !! k = Some v -> exists v', votes_in s' !! k = Some v' /\ vote_asset_id v' = vote_asset_id v /\
    vote_expired_time v' = vote_expired_time v;
  re_counts k v' : votes_in s' !! k = Some v' -> exists v, votes_in s !! k = Some v /\
    vote_asset_id v' = vote_asset_id v /\ vote_expired_time v' = vote_expired_time v /\
    forall i y', vote_result v' !! i = Some y' -> exists y, vote_result v !! i = Some y /\
      eq64 y' (y + g k (Z.of_nat i)) /\ (in64 y -> in64 y');
}.
Lemma recount_refl s : recount (fun _ _ => 0) s s.
Proof. split; [done..|eauto|]. intros k v Hv. exists v. split_and!; try done. intros i y Hy. exists y. by rewrite Z.add_0_r. Qed.
Lemma recount_trans g h s1 s2 s3 : recount g s1 s2 -> recount h s2 s3 -> recount (fun k i => g k i + h k i) s1 s3.
Proof.
  intros [A1 A2 A3 A4 A5] [B1 B2 B3 B4 B5]. split; [congruence..| |].
  - intros k v Hv. destruct (A4 _ _ Hv) as (v2 & H2 & E2 & T2). destruct (B4 _ _ H2) as (v3 & H3 & E3 & T3).
    exists v3. split_and!; [done|congruence..].
  - intros k v3 H3. destruct (B5 _ _ H3) as (v2 & H2 & E2 & T2 & R2). destruct (A5 _ _ H2) as (v1 & H1 & E1 & T1 & R1).
    exists v1. split_and!; [done|congruence..|]. intros i y3 Hy3. destruct (R2 _ _ Hy3) as (y2 & Hy2 & Q2 & I2).
    destruct (R1 _ _ Hy2) as (y1 & Hy1 & Q1 & I1). exists y1. split_and!; [done| |auto].
    rewrite Q2, Q1. by rewrite Z.add_assoc.
Qed.
Lemma recount_ext g h s s' : (forall k i, g k i = h k i) -> recount g s s' -> recount h s s'.
Proof.
  intros E [A1 A2 A3 A4 A5]. split; [done..|]. intros k v' Hv. destruct (A5 _ _ Hv) as (v & H1 & E1 & T1 & R1).
  exists v. split_and!; try done. intros i y Hy. rewrite <- E. by apply R1.
Qed.
(** What the selection [l] adds to the counters of the vote [k0]. *)
Definition share (k0 : Z * Z) (x : Z) (l : list Z) (k : Z * Z) (i : Z) : Z :=
  if bool_decide (k0 = k) && bool_decide (i ∈ l) then x else 0.
Lemma modify_vote_recount k f g e s u s' :
  (forall c c' i y', f c = Ok c' -> c' !! i = Some y' ->
     exists y, c !! i = Some y /\ eq64 y' (y + g (Z.of_nat i)) /\ (in64 y -> in64 y')) ->
  modify_vote k f e s = Ok (u, s') -> recount (fun k' i => if bool_decide (k = k') then g i else 0) s s'.
Proof.
  intros Hf H. unfold modify_vote in H. peel H as sg Hg. peel H as v Hv. apply deref_ok in Hv. peel H as r Hr.
  injection H as _ <-. split; [done..| |]; cbn.
  - intros k' v1 H1. destruct (decide (k = k')) as [<-|Hne].
    + rewrite lookup_insert_eq. eexists. split; [done|]. by simplify_eq.
    + rewrite lookup_insert_ne by done. eauto.
  - intros k' v' Hv'. apply lookup_insert_Some in Hv' as [[<- <-]|[Hne Hv']].
    + exists v. split_and!; [done..|]. cbn. rewrite bool_decide_true by done. intros i y' Hy. by eapply Hf.
    + exists v'. split_and!; [done..|]. intros i y Hy. exists y. rewrite bool_decide_false, Z.add_0_r by done. done.
Qed.
Lemma modify_vote_share k x l e s u s' :
  selection_ok l -> modify_vote k (add_to_all x l) e s = Ok (u, s') -> recount (share k x l) s s'.
Proof.
  intros Hl H. eapply recount_ext; [|eapply (modify_vote_recount k _ (fun i => if bool_decide (i ∈ l) then x else 0)), H].
  - intros k' i. unfold share. by destruct (bool_decide (k = k')).
  - intros c c' i y' Hc Hi. by eapply add_to_all_ok.
Qed.
Lemma mfor_recount x (l : list (Z * Z * Z * cast_custom_vote_object)) : forall s u s',
  Forall (fun y => selection_ok (cast_vote_result y.2)) l ->
  mfor (fun y => modify_vote (y.1.1.2, y.1.2) (add_to_all x (cast_vote_result y.2)) assert_exception) l s = Ok (u, s') ->
  recount (fun k i => zsum ((fun y => share (y.1.1.2, y.1.2) x (cast_vote_result y.2) k i) <$> l)) s s'.
Proof.
  induction l as [|y l IH]; intros s u s' Hl H; [injection H as _ <-; apply recount_refl|].
  apply Forall_cons in Hl as [Hy Hl]. cbn in H. step H as u1 s1 H1. apply modify_vote_share in H1; [|done].
  apply IH in H; [|done]. eapply recount_ext, recount_trans; [|exact H1|exact H]. done.
Qed.

(** ** Sums over the votes cast *)
Lemma msum_list {K A} `{Countable K} (f : K -> A -> Z) (m : gmap K A) :
  msum f m = zsum ((fun x => f x.1 x.2) <$> map_to_list m).
Proof. unfold msum. rewrite map_fold_foldr. by induction (map_to_list m) as [|[k x] l IH]; cbn; [|rewrite IH]. Qed.
Lemma zsum_filter {A} (P : A -> Prop) `{!forall x, Decision (P x)} (f : A -> Z) (l : list A) :
  zsum (f <$> filter P l) = zsum ((fun x => if decide (P x) then f x else 0) <$> l).
Proof. induction l as [|x l IH]; [done|]. rewrite filter_cons. cbn [fmap list_fmap zsum]. destruct (decide (P x)); cbn; by rewrite IH. Qed.
Lemma msum_plus {K A} `{Countable K} (f g : K -> A -> Z) (m : gmap K A) :
  msum (fun k x => f k x + g k x) m = msum f m + msum g m.
Proof. induction m as [|k x m Hk IH] using map_ind; [done|]. rewrite !msum_insert, IH by done. lia. Qed.
Lemma counted_sum s account aid (f : Z * Z * Z * cast_custom_vote_object -> Z) :
  zsum (f <$> counted_casts s account aid)
  = msum (fun key c => if decide (key.1.1 = account /\ cast_vote_asset_id c = aid /\
                                  vote_time s <= cast_vote_expired_time c) then f (key, c) else 0) (casts s).
Proof.
  unfold counted_casts, ordered. rewrite (zsum_perm _ _ (fmap_Permutation f _ _ (merge_sort_Permutation _ _))).
  rewrite zsum_filter, msum_list. f_equal. apply list_fmap_ext. by intros i [key c] _.
Qed.

(** ** A balance changes *)
#[local] Instance contents_quiet : QuietFrame (fun d => (contents d, dgp d)).
Proof. by repeat split. Qed.
Lemma weight_ledger d uid :
  vote_weight d uid = match l_money (ledger_of d) !! uid with Some m => m_core m + m_in_orders m | None => 0 end.
Proof. unfold vote_weight, ledger_of. cbn. rewrite lookup_fmap. by destruct (stats d !! uid). Qed.
Lemma known_ledger d uid : is_Some (stats d !! uid) <-> is_Some (l_money (ledger_of d) !! uid).
Proof. unfold ledger_of. cbn. rewrite lookup_fmap, fmap_is_Some. done. Qed.
Lemma adjust_weights account delta d u d' :
  adjust_balance account delta d = Ok (u, d') ->
  contents d' = contents d /\ dgp d' = dgp d /\
  forall uid, is_Some (stats d !! uid) ->
    is_Some (stats d' !! uid) /\
    vote_weight d' uid = vote_weight d uid +
      if bool_decide (uid = account) && (asset_id delta =? CORE_ASSET_AID) then amount delta else 0.
Proof.
  intros H. pose proof (quiet_adjust_balance (fun d => (contents d, dgp d)) _ _ _ _ _ H) as [= E1 E2].
  split_and!; [done..|]. intros uid Hu. apply known_ledger in Hu. rewrite known_ledger, !weight_ledger.
  apply adjust_balance_effect in H as [_ [[-> ->]|(_ & -> & _)]]; [split; [done|]; destruct (_ && _); lia|].
  cbn. destruct (_ =? _); [|rewrite andb_false_r; split; [done|lia]]. rewrite andb_true_r.
  destruct (decide (uid = account)) as [->|Hne].
  - rewrite lookup_alter_eq, bool_decide_true by done. destruct Hu as [m Hm]. cbn in Hm. rewrite Hm. cbn. split; [eauto|lia].
  - rewrite lookup_alter_ne, bool_decide_false by done. split; [done|lia].
Qed.
Lemma counted_selections s account aid :
  (forall key c, casts s !! key = Some c -> selection_ok (cast_vote_result c)) ->
  Forall (fun y => selection_ok (cast_vote_result y.2)) (counted_casts s account aid).
Proof.
  intros Hs. apply Forall_forall. intros [key c] Hy. unfold counted_casts, ordered in Hy. rewrite merge_sort_Permutation in Hy.
  apply list_elem_of_filter in Hy as [_ Hy]. apply elem_of_map_to_list in Hy. by eapply Hs.
Qed.
(** What the plugin adds makes up for the change of the balance. *)
Lemma adjust_tally account delta (s : vote_state) u d k v i :
  counts_ok s -> adjust_balance account delta (vbase s) = Ok (u, d) ->
  votes_in s !! k = Some v -> vote_asset_id v = CORE_ASSET_AID -> vote_time s <= vote_expired_time v ->
  poll_tally (s <| vbase := d |>) k i
  = poll_tally s k i +
    zsum ((fun y => share (y.1.1.2, y.1.2) (amount delta) (cast_vote_result y.2) k i) <$>
            counted_casts (s <| vbase := d |>) account (asset_id delta)).
Proof.
  intros Hs H Hv Ha Ht. destruct (adjust_weights _ _ _ _ _ H) as (_ & Hd & Hw). rewrite counted_sum.
  unfold poll_tally. cbn. rewrite <- msum_plus. apply msum_ext. intros key c Hc.
  destruct (Hw _ (co_voter _ Hs _ _ Hc)) as [_ Ew]. destruct (co_cast _ Hs _ _ Hc) as (v0 & Hv0 & Ea & Et).
  unfold chosen, selects, share. rewrite Ew. cbn.
  destruct (decide ((key.1.2, key.2) = k)) as [Ek|Ek].
  2: { rewrite !(bool_decide_false (_ = k)) by done. cbn. by destruct (decide _). }
  rewrite !(bool_decide_true (_ = k)) by done. cbn. rewrite Ek, Hv in Hv0. injection Hv0 as <-.
  destruct (bool_decide (i ∈ _)); [|by destruct (decide _)]. unfold head_block_time in *. rewrite Hd.
  destruct (decide (key.1.1 = account)) as [Eu|Eu].
  - rewrite bool_decide_true by done. cbn. destruct (Z.eqb_spec (asset_id delta) CORE_ASSET_AID) as [Ec|Ec].
    + rewrite decide_True; [done|]. split_and!; [done|congruence|]. cbn. lia.
    + rewrite decide_False; [lia|]. intros (_ & E & _). congruence.
  - rewrite bool_decide_false by done. rewrite decide_False; [cbn; lia|]. by intros (? & _).
Qed.
Lemma adjust_counts account delta s u s' :
  counts_ok s -> adjust_and_tell account delta s = Ok (u, s') -> counts_ok s'.
Proof.
  intros Hs H. unfold adjust_and_tell in H. step H as u1 s1 H1. unfold on_vbase in H1.
  destruct (adjust_balance account delta (vbase s)) as [[x d]|e] eqn:Ea; [|done]. injection H1 as _ <-.
  destruct (adjust_weights _ _ _ _ _ Ea) as (Ec & Ed & Hw). set (s1 := s <| vbase := d |>) in *.
  assert (recount (fun k i => zsum ((fun y => share (y.1.1.2, y.1.2) (amount delta) (cast_vote_result y.2) k i) <$>
                                      counted_casts s1 account (asset_id delta))) s1 s') as R.
  { destruct (Z.eqb_spec (amount delta) 0) as [E0|E0]; cbn in H.
    - injection H as _ <-. eapply recount_ext, recount_refl. intros k i. rewrite E0. clear. cbn.
      induction (counted_casts s1 account (asset_id delta)) as [|y l IH]; [done|]. cbn. rewrite <- IH. unfold share.
      by destruct (_ && _).
    - unfold update_custom_vote in H. peel H as sg Hg. eapply mfor_recount, H.
      apply counted_selections, (co_selection _ Hs). }
  destruct R as [R1 R2 R3 R4 R5]. split.
  - intros key c Hc. rewrite R1 in Hc. destruct (co_cast _ Hs _ _ Hc) as (v & Hv & E1 & E2).
    destruct (R4 (key.1.2, key.2) v) as (v' & Hv' & E1' & E2'); [cbn; by rewrite Ec|]. exists v'. split_and!; [done|congruence..].
  - intros key c Hc. rewrite R1 in Hc. by eapply (co_selection _ Hs).
  - intros key c Hc. rewrite R1 in Hc. rewrite R2. apply Hw. by eapply (co_voter _ Hs).
  - intros k v' i x' Hv' Ha Ht Hx. destruct (R5 _ _ Hv') as (v & Hv & E1 & E2 & Hcount). cbn in Hv. rewrite Ec in Hv.
    assert (vote_time s <= vote_expired_time v) as Ht' by (unfold head_block_time in *; rewrite R3 in Ht; change (dgp (vbase s1)) with (dgp d) in Ht; rewrite Ed in Ht; lia).
    destruct (Hcount _ _ Hx) as (y & Hy & Hq & Hr). rewrite E1 in Ha.
    destruct (co_tally _ Hs _ _ _ _ Hv Ha Ht' Hy) as [I1 Q1]. split; [auto|]. rewrite Hq, Q1.
    rewrite <- (adjust_tally _ _ _ _ _ _ _ _ Hs Ea Hv Ha Ht'). unfold poll_tally, chosen, vote_weight. by rewrite R1, R2.
Qed.

(** ** A vote is cast *)
Lemma eq64_move x y z w : eq64 x y -> eq64 z w -> eq64 (x - z) (y - w).
Proof. intros -> ->. done. Qed.
(** The vote with its new count, the cast with its new selection. *)
Lemma cast_counts (s s' : vote_state) k ck c g :
  counts_ok s -> (ck.1.2, ck.2) = k -> is_Some (stats (vbase s) !! ck.1.1) -> selection_ok (cast_vote_result c) ->
  (exists v, votes_in s !! k = Some v /\ cast_vote_asset_id c = vote_asset_id v /\ cast_vote_expired_time c = vote_expired_time v) ->
  recount (fun k' i => if bool_decide (k = k') then g i else 0) (s <| casts ::= <[ck := c]> |>) s' ->
  (forall i, eq64 (g i) (chosen (vbase s) k i ck c - at_key (chosen (vbase s) k i) (casts s) ck)) ->
  counts_ok s'.
Proof.
  intros Hs Ek Hst Hc Hv [R1 R2 R3 R4 R5] Hg. cbn in R1, R2, R3, R4, R5. split.
  - intros key c0 H0. rewrite R1 in H0.
    assert (exists v, votes_in s !! (key.1.2, key.2) = Some v /\ cast_vote_asset_id c0 = vote_asset_id v /\
              cast_vote_expired_time c0 = vote_expired_time v) as (v & Hv0 & E1 & E2).
    { apply lookup_insert_Some in H0 as [[<- <-]|[_ H0]]; [by rewrite Ek|by apply (co_cast _ Hs)]. }
    destruct (R4 _ _ Hv0) as (v' & Hv' & E1' & E2'). exists v'. split_and!; [done|congruence..].
  - intros key c0 H0. rewrite R1 in H0. apply lookup_insert_Some in H0 as [[_ <-]|[_ H0]]; [done|by eapply (co_selection _ Hs)].
  - intros key c0 H0. rewrite R1 in H0. rewrite R2. apply lookup_insert_Some in H0 as [[<- _]|[_ H0]]; [done|by eapply (co_voter _ Hs)].
  - intros k' v' i x' Hv' Ha Ht Hx. destruct (R5 _ _ Hv') as (v & Hv1 & E1 & E2 & Hcount).
    assert (vote_time s <= vote_expired_time v) as Ht' by (unfold head_block_time in *; rewrite R3 in Ht; lia).
    destruct (Hcount _ _ Hx) as (y & Hy & Hq & Hr). rewrite E1 in Ha.
    destruct (co_tally _ Hs _ _ _ _ Hv1 Ha Ht' Hy) as [I1 Q1]. split; [auto|]. rewrite Hq, Q1.
    assert (poll_tally s' k' (Z.of_nat i) = msum (chosen (vbase s) k' (Z.of_nat i)) (<[ck := c]> (casts s))) as ->.
    { unfold poll_tally, chosen, vote_weight. by rewrite R1, R2. }
    rewrite msum_set. unfold poll_tally. destruct (decide (k = k')) as [<-|Hne].
    + rewrite bool_decide_true, Hg by done. by rewrite Z.add_sub_assoc, Z.add_sub_swap.
    + rewrite bool_decide_false by done. assert (forall c0, chosen (vbase s) k' (Z.of_nat i) ck c0 = 0) as E0.
      { intros c0. unfold chosen, selects. rewrite bool_decide_false by congruence. done. }
      unfold at_key. rewrite E0. destruct (casts s !! ck); rewrite ?E0, Z.sub_0_r; done.
Qed.
Lemma weight_votes d uid st : stats d !! uid = Some st -> eq64 (get_votes_from_core_balance st) (vote_weight d uid).
Proof. intros H. unfold vote_weight. rewrite H. apply u64_eq64. Qed.
(** What a selection puts in the place of an older one. *)
Definition swap (w : Z) (old new : list Z) (i : Z) : Z :=
  (if bool_decide (i ∈ old) then - w else 0) + (if bool_decide (i ∈ new) then w else 0).
Lemma recast_recount k w old new e s u s' :
  selection_ok old -> selection_ok new ->
  modify_vote k (fun r => r ← add_to_all (- w) old r; add_to_all w new r) e s = Ok (u, s') ->
  recount (fun k' i => if bool_decide (k = k') then swap w old new i else 0) s s'.
Proof.
  intros Ho Hn H. eapply modify_vote_recount, H. intros r r' i y' Hr Hi. apply bind_ok in Hr as (r1 & Hr1 & Hr2).
  destruct (add_to_all_ok _ _ _ _ _ _ Hn Hr2 Hi) as (y1 & Hy1 & Q1 & I1).
  destruct (add_to_all_ok _ _ _ _ _ _ Ho Hr1 Hy1) as (y & Hy & Q & I0).
  exists y. split_and!; [done| |auto]. unfold swap. by rewrite Q1, Q, Z.add_assoc.
Qed.
Lemma custom_vote_cast_counts op s u s' :
  selection_ok (cvk_vote_result op) -> counts_ok s -> custom_vote_cast op s = Ok (u, s') -> counts_ok s'.
Proof.
  intros Hsel Hs H. unfold custom_vote_cast in H. peel H as sg Hg. peel H as v0 Hv0. unfold create_custom_vote_index in H.
  peel H as sg2 Hg2. cbv zeta in H. peel H as st Hst. apply deref_ok in Hst. pose proof (weight_votes _ _ _ Hst) as Hw.
  set (ck := (cvk_voter op, cvk_custom_vote_creator op, cvk_custom_vote_vid op)) in *.
  set (k := (cvk_custom_vote_creator op, cvk_custom_vote_vid op)) in *.
  set (w := get_votes_from_core_balance st) in *.
  assert (forall c i, chosen (vbase s) k i ck c =
            if bool_decide (i ∈ cast_vote_result c) then vote_weight (vbase s) (cvk_voter op) else 0) as Ech.
  { intros c i. unfold chosen, selects. by rewrite (bool_decide_true (_ = k)). }
  destruct (casts s !! ck) as [c|] eqn:Ec.
  - step H as u1 s1 H1. injection H as _ <-. set (c' := Build_cast_custom_vote_object _ _ _).
    apply recast_recount in H1; [|by eapply (co_selection _ Hs)|done].
    eapply (cast_counts s _ k ck c' (swap w (cast_vote_result c) (cvk_vote_result op)));
      [done|done|by exists st|done|exact (co_cast _ Hs _ _ Ec)| |].
    { destruct H1 as [R1 R2 R3 R4 R5]. split; [cbn; by rewrite R1|exact R2|exact R3|exact R4|exact R5]. }
    intros i. unfold at_key, swap. rewrite Ec, !Ech. cbn [cast_vote_result c'].
    destruct (bool_decide _), (bool_decide _); cbn [Z.add]; rewrite ?Z.add_0_r, ?Z.sub_0_r, <- ?Z.sub_0_l, ?Hw; try done.
    by rewrite Z.sub_0_l, Z.add_opp_diag_l, Z.sub_diag.
  - peel H as v Hv. apply deref_ok in Hv. step H as u1 s1 H1. injection H1 as _ <-. set (c' := Build_cast_custom_vote_object _ _ _) in *.
    eapply modify_vote_share in H; [|done].
    eapply (cast_counts s _ k ck c' (swap w [] (cvk_vote_result op))); [done|done|by exists st|done|by exists v| |].
    { eapply recount_ext, H. intros k' i. unfold share, swap. by destruct (bool_decide (k = k')). }
    intros i. unfold at_key, swap. rewrite Ec, !Ech. cbn [cast_vote_result c'].
    destruct (bool_decide (i ∈ cvk_vote_result op)); cbn; rewrite ?Z.sub_0_r, ?Hw; done.
Qed.

(** ** Other changes of the state *)
(** Balances, orders and time apart, the chain keeps the votes and who has what. *)
Record others_keep (d d' : database) : Prop := {
  ok_votes : custom_votes (contents d') = custom_votes (contents d);
  ok_weight uid : is_Some (stats d !! uid) -> is_Some (stats d' !! uid) /\ vote_weight d' uid = vote_weight d uid;
  ok_time : head_block_time d <= head_block_time d';
}.
Lemma others_counts s d' : others_keep (vbase s) d' -> counts_ok s -> counts_ok (s <| vbase := d' |>).
Proof.
  intros [Ev Hw Ht] Hs. split; cbn; rewrite ?Ev.
  - exact (co_cast _ Hs).
  - exact (co_selection _ Hs).
  - intros key c Hc. by eapply Hw, (co_voter _ Hs).
  - intros k v i x Hv Ha He Hx. destruct (co_tally _ Hs _ _ _ _ Hv Ha (Z.le_trans _ _ _ Ht He) Hx) as [I Q].
    split; [done|]. rewrite Q. unfold poll_tally. cbn.
    erewrite msum_ext; [reflexivity|]. intros key c Hc. unfold chosen.
    by rewrite (proj2 (Hw _ (co_voter _ Hs _ _ Hc))).
Qed.
(** On a vote nobody knows nobody has voted. *)
Lemma new_vote_counts s k v :
  counts_ok s -> votes_in s !! k = None -> Forall (eq 0) (vote_result v) -> counts_ok (s <| vbase ::= set_vote k v |>).
Proof.
  intros Hs Hk Hv. assert (forall key c, casts s !! key = Some c -> (key.1.2, key.2) <> k) as Hne.
  { intros key c Hc <-. destruct (co_cast _ Hs _ _ Hc) as (v0 & Hv0 & _). congruence. }
  split; cbn.
  - intros key c Hc. rewrite lookup_insert_ne by (apply not_eq_sym, (Hne _ _ Hc)). by apply (co_cast _ Hs).
  - exact (co_selection _ Hs).
  - exact (co_voter _ Hs).
  - intros k' v' i x Hv' Ha He Hx. change (poll_tally _ _ _) with (poll_tally s k' (Z.of_nat i)).
    apply lookup_insert_Some in Hv' as [[<- <-]|[_ Hv']]; [|by eapply (co_tally _ Hs)].
    pose proof (Forall_lookup_1 _ _ _ _ Hv Hx) as <-. split; [unfold in64; lia|]. unfold poll_tally.
    rewrite (msum_ext _ (fun _ _ => 0)); [clear; by induction (casts s) as [|key c m Hm IH] using map_ind; [|rewrite msum_insert]|].
    intros key c Hc. unfold chosen, selects. by rewrite bool_decide_false by apply (Hne _ _ Hc).
Qed.
Lemma custom_vote_create_counts op s u s' :
  counts_ok s -> on_vbase (custom_vote_create op) s = Ok (u, s') -> counts_ok s'.
Proof.
  intros Hs H. unfold on_vbase in H. destruct (custom_vote_create op (vbase s)) as [[x d]|e] eqn:E; [|done].
  injection H as _ <-. unfold custom_vote_create in E. peel E as dg Hg. peel E as t Ht. peel E as ac Hac. peel E as st Hst.
  peel E as sq Hsq. peel E as aa Haa. peel E as tt Htt. peel E as fr Hfr. step E as u1 d1 E1. injection E1 as _ <-.
  apply modify_stats_ok in E as (st0 & st1 & Hst0 & [= <-] & ->). cbn in Hst0. set (v := Build_custom_vote_object _ _ _ _ _ _ _ _ _).
  unfold find_custom_vote_by_vid in Hfr. destruct (votes_in s !! _) eqn:Ev; [done|].
  pose proof (new_vote_counts s _ v Hs Ev (Forall_replicate_eq _ 0)) as Hs1. eapply others_counts in Hs1; [exact Hs1|].
  split; cbn; [done| |done]. intros uid Hu. unfold vote_weight. cbn.
  destruct (decide (cvc_custom_vote_creator op = uid)) as [<-|Hne].
  - rewrite lookup_insert_eq, Hst0. cbn. eauto.
  - rewrite lookup_insert_ne by done. eauto.
Qed.
Lemma clear_custom_votes_counts r s u s' :
  counts_ok s -> clear_custom_votes r s = Ok (u, s') -> counts_ok s'.
Proof.
  intros Hs H. unfold clear_custom_votes in H. peel H as sg Hg. cbv zeta in H. destruct (_ && _); cbn in H; [|by injection H as _ <-].
  injection H as _ <-. set (b := u32 _). split; cbn.
  - intros key c [Hc Hb]%map_lookup_filter_Some. destruct (co_cast _ Hs _ _ Hc) as (v & Hv & E1 & E2). exists v.
    split_and!; [|done..]. apply map_lookup_filter_Some. split; [done|]. cbn in Hb |- *. rewrite Hv in Hb. lia.
  - intros key c [Hc _]%map_lookup_filter_Some. by eapply (co_selection _ Hs).
  - intros key c [Hc _]%map_lookup_filter_Some. by eapply (co_voter _ Hs).
  - intros k v i x [Hv Hb]%map_lookup_filter_Some Ha He Hx. destruct (co_tally _ Hs _ _ _ _ Hv Ha He Hx) as [I Q].
    split; [done|]. rewrite Q. unfold poll_tally. cbn. rewrite msum_filter_zero; [reflexivity|].
    intros key c Hc Hn. unfold chosen, selects. destruct (decide ((key.1.2, key.2) = k)) as [E|E].
    + exfalso. apply Hn. cbn. rewrite E, Hv. cbn in Hb. lia.
    + by rewrite bool_decide_false.
Qed.

(** ** Whatever happens *)
Inductive vote_step (s s' : vote_state) : Prop :=
  | step_vote_create op u : on_vbase (custom_vote_create op) s = Ok (u, s') -> vote_step s s'
  | step_vote_cast op u : selection_ok (cvk_vote_result op) -> custom_vote_cast op s = Ok (u, s') -> vote_step s s'
  | step_vote_balance account delta u : adjust_and_tell account delta s = Ok (u, s') -> vote_step s s'
  | step_vote_clear r u : clear_custom_votes r s = Ok (u, s') -> vote_step s s'
  | step_vote_others d' : others_keep (vbase s) d' -> s' = s <| vbase := d' |> -> vote_step s s'.
Lemma vote_step_counts s s' : vote_step s s' -> counts_ok s -> counts_ok s'.
Proof.
  intros [op u H|op u Hl H|a dl u H|r u H|d' H ->] Hs.
  - by eapply custom_vote_create_counts.
  - by eapply custom_vote_cast_counts.
  - by eapply adjust_counts.
  - by eapply clear_custom_votes_counts.
  - by apply others_counts.
Qed.
Lemma no_votes_counts s : votes_in s = ∅ -> casts s = ∅ -> counts_ok s.
Proof. intros Ev Ec. split; intros k v; rewrite ?Ev, ?Ec; intros; simplify_map_eq. Qed.
End count.

(** C30. A custom vote is counted right.  Whatever votes are created, cast, cast
    again and cleared, however balances change and time passes, as long as what
    else the chain does changes nobody's number of votes: until a vote on the
    core asset ends, each of its options has exactly the coins (balance and
    orders) of the accounts whose last selection has the option, in the 64 bits
    of a counter. *)
Theorem custom_votes_counted {F : FcInt} {FL : FcIntLaws F} {C : ChainConfig} (s0 s : vote_state)
    (k : Z * Z) (v : custom_vote_object) (i : nat) (x : Z) :
  custom_votes (contents (vbase s0)) = ∅ -> casts s0 = ∅ -> rtc vote_step s0 s ->
  custom_votes (contents (vbase s)) !! k = Some v -> vote_asset_id v = CORE_ASSET_AID ->
  head_block_time (vbase s) <= vote_expired_time v -> vote_result v !! i = Some x ->
  x = u64 (poll_tally s k (Z.of_nat i)).
Proof.
  intros Ev Ec Hr Hv Ha Ht Hx. assert (counts_ok s) as Hs.
  { pose proof (no_votes_counts _ Ev Ec) as H0. clear -Hr H0 FL. induction Hr as [|s1 s2 s3 H12 _ IH]; [done|].
    by eapply IH, vote_step_counts. }
  destruct (co_tally _ Hs _ _ _ _ Hv Ha Ht Hx) as [I Q]. rewrite <- Q. unfold u64, wrap. symmetry. by apply Z.mod_small.
Qed.

(** Account 20 asks for one or two of three; both accounts answer, account 10 gets
    500 coins and changes its mind. *)
Definition after {A} (m : vote_state -> result (A * vote_state)) (s : vote_state) : vote_state :=
  match m s with Ok (_, s') => s' | Throw _ => s end.
Definition poll_question (aid : Z) : custom_vote_create_operation :=
  {| cvc_custom_vote_creator := 20; cvc_vote_vid := 1; cvc_title := EmptyString; cvc_description := EmptyString;
     cvc_vote_expired_time := head_block_time bank + 100; cvc_vote_asset_id := aid; cvc_required_asset_amount := 200;
     cvc_minimum_selected_items := 1; cvc_maximum_selected_items := 2; cvc_options := replicate 3 EmptyString |}.
Definition poll_answer (uid : Z) (l : list Z) : custom_vote_cast_operation :=
  {| cvk_voter := uid; cvk_custom_vote_creator := 20; cvk_custom_vote_vid := 1; cvk_vote_result := l |}.
Definition poll_hall : vote_state :=
  {| vbase := bank <| params ::= fun p => p <| extension_parameters ::= fun e => e <| custom_vote_effective_time := 1000 |> |> |>;
     casts := ∅ |}.
Definition poll1 : vote_state := after (on_vbase (custom_vote_create (poll_question 0))) poll_hall.
Definition poll2 : vote_state := after (custom_vote_cast (poll_answer 10 [0; 1])) poll1.
Definition poll3 : vote_state := after (custom_vote_cast (poll_answer 20 [1])) poll2.
Definition poll4 : vote_state := after (@adjust_and_tell fc_checked no_proxy 10 (Asset 500 0)) poll3.
Definition poll5 : vote_state := after (custom_vote_cast (poll_answer 10 [1; 2])) poll4.
Definition poll_result (s : vote_state) : option (list Z) := vote_result <$> custom_votes (contents (vbase s)) !! (20, 1).
Lemma poll_steps : rtc (@vote_step fc_checked no_proxy) poll_hall poll5.
Proof.
  eapply rtc_l; [eapply (step_vote_create _ poll1 (poll_question 0) tt); vm_compute; reflexivity|].
  eapply rtc_l; [eapply (step_vote_cast _ poll2 (poll_answer 10 [0; 1]) tt); [by apply (bool_decide_unpack _)|vm_compute; reflexivity]|].
  eapply rtc_l; [eapply (step_vote_cast _ poll3 (poll_answer 20 [1]) tt); [by apply (bool_decide_unpack _)|vm_compute; reflexivity]|].
  eapply rtc_l; [eapply (step_vote_balance _ poll4 10 (Asset 500 0) tt); vm_compute; reflexivity|].
  apply rtc_once. eapply (step_vote_cast _ poll5 (poll_answer 10 [1; 2]) tt); [by apply (bool_decide_unpack _)|vm_compute; reflexivity].
Qed.
Definition the_poll (s : vote_state) : custom_vote_object :=
  default (Build_custom_vote_object EmptyString EmptyString 0 0 0 0 0 [] []) (custom_votes (contents (vbase s)) !! (20, 1)).
Lemma custom_votes_counted_witness :
  poll_result poll5 = Some [0; 1800; 1500] /\ 1800 = u64 (poll_tally poll5 (20, 1) 1).
Proof.
  split; [vm_compute; reflexivity|].
  apply (@custom_votes_counted fc_checked fc_checked_laws no_proxy poll_hall poll5 (20, 1) (the_poll poll5) 1 1800
           eq_refl eq_refl poll_steps); vm_compute; first [reflexivity|discriminate].
Defined.

(** An order moves coins from the balance to the orders of its seller and its votes
    stay, but the plugin is told only that the balance is less.  When the seller
    then changes its selection more is taken from the counters than they have. *)
Definition poll_order : vote_state -> result (unit * vote_state) :=
  on_vbase (@limit_order_create fc_checked no_proxy 10 (Asset 400 0) (Asset 1 5) (head_block_time bank + 50) false) ;;
  update_custom_vote 10 (Asset (-400) 0).
Definition poll_sold : vote_state := after poll_order poll2.
Definition poll_again : vote_state := after (custom_vote_cast (poll_answer 10 [2])) poll_sold.
Example order_miscounts_votes :
  poll_result poll2 = Some [1000; 1000; 0] /\
  vote_weight (vbase poll_sold) 10 = 1000 /\ poll_tally poll_sold (20, 1) 0 = 1000 /\
  poll_result poll_sold = Some [600; 600; 0] /\ poll_result poll_again = Some [2 ^ 64 - 400; 2 ^ 64 - 400; 1000].
Proof. split_and!; vm_compute; reflexivity. Qed.
(** A vote on another asset starts with the core coins of the voter and follows its
    balance of the other asset. *)
Definition poll_other : vote_state :=
  after (custom_vote_cast (poll_answer 20 [0])) (after (on_vbase (custom_vote_create (poll_question 5))) poll_hall).
Definition poll_other_spent : vote_state := after (@adjust_and_tell fc_checked no_proxy 20 (Asset (-700) 5)) poll_other.
Example other_asset_miscounted :
  poll_result poll_other = Some [300; 0; 0] /\ poll_result poll_other_spent = Some [2 ^ 64 - 400; 0; 0].
Proof. split; vm_compute; reflexivity. Qed.
