(* ===== verification/ProxyProof.v ===== *)
(** * Proxies do not run in circles

    A voter and its proxy as a link of a graph.  Every voting operation but one
    only removes links; [account_update_proxy] adds one, after walking the chain
    of the new proxy. *)
From S2P Require Import Prelude FlatMap FcInt Asset Pledge ChainState.
From S2P Require Import AccountStats Voter Voting Proxy Frame Ledger SupplySteps BlockUpdate SupplyBlock.
Local Open Scope Z_scope.
Import asset pledge chain acc voter voting proxy updates.

(** ** Circles in a relation *)
Section circles.
Context {K : Type} `{EqDecision K}.
Implicit Types (R : relation K) (n m : nat).

Lemma nsteps_first R n x z : nsteps R (S n) x z -> exists y, R x y /\ nsteps R n y z.
Proof. intros H. inversion H; eauto. Qed.
(** No circle of at most [n] steps. *)
Definition circle_free n R : Prop := forall k m, (1 <= m <= n)%nat -> ~ nsteps R m k k.
Lemma circle_free_sub n R R' : (forall a b, R' a b -> R a b) -> circle_free n R -> circle_free n R'.
Proof. intros Hs Hc k m Hm H. apply (Hc k m Hm). revert H. by apply nsteps_congruence with (f := fun x => x). Qed.

Variables (R R' : relation K) (k p : K).
(** [R'] is [R] with the steps from [k] replaced by one to [p]. *)
Hypothesis Hsub : forall a b, R' a b -> (a = k /\ b = p) \/ (a <> k /\ R a b).
Lemma path_to m a : nsteps R' m a k -> exists j, (j <= m)%nat /\ nsteps R j a k.
Proof using Hsub EqDecision0.
  revert a. induction m as [|m IH]; intros a H.
  { exists 0%nat. inversion H; subst. split; [done|constructor]. }
  destruct (decide (a = k)) as [->|Ha]; [exists 0%nat; split; [lia|constructor]|].
  apply nsteps_first in H as (b & Hb & Hr). destruct (Hsub _ _ Hb) as [[? _]|[_ Hs]]; [done|].
  apply IH in Hr as (j & Hj & Hr). exists (S j). split; [lia|]. by eapply nsteps_l.
Qed.
Lemma path_through m a b :
  nsteps R' m a b -> nsteps R m a b \/ exists i, (i < m)%nat /\ nsteps R' i a k /\ nsteps R' (m - i) k b.
Proof using Hsub EqDecision0.
  revert a. induction m as [|m IH]; intros a H; [left; inversion H; constructor|].
  destruct (decide (a = k)) as [->|Ha].
  { right. exists 0%nat. split_and!; [lia|constructor|done]. }
  apply nsteps_first in H as (c & Hc & Hr). destruct (Hsub _ _ Hc) as [[? _]|[_ Hs]]; [done|].
  apply IH in Hr as [Hr|(i & Hi & H1 & H2)]; [left; by eapply nsteps_l|].
  right. exists (S i). split_and!; [lia|by eapply nsteps_l|done].
Qed.
Lemma relink_circle_free n :
  circle_free n R -> (forall m, (m < n)%nat -> ~ nsteps R m p k) -> circle_free n R'.
Proof using Hsub EqDecision0.
  intros Hc Hp a m Hm H. destruct (path_through _ _ _ H) as [H1|(i & Hi & H1 & H2)]; [by apply (Hc a m)|].
  destruct (m - i)%nat as [|r] eqn:E; [lia|]. apply nsteps_first in H2 as (b & Hb & H3).
  destruct (Hsub _ _ Hb) as [[_ ->]|[? _]]; [|done].
  destruct (path_to _ _ (nsteps_trans _ _ _ _ _ H3 H1)) as (j & Hj & Hpath).
  apply (Hp j); [lia|done].
Qed.
End circles.

Section proxies.
Context {F : FcInt} {C : ChainConfig}.

(** ** The links of a database *)
Definition link_of (v : voter_object) : option (Z * Z) := if votes_by_self v then None else Some (proxy_key v).
Definition links (d : database) : gmap (Z * Z) (Z * Z) := omap link_of (voters d).
Definition follows (d : database) : relation (Z * Z) := fun k p => links d !! k = Some p.
Definition sequences (d : database) : gmap Z Z := last_voter_sequence <$> stats d.
Definition max_level (d : database) : nat := max_governance_voting_proxy_level (params d).
Definition governance (d : database) := (links d, sequences d, params d).

Lemma follows_voter d k v p : voters d !! k = Some v -> follows d k p -> votes_by_self v = false /\ p = proxy_key v.
Proof.
  unfold follows, links. rewrite lookup_omap. intros ->. cbn. unfold link_of. destruct (votes_by_self v); [done|].
  by intros [= <-].
Qed.
Lemma links_insert d k v : links (d <| voters ::= <[k := v]> |>) = partial_alter (fun _ => link_of v) k (links d).
Proof.
  apply map_eq. intros i. unfold links. rewrite lookup_omap. cbn.
  destruct (decide (i = k)) as [->|Hi]; [by rewrite lookup_insert_eq, lookup_partial_alter_eq|].
  by rewrite lookup_insert_ne, lookup_partial_alter_ne, lookup_omap by done.
Qed.
Lemma links_same d k v v' : voters d !! k = Some v -> link_of v' = link_of v ->
  links (d <| voters ::= <[k := v']> |>) = links d.
Proof.
  intros Hv E. rewrite links_insert, E. apply map_eq. intros i.
  destruct (decide (i = k)) as [->|Hi]; [|by rewrite lookup_partial_alter_ne].
  rewrite lookup_partial_alter_eq. unfold links. by rewrite lookup_omap, Hv.
Qed.
Lemma tally_link v v' : tally_change v v' -> link_of v' = link_of v.
Proof. unfold tally_change, link_of, votes_by_self, proxy_key. by intros [= -> ->]. Qed.
#[export] Instance governance_tally : TallyFrame governance.
Proof.
  split; try done. intros d k v v' Hv Ht. unfold governance. by erewrite links_same by eauto using tally_link.
Qed.

(** ** Computations that only remove links *)
Definition calms {A} (m : M database A) : Prop := forall d a d', m d = Ok (a, d') ->
  links d' ⊆ links d /\ sequences d' = sequences d /\ params d' = params d.
Lemma calms_keeps {A} (m : M database A) : keeps governance m -> calms m.
Proof. intros Hk d a d' H. apply Hk in H. unfold governance in H. by injection H as -> -> ->. Qed.
Lemma calms_bind {A B} (m : M database A) (f : A -> M database B) :
  calms m -> (forall a, calms (f a)) -> calms (m ≫= f).
Proof.
  intros Hm Hf d b d' H. step H as a d1 H1. apply Hm in H1 as (L1 & S1 & P1). apply Hf in H as (L2 & S2 & P2).
  split_and!; [by etrans|congruence..].
Qed.
Lemma calms_when b (m : M database unit) : calms m -> calms (when b m).
Proof. intros Hm. destruct b; [done|]. apply calms_keeps, keeps_ret. Qed.
Lemma calms_mfor {A} (f : A -> M database unit) l : (forall x, calms (f x)) -> calms (mfor f l).
Proof.
  intros Hf. induction l as [|x l IH]; cbn [mfor]; [apply calms_keeps, keeps_ret|]. by apply calms_bind.
Qed.
(** A voter that is changed keeps its proxy or votes by itself. *)
Lemma calms_voter k f : (forall v v', f v = Ok v' -> votes_by_self v' = true \/ tally_change v v') ->
  calms (modify_voter k f).
Proof.
  intros Hf d a d' H. unfold modify_voter in H. inv_ok. destruct (Hf _ _ H1) as [Hs|Ht].
  - rewrite links_insert. unfold link_of. rewrite Hs. split_and!; [|done..].
    change (partial_alter _ k (links d)) with (delete k (links d)). apply delete_subseteq.
  - by erewrite links_same by eauto using tally_link.
Qed.
Lemma calms_stats uid f : (forall s s', f s = Ok s' -> last_voter_sequence s' = last_voter_sequence s) ->
  calms (modify_stats uid f).
Proof.
  intros Hf d a d' H. apply modify_stats_ok in H as (s & s' & Hs & Hs' & ->). split_and!; [done| |done].
  unfold sequences. cbn. rewrite fmap_insert, (Hf _ _ Hs'). apply insert_id. by rewrite lookup_fmap, Hs.
Qed.
End proxies.
#[export] Hint Resolve governance_tally : keeps.

Ltac calm_side := intros ? ? ?; inv_ok; repeat case_match; first [done|by right|left; apply Z.eqb_refl].
Ltac calm_step :=
  match goal with
  | |- calms (mret _) => apply calms_keeps, keeps_ret
  | |- calms get => apply calms_keeps, keeps_get
  | |- calms (gets _) => apply calms_keeps, keeps_gets
  | |- calms (lift _) => apply calms_keeps, keeps_lift
  | |- calms (fc_assert _) => apply calms_keeps, keeps_assert
  | |- calms (throw _) => apply calms_keeps, keeps_throw
  | |- calms (get_voter _) => apply calms_keeps, keeps_get_voter
  | |- calms (clear_voter_votes _) => apply calms_keeps, keeps_clear_voter_votes, _
  | |- calms (modify_voter _ _) => apply calms_voter; calm_side
  | |- calms (modify_stats _ _) => apply calms_stats; calm_side
  | |- calms (_ ≫= _) => apply calms_bind; [|intros ?]
  | |- calms (when _ _) => apply calms_when
  | |- calms (mfor _ _) => apply calms_mfor; intros ?
  | |- calms (match ?x with _ => _ end) => destruct x
  | |- calms _ => solve [auto with keeps]
  end.
Ltac calm := repeat calm_step.

Section operations.
Context {F : FcInt} {C : ChainConfig}.

Lemma calms_invalidate k : calms (invalidate_voter k).
Proof. unfold invalidate_voter. calm. Qed.
#[local] Hint Resolve calms_invalidate : keeps.
(** *** Votes *)
Section ballots.
Context (b : ballot) {BK : BallotKeeps governance b}.
Lemma calms_remove_vote o : calms (remove_vote b o).
Proof using BK. apply calms_keeps, keeps_remove_vote, _. Qed.
Lemma calms_b_adjust uid n : calms (b_adjust b uid n).
Proof using BK. apply calms_keeps, keeps_b_adjust, _. Qed.
Lemma calms_cast k n l : calms (cast_votes b k n l).
Proof using BK. apply calms_keeps, keeps_cast_votes, _. Qed.
#[local] Hint Resolve calms_remove_vote calms_b_adjust : keeps.
Lemma calms_update_voter op k pl : calms (update_voter b op k pl).
Proof using BK.
  unfold update_voter, withdraw_votes. calm.
  - apply calms_keeps, keeps_clear_voter_proxy_votes, _.
  - apply calms_voter. intros v v' H. apply bind_ok in H as (l & _ & [= <-]).
    match goal with |- context [b_set_number b ?f ?w] => pose proof (bk_number governance f w : tally_change w (b_set_number b f w)) as Hn end.
    unfold tally_change, proxy_key in Hn. destruct (some _).
    + left. injection Hn as Hn _. unfold votes_by_self. rewrite Hn. apply Z.eqb_refl.
    + right. exact Hn.
Qed.
End ballots.

(** *** Updates of a block *)
Lemma calms_expired : calms invalidate_expired_governance_voters.
Proof. unfold invalidate_expired_governance_voters. calm. Qed.
Lemma drop_proxy_self d p v v' : drop_proxy d p v = Ok v' -> votes_by_self v' = true.
Proof. intros H. apply bind_ok in H as (v0 & _ & [= <-]). apply Z.eqb_refl. Qed.
Lemma calms_drop_proxies n k cur x : calms (drop_proxies n k cur x).
Proof.
  revert cur x. induction n as [|n IH]; intros cur x; cbn [drop_proxies]; [calm|].
  destruct cur as [c|]; [|calm]. intros d a d' H. peel H as d0 Hd.
  step H as v d1 Hv. assert (d1 = d) as -> by (apply bind_ok in Hv as (? & _ & [= _ ->]); done).
  destruct (bool_decide _); [|by injection H as _ <-].
  step H as p d1 Hp. assert (d1 = d) as -> by (apply bind_ok in Hp as (? & _ & [= _ ->]); done).
  peel H as v' Hv'. apply drop_proxy_self in Hv'. revert H. apply calms_bind; [|intros; calm].
  apply calms_voter. intros ? ? [= <-]. by left.
Qed.
#[local] Hint Resolve calms_drop_proxies : keeps.
Lemma calms_delete k : calms (upd (fun d => d <| voters ::= delete k |>)).
Proof.
  intros d a d' [= _ <-]. split_and!; [|done..]. unfold links. cbn. rewrite omap_delete. apply delete_subseteq.
Qed.
#[local] Hint Resolve calms_delete : keeps.
Lemma calms_process_invalid k n : calms (process_invalid_proxied_voters k n).
Proof. unfold process_invalid_proxied_voters. calm. Qed.
#[local] Hint Resolve calms_process_invalid : keeps.
Lemma calms_invalid_voters : calms process_invalid_governance_voters.
Proof.
  unfold process_invalid_governance_voters. calm. generalize 0. induction (_ + _)%nat as [|n IH]; intros x;
    cbn [process_invalid_loop]; calm.
Qed.
Lemma calms_effective_votes : calms update_all_effective_votes.
Proof.
  unfold update_all_effective_votes. calm. apply calms_keeps, keeps_drain. intros x.
  apply keeps_update_voter_effective_votes, _.
Qed.
End operations.
