(* ===== verification/ProxyClaims.v ===== *)
(** * What voting by proxy guarantees *)
From S2P Require Import Prelude FlatMap FcInt Asset Pledge ChainState.
From S2P Require Import AccountStats Voter Voting Proxy Frame Ledger VoterClaims SupplySteps BlockUpdate ProxyProof.
Local Open Scope Z_scope.
Import asset pledge chain acc voter voting proxy updates.

Section invariant.
Context {F : FcInt} {C : ChainConfig}.

(** No voter follows itself within one step more than the walks over proxies
    take, and a proxy is a voter that an account had up to now. *)
Record proxies_ok (d : database) : Prop := {
  po_circle : circle_free (S (max_level d)) (follows d);
  po_known : forall k p, follows d k p -> exists n, sequences d !! p.1 = Some n /\ p.2 <= n }.
(** The account's voters are not numbered out. *)
Definition sequence_room (d : database) (uid : Z) : Prop :=
  forall n, sequences d !! uid = Some n -> 0 <= n < 2 ^ 32 - 1.
Definition later (d d' : database) : Prop := forall uid n,
  sequences d !! uid = Some n -> exists n', sequences d' !! uid = Some n' /\ n <= n'.
(** From [d] to [d'] only the proxy of [k] was set, to [np]. *)
Definition relinks (k : Z * Z) (np : option (Z * Z)) (d d' : database) : Prop := forall a b,
  follows d' a b -> (a = k /\ np = Some b) \/ (a <> k /\ follows d a b).
Definition changed_proxy (k : Z * Z) (np : option (Z * Z)) (d d' : database) : Prop :=
  relinks k np d d' /\ later d d' /\ params d' = params d.

Lemma calms_before k np d d1 d' A (m : M database A) a :
  calms m -> m d = Ok (a, d1) -> changed_proxy k np d1 d' -> changed_proxy k np d d'.
Proof.
  intros Hm (L & S & P)%Hm (R & T & Q). split_and!; [|by unfold later; rewrite <- S|congruence].
  intros x y [?|[? H]]%R; [by left|right; split; [done|]]. by eapply lookup_weaken.
Qed.
Lemma calms_after k np d d1 d' A (m : M database A) a :
  changed_proxy k np d d1 -> calms m -> m d1 = Ok (a, d') -> changed_proxy k np d d'.
Proof.
  intros (R & T & Q) Hm (L & S & P)%Hm. split_and!; [|by unfold later; rewrite S|congruence].
  intros x y H. apply R. by eapply lookup_weaken.
Qed.
Lemma calms_ok A (m : M database A) d a d' : calms m -> m d = Ok (a, d') -> proxies_ok d -> proxies_ok d'.
Proof.
  intros Hm (L & S & P)%Hm [H1 H2]. split; unfold max_level; rewrite ?P, ?S.
  - eapply circle_free_sub, H1. intros x y H. by eapply lookup_weaken.
  - intros k p H. apply H2 with k. by eapply lookup_weaken.
Qed.
Lemma changed_ok k np d d' :
  changed_proxy k np d d' -> proxies_ok d ->
  (forall p, np = Some p -> (exists n, sequences d !! p.1 = Some n /\ p.2 <= n) /\
     forall m, (m <= max_level d)%nat -> ~ nsteps (follows d) m p k) -> proxies_ok d'.
Proof.
  intros (R & T & Q) [H1 H2] Hp. split.
  - unfold max_level. rewrite Q. destruct np as [p|].
    + eapply (relink_circle_free (follows d) _ k p); [|done|intros m Hm; apply (Hp p); [done|unfold max_level; lia]].
      intros x y [[-> [= ->]]|?]%R; auto.
    + eapply circle_free_sub, H1. intros x y [[_ ?]|[_ ?]]%R; [done..].
  - intros x y [[_ E]|[_ H]]%R.
    + destruct (Hp _ E) as [(n & Hn & Hle) _]. destruct (T _ _ Hn) as (n' & Hn' & ?). exists n'. split; [done|lia].
    + destruct (H2 _ _ H) as (n & Hn & Hle). destruct (T _ _ Hn) as (n' & Hn' & ?). exists n'. split; [done|lia].
Qed.

(** ** A voter is added or its proxy set *)
Lemma insert_relinks d k v np : (forall b, link_of v = Some b -> np = Some b) ->
  relinks k np d (d <| voters ::= <[k := v]> |>).
Proof.
  intros Hv a b. unfold follows. rewrite links_insert. destruct (decide (a = k)) as [->|Ha].
  - rewrite lookup_partial_alter_eq. intros H. left. auto.
  - rewrite lookup_partial_alter_ne by done. auto.
Qed.
(** The first voter of that number. *)
Lemma next_sequence uid d u d1 :
  modify_stats uid (fun s => Ok (s <| is_voter := true |> <| last_voter_sequence ::= fun n => u32 (n + 1) |>)) d
    = Ok (u, d1) -> sequence_room d uid ->
  exists n, sequences d !! uid = Some n /\ sequences d1 = <[uid := n + 1]> (sequences d) /\
    links d1 = links d /\ params d1 = params d.
Proof.
  intros H Hr. apply modify_stats_ok in H as (s & s' & Hs & [= <-] & ->). exists (last_voter_sequence s).
  assert (sequences d !! uid = Some (last_voter_sequence s)) as Hn by (unfold sequences; by rewrite lookup_fmap, Hs).
  split_and!; [done| |done..]. unfold sequences. cbn. rewrite fmap_insert. cbn. do 2 f_equal.
  specialize (Hr _ Hn). apply wrap_small. unfold is_uint, NEVER in *. lia.
Qed.
Lemma grow_later d d1 uid n : sequences d !! uid = Some n -> sequences d1 = <[uid := n + 1]> (sequences d) -> later d d1.
Proof.
  intros Hn E u m Hm. rewrite E. destruct (decide (u = uid)) as [->|Hu].
  - rewrite lookup_insert_eq. exists (n + 1). split; [done|]. rewrite Hn in Hm. injection Hm as ->. lia.
  - rewrite lookup_insert_ne by done. eauto with lia.
Qed.
Lemma start_changes uid d u d1 s v np :
  modify_stats uid (fun s => Ok (s <| is_voter := true |> <| last_voter_sequence ::= fun n => u32 (n + 1) |>)) d
    = Ok (u, d1) -> sequence_room d uid -> get_account_statistics_by_uid d1 uid = Ok s ->
  (forall b, link_of v = Some b -> np = Some b) ->
  let k := (uid, last_voter_sequence s) in
  changed_proxy k np d (d1 <| voters ::= <[k := v]> |>) /\
  (exists n, sequences d !! uid = Some n /\ k.2 = n + 1).
Proof.
  intros H Hr Hs Hv k. destruct (next_sequence _ _ _ _ H Hr) as (n & Hn & Sn & L & P).
  apply deref_ok in Hs. assert (last_voter_sequence s = n + 1) as Es.
  { apply (f_equal (lookup uid)) in Sn. rewrite lookup_insert_eq in Sn. unfold sequences in Sn.
    rewrite lookup_fmap, Hs in Sn. by injection Sn. }
  split; [|eauto]. split_and!; [|by eapply grow_later|done].
  intros a b Hab. apply insert_relinks with (np := np) in Hab; [|done]. unfold follows in *. by rewrite L in Hab.
Qed.

(** ** Votes *)
Lemma calms_room A (m : M database A) d a d' uid :
  calms m -> m d = Ok (a, d') -> sequence_room d uid -> sequence_room d' uid.
Proof. intros Hm (_ & S & _)%Hm. unfold sequence_room. by rewrite S. Qed.
Lemma start_voting_changes b {BK : BallotKeeps governance b} uid n d k d' :
  sequence_room d uid -> start_voting b uid n d = Ok (k, d') -> changed_proxy k None d d'.
Proof.
  intros Hr H. unfold start_voting in H. step H as u1 d1 H1. peel H as d0 Hg. peel H as st Hs. injection H as <- <-.
  eapply start_changes in H1 as [H1 _]; [exact H1|done|exact Hs|]. unfold new_voter.
  match goal with |- context [b_set_number b ?f ?w] => pose proof (bk_number governance f w : tally_change w (b_set_number b f w)) as Hn end.
  intros x Hx. erewrite tally_link in Hx by exact Hn. unfold link_of, votes_by_self in Hx. cbn in Hx.
  by rewrite Z.eqb_refl in Hx.
Qed.
Lemma vote_update_ok b {BK : BallotKeeps governance b} op d u d' :
  sequence_room d (wv_voter op) -> vote_update b op d = Ok (u, d') -> proxies_ok d -> proxies_ok d'.
Proof.
  intros Hr H Hd. unfold vote_update in H. peel H as d0 Hg. peel H as pl Hpl. unfold vote_update_apply in H.
  step H as u1 d1 H1. step H as u2 d2 H2. step H as r d3 H3. destruct r as [k total].
  assert (calms (match vp_invalid_proxy pl with Some p => invalidate_voter p | None => mret tt end)) as C1.
  { destruct (vp_invalid_proxy pl); [apply calms_invalidate|calm]. }
  assert (calms (match vp_invalid pl with Some k => invalidate_voter k | None => mret tt end)) as C2.
  { destruct (vp_invalid pl); [apply calms_invalidate|calm]. }
  assert (proxies_ok d2) as Hd2 by eauto using calms_ok.
  eapply calms_ok; [apply calms_cast, _|exact H|]. destruct (vp_voter pl) as [k'|].
  - step H3 as t d4 H4. injection H3 as _ _ <-. eapply calms_ok; [apply calms_update_voter, _|exact H4|done].
  - step H3 as k' d4 H4. injection H3 as -> _ <-. eapply (changed_ok _ None); [|exact Hd2|done].
    eapply start_voting_changes; [exact _| |exact H4]; by eauto using calms_room.
Qed.

(** ** The proxy *)
Lemma check_loop_sound n k p pv d m :
  check_loop n k pv d = Ok tt -> voters d !! p = Some pv -> (1 <= m <= n)%nat -> ~ nsteps (follows d) m p k.
Proof.
  revert p pv m. induction n as [|n IH]; intros p pv m H Hp Hm Hs; [lia|]. cbn [check_loop] in H.
  destruct m as [|m]; [lia|]. apply nsteps_first in Hs as (q & Hq & Hs).
  destruct (follows_voter _ _ _ _ Hp Hq) as [Hself ->]. rewrite Hself in H.
  apply bind_ok in H as (u & Hk & H). apply guard_ok_inv in Hk. bool_to_prop.
  destruct m as [|m]; [by inversion Hs|]. destruct n as [|n]; [lia|].
  apply bind_ok in H as (qv & Hqv%deref_ok & H). eapply (IH _ _ (S m)); [exact H|exact Hqv|lia|exact Hs].
Qed.
Lemma find_proxy_known uid d p : find_proxy uid d = Ok (Some p) ->
  p.1 = uid /\ exists n, sequences d !! p.1 = Some n /\ p.2 <= n.
Proof.
  unfold find_proxy. destruct (_ =? _); [done|]. intros H. apply bind_ok in H as (s & Hs%deref_ok & H).
  apply bind_ok in H as (u1 & _ & H). apply bind_ok in H as (v & _ & H). apply bind_ok in H as (b & _ & H).
  apply bind_ok in H as (u2 & _ & [= <-]). split; [done|]. exists (last_voter_sequence s). split; [|done].
  unfold sequences. cbn [fst]. by rewrite lookup_fmap, Hs.
Qed.
(** What [do_evaluate] has found out. *)
Lemma evaluate_finds op d pl : update_proxy_evaluate op d = Ok pl ->
  find_proxy (up_proxy op) d = Ok (pp_proxy pl) /\
  forall k, pp_voter pl = Some k -> k.1 = up_voter op /\
    forall p m, pp_proxy pl = Some p -> (1 <= m <= max_level d)%nat -> ~ nsteps (follows d) m p k.
Proof.
  intros H. unfold update_proxy_evaluate in H. apply bind_ok in H as (s & Hs & H). apply bind_ok in H as (u1 & _ & H).
  apply bind_ok in H as (u2 & _ & H). apply bind_ok in H as (np & Hnp & H). apply bind_ok in H as (own & _ & H).
  cbv zeta in H. rewrite Hnp. destruct own as [[v [|]]|].
  - apply bind_ok in H as (c & _ & H). apply bind_ok in H as (u3 & Hl & [= <-]). cbn. split; [done|].
    intros k [= <-]. split; [done|]. intros p m -> Hm. apply bind_ok in Hl as (pv & Hpv%deref_ok & Hl). destruct u3.
    by eapply check_loop_sound.
  - apply bind_ok in H as (u3 & _ & [= <-]). by split.
  - apply bind_ok in H as (u3 & _ & [= <-]). by split.
Qed.
Lemma calms_count n k : calms (count_proxied n k).
Proof. unfold count_proxied. calm. Qed.
Lemma set_proxy_changes k np n d u d' : modify_voter k (set_proxy np n) d = Ok (u, d') -> changed_proxy k np d d'.
Proof.
  intros H. unfold modify_voter in H. apply bind_ok in H as (v & Hv & H). apply bind_ok in H as (v' & Hv' & H).
  injection H as _ <-. split_and!; [|by intros ? ? ?; eauto with lia|done]. apply insert_relinks.
  intros b Hb. unfold set_proxy in Hv'. apply bind_ok in Hv' as (l & _ & Hv').
  destruct np as [[pu ps]|]; injection Hv' as <-; unfold link_of, votes_by_self, proxy_key in Hb; cbn in Hb.
  - by destruct (_ =? _).
  - by rewrite Z.eqb_refl in Hb.
Qed.
Lemma change_proxy_changes k pl d u d' : change_proxy k pl d = Ok (u, d') -> changed_proxy k (pp_proxy pl) d d'.
Proof.
  intros H. unfold change_proxy in H. step H as u1 d1 H1. step H as u2 d2 H2. peel H as d0 Hg. step H as u3 d3 H3.
  eapply calms_before; [apply calms_keeps, keeps_clear_voter_votes, _|exact H1|].
  eapply calms_before; [|exact H2|]; [destruct (pp_current pl); [apply calms_count|calm]|].
  eapply calms_after; [by eapply set_proxy_changes| |exact H]. calm.
  apply calms_keeps, keeps_adjust_voter_proxy_votes, _.
Qed.
Lemma start_proxied_changes uid np d k d' :
  sequence_room d uid -> start_proxied uid np d = Ok (k, d') ->
  changed_proxy k np d d' /\ k.1 = uid /\ exists n, sequences d !! uid = Some n /\ k.2 = n + 1.
Proof.
  intros Hr H. unfold start_proxied in H. step H as u1 d1 H1. peel H as d0 Hg. peel H as st Hs.
  destruct (default _ np) as [pu ps] eqn:E. injection H as <- <-.
  eapply start_changes in H1 as [H1 H2]; [by eauto|done|exact Hs|]. intros b Hb.
  unfold link_of, votes_by_self, proxy_key in Hb. cbn in Hb. destruct np as [[]|]; injection E as <- <-.
  - by destruct (_ =? _).
  - by rewrite Z.eqb_refl in Hb.
Qed.
Lemma update_proxy_ok valid op d u d' :
  validate_update_proxy valid op = Ok tt -> sequence_room d (up_voter op) ->
  account_update_proxy op d = Ok (u, d') -> proxies_ok d -> proxies_ok d'.
Proof.
  intros Hv Hr H Hd. unfold account_update_proxy in H. peel H as d0 Hg. peel H as pl Hpl.
  apply evaluate_finds in Hpl as [Hp Hk].
  assert (up_voter op <> up_proxy op) as Hne by (unfold validate_update_proxy in Hv; inv_ok; bool_to_prop; done).
  assert (forall p, pp_proxy pl = Some p -> p.1 = up_proxy op /\ exists n, sequences d !! p.1 = Some n /\ p.2 <= n) as Hp'.
  { intros p E. rewrite E in Hp. by apply find_proxy_known. }
  unfold update_proxy_apply in H. step H as u1 d1 H1. step H as u2 d2 H2. step H as u3 d3 H3.
  assert (forall o, calms (invalidate_if o)) as Ci by (intros []; cbn; [apply calms_invalidate|calm]).
  eapply calms_ok; [|exact H|]; [destruct (pp_proxy pl); [apply calms_count|calm]|].
  destruct (pp_voter pl) as [k|].
  - destruct (Hk k eq_refl) as [Hu Hloop]. apply change_proxy_changes in H3. eapply changed_ok; [|exact Hd|].
    + eapply calms_before; [|exact H1|eapply calms_before; [|exact H2|exact H3]]; done.
    + intros p E. destruct (Hp' p E) as [Eu Hn]. split; [done|]. intros [|m] Hm; [|apply Hloop; [done|lia]].
      intros Hs. inversion Hs; subst. congruence.
  - step H3 as k d4 H4. injection H3 as _ <-. assert (sequence_room d2 (up_voter op)) as Hr2 by eauto using calms_room.
    apply start_proxied_changes in H4 as (H4 & Hku & n & Hn & Hk2); [|done]. eapply changed_ok; [|exact Hd|].
    + eapply calms_before; [|exact H1|eapply calms_before; [|exact H2|exact H4]]; done.
    + intros p E. destruct (Hp' p E) as [Eu Hnp]. split; [done|]. intros [|m] Hm Hs; [inversion Hs; subst; congruence|].
      apply nsteps_inv_r in Hs as (x & _ & Hx). destruct (po_known _ Hd _ _ Hx) as (n' & Hn' & Hle).
      apply Ci in H1 as (_ & S1 & _). apply Ci in H2 as (_ & S2 & _). rewrite Hku, <- S1, <- S2, Hn in Hn'.
      injection Hn' as ->. lia.
Qed.
End invariant.

(** ** Any voting *)
Section steps.
Context {F : FcInt} {C : ChainConfig}.
Variable is_valid_uid : Z -> bool.
(** An operation of voters, or an update of the voters in a block. *)
Inductive voting_step (d d' : database) : Prop :=
| step_proxy op : validate_update_proxy is_valid_uid op = Ok tt -> sequence_room d (up_voter op) ->
    account_update_proxy op d = Ok (tt, d') -> voting_step d d'
| step_vote b op : b ∈ [witness_ballot; committee_ballot; platform_ballot] -> sequence_room d (wv_voter op) ->
    vote_update b op d = Ok (tt, d') -> voting_step d d'
| step_expire : invalidate_expired_governance_voters d = Ok (tt, d') -> voting_step d d'
| step_invalid : process_invalid_governance_voters d = Ok (tt, d') -> voting_step d d'
| step_effective : update_all_effective_votes d = Ok (tt, d') -> voting_step d d'.
Lemma ballot_governance b : b ∈ [witness_ballot; committee_ballot; platform_ballot] -> BallotKeeps governance b.
Proof. rewrite !elem_of_cons, elem_of_nil. intros [->|[->|[->|[]]]]; apply _. Qed.
Lemma voting_step_ok d d' : voting_step d d' -> proxies_ok d -> proxies_ok d'.
Proof.
  intros [op Hv Hr H|b op Hb Hr H|H|H|H].
  - by eapply update_proxy_ok.
  - apply ballot_governance in Hb. by eapply vote_update_ok.
  - eapply calms_ok; [apply calms_expired|exact H].
  - eapply calms_ok; [apply calms_invalid_voters|exact H].
  - eapply calms_ok; [apply calms_effective_votes|exact H].
Qed.
End steps.

(** C10. Proxies do not run in circles.  Along any voting operations and updates
    of voters, as long as no account has used up the numbers of its voters, no
    voter follows itself through at most one proxy more than the walks over
    proxies take, and every proxy is a voter some account had. *)
Theorem proxies_never_circle {F : FcInt} {C : ChainConfig} (is_valid_uid : Z -> bool) (d d' : database) :
  rtc (voting_step is_valid_uid) d d' -> proxies_ok d ->
  (forall k m, (1 <= m <= S (max_level d'))%nat -> ~ nsteps (follows d') m k k) /\
  (forall k p, follows d' k p -> exists n, sequences d' !! p.1 = Some n /\ p.2 <= n).
Proof.
  intros H Hd. assert (proxies_ok d') as [H1 H2]; [|by split].
  induction H as [|d1 d2 d3 Hs _ IH]; [done|]. eauto using voting_step_ok.
Qed.

(** Accounts 1 to 4 vote: 1 through 2, 2 through 3, 3 and 4 for themselves. *)
Definition ex_member : account_statistics :=
  new_account_statistics <| is_voter := true |> <| can_vote := true |> <| last_voter_sequence := 1 |>
    <| core_balance := 100000000000 |>.
Definition ex_proxies : database :=
  ex_voting_db <| dgp ::= fun g => g <| head_block_number := 200 |> |>
    <| stats := {[ 1 := ex_member; 2 := ex_member; 3 := ex_member; 4 := ex_member ]} |>
    <| voters ::= <[(4, 1) := ex_voter 5 5 0 [0; 0; 0; 0]]> |>.
Definition set_ex_proxy (voter proxy : Z) : database -> result (unit * database) :=
  @account_update_proxy fc_checked self_uid {| up_voter := voter; up_proxy := proxy |}.
(** 3 cannot follow 1, which follows it. *)
Example circle_refused :
  set_ex_proxy 3 1 ex_proxies = Throw assert_exception /\ is_ok (set_ex_proxy 4 1 ex_proxies) = true.
Proof. by vm_compute. Qed.
(** When 3 follows 4, all the votes end up with 4, and witness 9 loses them. *)
Example proxy_moves_votes :
  match set_ex_proxy 3 4 ex_proxies with
  | Ok (_, d) => proxied_votes <$> voters d !! (4, 1) = Some [70; 500; 40000; 0] /\
      proxied_voters <$> voters d !! (4, 1) = Some 1 /\
      w_total_votes <$> witnesses d !! 9 = Some 0 /\ witness_votes d = []
  | Throw _ => False
  end.
Proof. vm_compute. done. Qed.
Lemma ex_follows k p : @follows self_uid ex_proxies k p -> (k, p) ∈ [((1, 1), (2, 1)); ((2, 1), (3, 1))].
Proof.
  intros H. apply elem_of_map_to_list in H. assert (map_to_list (@links self_uid ex_proxies) =
    [((2, 1), (3, 1)); ((1, 1), (2, 1))] \/ map_to_list (@links self_uid ex_proxies) =
    [((1, 1), (2, 1)); ((2, 1), (3, 1))]) as [E|E] by (vm_compute; auto); rewrite E in H; set_solver.
Qed.
Lemma ex_proxies_ok : @proxies_ok self_uid ex_proxies.
Proof.
  split.
  - intros k m Hm H. assert (forall j a b, nsteps (@follows self_uid ex_proxies) j a b -> a.1 + Z.of_nat j <= b.1) as Hlt.
    { induction 1 as [|j a b c Ha _ IH]; [lia|]. apply ex_follows in Ha.
      rewrite !elem_of_cons, elem_of_nil in Ha. destruct Ha as [[= -> ->]|[[= -> ->]|[]]]; cbn in *; lia. }
    apply Hlt in H. lia.
  - intros k p Hk. apply ex_follows in Hk. exists 1.
    rewrite !elem_of_cons, elem_of_nil in Hk. by destruct Hk as [[= -> ->]|[[= -> ->]|[]]].
Qed.
Lemma proxies_never_circle_witness :
  exists d', set_ex_proxy 3 4 ex_proxies = Ok (tt, d') /\ @follows self_uid d' (3, 1) (4, 1) /\
    forall k m, (1 <= m <= 5)%nat -> ~ nsteps (@follows self_uid d') m k k.
Proof.
  destruct (set_ex_proxy 3 4 ex_proxies) as [[[] d']|e] eqn:E; [|exfalso; vm_compute in E; discriminate E].
  exists d'. split; [reflexivity|].
  assert (@follows self_uid d' (3, 1) (4, 1) /\ max_level d' = 4%nat) as [Hf Hm].
  { change d' with (match Ok (tt, d') with Ok (_, x) => x | Throw _ => d' end). rewrite <- E. vm_compute. done. }
  split; [exact Hf|]. change 5%nat with (S 4). rewrite <- Hm.
  apply (@proxies_never_circle fc_checked self_uid (fun _ => true) ex_proxies d'); [|exact ex_proxies_ok].
  apply rtc_once. refine (step_proxy _ _ _ {| up_voter := 3; up_proxy := 4 |} _ _ E); [reflexivity|].
  intros n Hn. vm_compute in Hn. injection Hn as <-. by vm_compute.
Defined.
