(* ===== verification/AccountClaims.v ===== *)
(** * The registry of accounts stays sound *)
From S2P Require Import Prelude FlatMap FcInt Authority Asset Pledge ChainState Utf8 Names.
From S2P Require Import AccountStats Frame Ledger Voting Platform Account.
Local Open Scope Z_scope.
Import auth asset pledge chain acc utf8 names voting platform account.

(** ** Authorities *)
Section authorities.
Lemma add_weights_perm {K} (l l' : flat_map K Z) acc : l ≡ₚ l' -> add_weights l acc = add_weights l' acc.
Proof.
  intros H. revert acc. induction H as [|x l l' _ IH|x y l|l l' l'' _ IH1 _ IH2]; intros acc; [done| | |by rewrite IH1].
  - apply IH.
  - unfold add_weights. cbn. f_equal. unfold u64, wrap. rewrite !Zplus_mod_idemp_l. f_equal. lia.
Qed.
(** Somebody can meet it. *)
Definition satisfiable (au : authority) : Prop := num_auths au <> 0 /\ is_impossible au = false.
Lemma replace_key_perm op w au :
  fm_sorted (key_auths au) -> key_weight_of op au = Ok w ->
  exists rest, key_auths au ≡ₚ (uk_old_key op, w) :: rest /\
    key_auths (replace_key op w au) ≡ₚ (uk_new_key op, w) :: rest.
Proof.
  intros Hs H. apply bind_ok in H as (u & Hn%guard_ok_inv & Ho%deref_ok). exists (fm_erase (uk_old_key op) (key_auths au)).
  split; [by apply fm_erase_found|]. cbn. apply fm_set_new. apply fm_find_None; [by apply fm_erase_sorted|].
  destruct (fm_find (uk_new_key op) _) eqn:E; [done|]. apply fm_find_None in E; [|done]. contradict E.
  apply list_elem_of_fmap in E as (x & Hx & Hin). apply list_elem_of_fmap. exists x. split; [done|].
  by eapply fm_erase_in.
Qed.
Lemma replace_key_satisfiable op w au :
  fm_sorted (key_auths au) -> key_weight_of op au = Ok w -> satisfiable au -> satisfiable (replace_key op w au).
Proof.
  intros Hs H [H1 H2]. destruct (replace_key_perm op w au Hs H) as (rest & P & Q). split.
  - unfold num_auths in *. rewrite (Permutation_length Q). rewrite (Permutation_length P) in H1. exact H1.
  - unfold is_impossible in *. change (weight_threshold (replace_key op w au)) with (weight_threshold au).
    change (account_uid_auths (replace_key op w au)) with (account_uid_auths au).
    rewrite (add_weights_perm _ _ _ Q). by rewrite (add_weights_perm _ _ _ P) in H2.
Qed.
End authorities.

Section registry.
Context {C : ChainConfig}.
Variables (is_valid_uid : Z -> bool) (special_account : Z -> bool).

(** Every account the authority names exists. *)
Definition names_accounts (d : database) (au : authority) : Prop :=
  forall x, x ∈ account_uid_auths au -> is_Some (accounts d !! x.1.1).
(** An account: its owner and its active authority can be met, its authorities
    name accounts that exist, and if it accepts only some assets, these exist and the
    core asset is among them. *)
Record account_ok (d : database) (a : account_object) : Prop := {
  ao_owner : satisfiable (a_owner a) /\ names_accounts d (a_owner a);
  ao_active : satisfiable (a_active a) /\ names_accounts d (a_active a) /\ fm_sorted (key_auths (a_active a));
  ao_secondary : names_accounts d (a_secondary a) /\ fm_sorted (key_auths (a_secondary a));
  ao_assets : forall s, allowed_assets a = Some s ->
    CORE_ASSET_AID ∈ s /\ forall aid, aid ∈ s -> is_Some (assets d !! aid) }.
(** [u] is on the list [l] of account [v]. *)
Definition on_list (l : account_object -> list Z) (d : database) (v u : Z) : Prop :=
  exists a, accounts d !! v = Some a /\ u ∈ l a.
Record registry_base (d : database) : Prop := {
  ro_core : is_Some (assets d !! CORE_ASSET_AID);
  ro_accounts : forall uid a, accounts d !! uid = Some a -> account_ok d a /\ is_Some (stats d !! uid);
  ro_names : forall u v a b, accounts d !! u = Some a -> accounts d !! v = Some b -> a_name a = a_name b -> u = v }.
Record registry_ok (d : database) : Prop := {
  ro_base :: registry_base d;
  ro_white : forall u v, on_list whitelisting_accounts d v u <-> on_list whitelisted_accounts d u v;
  ro_black : forall u v, on_list blacklisting_accounts d v u <-> on_list blacklisted_accounts d u v }.

(** ** One account changes *)
Lemma names_accounts_mono d d' au :
  (forall u, is_Some (accounts d !! u) -> is_Some (accounts d' !! u)) -> names_accounts d au -> names_accounts d' au.
Proof. intros H Hn x Hx. auto. Qed.
Lemma account_ok_mono d d' a :
  (forall u, is_Some (accounts d !! u) -> is_Some (accounts d' !! u)) -> assets d' = assets d ->
  account_ok d a -> account_ok d' a.
Proof.
  intros H E [[O1 O2] (A1 & A2 & A3) [S1 S2] As].
  split; [split; [done|]|split_and!; [done| |done]|split; [|done]|by rewrite E]; by eapply names_accounts_mono.
Qed.
Lemma insert_exists d uid a u : is_Some (accounts d !! u) -> is_Some (accounts (d <| accounts ::= <[uid := a]> |>) !! u).
Proof. cbn. intros H. destruct (decide (uid = u)) as [->|Hu]; [by rewrite lookup_insert_eq|by rewrite lookup_insert_ne]. Qed.
(** The account keeps its name and its lists. *)
Definition same_identity (a a' : account_object) : Prop :=
  a_name a' = a_name a /\ whitelisting_accounts a' = whitelisting_accounts a /\
  whitelisted_accounts a' = whitelisted_accounts a /\ blacklisting_accounts a' = blacklisting_accounts a /\
  blacklisted_accounts a' = blacklisted_accounts a.
Lemma on_list_same l d uid a a' v u : accounts d !! uid = Some a -> l a' = l a ->
  on_list l (d <| accounts ::= <[uid := a']> |>) v u <-> on_list l d v u.
Proof.
  intros Ha El. unfold on_list. cbn. destruct (decide (uid = v)) as [->|Hv].
  - rewrite lookup_insert_eq, Ha. split; intros (b & [= <-] & H); eexists; (split; [done|]); congruence.
  - by rewrite lookup_insert_ne.
Qed.
Lemma on_list_new l d uid a s v u : accounts d !! uid = None -> l a = [] ->
  on_list l (d <| stats ::= s |> <| accounts ::= <[uid := a]> |>) v u <-> on_list l d v u.
Proof.
  intros Ha El. unfold on_list. cbn. destruct (decide (uid = v)) as [->|Hv].
  - rewrite lookup_insert_eq, Ha. split; [|by intros (b & ? & _)]. intros (b & [= <-] & H). rewrite El in H. set_solver.
  - by rewrite lookup_insert_ne.
Qed.
Lemma modify_base d uid a a' :
  registry_base d -> accounts d !! uid = Some a -> a_name a' = a_name a -> (account_ok d a -> account_ok d a') ->
  registry_base (d <| accounts ::= <[uid := a']> |>).
Proof.
  intros [R1 R2 R3] Ha N Hok. split; [done| |].
  - intros v b. cbn. destruct (decide (uid = v)) as [->|Hv].
    + rewrite lookup_insert_eq. intros [= <-]. destruct (R2 _ _ Ha) as [Ho Hs]. split; [|done].
      eapply account_ok_mono, Hok, Ho; [apply insert_exists|done].
    + rewrite lookup_insert_ne by done. intros Hb. destruct (R2 _ _ Hb) as [Ho Hs]. split; [|done].
      eapply account_ok_mono, Ho; [apply insert_exists|done].
  - intros v w b c. cbn. rewrite !lookup_insert_Some. intros [[<- <-]|[_ Hb]] [[<- <-]|[_ Hc]] E; [done|..];
      rewrite ?N in E; by eapply R3.
Qed.
Lemma modify_ok d uid a a' :
  registry_ok d -> accounts d !! uid = Some a -> same_identity a a' -> (account_ok d a -> account_ok d a') ->
  registry_ok (d <| accounts ::= <[uid := a']> |>).
Proof.
  intros [R R4 R5] Ha (N & W1 & W2 & B1 & B2) Hok. split; [by eapply modify_base| |];
    intros v w; by rewrite !(on_list_same _ _ _ _ _ _ _ Ha).
Qed.
Lemma modify_account_ok uid f d u d' :
  modify_account uid f d = Ok (u, d') -> registry_ok d ->
  (forall a, accounts d !! uid = Some a -> same_identity a (f a)) ->
  (forall a, accounts d !! uid = Some a -> account_ok d a -> account_ok d (f a)) -> registry_ok d'.
Proof.
  intros H Hd Hi Hok. apply bind_ok in H as (a & Ha%deref_ok & [= _ <-]). eapply modify_ok; eauto.
Qed.
(** Nothing the registry is about changes. *)
Lemma registry_same d d' :
  accounts d' = accounts d -> assets d' = assets d -> stats d' = stats d -> registry_ok d -> registry_ok d'.
Proof.
  intros E1 E2 E3 [[R1 R2 R3] R4 R5]. split; [|unfold on_list in *; by rewrite E1..].
  split; rewrite ?E1, ?E2, ?E3; [done| |done].
  intros uid a Ha. destruct (R2 _ _ Ha) as [Ho Hs]. split; [|done].
  eapply account_ok_mono, Ho; [by rewrite E1|done].
Qed.

(** ** The operations *)
Lemma validated_satisfiable au : validate_new_authority is_valid_uid au = Ok tt -> satisfiable au.
Proof.
  intros H. unfold validate_new_authority in H. inv_ok. bool_to_prop. by split.
Qed.
Lemma verified_names d au : verify_authority_accounts d au = Ok tt -> names_accounts d au.
Proof.
  intros H x Hx. apply bind_ok in H as (u & _ & H%guard_ok_inv).
  rewrite forallb_forall in H. apply list_elem_of_In, H in Hx. destruct (accounts d !! x.1.1); [eauto|done].
Qed.
(** The flat maps of an authority are ordered. *)
Definition authority_typed (au : authority) : Prop := fm_sorted (key_auths au).
Definition optional_typed (au : option authority) : Prop := forall x, au = Some x -> authority_typed x.

Lemma account_create_ok op d u d' :
  validate_account_create is_valid_uid op = Ok tt -> authority_typed (an_active op) -> authority_typed (an_secondary op) ->
  account_create op d = Ok (u, d') -> registry_ok d -> registry_ok d'.
Proof.
  intros Hv Ta Ts H Hd. unfold account_create in H. peel H as d0 Hg. peel H as u0 E0. injection H as _ <-.
  assert (satisfiable (an_owner op) /\ satisfiable (an_active op)) as [So Sa].
  { unfold validate_account_create in Hv. inv_ok. split; by apply validated_satisfiable. }
  destruct u0. assert (names_accounts d (an_owner op) /\ names_accounts d (an_active op) /\
    names_accounts d (an_secondary op) /\ accounts d !! an_uid op = None /\
    forall v b, accounts d !! v = Some b -> a_name b <> an_name op) as (No & Na & Ns & Hnew & Hname).
  { unfold account_create_evaluate in E0. inv_ok. split_and!; [by apply verified_names..| |].
    - by destruct (accounts d !! an_uid op).
    - intros v b Hb. rewrite forallb_forall in E0. apply elem_of_map_to_list, list_elem_of_In, E0 in Hb. by bool_to_prop. }
  assert (forall w, is_Some (accounts d !! w) -> is_Some (<[an_uid op := created_account op d]> (accounts d) !! w)) as Hmono.
  { intros w. apply insert_exists. }
  assert (same_identity new_account (created_account op d <| a_name := a_name new_account |>)) as (_ & W1 & W2 & B1 & B2).
  { unfold created_account. by destruct (_ <=? _). }
  assert (a_name (created_account op d) = an_name op) as En by (unfold created_account; by destruct (_ <=? _)).
  destruct Hd as [[R1 R2 R3] R4 R5]. split; [split; [done| |]| |].
  - intros v b. cbn. rewrite lookup_insert_Some. intros [[<- <-]|[Hne Hb]].
    + split; [|by rewrite lookup_insert_eq]. apply account_ok_mono with d; [done..|].
      unfold created_account. by destruct (_ <=? _); split.
    + destruct (R2 _ _ Hb) as [Ho Hs]. rewrite lookup_insert_ne by done. split; [|done].
      by apply account_ok_mono with d.
  - intros v w b c. cbn. rewrite !lookup_insert_Some. intros [[<- <-]|[_ Hb]] [[<- <-]|[_ Hc]] E; [done|..].
    + destruct (Hname _ _ Hc). congruence.
    + destruct (Hname _ _ Hb). congruence.
    + by eapply R3.
  - intros v w. rewrite !on_list_new by done. apply R4.
  - intros v w. rewrite !on_list_new by done. apply R5.
Qed.
Lemma account_manage_ok op d u d' : account_manage op d = Ok (u, d') -> registry_ok d -> registry_ok d'.
Proof.
  intros H Hd. unfold account_manage in H. peel H as d0 Hg. peel H as u0 E0.
  eapply modify_account_ok; [exact H|exact Hd|done|]. intros a _ [A1 A2 A3 A4]. by split.
Qed.
Lemma update_key_ok op d u d' : account_update_key op d = Ok (u, d') -> registry_ok d -> registry_ok d'.
Proof.
  intros H Hd. unfold account_update_key in H. peel H as d0 Hg. peel H as a Ha. apply deref_ok in Ha.
  peel H as w1 W1. peel H as w2 W2. eapply modify_account_ok; [exact H|exact Hd| |].
  { intros b _. by destruct (uk_update_active op), (uk_update_secondary op). }
  intros b Hb [[O1 O2] (A1 & A2 & A3) [S1 S2] As]. rewrite Ha in Hb. injection Hb as <-.
  assert (forall au w, fm_sorted (key_auths au) -> fm_sorted (key_auths (replace_key op w au))) as Hs.
  { intros au w Hk. by apply fm_set_sorted, fm_erase_sorted. }
  destruct (uk_update_active op), (uk_update_secondary op); split; try done; split_and!; try done;
    try (by apply Hs); by apply replace_key_satisfiable.
Qed.
Lemma set_platforms_same uid au other active d u d' :
  set_platforms_active uid au other active d = Ok (u, d') -> registry_ok d ->
  registry_ok d' /\ accounts d' = accounts d.
Proof.
  unfold set_platforms_active. revert d. induction (account_uid_auths au) as [|x l IH]; cbn [mfor]; intros d H Hd.
  { by injection H as _ <-. }
  step H as u1 d1 H1. peel H1 as d0 Hg.
  assert (registry_ok d1 /\ accounts d1 = accounts d) as [Hd1 <-]; [|by apply IH].
  destruct (_ && _); injection H1 as _ <-; [|done]. split; [|done]. by eapply registry_same, Hd.
Qed.
Lemma optional_verified d au : verify_optional d au = Ok tt -> forall x, au = Some x -> names_accounts d x.
Proof. intros H x ->. by apply verified_names. Qed.
Lemma optional_validated au : validate_optional_authority is_valid_uid au = Ok tt -> forall x, au = Some x -> satisfiable x.
Proof. intros H x ->. by apply validated_satisfiable. Qed.
Lemma update_auth_ok op d u d' :
  validate_update_auth is_valid_uid special_account op = Ok tt -> optional_typed (ua_active op) ->
  optional_typed (ua_secondary op) -> account_update_auth op d = Ok (u, d') -> registry_ok d -> registry_ok d'.
Proof.
  intros Hv Ta Ts H Hd. unfold account_update_auth in H. peel H as d0 Hg. peel H as u1 V1. peel H as u2 V2.
  peel H as u3 V3. peel H as a Ha. destruct u1, u2, u3. step H as u4 d1 H1.
  assert (registry_ok d1 /\ accounts d1 = accounts d) as [Hd1 Ea].
  { destruct (ua_secondary op) as [s|]; [|by injection H1 as _ <-]. step H1 as u5 d2 H2.
    destruct (set_platforms_same _ _ _ _ _ _ _ H2 Hd) as [Hd2 <-]. by eapply set_platforms_same. }
  assert ((forall x, ua_owner op = Some x -> satisfiable x) /\ (forall x, ua_active op = Some x -> satisfiable x)) as [So Sa].
  { unfold validate_update_auth in Hv. inv_ok. split; by apply optional_validated. }
  pose proof (optional_verified _ _ V1) as N1. pose proof (optional_verified _ _ V2) as N2.
  pose proof (optional_verified _ _ V3) as N3. assert (forall x, names_accounts d x -> names_accounts d1 x) as Hn.
  { intros x. apply names_accounts_mono. by rewrite Ea. }
  eapply modify_account_ok; [exact H|exact Hd1|done|]. intros b _ [[O1 O2] (A1 & A2 & A3) [S1 S2] As].
  split; cbn; [destruct (ua_owner op)|destruct (ua_active op)|destruct (ua_secondary op)|]; cbn; auto;
    split_and!; auto; first [by apply Ta|by apply Ts].
Qed.

Lemma auth_platform_ok op d u d' : account_auth_platform op d = Ok (u, d') -> registry_ok d -> registry_ok d'.
Proof.
  intros H Hd. unfold account_auth_platform in H. peel H as d0 Hg. peel H as a Ha. step H as u1 d1 H1. injection H as _ <-.
  assert (registry_ok d1) as Hd1; [|by eapply registry_same, Hd1].
  assert (accounts d !! ap_uid op = Some a /\ names_accounts d (add_platform (ap_platform op) (a_secondary a))) as [Hb Hn].
  { unfold auth_platform_evaluate, get_account_by_uid in Ha. inv_ok. split; [done|]. by apply verified_names. }
  destruct (negb _); [|by injection H1 as _ <-]. eapply modify_account_ok; [exact H1|exact Hd|done|].
  intros b Hb' [O A [S1 S2] As]. rewrite Hb in Hb'. injection Hb' as <-. by split.
Qed.
Lemma cancel_auth_ok uid p d u d' : account_cancel_auth_platform uid p d = Ok (u, d') -> registry_ok d -> registry_ok d'.
Proof.
  intros H Hd. unfold account_cancel_auth_platform in H. peel H as d0 Hg. peel H as u1 E1. peel H as a Ha. cbv zeta in H.
  peel H as u2 E2. step H as u3 d1 H1. injection H as _ <-. assert (registry_ok d1) as Hd1; [|by eapply registry_same, Hd1].
  destruct (has_platform a p); [|by injection H1 as _ <-]. eapply modify_account_ok; [exact H1|exact Hd|done|].
  intros b _ [O A [S1 S2] As]. split; [done..| |done]. split; [|done]. intros x Hx%fm_erase_in. by apply S1.
Qed.
Lemma enable_assets_ok uid e d u d' : account_enable_allowed_assets uid e d = Ok (u, d') -> registry_ok d -> registry_ok d'.
Proof.
  intros H Hd. unfold account_enable_allowed_assets in H. peel H as d0 Hg. peel H as u1 E1. peel H as a Ha. peel H as u2 E2.
  eapply modify_account_ok; [exact H|exact Hd|done|]. intros b _ [O A S As]. split; [done..|]. cbn.
  destruct (allowed_assets b); [done|]. intros s [= <-]. split; [set_solver|].
  intros aid ->%elem_of_singleton. apply Hd.
Qed.
Lemma update_assets_ok op d u d' :
  validate_update_allowed_assets is_valid_uid special_account op = Ok tt ->
  account_update_allowed_assets op d = Ok (u, d') -> registry_ok d -> registry_ok d'.
Proof.
  intros Hv H Hd. unfold account_update_allowed_assets in H. peel H as d0 Hg. peel H as u1 E1. peel H as a Ha.
  apply deref_ok in Ha. peel H as old Hs. apply deref_ok in Hs. peel H as u2 E2. peel H as u3 E3.
  assert (CORE_ASSET_AID ∉ al_remove op) as Hcore by (unfold validate_update_allowed_assets in Hv; inv_ok; by bool_to_prop).
  eapply modify_account_ok; [exact H|exact Hd|done|]. intros b Hb [O A S As]. split; [done..|]. cbn.
  rewrite Ha in Hb. injection Hb as <-. intros s' [= <-]. destruct (As _ Hs) as [A1 A2]. split.
  - apply elem_of_union_l, elem_of_difference. split; [done|]. by rewrite elem_of_list_to_set.
  - intros aid [[Hin _]%elem_of_difference|Hin%elem_of_list_to_set]%elem_of_union; [by apply A2|].
    rewrite forallb_forall in E3. apply list_elem_of_In, E3 in Hin. bool_to_prop. by destruct (assets d !! aid).
Qed.

(** ** White and black lists *)
Lemma elem_of_list_if w u l x : x ∈ list_if w u l <-> (x = u /\ w = true) \/ (x <> u /\ x ∈ l).
Proof.
  unfold list_if. destruct w.
  - rewrite elem_of_fs_insert. destruct (decide (x = u)); naive_solver.
  - rewrite list_elem_of_filter. naive_solver.
Qed.
(** On the list [l] of account [v], only whether [u] is on it changes. *)
Lemma change_list l d v u w b b' y x : accounts d !! v = Some b -> l b' = list_if w u (l b) ->
  on_list l (d <| accounts ::= <[v := b']> |>) y x <->
  (y = v /\ x = u /\ w = true) \/ (~ (y = v /\ x = u) /\ on_list l d y x).
Proof.
  intros Hb El. unfold on_list. cbn. destruct (decide (y = v)) as [->|Hv].
  - rewrite lookup_insert_eq, Hb. split.
    + intros (? & [= <-] & H). rewrite El in H. apply elem_of_list_if in H as [[-> ->]|[? ?]]; [by left|right].
      split; [tauto|eauto].
    + intros H. eexists. split; [done|]. rewrite El. apply elem_of_list_if. naive_solver.
  - rewrite lookup_insert_ne by done. naive_solver.
Qed.
Lemma whitelist_ok op d u d' : account_whitelist op d = Ok (u, d') -> registry_ok d -> registry_ok d'.
Proof.
  intros H [R R4 R5]. unfold account_whitelist in H. peel H as d0 Hg. cbv zeta in H. step H as u1 d1 H1.
  assert (d1 = d) as ->.
  { destruct (negb _); [|by injection H1 as _ <-]. peel H1 as a0 Ha0. by injection H1 as _ <-. }
  peel H as a1 Ha1. step H as u2 d2 H2. apply bind_ok in H2 as (b & Hb%deref_ok & [= _ <-]).
  apply bind_ok in H as (a & Ha%deref_ok & [= _ <-]). clear a1 Ha1.
  set (v := aw_account_to_list op) in *. set (w := aw_authorizing_account op) in *.
  match goal with |- context [<[v := ?x]>] => set (b' := x) in * end.
  match goal with |- context [<[w := ?x]>] => set (a' := x) in * end.
  assert (registry_base (d <| accounts ::= <[v := b']> |>)) as R2.
  { eapply modify_base; [exact R|exact Hb|done|]. intros []. by split. }
  split.
  - eapply modify_base; [exact R2|exact Ha|done|]. intros []. by split.
  - intros x y. rewrite (on_list_same whitelisting_accounts _ _ _ a' _ _ Ha eq_refl).
    rewrite (change_list whitelisting_accounts d v w (Z.testbit (aw_new_listing op) 0) b b' _ _ Hb eq_refl).
    rewrite (change_list whitelisted_accounts _ w v (Z.testbit (aw_new_listing op) 0) a a' _ _ Ha eq_refl).
    rewrite (on_list_same whitelisted_accounts _ _ _ b' _ _ Hb eq_refl), R4. naive_solver.
  - intros x y. rewrite (on_list_same blacklisting_accounts _ _ _ a' _ _ Ha eq_refl).
    rewrite (change_list blacklisting_accounts d v w (Z.testbit (aw_new_listing op) 1) b b' _ _ Hb eq_refl).
    rewrite (change_list blacklisted_accounts _ w v (Z.testbit (aw_new_listing op) 1) a a' _ _ Ha eq_refl).
    rewrite (on_list_same blacklisted_accounts _ _ _ b' _ _ Hb eq_refl), R5. naive_solver.
Qed.
End registry.

(** ** Any operations on accounts *)
Module account_ops.
Inductive account_operation :=
| create_op (op : account_create_operation)
| manage_op (op : account_manage_operation)
| update_key_op (op : account_update_key_operation)
| update_auth_op (op : account_update_auth_operation)
| auth_platform_op (op : account_auth_platform_operation)
| cancel_auth_platform_op (uid platform : Z)
| enable_allowed_assets_op (uid : Z) (enable : bool)
| update_allowed_assets_op (op : account_update_allowed_assets_operation)
| whitelist_op (op : account_whitelist_operation).

Section steps.
Context {C : ChainConfig}.
Variables (is_valid_uid : Z -> bool) (special_account : Z -> bool).
Definition validate_op (o : account_operation) : result unit :=
  match o with
  | create_op op => validate_account_create is_valid_uid op
  | manage_op op => validate_account_manage is_valid_uid op
  | update_key_op op => validate_update_key is_valid_uid op
  | update_auth_op op => validate_update_auth is_valid_uid special_account op
  | auth_platform_op op => validate_auth_platform is_valid_uid special_account (ap_uid op) (ap_platform op)
  | cancel_auth_platform_op uid platform => validate_auth_platform is_valid_uid special_account uid platform
  | enable_allowed_assets_op uid _ => validate_enable_allowed_assets is_valid_uid special_account uid
  | update_allowed_assets_op op => validate_update_allowed_assets is_valid_uid special_account op
  | whitelist_op op => validate_whitelist op
  end.
(** The authorities of the operation are ordered maps. *)
Definition typed_op (o : account_operation) : Prop :=
  match o with
  | create_op op => authority_typed (an_active op) /\ authority_typed (an_secondary op)
  | update_auth_op op => optional_typed (ua_active op) /\ optional_typed (ua_secondary op)
  | _ => True
  end.
Definition execute_op (o : account_operation) : M database unit :=
  match o with
  | create_op op => account_create op
  | manage_op op => account_manage op
  | update_key_op op => account_update_key op
  | update_auth_op op => account_update_auth op
  | auth_platform_op op => account_auth_platform op
  | cancel_auth_platform_op uid platform => account_cancel_auth_platform uid platform
  | enable_allowed_assets_op uid enable => account_enable_allowed_assets uid enable
  | update_allowed_assets_op op => account_update_allowed_assets op
  | whitelist_op op => account_whitelist op
  end.
Inductive account_step (d d' : database) : Prop :=
| account_step_op o : validate_op o = Ok tt -> typed_op o -> execute_op o d = Ok (tt, d') -> account_step d d'.
Lemma account_step_ok d d' : account_step d d' -> registry_ok d -> registry_ok d'.
Proof.
  intros [o Hv Ht H]. destruct o; cbn in *.
  - destruct Ht. by eapply account_create_ok.
  - by eapply account_manage_ok.
  - by eapply update_key_ok.
  - destruct Ht. by eapply update_auth_ok.
  - by eapply auth_platform_ok.
  - by eapply cancel_auth_ok.
  - by eapply enable_assets_ok.
  - by eapply update_assets_ok.
  - by eapply whitelist_ok.
Qed.
End steps.
End account_ops.
Import account_ops.

(** C22. The registry of accounts stays sound.  Along any validated operations on
    accounts, every account has statistics, no two accounts have the same name,
    nobody is locked out of an owner or active authority (some signatures can meet
    it), authorities name accounts that exist, an account that accepts only
    some assets accepts the core asset, and the lists of who listed an account
    agree with the lists of whom an account listed. *)
Theorem registry_stays_sound {C : ChainConfig} (is_valid_uid special_account : Z -> bool) (d d' : database) :
  rtc (account_step is_valid_uid special_account) d d' -> registry_ok d -> registry_ok d'.
Proof. induction 1 as [|d1 d2 d3 Hs _ IH]; [done|]. eauto using account_step_ok. Qed.

(** Account 1 registers account 100000000, which changes a key, has account 1
    as platform for a while and lists it. *)
Definition one_key (k : Z) : authority := Authority 1 [] [(k, 1)].
Definition ex_registrar : account_object :=
  new_account <| a_name := "ann"%string |> <| a_owner := one_key 11 |> <| a_active := one_key 12 |>
    <| a_secondary := one_key 13 |> <| is_registrar := true |>.
Definition ex_registry : database :=
  sample_db <| accounts := {[ 1 := ex_registrar ]} |> <| stats := {[ 1 := new_account_statistics ]} |>
    <| assets := {[ 0 := new_asset ]} |>.
Definition ex_uid : Z := 100000000.
Definition ex_bob : account_create_operation :=
  {| an_uid := ex_uid; an_name := "bob"%string; an_owner := one_key 21; an_active := one_key 22;
     an_secondary := one_key 23; an_memo_key := 24;
     an_reg_info := {| ri_registrar := 1; ri_referrer := 1; ri_registrar_percent := 5000; ri_referrer_percent := 5000;
       ri_allowance_per_article := Asset 0 0; ri_max_share_per_article := Asset 0 0; ri_max_share_total := Asset 0 0;
       ri_buyout_percent := 10000 |} |}.
Definition ex_ops : list account_operation :=
  [ create_op ex_bob;
    update_key_op {| uk_fee_paying_account := 1; uk_uid := ex_uid; uk_old_key := 22; uk_new_key := 32;
                     uk_update_active := true; uk_update_secondary := false |};
    auth_platform_op {| ap_uid := ex_uid; ap_platform := 1; ap_extensions := Some
      {| px_limit_for_platform := Some 100; px_permission_flags := None; px_memo := None |} |};
    cancel_auth_platform_op ex_uid 1;
    enable_allowed_assets_op ex_uid true;
    whitelist_op {| aw_fee := Asset 0 0; aw_authorizing_account := ex_uid; aw_account_to_list := 1; aw_new_listing := 1 |} ].
Definition any_uid : Z -> bool := fun _ => true.
Definition no_uid : Z -> bool := fun _ => false.
Fixpoint run_ops {C : ChainConfig} (os : list account_operation) (d : database) : result database :=
  match os with
  | [] => Ok d
  | o :: os' => '(_, d1) ← execute_op o d; run_ops os' d1
  end.
Lemma run_ops_steps {C : ChainConfig} valid special os d d' :
  Forall (fun o => validate_op valid special o = Ok tt /\ typed_op o) os -> run_ops os d = Ok d' ->
  rtc (account_step valid special) d d'.
Proof.
  intros Ho. revert d. induction Ho as [|o os [Hv Ht] _ IH]; intros d H; [injection H as <-; done|].
  cbn in H. apply bind_ok in H as ([u d1] & H1 & H). destruct u. eapply rtc_l; [|by apply IH].
  by apply account_step_op with o.
Qed.
Lemma ex_registry_ok : registry_ok ex_registry.
Proof.
  assert (forall u a, accounts ex_registry !! u = Some a -> u = 1 /\ a = ex_registrar) as Ha.
  { intros u a H. change (({[1 := ex_registrar]} : gmap Z account_object) !! u = Some a) in H.
    by apply lookup_singleton_Some in H as [-> ->]. }
  assert (forall l v u, l ex_registrar = [] -> ~ on_list l ex_registry v u) as Hl.
  { intros l v u El (a & [-> ->]%Ha & H). rewrite El in H. set_solver. }
  split; [split| |].
  - by eexists.
  - intros u a [-> ->]%Ha. split; [|by eexists]. split; repeat split; try done; intros x Hx; set_solver.
  - by intros u v a b [-> ->]%Ha [-> ->]%Ha.
  - intros u v. split; intros H; by apply Hl in H.
  - intros u v. split; intros H; by apply Hl in H.
Qed.
Lemma registry_stays_sound_witness :
  exists d', @run_ops no_proxy ex_ops ex_registry = Ok d' /\
    (exists a, accounts d' !! ex_uid = Some a /\ key_auths (a_active a) = [(32, 1)] /\ whitelisted_accounts a = [1]) /\
    registry_ok d'.
Proof.
  destruct (@run_ops no_proxy ex_ops ex_registry) as [d'|e] eqn:E; [|exfalso; vm_compute in E; discriminate E].
  exists d'. split; [reflexivity|]. split.
  { change d' with (match Ok d' with Ok x => x | Throw _ => d' end). rewrite <- E. eexists. by vm_compute. }
  apply (@registry_stays_sound no_proxy any_uid no_uid ex_registry d'); [|exact ex_registry_ok].
  eapply run_ops_steps, E. repeat constructor.
Defined.

(** Listing an account that does not exist dereferences a null pointer. *)
Example whitelist_unknown :
  account_whitelist {| aw_fee := Asset 0 0; aw_authorizing_account := 1; aw_account_to_list := 7; aw_new_listing := 1 |}
    ex_registry = Throw undefined_behaviour.
Proof. by vm_compute. Qed.
(** An authority that needs the platform cannot be met once the platform is dropped. *)
Example secondary_locked_out :
  is_impossible (Authority 2 [(platform_auth 1, 1)] [(13, 1)]) = false /\
  is_impossible (drop_platform 1 (Authority 2 [(platform_auth 1, 1)] [(13, 1)])) = true.
Proof. by vm_compute. Qed.
(** A platform gets the weight the threshold has in 16 bits, which may be none. *)
Example platform_weightless :
  account_uid_auths (add_platform 1 (Authority 65536 [] [(13, 65535); (14, 1)])) = [(platform_auth 1, 0)].
Proof. by vm_compute. Qed.
