(* ===== verification/CommitteeProof.v ===== *)
(** * What proposals of the committee change

    Frames of the execution of a proposal: the coins of the chain, and the
    proposals themselves. *)
From S2P Require Import Prelude Keep FlatMap FcInt Asset Pledge ChainState.
From S2P Require Import AccountStats Voter Voting Balance Payroll Mining BlockUpdate.
From S2P Require Import WitnessOps Committee MapSum Frame Ledger Market MarketProof.
From S2P Require Import Treasury TreasuryProof MiningProof Books SupplySteps BlockProof SupplyBlock.
Local Open Scope Z_scope.
Import asset pledge chain acc voter voting balance payroll mining updates committee.

(** Whether [m] throws or not, [p] is what it was. *)
Notation stays p m := (forall x, leads (fun d => p d = x) (fun d => p d = x) m).

Lemma stays_call {X A} (p : database -> X) (m : M database A) : keeps p m -> stays p (call m).
Proof. intros Hm x. apply holds_call. intros d a d' H <-. by eapply Hm. Qed.
Lemma stays_upd {X} (p : database -> X) f : (forall d, p (f d) = p d) -> stays p (nupd f).
Proof. intros Hf x. apply holds_upd. by intros d <-. Qed.
Lemma stays_when {X} (p : database -> X) b (m : N database unit) : stays p m -> stays p (nwhen b m).
Proof. intros Hm x. by destruct b; [apply Hm|apply holds_ret]. Qed.
Lemma stays_bind {X A B} (p : database -> X) (m : N database A) (f : A -> N database B) :
  stays p m -> (forall a, stays p (f a)) -> stays p (m ≫= f).
Proof. intros Hm Hf x. apply leads_bind; [apply Hm|]. intros a. apply Hf. Qed.
Lemma stays_get {X} (p : database -> X) : stays p nget.
Proof. by intros x d Hd. Qed.
Lemma stays_lift {X A} (p : database -> X) (r : result A) : stays p (nlift r).
Proof. intros x. apply holds_lift. Qed.
Lemma stays_ret {X A} (p : database -> X) (a : A) : stays p (mret a : N database A).
Proof. intros x. apply holds_ret. Qed.
Lemma stays_for {X A} (p : database -> X) (f : A -> N database unit) l :
  (forall a, stays p (f a)) -> stays p (nfor f l).
Proof. intros Hf x. apply holds_for. intros a. apply Hf. Qed.
Lemma stays_same {X A} (p : database -> X) (m : N database A) d r d' : stays p m -> m d = (r, d') -> p d' = p d.
Proof. intros Hm E. specialize (Hm (p d) d eq_refl). by rewrite E in Hm. Qed.

Ltac stay_step :=
  lazymatch goal with
  | |- stays _ (_ ≫= _) => apply stays_bind; [|intros ?]
  | |- stays _ nget => apply stays_get
  | |- stays _ (nlift _) => apply stays_lift
  | |- stays _ (mret _) => apply stays_ret
  | |- stays _ (nupd _) => apply stays_upd; intros ?; try done
  | |- stays _ (nwhen _ _) => apply stays_when
  | |- stays _ (nfor _ _) => apply stays_for; intros ?
  | |- stays _ (call _) => apply stays_call
  | |- stays _ (match ?x with _ => _ end) => destruct x
  end.
Ltac stay := repeat stay_step.

Lemma books_eq_neutral d d' : books d' = books d -> neutral d d'.
Proof.
  intros H. unfold books in H. repeat (apply pair_equal_spec in H; destruct H as [H ?]). by apply same_neutral.
Qed.

Section committee.
Context {F : FcInt} {FL : FcIntLaws F} {C : ChainConfig}.

(** ** Coins *)
Lemma books_call_pledge id a n : keeps books (_ ← update_pledge_of id a n; mret tt).
Proof. unfold update_pledge_of. keep_books. Qed.
Lemma books_platform_avg owner : keeps books (update_platform_avg_pledge owner).
Proof. unfold update_platform_avg_pledge. keep_books. Qed.
Lemma books_reduce_platform owner id n p : stays books (reduce_platform_pledge owner id n p).
Proof.
  unfold reduce_platform_pledge, close_platform, lower_platform. stay.
  - apply books_call_pledge.
  - apply books_platform_avg.
Qed.
Lemma books_set_priviledges x : stays books (set_priviledges x).
Proof.
  unfold set_priviledges. stay; [apply keeps_invalidate_voter, _|]. keep_books.
Qed.
Lemma books_carry_out pl : stays books (carry_out pl).
Proof.
  unfold carry_out. stay; [apply books_set_priviledges|].
  by destruct (pl_fees pl), (pl_parameters pl), (pl_extension pl).
Qed.

Definition is_withdrawal (item : committee_proposal_item_type) : bool :=
  match item with committee_withdraw_platform_pledge_item _ _ _ => true | _ => false end.
Definition no_withdrawals (l : list committee_proposal_item_type) : Prop :=
  Forall (fun item => is_withdrawal item = false) l.
Lemma books_plan_items pl items : no_withdrawals items -> stays books (nfold plan_item pl items).
Proof.
  intros Hi. revert pl. induction Hi as [|item items Hw _ IH]; intros pl; cbn [nfold]; [apply stays_ret|].
  apply stays_bind; [|intros pl'; apply IH]. destruct item; cbn [plan_item]; try done; stay.
Qed.
Lemma books_execute num silent d p :
  committee_proposals d !! num = Some p -> no_withdrawals (items p) ->
  books (execute_committee_proposal num silent d).2 = books d.
Proof.
  intros Hp Hi. unfold execute_committee_proposal.
  unfold mbind at 1, N_bind at 1, nget at 1, mbind at 1, N_bind at 1, nlift at 1. rewrite Hp. cbn [deref].
  assert (stays books (execute_items num p)) as H1.
  { unfold execute_items. stay; [exact (books_plan_items _ _ Hi)|apply books_carry_out]. }
  assert (stays books (postpone num p)) as H2 by (unfold postpone; stay).
  unfold ntry. destruct (execute_items num p d) as [[u|e] d1] eqn:E; [exact (stays_same _ _ _ _ _ H1 E)|].
  rewrite <- (stays_same _ _ _ _ _ H1 E). destruct silent; [by apply H2|done].
Qed.

(** A withdrawal credits the receiver and debits nobody. *)
Lemma withdraw_effect owner receiver amt d d' s id p :
  stats d !! owner = Some s -> pledge_id Platform s = Some id -> pledge_balances d !! id = Some p ->
  withdraw_platform_pledge owner receiver amt d = (Ok tt, d') ->
  exists d1, books d1 = books d /\
    adjust_balance receiver (Asset (Z.min (pledge p + total_releasing_pledge p) amt) CORE_ASSET_AID) d1 = Ok (tt, d').
Proof.
  intros Hs Hid Hp H. unfold withdraw_platform_pledge in H. unfold mbind at 1, N_bind at 1, nget at 1 in H.
  unfold get_account_statistics_by_uid in H. rewrite Hs in H.
  unfold mbind at 1, N_bind at 1, nlift at 1 in H. cbn [deref] in H. rewrite Hid in H.
  unfold get_pledge_balance_object in H. rewrite Hp in H.
  unfold mbind at 1, N_bind at 1, nlift at 1 in H. cbn [deref] in H.
  unfold mbind at 1, N_bind at 1, nlift at 1 in H.
  destruct (total_unrelease_pledge p) as [t|e] eqn:Et; [|done]. apply safe_add_ok in Et as [-> _]. cbv zeta in H.
  replace (Z.min _ amt <=? _) with true in H by (symmetry; apply Z.leb_le; lia). cbn [nwhen] in H.
  unfold mbind, N_bind in H. destruct (reduce_platform_pledge owner id _ p d) as [[u|e] d1] eqn:E1; [|done].
  unfold call in H. destruct (adjust_balance receiver _ d1) as [[u2 d2]|e] eqn:E2; [|done]. injection H as _ <-.
  destruct u2. exists d1. split; [exact (stays_same _ _ _ _ _ (books_reduce_platform _ _ _ _) E1)|exact E2].
Qed.
End committee.

(** ** Approval *)
(** The members of the committee that are for a proposal. *)
Definition in_favour (committee : list Z) (m : flat_map Z voting_opinion_type) : Z :=
  size_of (filter (fun u => fm_find u m = Some opinion_for) committee).
(** Only members have opinions; the proposal is approved exactly when the share
    of the committee in favour reaches what its items require. *)
Record proposal_ok (committee : list Z) (p : committee_proposal_object) : Prop := {
  po_sorted : fm_sorted (opinions p);
  po_members x : x ∈ opinions p -> x.1 ∈ committee;
  po_threshold : exists hf, approve_threshold p = get_approve_threshold hf (items p);
  po_approved : is_approved p =
    (approve_threshold p <=? in_favour committee (opinions p) * PERCENT_100 / size_of committee);
}.
(** [committee_size] is an 8-bit integer. *)
Record council_ok (ps : gmap Z committee_proposal_object) (committee : list Z) (size : Z) : Prop := {
  co_size : 0 <= size < 2 ^ 8;
  co_sorted : fs_sorted committee;
  co_length : size_of committee < 2 ^ 8;
  co_proposals num p : ps !! num = Some p -> proposal_ok committee p;
}.
Definition council (d : database) := (committee_proposals d, active_committee_members d, committee_size (params d)).
Definition committee_ok (d : database) : Prop :=
  council_ok (committee_proposals d) (active_committee_members d) (committee_size (params d)).

Lemma committee_ok_same d d' : council d' = council d -> committee_ok d -> committee_ok d'.
Proof. unfold council, committee_ok. by intros [= -> -> ->]. Qed.

Definition supporters (m : flat_map Z voting_opinion_type) : list (Z * voting_opinion_type) :=
  filter (fun x => x.2 = opinion_for) m.
Lemma supporters_cons x m :
  supporters (x :: m) = if bool_decide (x.2 = opinion_for) then x :: supporters m else supporters m.
Proof. unfold supporters. rewrite filter_cons. by repeat case_match; case_bool_decide. Qed.
(** Up to 255 votes the 8-bit counter is exact. *)
Lemma yeses_supporters m n :
  0 <= n -> n + size_of (supporters m) < 2 ^ 8 ->
  foldl (fun n x => if bool_decide (x.2 = opinion_for) then (n + 1) mod 2 ^ 8 else n) n m =
  n + size_of (supporters m).
Proof.
  revert n. induction m as [|x m IH]; intros n H0; [unfold size_of; cbn; lia|].
  cbn [foldl]. rewrite supporters_cons. destruct (bool_decide _); [|by apply IH].
  intros Hb. unfold size_of in *. cbn [length] in *. rewrite Z.mod_small, IH by lia. lia.
Qed.
Lemma yeses_count committee m :
  fm_sorted m -> NoDup committee -> size_of committee < 2 ^ 8 -> (forall x, x ∈ m -> x.1 ∈ committee) ->
  yeses m = in_favour committee m.
Proof.
  intros Hs Hn Hl Hm. pose proof (fm_sorted_nodup _ Hs) as Hk.
  assert (filter (fun u => fm_find u m = Some opinion_for) committee ≡ₚ (supporters m).*1) as Hp.
  { apply NoDup_Permutation; [by apply NoDup_filter| |].
    - apply NoDup_fmap_2_strong; [|by apply NoDup_filter, (NoDup_fmap_1 fst)].
      intros [u o] [u' o'] [Ho _]%list_elem_of_filter [Ho' _]%list_elem_of_filter E. cbn in *. congruence.
    - intros u. rewrite list_elem_of_filter, list_elem_of_fmap. split.
      + intros [Hf%fm_find_Some _]; [|done]. exists (u, opinion_for). unfold supporters. by rewrite list_elem_of_filter.
      + intros ([u' o] & -> & [Ho Hx]%list_elem_of_filter). cbn in *. subst o. split; [|by apply (Hm _ Hx)].
        by apply fm_find_Some. }
  assert (length (supporters m) <= length committee)%nat as Hle.
  { rewrite <- (length_fmap fst), <- Hp. apply length_filter. }
  unfold in_favour, yeses, size_of in *. rewrite Hp, length_fmap, yeses_supporters; unfold size_of; lia.
Qed.

Section approval.
Context {F : FcInt} {C : ChainConfig}.

(** ** The council along an execution *)
#[export] Instance council_money : MoneyFrame council.
Proof. split; [by split|done..]. Qed.
Lemma council_update_pledge_of id a n : keeps council (_ ← update_pledge_of id a n; mret tt).
Proof. unfold update_pledge_of. keep. by intros d u d' [= _ <-]. Qed.
Lemma council_platform_avg owner : keeps council (update_platform_avg_pledge owner).
Proof. unfold update_platform_avg_pledge. keep. by intros d u d' [= _ <-]. Qed.
Lemma council_withdraw owner receiver amt : stays council (withdraw_platform_pledge owner receiver amt).
Proof.
  unfold withdraw_platform_pledge, reduce_platform_pledge, close_platform, lower_platform. stay.
  - apply council_update_pledge_of.
  - apply council_platform_avg.
  - apply keeps_adjust_balance, _.
Qed.
Lemma council_plan_items pl l : stays council (nfold plan_item pl l).
Proof.
  revert pl. induction l as [|item l IH]; intros pl; cbn [nfold]; [apply stays_ret|].
  apply stays_bind; [|intros pl'; apply IH]. destruct item; cbn [plan_item]; stay. apply council_withdraw.
Qed.
Lemma council_carry_out pl : stays council (carry_out pl).
Proof.
  unfold carry_out, set_priviledges. stay.
  - apply keeps_invalidate_voter, _.
  - apply keeps_modify_stats, _.
  - by destruct (pl_fees pl), (pl_parameters pl), (pl_extension pl).
Qed.

Lemma council_ok_delete ps c n num : council_ok ps c n -> council_ok (delete num ps) c n.
Proof.
  intros [H1 H2 H3 H4]. split; [done..|]. intros i p [_ Hp]%lookup_delete_Some. by eapply H4.
Qed.
Lemma council_ok_insert ps c n num p : council_ok ps c n -> proposal_ok c p -> council_ok (<[num := p]> ps) c n.
Proof.
  intros [H1 H2 H3 H4] Hp. split; [done..|]. intros i q [[_ <-]|[_ Hq]]%lookup_insert_Some; [done|by eapply H4].
Qed.
Lemma members_execute_items num p : stays active_committee_members (execute_items num p).
Proof.
  intros x. unfold execute_items. apply leads_bind; [by intros d|]. intros d0.
  apply leads_bind; [apply holds_lift|]. intros _. apply leads_bind; [apply holds_lift|]. intros _.
  apply leads_bind; [intros d <-; exact (f_equal (fun x => x.1.2) (council_plan_items _ _ _ d eq_refl))|].
  intros pl. apply leads_bind; [intros d <-; exact (f_equal (fun x => x.1.2) (council_carry_out _ _ d eq_refl))|].
  intros _. by apply holds_upd.
Qed.
(** Executing a proposal, as a property [P] of the council sees it. *)
Section execution.
Variable P : database -> Prop.
Hypothesis P_same : forall d d', council d' = council d -> P d -> P d'.
Hypothesis P_delete : forall num d, P d -> P (d <| committee_proposals ::= delete num |>).
Hypothesis P_postpone : forall num p d d1,
  P d -> committee_proposals d !! num = Some p -> P d1 -> active_committee_members d1 = active_committee_members d ->
  P (d1 <| committee_proposals ::= <[num := p <| execution_block_num := expiration_block_num p |>]> |>).

Lemma holds_stays {A} (m : N database A) : stays council m -> holds P m.
Proof using P_same. intros Hm d Hd. eapply P_same, Hd. exact (Hm _ d eq_refl). Qed.
Lemma holds_execute_items num p : holds P (execute_items num p).
Proof using P_same P_delete.
  unfold execute_items. apply leads_bind; [apply holds_stays, stays_get|]. intros d0.
  apply leads_bind; [apply holds_lift|]. intros _. apply leads_bind; [apply holds_lift|]. intros _.
  apply leads_bind; [apply holds_stays, council_plan_items|]. intros pl.
  apply leads_bind; [apply holds_stays, council_carry_out|]. intros _. apply holds_upd. intros d. apply P_delete.
Qed.
Lemma holds_execute_proposal num silent : holds P (execute_committee_proposal num silent).
Proof using P_same P_delete P_postpone.
  intros d Hd. unfold execute_committee_proposal.
  unfold mbind at 1, N_bind at 1, nget at 1, mbind at 1, N_bind at 1, nlift at 1.
  destruct (committee_proposals d !! num) as [p|] eqn:Hp; cbn [deref]; [|done].
  pose proof (holds_execute_items num p d Hd) as H1. unfold ntry.
  destruct (execute_items num p d) as [[u|e] d1] eqn:E; [done|]. destruct silent; [|done].
  unfold postpone, mbind, N_bind, nget. destruct (_ || _); [by apply P_delete|].
  apply (P_postpone _ _ d); [done..|]. exact (stays_same _ _ _ _ _ (members_execute_items num p) E).
Qed.
Lemma holds_execute_proposals : holds P execute_committee_proposals.
Proof using P_same P_delete P_postpone.
  unfold execute_committee_proposals. apply leads_bind; [by intros d|]. intros d0.
  apply holds_for. intros x. apply holds_execute_proposal.
Qed.
Lemma execute_if_due_holds num d u d' : execute_if_due num d = Ok (u, d') -> P d -> P d'.
Proof using P_same P_delete P_postpone.
  intros H Hd. unfold execute_if_due in H. peel H as d0 Hg. peel H as p Hp. unfold when in H.
  destruct (_ && _); [|by injection H as _ <-]. apply in_operation_ok in H.
  pose proof (holds_execute_proposal num false d Hd) as Ho. by rewrite H in Ho.
Qed.
End execution.

(** *** Approval *)
Lemma ok_postpone num p d d1 :
  committee_ok d -> committee_proposals d !! num = Some p -> committee_ok d1 ->
  active_committee_members d1 = active_committee_members d ->
  committee_ok (d1 <| committee_proposals ::= <[num := p <| execution_block_num := expiration_block_num p |>]> |>).
Proof.
  intros Hd Hp H1 Ha. destruct (co_proposals _ _ _ Hd num p Hp) as [P1 P2 P3 P4]. apply council_ok_insert; [done|].
  change (proposal_ok (active_committee_members d1) (p <| execution_block_num := expiration_block_num p |>)).
  rewrite Ha. by split.
Qed.
Lemma ok_delete num d : committee_ok d -> committee_ok (d <| committee_proposals ::= delete num |>).
Proof. apply council_ok_delete. Qed.
Lemma execute_proposals_ok : holds committee_ok execute_committee_proposals.
Proof. exact (holds_execute_proposals _ committee_ok_same ok_delete ok_postpone). Qed.
Lemma execute_if_due_ok num d u d' : execute_if_due num d = Ok (u, d') -> committee_ok d -> committee_ok d'.
Proof. exact (execute_if_due_holds _ committee_ok_same ok_delete ok_postpone num d u d'). Qed.

(** ** Opinions *)
Lemma size_of_pos {A} (x : A) l : x ∈ l -> 0 < size_of l.
Proof. intros Hx. unfold size_of. destruct l; [by apply elem_of_nil in Hx|cbn; lia]. Qed.
Lemma nobody_filtered {A} (P : A -> Prop) `{!forall x, Decision (P x)} l : (forall x, ~ P x) -> filter P l = [].
Proof. intros HP. induction l as [|x l IH]; [done|]. by rewrite filter_cons_False. Qed.
Lemma in_favour_single c u o :
  NoDup c -> u ∈ c -> in_favour c [(u, o)] = if bool_decide (o = opinion_for) then 1 else 0.
Proof.
  intros Hc Hu. unfold in_favour.
  assert (forall v, fm_find v [(u, o)] = Some opinion_for <-> v = u /\ o = opinion_for) as Hf.
  { intros v. rewrite fm_find_Some by (split; [constructor|done]). rewrite list_elem_of_singleton. naive_solver. }
  case_bool_decide as Ho.
  - assert (filter (fun v => fm_find v [(u, o)] = Some opinion_for) c ≡ₚ [u]) as Hp.
    { apply NoDup_Permutation; [by apply NoDup_filter|apply NoDup_singleton|]. intros v.
      rewrite list_elem_of_filter, Hf, list_elem_of_singleton. naive_solver. }
    unfold size_of. by rewrite Hp.
  - rewrite nobody_filtered; [done|]. intros v. rewrite Hf. naive_solver.
Qed.
Lemma new_proposal_ok op d :
  committee_ok d -> cp_proposer op ∈ active_committee_members d ->
  proposal_ok (active_committee_members d) (new_proposal op d).
Proof.
  intros Hd Hu. pose proof (fs_sorted_nodup _ (co_sorted _ _ _ Hd)) as Hn. pose proof (size_of_pos _ _ Hu) as Hsz.
  set (c := active_committee_members d) in *.
  assert (0 <= PERCENT_100 / size_of c < 2 ^ 16) as Hq.
  { split; [apply Z.div_pos; lia|]. apply Z.div_lt_upper_bound; nia. }
  split; cbn.
  - destruct (cp_proposer_opinion op); cbn; [split; [constructor|done]|done].
  - intros x. destruct (cp_proposer_opinion op); [|intros []%elem_of_nil]. by intros ->%list_elem_of_singleton.
  - by eexists.
  - f_equal. destruct (cp_proposer_opinion op) as [o|]; [|].
    + rewrite in_favour_single by done. fold c. destruct o; case_bool_decide; try done; cbn.
      change (1 * 10000) with 10000. by apply wrap_small.
    + assert (in_favour c [] = 0) as ->; [|done]. unfold in_favour. by rewrite nobody_filtered.
Qed.
Lemma give_opinion_ok op d p :
  committee_ok d -> cq_account op ∈ active_committee_members d -> proposal_ok (active_committee_members d) p ->
  proposal_ok (active_committee_members d) (give_opinion op (size_of (active_committee_members d)) p).
Proof.
  intros Hd Hu [P1 P2 P3 P4]. pose proof (fs_sorted_nodup _ (co_sorted _ _ _ Hd)) as Hn.
  assert (forall x, x ∈ fm_set (cq_account op) (cq_opinion op) (opinions p) -> x.1 ∈ active_committee_members d) as Hm.
  { intros x [->|Hx]%fm_set_in; [done|by apply P2]. }
  split; cbn; [by apply fm_set_sorted|done|done|].
  rewrite (yeses_count (active_committee_members d)); [done|by apply fm_set_sorted|done|apply Hd|done].
Qed.

(** ** Elections *)
Lemma pick_committee_ok size ms c :
  fs_sorted c -> size_of c <= size -> fs_sorted (pick_committee size ms c) /\ size_of (pick_committee size ms c) <= size.
Proof.
  revert c. induction ms as [|[u m] ms IH]; intros c Hs Hl; cbn; [done|].
  destruct (Z.ltb_spec (Z.of_nat (length c)) size); [|done]. apply IH; [by apply fs_insert_sorted|].
  pose proof (length_fs_insert u c). unfold size_of in *. lia.
Qed.
Lemma update_committee_ok d u d' : update_committee d = Ok (u, d') -> committee_ok d -> committee_ok d'.
Proof.
  intros H Hd. unfold update_committee in H. peel H as d0 Hg. destruct (_ <=? _); [|by injection H as _ <-].
  injection H as _ <-. destruct Hd as [H1 H2 H3 H4].
  destruct (pick_committee_ok (committee_size (params d)) (committee_by_votes d) []) as [Hp Hl];
    [constructor|unfold size_of; cbn; lia|].
  split; cbn; [done|exact Hp|unfold committee_by_votes in *; cbn in *; lia|]. intros num p Hx. by rewrite lookup_empty in Hx.
Qed.

(** ** Operations *)
Lemma council_adjust_stats uid f : keeps council (modify_stats uid f).
Proof. apply keeps_modify_stats, _. Qed.
Lemma council_modify_member uid f : keeps council (modify_member uid f).
Proof. unfold modify_member. intros d u d' H. by apply bind_ok in H as (c & _ & [= _ <-]). Qed.
Lemma council_start_voting b uid x : keeps council (start_voting b uid x).
Proof. unfold start_voting. keep; [apply council_adjust_stats|by intros d u d' [= _ <-]]. Qed.
Lemma council_pledge_of id a n : keeps council (update_pledge_of id a n).
Proof. unfold update_pledge_of. keep. by intros d u d' [= _ <-]. Qed.
#[local] Hint Resolve council_adjust_stats council_modify_member council_pledge_of : keeps.
Lemma council_member_create op : keeps council (committee_member_create op).
Proof.
  unfold committee_member_create, member_create_apply, create_member, create_pledge. keep.
  all: intros d u d' [= _ <-]; by try case_match.
Qed.
Lemma council_member_update op : keeps council (committee_member_update op).
Proof. unfold committee_member_update, member_update_apply, change_member_pledge. keep. Qed.
Lemma council_member_vote op : keeps council (committee_member_vote_update op).
Proof. apply keeps_vote_update; [apply _..|apply council_start_voting]. Qed.

Lemma ok_insert num p d d' :
  council d' = (<[num := p]> (committee_proposals d), active_committee_members d, committee_size (params d)) ->
  committee_ok d -> proposal_ok (active_committee_members d) p -> committee_ok d'.
Proof. unfold council, committee_ok. intros [= -> -> ->]. apply council_ok_insert. Qed.
Lemma proposal_create_ok op d u d' : committee_proposal_create op d = Ok (u, d') -> committee_ok d -> committee_ok d'.
Proof.
  intros H Hd. unfold committee_proposal_create in H. peel H as d0 Hg. peel H as u0 He.
  unfold proposal_create_evaluate in He. apply bind_ok in He as (u1 & Hu & _). apply guard_ok_inv in Hu. bool_to_prop.
  unfold proposal_create_apply in H. peel H as d0 Hg. step H as u2 d1 H1. injection H1 as _ <-.
  step H as u3 d2 H2. unfold modify_dgp in H2. injection H2 as _ <-.
  eapply execute_if_due_ok; [exact H|]. eapply (ok_insert _ _ d); [reflexivity|exact Hd|by apply new_proposal_ok].
Qed.
Lemma proposal_update_ok op d u d' : committee_proposal_update op d = Ok (u, d') -> committee_ok d -> committee_ok d'.
Proof.
  intros H Hd. unfold committee_proposal_update in H. peel H as d0 Hg. peel H as u0 He.
  unfold proposal_update_evaluate in He. apply bind_ok in He as (u1 & Hu & _). apply guard_ok_inv in Hu. bool_to_prop.
  unfold proposal_update_apply in H. peel H as d0 Hg. peel H as p Hp. apply deref_ok in Hp.
  step H as u2 d1 H1. injection H1 as _ <-. eapply execute_if_due_ok; [exact H|].
  eapply (ok_insert _ _ d); [reflexivity|exact Hd|]. apply give_opinion_ok; [done..|]. by eapply Hd.
Qed.
Lemma clear_unapproved_ok d u d' :
  clear_unapproved_committee_proposals d = Ok (u, d') -> committee_ok d -> committee_ok d'.
Proof.
  intros H. unfold clear_unapproved_committee_proposals in H. peel H as n Hn. revert H.
  apply (drain_rel _ _ (fun d d' => committee_ok d -> committee_ok d') (fun _ => True)); [auto..| |done].
  intros x s1 u1 s2 _ _ [= _ <-]. split; [|done]. apply ok_delete.
Qed.

(** ** Coins of the operations *)
(** No pending proposal withdraws a pledge. *)
Definition no_pending_withdrawals (d : database) : Prop :=
  forall num p, committee_proposals d !! num = Some p -> no_withdrawals (items p).
Lemma pending_same d d' : council d' = council d -> no_pending_withdrawals d -> no_pending_withdrawals d'.
Proof. unfold council, no_pending_withdrawals. by intros [= -> _ _]. Qed.
Lemma pending_delete num d :
  no_pending_withdrawals d -> no_pending_withdrawals (d <| committee_proposals ::= delete num |>).
Proof. intros Hd i p Hp. cbn in Hp. apply lookup_delete_Some in Hp as [_ Hp]. by eapply Hd. Qed.
Lemma pending_postpone num p d d1 :
  no_pending_withdrawals d -> committee_proposals d !! num = Some p -> no_pending_withdrawals d1 ->
  active_committee_members d1 = active_committee_members d ->
  no_pending_withdrawals (d1 <| committee_proposals ::= <[num := p <| execution_block_num := expiration_block_num p |>]> |>).
Proof.
  intros Hd Hp H1 _ i q Hq. cbn in Hq. apply lookup_insert_Some in Hq as [[_ <-]|[_ Hq]]; [exact (Hd num p Hp)|exact (H1 i q Hq)].
Qed.
Lemma books_execute_proposals b :
  holds (fun d => no_pending_withdrawals d /\ books d = b) execute_committee_proposals.
Proof.
  unfold execute_committee_proposals. apply leads_bind; [by intros d|]. intros d0. apply holds_for.
  intros x d [Hd <-]. split; [exact (holds_execute_proposal _ pending_same pending_delete pending_postpone _ _ _ Hd)|].
  destruct (committee_proposals d !! x.1) as [p|] eqn:Hp; [by apply (books_execute _ _ _ p), (Hd _ _ Hp)|].
  unfold execute_committee_proposal, mbind, N_bind, nget, nlift. by rewrite Hp.
Qed.
Lemma execute_proposals_neutral d u d' :
  no_pending_withdrawals d -> in_operation execute_committee_proposals d = Ok (u, d') -> neutral d d'.
Proof.
  intros Hd H%in_operation_ok. apply books_eq_neutral.
  pose proof (books_execute_proposals (books d) d (conj Hd eq_refl)) as [_ Hb]. by rewrite H in Hb.
Qed.
Lemma execute_if_due_neutral num d u d' :
  (forall p, committee_proposals d !! num = Some p -> no_withdrawals (items p)) ->
  execute_if_due num d = Ok (u, d') -> neutral d d'.
Proof.
  intros Hd H. unfold execute_if_due in H. peel H as d0 Hg. peel H as p Hp. apply deref_ok in Hp. unfold when in H.
  destruct (_ && _); [|injection H as _ <-; by apply books_eq_neutral]. apply in_operation_ok in H.
  apply books_eq_neutral. pose proof (books_execute num false d p Hp (Hd p Hp)) as Hb. by rewrite H in Hb.
Qed.
Lemma proposal_create_neutral op d u d' :
  no_withdrawals (cp_items op) -> committee_proposal_create op d = Ok (u, d') -> neutral d d'.
Proof.
  intros Hi H. unfold committee_proposal_create in H. peel H as d0 Hg. peel H as u0 He.
  unfold proposal_create_apply in H. peel H as d0 Hg. step H as u2 d1 H1. injection H1 as _ <-.
  step H as u3 d2 H2. unfold modify_dgp in H2. injection H2 as _ <-.
  eapply neutral_trans; [|eapply execute_if_due_neutral, H].
  - by apply books_eq_neutral.
  - intros p. cbn. rewrite lookup_insert_eq. by intros [= <-].
Qed.
Lemma proposal_update_neutral op d u d' :
  (forall p, committee_proposals d !! cq_proposal_number op = Some p -> no_withdrawals (items p)) ->
  committee_proposal_update op d = Ok (u, d') -> neutral d d'.
Proof.
  intros Hi H. unfold committee_proposal_update in H. peel H as d0 Hg. peel H as u0 He.
  unfold proposal_update_apply in H. peel H as d0 Hg. peel H as p Hp. apply deref_ok in Hp.
  step H as u2 d1 H1. injection H1 as _ <-. eapply neutral_trans; [|eapply execute_if_due_neutral, H].
  - by apply books_eq_neutral.
  - intros q. cbn. rewrite lookup_insert_eq. intros [= <-]. exact (Hi p Hp).
Qed.
Lemma books_create_member uid c : keeps books (create_member uid c).
Proof. intros d u d' [= _ <-]. by destruct (committee_members d !! uid). Qed.
Lemma books_modify_member uid f : keeps books (modify_member uid f).
Proof. unfold modify_member. intros d u d' H. by apply bind_ok in H as (c & _ & [= _ <-]). Qed.
Lemma books_pledge_of id a n : keeps books (update_pledge_of id a n).
Proof. unfold update_pledge_of. keep_books. Qed.
#[local] Hint Resolve books_create_member books_modify_member books_pledge_of : keeps.
Lemma books_member_create op : keeps books (committee_member_create op).
Proof. unfold committee_member_create, member_create_apply, create_pledge. keep_books. Qed.
Lemma books_member_update op : keeps books (committee_member_update op).
Proof. unfold committee_member_update, member_update_apply, change_member_pledge. keep_books. Qed.
Lemma books_unapproved : keeps books clear_unapproved_committee_proposals.
Proof. unfold clear_unapproved_committee_proposals. keep. apply keeps_drain. intros x. keep_books. Qed.
End approval.
