(* ===== verification/SupplyClaims.v ===== *)
(** * The supply of every asset is accounted for

    The operations and the updates of a block as steps on the database, and the
    invariant over any sequence of them. *)
From S2P Require Import Prelude FlatMap FcInt Asset Pledge ChainState.
From S2P Require Import AccountStats Voter Balance Transfer Fee AssetOps Payroll Mining.
From S2P Require Import WitnessOps WitnessSchedule MapSum Frame Ledger Market.
From S2P Require Import MarketProof TransferProof Treasury TreasuryProof.
From S2P Require Import MiningProof Books SupplySteps BlockUpdate VoterProof BlockProof.
From S2P Require Import SupplyBlock Voting Keep Parameters Committee CommitteeProof.
From S2P Require Import Platform Account Proxy AccountProof Advertising AdvertisingClaims Content ContentProof Awards AwardsProof.
Local Open Scope Z_scope.
Import asset pledge chain acc voter balance transfer fee asset_ops payroll mining.
Import witness_ops market schedule voting updates committee platform account proxy advertising posting awards.

Module ops.
Inductive operation :=
| transfer_op (sign_account : Z) (op : transfer_operation)
| override_transfer_op (issuer from to : Z) (amt : asset)
| limit_order_create_op (seller : Z) (amount_to_sell min_to_receive : asset) (expiration : Z) (fill_or_kill : bool)
| limit_order_cancel_op (id fee_paying_account : Z)
| market_fee_collect_op (account aid amt : Z)
| asset_create_op (op : asset_create_operation)
| asset_update_op (op : asset_update_operation)
| asset_issue_op (issuer to : Z) (amt : asset)
| asset_reserve_op (payer : Z) (amt : asset)
| asset_claim_fees_op (issuer : Z) (amt : asset)
| witness_create_op (op : witness_create_operation)
| witness_update_op (op : witness_update_operation)
| witness_vote_update_op (op : vote_update_operation)
| witness_collect_pay_op (account : Z) (pay : asset)
| witness_report_op (reporter : Z) (first second : block_header)
| pledge_mining_update_op (account witness new_pledge : Z)
| pledge_bonus_collect_op (account bonus : Z)
| score_bonus_collect_op (account bonus : Z)
| beneficiary_assign_op (owner new_beneficiary : Z)
| benefit_collect_op (op : benefit_collect_operation)
| balance_lock_update_op (account new_lock_balance : Z)
| csaf_collect_op (from to amt time : Z)
| csaf_lease_op (from to amt expiration : Z)
| committee_member_create_op (op : committee_member_create_operation)
| committee_member_update_op (op : committee_member_update_operation)
| committee_member_vote_update_op (op : vote_update_operation)
| committee_proposal_create_op (op : committee_proposal_create_operation)
| committee_proposal_update_op (op : committee_proposal_update_operation)
| platform_create_op (op : platform_create_operation)
| platform_update_op (op : platform_update_operation)
| platform_vote_update_op (op : vote_update_operation)
| account_create_op (op : account_create_operation)
| account_manage_op (op : account_manage_operation)
| account_update_key_op (op : account_update_key_operation)
| account_update_auth_op (op : account_update_auth_operation)
| account_auth_platform_op (op : account_auth_platform_operation)
| account_cancel_auth_platform_op (uid platform : Z)
| account_update_proxy_op (op : account_update_proxy_operation)
| account_enable_allowed_assets_op (uid : Z) (enable : bool)
| account_update_allowed_assets_op (op : account_update_allowed_assets_operation)
| account_whitelist_op (op : account_whitelist_operation)
| advertising_create_op (op : advertising_create_operation)
| advertising_update_op (op : advertising_update_operation)
| advertising_buy_op (op : advertising_buy_operation)
| advertising_confirm_op (op : advertising_confirm_operation)
| advertising_ransom_op (op : advertising_ransom_operation)
| post_op (latest_periods sign_account : Z) (op : post_operation)
| post_update_op (sign : Z -> Z) (op : post_update_operation)
| score_create_op (sign_account : Z) (op : score_create_operation)
| reward_op (latest_periods : Z) (op : reward_operation)
| reward_proxy_op (latest_periods sign_account : Z) (op : reward_proxy_operation)
| buyout_op (sign_account : Z) (op : buyout_operation)
| license_create_op (op : license_create_operation).

(** What a block runs after its transactions ([drop_unapproved_proposals] is defined
    beside the others in db_update.cpp, though no block calls it). *)
Inductive block_update :=
| record_block (flags : node_flags) (b : block_header)
| pay_witness (signing_witness block_time block_num : Z)
| advance_irreversible
| expire_orders
| expire_leases
| average_witness_pledges
| average_platform_pledges
| release_pledges
| clear_witnesses
| clear_committee_members
| clear_platforms
| expire_voters
| drop_invalid_voters
| update_votes
| execute_proposals
| drop_unapproved_proposals
| elect_committee
| adjust_budget
| settle_mining
| hardforks
| clear_orders (remaining_time : Z)
| expire_scores
| award_contents (latest_periods : Z)
| award_votes (latest_periods : Z)
| schedule_witnesses.

Section steps.
Context {F : FcInt} {C : ChainConfig}.
Variables (is_valid_uid : Z -> bool) (fetch_block_id_for_num : Z -> result Z).

(** [op.validate()], for the operations whose handlers rely on it. *)
Definition validate_operation (o : operation) : result unit :=
  match o with
  | transfer_op _ op => transfer.validate is_valid_uid op
  | asset_create_op op => validate_create is_valid_uid op
  | asset_update_op op => validate_update is_valid_uid op
  | witness_collect_pay_op account pay => validate_collect_pay is_valid_uid account pay
  | reward_op _ op => validate_reward is_valid_uid op
  | reward_proxy_op _ _ op => validate_reward_proxy is_valid_uid op
  | _ => Ok tt
  end.

Definition execute (o : operation) : M database unit :=
  match o with
  | transfer_op sign op => transfer sign op
  | override_transfer_op i a b amt => override_transfer i a b amt
  | limit_order_create_op s x y t k => _ ← limit_order_create s x y t k; mret tt
  | limit_order_cancel_op id acc => _ ← limit_order_cancel id acc; mret tt
  | market_fee_collect_op acc aid amt => market_fee_collect acc aid amt
  | asset_create_op op => asset_create op
  | asset_update_op op => asset_update op
  | asset_issue_op i t amt => asset_issue i t amt
  | asset_reserve_op p amt => asset_reserve p amt
  | asset_claim_fees_op i amt => asset_claim_fees i amt
  | witness_create_op op => witness_create op
  | witness_update_op op => witness_update op
  | witness_vote_update_op op => witness_vote_update op
  | witness_collect_pay_op acc pay => witness_collect_pay acc pay
  | witness_report_op r b1 b2 => witness_report fetch_block_id_for_num r b1 b2
  | pledge_mining_update_op acc w x => pledge_mining_update acc w x
  | pledge_bonus_collect_op acc x => pledge_bonus_collect acc x
  | score_bonus_collect_op acc x => score_bonus_collect acc x
  | beneficiary_assign_op o b => beneficiary_assign o b
  | benefit_collect_op op => benefit_collect op
  | balance_lock_update_op acc x => balance_lock_update acc x
  | csaf_collect_op a b x t => csaf_collect a b x t
  | csaf_lease_op a b x t => csaf_lease a b x t
  | committee_member_create_op op => committee_member_create op
  | committee_member_update_op op => committee_member_update op
  | committee_member_vote_update_op op => committee_member_vote_update op
  | committee_proposal_create_op op => committee_proposal_create op
  | committee_proposal_update_op op => committee_proposal_update op
  | platform_create_op op => platform_create op
  | platform_update_op op => platform_update op
  | platform_vote_update_op op => platform_vote_update op
  | account_create_op op => account_create op
  | account_manage_op op => account_manage op
  | account_update_key_op op => account_update_key op
  | account_update_auth_op op => account_update_auth op
  | account_auth_platform_op op => account_auth_platform op
  | account_cancel_auth_platform_op uid platform => account_cancel_auth_platform uid platform
  | account_update_proxy_op op => account_update_proxy op
  | account_enable_allowed_assets_op uid enable => account_enable_allowed_assets uid enable
  | account_update_allowed_assets_op op => account_update_allowed_assets op
  | account_whitelist_op op => account_whitelist op
  | advertising_create_op op => advertising_create op
  | advertising_update_op op => advertising_update op
  | advertising_buy_op op => advertising_buy op
  | advertising_confirm_op op => _ ← advertising_confirm op; mret tt
  | advertising_ransom_op op => ransom_advertising op
  | post_op n s op => post n s op
  | post_update_op sign op => post_update sign op
  | score_create_op s op => score_create s op
  | reward_op n op => reward n op
  | reward_proxy_op n s op => reward_proxy n s op
  | buyout_op s op => buyout s op
  | license_create_op op => license_create op
  end.

(** What the operation needs besides: 16-bit and 64-bit fields are that wide; a
    witness that is replaced leaves its own place; the bonuses a settlement pays
    are not negative and fit their types ([witness_payable]); the committee withdraws no pledge; an
    account that does not exist has no coins; and the shares of the posts are whole. *)
Definition operation_ok (o : operation) (d : database) : Prop :=
  match o with
  | asset_create_op op => options_typed (ac_options op)
  | asset_update_op op => options_typed (au_options op)
  | witness_create_op op => forall old, witnesses d !! wc_account op = Some old ->
      replaced_witnesses d !! (wc_account op, w_sequence old) = None
  | witness_update_op op => can_settle op d
  | pledge_mining_update_op account witness _ => forall w, witnesses d !! witness = Some w ->
      witness_payable d witness w
  | committee_proposal_create_op op => no_withdrawals (cp_items op)
  | committee_proposal_update_op op => forall p, committee_proposals d !! cq_proposal_number op = Some p ->
      no_withdrawals (items p)
  | account_create_op op => stats d !! an_uid op = None /\
      default 0 (balances d !! (an_uid op, CORE_ASSET_AID)) = 0
  | post_op _ _ _ => posts_sound d
  | reward_op _ op => posts_sound d /\ amount (rw_amount op) < 2 ^ 63
  | reward_proxy_op _ _ op => posts_sound d /\ rp_amount op < 2 ^ 63
  | _ => True
  end.

(** The coins an operation creates: what the last pledge to leave a witness was
    paid beyond what the witness owed. *)
Definition created (o : operation) (d : database) : Z :=
  match o with
  | pledge_mining_update_op account witness new_pledge => overpayment account witness new_pledge d
  | _ => 0
  end.

Definition run_update (u : block_update) : M database unit :=
  match u with
  | record_block flags b => update_global_dynamic_data flags b
  | pay_witness w t n => update_signing_witness w t n
  | advance_irreversible => update_last_irreversible_block
  | expire_orders => clear_expired_limit_orders
  | expire_leases => clear_expired_csaf_leases
  | average_witness_pledges => update_average_witness_pledges
  | average_platform_pledges => update_average_platform_pledges
  | release_pledges => process_pledge_balance_release
  | clear_witnesses => clear_resigned_witness_votes
  | clear_committee_members => clear_resigned_committee_member_votes
  | clear_platforms => clear_resigned_platform_votes
  | expire_voters => invalidate_expired_governance_voters
  | drop_invalid_voters => process_invalid_governance_voters
  | update_votes => update_all_effective_votes
  | execute_proposals => in_operation execute_committee_proposals
  | drop_unapproved_proposals => clear_unapproved_committee_proposals
  | elect_committee => update_committee
  | adjust_budget => adjust_budgets
  | settle_mining => update_pledge_mining_bonus
  | hardforks => enable_hardforks
  | clear_orders t => clear_advertising_orders t
  | expire_scores => clear_expired_scores
  | award_contents n => process_content_platform_awards n
  | award_votes n => process_platform_voted_awards n
  | schedule_witnesses => update_witness_schedule
  end.
(** What the update needs: pay rates and pledges are not negative and a witness
    shares at most its whole pay; those whose pledges are settled can be paid;
    no proposal withdraws a pledge; the parameters and sums of the awards stay within their types. *)
Definition update_ok (u : block_update) (d : database) : Prop :=
  match u with
  | pay_witness uid _ _ => budget_ok d /\ forall w, witnesses d !! uid = Some w -> shares_ok w
  | clear_witnesses => resigned_payable d
  | settle_mining => due_payable d
  | execute_proposals => no_pending_withdrawals d
  | award_contents _ => awards_ok d
  | award_votes _ => voted_ok d
  | _ => True
  end.

(** An operation with its fee, or one of the updates of a block, with the coins it creates. *)
Inductive chain_step (d : database) : Z -> database -> Prop :=
| step_operation st payer fee required o d' :
    skip_fee st = false -> validate_op_fee fee = Ok tt -> validate_operation o = Ok tt -> operation_ok o d ->
    run_evaluator st payer fee required (execute o) d = Ok (tt, d') -> chain_step d (created o d) d'
| step_update u d' :
    update_ok u d -> run_update u d = Ok (tt, d') -> chain_step d 0 d'.
(** A sequence of steps, with the sum of what they create. *)
Inductive chain_run (d : database) : Z -> database -> Prop :=
| run_start : chain_run d 0 d
| run_more x d1 y d2 : chain_run d x d1 -> chain_step d1 y d2 -> chain_run d (x + y) d2.
End steps.
End ops.
Import ops.

Section claims.
Context {F : FcInt} {FL : FcIntLaws F} {C : ChainConfig}.
Variables (is_valid_uid : Z -> bool) (fetch_block_id_for_num : Z -> result Z).

Lemma execute_neutral o d u d' :
  (forall account witness x, o <> pledge_mining_update_op account witness x) ->
  validate_operation is_valid_uid o = Ok tt -> operation_ok o d ->
  execute fetch_block_id_for_num o d = Ok (u, d') -> neutral d d'.
Proof.
  intros Hne Hv Ho H. destruct u, o; cbn [execute validate_operation operation_ok] in *.
  - by eapply transfer_neutral.
  - by eapply override_transfer_neutral.
  - step H as id d1 H1. injection H as <-. by eapply conserves_neutral, market_step_conserves, market_create.
  - step H as id' d1 H1. injection H as <-. by eapply conserves_neutral, market_step_conserves, market_cancel.
  - by eapply conserves_neutral, market_step_conserves, market_collect.
  - by eapply asset_create_neutral.
  - by eapply asset_update_neutral.
  - by eapply asset_issue_neutral.
  - by eapply asset_reserve_neutral.
  - by eapply asset_claim_fees_neutral.
  - by eapply witness_create_neutral.
  - by eapply witness_update_neutral.
  - by eapply (vote_update_neutral witness_ballot).
  - by eapply witness_collect_pay_neutral.
  - by eapply witness_report_neutral.
  - by destruct (Hne account witness new_pledge).
  - by eapply pledge_bonus_collect_neutral.
  - by eapply score_bonus_collect_neutral.
  - by eapply beneficiary_assign_neutral.
  - by eapply benefit_collect_neutral.
  - exact (books_neutral _ _ _ _ (books_balance_lock _ _) H).
  - exact (books_neutral _ _ _ _ (books_csaf_collect _ _ _ _) H).
  - exact (books_neutral _ _ _ _ (books_csaf_lease _ _ _ _) H).
  - exact (books_neutral _ _ _ _ (books_member_create _) H).
  - exact (books_neutral _ _ _ _ (books_member_update _) H).
  - by eapply (vote_update_neutral committee_ballot).
  - by eapply proposal_create_neutral.
  - by eapply proposal_update_neutral.
  - exact (books_neutral _ _ _ _ (books_platform_create _) H).
  - exact (books_neutral _ _ _ _ (books_platform_update _) H).
  - by eapply (vote_update_neutral platform_ballot).
  - destruct Ho. by eapply account_create_neutral.
  - exact (books_neutral _ _ _ _ (books_account_manage _) H).
  - exact (books_neutral _ _ _ _ (books_update_key _) H).
  - exact (books_neutral _ _ _ _ (books_update_auth _) H).
  - exact (books_neutral _ _ _ _ (books_auth_platform _) H).
  - exact (books_neutral _ _ _ _ (books_cancel_auth _ _) H).
  - exact (books_neutral _ _ _ _ (books_update_proxy _) H).
  - exact (books_neutral _ _ _ _ (books_enable_assets _ _) H).
  - exact (books_neutral _ _ _ _ (books_update_assets _) H).
  - exact (books_neutral _ _ _ _ (books_whitelist _) H).
  - exact (proj2 (advertising_create_ok _ _ _ _ H)).
  - exact (proj2 (advertising_update_ok _ _ _ _ H)).
  - exact (proj1 (advertising_buy_ok _ _ _ _ H)).
  - step H as r d1 H1. injection H as <-. exact (proj1 (advertising_confirm_ok _ _ _ _ H1)).
  - exact (proj1 (ransom_advertising_ok _ _ _ _ H)).
  - by eapply post_neutral.
  - by eapply post_update_neutral.
  - by eapply score_create_neutral.
  - destruct Ho as [Hs Hx]. eapply reward_neutral; [done| |done].
    unfold validate_reward in Hv. inv_ok. bool_to_prop. lia.
  - destruct Ho as [Hs Hx]. eapply reward_proxy_neutral; [done| |done].
    unfold validate_reward_proxy in Hv. inv_ok. bool_to_prop. lia.
  - by eapply buyout_neutral.
  - by eapply license_create_neutral.
Qed.
Lemma run_update_neutral u d v d' : update_ok u d -> run_update u d = Ok (v, d') -> neutral d d'.
Proof.
  intros Ho H. destruct u; cbn [run_update update_ok] in *.
  - exact (books_neutral _ _ _ _ (books_update_global _ _) H).
  - destruct Ho. by eapply update_signing_witness_neutral.
  - exact (books_neutral _ _ _ _ books_irreversible H).
  - by eapply expired_orders_neutral.
  - exact (books_neutral _ _ _ _ books_leases H).
  - exact (books_neutral _ _ _ _ books_avg_pledges H).
  - exact (books_neutral _ _ _ _ books_platform_pledges H).
  - exact (books_neutral _ _ _ _ books_release_pledges H).
  - by eapply resigned_witnesses_neutral.
  - exact (books_neutral _ _ _ _ books_committee_votes H).
  - exact (books_neutral _ _ _ _ books_platform_votes H).
  - exact (books_neutral _ _ _ _ books_expired_voters H).
  - exact (books_neutral _ _ _ _ books_invalid_voters H).
  - exact (books_neutral _ _ _ _ books_effective_votes H).
  - by eapply execute_proposals_neutral.
  - exact (books_neutral _ _ _ _ books_unapproved H).
  - exact (books_neutral _ _ _ _ books_committee H).
  - by eapply adjust_budgets_neutral.
  - by eapply update_pledge_mining_bonus_neutral.
  - by eapply enable_hardforks_neutral.
  - exact (proj1 (clear_orders_ok _ _ _ _ H)).
  - exact (books_neutral _ _ _ _ books_clear_scores H).
  - by eapply content_awards_neutral.
  - by eapply voted_awards_neutral.
  - exact (books_neutral _ _ _ _ books_schedule H).
Qed.
Lemma execute_shift o d u d' :
  validate_operation is_valid_uid o = Ok tt -> operation_ok o d ->
  execute fetch_block_id_for_num o d = Ok (u, d') ->
  shift d d' (only CORE_ASSET_AID (created o d)) /\ 0 <= created o d.
Proof.
  intros Hv Ho H. assert ((forall account witness x, o <> pledge_mining_update_op account witness x) \/
    exists account witness x, o = pledge_mining_update_op account witness x) as [Hne|(account & witness & x & ->)].
  { destruct o; eauto; by left. }
  - assert (created o d = 0) as -> by (destruct o; try reflexivity; by destruct (Hne account witness new_pledge)).
    split; [|done]. eapply shift_ext, (execute_neutral o); [|done..]. intros a. symmetry. apply only_zero.
  - split; [by eapply pledge_mining_update_shift|apply overpayment_nonneg].
Qed.
Lemma chain_step_shift d x d' :
  chain_step is_valid_uid fetch_block_id_for_num d x d' -> shift d d' (only CORE_ASSET_AID x) /\ 0 <= x.
Proof.
  intros [st payer fee required o d2 Hs Hf Hv Ho H|u d2 Ho H].
  - assert (exists u1 d1, execute fetch_block_id_for_num o d = Ok (u1, d1)) as (u1 & d1 & H1).
    { unfold run_evaluator in H. peel H as dg Hg. peel H as p Hp. peel H as u1 E1. step H as u2 d1 H1. eauto. }
    split; [|by eapply execute_shift].
    eapply run_evaluator_shift; [exact Hs|exact Hf| |exact H]. intros v e He. by eapply execute_shift.
  - split; [|done]. eapply shift_ext, run_update_neutral; [|done..]. intros a. symmetry. apply only_zero.
Qed.
End claims.

(** C33. No coin appears or disappears unrecorded.  Along any sequence of the modelled
    operations, each with its fee, and of the updates every block runs, under the
    conditions of [operation_ok] and [update_ok], what circulates of every asset (balances, prepaid and
    uncollected coins, orders, accumulated fees; for the core asset also the
    budget pool, the bonuses witnesses owe and the coins held for
    advertisements that are not yet confirmed) remains what the asset records
    as issued, but for the core coins that were created by the pledges that
    left a witness as its last: each creates exactly what the witness had paid
    beyond what it owed, which is possible since a pledge made anew is paid
    for the blocks before it ([late_pledge_overpaid]).  The invariants of the ledger hold throughout. *)
Theorem supply_accounted {F : FcInt} {FL : FcIntLaws F} {C : ChainConfig}
    (is_valid_uid : Z -> bool) (fetch_block_id_for_num : Z -> result Z) (d : database) (coins : Z) (d' : database) :
  chain_run is_valid_uid fetch_block_id_for_num d coins d' ->
  treasury_inv d -> (forall aid, circulating aid d = issued_of aid d) ->
  treasury_inv d' /\ 0 <= coins /\
  forall aid, circulating aid d' = issued_of aid d' + (if aid =? CORE_ASSET_AID then coins else 0).
Proof.
  intros Hrun Hi Hb. induction Hrun as [|x d1 y d2 _ IH Hs].
  { split_and!; [done..|]. intros aid. rewrite Hb. destruct (_ =? _); lia. }
  destruct IH as (Hi1 & Hx & Hc). destruct (chain_step_shift _ _ _ _ _ Hs) as [Hsh Hy].
  destruct (Hsh Hi1) as [Hi2 H2]. split_and!; [done|lia|]. intros aid. specialize (H2 aid). specialize (Hc aid).
  unfold imbalance, only in H2. rewrite Z.eqb_sym in Hc |- *. destruct (_ =? _); lia.
Qed.

(** Account 20 is an active witness and issues asset 5. *)
Definition mint : database :=
  bank <| next_asset_id := 6 |>
    <| dgp ::= fun g => g <| total_budget_per_block := 90 |> |>
    <| params ::= fun p => p <| by_vote_top_witness_pay_per_block := 50 |> |>
    <| witnesses := {[ 20 := new_witness <| w_sequence := 1 |> <| signing_key := 7 |> ]} |>
    <| active_witnesses := [(20, scheduled_by_vote_top)] |>.
Definition mint_fee : fee_type := {| fee_total := Asset 10 0; fee_options := None |}.
Definition mint_state : eval_state := {| skip_fee := false; skip_fee_schedule_check := false |}.
Definition mint_issue : database -> result (unit * database) :=
  @run_evaluator fc_checked no_proxy mint_state 20 mint_fee (Ok (10, 0))
    (@execute fc_checked no_proxy (fun _ => Ok 0) (asset_issue_op 20 10 (Asset 50 5))).
Definition mint_pay : database -> result (unit * database) :=
  @run_update fc_checked no_proxy (pay_witness 20 1600000003 5000001).

Lemma mint_inv : treasury_inv mint.
Proof.
  destruct bank_market_inv as [M1 M2 M3 M4]. split; [by split|]. intros aid Haid. cbn in Haid.
  unfold issued. rewrite lookup_fmap. cbn. rewrite lookup_insert_ne, lookup_singleton_ne by lia. done.
Qed.
Lemma mint_balanced aid : circulating aid mint = issued_of aid mint.
Proof.
  destruct (decide (aid = 0)) as [->|H0]; [vm_compute; reflexivity|].
  destruct (decide (aid = 5)) as [->|H5]; [vm_compute; reflexivity|].
  assert (msum (in_balance aid) (balances mint) = 0) as B.
  { rewrite (msum_ext _ (fun _ _ => 0)); [vm_compute; reflexivity|]. intros k x Hx. unfold in_balance. cbn in Hx.
    apply lookup_insert_Some in Hx as [[<- _]|[_ Hx]]; [cbn [snd]; destruct (Z.eqb_spec 0 aid); congruence|].
    apply lookup_insert_Some in Hx as [[<- _]|[_ Hx]]; [cbn [snd]; destruct (Z.eqb_spec 0 aid); congruence|].
    apply lookup_singleton_Some in Hx as [<- _]. cbn [snd]; destruct (Z.eqb_spec 5 aid); congruence. }
  assert (msum (in_money aid) (l_money (ledger_of mint)) = 0) as N.
  { rewrite (msum_ext _ (fun _ _ => 0)); [vm_compute; reflexivity|]. intros k x Hx. unfold in_money.
    apply lookup_fmap_Some in Hx as (s & <- & Hs). destruct (Z.eqb_spec aid CORE_ASSET_AID); [done|].
    cbn in Hs. apply lookup_insert_Some in Hs as [[_ <-]|[_ Hs]]; [done|]. by apply lookup_singleton_Some in Hs as [_ <-]. }
  unfold circulating, issued_of, supply. cbn [ledger_of l_balances l_orders l_fees] in *. rewrite B, N.
  unfold in_fees, issued, only. rewrite lookup_fmap. cbn [asset_dynamic_data mint].
  destruct (Z.eqb_spec CORE_ASSET_AID aid); [by subst|]. cbn.
  rewrite !lookup_insert_ne, lookup_singleton_ne by done. reflexivity.
Qed.
Lemma supply_accounted_witness :
  exists d1 d2, mint_issue mint = Ok (tt, d1) /\ mint_pay d1 = Ok (tt, d2) /\
    issued_of 5 d2 = 750 /\ issued_of 0 d2 = 1480 /\ forall aid, circulating aid d2 = issued_of aid d2.
Proof.
  destruct (mint_issue mint) as [[[] d1]|e] eqn:E1; [|exfalso; vm_compute in E1; discriminate E1].
  assert (mint_pay d1 = match mint_issue mint with Ok (_, d) => mint_pay d | Throw e => Throw e end) as E2
    by (rewrite E1; reflexivity).
  destruct (mint_pay d1) as [[[] d2]|e] eqn:E3; [|exfalso; vm_compute in E2; discriminate E2].
  exists d1, d2. split; [reflexivity|]. split; [exact E3|].
  assert (issued_of 5 d2 = 750 /\ issued_of 0 d2 = 1480) as [I5 I0].
  { change d2 with (match Ok (tt, d2) with Ok (_, d) => d | Throw _ => d2 end). rewrite E2.
    split; vm_compute; reflexivity. }
  split; [exact I5|]. split; [exact I0|].
  assert (@chain_run fc_checked no_proxy (fun _ => true) (fun _ => Ok 0) mint (0 + 0 + 0) d2) as Hrun.
  2: { destruct (@supply_accounted fc_checked fc_checked_laws no_proxy (fun _ => true) (fun _ => Ok 0) mint _ d2 Hrun
         mint_inv mint_balanced) as (_ & _ & H). intros aid. rewrite H. destruct (_ =? _); lia. }
  apply run_more with d1; [apply run_more with mint; [constructor|]|].
  - refine (step_operation _ _ _ mint_state 20 mint_fee (Ok (10, 0)) (asset_issue_op 20 10 (Asset 50 5)) _ _ _ _ _ E1);
      first [reflexivity|exact I].
  - refine (step_update _ _ _ (pay_witness 20 1600000003 5000001) _ _ E3). change d1 with (match Ok (tt, d1) with Ok (_, d) => d | Throw _ => d1 end).
    rewrite <- E1. split; [split; [vm_compute; discriminate|intros []; vm_compute; discriminate]|].
    intros w Hw. vm_compute in Hw. injection Hw as <-. split; vm_compute; try split; discriminate.
Defined.

(** A witness that has paid the 100 coins it owed, with one pledge left, made anew
    by an account that was last paid before the bonuses: when it leaves, the
    account is paid another coin, which no one owed and nothing records. *)
Definition late : database :=
  mint <| dgp ::= fun g => g <| enabled_hardfork_version := HEAD_FORK_05 |> <| total_witness_pledge := 500 |> |>
    <| witnesses := {[ 20 := new_witness <| w_sequence := 1 |> <| can_pledge := true |> <| w_total_mining_pledge := 500 |>
                               <| need_distribute_bonus := 100 |> <| already_distribute_bonus := 100 |>
                               <| bonus_per_pledge := [(5, 2000000000)] |> ]} |>
    <| pledge_balances := {[ 7 := {| superior_index := 0; type := Mine; pb_asset_id := CORE_ASSET_AID; pledge := 500;
                                     total_releasing_pledge := 0; releasing_pledges := [] |} ]} |>
    <| pledge_minings := {[ (20, 10) := {| pm_id := 0; last_bonus_block_num := 0; pm_pledge_id := 7 |} ]} |>.
Example late_pledge_overpaid :
  @overpayment fc_checked 10 20 0 late = 1 /\
  (fun x => circulating 0 x.2 - circulating 0 late) <$> @pledge_mining_update fc_checked 10 20 0 late = Ok 1 /\
  (fun x => issued_of 0 x.2 - issued_of 0 late) <$> @pledge_mining_update fc_checked 10 20 0 late = Ok 0.
Proof. vm_compute. split_and!; reflexivity. Qed.
