(* ===== verification/CommitteeClaims.v ===== *)
(** * What the committee can do and how it decides *)
From S2P Require Import Prelude Keep FlatMap FcInt Asset Pledge ChainState.
From S2P Require Import AccountStats Voter Voting Balance Payroll Mining BlockUpdate.
From S2P Require Import WitnessOps Committee MapSum Frame Ledger Market MarketProof.
From S2P Require Import Treasury TreasuryProof MiningProof Books SupplyBlock CommitteeProof SupplyClaims.
Local Open Scope Z_scope.
Import asset pledge chain acc voter voting balance payroll mining updates committee.

(** C13. When the committee withdraws from the pledge of a platform, the coins
    the receiver gets are new: they are added to the receiver's balance, every
    other balance, that of the platform's owner included, is what it was, and
    nothing is recorded as issued, so that more of the core asset circulates
    than was issued by exactly the amount withdrawn. *)
Theorem withdrawal_creates_coins {F : FcInt} {FL : FcIntLaws F} {C : ChainConfig}
    (owner receiver amt : Z) (d d' : database) (s : account_statistics) (id : Z) (p : pledge_balance_object) :
  treasury_inv d ->
  stats d !! owner = Some s -> pledge_id Platform s = Some id -> pledge_balances d !! id = Some p ->
  withdraw_platform_pledge owner receiver amt d = (Ok tt, d') ->
  let withdrawn := Z.min (pledge p + total_releasing_pledge p) amt in
  treasury_inv d' /\
  balance_of d' receiver CORE_ASSET_AID = balance_of d receiver CORE_ASSET_AID + withdrawn /\
  (forall account aid, (account, aid) <> (receiver, CORE_ASSET_AID) ->
     balance_of d' account aid = balance_of d account aid) /\
  (forall aid, issued_of aid d' = issued_of aid d) /\
  (forall aid, circulating aid d' = circulating aid d + only CORE_ASSET_AID withdrawn aid).
Proof.
  intros Hi Hs Hid Hp H w. apply (withdraw_effect _ _ _ _ _ _ _ _ Hs Hid Hp) in H as (d1 & Hb & H).
  destruct (neutral_trans _ _ _ _ (books_eq_neutral _ _ Hb) (adjust_balance_shift _ _ _ _ _ H) Hi) as [Hi' Hsh].
  pose proof (adjust_balance_statics _ _ _ _ _ H) as Hst. unfold statics in Hst. unfold books in Hb.
  apply adjust_balance_balances in H as [H1 H2].
  assert (balances d1 = balances d) as Eb by (by injection Hb).
  assert (issued d' = issued d) as Ei.
  { transitivity (issued d1); [by injection Hst|by injection Hb]. }
  unfold balance_of in *. rewrite Eb in *. cbn in *. split_and!; [done..| | |].
  - intros account aid Hne. by rewrite (H2 _ Hne).
  - intros aid. unfold issued_of. by rewrite Ei.
  - intros aid. specialize (Hsh aid). unfold imbalance, issued_of in Hsh. rewrite Ei in Hsh. unfold w. lia.
Qed.

(** ** Decisions *)
Section steps.
Context {F : FcInt} {C : ChainConfig}.
(** The operations of the committee, and what blocks do with proposals: execute
    those that are due, whatever comes of it, drop those not approved in time,
    and elect a new committee.  What else happens leaves the proposals and the
    committee in office alone. *)
Inductive committee_step (d d' : database) : Prop :=
| step_proposal_create op : committee_proposal_create op d = Ok (tt, d') -> committee_step d d'
| step_proposal_update op : committee_proposal_update op d = Ok (tt, d') -> committee_step d d'
| step_member_create op : committee_member_create op d = Ok (tt, d') -> committee_step d d'
| step_member_update op : committee_member_update op d = Ok (tt, d') -> committee_step d d'
| step_member_vote op : committee_member_vote_update op d = Ok (tt, d') -> committee_step d d'
| step_execute : d' = (execute_committee_proposals d).2 -> committee_step d d'
| step_drop : clear_unapproved_committee_proposals d = Ok (tt, d') -> committee_step d d'
| step_elect : update_committee d = Ok (tt, d') -> committee_step d d'
| step_elsewhere : council d' = council d -> committee_step d d'.

Lemma committee_step_ok d d' : committee_step d d' -> committee_ok d -> committee_ok d'.
Proof.
  intros [op H|op H|op H|op H|op H| ->|H|H|H].
  - by eapply proposal_create_ok.
  - by eapply proposal_update_ok.
  - eapply committee_ok_same, council_member_create, H.
  - eapply committee_ok_same, council_member_update, H.
  - eapply committee_ok_same, council_member_vote, H.
  - apply execute_proposals_ok.
  - by eapply clear_unapproved_ok.
  - by eapply update_committee_ok.
  - by apply committee_ok_same.
Qed.
End steps.

(** C15. Whatever the committee and the blocks do, in any order: a pending
    proposal is marked as approved exactly when the share of the committee in
    office that is for it, in units of 1/10000 and rounded down, reaches the
    threshold its items require; only members in office have opinions on it,
    each one, the last it gave. *)
Theorem proposals_decided {F : FcInt} {C : ChainConfig} (d d' : database) :
  rtc committee_step d d' -> committee_ok d ->
  committee_ok d' /\
  forall num p, committee_proposals d' !! num = Some p ->
    let committee := active_committee_members d' in
    NoDup committee /\ NoDup (opinions p).*1 /\
    (forall x, x ∈ opinions p -> x.1 ∈ committee) /\
    exists head_fork_05, let threshold := get_approve_threshold head_fork_05 (items p) in
      (is_approved p = true <->
       threshold <= size_of (filter (fun u => fm_find u (opinions p) = Some opinion_for) committee)
                    * PERCENT_100 / size_of committee).
Proof.
  intros Hs Hd. assert (committee_ok d') as H'.
  { induction Hs as [|d1 d2 d3 H1 _ IH]; [done|]. by eapply IH, committee_step_ok. }
  split; [done|]. intros num p Hp. destruct H' as [H1 H2 H3 H4]. destruct (H4 num p Hp) as [P1 P2 [hf P3] P4].
  split_and!; [by apply fs_sorted_nodup|by apply fm_sorted_nodup|done|].
  exists hf. cbn. rewrite P4, P3. apply Z.leb_le.
Qed.

(** A committee of three; account 20 pledged 150 of its 300 coins to its platform. *)
Definition platform_pledge : pledge_balance_object :=
  {| superior_index := 20; type := Platform; pb_asset_id := 0; pledge := 150; total_releasing_pledge := 0;
     releasing_pledges := [] |}.
Definition town : database :=
  mint <| active_committee_members := [10; 20; 30] |>
    <| dgp ::= fun g => g <| next_committee_update_block := 5000100 |> |>
    <| params ::= fun p => p <| committee_size := 3 |> |>
    <| platforms := {[ 20 := new_platform <| p_sequence := 1 |> <| p_pledge := 150 |> ]} |>
    <| pledge_balances := {[ 0 := platform_pledge ]} |> <| next_pledge_balance_id := 1 |>
    <| stats ::= alter (fun s => s <| pledge_balance_ids := [(Platform, 0)] |>) 20 |>.
Lemma town_inv : treasury_inv town.
Proof. refine (proj1 (books_eq_neutral mint town _ mint_inv)). vm_compute. reflexivity. Qed.

Definition withdraw_100 : result unit * database := @withdraw_platform_pledge fc_checked no_proxy 20 10 100 town.
Lemma withdrawal_creates_coins_witness :
  withdraw_100.1 = Ok tt /\ circulating 0 withdraw_100.2 = 1500 /\ issued_of 0 withdraw_100.2 = 1400 /\
  balance_of withdraw_100.2 10 0 = 1100 /\ balance_of withdraw_100.2 20 0 = 300.
Proof.
  assert (exists d', withdraw_100 = (Ok tt, d')) as [d' E].
  { exists withdraw_100.2. assert (withdraw_100.1 = Ok tt) as <- by (vm_compute; reflexivity). apply surjective_pairing. }
  assert (exists s, stats town !! 20 = Some s /\ pledge_id Platform s = Some 0) as (s & Hs & Hid)
    by (eexists; split; vm_compute; reflexivity).
  destruct (@withdrawal_creates_coins fc_checked fc_checked_laws no_proxy 20 10 100 town d' s 0 platform_pledge
    town_inv Hs Hid ltac:(vm_compute; reflexivity) E) as (_ & H1 & H2 & H3 & H4).
  rewrite E. cbn [fst snd]. rewrite H1, H3, H4, H2 by done. split_and!; vm_compute; reflexivity.
Defined.

(** ** Runs *)
Definition resign (u : Z) : account_priviledge_update_options :=
  {| pv_can_vote := None; pv_is_admin := None; pv_is_registrar := Some false; pv_takeover_registrar := Some u |}.
Definition promote : account_priviledge_update_options :=
  {| pv_can_vote := None; pv_is_admin := None; pv_is_registrar := Some true; pv_takeover_registrar := None |}.
Definition motion (items : list committee_proposal_item_type) : committee_proposal_create_operation :=
  {| cp_proposer := 10; cp_items := items; cp_voting_closing_block_num := 5000001;
     cp_execution_block_num := 5000001; cp_expiration_block_num := 5000050;
     cp_proposer_opinion := Some opinion_for |}.
Definition agree (u : Z) : committee_proposal_update_operation :=
  {| cq_account := u; cq_proposal_number := 1; cq_opinion := opinion_for |}.
Definition at_block (n : Z) (d : database) : database := d <| dgp ::= fun g => g <| head_block_number := n |> |>.
(** Proposed by 10 and seconded by 20. *)
Definition adopt (items : list committee_proposal_item_type) (d : database) : result (unit * database) :=
  (@committee_proposal_create fc_checked no_proxy (motion items) ;;
   @committee_proposal_update fc_checked no_proxy (agree 20)) d.
Definition adopted (items : list committee_proposal_item_type) (d : database) : database :=
  match adopt items d with Ok (_, d') => d' | Throw _ => d end.
Definition execute_at (n : Z) (d : database) : database :=
  (@execute_committee_proposals fc_checked no_proxy (at_block n d)).2.

Definition new_registrar : list committee_proposal_item_type :=
  [committee_update_account_priviledge_item 20 promote].
Lemma town_ok : committee_ok town.
Proof.
  split; [vm_compute; split; congruence| |vm_compute; reflexivity|by intros num p Hp].
  repeat constructor.
Qed.
Lemma adopted_steps items d d' :
  adopt items d = Ok (tt, d') -> rtc (@committee_step fc_checked no_proxy) d d'.
Proof.
  intros H. unfold adopt in H. step H as u d1 H1. destruct u. eapply rtc_l; [by eapply step_proposal_create|].
  eapply rtc_once, step_proposal_update, H.
Qed.
Lemma proposals_decided_witness :
  let d1 := adopted new_registrar town in
  let d2 := execute_at 5000001 d1 in
  adopt new_registrar town = Ok (tt, d1) /\
  (is_approved <$> committee_proposals d1 !! 1) = Some true /\ committee_proposals d2 !! 1 = None /\
  (is_registrar <$> accounts d2 !! 20) = Some true /\ committee_ok d2.
Proof.
  intros d1 d2. assert (adopt new_registrar town = Ok (tt, d1)) as E by (vm_compute; reflexivity).
  split_and!; [exact E|vm_compute; reflexivity..|].
  apply (@proposals_decided fc_checked no_proxy town d2); [|exact town_ok].
  transitivity d1; [exact (adopted_steps _ _ _ E)|].
  apply rtc_l with (at_block 5000001 d1); [by apply step_elsewhere|apply rtc_once; by apply step_execute].
Defined.

(** A proposal that fails after it withdrew a pledge is tried again, and
    withdraws again. *)
Definition fine_and_resign : list committee_proposal_item_type :=
  [committee_withdraw_platform_pledge_item 20 10 40; committee_update_account_priviledge_item 20 (resign 10)].
Example failed_withdrawal_repeats :
  let d1 := execute_at 5000001 (adopted fine_and_resign town) in
  let d2 := execute_at 5000050 d1 in
  (balance_of d1 10 0, execution_block_num <$> committee_proposals d1 !! 1) = (1040, Some 5000050) /\
  (balance_of d2 10 0, committee_proposals d2 !! 1) = (1080, None).
Proof. split; vm_compute; reflexivity. Qed.

(** An account that is made a registrar and resigns in one proposal: those it
    had taken over from keep pointing at it, where its resignation alone
    redirects them. *)
Definition offices : database :=
  town <| accounts ::= alter (fun a => a <| is_registrar := true |>) 10 |>
       <| accounts ::= alter (fun a => a <| is_registrar := true |>) 20 |>
       <| registrar_takeovers := {[ 5 := 20 ]} |>.
Example takeovers_left_behind :
  registrar_takeovers (execute_at 5000001 (adopted
    [committee_update_account_priviledge_item 20 (resign 10)] offices)) = {[ 5 := 10; 20 := 10 ]} /\
  registrar_takeovers (execute_at 5000001 (adopted
    [committee_update_account_priviledge_item 20 promote;
     committee_update_account_priviledge_item 20 (resign 10)] offices)) = {[ 5 := 20; 20 := 10 ]}.
Proof. split; vm_compute; reflexivity. Qed.
