(* ===== verification/BlockClaims.v ===== *)
(** * The claims about the updates of a block *)
From S2P Require Import Prelude FlatMap FcInt Asset Pledge ChainState.
From S2P Require Import AccountStats Voter WitnessSchedule Balance Transfer Market.
From S2P Require Import Payroll Mining WitnessOps BlockUpdate Frame MapSum Ledger.
From S2P Require Import Treasury VoterProof BlockProof.
Local Open Scope Z_scope.
Import asset pledge chain acc voter schedule balance transfer market payroll mining witness_ops.
Import updates.

(** ** What remains after a loop *)
(** Whoever of an index is still due comes after one that is as early and resigned. *)
Definition only_behind_resigned {A} (index : database -> list A) (next_block : A -> Z) (is_valid : A -> bool)
    (d : database) : Prop :=
  forall x, x ∈ index d -> next_block x <= head_block_num d ->
    exists y, y ∈ index d /\ next_block y <= next_block x /\ is_valid y = false.

(** An index that is the order of one map. *)
Lemma index_all_later {K A} `{Countable K} (m : gmap K A) (key : K * A -> list Z) (first : A -> Z) bound :
  (forall x, exists rest, key x = first x.2 :: rest) ->
  front key (fun x => first x.2 <=? bound) (map_to_list m) = None ->
  forall k a, m !! k = Some a -> bound < first a.
Proof.
  intros Hkey Hf k a Ha. apply (front_all_later key (fun x => first x.2) bound _ Hkey Hf (k, a)).
  by apply elem_of_map_to_list.
Qed.

(** C34. Work that is due gets done, by the loops that take the first object of an
    index while it is due.  While intervals are positive and block numbers do
    not wrap around, each of them ends after at most as many rounds as its index has
    entries, in the state the rounds lead to.  There, no order and no lease has expired, no
    releasing pledge and no effective votes are due, and a witness or platform
    whose average pledge is still due comes after a resigned one that is as early.  Or the body
    threw in that state, and the loop throws the same.  The loops that remove
    resigned witnesses, committee members and platforms remove at most as
    many as their index has; after that no resigned one is left, or the votes
    removed reach the limit of a block while the next one is cleared, or a call for that
    one throws.  No loop runs out of the fuel the model gives it. *)
Theorem due_work_ends {F : FcInt} {C : ChainConfig} (d : database) :
  clock_ok d ->
  ends clear_expired_limit_orders next_expired_order (fun x => cancel_limit_order x.1)
    (fun d => size (limit_orders d))
    (fun d' => forall id o, limit_orders d' !! id = Some o -> head_block_time d' < expiration o) d /\
  ends clear_expired_csaf_leases next_expired_lease end_lease (fun d => size (csaf_leases d))
    (fun d' => forall k l, csaf_leases d' !! k = Some l -> head_block_time d' < l_expiration l) d /\
  ends update_average_witness_pledges next_average_pledge (fun x => update_witness_avg_pledge x.1)
    (fun d => length (witness_index d))
    (only_behind_resigned witness_index (fun x => average_pledge_next_update_block x.2) (fun x => w_is_valid x.2)) d /\
  ends update_average_platform_pledges next_average_platform (fun x => update_platform_avg_pledge x.1.1)
    (fun d => length (platform_index d))
    (only_behind_resigned platform_index (fun x => p_average_pledge_next_update_block x.2) (fun x => p_is_valid x.2)) d /\
  ends process_pledge_balance_release next_release release_pledge_balance (fun d => size (pledge_balances d))
    (fun d' => forall id p, pledge_balances d' !! id = Some p -> head_block_num d' < earliest_release_block_number p) d /\
  ends update_all_effective_votes next_effective_vote (fun x => update_voter_effective_votes x.1)
    (fun d => size (voters d))
    (fun d' => forall k v, voters d' !! k = Some v -> head_block_num d' < effective_votes_next_update_block v) d /\
  resigned_ends clear_resigned_witness_votes witness_ballot next_resigned_witness discard_witness
    (fun d => length (witness_index d)) (fun d' => forall x, x ∈ witness_index d' -> w_is_valid x.2 = true) d /\
  resigned_ends clear_resigned_committee_member_votes committee_ballot next_resigned_member remove_member
    (fun d => length (member_index d)) (fun d' => forall x, x ∈ member_index d' -> c_is_valid x.2 = true) d /\
  resigned_ends clear_resigned_platform_votes platform_ballot next_resigned_platform remove_platform
    (fun d => length (platform_index d)) (fun d' => forall x, x ∈ platform_index d' -> p_is_valid x.2 = true) d.
Proof.
  intros Hok. split_and!.
  - eapply ends_when, orders_finish; [|done]. intros d'. apply index_all_later. by eexists.
  - eapply ends_when, leases_finish; [|done]. intros d'. apply index_all_later. by eexists.
  - eapply ends_when, witness_pledges_finish; [|done]. intros d' Hf x Hx Hb.
    eapply (front_waits _ (fun x => average_pledge_next_update_block x.2) (fun x => w_is_valid x.2));
      [by eexists| |exact Hf|exact Hx|exact Hb]. done.
  - eapply ends_when, platforms_finish; [|done]. intros d' Hf x Hx Hb.
    eapply (front_waits _ (fun x => p_average_pledge_next_update_block x.2) (fun x => p_is_valid x.2));
      [by eexists| |exact Hf|exact Hx|exact Hb]. done.
  - eapply ends_when, releases_finish; [|done]. intros d'. apply index_all_later. by eexists.
  - eapply ends_when, votes_finish; [|done]. intros d'. apply index_all_later. by eexists.
  - by apply witness_resigned_ends.
  - apply committee_resigned_ends.
  - apply platform_resigned_ends.
Qed.

(** ** The irreversible block *)
(** The last blocks the active witnesses confirmed, and how many are past a block. *)
Definition confirmations (d : database) : list Z :=
  omap (fun x => last_confirmed_block_num <$> find_witness_by_uid d x.1) (active_witnesses d).
Definition confirmers (n : Z) (l : list Z) : nat := length (filter (fun c => n <= c) l).

Section order_statistic.
Lemma filter_all (P : Z -> Prop) `{forall x, Decision (P x)} l : Forall P l -> filter P l = l.
Proof. induction 1 as [|x l Hx _ IH]; [done|]. rewrite filter_cons_True by done. by rewrite IH. Qed.
Lemma filter_none (P : Z -> Prop) `{forall x, Decision (P x)} l : Forall (fun x => ~ P x) l -> filter P l = [].
Proof. induction 1 as [|x l Hx _ IH]; [done|]. by rewrite filter_cons_False. Qed.
Lemma confirmers_perm n l l' : l ≡ₚ l' -> confirmers n l = confirmers n l'.
Proof. intros Hp. unfold confirmers. by rewrite Hp. Qed.

(** In a sorted list, at least as many elements as follow position [k] reach the
    one there, and no more reach beyond it. *)
Lemma sorted_confirmers (l : list Z) k v :
  StronglySorted Z.le l -> l !! k = Some v ->
  (length l - k <= confirmers v l)%nat /\ forall m, v < m -> (confirmers m l < length l - k)%nat.
Proof.
  intros Hs Hk. pose proof (take_drop_middle l k v Hk) as El. pose proof (lookup_lt_Some _ _ _ Hk) as Hlt.
  rewrite <- El in Hs. apply StronglySorted_app in Hs as (Hle & _ & Hs).
  apply StronglySorted_inv in Hs as [_ Hafter]. 
  assert (forall m, confirmers m l = confirmers m (take k l ++ v :: drop (S k) l)) as E by (intros m; by rewrite El).
  setoid_rewrite E. unfold confirmers. clear El E.
  assert (Forall (fun x => x <= v) (take k l)) as Hbefore.
  { apply Forall_forall. intros x Hx. apply Hle; [done|left]. }
  split.
  - rewrite filter_app, length_app, filter_cons_True, (filter_all _ (drop _ _)) by (done || apply Hafter).
    cbn. rewrite length_drop. lia.
  - intros m Hm. rewrite filter_app, filter_cons_False by lia.
    rewrite (filter_none _ (take k l)) by (eapply Forall_impl; [exact Hbefore|cbn; lia]).
    cbn. pose proof (length_filter (fun c => m <= c) (drop (S k) l)) as Hf. rewrite length_drop in Hf. lia.
Qed.
End order_statistic.

Lemma active_found d l :
  (forall uid t, (uid, t) ∈ l -> is_Some (find_witness_by_uid d uid)) ->
  exists ws, mapM (M := result) (fun x : Z * scheduled_witness_type => get_witness_by_uid d x.1) l = Ok ws /\
    last_confirmed_block_num <$> ws =
    omap (fun x => last_confirmed_block_num <$> find_witness_by_uid d x.1) l /\ length ws = length l.
Proof.
  induction l as [|[uid t] l IH]; intros Hl; [by exists []|].
  destruct (Hl uid t) as [w Hw]; [by left|]. destruct IH as (ws & E & Ec & En).
  { intros u t' Ht'. apply (Hl u t'). by right. }
  exists (w :: ws). cbn in E |- *. unfold get_witness_by_uid in *. cbn. rewrite Hw. cbn. setoid_rewrite E. cbn.
  by rewrite Ec, En.
Qed.
Lemma offset_quarter n : irreversible_offset n = (n / 4)%nat.
Proof.
  unfold irreversible_offset, IRREVERSIBLE_THRESHOLD. rewrite <- (Nat2Z.id (n / 4)), Nat2Z.inj_div.
  f_equal. change (Z.of_nat 4) with 4. change PERCENT_100 with (4 * 2500) at 2.
  replace ((PERCENT_100 - 7500) * Z.of_nat n) with (Z.of_nat n * 2500) by lia. by rewrite Z.div_mul_cancel_r.
Qed.

(** C35. What becomes irreversible was confirmed by three quarters.  With the
    active witnesses in place, the irreversible block number never goes back;
    if it moves, at least n - n/4 of the n active witnesses have confirmed a
    block at or past it; it is at least every block that many have confirmed;
    nothing else of the state changes.  Of ten witnesses this takes eight
    ([seven_of_ten_not_enough]), although a comment in the function speaks of seven. *)
Theorem irreversible_is_confirmed (d : database) :
  active_witnesses d <> [] ->
  (forall uid t, (uid, t) ∈ active_witnesses d -> is_Some (find_witness_by_uid d uid)) ->
  exists d' quorum, quorum = (length (active_witnesses d) - length (active_witnesses d) / 4)%nat /\
    update_last_irreversible_block d = Ok (tt, d') /\
    last_irreversible_block_num (dgp d) <= last_irreversible_block_num (dgp d') /\
    (last_irreversible_block_num (dgp d') <> last_irreversible_block_num (dgp d) ->
     (quorum <= confirmers (last_irreversible_block_num (dgp d')) (confirmations d))%nat) /\
    (forall n, (quorum <= confirmers n (confirmations d))%nat -> n <= last_irreversible_block_num (dgp d')) /\
    d' = d <| dgp ::= fun g => g <| last_irreversible_block_num := last_irreversible_block_num (dgp d') |> |>.
Proof.
  intros Hne Hact. destruct (active_found _ _ Hact) as (ws & E & Ec & En).
  set (sorted := merge_sort Z.le (last_confirmed_block_num <$> ws)).
  assert (sorted ≡ₚ confirmations d) as Hp by (unfold confirmations; rewrite <- Ec; apply merge_sort_Permutation).
  assert (length sorted = length (active_witnesses d)) as Hlen.
  { rewrite <- En, <- (length_fmap last_confirmed_block_num ws). by apply Permutation_length, merge_sort_Permutation. }
  assert (length (active_witnesses d) <> 0%nat) as H0 by (intros E0; by apply length_zero_iff_nil in E0).
  pose proof (Nat.div_lt (length (active_witnesses d)) 4 ltac:(lia) ltac:(lia)) as Hlt.
  destruct (lookup_lt_is_Some_2 sorted (length (active_witnesses d) / 4)) as [v Hv]; [lia|].
  destruct (sorted_confirmers sorted (length (active_witnesses d) / 4) v) as [Hge Hmax]; [apply (StronglySorted_merge_sort Z.le)|exact Hv|].
  rewrite Hlen in Hge, Hmax. rewrite (confirmers_perm _ _ _ Hp) in Hge.
  assert (forall n, (length (active_witnesses d) - length (active_witnesses d) / 4 <= confirmers n (confirmations d))%nat ->
            n <= v) as Hmax'.
  { intros n Hn. destruct (Z.le_gt_cases n v) as [|Hgt]; [done|]. specialize (Hmax n Hgt).
    rewrite (confirmers_perm _ _ _ Hp) in Hmax. lia. }
  set (d' := if last_irreversible_block_num (dgp d) <? v
             then d <| dgp ::= fun g => g <| last_irreversible_block_num := v |> |> else d).
  exists d', (length (active_witnesses d) - length (active_witnesses d) / 4)%nat.
  split; [done|]. split.
  { unfold update_last_irreversible_block. unfold mbind, M_bind, get, lift. rewrite E. cbn [fst snd].
    fold sorted. rewrite offset_quarter, En, Hv. cbn. unfold d'. by destruct (_ <? v). }
  unfold d'. destruct (Z.ltb_spec (last_irreversible_block_num (dgp d)) v); cbn; split_and!; try done; try lia.
  - intros n Hn. specialize (Hmax' n Hn). lia.
  - by destruct d as [p []].
Qed.

(** Of two leases, one is overdue. *)
Definition backlog : database :=
  bank <| csaf_leases := {[ (10, 20) := {| l_amount := 5; l_expiration := 1500000000; l_id := 0 |};
                            (20, 10) := {| l_amount := 7; l_expiration := 1900000000; l_id := 1 |} ]} |>.
Lemma due_work_ends_witness :
  exists d1 n, @clear_expired_csaf_leases fc_checked backlog = Ok (tt, d1) /\
    next_expired_lease backlog <> None /\ (n <= 2)%nat /\
    rounds next_expired_lease (@end_lease fc_checked) n backlog d1 /\ size (csaf_leases d1) = 1%nat /\
    forall k l, csaf_leases d1 !! k = Some l -> head_block_time d1 < l_expiration l.
Proof.
  destruct (@due_work_ends fc_checked no_proxy backlog) as (_ & (n & d1 & Hn & Hr & H) & _).
  { split; [reflexivity..| | |].
    - split; [vm_compute; discriminate|vm_compute; reflexivity].
    - intros k w Hk. discriminate Hk.
    - intros k p Hk. discriminate Hk. }
  destruct (@clear_expired_csaf_leases fc_checked backlog) as [[[] d2]|e] eqn:E;
    [|exfalso; vm_compute in E; discriminate E].
  destruct H as [<- H]. exists d2, n. split; [reflexivity|]. split; [vm_compute; discriminate|]. split; [exact Hn|].
  split; [exact Hr|]. split; [|exact H].
  change d2 with (match Ok (tt, d2) with Ok (_, x) => x | Throw _ => d2 end). rewrite <- E. vm_compute. reflexivity.
Defined.

(** Ten active witnesses of which three confirmed block 1 and seven block 2: block
    1 is irreversible, not 2, since eight would be needed. *)
Definition ten_witnesses : database :=
  sample_db
    <| witnesses := list_to_map ((fun n => (Z.of_nat n, new_witness <| last_confirmed_block_num := if (n <? 3)%nat then 1 else 2 |>)) <$> seq 0 10) |>
    <| active_witnesses := (fun n => (Z.of_nat n, scheduled_by_vote_top)) <$> seq 0 10 |>
    <| dgp ::= fun g => g <| last_irreversible_block_num := 0 |> |>.
Example seven_of_ten_not_enough :
  (fun x => last_irreversible_block_num (dgp x.2)) <$> update_last_irreversible_block ten_witnesses = Ok 1.
Proof. vm_compute. reflexivity. Qed.

(** Four active witnesses, three of which confirmed block 20. *)
Definition confirmed_at (n : Z) : witness_object := new_witness <| last_confirmed_block_num := n |>.
Definition quartet : database :=
  sample_db
    <| witnesses := {[ 1 := confirmed_at 40; 2 := confirmed_at 10; 3 := confirmed_at 30; 4 := confirmed_at 20 ]} |>
    <| active_witnesses := [(1, scheduled_by_vote_top); (2, scheduled_by_vote_top); (3, scheduled_by_vote_rest);
                            (4, scheduled_by_pledge)] |>
    <| dgp ::= fun g => g <| last_irreversible_block_num := 12 |> |>.
Lemma irreversible_is_confirmed_witness :
  exists d', update_last_irreversible_block quartet = Ok (tt, d') /\ last_irreversible_block_num (dgp d') = 20 /\
    (3 <= confirmers 20 (confirmations quartet))%nat.
Proof.
  destruct (irreversible_is_confirmed quartet) as (d' & q & Hq & H & _ & Hc & _ & _).
  - discriminate.
  - intros uid t Hx. apply list_elem_of_In in Hx.
    repeat (destruct Hx as [[= <- <-]|Hx]; [vm_compute; eauto|]). destruct Hx.
  - assert (last_irreversible_block_num (dgp d') = 20) as E.
    { change d' with (match Ok (tt, d') with Ok (_, x) => x | Throw _ => d' end). rewrite <- H. vm_compute. reflexivity. }
    exists d'. split; [exact H|]. split; [exact E|]. rewrite E in Hc. subst q. apply Hc. vm_compute. discriminate.
Defined.
