(* ===== verification/AssetClaims.v ===== *)
(** * Assets stay well-formed

    The types and ranges of the members of an asset, and what the issuer can
    and cannot change. *)
From S2P Require Import Prelude FlatMap FcInt Asset Pledge ChainState.
From S2P Require Import AccountStats Voter Balance Transfer Fee AssetOps MapSum Frame.
From S2P Require Import Ledger Market MarketProof TreasuryProof.
From Stdlib Require Import Ascii.
Local Open Scope Z_scope.
Import asset pledge chain acc voter balance transfer fee asset_ops.

(** What [validate] of the operations leaves in an asset object. *)
Record asset_ok (a : asset_object) : Prop := {
  ao_precision : 0 <= precision a <= 12;
  ao_max_supply : 0 < max_supply a <= MAX_SHARE_SUPPLY;
  ao_fee_percent : 0 <= market_fee_percent a <= PERCENT_100;
  ao_max_fee : 0 <= max_market_fee a <= MAX_SHARE_SUPPLY;
  ao_permissions : unknown_bits (issuer_permissions a) = 0;
  ao_flags : unknown_bits (flags a) = 0;
  ao_reward : match reward_percent a with Some r => 0 <= r <= PERCENT_100 | None => True end;
}.
Record assets_wf (d : database) : Prop := {
  aw_ok : forall aid a, assets d !! aid = Some a -> asset_ok a;
  aw_symbol : forall aid a, assets d !! aid = Some a -> aid <> CORE_ASSET_AID ->
    validate_asset_symbol (symbol a) = Ok tt;
  aw_unique : forall i j a b, assets d !! i = Some a -> assets d !! j = Some b -> symbol a = symbol b -> i = j;
  aw_ids : forall aid a, assets d !! aid = Some a -> aid < next_asset_id d;
}.

(** The widths of the fields of an operation. *)
Definition create_typed (op : asset_create_operation) : Prop :=
  is_uint 8 (ac_precision op) /\ is_uint 16 (o_market_fee_percent (ac_options op)).
Definition update_typed (op : asset_update_operation) : Prop :=
  match au_precision op with Some p => is_uint 8 p | None => True end /\
  is_uint 16 (o_market_fee_percent (au_options op)).

Section steps.
Context {F : FcInt} {C : ChainConfig}.
Variable is_valid_uid : Z -> bool.
Inductive asset_step (d d' : database) : Prop :=
| step_create op : create_typed op -> validate_create is_valid_uid op = Ok tt ->
    asset_create op d = Ok (tt, d') -> asset_step d d'
| step_change op : update_typed op -> validate_update is_valid_uid op = Ok tt ->
    asset_update op d = Ok (tt, d') -> asset_step d d'
| step_issue issuer to amt : asset_issue issuer to amt d = Ok (tt, d') -> asset_step d d'
| step_reserve payer amt : asset_reserve payer amt d = Ok (tt, d') -> asset_step d d'
| step_claim issuer amt : asset_claim_fees issuer amt d = Ok (tt, d') -> asset_step d d'.
End steps.

Section typing.
Context {F : FcInt} {FL : FcIntLaws F} {C : ChainConfig}.

Lemma with_options_ok o a :
  validate_options o = Ok tt -> is_uint 16 (o_market_fee_percent o) -> 0 <= precision a <= 12 ->
  asset_ok (with_options o a).
Proof.
  intros H [Hf _] Hp. unfold validate_options in H. inv_ok. bool_to_prop.
  split; cbn; try done; try lia.
  destruct (o_reward_percent o) as [[r|]|]; cbn; [|done..]. inv_ok. bool_to_prop. lia.
Qed.
Lemma chars_inj s t : chars s = chars t -> s = t.
Proof.
  unfold chars. intros H. rewrite <- (String.string_of_list_ascii_of_string s), H.
  apply String.string_of_list_ascii_of_string.
Qed.
Lemma symbol_free d sym aid a :
  find_asset_by_symbol d (chars sym) = None -> assets d !! aid = Some a -> symbol a <> sym.
Proof.
  unfold find_asset_by_symbol. intros H Ha E.
  assert ((aid, a) ∈ filter (fun x => chars (symbol x.2) = chars sym) (map_to_list (assets d))) as Hin.
  { apply list_elem_of_filter. split; [by rewrite <- E|by apply elem_of_map_to_list]. }
  destruct (filter _ _); [by apply elem_of_nil in Hin|done].
Qed.
(** The assets, and the id of the next one. *)
Definition registry (d : database) := (assets d, next_asset_id d).
Lemma adjust_registry acc a d u d' : adjust_balance acc a d = Ok (u, d') -> registry d' = registry d.
Proof. intros H%adjust_balance_statics. unfold statics in H. unfold registry. congruence. Qed.
Lemma dynamic_data_registry aid f d u d' : modify_dynamic_data aid f d = Ok (u, d') -> registry d' = registry d.
Proof. intros H. unfold modify_dynamic_data in H. by inv_ok. Qed.

Lemma create_registry op d u d' :
  asset_create op d = Ok (u, d') ->
  registry d' = (<[next_asset_id d := with_options (ac_options op) (new_asset <| issuer := ac_issuer op |>
                     <| symbol := ac_symbol op |> <| precision := ac_precision op |>)]> (assets d),
                 next_asset_id d + 1) /\
  find_asset_by_symbol d (chars (ac_symbol op)) = None.
Proof.
  intros H. unfold asset_create in H. peel H as d0 Hg. peel H as u1 E1. split.
  - unfold create_apply in H. peel H as d1 Hg1. step H as u2 d2 H2. injection H2 as _ <-.
    destruct (0 <? _); cbn [when] in H; [by rewrite (adjust_registry _ _ _ _ _ H)|by injection H as _ <-].
  - unfold create_evaluate in E1. inv_ok. by destruct (find_asset_by_symbol d _).
Qed.
Lemma update_registry op d u d' :
  asset_update op d = Ok (u, d') -> exists a, assets d !! au_asset op = Some a /\
    registry d' = (<[au_asset op := with_options (au_options op)
                       (match au_precision op with Some p => a <| precision := p |> | None => a end)]> (assets d),
                   next_asset_id d).
Proof.
  intros H. unfold asset_update in H. peel H as d0 Hg. peel H as u1 E1. unfold update_apply in H.
  apply bind_ok in H as (a & Ha & [= _ <-]). apply deref_ok in Ha. by exists a.
Qed.
Lemma other_registry is_valid d d' :
  asset_step is_valid d d' ->
  (exists op, create_typed op /\ validate_create is_valid op = Ok tt /\ asset_create op d = Ok (tt, d')) \/
  (exists op, update_typed op /\ validate_update is_valid op = Ok tt /\ asset_update op d = Ok (tt, d')) \/
  registry d' = registry d.
Proof.
  intros [op ? ? ?|op ? ? ?|i t amt H|p amt H|i amt H]; [by eauto 6|by eauto 6|..]; right; right.
  - unfold asset_issue, issue_apply in H. peel H as d0 Hg. peel H as u1 E1. step H as u2 d1 H1.
    rewrite (dynamic_data_registry _ _ _ _ _ H). by eapply adjust_registry.
  - unfold asset_reserve, reserve_apply in H. peel H as d0 Hg. peel H as u1 E1. peel H as n Hn. step H as u2 d1 H1.
    rewrite (dynamic_data_registry _ _ _ _ _ H). by eapply adjust_registry.
  - unfold asset_claim_fees, claim_apply in H. peel H as d0 Hg. peel H as u1 E1. peel H as d1 Hg1. peel H as a Ha.
    peel H as dd Hdd. peel H as u2 E2. step H as u3 d2 H2. rewrite (adjust_registry _ _ _ _ _ H).
    by eapply dynamic_data_registry.
Qed.

Lemma create_wf is_valid op d u d' :
  create_typed op -> validate_create is_valid op = Ok tt -> asset_create op d = Ok (u, d') ->
  assets_wf d -> assets_wf d'.
Proof.
  intros [Ht1 Ht2] Hv H [W1 W2 W3 W4]. apply create_registry in H as [[= Ha Hn] Hfree].
  unfold validate_create in Hv. apply bind_ok in Hv as (u1 & _ & Hv). apply bind_ok in Hv as ([] & Hsym & Hv).
  apply bind_ok in Hv as ([] & Ho & Hv). apply bind_ok in Hv as (u4 & Hp%guard_ok_inv%Z.leb_le & _).
  set (a := with_options _ _) in Ha.
  assert (asset_ok a) as Hok by (apply with_options_ok; [done|done|]; cbn; destruct Ht1; lia).
  split; intros *; rewrite ?Ha, ?Hn.
  - intros [[_ <-]|[_ Hi]]%lookup_insert_Some; [done|by eapply W1].
  - intros [[_ <-]|[_ Hi]]%lookup_insert_Some; [done|by eapply W2].
  - intros [[<- <-]|[Hi1 Hi]]%lookup_insert_Some [[<- <-]|[Hj1 Hj]]%lookup_insert_Some Hs; [done|..].
    + symmetry in Hs. by destruct (symbol_free _ _ _ _ Hfree Hj).
    + by destruct (symbol_free _ _ _ _ Hfree Hi).
    + by eapply W3.
  - intros [[<- _]|[_ Hi]]%lookup_insert_Some; [lia|]. specialize (W4 _ _ Hi). lia.
Qed.
Lemma update_wf is_valid op d u d' :
  update_typed op -> validate_update is_valid op = Ok tt -> asset_update op d = Ok (u, d') ->
  assets_wf d -> assets_wf d'.
Proof.
  intros [Ht1 Ht2] Hv H [W1 W2 W3 W4]. apply update_registry in H as (a & Ha & [= Ed En]).
  unfold validate_update in Hv. apply bind_ok in Hv as (u1 & _ & Hv). apply bind_ok in Hv as (u2 & Hp%guard_ok_inv & Ho).
  set (a' := with_options _ _) in Ed.
  assert (asset_ok a') as Hok.
  { apply with_options_ok; [done|done|]. pose proof (ao_precision _ (W1 _ _ Ha)) as Hpr.
    destruct (au_precision op) as [p|]; cbn; [|done]. apply Z.leb_le in Hp. destruct Ht1. lia. }
  assert (symbol a' = symbol a) as Hs by (unfold a'; by destruct (au_precision op)).
  assert (forall i b, <[au_asset op := a']> (assets d) !! i = Some b ->
            exists b0, assets d !! i = Some b0 /\ symbol b = symbol b0) as Hsame.
  { intros i b [[<- <-]|[_ Hi]]%lookup_insert_Some; eauto. }
  split; intros *; rewrite ?Ed, ?En.
  - intros [[_ <-]|[_ Hi]]%lookup_insert_Some; [done|by eapply W1].
  - intros (b & Hb & ->)%Hsame. by eapply W2.
  - intros (b1 & Hb1 & ->)%Hsame (b2 & Hb2 & ->)%Hsame. by eapply W3.
  - intros (b & Hb & _)%Hsame. by eapply W4.
Qed.
Lemma asset_step_wf is_valid d d' : asset_step is_valid d d' -> assets_wf d -> assets_wf d'.
Proof.
  intros [(op & Ht & Hv & H)|[(op & Ht & Hv & H)|[= Ha Hn]]]%other_registry Hw.
  - by eapply create_wf.
  - by eapply update_wf.
  - destruct Hw as [W1 W2 W3 W4]. split; rewrite ?Ha, ?Hn; done.
Qed.
(** An asset keeps its symbol and its issuer. *)
Definition same_identity (d d' : database) : Prop :=
  forall aid a, assets d !! aid = Some a ->
    exists a', assets d' !! aid = Some a' /\ symbol a' = symbol a /\ issuer a' = issuer a.
Lemma asset_step_identity is_valid d d' : asset_step is_valid d d' -> assets_wf d -> same_identity d d'.
Proof.
  intros [(op & _ & _ & H)|[(op & _ & _ & H)|[= Ha _]]]%other_registry Hw aid a Haid.
  - apply create_registry in H as [[= Ea _] _]. exists a. split; [|done]. rewrite Ea, lookup_insert_ne; [done|].
    intros <-. apply (aw_ids _ Hw) in Haid. lia.
  - apply update_registry in H as (b & Hb & [= Ea _]). rewrite Ea. destruct (decide (au_asset op = aid)) as [<-|Hne].
    + rewrite Haid in Hb. injection Hb as <-. rewrite lookup_insert_eq. eexists. split; [done|].
      by destruct (au_precision op).
    + rewrite lookup_insert_ne by done. eauto.
  - rewrite Ha. eauto.
Qed.
End typing.

(** C36. Assets are well-formed.  Over any sequence of operations that create,
    update, issue, reserve assets or claim their fees, every asset's members are in
    their ranges (at most 12 decimals, a supply limit between 1 and the
    maximum, fee rates of at most 100%, known flags and permissions), user
    assets have valid symbols, no two assets share one, and an asset keeps its symbol and
    its issuer. *)
Theorem assets_stay_wf {F : FcInt} {FL : FcIntLaws F} {C : ChainConfig} (is_valid_uid : Z -> bool)
    (d d' : database) :
  rtc (asset_step is_valid_uid) d d' -> assets_wf d -> assets_wf d' /\ same_identity d d'.
Proof.
  induction 1 as [d|d1 d2 d3 Hs _ IH]; intros Hw; [split; [done|]; intros aid a Ha; eauto|].
  destruct (IH (asset_step_wf _ _ _ Hs Hw)) as [Hw3 Hi3]. split; [done|]. intros aid a Ha.
  destruct (asset_step_identity _ _ _ Hs Hw aid a Ha) as (a2 & Ha2 & E1 & E2).
  destruct (Hi3 aid a2 Ha2) as (a3 & Ha3 & E3 & E4). exists a3. split_and!; [done|congruence..].
Qed.

Definition gold_options : asset_options :=
  {| o_max_supply := 1000; o_market_fee_percent := 30; o_max_market_fee := 100; o_issuer_permissions := 4;
     o_flags := 513; o_whitelist_authorities := ∅; o_blacklist_authorities := ∅; o_whitelist_markets := ∅;
     o_blacklist_markets := ∅; o_description := EmptyString; o_reward_percent := None |}.
Definition gold : asset_create_operation :=
  {| ac_issuer := 10; ac_symbol := "GOLD"; ac_precision := 3; ac_options := gold_options;
     ac_initial_supply := Some (Some 40) |}.
(** A chain with the core asset only. *)
Definition plain : database :=
  bank <| assets := {[ 0 := new_asset <| symbol := "YOYO" |> <| precision := 5 |> <| max_supply := 1000000 |> ]} |>
    <| asset_dynamic_data := {[ 0 := {| current_supply := 1400; accumulated_fees := 0 |} ]} |>.
Lemma plain_wf : assets_wf plain.
Proof.
  split.
  - intros aid a Ha. cbn in Ha. apply lookup_singleton_Some in Ha as [_ <-]. split; cbn; try done; lia.
  - intros aid a Ha Hne. cbn in Ha. apply lookup_singleton_Some in Ha as [<- _]. done.
  - intros i j a b Ha Hb _. cbn in Ha, Hb. apply lookup_singleton_Some in Ha as [<- _], Hb as [<- _]. done.
  - intros aid a Ha. cbn in Ha. apply lookup_singleton_Some in Ha as [<- _]. done.
Qed.
Lemma assets_stay_wf_witness :
  exists d1 d2 a, @asset_create fc_checked no_proxy gold plain = Ok (tt, d1) /\
    @asset_issue fc_checked no_proxy 10 20 (Asset 60 1) d1 = Ok (tt, d2) /\
    assets d2 !! 1 = Some a /\ asset_ok a /\ balance_of d2 10 1 = 40 /\ balance_of d2 20 1 = 60.
Proof.
  destruct (@asset_create fc_checked no_proxy gold plain) as [[[] d1]|e] eqn:E1;
    [|exfalso; vm_compute in E1; discriminate E1].
  assert (@asset_issue fc_checked no_proxy 10 20 (Asset 60 1) d1 =
    match @asset_create fc_checked no_proxy gold plain with
    | Ok (_, d) => @asset_issue fc_checked no_proxy 10 20 (Asset 60 1) d | Throw e => Throw e end) as E2
    by (rewrite E1; reflexivity).
  destruct (@asset_issue fc_checked no_proxy 10 20 (Asset 60 1) d1) as [[[] d2]|e] eqn:E3;
    [|exfalso; vm_compute in E2; discriminate E2].
  destruct (@assets_stay_wf fc_checked fc_checked_laws no_proxy (fun _ => true) plain d2) as [Hw _].
  - apply rtc_l with d1; [|apply rtc_once].
    + refine (step_create _ _ _ gold _ _ E1); [split; split; vm_compute; (reflexivity || discriminate)|reflexivity].
    + exact (step_issue _ _ _ 10 20 (Asset 60 1) E3).
  - exact plain_wf.
  - assert (d2 = match Ok (tt, d2) with Ok (_, d) => d | Throw _ => plain end) as Ed by reflexivity.
    rewrite E2 in Ed. destruct (assets d2 !! 1) as [a|] eqn:Ea; [|exfalso; rewrite Ed in Ea; vm_compute in Ea; discriminate Ea].
    exists d1, d2, a. split; [reflexivity|]. split; [exact E3|]. split; [exact Ea|]. split; [exact (aw_ok _ Hw 1 a Ea)|].
    rewrite Ed. split; vm_compute; reflexivity.
Defined.
