(* ===== verification/FeeClaims.v ===== *)
(** * Fees are what they say

    What paying a fee takes from whom, and that the fee set for an operation is
    the fee the evaluator asks for. *)
From S2P Require Import Prelude FlatMap FcInt Asset Pledge ChainState.
From S2P Require Import AccountStats Voter Balance Transfer Fee MapSum Frame Ledger.
From S2P Require Import Market MarketProof Treasury TreasuryProof.
Local Open Scope Z_scope.
Import asset pledge chain acc voter balance transfer fee.

(** ** The coin-seconds of accounts are no matter of balances *)
Definition csaf_of (d : database) : gmap Z Z := csaf <$> stats d.
#[export] Instance csaf_voting : VotingFrame csaf_of.
Proof.
  split; try done. intros d uid s Hs. unfold csaf_of. cbn. rewrite fmap_insert. cbn.
  apply insert_id. by rewrite lookup_fmap, Hs.
Qed.

Section fees.
Context {F : FcInt} {FL : FcIntLaws F} {C : ChainConfig}.

Lemma adjust_balance_csaf acc a : keeps csaf_of (adjust_balance acc a).
Proof.
  unfold adjust_balance, adjust_core. keep.
  - intros d u d' H. unfold adjust_balance_object in H. destruct (balances d !! _); by inv_ok.
  - apply keeps_check_core_debit, _.
  - intros d u d' H. apply modify_stats_ok in H as (s & s' & Hs & Hf & ->). unfold csaf_of. cbn.
    rewrite fmap_insert, insert_id; [done|]. rewrite lookup_fmap, Hs. cbn. f_equal.
    apply bind_ok in Hf as (s1 & Hs1 & Hf). apply bind_ok in Hf as (b & _ & [= <-]). cbn.
    destruct (_ <? _); [|by injection Hs1 as ->]. unfold update_coin_seconds_earned in Hs1.
    destruct (_ && _); [by injection Hs1 as ->|]. by apply bind_ok in Hs1 as ([e v] & _ & [= <-]).
  - apply keeps_refresh_votes, _.
Qed.

(** The part paid from the balance. *)
Lemma fee_from_balance_ok uid p d u d' :
  0 <= paid_from_balance p -> fee_from_account p = Asset (paid_from_balance p) CORE_ASSET_AID ->
  when (0 <? amount (fee_from_account p)) (a ← lift (neg (fee_from_account p)); adjust_balance uid a) d = Ok (u, d') ->
  ledger_inv (ledger_of d) ->
  balance_of d' uid CORE_ASSET_AID = balance_of d uid CORE_ASSET_AID - paid_from_balance p /\
  0 <= balance_of d' uid CORE_ASSET_AID /\
  (forall k, k <> (uid, CORE_ASSET_AID) -> balances d' !! k = balances d !! k) /\
  (forall x, prepaid <$> stats d' !! x = prepaid <$> stats d !! x) /\
  (forall x, csaf <$> stats d' !! x = csaf <$> stats d !! x) /\ asset_dynamic_data d' = asset_dynamic_data d.
Proof.
  intros Hb Ha H Hi. rewrite Ha in H. cbn [amount] in H. destruct (Z.ltb_spec 0 (paid_from_balance p)); cbn [when] in H.
  - peel H as n Hn. apply bind_ok in Hn as (x & Hx & [= <-]). apply safe_neg_ok in Hx as [-> _].
    pose proof (adjust_balance_csaf _ _ _ _ _ H) as Hcs.
    pose proof (adjust_balance_inv _ _ _ _ _ H Hi) as Hi'.
    apply adjust_balance_effect in H as [Hst [[Hz _]|(_ & HL & _)]]; [cbn in Hz; lia|]. cbn [amount asset_id] in HL.
    pose proof (f_equal l_balances HL) as EB. pose proof (f_equal l_money HL) as EM. cbn in EB, EM.
    assert (balance_of d' uid CORE_ASSET_AID = balance_of d uid CORE_ASSET_AID - paid_from_balance p) as E1
      by (unfold balance_of; rewrite EB, lookup_insert_eq; reflexivity).
    split_and!; [done| | | | |].
    + unfold balance_of. destruct (balances d' !! _) eqn:E; cbn; [|lia]. by apply (proj2 Hi' _ _ E).
    + intros k Hk. by rewrite EB, lookup_insert_ne.
    + intros x. pose proof (f_equal (fun m => m_prepaid <$> m !! x) EM) as E. cbn in E.
      rewrite lookup_fmap in E. destruct (decide (uid = x)) as [->|Hne].
      * rewrite lookup_alter_eq, lookup_fmap in E. by destruct (stats d' !! x), (stats d !! x); cbn in E.
      * rewrite lookup_alter_ne, lookup_fmap in E by done. by destruct (stats d' !! x), (stats d !! x); cbn in E.
    + intros x. pose proof (f_equal (fun m => m !! x) Hcs) as E. unfold csaf_of in E. by rewrite !lookup_fmap in E.
    + apply (f_equal l_fees) in HL. exact HL.
  - injection H as _ <-. replace (paid_from_balance p) with 0 by lia. split_and!; try done; [lia|].
    unfold balance_of. destruct (balances d !! _) eqn:E; cbn; [|lia]. by apply (proj2 Hi _ _ E).
Qed.
End fees.

Section process.
Context {F : FcInt} {FL : FcIntLaws F} {C : ChainConfig}.

(** The parts paid from prepaid coins and coin-seconds, and what leaves the supply. *)
Lemma process_fee_ok st uid p d u d' :
  skip_fee st = false -> 0 <= paid_from_prepaid p -> 0 <= paid_from_csaf p ->
  process_fee_options st uid p d = Ok (u, d') ->
  balances d' = balances d /\
  (exists s s', stats d !! uid = Some s /\ stats d' !! uid = Some s' /\
     prepaid s' = prepaid s - paid_from_prepaid p /\ csaf s' = csaf s - paid_from_csaf p /\
     (0 < paid_from_prepaid p -> paid_from_prepaid p <= prepaid s) /\
     (0 < paid_from_csaf p -> paid_from_csaf p <= csaf s)) /\
  (forall x, x <> uid -> stats d' !! x = stats d !! x) /\
  issued_of CORE_ASSET_AID d' = issued_of CORE_ASSET_AID d - (paid_from_balance p + paid_from_prepaid p).
Proof.
  intros Hsk Hp Hc H. unfold process_fee_options in H. rewrite Hsk in H. peel H as dg Hg. peel H as sx Hs.
  apply deref_ok in Hs. peel H as u2 E2. peel H as u3 E3. step H as u4 d2 H2. peel H as burnt Hbu.
  apply safe_add_ok in Hbu as [-> _].
  apply modify_stats_ok in H2 as (s & s' & Hss & Hf & ->). rewrite Hs in Hss. injection Hss as <-.
  unfold modify_dynamic_data in H. apply bind_ok in H as (a & _ & H). apply bind_ok in H as (dd & Hdd & H).
  apply deref_ok in Hdd. apply bind_ok in H as (dd' & Hd' & [= _ <-]).
  apply bind_ok in Hd' as (y & Hy & [= <-]). apply safe_sub_ok in Hy as [-> _].
  apply bind_ok in Hf as (x & Hx & Hf). apply bind_ok in Hf as (z & Hz & [= <-]).
  split_and!; [done| | |].
  - eexists sx, _. split; [done|]. split; [cbn; apply lookup_insert_eq|]. cbn.
    assert (x = prepaid sx - paid_from_prepaid p /\ (0 < paid_from_prepaid p -> paid_from_prepaid p <= prepaid sx)) as [-> ?].
    { destruct (Z.ltb_spec 0 (paid_from_prepaid p)); cbn in E2.
      - apply safe_sub_ok in Hx as [-> _]. apply Z.leb_le in E2. done.
      - injection Hx as <-. lia. }
    assert (z = csaf sx - paid_from_csaf p /\ (0 < paid_from_csaf p -> paid_from_csaf p <= csaf sx)) as [-> ?]; [|done].
    destruct (Z.ltb_spec 0 (paid_from_csaf p)); cbn in E3.
    + apply safe_sub_ok in Hz as [-> _]. apply Z.leb_le in E3. done.
    + injection Hz as <-. lia.
  - intros y Hne. cbn. by rewrite lookup_insert_ne.
  - unfold issued_of, issued. rewrite !lookup_fmap. cbn in Hdd |- *. rewrite lookup_insert_eq, Hdd. cbn. lia.
Qed.
End process.

(** C37. A fee is paid exactly.  A validated fee has three parts that add up to its
    total; taking it lowers the payer's balance, prepaid coins and coin-seconds by exactly those
    parts, none beyond what the payer has, and nobody else's; the coins paid leave the
    recorded supply.  A part paid from the balance needs the payer's owner or active authority. *)
Theorem fee_is_exact {F : FcInt} {FL : FcIntLaws F} {C : ChainConfig} (st : eval_state) (uid : Z)
    (fee : fee_type) (p : prepared_fee) (d0 d d' : database) (u : unit) :
  validate_op_fee fee = Ok tt -> prepare_fee uid fee d0 = Ok p -> skip_fee st = false ->
  ledger_inv (ledger_of d) -> take_fee st uid p d = Ok (u, d') ->
  paid_from_balance p + paid_from_prepaid p + paid_from_csaf p = amount (fee_total fee) /\
  balance_of d' uid CORE_ASSET_AID = balance_of d uid CORE_ASSET_AID - paid_from_balance p /\
  0 <= balance_of d' uid CORE_ASSET_AID /\
  (exists s s', stats d !! uid = Some s /\ stats d' !! uid = Some s' /\
     prepaid s' = prepaid s - paid_from_prepaid p /\ csaf s' = csaf s - paid_from_csaf p /\
     (0 < paid_from_prepaid p -> 0 <= prepaid s') /\ (0 < paid_from_csaf p -> 0 <= csaf s')) /\
  (forall k, k <> (uid, CORE_ASSET_AID) -> balances d' !! k = balances d !! k) /\
  (forall x, x <> uid -> prepaid <$> stats d' !! x = prepaid <$> stats d !! x /\
                         csaf <$> stats d' !! x = csaf <$> stats d !! x) /\
  issued_of CORE_ASSET_AID d' = issued_of CORE_ASSET_AID d - (paid_from_balance p + paid_from_prepaid p) /\
  (0 < paid_from_balance p -> fee_authorities fee = Some [owner_auth; active_auth]).
Proof.
  intros Hv Hp Hsk Hi H. pose proof (prepare_fee_ok _ _ _ _ Hv Hp) as (P1 & P2 & P3 & P4 & P5 & P6).
  unfold take_fee in H. step H as u1 d1 H1.
  destruct (fee_from_balance_ok _ _ _ _ _ P1 P6 H1 Hi) as (B1 & B2 & B3 & B4 & B5 & B6).
  destruct (process_fee_ok _ _ _ _ _ _ Hsk P2 P3 H) as (Q1 & (s1 & s' & Hs1 & Hs' & Q2 & Q3 & Q4 & Q5) & Q6 & Q7).
  pose proof (B4 uid) as S4. pose proof (B5 uid) as S5. rewrite Hs1 in S4, S5.
  destruct (stats d !! uid) as [s|] eqn:Es; [|done]. cbn in S4, S5. injection S4 as S4. injection S5 as S5.
  unfold balance_of in *. rewrite Q1. split_and!; try done; [lia|..].
  - exists s, s'. split_and!; [done|done|lia..].
  - intros x Hx. rewrite (Q6 x Hx). by split.
  - unfold issued_of, issued in *. by rewrite B6 in Q7.
  - intros Hpos. unfold prepare_fee in Hp. apply bind_ok in Hp as (a & _ & Hp).
    apply bind_ok in Hp as (u2 & _ & Hp). apply bind_ok in Hp as (s2 & _ & [= <-]). cbn in *.
    unfold fee_authorities. destruct (Z.eqb_spec (amount (fee_total fee)) 0); [lia|].
    destruct (fee_options fee) as [fov|]; [|done]. destruct (fee_from_balance fov) as [x|]; cbn in *; [|lia].
    by destruct (Z.eqb_spec (amount x) 0); [lia|].
Qed.

(** A fee of 30, 10 from the balance and 20 prepaid. *)
Definition mixed_fee : fee_type :=
  {| fee_total := Asset 30 0;
     fee_options := Some {| fee_from_balance := Some (Asset 10 0); fee_from_prepaid := Some (Asset 20 0);
                            fee_from_csaf := None |} |}.
Definition checked_fees : eval_state := {| skip_fee := false; skip_fee_schedule_check := false |}.
Lemma fee_is_exact_witness :
  exists p d', prepare_fee 10 mixed_fee bank = Ok p /\
    @take_fee fc_checked no_proxy checked_fees 10 p bank = Ok (tt, d') /\
    balance_of d' 10 0 = 990 /\ issued_of 0 d' = 1370 /\
    fee_authorities mixed_fee = Some [owner_auth; active_auth].
Proof.
  destruct (prepare_fee 10 mixed_fee bank) as [p|e] eqn:Ep; [|exfalso; vm_compute in Ep; discriminate Ep].
  assert (@take_fee fc_checked no_proxy checked_fees 10 p bank =
    match prepare_fee 10 mixed_fee bank with
    | Ok q => @take_fee fc_checked no_proxy checked_fees 10 q bank | Throw e => Throw e end) as E
    by (rewrite Ep; reflexivity).
  destruct (@take_fee fc_checked no_proxy checked_fees 10 p bank) as [[[] d']|e] eqn:Et;
    [|exfalso; vm_compute in E; discriminate E].
  destruct (@fee_is_exact fc_checked fc_checked_laws no_proxy checked_fees 10 mixed_fee p bank bank d' tt)
    as (_ & Hb & _ & _ & _ & _ & Hi & Ha); [reflexivity|exact Ep|reflexivity|exact bank_inv|exact Et|].
  assert (paid_from_balance p = 10 /\ paid_from_prepaid p = 20) as [P1 P2].
  { change p with (match Ok p with Ok q => q | Throw _ => p end). rewrite <- Ep. split; reflexivity. }
  rewrite P1 in Hb, Hi, Ha. rewrite P2 in Hi.
  exists p, d'. split; [reflexivity|]. split; [exact Et|].
  split; [rewrite Hb; reflexivity|]. split; [rewrite Hi; reflexivity|]. apply Ha. lia.
Defined.

Section set_fee.
Context {F : FcInt} {FL : FcIntLaws F} {C : ChainConfig}.
Lemma safe_add_small x y : - 2 ^ 63 <= x + y < 2 ^ 63 -> safe_add x y = Ok (x + y).
Proof. intros. rewrite safe_add_law. unfold checked. by rewrite (proj2 (int64_ok_iff _)). Qed.
Lemma add_fee_part_small x a :
  0 <= a -> - 2 ^ 63 <= x + a < 2 ^ 63 ->
  add_fee_part (Asset x CORE_ASSET_AID) (Some (Asset a CORE_ASSET_AID)) = Ok (Asset (x + a) CORE_ASSET_AID).
Proof.
  intros Ha Hb. unfold add_fee_part, validate_fee_asset, add. cbn. rewrite (proj2 (Z.leb_le 0 a) Ha). cbn.
  by rewrite safe_add_small.
Qed.
(** The fee that is set: all in coins, or the rest with coin-seconds. *)
Definition coins_only (fee : Z) : fee_type := {| fee_total := Asset fee CORE_ASSET_AID; fee_options := None |}.
Definition with_csaf (fee real : Z) (rest : option asset) : fee_type :=
  {| fee_total := Asset fee CORE_ASSET_AID;
     fee_options := Some {| fee_from_balance := rest; fee_from_prepaid := None;
                            fee_from_csaf := Some (Asset (fee - real) CORE_ASSET_AID) |} |}.
Lemma set_fee_shape fee real f :
  0 <= fee <= MAX_SHARE_SUPPLY -> 0 <= real <= MAX_SHARE_SUPPLY -> set_fee_with_csaf (fee, real) = Ok f ->
  f = coins_only fee /\ fee <= real \/
  exists rest, f = with_csaf fee real rest /\ real < fee /\
    (rest = Some (Asset real CORE_ASSET_AID) \/ rest = None /\ real = 0).
Proof.
  intros Hf Hr H. unfold set_fee_with_csaf in H. cbn [fst snd] in H.
  apply bind_ok in H as (m & Hm & H). apply safe_sub_ok in Hm as [-> _].
  destruct (Z.ltb_spec 0 (fee - real)); [right|left; injection H as <-; split; [done|lia]].
  apply bind_ok in H as (rest & Hrest & [= <-]). destruct (Z.ltb_spec (fee - real) fee).
  - apply bind_ok in Hrest as (x & Hx & [= <-]). apply safe_sub_ok in Hx as [-> _]. cbn.
    replace (fee - (fee - real)) with real by lia. eexists. split; [done|]. split; [lia|by left].
  - injection Hrest as <-. eexists. split; [done|]. split; [lia|]. right. split; [done|lia].
Qed.
Lemma set_fee_valid fee real f :
  0 <= fee <= MAX_SHARE_SUPPLY -> 0 <= real <= MAX_SHARE_SUPPLY -> set_fee_with_csaf (fee, real) = Ok f ->
  validate_op_fee f = Ok tt.
Proof.
  intros Hf Hr H. destruct (set_fee_shape _ _ _ Hf Hr H) as [[-> _]|(rest & -> & Hlt & Hrest)];
    (apply bind_ok; exists tt; split;
       [unfold validate_fee_asset; cbn; by rewrite (proj2 (Z.leb_le 0 fee)) by lia|]); [done|].
  destruct Hrest as [->|[-> ->]]; cbn [with_csaf fee_options fee_from_balance fee_from_prepaid fee_from_csaf].
  - apply bind_ok. eexists. split; [apply add_fee_part_small; lia|]. apply bind_ok. eexists. split; [done|].
    apply bind_ok. eexists. split; [apply add_fee_part_small; lia|]. apply guard_ok_inv, Z.eqb_eq. cbn. lia.
  - apply bind_ok. eexists. split; [done|]. apply bind_ok. eexists. split; [done|].
    apply bind_ok. eexists. split; [apply add_fee_part_small; lia|]. apply guard_ok_inv, Z.eqb_eq. cbn. lia.
Qed.
Lemma prepared_parts uid f d p :
  prepare_fee uid f d = Ok p ->
  total_fee_paid p = amount (fee_total f) /\
  paid_from_balance p = match fee_options f with None => amount (fee_total f)
                        | Some fov => fee_part (fee_from_balance fov) end /\
  paid_from_prepaid p = match fee_options f with None => 0 | Some fov => fee_part (fee_from_prepaid fov) end /\
  paid_from_csaf p = match fee_options f with None => 0 | Some fov => fee_part (fee_from_csaf fov) end.
Proof.
  unfold prepare_fee. intros H. apply bind_ok in H as (a & _ & H). apply bind_ok in H as (u & _ & H).
  apply bind_ok in H as (s & _ & [= <-]). cbn. split_and!; try done.
  destruct (fee_options f) as [fov|]; [|done]. by destruct (fee_from_balance fov).
Qed.
End set_fee.

(** C38. The fee that is set is the fee that is asked for.  For a fee and the part of it that
    must be paid in coins, [set_fee_with_csaf] sets a fee that validates, pays
    as much as possible with coin-seconds, and passes the check of the
    evaluator exactly when the part in coins is not more than the fee.  (When a
    minimum for that part exceeds the fee, the fee that is set is refused.) *)
Theorem set_fee_accepted {F : FcInt} {FL : FcIntLaws F} {C : ChainConfig} (fee real uid : Z)
    (st : eval_state) (f : fee_type) (p : prepared_fee) (d : database) :
  0 <= fee <= MAX_SHARE_SUPPLY -> 0 <= real <= MAX_SHARE_SUPPLY -> skip_fee_schedule_check st = false ->
  set_fee_with_csaf (fee, real) = Ok f -> prepare_fee uid f d = Ok p ->
  validate_op_fee f = Ok tt /\ total_fee_paid p = fee /\
  paid_from_csaf p = Z.max 0 (fee - real) /\
  check_fee st (Ok (fee, real)) p = (if real <=? fee then Ok tt else Throw insufficient_fee).
Proof.
  intros Hf Hr Hst H Hp. pose proof (set_fee_valid _ _ _ Hf Hr H) as Hv.
  destruct (prepared_parts _ _ _ _ Hp) as (Et & Eb & Ep & Ec).
  assert (total_fee_paid p = fee /\ paid_from_csaf p = Z.max 0 (fee - real) /\
    paid_from_balance p + paid_from_prepaid p = Z.min fee real) as (E1 & E2 & E3).
  { destruct (set_fee_shape _ _ _ Hf Hr H) as [[-> Hle]|(rest & -> & Hlt & [->|[-> ->]])]; cbn in *; lia. }
  split_and!; try done. unfold check_fee. rewrite Hst. cbn. rewrite E1, Z.leb_refl. cbn.
  rewrite safe_add_small by lia. cbn. rewrite E3.
  destruct (Z.leb_spec real fee); [rewrite (proj2 (Z.leb_le real _)) by lia|rewrite (proj2 (Z.leb_gt real _)) by lia]; done.
Qed.
(** A fee of 100 of which 30 must be coins; and one whose part in coins exceeds it. *)
Lemma set_fee_accepted_witness :
  exists f p, @set_fee_with_csaf fc_checked (100, 30) = Ok f /\ prepare_fee 10 f bank = Ok p /\
    paid_from_csaf p = 70 /\ @check_fee fc_checked checked_fees (Ok (100, 30)) p = Ok tt.
Proof.
  destruct (@set_fee_with_csaf fc_checked (100, 30)) as [f|e] eqn:Ef; [|exfalso; vm_compute in Ef; discriminate Ef].
  destruct (prepare_fee 10 f bank) as [p|e] eqn:Ep.
  - destruct (@set_fee_accepted fc_checked fc_checked_laws no_proxy 100 30 10 checked_fees f p bank)
      as (_ & _ & Hc & Hk); [lia|lia|reflexivity|exact Ef|exact Ep|].
    exists f, p. split; [reflexivity|]. split; [exact Ep|]. split; [exact Hc|exact Hk].
  - exfalso. vm_compute in Ef. injection Ef as <-. vm_compute in Ep. discriminate Ep.
Defined.
Example set_fee_refused :
  @set_fee_with_csaf fc_checked (0, 1000) = Ok (coins_only 0) /\
  @check_fee fc_checked checked_fees (Ok (0, 1000))
    {| fee_from_account := Asset 0 0; total_fee_paid := 0; paid_from_balance := 0; paid_from_prepaid := 0;
       paid_from_csaf := 0 |} = Throw insufficient_fee.
Proof. split; reflexivity. Qed.
