(* ===== verification/PushBlock.v ===== *)
(** * The block database and the pushing of blocks (libraries/chain/block_database.cpp,
      db_block.cpp)

    Applied blocks are kept on disk in two files: the packed blocks one after
    another, and an index of fixed-size entries, the entry of a block at the
    position its number gives.  Blocks are only appended to the first file, so
    an entry stands for the block it points to; a size of 0 marks a block that
    was removed.  Unpacking what was packed gives the block back. *)
From S2P Require Import Prelude Keep Block ForkDb.
Local Open Scope Z_scope.
Import block.

Module blockdb.

Record index_entry {T : Type} := { block_id : Z; contents : option (signed_block T) }.
Arguments index_entry : clear implicits.

(** The entries written below the end of the index file, which has [count]
    entries; a part of the file never written to is full of zeros. *)
Record block_database {T : Type} := { entries : gmap Z (index_entry T); count : Z }.
Arguments block_database : clear implicits.
#[export] Instance block_database_fields {T} : Fields (block_database T) :=
  of_ctor (@Build_block_database T) <*> entries <*> count.

Section block_database.
Context {T : Type} (sha224 : signed_block T -> Z).
#[local] Notation bid := (id sha224).
#[local] Notation M := (M (block_database T)).
Implicit Types (d : block_database T) (b : signed_block T) (e : index_entry T).

Definition empty_block_database : block_database T := {| entries := ∅; count := 0 |}.
Definition zero_entry : index_entry T := {| block_id := 0; contents := None |}.
(** Reading the entry at a position below the end. *)
Definition entry_at d (num : Z) : index_entry T := default zero_entry (entries d !! num).
(** The block an entry points to, if it unpacks and has the id of the entry. *)
Definition block_of e : option (signed_block T) :=
  match contents e with
  | Some b => if bid b =? block_id e then Some b else None
  | None => None
  end.

Definition store (i : Z) b : M unit :=
  let i := if i =? 0 then bid b else i in
  let num := num_from_id i in
  upd (fun d => {| entries := <[num := {| block_id := i; contents := Some b |}]> (entries d);
                   count := Z.max (count d) (num + 1) |}).

Definition remove (i : Z) : M unit :=
  d ← get;
  let num := num_from_id i in
  if count d <=? num then throw key_not_found_exception
  else when (block_id (entry_at d num) =? i)
         (put (d <| entries ::= <[num := {| block_id := i; contents := None |}]> |>)).

Definition contains d (i : Z) : bool :=
  if i =? 0 then false
  else
    let num := num_from_id i in
    (num + 1 <=? count d) && (block_id (entry_at d num) =? i) &&
    match contents (entry_at d num) with Some _ => true | None => false end.

Definition fetch_block_id d (num : Z) : result Z :=
  if count d <=? num then Throw key_not_found_exception
  else
    guard_ok (negb (block_id (entry_at d num) =? 0)) assert_exception ;;
    Ok (block_id (entry_at d num)).

(** Every exception is caught. *)
Definition fetch_optional d (i : Z) : option (signed_block T) :=
  let num := num_from_id i in
  if count d <=? num then None
  else if block_id (entry_at d num) =? i then block_of (entry_at d num) else None.

Definition fetch_by_number d (num : Z) : option (signed_block T) :=
  if count d <=? num then None else block_of (entry_at d num).

(** [last_index_entry] reads backwards and cuts the entries off that do not
    lead to a block. *)
Definition resize (num : Z) d : block_database T :=
  {| entries := filter (fun x => x.1 < num) (entries d); count := num |}.
Fixpoint last_from (pos : nat) d : option (index_entry T) * block_database T :=
  match pos with
  | O => (None, d)
  | S pos =>
      let e := entry_at d (Z.of_nat pos) in
      match block_of e with
      | Some _ => (Some e, d)
      | None => last_from pos (resize (Z.of_nat pos) d)
      end
  end.
Definition last_index_entry : M (option (index_entry T)) := fun d =>
  Ok (last_from (Z.to_nat (count d)) d).
Definition last : M (option (signed_block T)) :=
  e ← last_index_entry;
  d ← get;
  mret (match e with Some e => fetch_by_number d (num_from_id (block_id e)) | None => None end).
Definition last_id : M (option Z) :=
  e ← last_index_entry; mret (block_id <$> e).

End block_database.
End blockdb.

(** * Pushing blocks and transactions (libraries/chain/db_block.cpp, db_with.hpp,
      [close] of db_management.cpp)

    A node has the state of its chain with the undo history, the fork database,
    the blocks on disk and the transactions waiting for a block.  The undo
    history is the stack of snapshots that ObjectDb was shown to implement, the
    newest first; applying a block or a transaction to the state is an
    interface.  Computations are in the monad [N] of Keep. *)
Module push.

(** ** The chain as the node sees it

    [_apply_block] up to [update_undo_db_size], which resizes the undo history
    and the fork database, and after it; [_apply_transaction], which returns
    the transaction with its results. *)
Class Chain (S T : Type) := {
  head_block_id : S -> Z;
  head_block_num : S -> Z;
  last_irreversible_block_num : S -> Z;
  undo_size : S -> Z;
  apply_begin : Z -> signed_block T -> S -> result S;
  apply_end : Z -> signed_block T -> S -> result S;
  apply_transaction : Z -> T -> S -> result (T * S);
  is_known_transaction : S -> T -> bool;
}.

(** ** Nodes *)
Record node_state {S T : Type} := {
  state : S;
  snapshots : list S;
  active_sessions : Z;
  undo_max_size : nat;
  fork_db : forkdb.fork_database;
  (** The member [data] of the items of the fork database. *)
  fork_data : gmap nat (signed_block T);
  block_db : blockdb.block_database T;
  checkpoints : list (Z * Z);
  skip_flags : Z;
  pending_tx_session : bool;
  pending_tx : list T;
  popped_tx : list T;
}.
Arguments node_state : clear implicits.
#[export] Instance node_state_fields {S T} : Fields (node_state S T) :=
  of_ctor (@Build_node_state S T) <*> state <*> snapshots <*> active_sessions <*> undo_max_size
  <*> fork_db <*> fork_data <*> block_db <*> checkpoints <*> skip_flags <*> pending_tx_session
  <*> pending_tx <*> popped_tx.

Section operations.
Context {S T : Type} {C : Chain S T} (sha224 : signed_block T -> Z).
#[local] Notation bid := (id sha224).
#[local] Notation N := (N (node_state S T)).
#[local] Notation node := (node_state S T).

(** The fork database and the block database change nothing when they throw. *)
Definition on_fork {A} (m : M forkdb.fork_database A) : N A := fun n =>
  match m (fork_db n) with
  | Ok (a, f) => (Ok a, n <| fork_db := f |>)
  | Throw e => (Throw e, n)
  end.
Definition on_blocks {A} (m : M (blockdb.block_database T) A) : N A := fun n =>
  match m (block_db n) with
  | Ok (a, d) => (Ok a, n <| block_db := d |>)
  | Throw e => (Throw e, n)
  end.

(** ** Undo sessions *)
Definition start_undo_session : N unit :=
  nupd (fun n => n <| snapshots := state n :: take (undo_max_size n) (snapshots n) |>
                   <| active_sessions ::= fun a => u32 (a + 1) |>).
Definition undo : N unit :=
  n ← nget;
  nlift (guard_ok (0 <? active_sessions n) assert_exception) ;;
  match snapshots n with
  | s :: ws => nupd (fun n => n <| state := s |> <| snapshots := ws |>
                               <| active_sessions ::= fun a => a - 1 |>)
  | [] => nlift (Throw undefined_behaviour)
  end.
Definition commit : N unit :=
  n ← nget;
  nlift (guard_ok (0 <? active_sessions n) assert_exception) ;;
  nupd (fun n => n <| active_sessions ::= fun a => a - 1 |>).
Definition merge : N unit :=
  n ← nget;
  nlift (guard_ok (0 <? active_sessions n) assert_exception) ;;
  nlift (guard_ok ((2 <=? length (snapshots n))%nat ||
                   ((length (snapshots n) =? 1)%nat && (active_sessions n =? 1))) assert_exception) ;;
  nupd (fun n => n <| snapshots ::= tail |> <| active_sessions ::= fun a => a - 1 |>).
(** [pop_undo], which is [undo_database::pop_commit]. *)
Definition pop_undo : N unit :=
  n ← nget;
  nlift (guard_ok (active_sessions n =? 0) assert_exception) ;;
  match snapshots n with
  | s :: ws => nupd (fun n => n <| state := s |> <| snapshots := ws |>)
  | [] => nlift (Throw assert_exception)
  end.
(** [{ auto session = start_undo_session(); body; session.close(); }]: the
    destructor of a session that was not closed undoes it. *)
Definition in_session {A} (close : N unit) (body : N A) : N A :=
  start_undo_session ;;
  ntry (a ← body; close ;; mret a) (fun e => undo ;; nlift (Throw e)).

Definition with_skip_flags {A} (skip : Z) (m : N A) : N A :=
  n ← nget;
  nupd (fun n => n <| skip_flags := skip |>) ;;
  nfinally m (nupd (fun n' => n' <| skip_flags := skip_flags n |>)).

(** [_pending_tx_session.reset()]. *)
Definition reset_pending : N unit :=
  n ← nget;
  if pending_tx_session n then undo ;; nupd (fun n => n <| pending_tx_session := false |>)
  else mret tt.
Definition clear_pending : N unit :=
  nupd (fun n => n <| pending_tx := [] |>) ;; reset_pending.

(** ** Applying a block *)
(** Up to the last checkpoint, almost everything is skipped. *)
Definition skip_all : Z := 2 ^ 32 - 1.
Definition check_checkpoint (cps : list (Z * Z)) (skip : Z) (b : signed_block T) : result Z :=
  match last cps with
  | None => Ok skip
  | Some (last_num, last_id) =>
      if last_id =? 0 then Ok skip
      else
        guard_ok (match list_find (fun x => x.1 = block_num b) cps with
                  | Some (_, (_, i)) => bid b =? i
                  | None => true
                  end) assert_exception ;;
        Ok (if block_num b <=? last_num then skip_all else skip)
  end.

Definition update_undo_db_size : N unit :=
  n ← nget;
  nupd (fun n => n <| undo_max_size := Z.to_nat (undo_size (state n)) |>) ;;
  on_fork (forkdb.set_max_size (undo_size (state n))).

(** An exception thrown half-way leaves a state that the session around the
    block discards; the model leaves the state as it was. *)
Definition _apply_block (b : signed_block T) : N unit :=
  n ← nget;
  s1 ← nlift (apply_begin (skip_flags n) b (state n));
  nupd (fun n => n <| state := s1 |>) ;;
  update_undo_db_size ;;
  s2 ← nlift (apply_end (skip_flags n) b s1);
  nupd (fun n => n <| state := s2 |>).
Definition apply_block (b : signed_block T) (skip : Z) : N unit :=
  n ← nget;
  skip ← nlift (check_checkpoint (checkpoints n) skip b);
  with_skip_flags skip (_apply_block b).

(** The block is applied in a session and stored under the id [i]. *)
Definition apply_and_store (skip i : Z) (b : signed_block T) : N unit :=
  in_session commit
    (apply_block b skip ;; on_blocks (blockdb.store sha224 i b)).

(** ** Removing the most recent block *)
Definition fetch_block_by_id (i : Z) (n : node) : option (signed_block T) :=
  match forkdb.fetch_block (fork_db n) i with
  | Some p => fork_data n !! p
  | None => blockdb.fetch_optional sha224 (block_db n) i
  end.

Definition is_known_block (i : Z) (n : node) : bool :=
  forkdb.is_known_block (fork_db n) i || blockdb.contains (block_db n) i.
(** The only block with a number in the fork database, or else the one on disk. *)
Definition fetch_block_id_for_num (num : Z) (n : node) : result Z :=
  match forkdb.fetch_block_by_number (fork_db n) num with
  | [p] => Ok (forkdb.id_at (fork_db n) p)
  | _ => blockdb.fetch_block_id (block_db n) num
  end.
Definition fetch_block_by_number (num : Z) (n : node) : option (signed_block T) :=
  match forkdb.fetch_block_by_number (fork_db n) num with
  | [p] => fork_data n !! p
  | _ => blockdb.fetch_by_number sha224 (block_db n) num
  end.
Definition get_block_ids_on_fork (head_of_fork : Z) (n : node) : result (list Z) :=
  '(first, second) ← forkdb.fetch_branch_from (fork_db n) (head_block_id (state n)) head_of_fork;
  q ← deref (last first) undefined_behaviour;
  Ok ((forkdb.id_at (fork_db n) <$> second) ++ [forkdb.previous_at (fork_db n) q]).

(** [fork_database::pop_block] while the caller holds pointers to the items
    [held], which keeps them alive. *)
Definition fork_pop_block (held : list nat) : M forkdb.fork_database unit :=
  d ← get;
  match forkdb.head d with
  | None => throw assert_exception
  | Some h =>
      match forkdb.prev_at d h with
      | Some p => if forkdb.alive d p || bool_decide (p ∈ held)
                  then put (forkdb.set_head_ptr (Some p) d) else throw assert_exception
      | None => throw assert_exception
      end
  end.

Definition pop_block (held : list nat) : N unit :=
  reset_pending ;;
  n ← nget;
  b ← nlift (deref (fetch_block_by_id (head_block_id (state n)) n) pop_empty_chain);
  on_fork (fork_pop_block held) ;;
  pop_undo ;;
  nupd (fun n => n <| popped_tx ::= app (transactions b) |>).

(** [while( head_block_id() != target ) pop_block();]: each round takes a
    snapshot off the history. *)
Fixpoint pop_until (fuel : nat) (held : list nat) (target : Z) : N unit :=
  n ← nget;
  if head_block_id (state n) =? target then mret tt
  else match fuel with
       | O => nlift (Throw out_of_fuel)
       | Datatypes.S fuel => pop_block held ;; pop_until fuel held target
       end.
Definition pop_to (held : list nat) (target : Z) : N unit :=
  n ← nget;
  pop_until (Datatypes.S (length (snapshots n))) held target.

(** ** Switching forks *)
Definition data_at (p : nat) (n : node) : result (signed_block T) :=
  deref (fork_data n !! p) undefined_behaviour.

(** The blocks of the branch [todo] that could not be applied are dropped and
    the old branch is applied again. *)
Definition switch_back (skip new_id : Z) (held todo old : list nat) (parent : Z) (e : exn) : N unit :=
  nfor (fun p => n ← nget; on_fork (forkdb.remove (forkdb.id_at (fork_db n) p))) todo ;;
  on_fork (forkdb.set_head (head old)) ;;
  pop_to held parent ;;
  nfor (fun p => n ← nget; b ← nlift (data_at p n); apply_and_store skip new_id b) (rev old) ;;
  nlift (Throw e).

Fixpoint push_branch (skip new_id : Z) (held todo old : list nat) (parent : Z) : N unit :=
  match todo with
  | [] => mret tt
  | p :: rest =>
      n ← nget;
      b ← nlift (data_at p n);
      except ← ntry (apply_and_store skip (forkdb.id_at (fork_db n) p) b ;; mret None)
                    (fun e => mret (Some e));
      match except with
      | Some e => switch_back skip new_id held (p :: rest) old parent e
      | None => push_branch skip new_id held rest old parent
      end
  end.

Definition switch_fork (skip : Z) (new_head : nat) (new_id : Z) : N unit :=
  n ← nget;
  '(first, second) ← nlift (forkdb.fetch_branch_from (fork_db n)
                              (forkdb.id_at (fork_db n) new_head) (head_block_id (state n)));
  let held := first ++ second in
  last_old ← nlift (deref (last second) undefined_behaviour);
  let parent := forkdb.previous_at (fork_db n) last_old in
  pop_to held parent ;;
  push_branch skip new_id held (rev first) second parent.

(** ** [_push_block] *)
(** The block goes into the fork database, which answers with its head. *)
Definition fork_push (b : signed_block T) : N nat :=
  n ← nget;
  let p := forkdb.next_ptr (fork_db n) in
  h ← on_fork (forkdb.push_block sha224 b);
  nupd (fun n => n <| fork_data ::= <[p := b]> |>) ;;
  nlift (deref h undefined_behaviour).

Definition extend_chain (skip : Z) (b : signed_block T) : N bool :=
  ntry (apply_and_store skip (bid b) b)
       (fun e => on_fork (forkdb.remove (bid b)) ;; nlift (Throw e)) ;;
  mret false.

Definition _push_block (b : signed_block T) : N bool :=
  n ← nget;
  let skip := skip_flags n in
  if Z.testbit skip 3 then extend_chain skip b
  else
    new_head ← fork_push b;
    n ← nget;
    if negb (forkdb.previous_at (fork_db n) new_head =? head_block_id (state n)) then
      if head_block_num (state n) <? forkdb.num_at (fork_db n) new_head
      then switch_fork skip new_head (bid b) ;; mret true
      else mret false
    else extend_chain skip b.

(** ** Pending transactions *)
Definition _push_transaction (tx : T) : N T :=
  n ← nget;
  (if pending_tx_session n then mret tt
   else start_undo_session ;; nupd (fun n => n <| pending_tx_session := true |>)) ;;
  in_session merge
    (n ← nget;
     '(ptx, s) ← nlift (apply_transaction (skip_flags n) tx (state n));
     nupd (fun n => n <| state := s |> <| pending_tx ::= fun l => l ++ [ptx] |>) ;;
     mret ptx).
Definition push_transaction (tx : T) (skip : Z) : N T := with_skip_flags skip (_push_transaction tx).
(** The session is never closed. *)
Definition validate_transaction (tx : T) : N T :=
  start_undo_session ;;
  n ← nget;
  match apply_transaction (skip_flags n) tx (state n) with
  | Ok (ptx, _) => undo ;; mret ptx
  | Throw e => undo ;; nlift (Throw e)
  end.

(** [pending_transactions_restorer]: transactions that no longer apply are dropped. *)
Definition retry (tx : T) : N unit :=
  n ← nget;
  if is_known_transaction (state n) tx then mret tt
  else ntry (_push_transaction tx ;; mret tt) (fun _ => mret tt).
Definition restore_pending (saved : list T) : N unit :=
  n ← nget;
  nfor retry (popped_tx n) ;;
  nupd (fun n => n <| popped_tx := [] |>) ;;
  nfor retry saved.
Definition without_pending_transactions {A} (m : N A) : N A :=
  n ← nget;
  clear_pending ;;
  nfinally m (restore_pending (pending_tx n)).

Definition push_block (b : signed_block T) (skip : Z) : N bool :=
  with_skip_flags skip (without_pending_transactions (_push_block b)).

(** ** Closing the database: back to the last irreversible block *)
Fixpoint rewind (fuel : nat) (cutoff : Z) : N unit :=
  n ← nget;
  if head_block_num (state n) <=? cutoff then mret tt
  else match fuel with
       | O => nlift (Throw out_of_fuel)
       | Datatypes.S fuel =>
           pop_block [] ;;
           on_fork (forkdb.remove (head_block_id (state n))) ;;
           rewind fuel cutoff
       end.
Definition close (rewinding : bool) : N unit :=
  clear_pending ;;
  n ← nget;
  (if rewinding
   then ntry (rewind (Datatypes.S (length (snapshots n))) (last_irreversible_block_num (state n)))
             (fun _ => mret tt)
   else mret tt) ;;
  clear_pending ;;
  on_fork forkdb.reset.

End operations.
End push.
