(* ===== verification/PushProof.v ===== *)
(** * A node is always at the end of a chain of applied blocks

    What applying a block in a session does, and the invariant of nodes. *)
From S2P Require Import Prelude Keep Block ForkDb PushBlock.
Local Open Scope Z_scope.
Import block push.

(** ** Rules *)
Section rules.
Context {S T : Type}.
#[local] Notation N := (N (node_state S T)).
#[local] Notation node := (node_state S T).
Implicit Types (P Q : node -> Prop) (n : node).

Lemma holds_on_fork {A} P (m : M forkdb.fork_database A) :
  (forall n f, P n -> P (n <| fork_db := f |>)) -> holds P (on_fork m).
Proof. intros Hf n Hn. unfold on_fork. destruct (m (fork_db n)) as [[a f]|e]; cbn; auto. Qed.
Lemma holds_on_blocks {A} P (m : M (blockdb.block_database T) A) :
  (forall n d, P n -> P (n <| block_db := d |>)) -> holds P (on_blocks m).
Proof. intros Hf n Hn. unfold on_blocks. destruct (m (block_db n)) as [[a f]|e]; cbn; auto. Qed.
Lemma leads_skip {A} P Q skip (m : N A) :
  (forall n k, P n -> P (n <| skip_flags := k |>)) -> (forall n k, Q n -> Q (n <| skip_flags := k |>)) ->
  leads P Q m -> leads P Q (with_skip_flags skip m).
Proof.
  intros HP HQ Hm n Hn. unfold with_skip_flags.
  refine (leads_finally P Q Q m _ Hm _ (n <| skip_flags := skip |>) (HP _ _ Hn)).
  intros n' Hn'. by apply HQ.
Qed.
End rules.

(** ** Applying a block *)
Section applying.
Context {S T : Type} {C : Chain S T} (sha224 : signed_block T -> Z).
#[local] Notation node := (node_state S T).
Implicit Types (n : node) (b : signed_block T).

(** The state after a block, checked against the checkpoints. *)
Definition applied (cps : list (Z * Z)) (skip : Z) (b : signed_block T) (s : S) : result S :=
  k ← check_checkpoint sha224 cps skip b;
  s1 ← apply_begin k b s;
  apply_end k b s1.

Definition resized (z : Z) (f : forkdb.fork_database) : forkdb.fork_database :=
  match forkdb.set_max_size z f with Ok (_, f') => f' | Throw _ => f end.
(** The node once the first part of the block is applied. *)
Definition begun (s : S) n : node :=
  n <| state := s |> <| undo_max_size := Z.to_nat (undo_size s) |>
    <| fork_db := resized (undo_size s) (fork_db n) |>.

Lemma resized_ok z f : forkdb.set_max_size z f = Ok (tt, resized z f).
Proof.
  unfold resized, forkdb.set_max_size, mbind, M_bind, upd, get. cbn.
  by destruct (forkdb.head f).
Qed.

Lemma apply_block_eq b skip n :
  apply_block sha224 b skip n =
  match check_checkpoint sha224 (checkpoints n) skip b with
  | Throw e => (Throw e, n)
  | Ok k =>
      match apply_begin k b (state n) with
      | Throw e => (Throw e, n)
      | Ok s1 =>
          match apply_end k b s1 with
          | Throw e => (Throw e, begun s1 n)
          | Ok s2 => (Ok tt, begun s1 n <| state := s2 |>)
          end
      end
  end.
Proof.
  unfold apply_block, mbind, N_bind, nget, nlift.
  destruct (check_checkpoint sha224 (checkpoints n) skip b) as [k|e]; [|done].
  unfold with_skip_flags, mbind, N_bind, nget, nupd, nfinally, _apply_block, mbind, N_bind, nlift, nget.
  cbn. destruct (apply_begin k b (state n)) as [s1|e]; [|by destruct n].
  unfold update_undo_db_size, on_fork, mbind, N_bind, nget, nupd. cbn. rewrite resized_ok. cbn.
  destruct (apply_end k b s1); by destruct n.
Qed.

Definition stored (i : Z) b (d : blockdb.block_database T) : blockdb.block_database T :=
  match blockdb.store sha224 i b d with Ok (_, d') => d' | Throw _ => d end.

(** What a node is after a block was applied in a session, or was not. *)
Definition grown (i : Z) b (s1 s2 : S) n : node :=
  begun s1 n <| state := s2 |> <| snapshots := state n :: take (undo_max_size n) (snapshots n) |>
    <| block_db := stored i b (block_db n) |>.
Definition refused (s1 : option S) n : node :=
  (match s1 with Some s1 => begun s1 n | None => n end)
    <| state := state n |> <| snapshots := take (undo_max_size n) (snapshots n) |>.

Lemma apply_and_store_eq skip i b n :
  active_sessions n = 0 ->
  exists s1, apply_and_store sha224 skip i b n =
    match applied (checkpoints n) skip b (state n) with
    | Ok s2 => (Ok tt, grown i b (default s2 s1) s2 n)
    | Throw e => (Throw e, refused s1 n)
    end /\
    (forall s, s1 = Some s -> exists k, check_checkpoint sha224 (checkpoints n) skip b = Ok k /\
                                        apply_begin k b (state n) = Ok s) /\
    (forall s2, applied (checkpoints n) skip b (state n) = Ok s2 -> is_Some s1).
Proof.
  intros Ha. unfold apply_and_store, in_session, start_undo_session, mbind, N_bind, nupd, ntry.
  rewrite apply_block_eq. cbn. unfold applied.
  destruct (check_checkpoint sha224 (checkpoints n) skip b) as [k|e] eqn:Ek; cbn.
  2: { exists None. split_and!; [|done..]. destruct n; cbn in *. by subst. }
  destruct (apply_begin k b (state n)) as [s1|e] eqn:E1; cbn.
  2: { exists None. split_and!; [|done..]. destruct n; cbn in *. by subst. }
  exists (Some s1). destruct (apply_end k b s1) as [s2|e] eqn:E2; cbn.
  - split_and!; [|by intros s [= <-]; exists k|done]. destruct n; cbn in *. by subst.
  - split_and!; [|by intros s [= <-]; exists k|done]. destruct n; cbn in *. by subst.
Qed.
End applying.

(** ** The history of a node *)
Section histories.
Context {S T : Type} {C : Chain S T} (sha224 : signed_block T -> Z).
#[local] Notation node := (node_state S T).
Implicit Types n : node.

(** Some block leads from one state to the next. *)
Definition extends (s s' : S) : Prop := exists cps skip b, applied sha224 cps skip b s = Ok s'.
(** The snapshots below a state, newest first, are the states before its last
    blocks; the oldest was reached from [g] by applying blocks. *)
Inductive history (g : S) : S -> list S -> Prop :=
| history_end s : rtc extends g s -> history g s []
| history_step s s' ws : extends s s' -> history g s ws -> history g s' (s :: ws).

Lemma history_reached g s ws : history g s ws -> rtc extends g s.
Proof. induction 1 as [|s s' ws Hs _ IH]; [done|]. by eapply rtc_r. Qed.
Lemma history_take g s ws k : history g s ws -> history g s (take k ws).
Proof.
  intros H. revert k. induction H as [s Hs|s s' ws Hs H IH]; intros [|k]; cbn; try by constructor.
  - constructor. eapply rtc_r, Hs. by eapply history_reached.
Qed.

(** The pending transactions that lead from the head of the chain to [s]. *)
Inductive pending_run (s0 : S) : list T -> S -> Prop :=
| pending_none : pending_run s0 [] s0
| pending_add txs s skip tx ptx s' :
    pending_run s0 txs s -> apply_transaction skip tx s = Ok (ptx, s') ->
    pending_run s0 (txs ++ [ptx]) s'.

(** No transaction is pending. *)
Definition clean (g : S) n : Prop :=
  pending_tx_session n = false /\ pending_tx n = [] /\ active_sessions n = 0 /\
  history g (state n) (snapshots n).
(** Transactions are pending in a session of their own. *)
Definition pending_ok (g : S) n : Prop :=
  pending_tx_session n = true /\ active_sessions n = 1 /\
  exists s ws, snapshots n = s :: ws /\ history g s ws /\ pending_run s (pending_tx n) (state n).
Definition node_ok (g : S) n : Prop := clean g n \/ pending_ok g n.

Lemma clean_advances g skip i b : holds (clean g) (apply_and_store sha224 skip i b).
Proof.
  intros n (Hp & Ht & Ha & Hh). destruct (apply_and_store_eq sha224 skip i b n Ha) as (s1 & -> & _).
  destruct (applied sha224 (checkpoints n) skip b (state n)) as [s2|e] eqn:E.
  - split_and!; [done..|]. cbn. apply history_step; [by eexists _, _, _|]. by apply history_take.
  - unfold refused. destruct s1; split_and!; try done; by apply history_take.
Qed.

Lemma clean_pops g held : holds (clean g) (pop_block sha224 held).
Proof.
  intros n Hn. pose proof Hn as (Hp & Ht & Ha & Hh).
  unfold pop_block, reset_pending, mbind, N_bind, nget, nlift. rewrite Hp. cbn.
  destruct (fetch_block_by_id sha224 (head_block_id (state n)) n) as [b|]; cbn; [|done].
  unfold on_fork. destruct (fork_pop_block held (fork_db n)) as [[[] f]|e]; cbn; [|done].
  unfold pop_undo, mbind, N_bind, nget, nlift. cbn. rewrite Ha. cbn.
  destruct (snapshots n) as [|s ws] eqn:Es; cbn; [by rewrite <- Es in Hh|].
  inversion Hh; subst. by split_and!.
Qed.

Lemma clean_fork_db g n f : clean g n -> clean g (n <| fork_db := f |>).
Proof. done. Qed.
Lemma clean_pop_to g held target : holds (clean g) (pop_to sha224 held target).
Proof.
  unfold pop_to. apply holds_get. intros n0 Hn0. revert Hn0. generalize n0 at 1 3.
  generalize (Datatypes.S (length (snapshots n0))).
  intros fuel. induction fuel as [|fuel IH]; intros n Hn; cbn; unfold mbind at 1, N_bind at 1, nget.
  - by destruct (_ =? target).
  - destruct (_ =? target); [done|]. revert n Hn. apply leads_bind; [apply clean_pops|]. intros _. exact IH.
Qed.

Lemma clean_switch_back g skip i held todo old parent e :
  holds (clean g) (switch_back sha224 skip i held todo old parent e).
Proof.
  unfold switch_back.
  apply leads_bind; [|intros _; apply leads_bind; [|intros _; apply leads_bind; [|intros _; apply leads_bind]]].
  - apply holds_for. intros p. apply holds_get. intros n Hn. by apply holds_on_fork.
  - by apply holds_on_fork.
  - apply clean_pop_to.
  - apply holds_for. intros p. apply holds_get. intros n Hn. revert n Hn.
    intros n Hn. refine (leads_bind _ _ _ _ (holds_lift _ _) _ n Hn). intros b. apply clean_advances.
  - intros _. apply holds_lift.
Qed.

Lemma clean_push_branch g skip i held todo old parent :
  holds (clean g) (push_branch sha224 skip i held todo old parent).
Proof.
  induction todo as [|p rest IH]; [apply holds_ret|]. cbn [push_branch]. apply holds_get. intros n0 Hn0.
  refine (leads_bind _ _ _ _ (holds_lift _ _) _ n0 Hn0). intros b. apply leads_bind.
  - apply holds_try; [|intros e; apply holds_ret]. apply leads_bind; [apply clean_advances|].
    intros _. apply holds_ret.
  - intros [e|]; [apply clean_switch_back|exact IH].
Qed.

Lemma clean_extend g skip b : holds (clean g) (extend_chain sha224 skip b).
Proof.
  unfold extend_chain. apply leads_bind; [|intros _; apply holds_ret].
  apply holds_try; [apply clean_advances|]. intros e. apply leads_bind; [by apply holds_on_fork|].
  intros _. apply holds_lift.
Qed.

Lemma clean_switch g skip p i : holds (clean g) (switch_fork sha224 skip p i).
Proof.
  unfold switch_fork. apply holds_get. intros n0 Hn0.
  refine (leads_bind _ _ _ _ (holds_lift _ _) _ n0 Hn0). intros [first second].
  apply leads_bind; [apply holds_lift|]. intros q.
  apply leads_bind; [apply clean_pop_to|]. intros _. apply clean_push_branch.
Qed.

Lemma clean_push g b : holds (clean g) (_push_block sha224 b).
Proof.
  unfold _push_block. apply holds_get. intros n0 Hn0. destruct (Z.testbit _ 3); [by apply clean_extend|].
  refine (leads_bind _ _ (fork_push sha224 b) _ _ _ n0 Hn0).
  - unfold fork_push. apply holds_get. intros n Hn.
    refine (leads_bind _ _ _ _ _ _ n Hn); [by apply holds_on_fork|]. intros h.
    apply leads_bind; [by apply holds_upd|]. intros _. apply holds_lift.
  - intros p. apply holds_get. intros n Hn. revert n Hn. intros n Hn.
    destruct (negb _); [|by apply clean_extend]. destruct (_ <? _); [|done].
    refine (leads_bind _ _ _ _ (clean_switch _ _ _ _) _ n Hn). intros _. apply holds_ret.
Qed.
End histories.

(** ** Pending transactions *)
Section pending.
Context {S T : Type} {C : Chain S T} (sha224 : signed_block T -> Z).
#[local] Notation node := (node_state S T).
Implicit Types n : node.

(** A node whose history keeps at least one state. *)
Definition kept (g : S) n : Prop := node_ok sha224 g n /\ (0 < undo_max_size n)%nat.

Lemma pending_temp g k w ws :
  (0 < k)%nat -> history sha224 g w ws ->
  exists ws', take k (w :: ws) = w :: ws' /\ history sha224 g w ws'.
Proof. intros Hk Hh. destruct k as [|k]; [lia|]. exists (take k ws). split; [done|by apply history_take]. Qed.

Lemma pending_session_ok g tx n :
  pending_ok sha224 g n -> (0 < undo_max_size n)%nat ->
  let n' := (in_session merge
    (n ← nget;
     '(ptx, s) ← nlift (apply_transaction (skip_flags n) tx (state n));
     nupd (fun n => n <| state := s |> <| pending_tx ::= fun l => l ++ [ptx] |>) ;;
     mret ptx) n).2 in
  pending_ok sha224 g n' /\ undo_max_size n' = undo_max_size n.
Proof.
  intros (Hp & Ha & s & ws & Es & Hh & Hr) Hk.
  destruct (pending_temp g _ s ws Hk Hh) as (ws' & Et & Hh'). rewrite <- Es in Et.
  unfold in_session, start_undo_session, mbind, N_bind, nupd, nget, nlift, ntry. cbn.
  destruct (apply_transaction (skip_flags n) tx (state n)) as [[ptx s']|e] eqn:E; cbn.
  - unfold merge, mbind, N_bind, nget, nlift, nupd. cbn. rewrite Et, Ha. change (u32 (1 + 1)) with 2. cbn.
    split; [|done]. split_and!; [done|cbn; by rewrite Ha|]. exists s, ws'.
    split_and!; [done..|]. by eapply pending_add.
  - unfold undo, mbind, N_bind, nget, nlift, nupd. cbn. rewrite Et, Ha. change (u32 (1 + 1)) with 2. cbn.
    split; [|done]. split_and!; [done|cbn; by rewrite Ha|]. by exists s, ws'.
Qed.

Lemma push_transaction_ok g tx : holds (kept g) (_push_transaction tx).
Proof.
  intros n [Hn Hk]. unfold _push_transaction. unfold mbind at 1, N_bind at 1, nget at 1. cbn.
  destruct Hn as [(Hp & Ht & Ha & Hh)|Hn].
  - rewrite Hp. unfold mbind at 1, N_bind at 1. unfold start_undo_session at 1, mbind at 1, N_bind at 1, nupd at 1 2.
    set (n1 := _ <| pending_tx_session := true |>).
    assert (pending_ok sha224 g n1) as Hn1.
    { split_and!; [done|cbn; by rewrite Ha|]. exists (state n), (take (undo_max_size n) (snapshots n)).
      split_and!; [done|by apply history_take|cbn; rewrite Ht; constructor]. }
    destruct (pending_session_ok g tx n1 Hn1 Hk) as [H1 H2]. split; [by right|].
    exact (eq_ind_r (fun k => (0 < k)%nat) Hk H2).
  - pose proof Hn as (Hp & _). rewrite Hp. unfold mbind at 1, N_bind at 1, mret, N_ret.
    destruct (pending_session_ok g tx n Hn Hk) as [H1 H2]. split; [by right|].
    exact (eq_ind_r (fun k => (0 < k)%nat) Hk H2).
Qed.

Lemma validate_transaction_ok g tx : holds (kept g) (validate_transaction tx).
Proof.
  intros n [Hn Hk]. unfold validate_transaction, start_undo_session, mbind, N_bind, nupd, nget, nlift. cbn.
  destruct (apply_transaction (skip_flags n) tx (state n)) as [[ptx s']|e]; cbn;
    unfold undo, mbind, N_bind, nget, nlift, nupd; cbn;
    destruct Hn as [(Hp & Ht & Ha & Hh)|(Hp & Ha & s & ws & Es & Hh & Hr)]; rewrite Ha;
    change (0 <? u32 (0 + 1)) with true; change (0 <? u32 (1 + 1)) with true; cbn; (split; [|done]).
  1, 3: left; split_and!; [done|done|cbn; by rewrite Ha|by apply history_take].
  all: destruct (pending_temp g _ s ws Hk Hh) as (ws' & Et & Hh'); rewrite <- Es in Et;
    right; split_and!; [done|cbn; by rewrite Ha|]; exists s, ws'; by split_and!.
Qed.

Lemma clear_pending_ok g : leads (node_ok sha224 g) (clean sha224 g) clear_pending.
Proof.
  intros n Hn. unfold clear_pending, reset_pending, mbind, N_bind, nupd, nget. cbn.
  destruct Hn as [(Hp & Ht & Ha & Hh)|(Hp & Ha & s & ws & Es & Hh & Hr)]; rewrite Hp; cbn; [done|].
  unfold undo, mbind, N_bind, nget, nlift, nupd. cbn. rewrite Es, Ha. cbn.
  split_and!; [done|done|cbn; by rewrite Ha|done].
Qed.

Lemma retry_ok g tx : holds (kept g) (retry tx).
Proof.
  unfold retry. apply holds_get. intros n Hn. destruct (is_known_transaction _ _); [done|].
  revert n Hn. apply holds_try; [|intros e; apply holds_ret].
  apply leads_bind; [apply push_transaction_ok|]. intros _. apply holds_ret.
Qed.
Lemma restore_pending_ok g saved : holds (kept g) (restore_pending saved).
Proof.
  unfold restore_pending. apply holds_get. intros n Hn. revert n Hn. intros n Hn.
  refine (leads_bind _ _ _ _ (holds_for _ _ _ (retry_ok g)) _ n Hn). intros _.
  apply leads_bind; [by apply holds_upd|]. intros _. apply holds_for, retry_ok.
Qed.

(** The size of the history is not changed by transactions. *)
Definition sized (k : nat) n : Prop := undo_max_size n = k.
Lemma same_size_session k {A} close (m : N (node_state S T) A) :
  holds (sized k) m -> holds (sized k) close ->
  holds (sized k) (in_session close m).
Proof.
  intros Hm Hc. unfold in_session. apply leads_bind; [by apply holds_upd|]. intros _.
  apply holds_try; [apply leads_bind; [done|]; intros a; apply leads_bind; [done|]; intros _; apply holds_ret|].
  intros e. apply leads_bind; [|intros _; apply holds_lift].
  unfold undo. apply holds_get. intros n Hn. revert n Hn. intros n Hn.
  refine (leads_bind _ _ _ _ (holds_lift _ _) _ n Hn). intros _.
  destruct (snapshots n); [apply holds_lift|by apply holds_upd].
Qed.
Lemma same_size_restore k saved : holds (sized k) (restore_pending saved).
Proof.
  assert (forall tx, holds (sized k) (retry tx)) as Hr.
  { intros tx. unfold retry. apply holds_get. intros n Hn. destruct (is_known_transaction _ _); [done|].
    revert n Hn. apply holds_try; [|intros e; apply holds_ret].
    apply leads_bind; [|intros _; apply holds_ret]. unfold _push_transaction. apply holds_get. intros n Hn.
    refine (leads_bind _ _ _ _ _ _ n Hn).
    - destruct (pending_tx_session n); [apply holds_ret|]. apply leads_bind; [by apply holds_upd|].
      intros _. by apply holds_upd.
    - intros _. apply same_size_session.
      + apply holds_get. intros n' Hn'. refine (leads_bind _ _ _ _ (holds_lift _ _) _ n' Hn').
        intros [ptx s]. apply leads_bind; [by apply holds_upd|]. intros _. apply holds_ret.
      + unfold merge. apply holds_get. intros n' Hn'. refine (leads_bind _ _ _ _ (holds_lift _ _) _ n' Hn').
        intros _. apply leads_bind; [apply holds_lift|]. intros _. by apply holds_upd. }
  unfold restore_pending. apply holds_get. intros n Hn.
  refine (leads_bind _ _ _ _ (holds_for _ _ _ Hr) _ n Hn). intros _.
  apply leads_bind; [by apply holds_upd|]. intros _. by apply holds_for.
Qed.
End pending.
