(* ===== verification/SwitchProof.v ===== *)
(** * Switching forks: what is popped, what is applied, what is restored *)
From S2P Require Import Prelude Keep Block ForkDb ForkProof PushBlock PushProof.
Local Open Scope Z_scope.
Import block push.

(** What applying a block promises: the block builds on the head and becomes it. *)
Class ChainLaws {S T : Type} (C : Chain S T) (sha224 : signed_block T -> Z) : Prop := {
  law_links k b (s s1 s2 : S) :
    apply_begin k b s = Ok s1 -> apply_end k b s1 = Ok s2 ->
    previous b = head_block_id s /\ head_block_id s2 = id sha224 b;
}.

Section switching.
Context {S T : Type} {C : Chain S T} (sha224 : signed_block T -> Z) {L : ChainLaws C sha224}.
#[local] Notation bid := (id sha224).
#[local] Notation node := (node_state S T).
Implicit Types (n m : node) (p q r : nat).

Lemma applied_links cps skip b (s s' : S) :
  applied sha224 cps skip b s = Ok s' -> previous b = head_block_id s /\ head_block_id s' = bid b.
Proof. unfold applied. intros (k & _ & (s1 & H1 & H2)%bind_ok)%bind_ok. by eapply law_links. Qed.

(** ** The data of the fork items *)
Record fork_ok n : Prop := {
  fo_wf : fork_wf (fork_db n);
  fo_data p it : forkdb.heap (fork_db n) !! p = Some it ->
    exists b, fork_data n !! p = Some b /\ forkdb.item_id it = bid b /\
      forkdb.previous_id it = previous b /\ block_fits b;
}.

(** The number of an item is one more than that of its parent's id. *)
Lemma item_above_parent n p it :
  fork_ok n -> forkdb.heap (fork_db n) !! p = Some it ->
  forkdb.num it = num_from_id (forkdb.previous_id it) + 1.
Proof.
  intros Hn Hp. destruct (fo_data _ Hn _ _ Hp) as (b & _ & _ & Ep & Hf).
  destruct (wf_num _ (fo_wf _ Hn) _ _ Hp) as (_ & _ & ->). rewrite Ep. unfold block_fits in Hf.
  apply wrap_small. split; [|lia]. pose proof (wrap_bound 32 (Z.shiftr (previous b) 128) ltac:(lia)) as [? _].
  unfold num_from_id, u32 in *. lia.
Qed.

(** ** Popping *)
(** A node while blocks are popped: [n] with another state, history, head of
    the fork database and list of popped transactions. *)
Definition popped n (s : S) (ws : list S) (h : nat) (txs : list T) : node :=
  n <| state := s |> <| snapshots := ws |> <| fork_db ::= forkdb.set_head_ptr (Some h) |>
    <| popped_tx := txs |>.

Lemma pop_block_popped held n s w ws h p txs :
  pending_tx_session n = false -> active_sessions n = 0 ->
  is_Some (fetch_block_by_id sha224 (head_block_id s) n) ->
  forkdb.prev_at (fork_db n) h = Some p -> p ∈ forkdb.index (fork_db n) \/ p ∈ held ->
  exists txs', pop_block sha224 held (popped n s (w :: ws) h txs) = (Ok tt, popped n w ws p txs').
Proof.
  intros Hp Ha [b Hb] Hprev Hin. unfold pop_block, reset_pending, mbind, N_bind, nget, nlift.
  change (pending_tx_session (popped _ _ _ _ _)) with (pending_tx_session n). rewrite Hp. cbn -[popped].
  change (fetch_block_by_id sha224 _ (popped n s (w :: ws) h txs)) with
    (fetch_block_by_id sha224 (head_block_id s) n). rewrite Hb. cbn -[popped].
  unfold on_fork, fork_pop_block, mbind, M_bind, get. cbn -[popped].
  change (forkdb.head (fork_db (popped _ _ _ _ _))) with (Some h). cbn -[popped].
  change (forkdb.prev_at _ h) with (forkdb.prev_at (fork_db n) h). rewrite Hprev.
  assert (forkdb.alive (fork_db (popped n s (w :: ws) h txs)) p || bool_decide (p ∈ held) = true) as ->.
  { apply orb_true_iff. destruct Hin as [Hin|Hin]; [left|right; by apply bool_decide_eq_true].
    unfold forkdb.alive. cbn. by rewrite bool_decide_eq_true_2. }
  unfold put, pop_undo, mbind, N_bind, nget, nlift. cbn. rewrite Ha. cbn. eexists. unfold popped. done.
Qed.

(** The pops that lead from a state with its history and fork head to another. *)
Inductive pops n (held : list nat) (target : Z) : S -> list S -> nat -> S -> list S -> nat -> Prop :=
| pops_done s ws h : head_block_id s = target -> pops n held target s ws h s ws h
| pops_step s w ws h p s' ws' h' :
    head_block_id s <> target -> is_Some (fetch_block_by_id sha224 (head_block_id s) n) ->
    forkdb.prev_at (fork_db n) h = Some p -> p ∈ forkdb.index (fork_db n) \/ p ∈ held ->
    pops n held target w ws p s' ws' h' ->
    pops n held target s (w :: ws) h s' ws' h'.

Lemma pop_until_pops held target n s ws h s' ws' h' :
  pending_tx_session n = false -> active_sessions n = 0 ->
  pops n held target s ws h s' ws' h' ->
  forall fuel txs, (length ws < fuel)%nat ->
  exists txs', pop_until sha224 fuel held target (popped n s ws h txs) = (Ok tt, popped n s' ws' h' txs').
Proof.
  intros Hp Ha. induction 1 as [s ws h E|s w ws h p s' ws' h' E Hf Hprev Hin _ IH]; intros fuel txs Hl.
  - exists txs. destruct fuel; cbn -[popped]; unfold mbind at 1, N_bind at 1, nget; cbn -[popped];
      change (state (popped _ _ _ _ _)) with s; by rewrite E, Z.eqb_refl.
  - destruct fuel as [|fuel]; [cbn in Hl; lia|]. cbn -[popped]. unfold mbind at 1, N_bind at 1, nget. cbn -[popped].
    apply Z.eqb_neq in E. change (state (popped _ _ _ _ _)) with s. rewrite E.
    destruct (pop_block_popped held n s w ws h p txs Hp Ha Hf Hprev Hin) as (txs1 & E1).
    unfold mbind, N_bind. rewrite E1. apply IH. cbn in Hl. lia.
Qed.

Lemma pop_to_pops held target n s ws h txs s' ws' h' :
  pending_tx_session n = false -> active_sessions n = 0 ->
  pops n held target s ws h s' ws' h' ->
  exists txs', pop_to sha224 held target (popped n s ws h txs) = (Ok tt, popped n s' ws' h' txs').
Proof.
  intros Hp Ha H. unfold pop_to, mbind, N_bind, nget.
  eapply pop_until_pops; [done..|]. cbn. lia.
Qed.

(** ** Branches as runs of blocks *)
Fixpoint replay (cps : list (Z * Z)) (skip : Z) (bs : list (signed_block T)) (s : S) : result S :=
  match bs with
  | [] => Ok s
  | b :: bs' => s' ← applied sha224 cps skip b s; replay cps skip bs' s'
  end.
Lemma replay_app cps skip bs cs s :
  replay cps skip (bs ++ cs) s = (s' ← replay cps skip bs s; replay cps skip cs s').
Proof. revert s. induction bs as [|b bs IH]; intros s; cbn; [done|]. destruct (applied _ _ _ _ _); cbn; auto. Qed.

Section branch.
Context (fd : gmap nat (signed_block T)) (cps : list (Z * Z)) (skip : Z) (s0 : S).
#[local] Notation run := (replay cps skip).

(** The blocks [ps], newest first, lead from [s0] to [s], and the history
    holds the state before each of them. *)
Inductive climb : list nat -> S -> list S -> Prop :=
| climb_start ws : climb [] s0 ws
| climb_up p ps s s' ws b :
    fd !! p = Some b -> applied sha224 cps skip b s = Ok s' -> climb ps s ws -> climb (p :: ps) s' (s :: ws).

Lemma climb_take ps s ws k : climb ps s ws -> (length ps <= k)%nat -> climb ps s (take k ws).
Proof.
  intros H. revert k. induction H as [ws|p ps s s' ws b Hb Ha _ IH]; intros k Hk; [constructor|].
  cbn in Hk. destruct k as [|k]; [lia|]. cbn. apply (climb_up p ps s s' _ b Hb Ha). apply IH. lia.
Qed.
Lemma climb_replay ps s ws bs :
  climb ps s ws -> Forall2 (fun p b => fd !! p = Some b) (rev ps) bs -> run bs s0 = Ok s.
Proof.
  intros H. revert bs. induction H as [ws|p ps s s' ws b Hb Ha _ IH]; intros bs Hf; cbn in Hf.
  - by apply Forall2_nil_inv_l in Hf as ->.
  - apply Forall2_app_inv_l in Hf as (bs1 & bs2 & H1 & H2 & ->).
    apply Forall2_cons_inv_l in H2 as (b' & l & E & H2 & ->). apply Forall2_nil_inv_l in H2 as ->.
    rewrite replay_app, (IH _ H1). cbn. assert (b' = b) as -> by congruence. by rewrite Ha.
Qed.

(** The head of the fork database goes down through [hs]. *)
Inductive descent (f : forkdb.fork_database) (held : list nat) : nat -> list nat -> Prop :=
| descent_end h : descent f held h []
| descent_down h p hs :
    forkdb.prev_at f h = Some p -> p ∈ forkdb.index f \/ p ∈ held -> descent f held p hs ->
    descent f held h (p :: hs).

Lemma descent_rehead f held h hs x : descent f held h hs -> descent (forkdb.set_head_ptr x f) held h hs.
Proof. induction 1; by econstructor. Qed.

Lemma climb_pops n held target ps s ws h hs :
  climb ps s ws -> head_block_id s0 = target ->
  Forall (fun p => forall b, fd !! p = Some b -> bid b <> target /\ is_Some (fetch_block_by_id sha224 (bid b) n)) ps ->
  descent (fork_db n) held h hs -> (length ps <= length hs)%nat ->
  exists ws', pops n held target s ws h s0 ws' (nth (length ps) (h :: hs) 0%nat).
Proof.
  intros H Ht. revert h hs. induction H as [ws|p ps s s' ws b Hb Ha _ IH]; intros h hs Hf Hd Hl.
  - exists ws. by constructor.
  - apply Forall_cons in Hf as [Hp Hf]. destruct (Hp b Hb) as [Hne Hfetch].
    destruct Hd as [h|h q hs Hq Hin Hd]; [cbn in Hl; lia|].
    destruct (IH q hs Hf Hd) as [ws' Hw]; [cbn in Hl; lia|].
    exists ws'. apply applied_links in Ha as [_ E]. cbn [length nth].
    eapply pops_step; [by rewrite E|by rewrite E|exact Hq|exact Hin|exact Hw].
Qed.

(** The old branch is applied again. *)
Lemma restore_ok i qs bs s s' m :
  active_sessions m = 0 -> checkpoints m = cps -> fork_data m = fd -> state m = s ->
  Forall2 (fun p b => fd !! p = Some b) qs bs -> run bs s = Ok s' ->
  exists m', nfor (fun p => n ← nget; b ← nlift (data_at p n); apply_and_store sha224 skip i b) qs m
               = (Ok tt, m') /\ state m' = s'.
Proof.
  intros Ha Hc Hd Hs Hf. revert s m Ha Hc Hd Hs.
  induction Hf as [|q b qs bs Hb _ IH]; intros s m Ha Hc Hd Hs Hr; cbn in Hr.
  - injection Hr as <-. by exists m.
  - apply bind_ok in Hr as (s1 & H1 & Hr). cbn [nfor]. unfold mbind at 1, N_bind at 1.
    unfold mbind at 1, N_bind at 1, nget at 1. unfold mbind at 1, N_bind at 1, nlift at 1, data_at.
    rewrite Hd, Hb. cbn [deref]. destruct (apply_and_store_eq sha224 skip i b m Ha) as (o & -> & _).
    rewrite Hc, Hs, H1. eapply (IH s1); [done..|exact Hr].
Qed.
End branch.

(** ** The fork database meanwhile *)
Lemma resized_same z f :
  forkdb.heap (resized z f) = forkdb.heap f /\ forkdb.head (resized z f) = forkdb.head f.
Proof. unfold resized, forkdb.set_max_size, mbind, M_bind, upd, get. cbn. by destruct (forkdb.head f) eqn:E. Qed.
Lemma resized_keeps z f h r :
  forkdb.head f = Some h -> r ∈ forkdb.index f -> 0 <= forkdb.num_at f r ->
  forkdb.num_at f h - z <= forkdb.num_at f r -> r ∈ forkdb.index (resized z f).
Proof.
  intros Hh Hr H0 Hn. unfold resized, forkdb.set_max_size, mbind, M_bind, upd, get. cbn. rewrite Hh. cbn.
  unfold forkdb.prune. apply list_elem_of_filter. split; [|done].
  change (Z.max 0 (forkdb.num_at f h - z) <= forkdb.num_at f r). lia.
Qed.
(** The data of every indexed item is there. *)
Definition known (fd : gmap nat (signed_block T)) (f : forkdb.fork_database) : Prop :=
  forall p, p ∈ forkdb.index f \/ p ∈ forkdb.unlinked_index f -> is_Some (fd !! p).
Lemma known_resized fd z f : known fd f -> known fd (resized z f).
Proof.
  intros H p. unfold resized, forkdb.set_max_size, mbind, M_bind, upd, get. cbn.
  destruct (forkdb.head f); cbn; [|apply H]. unfold forkdb.prune. rewrite !list_elem_of_filter.
  intros [[_ Hp]|[_ Hp]]; apply H; auto.
Qed.
Lemma known_fetch fd f i p : known fd f -> forkdb.fetch_block f i = Some p -> is_Some (fd !! p).
Proof.
  intros H. unfold forkdb.fetch_block. destruct (forkdb.find_id f (forkdb.index f) i) as [q|] eqn:E.
  - intros [= <-]. apply find_id_Some in E as [E _]. auto.
  - intros [E' _]%find_id_Some. auto.
Qed.

Lemma removals_ok todo m :
  exists f, nfor (fun p => n ← nget; on_fork (forkdb.remove (forkdb.id_at (fork_db n) p))) todo m
              = (Ok tt, m <| fork_db := f |>) /\
    forkdb.heap f = forkdb.heap (fork_db m) /\
    (forall fd, known fd (fork_db m) -> known fd f) /\
    forall r, r ∈ forkdb.index (fork_db m) ->
      (forall p, p ∈ todo -> forkdb.id_at (fork_db m) r <> forkdb.id_at (fork_db m) p) -> r ∈ forkdb.index f.
Proof.
  revert m. induction todo as [|p todo IH]; intros m; cbn.
  - exists (fork_db m). split_and!; [by destruct m|done..].
  - unfold mbind at 1, N_bind at 1. unfold mbind at 1, N_bind at 1, nget at 1, on_fork at 1. cbn.
    set (f1 := forkdb.set_index _ _).
    destruct (IH (m <| fork_db := f1 |>)) as (f & E & H1 & H2 & H3). exists f.
    split_and!; [exact E|exact H1| |].
    { intros fd Hk. apply H2. intros q. cbn. rewrite list_elem_of_filter. intros [[_ Hq]|Hq]; apply Hk; auto. }
    intros r Hr Hp. apply H3.
    + cbn. apply list_elem_of_filter. split; [|done]. apply Hp. left.
    + intros q Hq. apply Hp. by right.
Qed.
Lemma popped_id m h : forkdb.head (fork_db m) = Some h -> popped m (state m) (snapshots m) h (popped_tx m) = m.
Proof. destruct m as [? ? ? ? [] ?]. cbn. by intros ->. Qed.

(** ** Blocks that can be fetched again *)
Definition on_disk m (i : Z) : Prop :=
  exists b, blockdb.entries (block_db m) !! num_from_id i
              = Some {| blockdb.block_id := i; blockdb.contents := Some b |} /\
    bid b = i /\ num_from_id i < blockdb.count (block_db m).
Lemma fetch_on_disk m i :
  known (fork_data m) (fork_db m) -> on_disk m i -> is_Some (fetch_block_by_id sha224 i m).
Proof.
  intros Hd (b & He & Hb & Hc). unfold fetch_block_by_id.
  destruct (forkdb.fetch_block (fork_db m) i) as [p|] eqn:Ef; [by eapply known_fetch|].
  unfold blockdb.fetch_optional. destruct (Z.leb_spec (blockdb.count (block_db m)) (num_from_id i)); [lia|].
  unfold blockdb.entry_at. rewrite He. cbn. rewrite Z.eqb_refl. unfold blockdb.block_of. cbn.
  by rewrite Hb, Z.eqb_refl.
Qed.
Lemma stored_on_disk m m' i b :
  block_db m' = stored sha224 i b (block_db m) -> bid b = i -> on_disk m' i.
Proof.
  intros E Hb. exists b. rewrite E. unfold stored, blockdb.store. cbn.
  assert ((if i =? 0 then bid b else i) = i) as -> by (by destruct (i =? 0)).
  rewrite lookup_insert_eq. split_and!; [done|done|lia].
Qed.
Lemma stored_keeps m m' i b j :
  block_db m' = stored sha224 i b (block_db m) -> bid b = i -> num_from_id j <> num_from_id i ->
  on_disk m j -> on_disk m' j.
Proof.
  intros E Hb Hne (c & He & Hc & Hn). exists c. rewrite E. unfold stored, blockdb.store. cbn.
  assert ((if i =? 0 then bid b else i) = i) as -> by (by destruct (i =? 0)).
  rewrite lookup_insert_ne by done. split_and!; [done|done|lia].
Qed.

(** ** Applying the new branch *)
(** Every block of the branch leaves at least [k] states in the history. *)
Fixpoint keeps_undo (cps : list (Z * Z)) (skip k : Z) (bs : list (signed_block T)) (s : S) : Prop :=
  match bs with
  | [] => True
  | b :: bs' =>
      (forall kk s1, check_checkpoint sha224 cps skip b = Ok kk -> apply_begin kk b s = Ok s1 ->
         k <= undo_size s1) /\
      (forall s2, applied sha224 cps skip b s = Ok s2 -> keeps_undo cps skip k bs' s2)
  end.

Section new_branch.
Context (fd : gmap nat (signed_block T)) (cps : list (Z * Z)) (skip new_id : Z) (s0 s_old : S).
Context (f1 : forkdb.fork_database) (held first second : list nat) (r pl : nat) (parent : Z).
#[local] Notation data := (fun p b => fd !! p = Some b).

(** What the fork database knows about the two branches. *)
Record branches : Prop := {
  br_parent : head_block_id s0 = parent;
  br_first : NoDup (forkdb.num_at f1 <$> first);
  br_num p : p ∈ first -> num_from_id (forkdb.id_at f1 p) = forkdb.num_at f1 p;
  br_data p b : p ∈ first -> fd !! p = Some b -> bid b = forkdb.id_at f1 p;
  br_above p : p ∈ first -> forkdb.id_at f1 p <> parent;
  br_length : length first = Datatypes.S (length second);
  br_r : forkdb.id_at f1 r = parent;
  br_rnum : 0 <= forkdb.num_at f1 r;
  br_low : forkdb.num_at f1 pl <= forkdb.num_at f1 r + 1;
  br_down f : forkdb.heap f = forkdb.heap f1 -> r ∈ forkdb.index f ->
    exists h hs, head second = Some h /\ length hs = length second /\ descent f held h hs;
  br_old bs : Forall2 data (rev second) bs -> replay cps skip bs s0 = Ok s_old;
  br_olddata : exists bs, Forall2 data (rev second) bs;
}.

(** The node after the blocks [ps] of the new branch, newest first. *)
Record on_branch (ps : list nat) m : Prop := {
  ob_pending : pending_tx_session m = false;
  ob_active : active_sessions m = 0;
  ob_checkpoints : checkpoints m = cps;
  ob_data : fork_data m = fd;
  ob_heap : forkdb.heap (fork_db m) = forkdb.heap f1;
  ob_head : forkdb.head (fork_db m) = Some pl;
  ob_r : r ∈ forkdb.index (fork_db m);
  ob_known : known fd (fork_db m);
  ob_climb : climb fd cps skip s0 ps (state m) (snapshots m);
  ob_disk p : p ∈ ps -> on_disk m (forkdb.id_at f1 p);
  ob_size : (length ps <= undo_max_size m)%nat;
}.

Lemma same_heap f p : forkdb.heap f = forkdb.heap f1 ->
  forkdb.id_at f p = forkdb.id_at f1 p /\ forkdb.num_at f p = forkdb.num_at f1 p /\
  forkdb.prev_at f p = forkdb.prev_at f1 p.
Proof. unfold forkdb.id_at, forkdb.num_at, forkdb.prev_at. by intros ->. Qed.

Lemma r_stays z f : branches -> forkdb.heap f = forkdb.heap f1 -> forkdb.head f = Some pl -> 1 <= z ->
  r ∈ forkdb.index f -> r ∈ forkdb.index (resized z f).
Proof.
  intros B Hh Hd Hz Hr. pose proof (br_rnum B). pose proof (br_low B).
  destruct (same_heap f r Hh) as (_ & Er & _). destruct (same_heap f pl Hh) as (_ & Ep & _).
  apply (resized_keeps z f pl); [done|done|lia|lia].
Qed.

(** A block is applied: the branch grows. *)
Lemma branch_grows p ps b s1 s2 m :
  branches -> on_branch ps m -> p ∈ first -> (forall q, q ∈ ps -> q ∈ first /\ q <> p) ->
  fd !! p = Some b -> applied sha224 cps skip b (state m) = Ok s2 -> Z.of_nat (length ps) + 1 <= undo_size s1 ->
  on_branch (p :: ps) (grown sha224 (forkdb.id_at f1 p) b s1 s2 m).
Proof.
  intros B O Hp Hps Hb Ha Hk. destruct (resized_same (undo_size s1) (fork_db m)) as [E1 E2].
  split; cbn [length]; try (cbn; apply O).
  - cbn. rewrite E1. apply O.
  - cbn. rewrite E2. apply O.
  - cbn. apply r_stays; [done|apply O|apply O|lia|apply O].
  - cbn. apply known_resized, O.
  - cbn. apply (climb_up _ _ _ _ p ps (state m) s2 _ b Hb Ha). apply climb_take; apply O.
  - intros q [->|Hq]%elem_of_cons.
    + eapply stored_on_disk; [done|]. by eapply br_data.
    + destruct (Hps q Hq) as [Hq1 Hq2]. eapply stored_keeps; [done|by eapply br_data| |by apply O].
      rewrite !br_num by done. intros E. apply Hq2.
      destruct (list_elem_of_lookup_1 _ _ Hq1) as [i Hi]. destruct (list_elem_of_lookup_1 _ _ Hp) as [j Hj].
      pose proof (NoDup_lookup _ i j (forkdb.num_at f1 q) (br_first B)) as Hn.
      rewrite !list_lookup_fmap, Hi, Hj in Hn. cbn in Hn. rewrite E in Hn. specialize (Hn eq_refl eq_refl).
      congruence.
  - cbn. lia.
Qed.

(** A block is refused: the node is as it was, with less history. *)
Lemma branch_refuses ps s1 m :
  branches -> on_branch ps m -> (forall s, s1 = Some s -> Z.of_nat (length ps) + 1 <= undo_size s) ->
  on_branch ps (refused s1 m).
Proof.
  intros B O Hk. destruct s1 as [s1|]; unfold refused.
  - destruct (resized_same (undo_size s1) (fork_db m)) as [E1 E2]. specialize (Hk s1 eq_refl).
    split; try (cbn; apply O).
    + cbn. rewrite E1. apply O.
    + cbn. rewrite E2. apply O.
    + cbn. apply r_stays; [done|apply O|apply O|lia|apply O].
    + cbn. apply known_resized, O.
    + cbn. apply climb_take; apply O.
    + cbn. lia.
  - split; try (cbn; apply O). cbn. apply climb_take; apply O.
Qed.

(** The rest of the branch is dropped and the old branch applied again. *)
Lemma switch_back_ok ps todo m e :
  branches -> on_branch ps m -> (forall p, p ∈ ps \/ p ∈ todo -> p ∈ first) ->
  (length ps <= length second)%nat ->
  exists m', switch_back sha224 skip new_id held todo second parent e m = (Throw e, m') /\ state m' = s_old.
Proof.
  intros B O Hin Hlen. unfold switch_back. unfold mbind at 1, N_bind at 1.
  destruct (removals_ok todo m) as (f & -> & Hh & Hk & Hr).
  assert (forkdb.heap f = forkdb.heap f1) as Hf by (rewrite Hh; apply O).
  assert (r ∈ forkdb.index f) as Hrf.
  { apply Hr; [apply O|]. intros p Hp. destruct (same_heap (fork_db m) r (ob_heap _ _ O)) as (-> & _).
    destruct (same_heap (fork_db m) p (ob_heap _ _ O)) as (-> & _). rewrite (br_r B). apply not_eq_sym, (br_above B). auto. }
  destruct (br_down B f Hf Hrf) as (h & hs & Eh & Ehs & Hd).
  unfold mbind at 1, N_bind at 1, on_fork at 1, forkdb.set_head, upd. rewrite Eh.
  set (m1 := m <| fork_db := _ |> <| fork_db := _ |>).
  destruct (climb_pops fd cps skip s0 m1 held parent ps (state m) (snapshots m) h hs) as [ws' Hp];
    [apply O|apply B| | |lia|].
  { apply Forall_forall. intros p Hp b Hb. rewrite (br_data B p b) by auto. split; [apply (br_above B); auto|].
    apply fetch_on_disk; [|exact (ob_disk _ _ O p Hp)].
    change (known (fork_data m) f). rewrite (ob_data _ _ O). apply Hk, O. }
  { by apply descent_rehead. }
  destruct (pop_to_pops held parent m1 _ _ _ (popped_tx m) _ _ _ (ob_pending _ _ O) (ob_active _ _ O) Hp) as (txs & E).
  replace (popped m1 (state m) (snapshots m) h (popped_tx m)) with m1 in E by (by destruct m).
  unfold mbind at 1, N_bind at 1. rewrite E. destruct (br_olddata B) as [bs Hbs].
  unfold mbind at 1, N_bind at 1.
  edestruct (restore_ok fd cps skip new_id (rev second) bs s0 s_old) as (m' & -> & Hs);
    [apply O|apply O|apply O|reflexivity|exact Hbs|by apply (br_old B)|].
  exists m'. by split.
Qed.

Lemma push_branch_ok ps todo bs m :
  branches -> on_branch ps m -> rev first = rev ps ++ todo -> Forall2 data todo bs ->
  keeps_undo cps skip (Z.of_nat (length first)) bs (state m) ->
  exists m', push_branch sha224 skip new_id held todo second parent m =
      (match replay cps skip bs (state m) with Ok _ => Ok tt | Throw e => Throw e end, m') /\
    state m' = match replay cps skip bs (state m) with Ok s => s | Throw _ => s_old end.
Proof.
  intros B O Hrev Hf. revert ps m O Hrev. induction Hf as [|p b todo bs Hb _ IH]; intros ps m O Hrev Hk.
  - by exists m.
  - assert (first = rev todo ++ p :: ps) as Ef.
    { rewrite <- (rev_involutive first), Hrev, rev_app_distr, rev_involutive. cbn. by rewrite <- app_assoc. }
    assert (forall q, q ∈ ps \/ q ∈ p :: todo -> q ∈ first) as Hin.
    { intros q. rewrite Ef, elem_of_app, !elem_of_cons, !list_elem_of_In, <- in_rev. tauto. }
    assert (Z.of_nat (length ps) + 1 <= Z.of_nat (length first)) as Hl by (rewrite Ef, length_app; cbn; lia).
    cbn [push_branch]. unfold mbind at 1, N_bind at 1, nget at 1, mbind at 1, N_bind at 1, nlift at 1, data_at.
    rewrite (ob_data _ _ O), Hb. cbn [deref]. unfold mbind at 1, N_bind at 1, ntry at 1, mbind at 1, N_bind at 1.
    destruct (same_heap (fork_db m) p (ob_heap _ _ O)) as (-> & _).
    destruct (apply_and_store_eq sha224 skip (forkdb.id_at f1 p) b m (ob_active _ _ O)) as (s1 & -> & H1 & H2).
    rewrite (ob_checkpoints _ _ O) in *. destruct Hk as [Hk1 Hk2]. cbn [replay].
    destruct (applied sha224 cps skip b (state m)) as [s2|e] eqn:Ea; cbn -[push_branch switch_back].
    + destruct (H2 s2 eq_refl) as [s1' ->]. destruct (H1 s1' eq_refl) as (kk & Ek & Eb). cbn [default].
      specialize (Hk1 _ _ Ek Eb).
      assert (forall q, q ∈ ps -> q ∈ first /\ q <> p) as Hps.
      { intros q Hq. split; [auto|]. intros ->. pose proof (br_first B) as Hnd. rewrite Ef, fmap_app in Hnd.
        apply NoDup_app in Hnd as (_ & _ & Hnd). cbn in Hnd. apply NoDup_cons in Hnd as [Hnd _].
        apply Hnd. by apply list_elem_of_fmap_2. }
      assert (Z.of_nat (length ps) + 1 <= undo_size s1') as Hsz by lia.
      pose proof (branch_grows p ps b s1' s2 m B O (Hin p (or_intror (list_elem_of_here _ _))) Hps Hb Ea Hsz) as O'.
      edestruct (IH (p :: ps) _ O') as (m' & Em & Es).
      { rewrite Hrev. cbn. by rewrite <- app_assoc. }
      { by apply Hk2. }
      exists m'. by split.
    + assert (forall s, s1 = Some s -> Z.of_nat (length ps) + 1 <= undo_size s) as Hsz.
      { intros s ->. destruct (H1 s eq_refl) as (kk & Ek & Eb). specialize (Hk1 _ _ Ek Eb). lia. }
      pose proof (branch_refuses ps s1 m B O Hsz) as O'.
      destruct (switch_back_ok ps (p :: todo) (refused s1 m) e B O' Hin) as (m' & -> & Es); [|by exists m'].
      pose proof (br_length B). lia.
Qed.
End new_branch.

(** ** The two branches of a switch *)
Lemma path_heap f l p r : fork_wf f -> is_Some (forkdb.heap f !! p) -> path f l p r ->
  forall x, x ∈ l ++ [r] -> is_Some (forkdb.heap f !! x).
Proof.
  intros Hwf Hp. induction 1 as [p|p q l r Hq _ IH]; intros x Hx; cbn in Hx.
  - by apply list_elem_of_singleton in Hx as ->.
  - apply elem_of_cons in Hx as [->|Hx]; [done|]. apply IH; [|done].
    apply (prev_at_heap f p q Hwf) in Hq as (? & _). eauto.
Qed.
Lemma path_nums f l p r : fork_wf f -> path f l p r ->
  NoDup (forkdb.num_at f <$> l ++ [r]) /\
  forall x, x ∈ l ++ [r] -> forkdb.num_at f r <= forkdb.num_at f x <= forkdb.num_at f p.
Proof.
  intros Hwf. induction 1 as [p|p q l r Hq _ [IH1 IH2]]; cbn.
  - split; [apply NoDup_singleton|]. intros x ->%list_elem_of_singleton. lia.
  - apply (prev_at_heap f p q Hwf) in Hq as (_ & _ & Hn). split.
    + apply NoDup_cons. split; [|done]. intros (x & E & Hx)%list_elem_of_fmap. specialize (IH2 x Hx). lia.
    + intros x [->|Hx]%elem_of_cons; [|specialize (IH2 x Hx); lia].
      specialize (IH2 r ltac:(apply elem_of_app; right; apply list_elem_of_here)). lia.
Qed.
Lemma path_descent f held l p r hs : path f l p r -> (forall x, x ∈ l ++ [r] -> x ∈ held) ->
  descent f held r hs -> descent f held p (tail (l ++ [r]) ++ hs).
Proof.
  induction 1 as [p|p q l r Hq Hpath IH]; intros Hh Hd; [done|].
  destruct (path_last _ _ _ _ Hpath) as (l' & E). cbn. rewrite E in *. cbn in *.
  apply descent_down; [done| |]; [right|apply IH; [|done]].
  - apply Hh. rewrite E. right. left.
  - intros x Hx. apply Hh. rewrite E. by right.
Qed.
Lemma climb_first fd cps skip s0 ps q s ws :
  climb fd cps skip s0 (ps ++ [q]) s ws ->
  exists b s1, fd !! q = Some b /\ applied sha224 cps skip b s0 = Ok s1.
Proof.
  revert s ws. induction ps as [|p ps IH]; intros s ws H; cbn in H; inversion H; subst; [|eauto].
  match goal with H : climb _ _ _ _ [] _ _ |- _ => inversion H; subst end. eauto.
Qed.

Lemma data_exist (fd : gmap nat (signed_block T)) ps :
  (forall p, p ∈ ps -> is_Some (fd !! p)) -> exists bs, Forall2 (fun p b => fd !! p = Some b) ps bs.
Proof.
  induction ps as [|p ps IH]; intros H; [by exists []|].
  destruct (H p (list_elem_of_here _ _)) as [b Hb]. destruct IH as [bs Hbs]; [intros q Hq; apply H; by right|].
  exists (b :: bs). by constructor.
Qed.
End switching.
