(* ===== verification/PushClaims.v ===== *)
(** * What pushing blocks and transactions promises *)
From S2P Require Import Prelude Keep Block ForkDb ForkProof PushBlock PushProof SwitchProof.
Local Open Scope Z_scope.
Import block push.

Section claims.
Context {S T : Type} {C : Chain S T} (sha224 : signed_block T -> Z).
#[local] Notation bid := (id sha224).
#[local] Notation node := (node_state S T).
Implicit Types n m : node.

(** ** Switching forks *)
Section switch.
Context {L : ChainLaws C sha224}.














End switch.

(** ** What a node does *)
Inductive node_step n n' : Prop :=
| step_push_block b skip r : push_block sha224 b skip n = (r, n') -> node_step n n'
| step_push_transaction tx skip r : push_transaction tx skip n = (r, n') -> node_step n n'
| step_validate_transaction tx r : validate_transaction tx n = (r, n') -> node_step n n'
| step_clear_pending r : clear_pending n = (r, n') -> node_step n n'
| step_close rewinding r : close sha224 rewinding n = (r, n') -> node_step n n'.
(** A step after which the undo history keeps at least one state. *)
Definition kept_step n n' : Prop := node_step n n' /\ (0 < undo_max_size n')%nat.

Lemma push_block_ok g b skip n r n' :
  node_ok sha224 g n -> push_block sha224 b skip n = (r, n') -> (0 < undo_max_size n')%nat -> node_ok sha224 g n'.
Proof.
  intros Hn H Hk. unfold push_block, with_skip_flags, nfinally in H.
  unfold mbind at 1, N_bind at 1, nget at 1, mbind at 1, N_bind at 1, nupd at 1 in H.
  unfold without_pending_transactions in H.
  unfold mbind at 1, N_bind at 1, nget at 1, mbind at 1, N_bind at 1 in H.
  set (n1 := n <| skip_flags := skip |>) in H.
  pose proof (clear_pending_ok sha224 g n1 Hn) as Hc. destruct (clear_pending n1) as [[[]|e] n2]; cbn in Hc.
  2: { injection H as _ <-. by left. }
  unfold nfinally in H. pose proof (clean_push sha224 g b n2 Hc) as Hp.
  destruct (_push_block sha224 b n2) as [r3 n3]; cbn in Hp.
  pose proof (same_size_restore (undo_max_size n3) (pending_tx n1) n3 eq_refl) as Hs.
  pose proof (restore_pending_ok sha224 g (pending_tx n1) n3) as Hr.
  destruct (restore_pending (pending_tx n1) n3) as [r4 n4]; cbn in Hs, Hr. cbn in H. injection H as _ <-.
  change (node_ok sha224 g n4). change ((0 < undo_max_size n4)%nat) in Hk.
  apply Hr. split; [by left|]. unfold sized in Hs. lia.
Qed.

Lemma close_ok g rewinding : leads (node_ok sha224 g) (clean sha224 g) (close sha224 rewinding).
Proof.
  unfold close. apply leads_bind; [apply clear_pending_ok|]. intros _.
  apply holds_get. intros n Hn. refine (leads_bind _ _ _ _ _ _ n Hn).
  - destruct rewinding; [|apply holds_ret]. apply holds_try; [|intros e; apply holds_ret].
    generalize (Datatypes.S (length (snapshots n))) as fuel. intros fuel.
    generalize (last_irreversible_block_num (state n)) as cutoff. intros cutoff.
    induction fuel as [|fuel IH]; cbn [rewind]; apply holds_get; intros m Hm; destruct (_ <=? _); try done.
    refine (leads_bind _ _ _ _ (clean_pops _ _ _) _ m Hm). intros _.
    apply leads_bind; [by apply holds_on_fork|]. intros _. exact IH.
  - intros _. apply leads_bind; [intros m Hm; apply clear_pending_ok; by left|]. intros _. by apply holds_on_fork.
Qed.

Lemma kept_step_ok g n n' : kept_step n n' -> kept sha224 g n -> kept sha224 g n'.
Proof.
  intros [Hs Hk] [Hn Hn0]. split; [|done]. destruct Hs as [b skip r H|tx skip r H|tx r H|r H|rw r H].
  - by eapply push_block_ok.
  - pose proof (leads_skip (kept sha224 g) (kept sha224 g) skip (_push_transaction tx)) as Ht.
    specialize (Ht (fun _ _ x => x) (fun _ _ x => x) (push_transaction_ok sha224 g tx) n (conj Hn Hn0)).
    unfold push_transaction in H. rewrite H in Ht. apply Ht.
  - pose proof (validate_transaction_ok sha224 g tx n (conj Hn Hn0)) as Ht. rewrite H in Ht. apply Ht.
  - pose proof (clear_pending_ok sha224 g n Hn) as Ht. rewrite H in Ht. by left.
  - pose proof (close_ok g rw n Hn) as Ht. rewrite H in Ht. by left.
Qed.

(** C39. A node is always at the end of a chain.  Whatever blocks and
    transactions are pushed, validated or dropped, with whatever exceptions,
    and when the database is closed: the state behind the pending transactions
    was reached from the initial one by applying blocks, each to the state the
    one before it left; the undo history holds the states before the last of
    them; and the pending transactions, applied in order, lead from there to
    the current state. *)
Theorem node_on_chain g n n' :
  rtc kept_step n n' -> clean sha224 g n -> (0 < undo_max_size n)%nat ->
  exists s ws, history sha224 g s ws /\ rtc (extends sha224) g s /\
    pending_run s (pending_tx n') (state n') /\
    (if pending_tx_session n' then snapshots n' = s :: ws
     else state n' = s /\ snapshots n' = ws /\ pending_tx n' = []).
Proof.
  intros Hr Hc Hk. assert (kept sha224 g n) as Hn0 by (split; [by left|done]). clear Hc Hk.
  assert (kept sha224 g n') as [Hn _] by (induction Hr; [done|]; eauto using kept_step_ok).
  destruct Hn as [(Hp & Ht & _ & Hh)|(Hp & _ & s & ws & Es & Hh & Hr')]; rewrite Hp.
  - exists (state n'), (snapshots n'). rewrite Ht. split_and!; [done|by eapply history_reached|constructor|done..].
  - exists s, ws. split_and!; [done|by eapply history_reached|done|done].
Qed.
End claims.

(** ** A small chain

    A block with a negative transaction cannot be applied. *)
Record toy := { toy_id : Z; toy_num : Z; toy_log : list Z }.
#[global] Instance toy_chain : Chain toy Z := {
  head_block_id := toy_id;
  head_block_num := toy_num;
  last_irreversible_block_num _ := 0;
  undo_size _ := 10;
  apply_begin _ b s :=
    guard_ok (previous b =? toy_id s) assert_exception ;;
    Ok {| toy_id := id wit_sha b; toy_num := block_num b; toy_log := toy_log s |};
  apply_end _ b s :=
    guard_ok (forallb (fun x => 0 <=? x) (transactions b)) assert_exception ;;
    Ok {| toy_id := toy_id s; toy_num := toy_num s; toy_log := transactions b ++ toy_log s |};
  apply_transaction _ tx s :=
    guard_ok (0 <=? tx) assert_exception ;;
    Ok (tx, {| toy_id := toy_id s; toy_num := toy_num s; toy_log := tx :: toy_log s |});
  is_known_transaction s tx := bool_decide (tx ∈ toy_log s);
}.
#[global] Instance toy_laws : ChainLaws toy_chain wit_sha.
Proof.
  split. cbn. intros k b s s1 s2 (u & Hu & [= <-])%bind_ok (u' & _ & [= <-])%bind_ok.
  apply guard_ok_inv, Z.eqb_eq in Hu. done.
Qed.

Definition toy_genesis : toy := {| toy_id := 0; toy_num := 0; toy_log := [] |}.
Definition toy_start : node_state toy Z := {|
  state := toy_genesis; snapshots := []; active_sessions := 0; undo_max_size := 256;
  fork_db := forkdb.empty_fork_database; fork_data := ∅; block_db := blockdb.empty_block_database;
  checkpoints := []; skip_flags := 0; pending_tx_session := false; pending_tx := []; popped_tx := [] |}.
Definition toy_block (parent : signed_block Z) (stamp : Z) (txs : list Z) : signed_block Z :=
  mk_signed_block Z (id wit_sha parent) stamp 0 0 txs.
Definition toy_b1 : signed_block Z := mk_signed_block Z 0 1 0 0 [].
Definition toy_b2 : signed_block Z := toy_block toy_b1 2 [5].
Definition toy_c2 : signed_block Z := toy_block toy_b1 3 [6].
Definition toy_c3 : signed_block Z := toy_block toy_c2 4 [-1].
Definition toy_d3 : signed_block Z := toy_block toy_c2 5 [7].
Definition toy_push (n : node_state toy Z) (b : signed_block Z) : node_state toy Z :=
  (push_block wit_sha b 0 n).2.
(** At [toy_b2], with the branch of [toy_c2] as long. *)
Definition toy_node : node_state toy Z := foldl toy_push toy_start [toy_b1; toy_b2; toy_c2].





(** Blocks pushed one after the other, the history never empty. *)
Fixpoint toy_sized (n : node_state toy Z) (bs : list (signed_block Z)) : bool :=
  match bs with
  | [] => true
  | b :: bs' => (0 <? undo_max_size (toy_push n b))%nat && toy_sized (toy_push n b) bs'
  end.
Lemma toy_pushes bs n : toy_sized n bs = true -> rtc (kept_step wit_sha) n (foldl toy_push n bs).
Proof.
  revert n. induction bs as [|b bs IH]; intros n; cbn [toy_sized foldl]; [constructor|].
  intros [Hb Hbs]%andb_prop. eapply rtc_l; [|by apply IH]. apply Nat.ltb_lt in Hb. split; [|done].
  eapply step_push_block. apply surjective_pairing.
Qed.
(** Three blocks, then a transaction, then a block that is refused: the
    transaction of [toy_c2], which was applied for a while, waits too. *)
Definition toy_waiting : node_state toy Z := (push_transaction 9 0 toy_node).2.
Definition toy_later : node_state toy Z := foldl toy_push toy_waiting [toy_c3].
Lemma toy_node_steps : rtc (kept_step wit_sha) toy_start toy_node.
Proof. apply (toy_pushes [toy_b1; toy_b2; toy_c2] toy_start). vm_compute. reflexivity. Qed.
Lemma toy_waiting_step : kept_step wit_sha toy_node toy_waiting.
Proof.
  split; [apply (step_push_transaction _ _ _ 9 0 (push_transaction 9 0 toy_node).1), surjective_pairing|].
  apply (proj1 (Nat.ltb_lt _ _)). vm_compute. reflexivity.
Qed.
Lemma toy_later_steps : rtc (kept_step wit_sha) toy_waiting toy_later.
Proof. apply (toy_pushes [toy_c3] toy_waiting). vm_compute. reflexivity. Qed.
Lemma node_on_chain_witness : exists s ws,
  history wit_sha toy_genesis s ws /\ rtc (extends wit_sha) toy_genesis s /\
  pending_run s (pending_tx toy_later) (state toy_later) /\ pending_tx toy_later = [6; 9] /\
  snapshots toy_later = s :: ws.
Proof.
  destruct (node_on_chain wit_sha toy_genesis toy_start toy_later) as (s & ws & H1 & H2 & H3 & H4).
  - transitivity toy_node; [exact toy_node_steps|]. exact (rtc_l _ _ _ _ toy_waiting_step toy_later_steps).
  - split_and!; [reflexivity..|]. constructor. constructor.
  - cbn. lia.
  - replace (pending_tx_session toy_later) with true in H4 by (vm_compute; reflexivity).
    assert (pending_tx toy_later = [6; 9]) as H5 by (vm_compute; reflexivity).
    exists s, ws. exact (conj H1 (conj H2 (conj H3 (conj H5 H4)))).
Defined.

(** The switch to [toy_c3] failed and the chain is back at [toy_b2], but the
    block on disk under its number is [toy_c2], and [toy_b2] is not there. *)
Example disk_after_failed_switch :
  head_block_id (state (toy_push toy_node toy_c3)) = id wit_sha toy_b2 /\
  blockdb.fetch_by_number wit_sha (block_db (toy_push toy_node toy_c3)) 2 = Some toy_c2 /\
  blockdb.fetch_optional wit_sha (block_db (toy_push toy_node toy_c3)) (id wit_sha toy_b2) = None.
Proof. vm_compute. split_and!; reflexivity. Qed.

(** Two old blocks above the common parent but only one in the undo history: the
    first is popped, the second cannot be, and the chain is left at [toy_b2]. *)
Definition toy_b3 : signed_block Z := toy_block toy_b2 7 [8].
Definition toy_d4 : signed_block Z := toy_block toy_d3 8 [9].
Definition toy_shallow : node_state toy Z :=
  foldl toy_push toy_start [toy_b1; toy_b2; toy_b3; toy_c2; toy_d3] <| snapshots ::= take 1 |>.
Example switch_out_of_reach :
  head_block_id (state toy_shallow) = id wit_sha toy_b3 /\
  (exists e, (_push_block wit_sha toy_d4 toy_shallow).1 = Throw e) /\
  head_block_id (state (_push_block wit_sha toy_d4 toy_shallow).2) = id wit_sha toy_b2.
Proof. vm_compute. split_and!; [reflexivity|eexists; reflexivity|reflexivity]. Qed.

(** A block on top of [toy_b2] that does not apply stays the head of the fork
    database after it is removed.  The valid branch of [toy_c2] and [toy_d3] is
    longer than the chain, and the node would switch to it, but not any more. *)
Definition toy_bad3 : signed_block Z := toy_block toy_b2 6 [-1].
Example removed_head_blocks_switch :
  (push_block wit_sha toy_d3 0 toy_node).1 = Ok true /\
  head_block_id (state (toy_push toy_node toy_d3)) = id wit_sha toy_d3 /\
  (push_block wit_sha toy_d3 0 (toy_push toy_node toy_bad3)).1 = Throw assert_exception /\
  head_block_id (state (toy_push (toy_push toy_node toy_bad3) toy_d3)) = id wit_sha toy_b2.
Proof. vm_compute. split_and!; reflexivity. Qed.
