(* ===== verification/ApplyBlock.v ===== *)
(** * Applying blocks and transactions (db_block.cpp, transaction_object.hpp)

    A block is checked against the head of the chain and the schedule, its
    transactions are applied in order, and what is due is brought up to date.  A
    transaction is checked for its authority, its reference to a recent block and
    its expiration, and its id is kept until it has expired, so that it is not
    applied again.  With this the chain is an instance of the interface
    [push.Chain] of a node. *)
From S2P Require Import Prelude Keep FcInt Block Authority Asset Pledge Parameters ChainState AccountStats Voter.
From S2P Require Import WitnessSchedule Balance Transfer Frame Ledger Market Fee Payroll Mining WitnessOps.
From S2P Require Import Books BlockUpdate Committee Platform Advertising Content Awards Proposal BlockProof.
From S2P Require Import SupplyBlock ProposalClaims CustomVote CommitteeProof PushBlock.
Local Open Scope Z_scope.
Import block auth asset pledge chain acc voter schedule balance transfer market fee payroll mining witness_ops.
Import updates committee platform advertising posting awards proposals polls.

Module applying.

(** [billed] has the time billed by the receipts of contracts among the results. *)
Record transaction {B Sg : Type} := {
  ref_block_num : Z;
  ref_block_prefix : Z;
  trx_expiration : Z;
  operations : list (operation B);
  signatures : list Sg;
  billed : list Z;
}.
Arguments transaction : clear implicits.
(** [transactions_seen] are the transaction objects, by id, with their expirations;
    [block_summaries] the ids of the last 65536 blocks. *)
Record chain_store {B : Type} := {
  chain_of : chain_state B; transactions_seen : gmap Z Z; block_summaries : gmap Z Z }.
Arguments chain_store : clear implicits.
#[global] Instance chain_store_fields {B} : Fields (chain_store B) :=
  of_ctor (@Build_chain_store B) <*> chain_of <*> transactions_seen <*> block_summaries.

(** [database::validation_steps]. *)
Definition skip_witness_signature : nat := 0.
Definition skip_transaction_signatures : nat := 1.
Definition skip_transaction_dupe_check : nat := 2.
Definition skip_tapos_check : nat := 5.
Definition skip_authority_check : nat := 6.
Definition skip_merkle_check : nat := 7.
Definition skip_undo_history_check_flag : nat := 9.
Definition skip_witness_schedule_check : nat := 10.
Definition skip_uint_test_flag : nat := 13.
Definition skips (skip : Z) (flag : nat) : bool := Z.testbit skip (Z.of_nat flag).

(** What is outside: hashes, digests ([merkle_digest] to [empty_root] are those of the
    merkle root), the recovery of keys from signatures, the second word of a block
    id, who signed a block. *)
Class Crypto (B Sg : Type) := {
  sha224 : signed_block (transaction B Sg) -> Z;
  trx_id : transaction B Sg -> Z;
  recover : transaction B Sg -> Sg -> public_key;
  merkle_digest : transaction B Sg -> Z;
  hash_pair : Z -> Z -> Z;
  hash_root : Z -> Z;
  empty_root : Z;
  id_word : Z -> Z;
  signee : signed_block (transaction B Sg) -> result Z;
}.
(** The id of a transaction is a hash of its contents. *)
Class CryptoLaws {B Sg} (H : Crypto B Sg) : Prop := {
  id_expiration (t t' : transaction B Sg) : trx_id t = trx_id t' -> trx_expiration t = trx_expiration t';
}.
(** Constants and settings of the node: valid uids, two special accounts, the fee schedule,
    the operations whose evaluators ask who signed (transfers, posts and their
    updates, scores, rewards by proxy and buyouts), how deep proposals nest, the last
    checkpoint, and how long old objects are kept. *)
Class Settings (B : Type) := {
  is_valid_uid : Z -> bool;
  TEMP_UID : Z;
  COMMITTEE_UID : Z;
  fee_required : operation B -> database -> result (Z * Z);
  asks_signers : B -> bool;
  depth : nat;
  last_known : option Z;
  advertising_remaining : Z;
  custom_vote_remaining : Z;
  active_post_periods : Z;
}.

Section ops.
Context {F : FcInt} {C : ChainConfig} {B Sg : Type} {E : Evaluators B} {H : Crypto B Sg} {St : Settings B}.
#[local] Notation trx := (transaction B Sg).
#[local] Notation state := (chain_store B).
#[local] Notation M := (M state).
#[local] Notation db s := (base (chain_of s)).

Definition on_chain {A} (m : Prelude.M (chain_state B) A) : M A := fun s =>
  match m (chain_of s) with Ok (a, c) => Ok (a, s <| chain_of := c |>) | Throw e => Throw e end.
Definition on_db {A} (m : Prelude.M database A) : M A := on_chain (on_base m).

(** ** Transactions *)
Definition transaction_validate (t : trx) : result unit :=
  guard_ok (negb (length (operations t) =? 0)%nat) assert_exception ;;
  validate_all is_valid_uid (operations t).
Definition to_check_transaction (t : trx) : bool :=
  existsb (fun o => match o with basic b => asks_signers b | _ => false end) (operations t).
Definition no_signatures : signed_information := {| si_owner := ∅; si_active := ∅; si_secondary := ∅ |}.
(** [signed_transaction::verify_authority], for the state [d]. *)
Definition verify_transaction (t : trx) (d : database) : result signed_information :=
  keys ← get_signature_keys (recover t) (signatures t) ∅;
  verify_authority TEMP_UID COMMITTEE_UID op_required
    (fun uid => a_owner <$> accounts d !! uid) (fun uid => a_active <$> accounts d !! uid)
    (fun uid => a_secondary <$> accounts d !! uid) (operations t) keys (hardfork_04 d)
    (Z.to_nat (max_authority_depth (params d))) false [] [] [].
(** The transaction refers to a recent block and has not expired. *)
Definition check_reference (skip : Z) (t : trx) (s : state) : result unit :=
  if 0 <? head_block_num (db s) then
    (if skips skip skip_tapos_check then Ok tt
     else id ← deref (block_summaries s !! ref_block_num t) assert_exception;
          guard_ok (ref_block_prefix t =? id_word id) assert_exception) ;;
    let now := head_block_time (db s) in
    guard_ok (trx_expiration t <=? time_add now (maximum_time_until_expiration (params (db s)))) assert_exception ;;
    guard_ok (now <=? trx_expiration t) assert_exception
  else Ok tt.
(** [_apply_transaction]; the results it returns hold no receipts of contracts. *)
Definition _apply_transaction (skip : Z) (t : trx) : M trx :=
  lift (transaction_validate t) ;;
  s ← get;
  fc_assert (skips skip skip_transaction_dupe_check || negb (some (transactions_seen s !! trx_id t))) ;;
  sigs ← (if ((negb (skips skip skip_transaction_signatures || skips skip skip_authority_check)) || to_check_transaction t)
             && negb (skips skip skip_uint_test_flag)
          then lift (verify_transaction t (db s)) else mret no_signatures);
  lift (check_reference skip t s) ;;
  when (negb (skips skip skip_transaction_dupe_check))
    (upd (fun s => s <| transactions_seen ::= <[trx_id t := trx_expiration t]> |>)) ;;
  mfor (fun o => on_chain (apply_operation is_valid_uid TEMP_UID COMMITTEE_UID fee_required depth proposed_state sigs o))
    (operations t) ;;
  mret {| ref_block_num := ref_block_num t; ref_block_prefix := ref_block_prefix t; trx_expiration := trx_expiration t;
          operations := operations t; signatures := signatures t; billed := [] |}.

(** ** Blocks *)
Definition validate_block_header (skip : Z) (b : signed_block trx) (d : database) : result unit :=
  guard_ok (chain.head_block_id (dgp d) =? previous b) assert_exception ;;
  guard_ok (head_block_time d <? timestamp b) assert_exception ;;
  w ← get_witness_by_uid d (witness b);
  (if skips skip skip_witness_signature then Ok tt
   else key ← signee b; guard_ok (key =? signing_key w) assert_exception) ;;
  if skips skip skip_witness_schedule_check then Ok tt
  else
    slot ← get_slot_at_time (timestamp b) d;
    guard_ok (0 <? slot) assert_exception ;;
    scheduled ← get_scheduled_witness slot d;
    guard_ok (witness b =? scheduled) assert_exception.
Definition header (b : signed_block trx) : block_header :=
  {| bh_num := block_num b; bh_id := id sha224 b; bh_timestamp := timestamp b; bh_witness := witness b;
     bh_signee := match signee b with Ok k => k | Throw _ => 0 end |}.
Definition block_flags (skip : Z) : node_flags :=
  {| skip_uint_test := skips skip skip_uint_test_flag;
     skip_undo_history_check := skips skip skip_undo_history_check_flag; last_checkpoint := last_known |}.
(** [_apply_block] up to [update_undo_db_size]. *)
Definition apply_block_begin (skip : Z) (b : signed_block trx) : M unit :=
  s ← get;
  (if skips skip skip_merkle_check then mret tt
   else root ← lift (calculate_merkle_root merkle_digest hash_pair hash_root empty_root b);
        fc_assert (transaction_merkle_root b =? root)) ;;
  lift (validate_block_header skip b (db s)) ;;
  on_db (update_global_dynamic_data (block_flags skip) (header b)) ;;
  mfor (fun t => _ ← _apply_transaction skip t; mret tt) (transactions b) ;;
  s ← get;
  fc_assert (u64 (zsum (zsum ∘ billed <$> transactions b)) <=? block_cpu_limit (extension_parameters (params (db s)))) ;;
  on_db (in_operation execute_committee_proposals).
Definition create_block_summary (b : signed_block trx) : M unit :=
  s ← get;
  let sid := Z.land (block_num b) 0xffff in
  lift (deref (block_summaries s !! sid) assert_exception) ;;
  upd (fun s => s <| block_summaries ::= <[sid := id sha224 b]> |>).
(** The loop removes the first of the index by expiration while it has expired. *)
Definition clear_expired_transactions : M unit :=
  upd (fun s => s <| transactions_seen ::= filter (fun x => head_block_time (db s) <= x.2) |>).
(** Without the plugin nothing is cast. *)
Definition clear_votes : Prelude.M database unit := fun d =>
  match clear_custom_votes custom_vote_remaining {| vbase := d; casts := ∅ |} with
  | Ok (u, s) => Ok (u, vbase s)
  | Throw e => Throw e
  end.
Definition clear_unnecessary_objects : Prelude.M database unit :=
  clear_advertising_orders advertising_remaining ;; clear_votes.
(** What a block brings up to date after the proposals. *)
Definition update_objects : Prelude.M database unit :=
  clear_expired_scores ;;
  clear_expired_limit_orders ;;
  clear_expired_csaf_leases ;;
  update_average_witness_pledges ;;
  process_pledge_balance_release ;;
  clear_resigned_witness_votes ;;
  clear_resigned_committee_member_votes ;;
  clear_resigned_platform_votes ;;
  invalidate_expired_governance_voters ;;
  process_invalid_governance_voters ;;
  update_all_effective_votes ;;
  update_committee ;;
  adjust_budgets ;;
  process_content_platform_awards active_post_periods ;;
  process_platform_voted_awards active_post_periods ;;
  update_pledge_mining_bonus ;;
  clear_unnecessary_objects ;;
  enable_hardforks ;;
  d ← get;
  when (HEAD_FORK_05 <=? hardfork d) update_average_platform_pledges ;;
  update_witness_schedule.
(** [_apply_block] after [update_undo_db_size]. *)
Definition apply_block_end (skip : Z) (b : signed_block trx) : M unit :=
  on_db (update_signing_witness (witness b) (timestamp b) (block_num b)) ;;
  on_db update_last_irreversible_block ;;
  create_block_summary b ;;
  clear_expired_transactions ;;
  on_chain (clear_expired_proposals is_valid_uid TEMP_UID COMMITTEE_UID fee_required depth) ;;
  on_db update_objects.
(** The chain a node runs. *)
#[export] Instance applying_chain : push.Chain state trx := {|
  push.head_block_id s := chain.head_block_id (dgp (db s));
  push.head_block_num s := head_block_num (db s);
  push.last_irreversible_block_num s := chain.last_irreversible_block_num (dgp (db s));
  push.undo_size s := undo_db_size (db s);
  push.apply_begin skip b s := snd <$> apply_block_begin skip b s;
  push.apply_end skip b s := snd <$> apply_block_end skip b s;
  push.apply_transaction skip t s := _apply_transaction skip t s;
  push.is_known_transaction s t := some (transactions_seen s !! trx_id t);
|}.
End ops.
End applying.
Import applying.

(** * Nothing a block does but recording itself changes the time *)
Section time.
Context {F : FcInt} {C : ChainConfig}.
#[local] Notation T := head_block_time.
Lemma time_upd f : (forall d, T (f d) = T d) -> keeps T (upd f).
Proof. intros Hf d u d' [= _ <-]. apply Hf. Qed.
Lemma time_stats uid f : keeps T (modify_stats uid f).
Proof. apply keeps_stats, _. Qed.
Lemma time_balance uid a : keeps T (adjust_balance uid a).
Proof. apply quiet_adjust_balance, _. Qed.
Lemma time_witness uid f : keeps T (modify_witness uid f).
Proof. intros d u d' H. unfold modify_witness in H. inv_ok. done. Qed.
Lemma time_dynamic aid f : keeps T (modify_dynamic_data aid f).
Proof. intros d u d' H. unfold modify_dynamic_data in H. inv_ok. done. Qed.
Lemma time_dgp f : (forall g g', f g = Ok g' -> time g' = time g) -> keeps T (modify_dgp f).
Proof.
  intros Hf d u d' H. unfold modify_dgp in H. apply bind_ok in H as (g & Hg & [= _ <-]). by apply (Hf (dgp d)).
Qed.
End time.
#[local] Hint Resolve time_stats time_balance time_witness time_dynamic time_upd time_dgp : keeps.
Ltac time_side := intros; repeat (first [progress inv_ok|case_match]); done.
Ltac keep_time := keep; try (apply keeps_drain; intros ?; keep); try (first [apply time_upd|apply time_dgp]; time_side).
Section updates_time.
Context {F : FcInt} {C : ChainConfig} {B : Type} {St : Settings B}.
#[local] Notation T := head_block_time.
#[local] Hint Resolve keeps_invalidate_voter keeps_update_voter_effective_votes keeps_modify_voter : keeps.
Lemma time_irreversible : keeps T update_last_irreversible_block.
Proof. unfold update_last_irreversible_block. keep_time. Qed.
Lemma time_signing w t n : keeps T (update_signing_witness w t n).
Proof. unfold update_signing_witness, deposit_witness_pay, adjust_supply. keep_time. Qed.
Lemma time_leases : keeps T clear_expired_csaf_leases.
Proof. unfold clear_expired_csaf_leases, end_lease, lease_core. keep_time. Qed.
Lemma time_scores : keeps T clear_expired_scores.
Proof. unfold clear_expired_scores. keep_time. Qed.
Lemma time_get_order i : keeps T (get_order i).
Proof. intros d o d' H. unfold get_order in H. inv_ok. done. Qed.
#[local] Hint Resolve time_get_order : keeps.
Lemma time_orders : keeps T clear_expired_limit_orders.
Proof. unfold clear_expired_limit_orders, cancel_limit_order. keep_time. Qed.
Lemma time_witness_pledges : keeps T update_average_witness_pledges.
Proof. unfold update_average_witness_pledges, update_witness_avg_pledge. keep_time. Qed.
Lemma time_platform_avg uid : keeps T (update_platform_avg_pledge uid).
Proof. unfold update_platform_avg_pledge. keep_time. Qed.
Lemma time_platform_pledges : keeps T update_average_platform_pledges.
Proof. unfold update_average_platform_pledges. keep_time. apply time_platform_avg. Qed.
Lemma time_release : keeps T process_pledge_balance_release.
Proof. unfold process_pledge_balance_release, release_pledge_balance, release_coin_seconds, remove_pledge_balance. keep_time. Qed.
Lemma time_committee : keeps T update_committee.
Proof. unfold update_committee. keep_time. Qed.
Lemma time_budgets : keeps T adjust_budgets.
Proof. unfold adjust_budgets. keep_time. Qed.

(** ** Voters and those who resigned *)
Lemma time_pay_pledgers w x l n : keeps T (pay_pledgers w x l n).
Proof.
  revert n. induction l as [|a l IH]; intros n; cbn [pay_pledgers]; [apply keeps_ret|].
  unfold update_pledge_mining_bonus_by_account. keep_time.
Qed.
#[local] Hint Resolve time_pay_pledgers : keeps.
Lemma time_mining_witness w x : keeps T (update_pledge_mining_bonus_by_witness w x).
Proof. unfold update_pledge_mining_bonus_by_witness. keep_time. Qed.
#[local] Hint Resolve time_mining_witness : keeps.
Lemma time_mining : keeps T update_pledge_mining_bonus.
Proof. unfold update_pledge_mining_bonus. keep_time. Qed.
Lemma time_update_pledge i a n : keeps T (update_pledge_of i a n).
Proof. unfold update_pledge_of. keep_time. Qed.
#[local] Hint Resolve time_update_pledge time_platform_avg : keeps.
Lemma time_discard k : keeps T (discard_witness k).
Proof. unfold discard_witness, resign_pledge_mining, remove_witness. keep_time. Qed.
Lemma time_clear_resigned b n f g x :
  b ∈ [witness_ballot; committee_ballot; platform_ballot] -> (forall k, keeps T (g k)) ->
  keeps T (clear_resigned n b f g x).
Proof.
  intros Hb Hg. apply keeps_clear_resigned; [|done]. intros os m. apply clear_votes_keeps; [done|]. intros l d.
  repeat (apply elem_of_cons in Hb as [->|Hb]; [done|]). by apply not_elem_of_nil in Hb.
Qed.
Lemma time_resigned :
  keeps T clear_resigned_witness_votes /\ keeps T clear_resigned_committee_member_votes /\
  keeps T clear_resigned_platform_votes.
Proof.
  unfold clear_resigned_witness_votes, clear_resigned_committee_member_votes, clear_resigned_platform_votes.
  split_and!; keep; (apply time_clear_resigned; [set_solver|]); intros k.
  - apply time_discard.
  - unfold remove_member. keep_time.
  - unfold remove_platform. keep_time.
Qed.
Lemma time_expired_voters : keeps T invalidate_expired_governance_voters.
Proof. unfold invalidate_expired_governance_voters. keep_time. apply keeps_invalidate_voter, _. Qed.
Lemma time_drop_proxies n k cur x : keeps T (drop_proxies n k cur x).
Proof. revert cur x. induction n as [|n IH]; intros cur x; cbn [drop_proxies]; keep_time. apply keeps_modify_voter, _. Qed.
Lemma time_invalid_loop n x : keeps T (process_invalid_loop n x).
Proof.
  revert x. induction n as [|n IH]; intros x; cbn [process_invalid_loop]; keep_time.
  unfold process_invalid_proxied_voters. keep_time;
    [apply time_drop_proxies|apply keeps_modify_voter, _].
Qed.
Lemma time_invalid_voters : keeps T process_invalid_governance_voters.
Proof. unfold process_invalid_governance_voters. keep. apply time_invalid_loop. Qed.
Lemma time_effective_votes : keeps T update_all_effective_votes.
Proof. unfold update_all_effective_votes. keep_time. apply keeps_update_voter_effective_votes, _. Qed.

(** ** Hardforks, the schedule, and what is cleared *)
Lemma time_core_flags : keeps T update_core_asset_flags.
Proof. intros d u d' H. unfold update_core_asset_flags in H. inv_ok. done. Qed.
#[local] Hint Resolve time_core_flags : keeps.
Lemma time_hardforks : keeps T enable_hardforks.
Proof.
  unfold enable_hardforks, update_reduce_witness_csaf, update_account_feepoint, destroy_budget_pool,
    refresh_coin_seconds, update_account_permission, update_account_reg_info. keep_time.
Qed.
Lemma time_advance now uids : keeps T (advance_by_vote now uids) /\ keeps T (advance_by_pledge now uids).
Proof. split; (induction uids as [|uid uids IH]; cbn [advance_by_vote advance_by_pledge]; keep_time). Qed.
Lemma time_schedule : keeps T update_witness_schedule.
Proof.
  unfold update_witness_schedule, restart_by_vote, restart_by_pledge, shuffle_witnesses,
    reset_witness_by_vote_schedule, reset_witness_by_pledge_schedule. keep_time; apply time_advance.
Qed.
Lemma time_clear : keeps T clear_unnecessary_objects.
Proof.
  unfold clear_unnecessary_objects, clear_advertising_orders. keep_time. intros d u d' H.
  unfold clear_votes, clear_custom_votes, mbind, M_bind, get, when in H. cbn in H. 
  destruct (_ && _); cbn in H; by injection H as _ <-.
Qed.

(** ** Awards *)
Section awards.
Variable periods : Z.
Lemma time_platform uid f : keeps T (modify_platform uid f).
Proof. intros d u d' H. unfold modify_platform in H. inv_ok. done. Qed.
#[local] Hint Resolve time_platform : keeps.
Lemma time_award_scores a s t l e acc : keeps T (award_scores a s t l e acc).
Proof.
  revert e acc. induction l as [|[[k eff] approve] l IH]; intros e acc; cbn [award_scores]; [apply keeps_ret|].
  do 5 (apply keeps_bind; [unfold set_profits; keep_time|intros ?]). apply IH.
Qed.
#[local] Hint Resolve time_award_scores : keeps.
Lemma time_award_posts per total l acc : keeps T (award_posts per total l acc).
Proof.
  revert acc. induction l as [|x l IH]; intros acc; [apply keeps_ret|]. cbn [award_posts].
  apply keeps_bind; [|intros ?; apply IH]. destruct x as [[[[[platform poster] period] pid] csaf] approval].
  unfold award_post, modify_active, modify_post, set_post. keep_time.
Qed.
Lemma time_award_profits a b c e : keeps T (award_profits periods a b c e).
Proof. unfold award_profits. keep_time. Qed.
#[local] Hint Resolve time_award_posts time_award_profits : keeps.
Lemma time_award_platforms per total l m : keeps T (award_platforms periods per total l m).
Proof.
  revert m. induction l as [|[platform csaf] l IH]; intros m; [apply keeps_ret|]. cbn. keep_time.
Qed.
Lemma time_pay_all pay l a : (forall uid x, keeps T (pay uid x)) -> keeps T (pay_all pay l a).
Proof. intros Hp. revert a. induction l as [|[uid x] l IH]; intros a; cbn; keep_time. Qed.
Lemma time_contents : keeps T (process_content_platform_awards periods).
Proof.
  unfold process_content_platform_awards, clear_active_post, pay_content_awards, award_contents, award_content_platforms,
    take_awards, pay_score_bonus. keep_time; try apply time_award_platforms; (apply time_pay_all; intros; keep_time).
Qed.
Lemma time_votes : keeps T (process_platform_voted_awards periods).
Proof. unfold process_platform_voted_awards, pay_platform_award, take_awards. keep_time. Qed.
End awards.

(** ** What the committee decides *)
#[local] Hint Resolve time_update_pledge time_platform_avg : keeps.
Lemma time_plan_item pl item : stays T (plan_item pl item).
Proof.
  destruct item; cbn [plan_item]; stay.
  unfold withdraw_platform_pledge, reduce_platform_pledge, close_platform, lower_platform. stay.
  all: keep_time.
Qed.
Lemma time_execute_items num p : stays T (execute_items num p).
Proof.
  assert (forall l pl, stays T (nfold plan_item pl l)) as Hp.
  { induction l as [|item l IH]; intros pl; cbn [nfold]; [apply stays_ret|].
    apply stays_bind; [apply time_plan_item|intros pl'; apply IH]. }
  unfold execute_items, carry_out, set_priviledges. stay; try apply Hp.
  - apply keeps_invalidate_voter, _.
  - apply time_stats.
  - by destruct (pl_fees _), (pl_parameters _), (pl_extension _).
Qed.
Lemma time_postpone num p : stays T (postpone num p).
Proof. unfold postpone. stay. Qed.
Lemma time_committee_proposals : keeps T (in_operation execute_committee_proposals).
Proof.
  intros d u d' H%in_operation_ok. refine (stays_same T _ d (Ok u) d' _ H).
  unfold execute_committee_proposals, execute_committee_proposal. stay.
  intros t. apply holds_try; [apply time_execute_items|]. intros e. apply time_postpone.
Qed.

(** ** Taken together *)
Lemma time_objects : keeps T update_objects.
Proof.
  unfold update_objects. destruct time_resigned as (R1 & R2 & R3).
  do 20 (apply keeps_bind;
    [first [ apply time_scores | apply time_orders | apply time_leases | apply time_witness_pledges | apply time_release
           | exact R1 | exact R2 | exact R3 | apply time_expired_voters | apply time_invalid_voters
           | apply time_effective_votes | apply time_committee | apply time_budgets | apply time_contents | apply time_votes
           | apply time_mining | apply time_clear | apply time_hardforks | apply keeps_get
           | apply keeps_when, time_platform_pledges ] | intros ?]).
  apply time_schedule.
Qed.
End updates_time.

(** * A transaction is applied once *)
Section claims.
Context {F : FcInt} {C : ChainConfig} {B Sg : Type} {E : Evaluators B} {EL : EvaluatorLaws E}.
Context {H : Crypto B Sg} {HL : CryptoLaws H} {St : Settings B}.
#[local] Notation trx := (transaction B Sg).
#[local] Notation state := (chain_store B).
#[local] Notation now s := (head_block_time (base (chain_of s))).
#[local] Notation number s := (head_block_num (base (chain_of s))).

(** Of those applied each is remembered or has expired. *)
Definition remembered (done : list trx) (s : state) : Prop :=
  forall t, t ∈ done -> transactions_seen s !! trx_id t = Some (trx_expiration t) \/ trx_expiration t < now s.
(** A step that forgets nothing, and does not turn the clock back. *)
Definition retains (s s' : state) : Prop := transactions_seen s' = transactions_seen s /\ now s <= now s'.
Lemma retains_remembered done s s' : retains s s' -> remembered done s -> remembered done s'.
Proof. intros [E1 E2] Hd t Ht. rewrite E1. destruct (Hd t Ht) as [?|?]; [by left|right; lia]. Qed.
Lemma on_chain_seen {A} (m : M (chain_state B) A) (s : state) a s' :
  on_chain m s = Ok (a, s') -> transactions_seen s' = transactions_seen s /\ m (chain_of s) = Ok (a, chain_of s').
Proof. unfold on_chain. destruct (m (chain_of s)) as [[x c]|e]; [|done]. by intros [= -> <-]. Qed.
Lemma on_db_retains {A} (m : M database A) (s : state) a s' :
  keeps head_block_time m -> on_db m s = Ok (a, s') -> transactions_seen s' = transactions_seen s /\ now s' = now s.
Proof.
  intros Hk Hm. apply on_chain_seen in Hm as [E1 Hm]. split; [done|]. unfold on_base in Hm.
  destruct (m (base (chain_of s))) as [[x d]|e] eqn:Em; [|done]. injection Hm as _ <-. by eapply Hk.
Qed.
Lemma apply_ops_retain sigs l : forall s u s',
  mfor (fun o => on_chain (apply_operation is_valid_uid TEMP_UID COMMITTEE_UID fee_required depth proposed_state sigs o)) l s
    = Ok (u, s') -> transactions_seen s' = transactions_seen s /\ now s' = now s /\ number s' = number s.
Proof.
  induction l as [|o l IH]; intros s u s' Hm; [by injection Hm as _ <-|]. cbn in Hm. step Hm as u1 s1 H1.
  apply on_chain_seen in H1 as [E1 H1]. apply apply_calm in H1 as [[= T1 N1] _]. apply IH in Hm as (E2 & T2 & N2). split_and!; congruence.
Qed.
(** What it takes to apply a transaction, and what stays of it. *)
Lemma apply_transaction_seen skip t s t' s' :
  skips skip skip_transaction_dupe_check = false -> 0 < number s ->
  _apply_transaction skip t s = Ok (t', s') ->
  transactions_seen s !! trx_id t = None /\ now s <= trx_expiration t /\
  transactions_seen s' = <[trx_id t := trx_expiration t]> (transactions_seen s) /\ now s' = now s /\ number s' = number s.
Proof.
  intros Hs Hn Hm. unfold _apply_transaction in Hm. peel Hm as v Hv. peel Hm as sg Hg. rewrite Hs in Hm. cbn [orb negb] in Hm.
  peel Hm as a Ha. step Hm as sigs s1 H1. assert (s1 = s) as ->.
  { destruct (_ && _); [|by injection H1 as _ <-]. by apply lift_ok in H1 as (? & _ & [= _ ->]). }
  peel Hm as r Hr. step Hm as u1 s1 H2. injection H2 as _ <-. step Hm as u2 s2 H3. injection Hm as _ <-.
  apply apply_ops_retain in H3 as (E3 & T3 & N3). split; [by destruct (transactions_seen s !! trx_id t)|]. split; [|by split].
  unfold check_reference in Hr. destruct (Z.ltb_spec 0 (number s)); [|lia].
  apply bind_ok in Hr as (x & _ & Hr). cbv zeta in Hr. apply bind_ok in Hr as (y & _ & Hr%guard_ok_inv). lia.
Qed.
Lemma update_global_sets fl h d u d' :
  update_global_dynamic_data fl h d = Ok (u, d') -> head_block_time d' = bh_timestamp h /\ head_block_num d' = bh_num h.
Proof.
  intros Hm. unfold update_global_dynamic_data in Hm. peel Hm as d0 Hd. peel Hm as slot Hslot. step Hm as u1 d1 H1.
  step Hm as u2 d2 H2. unfold modify_dgp in H2. apply bind_ok in H2 as (g & [= <-] & [= _ <-]). peel Hm as d3 Hd3.
  destruct (skip_undo_history_check fl); [by injection Hm as _ <-|]. destruct (_ <? _); [by injection Hm as _ <-|done].
Qed.
Lemma fresh_id done s t :
  remembered done s -> transactions_seen s !! trx_id t = None -> now s <= trx_expiration t -> trx_id t ∉ trx_id <$> done.
Proof.
  intros Hd Hn Ht (t' & E1 & Hin)%list_elem_of_fmap. pose proof (id_expiration _ _ E1) as E2.
  destruct (Hd t' Hin) as [Hs|Hs]; [rewrite <- E1 in Hs; congruence|lia].
Qed.
Lemma apply_transactions_once skip l : forall done (s : state) u s',
  skips skip skip_transaction_dupe_check = false -> 0 < number s ->
  remembered done s -> NoDup (trx_id <$> done) ->
  mfor (fun t => _ ← _apply_transaction skip t; mret tt) l s = Ok (u, s') ->
  remembered (done ++ l) s' /\ NoDup (trx_id <$> done ++ l) /\ Forall (fun t => now s <= trx_expiration t) l /\ now s' = now s.
Proof.
  induction l as [|t l IH]; intros done s u s' Hs Hn Hd Hu Hm; [injection Hm as _ <-; by rewrite app_nil_r|].
  cbn in Hm. step Hm as u1 s1 H1. step H1 as t' s2 H2. injection H1 as _ <-.
  apply apply_transaction_seen in H2 as (Hf & Ht & E2 & T2 & N2); [|done..]. pose proof (fresh_id _ _ _ Hd Hf Ht) as Hnew.
  assert (remembered (done ++ [t]) s2) as Hd2.
  { intros x Hx. rewrite E2, T2. apply elem_of_app in Hx as [Hx| ->%list_elem_of_singleton]; [|left; apply lookup_insert_eq].
    rewrite lookup_insert_ne; [exact (Hd x Hx)|]. intros Ex. apply Hnew. rewrite Ex. by apply list_elem_of_fmap_2. }
  assert (NoDup (trx_id <$> done ++ [t])) as Hu2.
  { rewrite fmap_app. apply NoDup_app. split_and!; [done| |apply NoDup_singleton].
    intros x Hx Hx2. apply list_elem_of_singleton in Hx2 as ->. done. }
  rewrite <- N2 in Hn. destruct (IH _ _ _ _ Hs Hn Hd2 Hu2 Hm) as (R1 & R2 & R3 & R4). rewrite <- !app_assoc in *. cbn in *.
  rewrite T2 in R3. split_and!; [done|done|by constructor|congruence].
Qed.

(** ** Blocks *)
Definition apply_one (skip : Z) (b : signed_block trx) : M state unit :=
  apply_block_begin skip b ;; apply_block_end skip b.
Fixpoint apply_all (bs : list (Z * signed_block trx)) : M state unit :=
  match bs with [] => mret tt | x :: bs' => apply_one x.1 x.2 ;; apply_all bs' end.
(** Nothing is remembered for longer than it must be. *)
Lemma clear_remembers done (s s' : state) u : clear_expired_transactions s = Ok (u, s') -> remembered done s -> remembered done s'.
Proof.
  intros [= _ <-] Hd t Ht. cbn. destruct (decide (trx_expiration t < now s)) as [Hx|Hx]; [by right|].
  destruct (Hd t Ht) as [Hs|Hs]; [|lia]. left. apply map_lookup_filter_Some. split; [done|]. cbn. lia.
Qed.
Lemma proposals_retain n (s : state) u s' :
  on_chain (clear_expired_proposals is_valid_uid TEMP_UID COMMITTEE_UID fee_required n) s = Ok (u, s') ->
  transactions_seen s' = transactions_seen s /\ now s' = now s.
Proof.
  intros [E1 Hm]%on_chain_seen. split; [done|].
  pose proof (drain_expired is_valid_uid TEMP_UID COMMITTEE_UID fee_required n (size (pending (chain_of s))) (chain_of s)
                (due_count_le _ _)) as Hd.
  unfold clear_expired_proposals, mbind, M_bind, get in Hm. rewrite Hm in Hd. destruct Hd as (_ & Hc & _). by apply calm_now in Hc.
Qed.
Lemma apply_end_remembers done skip b (s : state) u s' :
  apply_block_end skip b s = Ok (u, s') -> remembered done s -> remembered done s'.
Proof.
  intros Hm Hd. unfold apply_block_end in Hm. step Hm as u1 s1 H1. apply on_db_retains in H1 as [E1 T1]; [|apply time_signing].
  step Hm as u2 s2 H2. apply on_db_retains in H2 as [E2 T2]; [|apply time_irreversible]. step Hm as u3 s3 H3.
  assert (retains s s3) as R3.
  { unfold create_block_summary in H3. peel H3 as sg Hg. cbv zeta in H3. peel H3 as i Hi. injection H3 as _ <-.
    split; cbn; [congruence|lia]. }
  step Hm as u4 s4 H4. apply (clear_remembers done) in H4; [|by eapply retains_remembered]. step Hm as u5 s5 H5.
  apply proposals_retain in H5 as [E5 T5]. apply on_db_retains in Hm as [E6 T6]; [|apply time_objects].
  eapply retains_remembered, H4. split; [congruence|lia].
Qed.
Lemma apply_one_once done skip b (s : state) u s' :
  skips skip skip_transaction_dupe_check = false -> block_num b <> 0 ->
  remembered done s -> NoDup (trx_id <$> done) -> apply_one skip b s = Ok (u, s') ->
  remembered (done ++ transactions b) s' /\ NoDup (trx_id <$> done ++ transactions b) /\
  Forall (fun t => timestamp b <= trx_expiration t) (transactions b).
Proof.
  intros Hs Hb Hd Hu Hm. unfold apply_one in Hm. step Hm as u1 s1 H1. unfold apply_block_begin in H1. peel H1 as sg Hg.
  step H1 as u2 s2 H2. assert (s2 = s) as ->.
  { destruct (skips skip skip_merkle_check); [by injection H2 as _ <-|]. peel H2 as root Hroot. by apply fc_assert_ok in H2 as [_ [= _ ->]]. }
  peel H1 as hd Hhd. apply bind_ok in Hhd as (x1 & _ & Hhd). apply bind_ok in Hhd as (x2 & Hlt%guard_ok_inv%Z.ltb_lt & _).
  step H1 as u3 s3 H3. apply on_chain_seen in H3 as [E3 H3]. unfold on_base in H3.
  destruct (update_global_dynamic_data _ _ _) as [[x3 d3]|e] eqn:Eg; [|done]. injection H3 as _ Ec.
  apply update_global_sets in Eg as [Tg Ng]. cbn in Tg, Ng.
  assert (now s3 = timestamp b /\ number s3 = block_num b) as [T3 N3] by (rewrite <- Ec; cbn; by rewrite Tg, Ng).
  assert (remembered done s3) as Hd3 by (eapply retains_remembered, Hd; split; [done|lia]).
  assert (0 < number s3) as Hn.
  { rewrite N3. unfold block_num in *. pose proof (Z.mod_pos_bound (num_from_id (previous b) + 1) (2 ^ 32)). unfold u32, wrap in *. lia. }
  step H1 as u4 s4 H4. destruct (apply_transactions_once _ _ _ _ _ _ Hs Hn Hd3 Hu H4) as (R1 & R2 & R3 & R4).
  peel H1 as s5 Hs5. peel H1 as cpu Hcpu. apply on_db_retains in H1 as [E5 T5]; [|apply time_committee_proposals].
  split_and!; [|done|by rewrite <- T3]. eapply apply_end_remembers; [exact Hm|]. eapply retains_remembered, R1. split; [done|lia].
Qed.
Lemma apply_all_once bs : forall done (s : state) u s',
  Forall (fun x => skips x.1 skip_transaction_dupe_check = false /\ block_num x.2 <> 0) bs ->
  remembered done s -> NoDup (trx_id <$> done) -> apply_all bs s = Ok (u, s') ->
  NoDup (trx_id <$> done ++ concat (transactions ∘ snd <$> bs)) /\
  Forall (fun x => Forall (fun t => timestamp x.2 <= trx_expiration t) (transactions x.2)) bs.
Proof.
  induction bs as [|x bs IH]; intros done s u s' Hb Hd Hu Hm; [by rewrite app_nil_r|].
  apply Forall_cons in Hb as [[Hs Hn] Hb]. cbn in Hm. step Hm as u1 s1 H1.
  destruct (apply_one_once _ _ _ _ _ _ Hs Hn Hd Hu H1) as (R1 & R2 & R3).
  destruct (IH _ _ _ _ Hb R1 R2 Hm) as [R4 R5]. cbn. rewrite app_assoc. split; [done|by constructor].
Qed.
End claims.

(** C9. No transaction is applied twice.  Whatever blocks are applied one after
    another, with the check for duplicates on: all their transactions have
    different ids, and each was applied before it expired.  The ids of applied
    transactions are forgotten, but only when the transaction could no longer be
    applied; nothing else a block does, neither its operations nor proposals nor the
    updates at its end, forgets an id or turns the clock back. *)
Theorem no_transaction_twice {F : FcInt} {C : ChainConfig} {B Sg : Type} {E : Evaluators B} {EL : EvaluatorLaws E}
    {H : Crypto B Sg} {HL : CryptoLaws H} {St : Settings B}
    (bs : list (Z * signed_block (transaction B Sg))) (s s' : chain_store B) :
  Forall (fun x => skips x.1 skip_transaction_dupe_check = false /\ block_num x.2 <> 0) bs ->
  apply_all bs s = Ok (tt, s') ->
  NoDup (trx_id <$> concat (transactions ∘ snd <$> bs)) /\
  Forall (fun x => Forall (fun t => timestamp x.2 <= trx_expiration t) (transactions x.2)) bs.
Proof.
  intros Hb Hm. apply (apply_all_once bs [] s tt s'); [done| |apply NoDup_nil_2|done].
  intros t Ht. by apply not_elem_of_nil in Ht.
Qed.

(** A chain of transfers with one witness, account 20 with the key 7: account 10 sends
    coins in two blocks. *)
#[local] Instance toy_crypto : Crypto paid_transfer Z := {|
  sha224 _ := 0; trx_id t := Z.pos (encode (trx_expiration t, ref_block_num t)); recover _ sg := sg;
  merkle_digest := trx_expiration; hash_pair := Z.add; hash_root x := x; empty_root := 0; id_word _ := 0;
  signee _ := Ok 7 |}.
#[local] Instance toy_crypto_laws : CryptoLaws toy_crypto.
Proof. split. intros t t' [= Ht]. apply (inj encode) in Ht. by injection Ht. Qed.
#[local] Instance toy_settings : Settings paid_transfer := {|
  is_valid_uid _ := true; TEMP_UID := 5; COMMITTEE_UID := 1; fee_required _ _ := Ok (0, 0); asks_signers _ := true;
  depth := 1; last_known := None; advertising_remaining := 31536000; custom_vote_remaining := 31536000;
  active_post_periods := 10 |}.
Definition block_id_of (num : Z) : Z := Z.shiftl num 128.
Definition village : chain_store paid_transfer :=
  {| chain_of := {| base := bank
       <| accounts := {[ 10 := signer 110; 20 := signer 120 ]} |>
       <| params ::= fun p => p <| maximum_time_until_expiration := 3600 |> <| max_authority_depth := 2 |> |>
       <| dgp ::= fun g => g <| chain.head_block_id := block_id_of 5000000 |> <| last_irreversible_block_num := 4999990 |>
            <| next_budget_adjust_block := 9000000 |> <| next_committee_update_block := 9000000 |> |>
       <| witnesses := {[ 20 := new_witness <| w_sequence := 1 |> <| signing_key := 7 |> ]} |>
       <| active_witnesses := [(20, scheduled_by_vote_top)] |>
       <| witness_schedule := {| current_by_vote_time := 0; current_by_pledge_time := 0;
            current_shuffled_witnesses := [20]; next_schedule_block_num := 9000000 |} |>;
       pending := ∅; next_proposal_id := 0 |};
     transactions_seen := ∅;
     block_summaries := {[ 0 := 0; 19265 := 0; 19266 := 0 ]} |}.
Definition send (x exp : Z) : transaction paid_transfer Z :=
  {| ref_block_num := 0; ref_block_prefix := 0; trx_expiration := exp; operations := [plain_transfer x];
     signatures := [110]; billed := [] |}.
Definition village_block (num : Z) (t : transaction paid_transfer Z) : signed_block (transaction paid_transfer Z) :=
  mk_signed_block _ (block_id_of (num - 1)) (1600000000 + 3 * (num - 5000000)) 20 (trx_expiration t) [t].
Definition village_blocks (ts : list (transaction paid_transfer Z)) : list (Z * signed_block (transaction paid_transfer Z)) :=
  imap (fun i t => (0, village_block (5000001 + Z.of_nat i) t)) ts.
#[local] Notation village_run ts :=
  (@apply_all fc_checked no_proxy _ _ (@transfers fc_checked no_proxy) toy_crypto toy_settings (village_blocks ts) village).
Lemma no_transaction_twice_witness :
  exists s', village_run [send 100 1600000010; send 200 1600000020] = Ok (tt, s') /\
    balance_of (base (chain_of s')) 10 0 = 700 /\
    NoDup (trx_id <$> [send 100 1600000010; send 200 1600000020]).
Proof.
  destruct (village_run [send 100 1600000010; send 200 1600000020]) as [[[] s']|e] eqn:Er;
    [|exfalso; vm_compute in Er; discriminate Er].
  exists s'. split; [reflexivity|]. split.
  - change s' with (match Ok (tt, s') with Ok (_, s) => s | Throw _ => s' end). rewrite <- Er. vm_compute. reflexivity.
  - assert (Forall (fun x => skips x.1 skip_transaction_dupe_check = false /\ block_num x.2 <> 0)
              (village_blocks [send 100 1600000010; send 200 1600000020])) as Hb by (repeat constructor; vm_compute; discriminate).
    destruct (@no_transaction_twice fc_checked no_proxy _ _ _ (@transfer_laws fc_checked no_proxy) toy_crypto toy_crypto_laws
                toy_settings _ _ _ Hb Er) as [Hn _]. exact Hn.
Defined.
(** A transaction that was applied is refused; and one that expired is refused also
    when the check of its reference is skipped, which
    is said to skip the check of expiration as well. *)
Example replay_refused :
  village_run [send 100 1600000010; send 100 1600000010] = Throw assert_exception /\
  check_reference (2 ^ Z.of_nat skip_tapos_check) (send 100 1599999999) village = Throw assert_exception.
Proof. split; vm_compute; reflexivity. Qed.
